(* ===== verification/_CoqProject ===== *)
-Q . S2P
Prelude.v
GoMonad.v
Domain.v
Ports.v
Token.v
Suppression.v
EventProcessor.v
Postgres.v
Database.v
Config.v
Http.v
Directory.v
Auth.v
Members.v
Roles.v
Gates.v
Surface.v
Authority.v
Keys.v
Listings.v
ControlRuns.v
Inheritance.v
Hosted.v
Cache.v
Resolution.v
Templates.v
Versions.v
Publication.v
Copies.v
TemplateHandlers.v
Fleet.v
TenantHandlers.v
TenantSafety.v
TenantGuard.v
TemplateSafety.v
TemplateRuns.v
FleetRuns.v
Provisioning.v
Tracking.v
TrackingRuns.v
ConfigStore.v
External.v
ExternalSafety.v
ExternalRuns.v
Injectors.v
InjectorRepo.v
InjectorHandlers.v
InjectorSafety.v
InjectorSchema.v
InjectorRuns.v
Render.v
Unsubscribe.v
Webhooks.v
Feedback.v
SendWorker.v
RateLimit.v
WorkerRuns.v
SNS.v
Inbound.v
InboundRuns.v
Access.v
AdapterConfig.v
AdapterHandlers.v
Identities.v
Outbox.v
Send.v
SendSafety.v
BatchSafety.v
MailQueries.v
RuntimeHandlers.v
PublicHandlers.v
AdapterRoutes.v
AdapterSafety.v
AdapterRuns.v
DataPlane.v
DataPlaneSafety.v
EmailExport.v
SendRuns.v
PlaneRuns.v
Platform.v
