(* ===== verification/Prelude.v ===== *)
(** * Senda: a verification library for the email orchestration core

    Senda is a multi-tenant email platform. A tenant owns workspaces; a
    workspace sends through its own adapters or those its tenant's system
    workspace grants it, from its own templates or inherited ones. This library
    models the server's Go code under [src/internal] and proves what makes it
    correct. Each file opens with the source it models.

    ** How the code is modelled

    A handler or service method of the source is a definition of the same name
    in the state and error monad [M] of [GoMonad]: explicit state passing, an
    error returned as a value, the effects done before it kept. Go errors are
    values ([error]) walked by [errors_Is] and [As] as the source walks them.
    Strings are byte strings, times are nanoseconds, identifiers numbers.
    Interfaces of [internal/port] are records of operations with their laws as
    type classes ([Ports]); their PostgreSQL implementations ([Postgres],
    [Directory], [Templates]) discharge the laws. A database is a record of
    tables with a fault schedule: each statement may run, fail before it runs
    or run and lose its reply, so a theorem about a database holds for every
    failure; a transaction keeps all its statements or none. Constraint
    violations are checked against the constraints of the migrations.
    Parameters stand for what is not under [src]: cryptographic functions, JSON,
    base64, the network, provider SDKs, the MJML compiler, code injectors. What
    is used of them is stated as a class of laws, with a concrete instance in
    the file that evaluates witnesses. The Go standard library's string
    functions are definitions of [Prelude], or members of [GoStd] where they
    depend on Unicode tables.

    ** The parts

    The core, from a request to the recipient's mailbox:
    - [GoMonad], [Domain], [Ports], [Token]: errors and the monad with its
      proof rules; [internal/domain]; the ports; unsubscribe tokens and the
      open pixel ([internal/unsubscribe], [internal/tracking]).
    - [Suppression]: [service/send_suppression.go] and the test recipient
      policy. [EventProcessor], [Feedback]: the status machine and provider
      events. [Postgres], [MailQueries]: the repositories of emails,
      suppressions, subscriptions and webhooks. [Cache], [Resolution]:
      [adapter/pgcache] and [internal/resolution] - scope chains, templates,
      adapters, invalidation.
    - [Injectors], [Render]: the injector merger and the variable renderer.
    - [Access]: [service/adapter_access.go]. [Outbox]: the rows, events and jobs
      of an accepted recipient. [Send], [SendSafety], [BatchSafety], [SendRuns]:
      [service/send.go], [send_batch.go] and what they guarantee.
    - [SendWorker], [RateLimit], [WorkerRuns]: the delivery worker.
      [Webhooks]: customer webhooks. [Unsubscribe]: the public unsubscribe
      endpoints' service. [Platform]: all of these interleaved over one
      database, refining an abstract life cycle of emails.
    - [SNS], [Inbound], [InboundRuns]: the provider's reports, from the signed
      message ([adapter/sns], [adapter/ses/webhook]) to the processor.

    Its public side, from an API key or a link to the core:
    - [DataPlane], [DataPlaneSafety], [EmailExport], [PlaneRuns]:
      [handler/send.go] and [data_plane_email.go] behind their middleware, with
      the CSV export. [PublicHandlers]: the pixel with its window of duplicates
      and the pages behind unsubscribe links. [RuntimeHandlers]: emails,
      suppressions and webhooks of a workspace over HTTP.

    The control plane, from a management request to the tables:
    - [Database]: statements, transactions, keyset pagination over tables of any
      type; [focus] runs a repository over a part of larger tables.
    - [Http]: the echo context, responses, error handling and middleware.
      [Config], [ConfigStore]: external profiles and the global configuration.
      [Directory], [Roles], [Keys]: tenants, workspaces, members, assignments,
      API keys. [Auth], [Members], [Surface], [Authority], [Listings],
      [ControlRuns]: authentication, the member handlers and routes, and what a
      caller can reach through them. [Gates], [Hosted]: what a request has shown
      when the middleware lets it through, over any tables that host the
      directory.
    - [Templates], [Versions], [Publication], [Copies]: [template_repo.go] and
      the template services - typing, history, publishing, cloning, forking.
      [Inheritance], [TemplateHandlers], [TemplateSafety], [TemplateRuns]: scope
      inheritance and the handlers.
    - [Fleet], [TenantHandlers], [TenantSafety], [TenantGuard], [FleetRuns]: the
      tables of adapters and the handlers of tenants, workspaces and keys.
    - [Provisioning], [Tracking], [TrackingRuns]: the resumable set-up of the
      tracking resources of an SES adapter ([adapter/ses]).
    - [AdapterConfig], [AdapterHandlers], [Identities], [AdapterRoutes],
      [AdapterSafety], [AdapterRuns]: adapters, sender identities, grants and the
      audit log over HTTP.
    - [InjectorRepo], [InjectorHandlers], [InjectorSafety], [InjectorSchema],
      [InjectorRuns]: injector definitions, fields and values.
    - [External], [ExternalSafety], [ExternalRuns]: the surface of embedded
      builders behind a profile, its auth method and its resolver.

    ** What is proved

    - Refinement: any interleaving of sends, batches, worker runs and provider
      events moves the email table only along the abstract life cycle
      ([Platform]); the status machine is acyclic, so an email is claimed once.
    - Safety of sends: whatever fails, rows are written only for recipients that
      no suppression blocks, in the workspace of the key ([SendSafety],
      [BatchSafety]); every queued row has its job and payload ([Outbox]); the
      trace of a worker run mails at most one message, after the run's own check
      of its address, which lets the message pass when it fails ([SendWorker]).
    - Histories: the provider's reports change the mail once each, when signed
      and accepted ([Inbound]); a version that was published is never changed or
      deleted ([Versions]); a key works from its creation to its revocation, and
      after it only through a hash collision that its table would exhibit
      ([Keys]).
    - Confinement: a request changes only the rows of what its caller was
      granted - assignments ([Authority]), templates ([TemplateSafety]),
      directory rows ([TenantSafety]), adapters ([AdapterSafety]), injectors
      ([InjectorSafety]), the mail of a key's workspace ([DataPlaneSafety]), the
      library behind an external profile ([ExternalSafety]). Where a theorem says
      what external code decided, it is the decision of that very run: each
      answer is taken in the world the call before it left.
    - Exactness: publications, forks, schema updates, the deletion of tracking
      resources and the export do exactly what they promise ([Publication],
      [Copies], [InjectorSchema], [Tracking], [EmailExport]); provisioning resumes
      from what is recorded, with the recorded topic or the one just answered
      ([Tracking]); the guard of a tenant's deletion is exact ([TenantGuard]);
      caches are transparent for well-formed queries and invalidations exact
      ([Resolution]); the configuration reads back as saved ([ConfigStore]).
    - Functional behaviour: precedence of injected values, the equivalence of
      the single, batch and abstract suppression checks, responses that say
      what happened, token round trips, the markup a rendering lets through,
      complete listings, the rate limiter's conservation of tokens.

    ** Bounds

    Recursion over a growing set takes fuel, and the theorems show which is
    enough: the dependency walk of [Injectors], one more than the number of
    registered codes; the placeholder search of [Render], one more than the
    length of the text; page following in [Database], one more than the number
    of rows; the export of [EmailExport], more pages than emails; the guard of
    [TenantGuard], more rounds than rows; cache invalidation, by pages.
    Identifiers are unbounded; version numbers are bounded as PostgreSQL
    integers; times wrap as 64-bit integers where cursors encode them.

    ** Not modelled

    Start-up and configuration loading, logging, metrics and traces (no effect
    on the state the theorems are about); generated OpenAPI documents; the SES,
    Gmail and SMTP clients, MJML compilation and screenshots (third-party code
    behind a port); the dashboard, media, onboarding and health endpoints; the
    locks and goroutine hand-shakes of the worker's rate limiter and of code
    injection, which are taken as atomic steps; column widths, whose violations
    are among the faults a statement may meet. The manifest lists every component
    with what is left of it. *)

From stdpp Require Import base gmap strings list fin_maps pretty.
From Stdlib Require Import ZArith Ascii String Lia.

(** ** Automation shared by every file *)

Create HintDb senda.

#[global] Arguments String.append !_ _ / : simpl nomatch.

Declare Scope go_scope.
Delimit Scope go_scope with go.
#[global] Open Scope string_scope.
#[global] Open Scope list_scope.

(** Case analysis on the outermost [match]/[if] of the goal or a hypothesis,
    keeping the equation. *)
Ltac go_case :=
  match goal with
  | |- context [match ?x with _ => _ end] => destruct x eqn:?
  | H : context [match ?x with _ => _ end] |- _ => destruct x eqn:?
  end.

Ltac go_crush := repeat (go_case; simplify_eq/=; try done); simplify_eq/=; try done.

(** Turns the boolean comparisons of the models into propositions. *)
Ltac bools :=
  repeat match goal with
  | H : _ && _ = true |- _ => apply andb_true_iff in H; destruct H
  | H : _ && _ = false |- _ => apply andb_false_iff in H
  | H : _ || _ = false |- _ => apply orb_false_iff in H; destruct H
  | H : _ || _ = true |- _ => apply orb_true_iff in H
  | H : negb _ = true |- _ => apply negb_true_iff in H
  | H : negb _ = false |- _ => apply negb_false_iff in H
  | H : bool_decide _ = true |- _ => apply bool_decide_eq_true in H
  | H : bool_decide _ = false |- _ => apply bool_decide_eq_false in H
  end.

(** ** Identifiers, time and bytes

    A [uuid.UUID] is its 128-bit value ([uuid.Nil] is 0), a [time.Time] its
    nanoseconds since the Unix epoch, a [time.Duration] a number of
    nanoseconds; a Go string is its bytes. *)

Abbreviation uuid := N (only parsing).
Abbreviation gotime := Z (only parsing).
Abbreviation duration := Z (only parsing).

Definition uuid_Nil : uuid := 0%N.

(** The zero [time.Time] is 0001-01-01T00:00:00Z. *)
Definition time_zero : gotime := (-62135596800 * 1000000000)%Z.
Definition Second : duration := 1000000000%Z.
Definition Minute : duration := (60 * Second)%Z.
Definition Hour : duration := (60 * Minute)%Z.

(** [t.AddDate(years, 0, 0)] of a UTC time: the same month, day and time of day
    of another year, in the proleptic Gregorian calendar; a day the month does
    not have is normalised to the days that follow it. *)
Definition days_of_civil (y m d : Z) : Z :=
  let y := (if m <=? 2 then y - 1 else y)%Z in
  let era := (y / 400)%Z in
  let yoe := (y - era * 400)%Z in
  let doy := ((153 * (if 2 <? m then m - 3 else m + 9) + 2) / 5 + d - 1)%Z in
  (era * 146097 + (yoe * 365 + yoe / 4 - yoe / 100 + doy) - 719468)%Z.

Definition civil_of_days (days : Z) : Z * Z * Z :=
  let z := (days + 719468)%Z in
  let era := (z / 146097)%Z in
  let doe := (z - era * 146097)%Z in
  let yoe := ((doe - doe / 1460 + doe / 36524 - doe / 146096) / 365)%Z in
  let doy := (doe - (365 * yoe + yoe / 4 - yoe / 100))%Z in
  let mp := ((5 * doy + 2) / 153)%Z in
  let m := (if mp <? 10 then mp + 3 else mp - 9)%Z in
  ((yoe + era * 400 + (if m <=? 2 then 1 else 0))%Z, m, (doy - (153 * mp + 2) / 5 + 1)%Z).

Definition Day : duration := (86400 * Second)%Z.

Definition AddYears (t : gotime) (years : Z) : gotime :=
  let '(y, m, d) := civil_of_days (t / Day) in
  (days_of_civil (y + years) m d * Day + t mod Day)%Z.

(** 2024-02-29 and its neighbours: one year later, one year before. *)
Example AddYears_leap :
  AddYears (1709164800 * Second) 1 = (1740787200 * Second)%Z /\
  AddYears (1709164800 * Second) (-1) = (1677628800 * Second)%Z.
Proof. split; reflexivity. Qed.

(** A signed 64-bit integer operation wraps around. *)
Definition wrap64 (z : Z) : Z := ((z + 2 ^ 63) mod 2 ^ 64 - 2 ^ 63)%Z.

(** [1 << uint(n)]: zero from 64 on, the conversion of a negative count being huge. *)
Definition shl1 (n : Z) : Z :=
  if ((n <? 0) || (64 <=? n))%Z then 0%Z else wrap64 (Z.shiftl 1 n).

(** ** The parts of the Go runtime the models keep abstract

    Everything is exact on ASCII strings; [lower_utf8] is the lower-casing of
    a string with a non-ASCII byte (the Unicode tables), [fold_utf8] the equality
    of two such strings under case folding, [quote_other] the [%q]
    rendering of a string with a byte outside the printable ASCII range,
    [fmt_float] the [%v] rendering of the float64 with the given bits,
    [rfc3339] the RFC 3339 rendering of a time and [uuid_String] the rendering
    of an identifier by the uuid package. *)
Class GoStd := {
  lower_utf8 : string -> string;
  fold_utf8 : string -> string -> bool;
  quote_other : string -> string;
  fmt_float : Z -> string;
  rfc3339 : gotime -> string;
  uuid_String : uuid -> string;
}.

(** A readable rendering of a positive number, for the instances below. *)
Fixpoint bits_of (p : positive) : string :=
  match p with
  | xH => "1"
  | xO q => String "o" (bits_of q)
  | xI q => String "i" (bits_of q)
  end.

Fixpoint of_bits (s : string) : option positive :=
  match s with
  | String c r =>
      if Ascii.eqb c "1" then (match r with EmptyString => Some xH | _ => None end)
      else match of_bits r with
           | Some q => if Ascii.eqb c "o" then Some (xO q) else if Ascii.eqb c "i" then Some (xI q) else None
           | None => None
           end
  | EmptyString => None
  end.

Lemma of_bits_of p : of_bits (bits_of p) = Some p.
Proof. induction p as [q IH|q IH|]; simpl; [by rewrite IH|by rewrite IH|done]. Qed.

(** The instance the witnesses run with. *)
Definition ascii_std : GoStd := {| lower_utf8 := id; fold_utf8 := fun a b => String.eqb a b; quote_other := id; fmt_float := fun _ => "0";
     rfc3339 := fun _ => "1970-01-01T00:00:00Z"; uuid_String := fun u => bits_of (N.succ_pos u) |}.

(** ** Byte strings *)

Fixpoint has_byte (c : ascii) (s : string) : bool :=
  match s with EmptyString => false | String d r => Ascii.eqb d c || has_byte c r end.

(** The rendering of identifiers is injective and has no colon (it is made of
    hexadecimal digits and dashes). *)
Class UuidLaws `{GoStd} : Prop := {
  uuid_String_inj u v : uuid_String u = uuid_String v -> u = v;
  uuid_String_colon u : has_byte ":"%char (uuid_String u) = false;
}.

Lemma ascii_std_uuid : UuidLaws (H := ascii_std).
Proof.
  split; simpl.
  - intros u v E. assert (Hp : Some (N.succ_pos u) = Some (N.succ_pos v))
      by (rewrite <- !of_bits_of; by rewrite E).
    injection Hp. lia.
  - intros u. induction (N.succ_pos u) as [q IH|q IH|]; simpl; auto.
Qed.


Fixpoint smap (f : ascii -> ascii) (s : string) : string :=
  match s with EmptyString => EmptyString | String c r => String (f c) (smap f r) end.

Fixpoint sall (p : ascii -> bool) (s : string) : bool :=
  match s with EmptyString => true | String c r => p c && sall p r end.

(** [%d] on an integer. *)
Definition Itoa (z : Z) : string := pretty z.

Definition byte (n : nat) : ascii := ascii_of_nat n.
Definition bytes (l : list nat) : string := string_of_list_ascii (byte <$> l).

Definition in_range (lo hi : nat) (c : ascii) : bool :=
  (lo <=? nat_of_ascii c)%nat && (nat_of_ascii c <=? hi)%nat.

Definition is_lower_ascii (c : ascii) : bool := in_range 97 122 c.
Definition is_upper_ascii (c : ascii) : bool := in_range 65 90 c.
Definition is_digit_ascii (c : ascii) : bool := in_range 48 57 c.

Definition lower_ascii (c : ascii) : ascii :=
  if is_upper_ascii c then ascii_of_nat (nat_of_ascii c + 32) else c.

Definition is_ascii_string (s : string) : bool :=
  sall (fun c => (nat_of_ascii c <? 128)%nat) s.

(** [strings.ToLower]. *)
Definition ToLower `{GoStd} (s : string) : string :=
  if is_ascii_string s then smap lower_ascii s else lower_utf8 s.

(** [strings.EqualFold]: by bytes when both are ASCII. *)
Definition EqualFold `{GoStd} (s t : string) : bool :=
  if is_ascii_string s && is_ascii_string t then String.eqb (smap lower_ascii s) (smap lower_ascii t) else fold_utf8 s t.

(** [strconv.Quote], the [%q] verb. *)
Definition dquote : string := bytes [34].

Fixpoint quote_escape (s : string) : string :=
  match s with
  | EmptyString => EmptyString
  | String c r =>
      if Ascii.eqb c (byte 34) || Ascii.eqb c (byte 92) then String (byte 92) (String c (quote_escape r))
      else String c (quote_escape r)
  end.

Definition Quote `{GoStd} (s : string) : string :=
  if sall (in_range 32 126) s then dquote +:+ quote_escape s +:+ dquote else quote_other s.

(** [hex.EncodeToString]. *)
Definition hex_digit (n : nat) : ascii := ascii_of_nat (if (n <? 10)%nat then 48 + n else 87 + n).
Fixpoint HexEncode (s : string) : string :=
  match s with
  | EmptyString => EmptyString
  | String c r => String (hex_digit (nat_of_ascii c / 16)) (String (hex_digit (nat_of_ascii c mod 16)) (HexEncode r))
  end.

(** [strings.HasPrefix] and [strings.TrimPrefix]. *)
Definition HasPrefix (s p : string) : bool := String.prefix p s.

Fixpoint strip_prefix (p s : string) : option string :=
  match p, s with
  | EmptyString, _ => Some s
  | String a p', String b s' => if Ascii.eqb a b then strip_prefix p' s' else None
  | String _ _, EmptyString => None
  end.

Definition TrimPrefix (s p : string) : string :=
  match strip_prefix p s with Some r => r | None => s end.

(** [strings.Cut] at a one-byte separator. *)
Fixpoint Cut (sep : ascii) (s : string) : option (string * string) :=
  match s with
  | EmptyString => None
  | String c r =>
      if Ascii.eqb c sep then Some (EmptyString, r)
      else match Cut sep r with
           | Some (a, b) => Some (String c a, b)
           | None => None
           end
  end.

(** [strings.SplitN] with a one-byte separator and a positive count. *)
Fixpoint SplitN (s : string) (sep : ascii) (n : nat) : list string :=
  match n with
  | O => []
  | S O => [s]
  | S m => match Cut sep s with
           | Some (a, b) => a :: SplitN b sep m
           | None => [s]
           end
  end.

(** [strings.Split] at a one-byte separator. *)
Definition Split (s : string) (sep : ascii) : list string := SplitN s sep (S (String.length s)).

(** The first bytes of a reader limited to [n]. *)
Fixpoint limited (n : N) (s : string) : string :=
  match s with
  | EmptyString => EmptyString
  | String c r => if (n =? 0)%N then EmptyString else String c (limited (N.pred n) r)
  end.

(** The longest prefix of bytes that satisfy [p], and the rest. *)
Fixpoint span (p : ascii -> bool) (s : string) : string * string :=
  match s with
  | EmptyString => (EmptyString, EmptyString)
  | String c r => if p c then let '(a, b) := span p r in (String c a, b) else (EmptyString, s)
  end.

(** [strings.Join]. *)
Fixpoint Join (l : list string) (sep : string) : string :=
  match l with
  | [] => ""
  | [x] => x
  | x :: r => x +:+ sep +:+ Join r sep
  end.

(** ** [strings.TrimSpace]

    The UTF-8 encodings of the code points [unicode.IsSpace] accepts; a
    suffix of a byte string is such a rune exactly when its bytes are one of
    these encodings. *)
Definition space_encodings : list string :=
  [bytes [9]; bytes [10]; bytes [11]; bytes [12]; bytes [13]; bytes [32];
   bytes [194;133]; bytes [194;160]; bytes [225;154;128];
   bytes [226;128;128]; bytes [226;128;129]; bytes [226;128;130]; bytes [226;128;131];
   bytes [226;128;132]; bytes [226;128;133]; bytes [226;128;134]; bytes [226;128;135];
   bytes [226;128;136]; bytes [226;128;137]; bytes [226;128;138];
   bytes [226;128;168]; bytes [226;128;169]; bytes [226;128;175];
   bytes [226;129;159]; bytes [227;128;128]].

Fixpoint strip_any (encs : list string) (s : string) : option string :=
  match encs with
  | [] => None
  | e :: r => match strip_prefix e s with Some s' => Some s' | None => strip_any r s end
  end.

Fixpoint trim_fuel (encs : list string) (n : nat) (s : string) : string :=
  match n with
  | O => s
  | S m => match strip_any encs s with Some s' => trim_fuel encs m s' | None => s end
  end.

Definition trim_left (encs : list string) (s : string) : string :=
  trim_fuel encs (String.length s) s.

Definition srev (s : string) : string := string_of_list_ascii (rev (list_ascii_of_string s)).

Definition trim_right (encs : list string) (s : string) : string :=
  srev (trim_left (srev <$> encs) (srev s)).

Definition TrimSpace (s : string) : string :=
  trim_right space_encodings (trim_left space_encodings s).

(** ** The [seen]-map loop

    Several functions of the source walk a list, compute a key for each
    element, skip the element when it has no key or the key was seen, and
    otherwise record the key and append a value. [uniq f seen l] is that
    loop: it returns the final [seen] set and the values appended. *)
Fixpoint uniq {A B K} `{Countable K} (f : A -> option (K * B)) (seen : gset K) (l : list A)
  : gset K * list B :=
  match l with
  | [] => (seen, [])
  | x :: r =>
      match f x with
      | None => uniq f seen r
      | Some (k, b) =>
          if decide (k ∈ seen) then uniq f seen r
          else let '(s, o) := uniq f ({[k]} ∪ seen) r in (s, b :: o)
      end
  end.

Section Uniq.
Context {A B K : Type} `{Countable K}.
Implicit Types (f : A -> option (K * B)) (seen : gset K) (l : list A).

Lemma uniq_app f seen l1 l2 :
  uniq f seen (l1 ++ l2) =
  ((uniq f (uniq f seen l1).1 l2).1,
   (uniq f seen l1).2 ++ (uniq f (uniq f seen l1).1 l2).2).
Proof.
  revert seen. induction l1 as [|x l1 IH]; intros seen; simpl.
  - by destruct (uniq f seen l2).
  - destruct (f x) as [[k b]|]; [|apply IH].
    case_decide; [apply IH|].
    rewrite IH. by destruct (uniq f ({[k]} ∪ seen) l1).
Qed.

Lemma uniq_seen f seen l k :
  k ∈ (uniq f seen l).1 <-> k ∈ seen \/ exists x b, x ∈ l /\ f x = Some (k, b).
Proof.
  revert seen. induction l as [|x l IH]; intros seen; simpl.
  { set_solver. }
  assert (Hcons : forall Q : A -> B -> Prop, (exists y b, y ∈ x :: l /\ Q y b) <->
                  (exists b, Q x b) \/ (exists y b, y ∈ l /\ Q y b)).
  { intros Q. setoid_rewrite elem_of_cons. naive_solver. }
  rewrite (Hcons (fun y b => f y = Some (k, b))). destruct (f x) as [[k' b']|] eqn:E.
  - case_decide as Hd.
    + rewrite IH. naive_solver.
    + specialize (IH ({[k']} ∪ seen)).
      destruct (uniq f ({[k']} ∪ seen) l) as [s o] eqn:E'. simpl in *.
      rewrite IH. set_unfold. naive_solver.
  - rewrite IH. naive_solver.
Qed.

Lemma uniq_origin f seen l b :
  b ∈ (uniq f seen l).2 -> exists x k, x ∈ l /\ f x = Some (k, b) /\ k ∉ seen.
Proof.
  revert seen. induction l as [|x l IH]; intros seen; simpl; [set_solver|].
  destruct (f x) as [[k' b']|] eqn:E.
  - case_decide as Hd.
    + intros Hb. destruct (IH _ Hb) as (y & k & ? & ? & ?). set_solver.
    + destruct (uniq f ({[k']} ∪ seen) l) as [s o] eqn:E'. simpl.
      intros [->|Hb]%elem_of_cons.
      * exists x, k'. set_solver.
      * destruct (IH ({[k']} ∪ seen)) as (y & k & ? & ? & ?); [by rewrite E'|].
        exists y, k. set_solver.
  - intros Hb. destruct (IH _ Hb) as (y & k & ? & ? & ?). set_solver.
Qed.

(** When the value determines its key, the values appended are distinct. *)
Lemma uniq_NoDup f seen l (g : B -> K) :
  (forall x k b, f x = Some (k, b) -> g b = k) ->
  NoDup (g <$> (uniq f seen l).2).
Proof.
  intros Hg. revert seen. induction l as [|x l IH]; intros seen; simpl; [constructor|].
  destruct (f x) as [[k b]|] eqn:E; [|apply IH].
  case_decide; [apply IH|].
  specialize (IH ({[k]} ∪ seen)).
  pose proof (uniq_origin f ({[k]} ∪ seen) l) as Ho.
  destruct (uniq f ({[k]} ∪ seen) l) as [s o]; simpl in *.
  constructor; [|done]. intros Hin.
  apply list_elem_of_fmap in Hin as (b' & Hb' & Hin).
  destruct (Ho b' Hin) as (y & k' & _ & Hy & Hn).
  rewrite (Hg _ _ _ E) in Hb'. rewrite (Hg _ _ _ Hy) in Hb'. set_solver.
Qed.

Lemma uniq_complete f seen l x k b :
  x ∈ l -> f x = Some (k, b) -> k ∉ seen ->
  exists b' y, b' ∈ (uniq f seen l).2 /\ y ∈ l /\ f y = Some (k, b').
Proof.
  revert seen. induction l as [|y l IH]; intros seen Hx Hf Hk; [set_solver|]. simpl.
  destruct (decide (f y = None)) as [E|E].
  { rewrite E. apply elem_of_cons in Hx as [->|Hx]; [congruence|].
    destruct (IH seen Hx Hf Hk) as (b' & z & ? & ? & ?). exists b', z. set_solver. }
  destruct (f y) as [[k' b']|] eqn:E'; [clear E|done].
  destruct (decide (k' = k)) as [->|Hne].
  - rewrite decide_False by done. exists b', y.
    destruct (uniq f ({[k]} ∪ seen) l). set_solver.
  - apply elem_of_cons in Hx as [->|Hx]; [congruence|]. case_decide.
    + destruct (IH seen Hx Hf Hk) as (b2 & z & ? & ? & ?). exists b2, z. set_solver.
    + destruct (IH ({[k']} ∪ seen) Hx Hf) as (b2 & z & Hb2 & ? & ?); [set_solver|].
      exists b2, z. destruct (uniq f ({[k']} ∪ seen) l). set_solver.
Qed.

(** When every value is its own key, the values appended are the keys added. *)
Lemma uniq_new_seen (g : A -> option (K * K)) seen l k :
  (forall x k b, g x = Some (k, b) -> b = k) ->
  k ∈ (uniq g seen l).1 <-> k ∈ seen \/ k ∈ (uniq g seen l).2.
Proof.
  intros Hg.  revert seen. induction l as [|x l IH]; intros seen; simpl; [set_solver|].
  destruct (g x) as [[k' b']|] eqn:E; [|apply IH].
  case_decide; [apply IH|]. specialize (IH ({[k']} ∪ seen)).
  rewrite (Hg _ _ _ E) in *.
  destruct (uniq g ({[k']} ∪ seen) l) as [s o]; simpl in *. set_solver.
Qed.
End Uniq.

#[export] Hint Resolve uniq_NoDup : senda.

(** ** Lemmas on byte strings *)

Lemma app_nil_r_s (s : string) : s +:+ "" = s.
Proof. induction s as [|c s IH]; [done|]. simpl. by rewrite IH. Qed.

Lemma app_assoc_s (a b c : string) : (a +:+ b) +:+ c = a +:+ (b +:+ c).
Proof. induction a as [|d a IH]; [done|]. simpl. by rewrite IH. Qed.

Lemma length_app_s (a b : string) : String.length (a +:+ b) = (String.length a + String.length b)%nat.
Proof. induction a as [|d a IH]; [done|]. simpl. by rewrite IH. Qed.

Lemma Cut_Some sep s a b :
  Cut sep s = Some (a, b) <-> s = a +:+ String sep b /\ has_byte sep a = false.
Proof.
  revert a. induction s as [|c s IH]; intros a; simpl.
  - split; [done|]. intros [E _]. destruct a; discriminate.
  - destruct (Ascii.eqb c sep) eqn:Ec.
    + apply Ascii.eqb_eq in Ec as ->. split.
      * by intros [= <- <-].
      * intros [E Hb]. destruct a as [|d a]; simpl in *; [by simplify_eq|].
        injection E as -> E. by rewrite Ascii.eqb_refl in Hb.
    + destruct (Cut sep s) as [[x y]|].
      * split.
        -- intros [= <- <-]. destruct (IH x) as [Hx _]. destruct Hx as [-> Hb]; [done|].
           simpl. by rewrite Ec, Hb.
        -- intros [E Hb]. destruct a as [|d a]; simpl in *.
           { injection E as -> _. by rewrite Ascii.eqb_refl in Ec. }
           injection E as -> E. rewrite Ec in Hb. simpl in Hb.
           destruct (IH a) as [_ Ha]. specialize (Ha (conj E Hb)). by simplify_eq.
      * split; [done|]. intros [E Hb]. destruct a as [|d a]; simpl in *.
        { injection E as -> _. by rewrite Ascii.eqb_refl in Ec. }
        injection E as -> E. rewrite Ec in Hb. simpl in Hb.
        destruct (IH a) as [_ Ha]. by specialize (Ha (conj E Hb)).
Qed.

Lemma Cut_None sep s : Cut sep s = None <-> has_byte sep s = false.
Proof.
  induction s as [|c s IH]; simpl; [done|].
  destruct (Ascii.eqb c sep); simpl; [done|].
  destruct (Cut sep s) as [[]|]; naive_solver.
Qed.

Lemma has_byte_app c a b : has_byte c (a +:+ b) = has_byte c a || has_byte c b.
Proof. induction a as [|d a IH]; [done|]. simpl. by rewrite IH, orb_assoc. Qed.

Lemma strip_prefix_app p s : strip_prefix p (p +:+ s) = Some s.
Proof. induction p as [|c p IH]; [done|]. simpl. by rewrite Ascii.eqb_refl. Qed.

Lemma strip_prefix_Some p s r : strip_prefix p s = Some r <-> s = p +:+ r.
Proof.
  split; [|intros ->; apply strip_prefix_app].
  revert s. induction p as [|c p IH]; intros s; simpl; [by intros [= ->]|].
  destruct s as [|d s]; [done|].
  destruct (Ascii.eqb c d) eqn:E; [|done].
  apply Ascii.eqb_eq in E as ->. intros H. by rewrite (IH _ H).
Qed.

Lemma HasPrefix_app p s : HasPrefix (p +:+ s) p = true.
Proof.
  unfold HasPrefix. induction p as [|c p IH]; simpl; [by destruct s|].
  destruct (ascii_dec c c); done.
Qed.

Lemma HasPrefix_strip p s : HasPrefix s p = true <-> exists r, s = p +:+ r.
Proof.
  split; [|intros [r ->]; apply HasPrefix_app]. unfold HasPrefix.
  revert s. induction p as [|c p IH]; intros s H; [by exists s|].
  destruct s as [|d s]; simpl in H; [done|].
  destruct (ascii_dec c d) as [->|]; [|done].
  destruct (IH _ H) as [r ->]. by exists r.
Qed.

Lemma TrimPrefix_app p r : TrimPrefix (p +:+ r) p = r.
Proof.
  unfold TrimPrefix. assert (E : strip_prefix p (p +:+ r) = Some r).
  { induction p as [|c p IH]; simpl; [done|]. by rewrite Ascii.eqb_refl. }
  by rewrite E.
Qed.

Lemma HasPrefix_TrimPrefix p s : HasPrefix s p = true -> s = p +:+ TrimPrefix s p.
Proof. intros [r ->]%HasPrefix_strip. by rewrite TrimPrefix_app. Qed.

#[export] Hint Rewrite app_nil_r_s app_assoc_s : senda.

(** ** [TrimSpace] is idempotent *)

Section Trimming.
Context (encs : list string) (Hne : Forall (fun e => e <> "") encs).

Lemma strip_any_Some s r : strip_any encs s = Some r -> exists e, e <> "" /\ s = e +:+ r.
Proof.
  clear -Hne. induction Hne as [|e l He Hl IH]; simpl; [done|].
  destruct (strip_prefix e s) as [x|] eqn:E; [|by apply IH]. intros [= ->]. apply strip_prefix_Some in E. eauto.
Qed.

Lemma strip_any_shorter s r : strip_any encs s = Some r -> (String.length r < String.length s)%nat.
Proof. intros (e & He & ->)%strip_any_Some. destruct e; [done|]. simpl. rewrite length_app_s. lia. Qed.

Lemma strip_any_prefix s t : strip_any encs (s +:+ t) = None -> strip_any encs s = None.
Proof.
  clear Hne. induction encs as [|e l IH]; simpl; [done|].
  destruct (strip_prefix e s) as [y|] eqn:E; [|destruct (strip_prefix e (s +:+ t)); [done|by auto] ].
  apply strip_prefix_Some in E as ->. by rewrite app_assoc_s, strip_prefix_app.
Qed.

Lemma trim_fuel_done n s : (String.length s <= n)%nat -> strip_any encs (trim_fuel encs n s) = None.
Proof.
  revert s. induction n as [|n IH]; intros s Hn; simpl.
  - destruct (strip_any encs s) as [r|] eqn:E; [|done]. apply strip_any_shorter in E. lia.
  - destruct (strip_any encs s) as [r|] eqn:E; [|done]. apply IH. apply strip_any_shorter in E. lia.
Qed.

Lemma trim_left_done s : strip_any encs (trim_left encs s) = None.
Proof. by apply trim_fuel_done. Qed.

Lemma trim_left_fixed s : strip_any encs s = None -> trim_left encs s = s.
Proof. intros E. unfold trim_left. destruct (String.length s); simpl; [done|]. by rewrite E. Qed.

Lemma trim_fuel_suffix n s : exists p, s = p +:+ trim_fuel encs n s.
Proof.
  revert s. induction n as [|n IH]; intros s; simpl; [by exists ""|].
  destruct (strip_any encs s) as [r|] eqn:E; [|by exists ""]. apply strip_any_Some in E as (e & _ & ->).
  destruct (IH r) as [p Hp]. exists (e +:+ p). by rewrite app_assoc_s, <- Hp.
Qed.
End Trimming.

Lemma list_of_app (a b : string) : list_ascii_of_string (a +:+ b) = list_ascii_of_string a ++ list_ascii_of_string b.
Proof. induction a as [|c a IH]; [done|]. simpl. by rewrite IH. Qed.
Lemma of_list_app l k : string_of_list_ascii (l ++ k) = string_of_list_ascii l +:+ string_of_list_ascii k.
Proof. induction l as [|c l IH]; [done|]. simpl. by rewrite IH. Qed.
Lemma srev_srev s : srev (srev s) = s.
Proof. unfold srev. by rewrite list_ascii_of_string_of_list_ascii, rev_involutive, string_of_list_ascii_of_string. Qed.
Lemma srev_app a b : srev (a +:+ b) = srev b +:+ srev a.
Proof. unfold srev. by rewrite list_of_app, rev_app_distr, of_list_app. Qed.

Lemma space_nonempty : Forall (fun e => e <> "") space_encodings.
Proof. apply (bool_decide_eq_true_1 _). vm_compute. reflexivity. Qed.
Lemma space_rev_nonempty : Forall (fun e => e <> "") (srev <$> space_encodings).
Proof. apply (bool_decide_eq_true_1 _). vm_compute. reflexivity. Qed.

Lemma TrimSpace_idem s : TrimSpace (TrimSpace s) = TrimSpace s.
Proof.
  unfold TrimSpace. set (t := trim_left space_encodings s).
  assert (Hr : forall x, trim_right space_encodings (trim_right space_encodings x) = trim_right space_encodings x).
  { intros x. unfold trim_right. rewrite srev_srev. f_equal. apply trim_left_fixed, trim_left_done, space_rev_nonempty. }
  assert (Hp : exists p, t = trim_right space_encodings t +:+ p).
  { destruct (trim_fuel_suffix (srev <$> space_encodings) space_rev_nonempty (String.length (srev t)) (srev t)) as [p Hp].
    exists (srev p). unfold trim_right, trim_left. by rewrite <- srev_app, <- Hp, srev_srev. }
  rewrite (trim_left_fixed space_encodings (trim_right _ t)); [apply Hr|].
  destruct Hp as [p Hp]. eapply (strip_any_prefix _ _ p). rewrite <- Hp. apply trim_left_done, space_nonempty.
Qed.
