(* ===== verification/GoMonad.v ===== *)
(** * Go errors and the effect monad

    The sentinel errors of [internal/domain/errors.go], the error values the
    source builds from them with [fmt.Errorf] and [pkg/apperr], and the state
    and error monad every handler is written in, with the Hoare-style and
    frame ([preserves]) rules the components' proofs use. *)
From stdpp Require Import base gmap strings list.
From Stdlib Require Import ZArith String Lia.
From S2P Require Import Prelude.

(** ** Error values *)

Inductive sentinel :=
| ErrNotFound | ErrConflict | ErrValidation | ErrForbidden
| ErrWorkspaceScopeMismatch | ErrSystemWorkspaceBlocked
| ErrTestRecipientPolicyUnconfigured | ErrNoAdapterConfigured | ErrInvalidRef
| ErrSuppressed | ErrRateLimited | ErrMaintenanceMode
| ErrTemplateTypeNotFound | ErrTemplateNotFound | ErrTemplateDisabled
| ErrNoPublishedVersion | ErrDomainNotVerified | ErrDomainNotFound
| ErrNoDefaultIdentity | ErrIdentityNotFound | ErrIdentityNotInDomain
| ErrAdapterAccessDenied | ErrSenderIdentityRequired | ErrSenderIdentityAccessDenied
| ErrSharedResourceReadOnly | ErrSharedGrantInUse
| ErrHasPublishedVersion | ErrVersionNotDraft | ErrInvalidCursor
| ErrTemplateNotPublished | ErrAdapterDisabled | ErrRecipientSuppressed
| ErrProviderRejected | ErrQuotaExhausted
| ErrStatusConflict
| ErrInvalidToken | ErrMalformedToken | ErrInvalidSignature | ErrTokenExpired
| ErrUnsupportedVersion
| errExternalAuthDenied.

#[export] Instance sentinel_eq_dec : EqDecision sentinel.
Proof. solve_decision. Defined.

(** The message each sentinel is created with. *)
Definition sentinel_msg (s : sentinel) : string :=
  match s with
  | ErrNotFound => "not found"
  | ErrConflict => "conflict"
  | ErrValidation => "validation error"
  | ErrForbidden => "forbidden"
  | ErrWorkspaceScopeMismatch => "workspace scope mismatch"
  | ErrSystemWorkspaceBlocked => "system workspace cannot be used for send"
  | ErrTestRecipientPolicyUnconfigured => "test recipient policy is unconfigured"
  | ErrNoAdapterConfigured => "no adapter configured"
  | ErrInvalidRef => "invalid template reference"
  | ErrSuppressed => "recipient is suppressed"
  | ErrRateLimited => "rate limited"
  | ErrMaintenanceMode => "maintenance mode"
  | ErrTemplateTypeNotFound => "template type not found"
  | ErrTemplateNotFound => "template not found"
  | ErrTemplateDisabled => "template is disabled"
  | ErrNoPublishedVersion => "no published version"
  | ErrDomainNotVerified => "domain not verified"
  | ErrDomainNotFound => "domain not found"
  | ErrNoDefaultIdentity => "adapter has no default identity"
  | ErrIdentityNotFound => "adapter identity not found"
  | ErrIdentityNotInDomain => "email not within adapter's verified domains"
  | ErrAdapterAccessDenied => "adapter not accessible in workspace"
  | ErrSenderIdentityRequired => "sender identity is required for shared ses adapter"
  | ErrSenderIdentityAccessDenied => "sender identity not accessible in workspace"
  | ErrSharedResourceReadOnly => "shared resource is read-only"
  | ErrSharedGrantInUse => "shared grant is in use"
  | ErrHasPublishedVersion => "template has a published version and cannot be deleted"
  | ErrVersionNotDraft => "only draft versions can be deleted"
  | ErrInvalidCursor => "invalid cursor"
  | ErrTemplateNotPublished => "template has no published version"
  | ErrAdapterDisabled => "adapter is disabled"
  | ErrRecipientSuppressed => "recipient is suppressed"
  | ErrProviderRejected => "provider permanently rejected the message"
  | ErrQuotaExhausted => "sending quota exhausted"
  | ErrStatusConflict => "status transition conflict"
  | ErrInvalidToken => "unsubscribe: invalid token"
  | ErrMalformedToken => "unsubscribe: malformed token"
  | ErrInvalidSignature => "unsubscribe: invalid signature"
  | ErrTokenExpired => "unsubscribe: token expired"
  | ErrUnsupportedVersion => "unsubscribe: unsupported token version"
  | errExternalAuthDenied => "external integration auth denied"
  end.

(** An error value: a sentinel, a plain message ([errors.New], [fmt.Errorf]
    without [%w], or an error of a third-party package), [fmt.Errorf] with one
    or two [%w] verbs, or an [*apperr.AppError] with its optional cause. *)
Inductive error :=
| ESent (s : sentinel)
| EMsg (msg : string)
| EWrap (pre : string) (e : error) (post : string)
| EWrap2 (pre : string) (e1 : error) (mid : string) (e2 : error) (post : string)
| EApp (code : Z) (msg : string)
| EAppWrap (code : Z) (msg : string) (e : error).

(** A nil pointer or interface is dereferenced. *)
Definition nil_dereference : error := EMsg "runtime error: invalid memory address or nil pointer dereference".

(** [err.Error()]. *)
Fixpoint error_string (e : error) : string :=
  match e with
  | ESent s => sentinel_msg s
  | EMsg m => m
  | EWrap pre e post => pre +:+ error_string e +:+ post
  | EWrap2 pre e1 mid e2 post => pre +:+ error_string e1 +:+ mid +:+ error_string e2 +:+ post
  | EApp _ m => m
  | EAppWrap _ m e => m +:+ ": " +:+ error_string e
  end.

(** [errors.Is(err, sentinel)]. *)
Fixpoint errors_Is (e : error) (s : sentinel) : bool :=
  match e with
  | ESent s' => bool_decide (s' = s)
  | EMsg _ => false
  | EWrap _ e _ => errors_Is e s
  | EWrap2 _ e1 _ e2 _ => errors_Is e1 s || errors_Is e2 s
  | EApp _ _ => false
  | EAppWrap _ _ e => errors_Is e s
  end.

(** [errors.As(err, &appErr)]: the code of the first [*AppError] in the tree. *)
Fixpoint app_error_code (e : error) : option Z :=
  match e with
  | ESent _ | EMsg _ => None
  | EWrap _ e _ => app_error_code e
  | EWrap2 _ e1 _ e2 _ => match app_error_code e1 with Some c => Some c | None => app_error_code e2 end
  | EApp c _ | EAppWrap c _ _ => Some c
  end.

(** [apperr.IsNotFound]. *)
Definition IsNotFound (e : error) : bool := bool_decide (app_error_code e = Some 404%Z).

Lemma errors_Is_wrap pre e post s : errors_Is (EWrap pre e post) s = errors_Is e s.
Proof. done. Qed.

(** ** Results and the monad

    [Res A] is Go's [(A, error)] where the value is meaningful only without an
    error; a computation [M W A] threads the world [W] (stores, queue, clock,
    provider) explicitly. *)
Inductive Res (A : Type) :=
| Ok (a : A)
| Err (e : error).
Arguments Ok {A} a.
Arguments Err {A} e.

Definition is_ok {A} (r : Res A) : bool := match r with Ok _ => true | Err _ => false end.

Definition M (W A : Type) : Type := W -> Res A * W.

Definition ret {W A} (a : A) : M W A := fun w => (Ok a, w).
Definition fail {W A} (e : error) : M W A := fun w => (Err e, w).

(** [x, err := m; if err != nil { return nil, err }; k x]. *)
Definition bind {W A B} (m : M W A) (k : A -> M W B) : M W B :=
  fun w => match m w with
           | (Ok a, w') => k a w'
           | (Err e, w') => (Err e, w')
           end.

(** [x, err := m; k (x, err)]: the error is inspected, not returned. *)
Definition try {W A B} (m : M W A) (k : Res A -> M W B) : M W B :=
  fun w => let '(r, w') := m w in k r w'.

(** [if err != nil { return nil, fmt.Errorf("...%w", err) }]. *)
Definition wrap_err {W A} (f : error -> error) (m : M W A) : M W A :=
  fun w => match m w with
           | (Ok a, w') => (Ok a, w')
           | (Err e, w') => (Err (f e), w')
           end.

(** [_ = m]: the result and the error are dropped. *)
Definition ignore {W A} (m : M W A) : M W unit :=
  fun w => (Ok tt, (m w).2).

(** An operation that cannot fail ([time.Now], [uuid.Must(uuid.NewV7())]). *)
Definition total {W A} (f : W -> A * W) : M W A := fun w => let '(a, w') := f w in (Ok a, w').

Definition lift_res {W A} (r : Res A) : M W A := fun w => (r, w).

Notation "'let!' x ':=' m 'in' k" := (bind m (fun x => k))
  (at level 200, x pattern, m at level 100, k at level 200) : go_scope.
Notation "'try!' x ':=' m 'in' k" := (try m (fun x => k))
  (at level 200, x pattern, m at level 100, k at level 200) : go_scope.
Notation "m1 ';;;' m2" := (bind m1 (fun _ => m2))
  (at level 100, right associativity) : go_scope.
#[global] Open Scope go_scope.

(** [for _, x := range l { body x }], leaving the loop at the first error. *)
Fixpoint for_each {W A} (l : list A) (body : A -> M W unit) : M W unit :=
  match l with
  | [] => ret tt
  | x :: r => body x ;;; for_each r body
  end.

(** A range loop that threads an accumulator. *)
Fixpoint for_fold {W A S} (l : list A) (s : S) (body : S -> A -> M W S) : M W S :=
  match l with
  | [] => ret s
  | x :: r => let! s' := body s x in for_fold r s' body
  end.

(** ** Reasoning rules *)

Section Rules.
Context {W : Type}.

(** Partial-correctness triples over the result and the final world. *)
Definition triple {A} (P : W -> Prop) (m : M W A) (Q : Res A -> W -> Prop) : Prop :=
  forall w, P w -> Q (m w).1 (m w).2.

Lemma triple_ret {A} (P : W -> Prop) (a : A) (Q : Res A -> W -> Prop) :
  (forall w, P w -> Q (Ok a) w) -> triple P (ret a) Q.
Proof. intros H w Hw. by apply H. Qed.

Lemma triple_bind {A B} P (m : M W A) (R : A -> W -> Prop) (k : A -> M W B) Q :
  triple P m (fun r w => match r with Ok a => R a w | Err e => Q (Err e) w end) ->
  (forall a, triple (R a) (k a) Q) ->
  triple P (bind m k) Q.
Proof.
  intros Hm Hk w Hw. specialize (Hm w Hw). unfold bind.
  destruct (m w) as [[a|e] w']; simpl in *; [by apply Hk|done].
Qed.

Lemma triple_try {A B} P (m : M W A) (R : Res A -> W -> Prop) (k : Res A -> M W B) Q :
  triple P m R -> (forall r, triple (R r) (k r) Q) -> triple P (try m k) Q.
Proof.
  intros Hm Hk w Hw. specialize (Hm w Hw). unfold try.
  destruct (m w) as [r w']; simpl in *. by apply Hk.
Qed.

Lemma bind_Ok {A B} (m : M W A) (k : A -> M W B) w b w' :
  bind m k w = (Ok b, w') -> exists a w1, m w = (Ok a, w1) /\ k a w1 = (Ok b, w').
Proof. unfold bind. destruct (m w) as [ [a|e] w1]; [|done]. eauto. Qed.

(** [preserves v m]: running [m] does not change the view [v] of the world,
    whatever it returns. *)
Definition preserves {A V} (v : W -> V) (m : M W A) : Prop := forall w, v (m w).2 = v w.

Lemma preserves_ret {A V} (v : W -> V) (a : A) : preserves v (ret a).
Proof. by intros w. Qed.
Lemma preserves_fail {A V} (v : W -> V) e : preserves v (fail (A:=A) e).
Proof. by intros w. Qed.
Lemma preserves_lift {A V} (v : W -> V) (r : Res A) : preserves v (lift_res r).
Proof. by intros w. Qed.
Lemma preserves_total {A V} (v : W -> V) (f : W -> A * W) :
  (forall w, v (f w).2 = v w) -> preserves v (total f).
Proof. intros H w. unfold total. specialize (H w). by destruct (f w). Qed.
Lemma preserves_bind {A B V} (v : W -> V) (m : M W A) (k : A -> M W B) :
  preserves v m -> (forall a, preserves v (k a)) -> preserves v (bind m k).
Proof.
  intros Hm Hk w. unfold bind. specialize (Hm w).
  destruct (m w) as [[a|e] w']; simpl in *; [by rewrite (Hk a)|done].
Qed.
Lemma preserves_bind_ok {A B V} (v : W -> V) (m : M W A) (k : A -> M W B) :
  preserves v m -> (forall a w w', m w = (Ok a, w') -> preserves v (k a)) -> preserves v (bind m k).
Proof.
  intros Hm Hk w. unfold bind. specialize (Hm w).
  destruct (m w) as [[a|e] w'] eqn:E; simpl in *; [by rewrite (Hk a _ _ E)|done].
Qed.
Lemma preserves_try {A B V} (v : W -> V) (m : M W A) (k : Res A -> M W B) :
  preserves v m -> (forall r, preserves v (k r)) -> preserves v (try m k).
Proof.
  intros Hm Hk w. unfold try. specialize (Hm w).
  destruct (m w) as [r w']; simpl in *; by rewrite (Hk r).
Qed.
Lemma preserves_wrap {A V} (v : W -> V) f (m : M W A) :
  preserves v m -> preserves v (wrap_err f m).
Proof. intros Hm w. specialize (Hm w). unfold wrap_err. by destruct (m w) as [[]]. Qed.
Lemma preserves_ignore {A V} (v : W -> V) (m : M W A) : preserves v m -> preserves v (ignore m).
Proof. intros Hm w. apply Hm. Qed.
Lemma preserves_for_each {A V} (v : W -> V) (l : list A) body :
  (forall x, x ∈ l -> preserves v (body x)) -> preserves v (for_each l body).
Proof.
  induction l as [|x l IH]; intros H; simpl; [apply preserves_ret|].
  apply preserves_bind; [apply H; set_solver|]. intros _. apply IH. set_solver.
Qed.
Lemma preserves_for_fold {A S V} (v : W -> V) (l : list A) (s : S) body :
  (forall s x, preserves v (body s x)) -> preserves v (for_fold l s body).
Proof.
  revert s. induction l as [|x l IH]; intros s H; simpl; [apply preserves_ret|].
  apply preserves_bind; auto.
Qed.

(** The loop rule: [P] holds of the elements already walked, [Q] of an
    interrupted loop. *)
Lemma for_fold_rule {A S} (P : list A -> S -> W -> Prop) (Q : W -> Prop) (l : list A) s (body : S -> A -> M W S) w :
  P [] s w ->
  (forall l1 x l2 s w, l = l1 ++ x :: l2 -> P l1 s w ->
     match body s x w with (Ok s', w') => P (l1 ++ [x]) s' w' | (Err _, w') => Q w' end) ->
  match for_fold l s body w with (Ok s', w') => P l s' w' | (Err _, w') => Q w' end.
Proof.
  intros H0 Hb. enough (Hgen : forall l2 l1 s w, l = l1 ++ l2 -> P l1 s w ->
    match for_fold l2 s body w with (Ok s', w') => P l s' w' | (Err _, w') => Q w' end) by by apply (Hgen l []).
  induction l2 as [|x l2 IH]; intros l1 s1 w1 El HP; simpl.
  - by rewrite app_nil_r in El; subst.
  - specialize (Hb l1 x l2 s1 w1 El HP). unfold bind.
    destruct (body s1 x w1) as [[s2|e] w2]; [|done].
    apply (IH (l1 ++ [x])); [|done]. by rewrite <- app_assoc.
Qed.

(** A loop that completes keeps what each completed step keeps. *)
Lemma for_fold_ind {A S} (P : S -> W -> Prop) (l : list A) s (body : S -> A -> M W S) w r w' :
  for_fold l s body w = (Ok r, w') -> P s w ->
  (forall x s w s' w', x ∈ l -> P s w -> body s x w = (Ok s', w') -> P s' w') -> P r w'.
Proof.
  revert s w. induction l as [|x l IH]; intros s w; simpl; [by intros [= <- <-]|].
  unfold bind. destruct (body s x w) as [[s1|e] w1] eqn:E; [|done]. intros Hr Hs Hb.
  eapply IH; [exact Hr| |].
  - eapply Hb; [|exact Hs|exact E]. set_solver.
  - intros. eapply Hb; [|done..]. set_solver.
Qed.
End Rules.

#[export] Hint Resolve preserves_ret preserves_fail preserves_lift preserves_wrap
  preserves_ignore preserves_for_each preserves_for_fold : senda.
#[export] Hint Unfold ret fail : senda.

(** The transition graph of one compare-and-set table: [moves edge v m] says
    that running [m] changes the table [v] of the world by finitely many steps,
    each along an edge at some key. *)
Inductive table_step {K A} `{Countable K} (edge : A -> A -> Prop) (s s' : gmap K A) : Prop :=
| table_step_intro k x y :
    s !! k = Some x -> edge x y -> s' = <[k := y]> s -> table_step edge s s'.

Definition moves {W A K B} `{Countable K} (edge : B -> B -> Prop) (v : W -> gmap K B) (m : M W A)
  : Prop := forall w, rtc (table_step edge) (v w) (v (m w).2).

Section Moves.
Context {W K B : Type} `{Countable K} (edge : B -> B -> Prop) (v : W -> gmap K B).

Lemma moves_preserves {A} (m : M W A) : preserves v m -> moves edge v m.
Proof. intros Hm w. rewrite Hm. done. Qed.

Lemma moves_bind {A C} (m : M W A) (k : A -> M W C) :
  moves edge v m -> (forall a, moves edge v (k a)) -> moves edge v (bind m k).
Proof.
  intros Hm Hk w. specialize (Hm w). unfold bind.
  destruct (m w) as [[a|e] w']; simpl in *; [|done]. etrans; [done|apply Hk].
Qed.

Lemma moves_try {A C} (m : M W A) (k : Res A -> M W C) :
  moves edge v m -> (forall r, moves edge v (k r)) -> moves edge v (try m k).
Proof.
  intros Hm Hk w. specialize (Hm w). unfold try.
  destruct (m w) as [r w']; simpl in *. etrans; [done|apply Hk].
Qed.

Lemma moves_wrap {A} f (m : M W A) : moves edge v m -> moves edge v (wrap_err f m).
Proof. intros Hm w. specialize (Hm w). unfold wrap_err. by destruct (m w) as [[]]. Qed.

Lemma moves_ignore {A} (m : M W A) : moves edge v m -> moves edge v (ignore m).
Proof. intros Hm w. apply Hm. Qed.
End Moves.

(** [relates v R m]: running [m] takes the view [v] of the world along the
    preorder [R], whatever it returns; [relates_at] says it of one run. *)
Definition relates_at {W V A} (v : W -> V) (R : V -> V -> Prop) (m : M W A) (w : W) : Prop := R (v w) (v (m w).2).
Definition relates {W V A} (v : W -> V) (R : V -> V -> Prop) (m : M W A) : Prop := forall w, relates_at v R m w.

Section Relates.
Context {W V : Type} (v : W -> V) (R : V -> V -> Prop) `{!PreOrder R}.

Lemma relates_preserves {A} (m : M W A) : preserves v m -> relates v R m.
Proof. intros Hm w. unfold relates_at. by rewrite Hm. Qed.

(** The continuation may use what the run so far returned. *)
Lemma relates_at_bind {A C} (m : M W A) (k : A -> M W C) w :
  relates_at v R m w -> (forall a w', m w = (Ok a, w') -> relates_at v R (k a) w') -> relates_at v R (bind m k) w.
Proof.
  unfold relates_at, bind. intros Hm Hk. destruct (m w) as [[a|e] w'] eqn:E; simpl in *; [|done].
  etrans; [done|by apply Hk].
Qed.

Lemma relates_at_try {A C} (m : M W A) (k : Res A -> M W C) w :
  relates_at v R m w -> (forall r w', m w = (r, w') -> relates_at v R (k r) w') -> relates_at v R (try m k) w.
Proof.
  unfold relates_at, try. intros Hm Hk. destruct (m w) as [r w'] eqn:E; simpl in *.
  etrans; [done|by apply Hk].
Qed.

Lemma relates_bind {A C} (m : M W A) (k : A -> M W C) :
  relates v R m -> (forall a, relates v R (k a)) -> relates v R (bind m k).
Proof. intros Hm Hk w. apply relates_at_bind; [apply Hm|intros; apply Hk]. Qed.

Lemma relates_try {A C} (m : M W A) (k : Res A -> M W C) :
  relates v R m -> (forall r, relates v R (k r)) -> relates v R (try m k).
Proof. intros Hm Hk w. apply relates_at_try; [apply Hm|intros; apply Hk]. Qed.

Lemma relates_wrap {A} f (m : M W A) : relates v R m -> relates v R (wrap_err f m).
Proof. intros Hm w. specialize (Hm w). unfold relates_at, wrap_err in *. by destruct (m w) as [[]]. Qed.

Lemma relates_ignore {A} (m : M W A) : relates v R m -> relates v R (ignore m).
Proof. intros Hm w. apply Hm. Qed.
End Relates.

(** [logs_at v P m w]: run from [w], [m] appends at most one entry to the log
    [v], and that entry satisfies [P]. *)
Definition logs_at {W A L} (v : W -> list L) (P : L -> Prop) (m : M W A) (w : W) : Prop :=
  v (m w).2 = v w \/ exists a, P a /\ v (m w).2 = v w ++ [a].

Section Logs.
Context {W L : Type} (v : W -> list L) (P : L -> Prop).

Lemma logs_preserves {A} (m : M W A) w : preserves v m -> logs_at v P m w.
Proof. intros H. left. apply H. Qed.

Lemma logs_bind {A B} (m : M W A) (k : A -> M W B) w :
  preserves v m -> (forall a w1, m w = (Ok a, w1) -> logs_at v P (k a) w1) -> logs_at v P (bind m k) w.
Proof.
  intros Hm Hk. specialize (Hm w). unfold logs_at, bind.
  destruct (m w) as [[a|e] w1] eqn:E; simpl in *; [|by left].
  rewrite <- Hm. by apply Hk.
Qed.

Lemma logs_try {A B} (m : M W A) (k : Res A -> M W B) w :
  preserves v m -> (forall r w1, m w = (r, w1) -> logs_at v P (k r) w1) -> logs_at v P (try m k) w.
Proof.
  intros Hm Hk. specialize (Hm w). unfold logs_at, try.
  destruct (m w) as [r w1] eqn:E; simpl in *. rewrite <- Hm. by apply Hk.
Qed.

Lemma logs_try_then {A B} (m : M W A) (k : Res A -> M W B) w :
  logs_at v P m w -> (forall r, preserves v (k r)) -> logs_at v P (try m k) w.
Proof.
  intros Hm Hk. unfold logs_at, try in *. destruct (m w) as [r w1]; simpl in *.
  specialize (Hk r w1). by rewrite Hk.
Qed.

Lemma logs_weaken {A} (Q : L -> Prop) (m : M W A) w :
  (forall a, P a -> Q a) -> logs_at v P m w -> logs_at v Q m w.
Proof. intros HPQ [H|(a & Ha & H)]; [by left|right; eauto]. Qed.
End Logs.

(** ** Process memory

    A component with memory of its own runs over the world and that memory:
    [up] lifts a port call, [down] an operation of the memory, [get_state] and [set_state] touch the memory. *)
Definition up {W S A} (m : M W A) : M (W * S) A := fun '(x, st) => let '(r, x') := m x in (r, (x', st)).
Definition down {W S A} (m : M S A) : M (W * S) A := fun '(x, st) => let '(r, st') := m st in (r, (x, st')).
Definition get_state {W S} : M (W * S) S := fun x => (Ok x.2, x).
Definition set_state {W S} (f : S -> S) : M (W * S) unit := fun '(x, st) => (Ok tt, (x, f st)).

(** A component created for one call: its memory starts at [init] and dies with
    the call. *)
Definition with_memory {W S A} (init : S) (m : M (W * S) A) : M W A :=
  fun w => let '(r, (w', _)) := m (w, init) in (r, w').

Definition on_world {W S V} (v : W -> V) (x : W * S) : V := v x.1.

Section Lift.
Context {W S : Type}.

Lemma preserves_up {A V} (v : W -> V) (m : M W A) : preserves v m -> preserves (on_world (S:=S) v) (up m).
Proof. intros Hm [x st]. specialize (Hm x). unfold up, on_world. simpl. by destruct (m x). Qed.

Lemma preserves_get_state {V} (v : W -> V) : preserves (on_world v) (get_state (W:=W) (S:=S)).
Proof. by intros x. Qed.

Lemma preserves_set_state {V} (v : W -> V) f : preserves (on_world v) (set_state (W:=W) (S:=S) f).
Proof. by intros [x st]. Qed.

Lemma moves_up {A K B} `{Countable K} (edge : B -> B -> Prop) (v : W -> gmap K B) (m : M W A) :
  moves edge v m -> moves edge (on_world (S:=S) v) (up m).
Proof. intros Hm [x st]. specialize (Hm x). unfold up, on_world. simpl. by destruct (m x). Qed.

Lemma logs_up {A L} (v : W -> list L) P (m : M W A) x :
  logs_at v P m x.1 -> logs_at (on_world (S:=S) v) P (up m) x.
Proof. destruct x as [x st]. unfold logs_at, on_world, up. simpl. by destruct (m x). Qed.

Lemma relates_up {V A} (v : W -> V) (R : V -> V -> Prop) (m : M W A) :
  relates v R m -> relates (on_world (S:=S) v) R (up m).
Proof. intros Hm [x st]. specialize (Hm x). unfold relates_at, up, on_world in *. simpl. by destruct (m x). Qed.

Lemma relates_at_up {V A} (v : W -> V) (R : V -> V -> Prop) (m : M W A) x :
  relates_at v R m x.1 -> relates_at (on_world (S:=S) v) R (up m) x.
Proof. destruct x as [x st]. unfold relates_at, up, on_world. simpl. by destruct (m x). Qed.
End Lift.

#[export] Hint Resolve preserves_up preserves_get_state preserves_set_state moves_up : senda.

(** Discharges a [preserves] goal by the structure of the program; the head of
    the computation is matched syntactically. *)
Ltac preserves_step :=
  lazymatch goal with
  | |- forall _, _ => intro
  | |- preserves _ (ret _) => apply preserves_ret
  | |- preserves _ (fail _) => apply preserves_fail
  | |- preserves _ (lift_res _) => apply preserves_lift
  | |- preserves _ (bind _ _) => apply preserves_bind
  | |- preserves _ (try _ _) => apply preserves_try
  | |- preserves _ (wrap_err _ _) => apply preserves_wrap
  | |- preserves _ (ignore _) => apply preserves_ignore
  | |- preserves _ (for_each _ _) => apply preserves_for_each
  | |- preserves _ (for_fold _ _ _) => apply preserves_for_fold
  | |- preserves _ (match ?x with _ => _ end) => destruct x eqn:?
  end.
Ltac preserves_tac := repeat first [ preserves_step | solve [eauto with senda typeclass_instances] ].

(** The same for a [moves] goal; what does not move is discharged by
    [preserves_tac]. *)
Ltac moves_step :=
  lazymatch goal with
  | |- forall _, _ => intro
  | |- moves _ _ (bind _ _) => apply moves_bind
  | |- moves _ _ (try _ _) => apply moves_try
  | |- moves _ _ (wrap_err _ _) => apply moves_wrap
  | |- moves _ _ (ignore _) => apply moves_ignore
  | |- moves _ _ (match ?x with _ => _ end) => destruct x eqn:?
  | |- moves _ _ (ret _) => apply moves_preserves, preserves_ret
  | |- moves _ _ (fail _) => apply moves_preserves, preserves_fail
  end.
Ltac moves_tac :=
  repeat first [ moves_step | solve [eauto with senda typeclass_instances]
               | solve [apply moves_preserves; preserves_tac] ].

(** The same for a [relates] goal; [related] applies a rule and finds the
    preorder. *)
Tactic Notation "related" uconstr(rule) := apply rule; try typeclasses eauto.
Ltac relates_step :=
  lazymatch goal with
  | |- forall _, _ => intro
  | |- relates _ _ (bind _ _) => related relates_bind
  | |- relates _ _ (try _ _) => related relates_try
  | |- relates _ _ (wrap_err _ _) => apply relates_wrap
  | |- relates _ _ (ignore _) => apply relates_ignore
  | |- relates _ _ (up _) => apply relates_up
  | |- relates _ _ (match ?x with _ => _ end) => destruct x eqn:?
  | |- relates _ _ (ret _) => related relates_preserves; apply preserves_ret
  | |- relates _ _ (fail _) => related relates_preserves; apply preserves_fail
  end.
Ltac relates_tac :=
  repeat first [ relates_step | solve [eauto with senda typeclass_instances]
               | solve [related relates_preserves; preserves_tac] ].

(** Runs one step of a handler: case analysis on the next store call. *)
Ltac run_step :=
  match goal with
  | |- context [bind ?m _ ?w] => unfold bind at 1
  | |- context [try ?m _ ?w] => unfold try at 1
  | |- context [wrap_err _ ?m ?w] => unfold wrap_err at 1
  end.
