(* ===== verification/Domain.v ===== *)
(** * The domain model ([internal/domain])

    One record per struct and one inductive per string enumeration of the
    package (a Go string type whose values come from outside keeps an extra
    constructor for the strings that are not one of its constants), and the
    package's pure functions: environments, references, roles, recipient
    addresses and webhook subscriptions. *)
From stdpp Require Import base gmap strings list.
From Stdlib Require Import ZArith Ascii String Lia.
From S2P Require Import Prelude GoMonad.

(** ** Values of type [any] *)

(** JSON-shaped dynamic values; an integer-typed Go value is [AInt], a float64
    [AFloat] (its bits), a map its association list. *)
Inductive any :=
| ANil
| ABool (b : bool)
| AInt (z : Z)
| AFloat (bits : Z)
| AStr (s : string)
| AList (l : list any)
| AMap (m : list (string * any)).

(** [map[string]any] and [map[string]map[string]any]. *)
Abbreviation fields_map := (gmap string any).
Abbreviation injector_map := (gmap string (gmap string any)).

(** ** Environments ([environment.go]) *)

Inductive Environment := EnvironmentProd | EnvironmentTest | EnvironmentOther (raw : string).

#[export] Instance Environment_eq_dec : EqDecision Environment.
Proof. solve_decision. Defined.

Definition Environment_String (e : Environment) : string :=
  match e with
  | EnvironmentProd => "prod"
  | EnvironmentTest => "test"
  | EnvironmentOther raw => raw
  end.

Definition Environments : list Environment := [EnvironmentProd; EnvironmentTest].

Definition ParseEnvironment `{GoStd} (raw : string) : Res Environment :=
  let v := ToLower (TrimSpace raw) in
  if bool_decide (v = "prod") then Ok EnvironmentProd
  else if bool_decide (v = "test") then Ok EnvironmentTest
  else Err (EMsg ("invalid environment " +:+ Quote raw)).

(** [None] is the panic. *)
Definition MustParseEnvironment `{GoStd} (raw : string) : option Environment :=
  match ParseEnvironment raw with Ok e => Some e | Err _ => None end.

Definition Environment_Valid (e : Environment) : bool :=
  bool_decide (e = EnvironmentProd) || bool_decide (e = EnvironmentTest).

Definition APIKeyTokenPrefix (e : Environment) : string :=
  "senda_" +:+ Environment_String e +:+ "_".

Definition APIKeyPrefix (e : Environment) : string := "senda_" +:+ Environment_String e.

(** ** References ([addressing.go]) *)

Record TemplateRef := mkTemplateRef {
  ref_TenantCode : string;
  ref_WorkspaceCode : string;
  ref_TemplateType : string;
}.

Definition ParseRef (ref : string) : Res TemplateRef :=
  match SplitN ref ":"%char 3 with
  | [p0; p1; p2] =>
      if bool_decide (p0 = "") || bool_decide (p1 = "") || bool_decide (p2 = "")
      then Err (ESent ErrInvalidRef)
      else Ok {| ref_TenantCode := p0; ref_WorkspaceCode := p1; ref_TemplateType := p2 |}
  | _ => Err (ESent ErrInvalidRef)
  end.

(** The inverse rendering, used by the test-send and the SDK callers. *)
Definition render_ref (r : TemplateRef) : string :=
  ref_TenantCode r +:+ ":" +:+ ref_WorkspaceCode r +:+ ":" +:+ ref_TemplateType r.

(** ** Recipients ([test_recipient_policy.go]) *)

Inductive TestRecipientMode :=
  TestRecipientModeReplace | TestRecipientModeAppend | TestRecipientModeOther (raw : string).

Definition TestRecipientMode_Valid (m : TestRecipientMode) : bool :=
  match m with TestRecipientModeReplace | TestRecipientModeAppend => true | _ => false end.

Definition CanonicalRecipientAddress `{GoStd} (value : string) : string :=
  let trimmed := TrimSpace value in
  if bool_decide (trimmed = "") then "" else ToLower trimmed.

Definition NormalizeRecipientAddresses `{GoStd} (values : list string) : list string :=
  (uniq (fun value =>
           let trimmed := TrimSpace value in
           if bool_decide (trimmed = "") then None
           else Some (CanonicalRecipientAddress trimmed, trimmed)) ∅ values).2.

(** ** Tenants and workspaces ([tenant.go]) *)

Record Tenant := mkTenant {
  ten_ID : uuid;
  ten_Code : string;
  ten_Name : string;
  ten_IsActive : bool;
  ten_CreatedAt : gotime;
  ten_UpdatedAt : gotime;
  ten_DeletedAt : option gotime;
}.

Record Workspace := mkWorkspace {
  ws_ID : uuid;
  ws_LogicalWorkspaceID : uuid;
  ws_TenantID : uuid;
  ws_Code : string;
  ws_Name : string;
  ws_Environment : Environment;
  ws_IsSystem : bool;
  ws_IsActive : bool;
  ws_OpenTrackingEnabled : bool;
  ws_DefaultLocale : option string;
  ws_TestRecipientMode : TestRecipientMode;
  ws_TestRecipientAddresses : list string;
  ws_AllowWorkspaceLocalTemplates : bool;
  ws_AllowWorkspaceInheritedTemplateForks : bool;
  ws_AllowWorkspaceLocalInjectors : bool;
  ws_WorkspacePoliciesInitialized : bool;
  ws_CreatedAt : gotime;
  ws_UpdatedAt : gotime;
  ws_DeletedAt : option gotime;
}.

(** ** Adapters and identities ([adapter.go], [adapter_identity.go]) *)

Inductive AdapterType :=
  AdapterTypeSES | AdapterTypeGmail | AdapterTypeSMTP | AdapterTypeOther (raw : string).

#[export] Instance AdapterType_eq_dec : EqDecision AdapterType.
Proof. solve_decision. Defined.

Definition AdapterType_String (t : AdapterType) : string :=
  match t with
  | AdapterTypeSES => "ses" | AdapterTypeGmail => "gmail" | AdapterTypeSMTP => "smtp"
  | AdapterTypeOther raw => raw
  end.

Record Adapter := mkAdapter {
  ad_ID : uuid;
  ad_WorkspaceID : option uuid;
  ad_Name : string;
  ad_AdapterType : AdapterType;
  ad_ConfigEncrypted : string;
  ad_IsDefault : bool;
  ad_RateLimitPerSecond : Z;
  ad_ConfigMeta : gmap string string;
  ad_CreatedAt : gotime;
  ad_UpdatedAt : gotime;
  ad_DeletedAt : option gotime;
}.

Inductive IdentityType := IdentityTypeEmail | IdentityTypeDomain | IdentityTypeOther (raw : string).
Inductive IdentityStatus :=
  IdentityStatusVerified | IdentityStatusPending | IdentityStatusFailed | IdentityStatusOther (raw : string).
Inductive IdentitySource := IdentitySourceProvider | IdentitySourceManual.

#[export] Instance IdentityType_eq_dec : EqDecision IdentityType.
Proof. solve_decision. Defined.
#[export] Instance IdentityStatus_eq_dec : EqDecision IdentityStatus.
Proof. solve_decision. Defined.
#[export] Instance IdentitySource_eq_dec : EqDecision IdentitySource.
Proof. solve_decision. Defined.

Record AdapterIdentity := mkAdapterIdentity {
  id_ID : uuid;
  id_AdapterID : uuid;
  id_Identity : string;
  id_IdentityType : IdentityType;
  id_Status : IdentityStatus;
  id_SendingEnabled : bool;
  id_IsDefault : bool;
  id_DisplayName : option string;
  id_Source : IdentitySource;
  id_LastSyncedAt : option gotime;
  id_GrantedWorkspaceCount : Z;
  id_CreatedAt : gotime;
  id_UpdatedAt : gotime;
}.

(** ** Emails ([email.go]) *)

Inductive EmailStatus :=
| StatusQueued | StatusProcessing | StatusSent | StatusDelivered | StatusOpened
| StatusBounced | StatusComplained | StatusFailed | StatusSuppressed.

#[export] Instance EmailStatus_eq_dec : EqDecision EmailStatus.
Proof. solve_decision. Defined.

Definition EmailStatus_String (s : EmailStatus) : string :=
  match s with
  | StatusQueued => "queued" | StatusProcessing => "processing" | StatusSent => "sent"
  | StatusDelivered => "delivered" | StatusOpened => "opened" | StatusBounced => "bounced"
  | StatusComplained => "complained" | StatusFailed => "failed" | StatusSuppressed => "suppressed"
  end.

(** The event types carry the same strings as the statuses. *)
Inductive EmailEventType :=
| EventTypeQueued | EventTypeProcessing | EventTypeSent | EventTypeDelivered
| EventTypeBounced | EventTypeComplained | EventTypeOpened | EventTypeFailed
| EventTypeSuppressed.

#[export] Instance EmailEventType_eq_dec : EqDecision EmailEventType.
Proof. solve_decision. Defined.

Definition EmailEventType_String (t : EmailEventType) : string :=
  match t with
  | EventTypeQueued => "queued" | EventTypeProcessing => "processing" | EventTypeSent => "sent"
  | EventTypeDelivered => "delivered" | EventTypeBounced => "bounced"
  | EventTypeComplained => "complained" | EventTypeOpened => "opened"
  | EventTypeFailed => "failed" | EventTypeSuppressed => "suppressed"
  end.

(** The conversion [EmailEventType(s)] keeps the string. *)
Definition StatusToEventType (s : EmailStatus) : EmailEventType :=
  match s with
  | StatusQueued => EventTypeQueued
  | StatusProcessing => EventTypeProcessing
  | StatusSent => EventTypeSent
  | StatusDelivered => EventTypeDelivered
  | StatusOpened => EventTypeOpened
  | StatusBounced => EventTypeBounced
  | StatusComplained => EventTypeComplained
  | StatusFailed => EventTypeFailed
  | StatusSuppressed => EventTypeSuppressed
  end.

(** The empty string is the zero value of the Go type. *)
Inductive EmailSourceType :=
| EmailSourceTypeNone
| EmailSourceTypeDataPlaneAPIKey
| EmailSourceTypeManagementTemplateBulkUpload.

Record Email := mkEmail {
  em_ID : uuid;
  em_TrackingID : string;
  em_ExternalID : option string;
  em_WorkspaceID : uuid;
  em_TenantID : uuid;
  em_TemplateID : uuid;
  em_TemplateVersionID : uuid;
  em_TemplateTypeSlug : string;
  em_TemplateRef : string;
  em_RecipientEmail : string;
  em_CC : list string;
  em_BCC : list string;
  em_FromEmail : string;
  em_FromName : string;
  em_ReplyTo : option string;
  em_SubjectRendered : string;
  em_Locale : option string;
  em_Status : EmailStatus;
  em_AdapterID : uuid;
  em_SenderIdentityID : option uuid;
  em_ProviderMessageID : option string;
  em_VariablesSnapshot : fields_map;
  em_InjectorsSnapshot : injector_map;
  em_SourceType : EmailSourceType;
  em_SourceActorMemberID : option uuid;
  em_SourceActorEmail : option string;
  em_BodyMJML : string;
  em_RetryCount : Z;
  em_OpenTrackingEnabled : bool;
  em_MaxRetries : Z;
  em_NextRetryAt : option gotime;
  em_CreatedAt : gotime;
  em_UpdatedAt : gotime;
}.

(** [email.Status = s], [email.ProviderMessageID = &m], [updated_at = t]. *)
Definition set_em_Status (s : EmailStatus) (e : Email) : Email :=
  {| em_ID := em_ID e; em_TrackingID := em_TrackingID e; em_ExternalID := em_ExternalID e;
     em_WorkspaceID := em_WorkspaceID e; em_TenantID := em_TenantID e;
     em_TemplateID := em_TemplateID e; em_TemplateVersionID := em_TemplateVersionID e;
     em_TemplateTypeSlug := em_TemplateTypeSlug e; em_TemplateRef := em_TemplateRef e;
     em_RecipientEmail := em_RecipientEmail e; em_CC := em_CC e; em_BCC := em_BCC e;
     em_FromEmail := em_FromEmail e; em_FromName := em_FromName e; em_ReplyTo := em_ReplyTo e;
     em_SubjectRendered := em_SubjectRendered e; em_Locale := em_Locale e; em_Status := s;
     em_AdapterID := em_AdapterID e; em_SenderIdentityID := em_SenderIdentityID e;
     em_ProviderMessageID := em_ProviderMessageID e;
     em_VariablesSnapshot := em_VariablesSnapshot e; em_InjectorsSnapshot := em_InjectorsSnapshot e;
     em_SourceType := em_SourceType e; em_SourceActorMemberID := em_SourceActorMemberID e;
     em_SourceActorEmail := em_SourceActorEmail e; em_BodyMJML := em_BodyMJML e;
     em_RetryCount := em_RetryCount e; em_OpenTrackingEnabled := em_OpenTrackingEnabled e;
     em_MaxRetries := em_MaxRetries e; em_NextRetryAt := em_NextRetryAt e;
     em_CreatedAt := em_CreatedAt e; em_UpdatedAt := em_UpdatedAt e |}.

Record EmailPayload := mkEmailPayload {
  pl_EmailID : uuid;
  pl_EmailCreatedAt : gotime;
  pl_BodyMJML : string;
  pl_VariablesSnapshot : fields_map;
  pl_InjectorsSnapshot : injector_map;
  pl_CreatedAt : gotime;
  pl_UpdatedAt : gotime;
}.

Record EmailEvent := mkEmailEvent {
  ev_ID : uuid;
  ev_EmailID : uuid;
  ev_EventType : EmailEventType;
  ev_OccurredAt : gotime;
  ev_Metadata : fields_map;
  ev_CreatedAt : gotime;
}.

(** ** Provider events ([provider_event.go]) *)

Inductive ProviderEventType :=
  EventDelivered | EventBounced | EventComplained | EventOpened | EventOther (raw : string).

#[export] Instance ProviderEventType_eq_dec : EqDecision ProviderEventType.
Proof. solve_decision. Defined.

Definition ProviderEventType_String (t : ProviderEventType) : string :=
  match t with
  | EventDelivered => "delivered" | EventBounced => "bounced"
  | EventComplained => "complained" | EventOpened => "opened" | EventOther raw => raw
  end.

Record BounceDetail := mkBounceDetail {
  bd_BounceType : string;
  bd_DiagnosticCode : string;
  bd_Recipients : list string;
}.

Record ComplaintDetail := mkComplaintDetail {
  cd_ComplaintType : string;
  cd_FeedbackID : string;
  cd_Recipients : list string;
}.

Record ProviderEvent := mkProviderEvent {
  pe_Type : ProviderEventType;
  pe_ProviderMessageID : string;
  pe_Timestamp : gotime;
  pe_RawPayload : string;
  pe_BounceDetail : option BounceDetail;
  pe_ComplaintDetail : option ComplaintDetail;
}.

(** ** Suppressions ([suppression.go]) *)

Inductive SuppressionReason :=
  SuppressionHardBounce | SuppressionComplaint | SuppressionManual | SuppressionUnsubscribe.

#[export] Instance SuppressionReason_eq_dec : EqDecision SuppressionReason.
Proof. solve_decision. Defined.

Definition SuppressionReason_String (r : SuppressionReason) : string :=
  match r with
  | SuppressionHardBounce => "hard_bounce" | SuppressionComplaint => "complaint"
  | SuppressionManual => "manual" | SuppressionUnsubscribe => "unsubscribe"
  end.

Record SuppressionGlobal := mkSuppressionGlobal {
  sg_ID : uuid;
  sg_Email : string;
  sg_Reason : SuppressionReason;
  sg_SourceEmailID : option uuid;
  sg_Notes : option string;
  sg_CreatedAt : gotime;
  sg_RemovedAt : option gotime;
  sg_RemovedBy : option uuid;
  sg_RemovalReason : option string;
}.

Record SuppressionWorkspace := mkSuppressionWorkspace {
  sw_ID : uuid;
  sw_WorkspaceID : uuid;
  sw_Email : string;
  sw_Reason : SuppressionReason;
  sw_SourceEmailID : option uuid;
  sw_Notes : option string;
  sw_CreatedAt : gotime;
  sw_RemovedAt : option gotime;
  sw_RemovedBy : option uuid;
  sw_RemovalReason : option string;
}.

Inductive SubscriptionSource :=
  SubscriptionSourceRecipientOptout | SubscriptionSourceRecipientOptin | SubscriptionSourceAdmin.

(** A [SubscriptionSource] is a string; these are its constants. *)
Definition SubscriptionSource_String (s : SubscriptionSource) : string :=
  match s with
  | SubscriptionSourceRecipientOptout => "recipient_optout"
  | SubscriptionSourceRecipientOptin => "recipient_optin"
  | SubscriptionSourceAdmin => "admin"
  end.

Definition SubscriptionSource_Valid (raw : string) : bool :=
  bool_decide (raw = "recipient_optout") || bool_decide (raw = "recipient_optin")
  || bool_decide (raw = "admin").

Record TemplateTypeSubscription := mkTemplateTypeSubscription {
  sub_ID : uuid;
  sub_WorkspaceID : uuid;
  sub_TemplateTypeID : uuid;
  sub_Email : string;
  sub_Subscribed : bool;
  sub_Source : SubscriptionSource;
  sub_SourceEmailID : option uuid;
  sub_ActorID : option uuid;
  sub_Notes : option string;
  sub_CreatedAt : gotime;
  sub_UpdatedAt : gotime;
}.

(** ** Templates ([template.go]) *)

Inductive VersionStatus := VersionStatusDraft | VersionStatusPublished | VersionStatusArchived.

#[export] Instance VersionStatus_eq_dec : EqDecision VersionStatus.
Proof. solve_decision. Defined.

Record TemplateType := mkTemplateType {
  tt_ID : uuid;
  tt_WorkspaceID : option uuid;
  tt_Slug : string;
  tt_Name : string;
  tt_Description : option string;
  tt_AdapterID : option uuid;
  tt_SenderIdentityID : option uuid;
  tt_VariableSchema : option fields_map;
  tt_TestRecipientMode : option TestRecipientMode;
  tt_TestRecipientAddresses : list string;
  tt_OwnerScope : string;
  tt_InheritedFromSystem : bool;
  tt_IsBulk : bool;
  tt_CreatedAt : gotime;
  tt_UpdatedAt : gotime;
  tt_DeletedAt : option gotime;
}.

Record Template := mkTemplate {
  tpl_ID : uuid;
  tpl_TemplateTypeID : uuid;
  tpl_WorkspaceID : option uuid;
  tpl_IsDisabled : bool;
  tpl_IsFork : bool;
  tpl_OriginTemplateID : option uuid;
  tpl_OwnerScope : string;
  tpl_InheritedFromSystem : bool;
  tpl_CreatedAt : gotime;
  tpl_UpdatedAt : gotime;
  tpl_DeletedAt : option gotime;
}.

Record TemplateVersion := mkTemplateVersion {
  ver_ID : uuid;
  ver_TemplateID : uuid;
  ver_VersionNumber : Z;
  ver_Status : VersionStatus;
  ver_Subject : string;
  ver_PreviewText : string;
  ver_FromName : string;
  ver_ReplyTo : option string;
  ver_BodyMJML : string;
  ver_DefaultLocale : string;
  (** nil and empty maps differ *)
  ver_EditorData : option fields_map;
  ver_CreatedBy : option uuid;
  ver_PublishedAt : option gotime;
  ver_ArchivedAt : option gotime;
  ver_CreatedAt : gotime;
  ver_UpdatedAt : gotime;
}.

Record TemplateVersionLocale := mkTemplateVersionLocale {
  loc_ID : uuid;
  loc_TemplateVersionID : uuid;
  loc_Locale : string;
  loc_Subject : option string;
  loc_PreviewText : option string;
  loc_FromName : option string;
  loc_BodyMJML : option string;
  loc_EditorData : option fields_map;
  loc_CreatedAt : gotime;
  loc_UpdatedAt : gotime;
}.

(** ** Injectors ([injector.go]) *)

Inductive InjectorFieldType :=
  FieldTypeText | FieldTypeNumber | FieldTypeBool | FieldTypeImg | FieldTypeURL | FieldTypeHTML.

Record InjectorDefinition := mkInjectorDefinition {
  def_ID : uuid;
  def_WorkspaceID : option uuid;
  def_Name : string;
  def_Description : option string;
  def_Source : string;
  def_Static : bool;
  def_OwnerScope : string;
  def_InheritedFromSystem : bool;
  def_CreatedAt : gotime;
  def_UpdatedAt : gotime;
  def_DeletedAt : option gotime;
}.

Record InjectorField := mkInjectorField {
  fld_ID : uuid;
  fld_InjectorDefinitionID : uuid;
  fld_FieldName : string;
  fld_FieldType : InjectorFieldType;
  fld_Description : option string;
  fld_Position : Z;
  fld_DefaultValue : any;
  fld_AllowOverwrite : bool;
}.

Record InjectorValue := mkInjectorValue {
  val_ID : uuid;
  val_InjectorDefinitionID : uuid;
  val_FieldName : string;
  val_WorkspaceID : option uuid;
  val_Value : string;
  val_UpdatedAt : gotime;
}.

(** ** Members and roles ([member.go]) *)

Inductive Role :=
| RoleSuperadmin | RoleTenantAdmin | RoleWorkspaceAdmin | RoleWorkspaceEditor
| RoleWorkspaceViewer | RoleOther (raw : string).

#[export] Instance Role_eq_dec : EqDecision Role.
Proof. solve_decision. Defined.

Definition Role_Level (r : Role) : Z :=
  match r with
  | RoleSuperadmin => 100
  | RoleTenantAdmin => 80
  | RoleWorkspaceAdmin => 60
  | RoleWorkspaceEditor => 40
  | RoleWorkspaceViewer => 20
  | RoleOther _ => 0
  end.

Inductive ScopeType := ScopeGlobal | ScopeTenant | ScopeWorkspace | ScopeOther (raw : string).

#[export] Instance ScopeType_eq_dec : EqDecision ScopeType.
Proof. solve_decision. Defined.

Record Member := mkMember {
  mem_ID : uuid;
  mem_Email : string;
  mem_DisplayName : option string;
  mem_OIDCSubject : option string;
  mem_OIDCIssuer : option string;
  mem_CreatedAt : gotime;
  mem_UpdatedAt : gotime;
}.

Record MemberRole := mkMemberRole {
  mr_ID : uuid;
  mr_MemberID : uuid;
  mr_Role : Role;
  mr_ScopeType : ScopeType;
  mr_TenantID : option uuid;
  mr_WorkspaceID : option uuid;
  mr_CreatedAt : gotime;
  mr_CreatedBy : option uuid;
}.

(** ** API keys and webhooks ([apikey.go], [webhook.go]) *)

Record APIKey := mkAPIKey {
  key_ID : uuid;
  key_WorkspaceID : uuid;
  key_Name : string;
  key_KeyHash : string;
  key_KeyPrefix : string;
  key_KeyHint : string;
  key_CreatedBy : uuid;
  key_LastUsedAt : option gotime;
  key_RevokedAt : option gotime;
  key_CreatedAt : gotime;
}.

Record Webhook := mkWebhook {
  wh_ID : uuid;
  wh_WorkspaceID : uuid;
  wh_URL : string;
  wh_Secret : string;
  wh_Events : list string;
  wh_IsActive : bool;
  wh_ConsecutiveFailures : Z;
  wh_LastFailureAt : option gotime;
  wh_DisabledAt : option gotime;
  wh_CreatedAt : gotime;
  wh_UpdatedAt : gotime;
}.

Fixpoint events_match (events : list string) (eventType : string) : bool :=
  match events with
  | [] => false
  | e :: r => if bool_decide (e = eventType) || bool_decide (e = "*") then true
              else events_match r eventType
  end.

Definition SubscribesTo (w : Webhook) (eventType : string) : bool :=
  events_match (wh_Events w) eventType.

(** * Theorems *)

(** The references [ParseRef] accepts: colon-free tenant and workspace codes. *)
Definition wf_ref (r : TemplateRef) : Prop :=
  ref_TenantCode r <> "" /\ ref_WorkspaceCode r <> "" /\ ref_TemplateType r <> "" /\
  has_byte ":"%char (ref_TenantCode r) = false /\
  has_byte ":"%char (ref_WorkspaceCode r) = false.

(** [ParseRef] is exactly the inverse of rendering [tenant:workspace:type]:
    a string parses to [r] iff [r] has three non-empty parts, the first two
    without a colon, and the string is [r] rendered. Every other string is
    rejected with [ErrInvalidRef]. *)
Theorem ParseRef_spec s :
  (forall r, ParseRef s = Ok r <-> wf_ref r /\ s = render_ref r) /\
  (forall e, ParseRef s = Err e -> e = ESent ErrInvalidRef).
Proof.
  split; [|intros e; unfold ParseRef; repeat case_match; congruence].
  intros r. unfold ParseRef, wf_ref, render_ref. simpl. split.
  - destruct (Cut ":"%char s) as [[a s']|] eqn:E1; [|done].
    destruct (Cut ":"%char s') as [[b c]|] eqn:E2; [|done].
    apply Cut_Some in E1 as [-> Ha]. apply Cut_Some in E2 as [-> Hb].
    repeat case_bool_decide; simpl; try done. intros [= <-]. by simpl.
  - destruct r as [a b c]; simpl. intros [(Ha & Hb & Hc & Hna & Hnb) ->].
    rewrite (proj2 (Cut_Some ":"%char _ a (b +:+ ":" +:+ c))) by done.
    rewrite (proj2 (Cut_Some ":"%char _ b c)) by done.
    by repeat case_bool_decide.
Qed.

Lemma SubscribesTo_spec w t :
  SubscribesTo w t = true <-> t ∈ wh_Events w \/ "*" ∈ wh_Events w.
Proof.
  unfold SubscribesTo. induction (wh_Events w) as [|e r IH]; simpl; [set_solver|].
  repeat case_bool_decide; simpl; [set_solver..|]. rewrite IH. set_solver.
Qed.
