(* ===== verification/Ports.v ===== *)
(** * Ports ([internal/port])

    The interfaces the services are written against, as records of operations
    over an abstract world [W], and the laws the clients' theorems use, as
    type classes. [Postgres] implements the stores and discharges the laws. *)
From stdpp Require Import base gmap strings list.
From Stdlib Require Import ZArith String Lia.
From S2P Require Import Prelude GoMonad Domain.

(** [port.ListOptions] and [port.PageResult]. *)
Record ListOptions := mkListOptions { lo_Cursor : string; lo_Limit : Z; lo_Search : string }.
Record PageResult (A : Type) := mkPageResult { pr_Items : list A; pr_NextCursor : string; pr_HasMore : bool }.

#[local] Set Implicit Arguments.

(** The clock and the identifier source of the process. *)
Record Runtime (W : Type) := mkRuntime {
  rt_NewV7 : W -> uuid * W;
  rt_Now : W -> gotime * W;
}.

(** [uuid.Must(uuid.NewV7())] and [time.Now().UTC()]. *)
Definition NewV7 {W} (rt : Runtime W) : M W uuid := total (rt_NewV7 rt).
Definition Now {W} (rt : Runtime W) : M W gotime := total (rt_Now rt).

(** The part of [port.EmailStore] the services and the worker use outside a
    transaction. *)
Module EmailStore.
Record t (W : Type) := mk {
  GetByTrackingID : string -> M W Email;
  GetByProviderMessageID : string -> M W Email;
  GetPayload : uuid -> M W EmailPayload;
  UpdateStatus : uuid -> EmailStatus -> EmailStatus -> M W unit;
  UpdateRetry : uuid -> Z -> option gotime -> M W unit;
  SetProviderMessageID : uuid -> string -> M W unit;
  AddEvent : EmailEvent -> M W unit;
}.
End EmailStore.

(** The part of [port.SuppressionStore] used outside the batch evaluator. *)
Module SuppressionStore.
Record t (W : Type) := mk {
  AddGlobal : SuppressionGlobal -> M W unit;
  AddWorkspace : SuppressionWorkspace -> M W unit;
  IsSuppressed : uuid -> string -> M W (bool * string);
}.
End SuppressionStore.

(** The lookups of [port.WorkspaceStore] and [port.TemplateStore] the modelled
    services use; a scope of a chain is a nullable workspace id. *)
Module WorkspaceStore.
Record t (W : Type) := mk {
  GetByID : uuid -> M W Workspace;
  GetByTenantAndCode : uuid -> string -> Environment -> M W Workspace;
  GetSystemWorkspace : uuid -> Environment -> M W Workspace;
  (** one page: the workspaces and the next cursor *)
  ListByTenant : uuid -> Environment -> Z -> string -> M W (list Workspace * string);
}.
End WorkspaceStore.

Module TemplateStore.
Record t (W : Type) := mk {
  GetTypeBySlug : string -> list (option uuid) -> M W TemplateType;
  ResolveTemplate : uuid -> list (option uuid) -> M W Template;
  GetPublishedVersion : uuid -> M W TemplateVersion;
  GetLocale : uuid -> string -> M W TemplateVersionLocale;
}.
End TemplateStore.

(** [port.TenantStore], [port.MemberStore] and [port.APIKeyStore]; an operation
    that fills in the columns of its argument returns what it leaves there. *)
Module TenantStore.
Record t (W : Type) := mk {
  Create : Tenant -> M W Tenant;
  GetByID : uuid -> M W Tenant;
  GetByCode : string -> M W Tenant;
  List : ListOptions -> M W (list Tenant * string);
  Update : Tenant -> M W Tenant;
  SoftDelete : uuid -> M W unit;
}.
End TenantStore.

Module MemberStore.
Record t (W : Type) := mk {
  Create : Member -> M W Member;
  GetByEmail : string -> M W Member;
  GetByOIDCIdentity : string -> string -> M W Member;
  GetByID : uuid -> M W Member;
  ListAll : ListOptions -> M W (list Member * string);
  ListInScope : ScopeType -> option uuid -> ListOptions -> M W (list Member * string);
  AddRole : MemberRole -> M W MemberRole;
  ReplaceRoleInScope : MemberRole -> M W MemberRole;
  RemoveRole : uuid -> M W unit;
  RevokeAccessInScope : uuid -> ScopeType -> option uuid -> M W Z;
  GetRoles : uuid -> M W (list MemberRole);
  GetRolesInScope : uuid -> ScopeType -> option uuid -> M W (list MemberRole);
  GetRolesByMembers : list uuid -> M W (gmap uuid (list MemberRole));
}.
End MemberStore.

Module APIKeyStore.
Record t (W : Type) := mk {
  Create : APIKey -> M W APIKey;
  GetByID : uuid -> M W APIKey;
  GetByHash : string -> M W APIKey;
  Revoke : uuid -> M W unit;
  TouchLastUsed : uuid -> M W unit;
  ListByWorkspace : uuid -> ListOptions -> M W (PageResult APIKey);
}.
End APIKeyStore.

(** [encoding/json] on one type. *)
Class JSON (A : Type) := { Marshal : A -> Res string; Unmarshal : string -> Res A }.
Class JSONLaws A `{JSON A} : Prop := {
  json_decode_encode (a : A) d : Marshal a = Ok d -> Unmarshal d = Ok a;
}.
#[global] Arguments JSONLaws A {_}.

(** [port.SendJob], [port.WebhookJob] and [port.JobQueue]. *)
Record SendJob := mkSendJob {
  sj_EmailID : uuid;
  sj_TrackingID : string;
  sj_AdapterID : uuid;
  sj_Priority : Z;
}.

Record WebhookJob := mkWebhookJob {
  wj_WebhookID : uuid;
  wj_EventType : string;
  wj_Payload : string;
  wj_RetryCount : Z;
}.

(** What River is told: [nil], [JobCancel], [JobSnooze]; any other error is the
    [Err] of the monad and means a retry. *)
Inductive JobOutcome := JobDone | JobCancel (e : error) | JobSnooze (d : duration).

(** [port.OutgoingEmail]. *)
Record EmailAddress := mkEmailAddress { addr_Name : string; addr_Address : string }.

Record OutgoingEmail := mkOutgoingEmail {
  out_From : EmailAddress;
  out_To : EmailAddress;
  out_CC : list EmailAddress;
  out_BCC : list EmailAddress;
  out_ReplyTo : option EmailAddress;
  out_Subject : string;
  out_BodyHTML : string;
  out_BodyText : string;
  out_Headers : gmap string string;
  out_TrackingID : string;
}.

(** ** Laws *)

(** What the clients assume of the email table [emails]: a status update is a
    compare-and-set (a lost reply may report an error although it was applied),
    and nothing else touches a status. *)
Class EmailStoreLaws {W} (es : EmailStore.t W) (status_of : W -> gmap uuid EmailStatus) : Prop := {
  UpdateStatus_ok id new old w w' :
    EmailStore.UpdateStatus es id new old w = (Ok tt, w') ->
    status_of w !! id = Some old /\ status_of w' = <[id := new]> (status_of w);
  UpdateStatus_err id new old w e w' :
    EmailStore.UpdateStatus es id new old w = (Err e, w') ->
    status_of w' = status_of w \/
    (errors_Is e ErrStatusConflict = false /\
     status_of w !! id = Some old /\ status_of w' = <[id := new]> (status_of w));
  GetByTrackingID_status tid : preserves status_of (EmailStore.GetByTrackingID es tid);
  GetByProviderMessageID_status m : preserves status_of (EmailStore.GetByProviderMessageID es m);
  GetPayload_status id : preserves status_of (EmailStore.GetPayload es id);
  UpdateRetry_status id n t : preserves status_of (EmailStore.UpdateRetry es id n t);
  SetProviderMessageID_status id m : preserves status_of (EmailStore.SetProviderMessageID es id m);
  AddEvent_status ev : preserves status_of (EmailStore.AddEvent es ev);
}.

(** A store that leaves a view of the world alone, whatever is called. *)
Class EmailStoreFrame {W V} (es : EmailStore.t W) (v : W -> V) : Prop := {
  frame_GetByTrackingID tid : preserves v (EmailStore.GetByTrackingID es tid);
  frame_GetByProviderMessageID m : preserves v (EmailStore.GetByProviderMessageID es m);
  frame_GetPayload id : preserves v (EmailStore.GetPayload es id);
  frame_UpdateStatus id s1 s2 : preserves v (EmailStore.UpdateStatus es id s1 s2);
  frame_UpdateRetry id n t : preserves v (EmailStore.UpdateRetry es id n t);
  frame_SetProviderMessageID id m : preserves v (EmailStore.SetProviderMessageID es id m);
  frame_AddEvent ev : preserves v (EmailStore.AddEvent es ev);
}.

Class SuppressionStoreFrame {W V} (ss : SuppressionStore.t W) (v : W -> V) : Prop := {
  frame_AddGlobal e : preserves v (SuppressionStore.AddGlobal ss e);
  frame_AddWorkspace e : preserves v (SuppressionStore.AddWorkspace ss e);
  frame_IsSuppressed ws a : preserves v (SuppressionStore.IsSuppressed ss ws a);
}.

Class RuntimeFrame {W V} (rt : Runtime W) (v : W -> V) : Prop := {
  frame_NewV7 : preserves v (NewV7 rt);
  frame_Now : preserves v (Now rt);
}.

#[export] Hint Resolve GetByTrackingID_status GetByProviderMessageID_status GetPayload_status
  UpdateRetry_status SetProviderMessageID_status AddEvent_status : senda.
#[export] Hint Resolve frame_GetByTrackingID frame_GetByProviderMessageID frame_GetPayload
  frame_UpdateStatus frame_UpdateRetry frame_SetProviderMessageID frame_AddEvent
  frame_AddGlobal frame_AddWorkspace frame_IsSuppressed frame_NewV7 frame_Now : senda.

(** A status update moves the table along its own edge only. *)
Lemma UpdateStatus_moves {W} (es : EmailStore.t W) status_of `{!EmailStoreLaws es status_of}
    (edge : EmailStatus -> EmailStatus -> Prop) id new old :
  edge old new -> moves edge status_of (EmailStore.UpdateStatus es id new old).
Proof.
  intros He w. destruct (EmailStore.UpdateStatus es id new old w) as [[[]|e] w'] eqn:E; simpl.
  - apply UpdateStatus_ok in E as [Hold ->]. eapply rtc_once, table_step_intro; eauto.
  - apply UpdateStatus_err in E as [->|(_ & Hold & ->)]; [done|].
    eapply rtc_once, table_step_intro; eauto.
Qed.

#[export] Hint Resolve UpdateStatus_moves : senda.
