(* ===== verification/Token.v ===== *)
(** * Unsubscribe tokens and open tracking ([internal/unsubscribe], [internal/tracking])

    The signed unsubscribe token (generation, verification, the unverified
    peek at the workspace) over an abstract MAC, base64 and JSON codec, and the
    injection of the open-tracking pixel. *)
From stdpp Require Import base gmap strings list countable.
From Stdlib Require Import ZArith Ascii String Lia.
From S2P Require Import Prelude GoMonad Domain.

Definition supportedVersion : Z := 1.

Record Payload := mkPayload {
  tk_Version : Z;
  tk_WorkspaceID : uuid;
  tk_TemplateTypeID : uuid;
  tk_TemplateTypeSlug : string;
  tk_TemplateTypeName : string;
  tk_Email : string;
  tk_SourceEmailID : uuid;
  tk_IssuedAt : gotime;
  tk_ExpiresAt : gotime;
}.

Record wirePayload := mkWirePayload {
  wp_Version : Z;
  wp_WorkspaceID : uuid;
  wp_TemplateTypeID : uuid;
  wp_TemplateTypeSlug : string;
  wp_TemplateTypeName : string;
  wp_Email : string;
  wp_SourceEmailID : uuid;
  wp_IssuedAt : Z;
  wp_ExpiresAt : Z;
}.

(** The codecs of the Go standard library the token uses: HMAC-SHA256,
    [base64.RawURLEncoding] and [encoding/json] on [wirePayload] (and on the
    one-field struct of the peek). *)
Class Codec := {
  hmac_sha256 : string -> string -> string;
  b64_encode : string -> string;
  b64_decode : string -> Res string;
  json_marshal : wirePayload -> string;
  json_unmarshal : string -> Res wirePayload;
  json_peek_ws : string -> Res uuid;
  valid_utf8 : string -> bool;
}.

(** Their documented behaviour. *)
Class CodecLaws `{Codec} : Prop := {
  b64_roundtrip s : b64_decode (b64_encode s) = Ok s;
  b64_alphabet s : has_byte "."%char (b64_encode s) = false;
  b64_nonempty s : s <> "" -> b64_encode s <> "";
  hmac_nonempty k m : hmac_sha256 k m <> "";
  json_nonempty w : json_marshal w <> "";
  json_roundtrip w :
    valid_utf8 (wp_TemplateTypeSlug w) = true -> valid_utf8 (wp_TemplateTypeName w) = true ->
    valid_utf8 (wp_Email w) = true -> json_unmarshal (json_marshal w) = Ok w;
  json_peek_agrees b w : json_unmarshal b = Ok w -> json_peek_ws b = Ok (wp_WorkspaceID w);
}.

(** [Time.Unix()] and [time.Unix(s, 0)]. *)
Definition Unix (t : gotime) : Z := (t / Second)%Z.
Definition time_Unix (s : Z) : gotime := (s * Second)%Z.

Definition wire_of (p : Payload) : wirePayload :=
  {| wp_Version := tk_Version p; wp_WorkspaceID := tk_WorkspaceID p;
     wp_TemplateTypeID := tk_TemplateTypeID p; wp_TemplateTypeSlug := tk_TemplateTypeSlug p;
     wp_TemplateTypeName := tk_TemplateTypeName p; wp_Email := tk_Email p;
     wp_SourceEmailID := tk_SourceEmailID p; wp_IssuedAt := Unix (tk_IssuedAt p);
     wp_ExpiresAt := Unix (tk_ExpiresAt p) |}.

Definition payload_of (w : wirePayload) : Payload :=
  {| tk_Version := wp_Version w; tk_WorkspaceID := wp_WorkspaceID w;
     tk_TemplateTypeID := wp_TemplateTypeID w; tk_TemplateTypeSlug := wp_TemplateTypeSlug w;
     tk_TemplateTypeName := wp_TemplateTypeName w; tk_Email := wp_Email w;
     tk_SourceEmailID := wp_SourceEmailID w; tk_IssuedAt := time_Unix (wp_IssuedAt w);
     tk_ExpiresAt := time_Unix (wp_ExpiresAt w) |}.

Section Tokens.
Context `{Codec}.

Definition key_error (key : string) : error :=
  EMsg ("unsubscribe: signing key must be 32 bytes, got " +:+ Itoa (Z.of_nat (String.length key))).

Definition Generate (p : Payload) (key : string) : Res string :=
  if negb (String.length key =? 32)%nat then Err (key_error key)
  else if (tk_Version p =? 0)%Z then Err (EMsg "unsubscribe: payload version must be set")
  else
    let body := json_marshal (wire_of p) in
    let sig := hmac_sha256 key body in
    Ok (b64_encode body +:+ "." +:+ b64_encode sig).

(** The two parts of a well-formed token. *)
Definition token_parts (token : string) : option (string * string) :=
  match SplitN token "."%char 2 with
  | [a; b] => if bool_decide (a = "") || bool_decide (b = "") then None else Some (a, b)
  | _ => None
  end.

Definition Verify (token key : string) (now : gotime) : Res Payload :=
  if negb (String.length key =? 32)%nat then Err (key_error key)
  else
    match token_parts token with
    | None => Err (ESent ErrMalformedToken)
    | Some (a, b) =>
        match b64_decode a with
        | Err e => Err (EWrap2 "" (ESent ErrMalformedToken) ": payload decode: " e "")
        | Ok body =>
            match b64_decode b with
            | Err e => Err (EWrap2 "" (ESent ErrMalformedToken) ": signature decode: " e "")
            | Ok sig =>
                if negb (bool_decide (sig = hmac_sha256 key body)) then Err (ESent ErrInvalidSignature)
                else
                  match json_unmarshal body with
                  | Err e => Err (EWrap2 "" (ESent ErrMalformedToken) ": unmarshal: " e "")
                  | Ok w =>
                      if negb (wp_Version w =? supportedVersion)%Z
                      then Err (EWrap "" (ESent ErrUnsupportedVersion) (": got v" +:+ Itoa (wp_Version w)))
                      else
                        let p := payload_of w in
                        if (tk_ExpiresAt p <? now)%Z then Err (ESent ErrTokenExpired) else Ok p
                  end
            end
        end
    end.

Definition PeekWorkspaceID (token : string) : option uuid :=
  match token_parts token with
  | None => None
  | Some (a, _) =>
      match b64_decode a with
      | Err _ => None
      | Ok body =>
          match json_peek_ws body with
          | Err _ => None
          | Ok ws => if bool_decide (ws = uuid_Nil) then None else Some ws
          end
      end
  end.
End Tokens.

(** The payload the send worker signs for an email of a bulk type: valid for a
    year, about the canonical recipient. *)
Definition unsubscribe_payload `{GoStd} (email : Email) (tty : TemplateType) (now : gotime) : Payload :=
  {| tk_Version := 1; tk_WorkspaceID := em_WorkspaceID email; tk_TemplateTypeID := tt_ID tty;
     tk_TemplateTypeSlug := tt_Slug tty; tk_TemplateTypeName := tt_Name tty;
     tk_Email := CanonicalRecipientAddress (em_RecipientEmail email); tk_SourceEmailID := em_ID email;
     tk_IssuedAt := now; tk_ExpiresAt := AddYears now 1 |}.

(** ** The open-tracking pixel ([internal/tracking/pixel.go]) *)

(** Whether [s] starts with [p], [p] being lower case, ignoring ASCII case
    ([(?i)] folds none of the letters of [</body>] to a non-ASCII one). *)
Fixpoint has_prefix_fold (p s : string) : bool :=
  match p, s with
  | EmptyString, _ => true
  | String a p', String b s' => Ascii.eqb a (lower_ascii b) && has_prefix_fold p' s'
  | String _ _, EmptyString => false
  end.

(** [bodyCloseRe.FindStringIndex]: the text before the leftmost match, and the
    text from it on. *)
Fixpoint find_body_close (html : string) : option (string * string) :=
  if has_prefix_fold "</body>" html then Some ("", html)
  else match html with
       | EmptyString => None
       | String c r => match find_body_close r with
                       | Some (a, b) => Some (String c a, b)
                       | None => None
                       end
       end.

Definition open_pixel (baseURL trackingID : string) : string :=
  "<img src=" +:+ dquote +:+ baseURL +:+ "/t/o/" +:+ trackingID +:+ dquote +:+
  " width=" +:+ dquote +:+ "1" +:+ dquote +:+ " height=" +:+ dquote +:+ "1" +:+ dquote +:+
  " alt=" +:+ dquote +:+ dquote +:+ " style=" +:+ dquote +:+ "display:none" +:+ dquote +:+ " />".

Definition InjectOpenPixel (html baseURL trackingID : string) : string :=
  if bool_decide (baseURL = "") || bool_decide (trackingID = "") then html
  else match find_body_close html with
       | None => html
       | Some (before, rest) => before +:+ open_pixel baseURL trackingID +:+ rest
       end.

(** * Theorems *)

Lemma token_parts_Some token a b :
  token_parts token = Some (a, b) <->
  token = a +:+ "." +:+ b /\ has_byte "."%char a = false /\ a <> "" /\ b <> "".
Proof.
  unfold token_parts. simpl. destruct (Cut "."%char token) as [[x y]|] eqn:E.
  - apply Cut_Some in E as [-> Hx]. split.
    + repeat case_bool_decide; simpl; try done. by intros [= <- <-].
    + intros (Heq & Ha & Hna & Hnb).
      assert (Hc : Cut "."%char (x +:+ String "." y) = Some (a, b)) by (rewrite Heq; by apply Cut_Some).
      assert (Hc2 : Cut "."%char (x +:+ String "." y) = Some (x, y)) by (by apply Cut_Some).
      rewrite Hc in Hc2. simplify_eq. by repeat case_bool_decide.
  - split; [done|]. intros (-> & Ha & _). apply Cut_None in E.
    by rewrite !has_byte_app, Ha in E.
Qed.

(** What [Verify] answers on a generated token. *)
Lemma Verify_Generate `{Codec} `{!CodecLaws} p key token now :
  tk_Version p = supportedVersion ->
  valid_utf8 (tk_TemplateTypeSlug p) = true -> valid_utf8 (tk_TemplateTypeName p) = true ->
  valid_utf8 (tk_Email p) = true ->
  Generate p key = Ok token ->
  Verify token key now =
    if (time_Unix (Unix (tk_ExpiresAt p)) <? now)%Z then Err (ESent ErrTokenExpired)
    else Ok {| tk_Version := supportedVersion; tk_WorkspaceID := tk_WorkspaceID p;
               tk_TemplateTypeID := tk_TemplateTypeID p; tk_TemplateTypeSlug := tk_TemplateTypeSlug p;
               tk_TemplateTypeName := tk_TemplateTypeName p; tk_Email := tk_Email p;
               tk_SourceEmailID := tk_SourceEmailID p; tk_IssuedAt := time_Unix (Unix (tk_IssuedAt p));
               tk_ExpiresAt := time_Unix (Unix (tk_ExpiresAt p)) |}.
Proof.
  intros Hv H1 H2 H3. unfold Generate, Verify. destruct (negb _); [done|].
  rewrite Hv. simpl. intros [= <-].
  rewrite (proj2 (token_parts_Some _ (b64_encode (json_marshal (wire_of p)))
                    (b64_encode (hmac_sha256 key (json_marshal (wire_of p)))))).
  - rewrite !b64_roundtrip, bool_decide_eq_true_2 by done. simpl.
    rewrite json_roundtrip by done. simpl. rewrite Hv. simpl. unfold payload_of, wire_of. simpl. by rewrite Hv.
  - split; [done|]. split; [apply b64_alphabet|].
    split; apply b64_nonempty; [apply json_nonempty|apply hmac_nonempty].
Qed.

(** a token the worker generates is accepted until it expires and gives
    back the payload it was made from, with its times cut to whole seconds;
    afterwards it is refused as expired. *)
Theorem token_roundtrip `{Codec} `{!CodecLaws} p key token now :
  tk_Version p = supportedVersion ->
  valid_utf8 (tk_TemplateTypeSlug p) = true -> valid_utf8 (tk_TemplateTypeName p) = true ->
  valid_utf8 (tk_Email p) = true ->
  Generate p key = Ok token ->
  Verify token key now =
    if (time_Unix (Unix (tk_ExpiresAt p)) <? now)%Z then Err (ESent ErrTokenExpired)
    else Ok {| tk_Version := supportedVersion; tk_WorkspaceID := tk_WorkspaceID p;
               tk_TemplateTypeID := tk_TemplateTypeID p; tk_TemplateTypeSlug := tk_TemplateTypeSlug p;
               tk_TemplateTypeName := tk_TemplateTypeName p; tk_Email := tk_Email p;
               tk_SourceEmailID := tk_SourceEmailID p; tk_IssuedAt := time_Unix (Unix (tk_IssuedAt p));
               tk_ExpiresAt := time_Unix (Unix (tk_ExpiresAt p)) |}.
Proof. apply Verify_Generate. Qed.

(** What an accepted token is made of. *)
Lemma Verify_inv `{Codec} `{!CodecLaws} token key now p :
  Verify token key now = Ok p ->
  String.length key = 32%nat /\ tk_Version p = supportedVersion /\ (now <= tk_ExpiresAt p)%Z /\
  (exists a b body sig, token = a +:+ "." +:+ b /\ b64_decode a = Ok body /\ b64_decode b = Ok sig /\
     sig = hmac_sha256 key body /\ exists w, json_unmarshal body = Ok w /\ p = payload_of w) /\
  (tk_WorkspaceID p <> uuid_Nil -> PeekWorkspaceID token = Some (tk_WorkspaceID p)).
Proof.
  unfold Verify, PeekWorkspaceID. destruct (String.length key =? 32)%nat eqn:Hk; [|done]. simpl.
  destruct (token_parts token) as [[a b]|] eqn:Ht; [|done].
  destruct (b64_decode a) as [body|] eqn:Ea; [|done].
  destruct (b64_decode b) as [sig|] eqn:Eb; [|done].
  case_bool_decide as Hs; [|done]. simpl.
  destruct (json_unmarshal body) as [w|] eqn:Ew; [|done].
  destruct (wp_Version w =? supportedVersion)%Z eqn:Hv; [|done]. simpl.
  destruct (_ <? now)%Z eqn:He; [done|]. intros [= <-].
  apply token_parts_Some in Ht as (-> & _ & _ & _).
  split; [by apply Nat.eqb_eq|]. split; [by apply Z.eqb_eq|]. split; [by apply Z.ltb_ge|].
  split; [by eauto 12|].
  intros Hn. rewrite (json_peek_agrees _ _ Ew). simpl in *. by rewrite bool_decide_eq_false_2.
Qed.

(** no token is accepted without the workspace's key: what [Verify] accepts
    is a body and a second part that decodes to the MAC of that body under the
    key, of the supported version and not expired; and the workspace the
    service peeks at to find the key is the one the payload names. *)
Theorem Verify_sound `{Codec} `{!CodecLaws} token key now p :
  Verify token key now = Ok p ->
  String.length key = 32%nat /\ tk_Version p = supportedVersion /\ (now <= tk_ExpiresAt p)%Z /\
  (exists a b body sig, token = a +:+ "." +:+ b /\ b64_decode a = Ok body /\ b64_decode b = Ok sig /\
     sig = hmac_sha256 key body /\ exists w, json_unmarshal body = Ok w /\ p = payload_of w) /\
  (tk_WorkspaceID p <> uuid_Nil -> PeekWorkspaceID token = Some (tk_WorkspaceID p)).
Proof. apply Verify_inv. Qed.

Lemma find_body_close_Some html a b :
  find_body_close html = Some (a, b) ->
  html = a +:+ b /\ has_prefix_fold "</body>" b = true.
Proof.
  revert a. induction html as [|c r IH]; intros a; cbn [find_body_close].
  - simpl. discriminate.
  - destruct (has_prefix_fold "</body>" (String c r)) eqn:E.
    + intros [= <- <-]. split; [done|exact E].
    + destruct (find_body_close r) as [[x y]|] eqn:Er; [|done]. intros [= <- <-].
      destruct (IH x eq_refl) as [-> Hp]. done.
Qed.

(** The tracking pixel is inserted once, right before a closing body tag,
    and nothing of the document is lost; a document without such a tag, or a
    mail without tracking, is left unchanged. *)
Theorem InjectOpenPixel_spec html baseURL trackingID :
  (InjectOpenPixel html baseURL trackingID = html /\
     (baseURL = "" \/ trackingID = "" \/ find_body_close html = None)) \/
  (exists before rest, html = before +:+ rest /\ has_prefix_fold "</body>" rest = true /\
     InjectOpenPixel html baseURL trackingID = before +:+ open_pixel baseURL trackingID +:+ rest).
Proof.
  unfold InjectOpenPixel. repeat case_bool_decide; simpl; [left; tauto..|].
  destruct (find_body_close html) as [[a b]|] eqn:E; [right|left; tauto].
  apply find_body_close_Some in E as [-> Hp]. by exists a, b.
Qed.

(** ** A concrete codec, for the witnesses *)

Definition nibble (n : nat) : ascii := ascii_of_nat (97 + n).
Definition unnibble (c : ascii) : nat := nat_of_ascii c - 97.

Fixpoint nibble_encode (s : string) : string :=
  match s with
  | EmptyString => EmptyString
  | String c r => String (nibble (nat_of_ascii c / 16)) (String (nibble (nat_of_ascii c mod 16)) (nibble_encode r))
  end.

Fixpoint nibble_decode (s : string) : Res string :=
  match s with
  | EmptyString => Ok EmptyString
  | String a (String b r) =>
      match nibble_decode r with
      | Ok t => Ok (String (ascii_of_nat (16 * unnibble a + unnibble b)) t)
      | Err e => Err e
      end
  | String _ EmptyString => Err (EMsg "illegal base64 data")
  end.

Lemma nibbles_roundtrip c :
  ascii_of_nat (16 * unnibble (nibble (nat_of_ascii c / 16)) + unnibble (nibble (nat_of_ascii c mod 16))) = c
  /\ nibble (nat_of_ascii c / 16) <> "."%char /\ nibble (nat_of_ascii c mod 16) <> "."%char.
Proof. destruct c as [[] [] [] [] [] [] [] []]; vm_compute; repeat split; discriminate. Qed.

Lemma nibble_decode_encode s : nibble_decode (nibble_encode s) = Ok s.
Proof.
  induction s as [|c s IH]; [done|]. cbn [nibble_encode nibble_decode]. rewrite IH.
  by rewrite (proj1 (nibbles_roundtrip c)).
Qed.

Lemma nibble_encode_alphabet s : has_byte "."%char (nibble_encode s) = false.
Proof.
  induction s as [|c s IH]; [done|]. cbn [nibble_encode has_byte]. rewrite IH.
  destruct (nibbles_roundtrip c) as (_ & H1 & H2).
  by rewrite (proj2 (Ascii.eqb_neq _ _) H1), (proj2 (Ascii.eqb_neq _ _) H2).
Qed.

#[export] Instance wirePayload_eq_dec : EqDecision wirePayload.
Proof. solve_decision. Defined.

Definition wire_tuple (w : wirePayload) :=
  (wp_Version w, wp_WorkspaceID w, wp_TemplateTypeID w, wp_TemplateTypeSlug w, wp_TemplateTypeName w,
   wp_Email w, wp_SourceEmailID w, wp_IssuedAt w, wp_ExpiresAt w).

#[export] Program Instance wirePayload_countable : Countable wirePayload :=
  inj_countable' wire_tuple (fun '(a, b, c, d, e, f, g, h, i) => mkWirePayload a b c d e f g h i) _.
Next Obligation. by intros []. Qed.

Definition sample_unmarshal (s : string) : Res wirePayload :=
  match of_bits s with
  | Some p => match decode p with Some w => Ok w | None => Err (EMsg "unexpected end of JSON input") end
  | None => Err (EMsg "unexpected end of JSON input")
  end.

Definition sample_codec : Codec := {|
  hmac_sha256 := fun k m => "m" +:+ k +:+ m;
  b64_encode := nibble_encode;
  b64_decode := nibble_decode;
  json_marshal := fun w => bits_of (encode w);
  json_unmarshal := sample_unmarshal;
  json_peek_ws := fun s => match sample_unmarshal s with Ok w => Ok (wp_WorkspaceID w) | Err e => Err e end;
  valid_utf8 := fun _ => true;
|}.

Lemma sample_codec_laws : CodecLaws (H := sample_codec).
Proof.
  split; simpl.
  - apply nibble_decode_encode.
  - apply nibble_encode_alphabet.
  - by intros [|c s].
  - done.
  - intros w. by destruct (encode w).
  - intros w _ _ _. unfold sample_unmarshal. by rewrite of_bits_of, decode_encode.
  - intros b w E. by rewrite E.
Qed.

Definition sample_key : string := "0123456789abcdef0123456789abcdef".
Definition sample_payload : Payload :=
  {| tk_Version := 1; tk_WorkspaceID := 7; tk_TemplateTypeID := 21; tk_TemplateTypeSlug := "news";
     tk_TemplateTypeName := "News"; tk_Email := "a@x.io"; tk_SourceEmailID := 42;
     tk_IssuedAt := 0; tk_ExpiresAt := 5 * Second |}.

Lemma token_roundtrip_witness :
  let C := sample_codec in
  exists token, Generate sample_payload sample_key = Ok token /\
    Verify token sample_key (3 * Second)%Z = Ok sample_payload.
Proof.
  intros C. eexists. split; [vm_compute; reflexivity|].
  rewrite (token_roundtrip (H0 := sample_codec_laws) sample_payload sample_key _ (3 * Second)%Z);
    vm_compute; reflexivity.
Defined.

Lemma Verify_sound_witness :
  let C := sample_codec in
  exists token, PeekWorkspaceID token = Some 7%N.
Proof.
  intros C. eexists.
  eapply (Verify_sound (H0 := sample_codec_laws) _ sample_key (3 * Second)%Z sample_payload);
    [|vm_compute; discriminate].
  instantiate (1 := match Generate sample_payload sample_key with Ok t => t | Err _ => "" end).
  vm_compute. reflexivity.
Defined.
