(* ===== verification/Suppression.v ===== *)
(** * Recipient policy and suppression ([service/send_suppression.go], [service/send.go])

    The test-environment recipient policy and the three-layer suppression
    evaluator (global and workspace rows, then per-template-type opt-outs),
    with the safety, equivalence and ordering theorems about them. *)
From stdpp Require Import base gmap strings list.
From Stdlib Require Import ZArith String Lia.
From S2P Require Import Prelude GoMonad Domain.

(** ** The test recipient policy ([applyTestRecipientPolicy]) *)

Section Policy.
Context `{GoStd}.

(** The three result lists, or the error; [None] for [ws] or [templateType]
    is Go's nil pointer. *)
Definition applyTestRecipientPolicy (ws : option Workspace) (templateType : option TemplateType)
    (to cc bcc : list string) : Res (list string * list string * list string) :=
  match ws with
  | None => Ok (to, cc, bcc)
  | Some ws =>
      if negb (bool_decide (ws_Environment ws = EnvironmentTest)) then Ok (to, cc, bcc)
      else
        let mode := if TestRecipientMode_Valid (ws_TestRecipientMode ws)
                    then ws_TestRecipientMode ws else TestRecipientModeReplace in
        let recipients := NormalizeRecipientAddresses (ws_TestRecipientAddresses ws) in
        let '(mode, recipients) :=
          match templateType with
          | Some tty =>
              match tt_TestRecipientMode tty with
              | Some m => if TestRecipientMode_Valid m
                          then (m, NormalizeRecipientAddresses (tt_TestRecipientAddresses tty))
                          else (mode, recipients)
              | None => (mode, recipients)
              end
          | None => (mode, recipients)
          end in
        match recipients with
        | [] => Err (ESent ErrTestRecipientPolicyUnconfigured)
        | _ =>
            match mode with
            | TestRecipientModeAppend => Ok (NormalizeRecipientAddresses to ++ recipients, cc, bcc)
            | _ => Ok (recipients, [], [])
            end
        end
  end.
End Policy.

(** ** The evaluator *)

Record SuppressionRecipientDecision := mkDecision {
  dec_Address : string;
  dec_Suppressed : bool;
  dec_Reason : string;
}.

Record SuppressionBatchEvaluation := mkEvaluation {
  sev_To : list SuppressionRecipientDecision;
  sev_CC : list string;
  sev_BCC : list string;
}.

Record SuppressionBatchInput := mkInput {
  sin_To : list string;
  sin_CC : list string;
  sin_BCC : list string;
}.

(** The two stores the evaluator queries. *)
Record suppressionBatchStore (W : Type) := mkSuppressionBatchStore {
  CheckBatch : uuid -> list string -> M W (gmap string string);
}.
Arguments CheckBatch {W}.

Record templateTypeOptOutStore (W : Type) := mkOptOutStore {
  BatchCheckOptOut : uuid -> uuid -> list string -> M W (gset string);
}.
Arguments BatchCheckOptOut {W}.

Section Evaluator.
Context `{GoStd} {W : Type}.
Context (store : suppressionBatchStore W).
(** [None]: no template-type store was attached. *)
Context (tts : option (templateTypeOptOutStore W)).

(** The body shared by the canonicalising loops: the canonical address,
    unless it is empty. *)
Definition canonical_entry (addr : string) : option (string * string) :=
  let c := CanonicalRecipientAddress addr in
  if bool_decide (c = "") then None else Some (c, c).

Definition appendUniqueCanonicalRecipients (dst : list string) (seen : gset string)
    (groups : list (list string)) : gset string * list string :=
  foldl (fun '(seen, dst) group =>
           let '(seen', new) := uniq canonical_entry seen group in (seen', dst ++ new))
        (seen, dst) groups.

Definition projectSuppressionBatch (input : SuppressionBatchInput)
    (suppressedByEmail : gmap string string) : SuppressionBatchEvaluation :=
  let kept addr :=
    negb (bool_decide (is_Some (suppressedByEmail !! CanonicalRecipientAddress addr))) in
  {| sev_To := (fun recipient =>
                  match suppressedByEmail !! CanonicalRecipientAddress recipient with
                  | Some reason => mkDecision recipient true reason
                  | None => mkDecision recipient false ""
                  end) <$> sin_To input;
     sev_CC := List.filter kept (sin_CC input);
     sev_BCC := List.filter kept (sin_BCC input) |}.

(** The addresses [EvaluateMany] looks up. *)
Definition evaluate_lookup (inputs : list SuppressionBatchInput) : gset string * list string :=
  foldl (fun '(seen, lookup) input =>
           appendUniqueCanonicalRecipients lookup seen [sin_To input; sin_CC input; sin_BCC input])
        (∅, []) inputs.

Definition EvaluateMany (wsID : uuid) (inputs : list SuppressionBatchInput)
  : M W (list SuppressionBatchEvaluation) :=
  let lookup := (evaluate_lookup inputs).2 in
  let! suppressedByEmail :=
    wrap_err (fun e => EWrap "evaluate suppression batch: " e "") (CheckBatch store wsID lookup) in
  ret ((fun input => projectSuppressionBatch input suppressedByEmail) <$> inputs).

(** [results[0]]: [EvaluateMany] returns one result per input. *)
Definition Evaluate (wsID : uuid) (to cc bcc : list string) : M W SuppressionBatchEvaluation :=
  let! results := EvaluateMany wsID [mkInput to cc bcc] in
  match results with
  | r :: _ => ret r
  | [] => fail (EMsg "index out of range [0] with length 0")
  end.

Definition filterTypeOptOuts (addrs : list string) (optOuts : gset string) : list string :=
  List.filter (fun a => negb (bool_decide (CanonicalRecipientAddress a ∈ optOuts))) addrs.

(** The update of [To[i]] shared by the two opt-out passes. *)
Definition apply_optout (optOuts : gset string) (d : SuppressionRecipientDecision)
  : SuppressionRecipientDecision :=
  if dec_Suppressed d then d
  else if decide (CanonicalRecipientAddress (dec_Address d) ∈ optOuts)
       then mkDecision (dec_Address d) true "type_optout" else d.

Definition unsuppressed_entry (d : SuppressionRecipientDecision) : option (string * string) :=
  if dec_Suppressed d then None else canonical_entry (dec_Address d).

Definition EvaluateForType (workspaceID templateTypeID : uuid) (to cc bcc : list string)
  : M W SuppressionBatchEvaluation :=
  let! base := Evaluate workspaceID to cc bcc in
  match tts with
  | None => ret base
  | Some tts =>
      let '(seen, canonical) := uniq unsuppressed_entry ∅ (sev_To base) in
      let '(seen, cs) := uniq canonical_entry seen (sev_CC base) in
      let '(_, bs) := uniq canonical_entry seen (sev_BCC base) in
      let! optOuts :=
        wrap_err (fun e => EWrap "evaluate type opt-outs: " e "")
                 (BatchCheckOptOut tts workspaceID templateTypeID (canonical ++ cs ++ bs)) in
      if decide (optOuts = ∅) then ret base
      else ret {| sev_To := apply_optout optOuts <$> sev_To base;
                  sev_CC := filterTypeOptOuts (sev_CC base) optOuts;
                  sev_BCC := filterTypeOptOuts (sev_BCC base) optOuts |}
  end.

(** One iteration of [collectUnsuppressedCanonical]; the body of its inner
    loops, [addUniqueCanonical], is [canonical_entry] under [uniq]. *)
Definition collect_body (st : gset string * list string) (ev : SuppressionBatchEvaluation)
  : gset string * list string :=
  let '(seen, dst) := st in
  let '(seen, ts) := uniq unsuppressed_entry seen (sev_To ev) in
  let '(seen, cs) := uniq canonical_entry seen (sev_CC ev) in
  let '(seen, bs) := uniq canonical_entry seen (sev_BCC ev) in
  (seen, dst ++ ts ++ cs ++ bs).

Definition collectUnsuppressedCanonical (evals : list SuppressionBatchEvaluation) : list string :=
  (foldl collect_body (∅, []) evals).2.

Definition applyTypeOptOutsToEvaluations (evals : list SuppressionBatchEvaluation)
    (optOuts : gset string) : list SuppressionBatchEvaluation :=
  (fun ev => {| sev_To := apply_optout optOuts <$> sev_To ev;
                sev_CC := filterTypeOptOuts (sev_CC ev) optOuts;
                sev_BCC := filterTypeOptOuts (sev_BCC ev) optOuts |}) <$> evals.

Definition EvaluateManyForType (workspaceID templateTypeID : uuid)
    (inputs : list SuppressionBatchInput) : M W (list SuppressionBatchEvaluation) :=
  let! base := EvaluateMany workspaceID inputs in
  match tts with
  | None => ret base
  | Some tts =>
      let canonical := collectUnsuppressedCanonical base in
      let! optOuts :=
        wrap_err (fun e => EWrap "evaluate type opt-outs (batch): " e "")
                 (BatchCheckOptOut tts workspaceID templateTypeID canonical) in
      if decide (optOuts = ∅) then ret base
      else ret (applyTypeOptOutsToEvaluations base optOuts)
  end.
End Evaluator.

(** * Theorems *)

Section Lookup.
Context `{GoStd}.

Lemma canonical_entry_id x k b : canonical_entry x = Some (k, b) -> b = k.
Proof. unfold canonical_entry. case_bool_decide; naive_solver. Qed.

Lemma canonical_entry_Some x k b :
  canonical_entry x = Some (k, b) <-> CanonicalRecipientAddress x = k /\ k <> "" /\ b = k.
Proof. unfold canonical_entry. case_bool_decide; naive_solver. Qed.

Lemma unsuppressed_entry_id x k b : unsuppressed_entry x = Some (k, b) -> b = k.
Proof. unfold unsuppressed_entry. case_match; [done|]. apply canonical_entry_id. Qed.

(** The loop state of [appendUniqueCanonicalRecipients]: what was looked up
    is exactly what was seen, and both grow by the canonical addresses. *)
Definition lookup_inv (st : gset string * list string) (P : string -> Prop) : Prop :=
  (forall c, c ∈ st.1 <-> c ∈ st.2) /\ (forall c, c ∈ st.2 <-> P c).

Lemma lookup_inv_group seen dst group P :
  lookup_inv (seen, dst) P ->
  lookup_inv ((uniq canonical_entry seen group).1, dst ++ (uniq canonical_entry seen group).2)
    (fun c => P c \/ (c <> "" /\ exists a, a ∈ group /\ CanonicalRecipientAddress a = c)).
Proof.
  intros [H1 H2]. simpl in *.
  assert (Hs : forall c, c ∈ (uniq canonical_entry seen group).1 <->
               c ∈ dst ++ (uniq canonical_entry seen group).2).
  { intros c. rewrite (uniq_new_seen canonical_entry) by apply canonical_entry_id.
    rewrite H1. set_solver. }
  split; [exact Hs|]. intros c. simpl. rewrite <- Hs, uniq_seen, H1, H2.
  setoid_rewrite canonical_entry_Some. naive_solver.
Qed.

Lemma lookup_inv_iff st P Q : (forall c, P c <-> Q c) -> lookup_inv st P -> lookup_inv st Q.
Proof. intros HPQ [H1 H2]. split; [done|]. intros c. by rewrite H2. Qed.

Lemma appendUnique_inv dst seen groups P :
  lookup_inv (seen, dst) P ->
  lookup_inv (appendUniqueCanonicalRecipients dst seen groups)
    (fun c => P c \/ (c <> "" /\ exists g a, g ∈ groups /\ a ∈ g /\ CanonicalRecipientAddress a = c)).
Proof.
  unfold appendUniqueCanonicalRecipients. revert dst seen P.
  induction groups as [|g groups IH]; intros dst seen P Hi; simpl.
  - eapply lookup_inv_iff; [|done]. set_solver.
  - pose proof (lookup_inv_group seen dst g P Hi) as Hg.
    destruct (uniq canonical_entry seen g) as [seen' new]; simpl in *.
    eapply lookup_inv_iff; [|apply IH; exact Hg].
    intros c. set_solver.
Qed.

(** The addresses of one input. *)
Definition addressed (input : SuppressionBatchInput) (a : string) : Prop :=
  a ∈ sin_To input \/ a ∈ sin_CC input \/ a ∈ sin_BCC input.

Lemma three_groups (x y z : list string) (Q : string -> Prop) :
  (exists g a, g ∈ [x; y; z] /\ a ∈ g /\ Q a) <-> (exists a, (a ∈ x \/ a ∈ y \/ a ∈ z) /\ Q a).
Proof.
  split.
  - intros (g & a & Hg & Ha & HQ). exists a. split; [|done].
    repeat (apply elem_of_cons in Hg as [->|Hg]; [tauto|]). by apply elem_of_nil in Hg.
  - intros (a & [Ha|[Ha|Ha]] & HQ);
      [exists x, a | exists y, a | exists z, a]; (split; [|done]); set_solver.
Qed.

Lemma evaluate_lookup_spec inputs c :
  c ∈ (evaluate_lookup inputs).2 <->
  c <> "" /\ exists input a, input ∈ inputs /\ addressed input a /\ CanonicalRecipientAddress a = c.
Proof.
  assert (Hgen : forall st P, lookup_inv st P ->
    lookup_inv (foldl (fun '(seen, lookup) input =>
           appendUniqueCanonicalRecipients lookup seen [sin_To input; sin_CC input; sin_BCC input])
        st inputs)
      (fun c => P c \/ (c <> "" /\ exists input a, input ∈ inputs /\ addressed input a
                                          /\ CanonicalRecipientAddress a = c))).
  { induction inputs as [|i inputs IH]; intros [seen dst] P Hi; simpl.
    - eapply lookup_inv_iff; [|done]. set_solver.
    - eapply lookup_inv_iff; [|apply IH; apply appendUnique_inv; exact Hi].
      intros c'. cbv beta. rewrite three_groups. unfold addressed.
      setoid_rewrite elem_of_cons. split.
      + intros [[HP|(Hne & a & Ha & Hc)]|(Hne & i' & a & Hi' & Ha & Hc)]; [by left|right..].
        * split; [done|]. exists i, a. tauto.
        * split; [done|]. exists i', a. tauto.
      + intros [HP|(Hne & i' & a & [->|Hi'] & Ha & Hc)]; [by left; left|left; right|right].
        * split; [done|]. by exists a.
        * split; [done|]. by exists i', a. }
  unfold evaluate_lookup. destruct (Hgen (∅, []) (fun _ => False)) as [_ Hs].
  { split; set_solver. }
  rewrite Hs. naive_solver.
Qed.
End Lookup.

(** What the evaluator relies on: in the world [w], [CheckBatch] answers from
    the suppression table of the workspace (global and workspace rows merged)
    and [BatchCheckOptOut] from the opt-out rows of the template type, and the
    first query does not change what the second reads. *)
Class SuppressionTable {W} (store : suppressionBatchStore W) (wsID : uuid)
    (table : W -> gmap string string) : Prop := {
  CheckBatch_table emails w m w' :
    CheckBatch store wsID emails w = (Ok m, w') ->
    forall a, m !! a = if decide (a ∈ emails) then table w !! a else None;
}.

Class OptOutTable {W} (store : suppressionBatchStore W) (tts : templateTypeOptOutStore W)
    (wsID ttID : uuid) (optouts : W -> gset string) : Prop := {
  BatchCheckOptOut_table emails w m w' :
    BatchCheckOptOut tts wsID ttID emails w = (Ok m, w') ->
    forall a, a ∈ m <-> a ∈ emails /\ a ∈ optouts w;
  CheckBatch_optouts emails : preserves optouts (CheckBatch store wsID emails);
}.

Section Correct.
Context `{GoStd} {W : Type}.
Context (store : suppressionBatchStore W) (wsID : uuid) (tableW : W -> gmap string string).
Context `{!SuppressionTable store wsID tableW}.

Lemma lookup_agrees inputs w m w' input a :
  tableW w !! "" = None ->
  CheckBatch store wsID (evaluate_lookup inputs).2 w = (Ok m, w') ->
  input ∈ inputs -> addressed input a ->
  m !! CanonicalRecipientAddress a = tableW w !! CanonicalRecipientAddress a.
Proof.
  intros Hn Hm Hi Ha. rewrite (CheckBatch_table _ _ _ _ Hm).
  case_decide as Hd; [done|].
  rewrite evaluate_lookup_spec in Hd.
  destruct (decide (CanonicalRecipientAddress a = "")) as [E|E].
  - by rewrite E.
  - exfalso. apply Hd. split; [done|]. by exists input, a.
Qed.

Lemma project_ext input m1 m2 :
  (forall a, addressed input a ->
     m1 !! CanonicalRecipientAddress a = m2 !! CanonicalRecipientAddress a) ->
  projectSuppressionBatch input m1 = projectSuppressionBatch input m2.
Proof.
  intros Hm. unfold projectSuppressionBatch, addressed in *.
  assert (Hf : forall l, (forall a, a ∈ l -> m1 !! CanonicalRecipientAddress a = m2 !! CanonicalRecipientAddress a) ->
    List.filter (fun addr => negb (bool_decide (is_Some (m1 !! CanonicalRecipientAddress addr)))) l =
    List.filter (fun addr => negb (bool_decide (is_Some (m2 !! CanonicalRecipientAddress addr)))) l).
  { intros l Hl. apply List.filter_ext_in. intros a Ha%list_elem_of_In. by rewrite Hl. }
  f_equal; [|apply Hf; naive_solver..].
  apply list_fmap_ext. intros i x Hx%list_elem_of_lookup_2. rewrite Hm by tauto. done.
Qed.

Lemma EvaluateMany_table inputs w rs w' :
  tableW w !! "" = None ->
  EvaluateMany store wsID inputs w = (Ok rs, w') ->
  rs = (fun i => projectSuppressionBatch i (tableW w)) <$> inputs.
Proof.
  intros Hn. unfold EvaluateMany, bind, wrap_err.
  destruct (CheckBatch store wsID _ w) as [[m|e] w1] eqn:E; [|done].
  intros [= <- <-]. apply list_fmap_ext. intros k input Hk%list_elem_of_lookup_2.
  apply project_ext. intros a Ha. by eapply lookup_agrees.
Qed.

Context (table : gmap string string) (optouts : gset string).

(** An address is blocked when a suppression row or an opt-out names its
    canonical form. *)
Definition blocked (a : string) : Prop :=
  is_Some (table !! CanonicalRecipientAddress a) \/ CanonicalRecipientAddress a ∈ optouts.

(** The specification of one evaluated input. *)
Definition evaluation_ok (input : SuppressionBatchInput) (r : SuppressionBatchEvaluation) : Prop :=
  dec_Address <$> sev_To r = sin_To input /\
  (forall d, d ∈ sev_To r -> CanonicalRecipientAddress (dec_Address d) <> "" ->
     dec_Suppressed d = true <-> blocked (dec_Address d)) /\
  (forall a, CanonicalRecipientAddress a <> "" ->
     (a ∈ sev_CC r <-> a ∈ sin_CC input /\ ~ blocked a) /\
     (a ∈ sev_BCC r <-> a ∈ sin_BCC input /\ ~ blocked a)).

Lemma elem_of_filter_b (p : string -> bool) l a : a ∈ List.filter p l <-> a ∈ l /\ p a = true.
Proof. rewrite !list_elem_of_In. apply filter_In. Qed.

(** The second pass, on a base evaluation and any opt-out answer that covers
    the addresses still to be sent. *)
Lemma optout_pass_ok input m :
  let base := projectSuppressionBatch input table in
  (forall a, CanonicalRecipientAddress a <> "" ->
     (a ∈ sin_To input /\ table !! CanonicalRecipientAddress a = None) \/ a ∈ sev_CC base \/ a ∈ sev_BCC base ->
     CanonicalRecipientAddress a ∈ m <-> CanonicalRecipientAddress a ∈ optouts) ->
  evaluation_ok input
    {| sev_To := apply_optout m <$> sev_To base;
       sev_CC := filterTypeOptOuts (sev_CC base) m;
       sev_BCC := filterTypeOptOuts (sev_BCC base) m |}.
Proof.
  intros base Hm. subst base. unfold projectSuppressionBatch in *. simpl in *.
  split; [|split]; simpl.
  - rewrite <- !list_fmap_compose. rewrite <- (list_fmap_id (sin_To input)) at 2.
    apply list_fmap_ext. intros i x Hx. unfold compose, apply_optout. simpl.
    destruct (table !! _); simpl; [done|]. by case_decide.
  - intros d Hd Hne. apply list_elem_of_fmap in Hd as (d0 & -> & Hd0).
    apply list_elem_of_fmap in Hd0 as (a & -> & Ha). unfold blocked.
    destruct (table !! CanonicalRecipientAddress a) as [rs|] eqn:E; simpl in *.
    { rewrite E. naive_solver. }
    unfold apply_optout in *. simpl in *. specialize (Hm a).
    case_decide as Hd; simpl in *; rewrite E; naive_solver.
  - intros a Hne. specialize (Hm a Hne). unfold filterTypeOptOuts, blocked.
    rewrite !elem_of_filter_b in Hm. rewrite !elem_of_filter_b.
    rewrite !negb_true_iff, !bool_decide_eq_false in Hm.
    rewrite !negb_true_iff, !bool_decide_eq_false.
    assert (Hc : a ∈ sin_CC input -> ~ is_Some (table !! CanonicalRecipientAddress a) ->
      CanonicalRecipientAddress a ∈ m <-> CanonicalRecipientAddress a ∈ optouts)
      by (intros; apply Hm; right; left; done).
    assert (Hb : a ∈ sin_BCC input -> ~ is_Some (table !! CanonicalRecipientAddress a) ->
      CanonicalRecipientAddress a ∈ m <-> CanonicalRecipientAddress a ∈ optouts)
      by (intros; apply Hm; right; right; done).
    clear Hm. split; split.
    + intros [[H1 H2] H3]. specialize (Hc H1 H2). tauto.
    + intros [H1 H2]. specialize (Hc H1). tauto.
    + intros [[H1 H2] H3]. specialize (Hb H1 H2). tauto.
    + intros [H1 H2]. specialize (Hb H1). tauto.
Qed.
End Correct.

Section OptOutPass.
Context `{GoStd}.

Lemma filterTypeOptOuts_empty l : filterTypeOptOuts l ∅ = l.
Proof.
  unfold filterTypeOptOuts. induction l as [|a l IH]; [done|]. simpl.
  rewrite bool_decide_eq_false_2 by set_solver. simpl. by rewrite IH.
Qed.

Lemma optout_pass_empty ev :
  {| sev_To := apply_optout ∅ <$> sev_To ev;
     sev_CC := filterTypeOptOuts (sev_CC ev) ∅;
     sev_BCC := filterTypeOptOuts (sev_BCC ev) ∅ |} = ev.
Proof.
  destruct ev as [to cc bcc]; simpl. f_equal.
  - rewrite <- (list_fmap_id to) at 2. apply list_fmap_ext. intros i [a s r] _.
    unfold apply_optout. simpl. destruct s; [done|]. by rewrite decide_False by set_solver.
  - apply filterTypeOptOuts_empty.
  - apply filterTypeOptOuts_empty.
Qed.

(** The addresses of an evaluation that are still to be sent to. *)
Definition pending (ev : SuppressionBatchEvaluation) (a : string) : Prop :=
  (exists d, d ∈ sev_To ev /\ dec_Suppressed d = false /\ dec_Address d = a) \/
  a ∈ sev_CC ev \/ a ∈ sev_BCC ev.

Lemma unsuppressed_entry_Some d k b :
  unsuppressed_entry d = Some (k, b) <->
  dec_Suppressed d = false /\ CanonicalRecipientAddress (dec_Address d) = k /\ k <> "" /\ b = k.
Proof.
  unfold unsuppressed_entry. destruct (dec_Suppressed d); [naive_solver|].
  rewrite canonical_entry_Some. tauto.
Qed.

Lemma collect_step seen dst ev P :
  lookup_inv (seen, dst) P ->
  lookup_inv (collect_body (seen, dst) ev)
    (fun c => P c \/ (c <> "" /\ exists a, pending ev a /\ CanonicalRecipientAddress a = c)).
Proof.
  intros [H1 H2]. simpl in *. unfold collect_body.
  pose proof (uniq_new_seen unsuppressed_entry seen (sev_To ev)) as N1.
  pose proof (uniq_seen unsuppressed_entry seen (sev_To ev)) as S1.
  destruct (uniq unsuppressed_entry seen (sev_To ev)) as [s1 ts]; simpl in *.
  pose proof (uniq_new_seen canonical_entry s1 (sev_CC ev)) as N2.
  pose proof (uniq_seen canonical_entry s1 (sev_CC ev)) as S2.
  destruct (uniq canonical_entry s1 (sev_CC ev)) as [s2 cs]; simpl in *.
  pose proof (uniq_new_seen canonical_entry s2 (sev_BCC ev)) as N3.
  pose proof (uniq_seen canonical_entry s2 (sev_BCC ev)) as S3.
  destruct (uniq canonical_entry s2 (sev_BCC ev)) as [s3 bs]; simpl in *.
  assert (Hs : forall c, c ∈ s3 <-> c ∈ dst ++ ts ++ cs ++ bs).
  { intros c. rewrite N3, N2, N1, H1, !elem_of_app
      by eauto using canonical_entry_id, unsuppressed_entry_id. tauto. }
  split; simpl; [exact Hs|]. intros c. rewrite <- Hs, S3, S2, S1, H1, H2.
  setoid_rewrite canonical_entry_Some. setoid_rewrite unsuppressed_entry_Some.
  unfold pending. split.
  - intros [[[HP|(d & b & ? & ? & ? & ? & ?)]|(a & b & ? & ? & ? & ?)]|(a & b & ? & ? & ? & ?)];
      [by left|right..]; (split; [done|]); eauto 8.
  - intros [HP|(Hne & a & [(d & ? & ? & ?)|[?|?]] & Hc)]; [tauto|left; left; right|left; right|right];
      [exists d, c|exists a, c|exists a, c]; subst; tauto.
Qed.

Lemma collect_spec evals c :
  c ∈ collectUnsuppressedCanonical evals <->
  c <> "" /\ exists ev a, ev ∈ evals /\ pending ev a /\ CanonicalRecipientAddress a = c.
Proof.
  unfold collectUnsuppressedCanonical.
  assert (Hgen : forall st P, lookup_inv st P -> lookup_inv (foldl collect_body st evals)
    (fun c => P c \/ (c <> "" /\ exists ev a, ev ∈ evals /\ pending ev a /\ CanonicalRecipientAddress a = c))).
  { induction evals as [|ev evals IH]; intros [seen dst] P Hi; simpl.
    - eapply lookup_inv_iff; [|done]. set_solver.
    - eapply lookup_inv_iff; [|apply IH; apply collect_step; exact Hi].
      intros c'. cbv beta. setoid_rewrite elem_of_cons. split.
      + intros [[HP|(Hne & a & Ha & Hc)]|(Hne & e & a & He & Ha & Hc)]; [by left|right..];
          (split; [done|]); eauto 8.
      + intros [HP|(Hne & e & a & [->|He] & Ha & Hc)]; [by left; left|left; right|right];
          (split; [done|]); eauto 8. }
  destruct (Hgen (∅, []) (fun _ => False)) as [_ Hs]; [split; set_solver|].
  rewrite Hs. tauto.
Qed.
End OptOutPass.

Section Correct2.
Context `{GoStd} {W : Type}.
Context (store : suppressionBatchStore W) (tts : templateTypeOptOutStore W).

Lemma EvaluateManyForType_inv wsID ttID inputs w rs w' :
  EvaluateManyForType store (Some tts) wsID ttID inputs w = (Ok rs, w') ->
  exists base w1 m, EvaluateMany store wsID inputs w = (Ok base, w1) /\
    w1 = (CheckBatch store wsID (evaluate_lookup inputs).2 w).2 /\
    BatchCheckOptOut tts wsID ttID (collectUnsuppressedCanonical base) w1 = (Ok m, w') /\
    rs = applyTypeOptOutsToEvaluations base m.
Proof.
  unfold EvaluateManyForType, bind, wrap_err.
  destruct (EvaluateMany store wsID inputs w) as [[base|e] w1] eqn:E; [|done].
  assert (Ew : w1 = (CheckBatch store wsID (evaluate_lookup inputs).2 w).2).
  { revert E. unfold EvaluateMany, bind, wrap_err, ret.
    destruct (CheckBatch store wsID _ w) as [[]]; by intros [= _ <-]. }
  destruct (BatchCheckOptOut tts wsID ttID _ w1) as [[m|e] w2] eqn:E2; [|done].
  case_decide as Hm; intros [= <- <-]; exists base, w1, m; do 3 (split; [done|]); [|done].
  subst m. unfold applyTypeOptOutsToEvaluations.
  symmetry. rewrite <- (list_fmap_id base) at 2. apply list_fmap_ext.
  intros i ev _. apply optout_pass_empty.
Qed.


End Correct2.

Section PolicyFacts.
Context `{GoStd}.

Lemma Normalize_origin l a :
  a ∈ NormalizeRecipientAddresses l -> exists v, v ∈ l /\ a = TrimSpace v /\ a <> "".
Proof.
  intros (v & k & Hv & Hf & _)%uniq_origin.
  simpl in Hf. case_bool_decide as Hb; [done|]. simplify_eq. by exists v.
Qed.

Lemma Normalize_complete l v :
  v ∈ l -> TrimSpace v <> "" ->
  exists a, a ∈ NormalizeRecipientAddresses l /\
    CanonicalRecipientAddress a = CanonicalRecipientAddress (TrimSpace v).
Proof.
  intros Hv Hne. unfold NormalizeRecipientAddresses.
  destruct (uniq_complete (fun value =>
         let trimmed := TrimSpace value in
         if bool_decide (trimmed = "") then None
         else Some (CanonicalRecipientAddress trimmed, trimmed)) ∅ l v
      (CanonicalRecipientAddress (TrimSpace v)) (TrimSpace v)) as (b & y & Hb & Hy & Hf).
  - done.
  - simpl. by rewrite bool_decide_eq_false_2.
  - set_solver.
  - exists b. split; [done|]. simpl in Hf. case_bool_decide; [done|]. by simplify_eq.
Qed.

Lemma Normalize_NoDup l : NoDup (CanonicalRecipientAddress <$> NormalizeRecipientAddresses l).
Proof.
  apply uniq_NoDup. intros x k b. simpl. case_bool_decide; [done|]. intros. by simplify_eq.
Qed.
End PolicyFacts.

#[export] Hint Resolve Normalize_NoDup : senda.

(** outside production nobody real is mailed by accident: in the test
    environment, when neither the workspace nor the template type selects the
    append mode, a send that the policy accepts goes to at least one address,
    only to (trimmed) addresses of the test configuration, each once, with no
    CC and no BCC, and the outcome does not depend on the recipients of the
    request. *)
Theorem applyTestRecipientPolicy_safe `{GoStd} ws ttype to cc bcc to' cc' bcc' :
  ws_Environment ws = EnvironmentTest ->
  ws_TestRecipientMode ws <> TestRecipientModeAppend ->
  (forall t, ttype = Some t -> tt_TestRecipientMode t <> Some TestRecipientModeAppend) ->
  applyTestRecipientPolicy (Some ws) ttype to cc bcc = Ok (to', cc', bcc') ->
  to' <> [] /\ cc' = [] /\ bcc' = [] /\
  NoDup (CanonicalRecipientAddress <$> to') /\
  (forall a, a ∈ to' -> exists v, a = TrimSpace v /\
     (v ∈ ws_TestRecipientAddresses ws \/
      exists t, ttype = Some t /\ v ∈ tt_TestRecipientAddresses t)) /\
  (forall to2 cc2 bcc2, applyTestRecipientPolicy (Some ws) ttype to2 cc2 bcc2 = Ok (to', cc', bcc')).
Proof.
  intros Henv Hws Htt. unfold applyTestRecipientPolicy. rewrite Henv.
  rewrite bool_decide_eq_true_2 by done. cbn [negb].
  set (cfg := match ttype with Some tty => _ | None => _ end).
  assert (Hmode : cfg.1 <> TestRecipientModeAppend).
  { subst cfg. destruct ttype as [t|]; [specialize (Htt t eq_refl)|];
      repeat case_match; simpl; naive_solver. }
  assert (Haddr : exists l, cfg.2 = NormalizeRecipientAddresses l /\
            (l = ws_TestRecipientAddresses ws \/
             exists t, ttype = Some t /\ l = tt_TestRecipientAddresses t)).
  { subst cfg. destruct ttype as [t|]; repeat case_match; simpl; eauto 6. }
  destruct cfg as [mode recipients]; simpl in *. destruct Haddr as (l & -> & Hl).
  destruct (NormalizeRecipientAddresses l) as [|a0 r] eqn:E; [done|].
  destruct mode; [|done|]; intros [= <- <- <-]; (split; [done|]); do 2 (split; [done|]);
    rewrite <- E; (split; [apply Normalize_NoDup|]); (split; [|done]);
    intros a (v & Hv & -> & _)%Normalize_origin; exists v; naive_solver.
Qed.

(** ** Concrete stores, for the witnesses *)

Definition table_store {W} (table : gmap string string) : suppressionBatchStore W :=
  {| CheckBatch := fun _ emails w => (Ok (filter (fun kv => kv.1 ∈ emails) table), w) |}.

Definition optout_store {W} (optouts : gset string) : templateTypeOptOutStore W :=
  {| BatchCheckOptOut := fun _ _ emails w => (Ok (list_to_set emails ∩ optouts), w) |}.

#[export] Instance table_store_ok {W} table wsID :
  SuppressionTable (table_store (W:=W) table) wsID (fun _ => table).
Proof.
  split. simpl. intros emails w m w' [= <- <-] a.
  case_decide as Ha.
  - destruct (table !! a) eqn:E.
    + by apply map_lookup_filter_Some.
    + apply map_lookup_filter_None. by left.
  - apply map_lookup_filter_None. right. intros x _ Hx. by apply Ha.
Qed.

#[export] Instance optout_store_ok {W} table optouts wsID ttID :
  OptOutTable (table_store (W:=W) table) (optout_store (W:=W) optouts) wsID ttID (fun _ => optouts).
Proof.
  split; [|done]. simpl. intros emails w m w' [= <- <-] a. set_solver.
Qed.

(** A test workspace and a template type used by the witnesses. *)
Definition sample_ws (env : Environment) : Workspace :=
  {| ws_ID := 7; ws_LogicalWorkspaceID := 70; ws_TenantID := 3; ws_Code := "main"; ws_Name := "Main";
     ws_Environment := env; ws_IsSystem := false; ws_IsActive := true;
     ws_OpenTrackingEnabled := true; ws_DefaultLocale := None;
     ws_TestRecipientMode := TestRecipientModeReplace;
     ws_TestRecipientAddresses := [" qa@test.io "; "QA@test.io"; ""];
     ws_AllowWorkspaceLocalTemplates := true; ws_AllowWorkspaceInheritedTemplateForks := true;
     ws_AllowWorkspaceLocalInjectors := true; ws_WorkspacePoliciesInitialized := true;
     ws_CreatedAt := 0; ws_UpdatedAt := 0; ws_DeletedAt := None |}.

Lemma applyTestRecipientPolicy_safe_witness :
  let G := ascii_std in
  applyTestRecipientPolicy (Some (sample_ws EnvironmentTest)) None ["real@user.com"] ["cc@user.com"] []
    = Ok (["qa@test.io"], [], []) /\
  NoDup (CanonicalRecipientAddress <$> ["qa@test.io"]).
Proof.
  intros G.
  assert (E : applyTestRecipientPolicy (Some (sample_ws EnvironmentTest)) None
                ["real@user.com"] ["cc@user.com"] [] = Ok (["qa@test.io"], [], []))
    by (vm_compute; reflexivity).
  split; [exact E|].
  eapply (applyTestRecipientPolicy_safe (sample_ws EnvironmentTest) None); [| | |exact E]; done.
Defined.

(** Every evaluation of the batch meets its specification. *)
Lemma EvaluateManyForType_ok `{GoStd} {W} (store : suppressionBatchStore W)
    (tts : templateTypeOptOutStore W) wsID ttID (table : W -> gmap string string)
    (optouts : W -> gset string) inputs w rs w' :
  SuppressionTable store wsID table -> OptOutTable store tts wsID ttID optouts ->
  table w !! "" = None ->
  EvaluateManyForType store (Some tts) wsID ttID inputs w = (Ok rs, w') ->
  Forall2 (evaluation_ok (table w) (optouts w)) inputs rs.
Proof.
  intros Ht Ho Hn (base & w1 & m & Eb & Ew & Em & ->)%EvaluateManyForType_inv.
  apply (EvaluateMany_table store wsID table) in Eb as ->; [|done].
  pose proof (BatchCheckOptOut_table _ _ _ _ Em) as Hm.
  rewrite Ew, (CheckBatch_optouts _ w) in Hm.
  unfold applyTypeOptOutsToEvaluations. apply Forall2_fmap_r, Forall2_fmap_r, Forall2_same_length_lookup_2.
  { done. }
  intros i x y Hx Hy. simplify_eq. apply optout_pass_ok.
  intros a Hne Ha. rewrite Hm, collect_spec. apply list_elem_of_lookup_2 in Hx.
  split; [tauto|]. intros Hin. split; [|done]. split; [done|].
  eexists _, a. split; [by apply list_elem_of_fmap_2|]. split; [|done].
  unfold pending. destruct Ha as [[Ha Hx']|[Ha|Ha]]; [left|by right; left|by right; right].
  exists (mkDecision a false ""). simpl. split; [|done].
  apply list_elem_of_fmap. exists a. by rewrite Hx'.
Qed.

(** C30: no blocked address is mailed and no other is dropped: when the stores
    answer from the suppression and opt-out tables, every input of a batch is
    evaluated to the same To list in order, a To recipient is marked
    suppressed iff its canonical address has a suppression row or an opt-out,
    and CC and BCC keep exactly the addresses that have neither (no row of the table having an empty address). *)
Theorem EvaluateManyForType_correct `{GoStd} {W} (store : suppressionBatchStore W)
    (tts : templateTypeOptOutStore W) wsID ttID (table : W -> gmap string string)
    (optouts : W -> gset string) inputs w rs w' :
  SuppressionTable store wsID table -> OptOutTable store tts wsID ttID optouts ->
  table w !! "" = None ->
  EvaluateManyForType store (Some tts) wsID ttID inputs w = (Ok rs, w') ->
  Forall2 (evaluation_ok (table w) (optouts w)) inputs rs.
Proof. apply EvaluateManyForType_ok. Qed.

Lemma EvaluateManyForType_correct_witness :
  let G := ascii_std in
  exists rs : list SuppressionBatchEvaluation,
  Forall2 (evaluation_ok {["a@x.io" := "complaint"]} {["b@x.io"]})
    [mkInput ["A@x.io"; "c@x.io"] ["b@x.io"; "d@x.io"] ["a@x.io"]] rs /\
  sev_CC <$> rs = [["d@x.io"]] /\ sev_BCC <$> rs = [[]] /\
  (dec_Suppressed <$> (rs ≫= sev_To)) = [true; false].
Proof.
  intros G. eexists. split.
  - eapply (EvaluateManyForType_correct (W:=unit)
      (table_store {["a@x.io" := "complaint"]}) (optout_store {["b@x.io"]}) 1%N 2%N
      (fun _ => {["a@x.io" := "complaint"]}) (fun _ => {["b@x.io"]}) _ tt).
    + apply table_store_ok.
    + apply optout_store_ok.
    + vm_compute. reflexivity.
    + vm_compute. reflexivity.
  - vm_compute. done.
Defined.

(** The single evaluation is the batch evaluation of one input. *)
Lemma EvaluateForType_batch `{GoStd} {W} (store : suppressionBatchStore W)
    (tts : templateTypeOptOutStore W) wsID ttID to cc bcc w :
  match EvaluateForType store (Some tts) wsID ttID to cc bcc w,
        EvaluateManyForType store (Some tts) wsID ttID [mkInput to cc bcc] w with
  | (Ok r, w1), (Ok rs, w2) => rs = [r] /\ w1 = w2
  | (Err _, w1), (Err _, w2) => w1 = w2
  | _, _ => False
  end.
Proof.
  unfold EvaluateForType, EvaluateManyForType, Evaluate, EvaluateMany, bind, wrap_err.
  destruct (CheckBatch store wsID _ w) as [[m|e] w1]; [|done].
  change (_ <$> [mkInput to cc bcc]) with [projectSuppressionBatch (mkInput to cc bcc) m].
  generalize (projectSuppressionBatch (mkInput to cc bcc) m) as base. intros base.
  unfold ret. cbv beta iota.
  unfold collectUnsuppressedCanonical. cbn [foldl]. unfold collect_body.
  destruct (uniq unsuppressed_entry ∅ (sev_To base)) as [s1 ts].
  destruct (uniq canonical_entry s1 (sev_CC base)) as [s2 cs].
  destruct (uniq canonical_entry s2 (sev_BCC base)) as [s3 bs]. simpl.
  destruct (BatchCheckOptOut tts wsID ttID (ts ++ cs ++ bs) w1) as [[o|e] w2]; [|done].
  by case_decide.
Qed.

Lemma EvaluateForType_ok `{GoStd} {W} (store : suppressionBatchStore W) (tts : templateTypeOptOutStore W)
    wsID ttID (table : W -> gmap string string) (optouts : W -> gset string) to cc bcc w r w' :
  SuppressionTable store wsID table -> OptOutTable store tts wsID ttID optouts ->
  table w !! "" = None ->
  EvaluateForType store (Some tts) wsID ttID to cc bcc w = (Ok r, w') ->
  evaluation_ok (table w) (optouts w) (mkInput to cc bcc) r.
Proof.
  intros Ht Ho Hn E. pose proof (EvaluateForType_batch store tts wsID ttID to cc bcc w) as Hb. rewrite E in Hb.
  destruct (EvaluateManyForType store (Some tts) wsID ttID [mkInput to cc bcc] w) as [[rs|] w2] eqn:E2; [|done].
  destruct Hb as [-> _]. apply (EvaluateManyForType_ok store tts wsID ttID table optouts) in E2; [|done..].
  by inversion E2.
Qed.

(** the single-send evaluation [EvaluateForType] and the batch evaluation
    [EvaluateManyForType] of that one input make the same queries and give the
    same result, for every pair of stores. *)
Theorem EvaluateForType_batch_equiv `{GoStd} {W} (store : suppressionBatchStore W)
    (tts : templateTypeOptOutStore W) wsID ttID to cc bcc w :
  match EvaluateForType store (Some tts) wsID ttID to cc bcc w,
        EvaluateManyForType store (Some tts) wsID ttID [mkInput to cc bcc] w with
  | (Ok r, w1), (Ok rs, w2) => rs = [r] /\ w1 = w2
  | (Err _, w1), (Err _, w2) => w1 = w2
  | _, _ => False
  end.
Proof. apply EvaluateForType_batch. Qed.
