(* ===== verification/EventProcessor.v ===== *)
(** * Provider feedback ([service/event_processor.go])

    The email status machine and the two handlers of provider events, over the
    ports. The status machine is read together with the worker's updates: every
    update of an email's status in the program is an edge of [life]. *)
From stdpp Require Import base gmap strings list relations.
From Stdlib Require Import ZArith String Lia.
From S2P Require Import Prelude GoMonad Domain Ports.

(** ** The transition table *)

Definition validTransitions (from : EmailStatus) : option (list EmailStatus) :=
  match from with
  | StatusSent => Some [StatusDelivered; StatusBounced; StatusComplained]
  | StatusDelivered => Some [StatusBounced; StatusComplained; StatusOpened]
  | StatusOpened => Some [StatusBounced; StatusComplained]
  | StatusProcessing => Some [StatusSent; StatusFailed]
  | _ => None
  end.

Definition isValidTransition (from to : EmailStatus) : bool :=
  match validTransitions from with
  | None => false
  | Some allowed => existsb (fun s => bool_decide (s = to)) allowed
  end.

Definition mapEventToStatus (eventType : ProviderEventType) : option EmailStatus :=
  match eventType with
  | EventDelivered => Some StatusDelivered
  | EventBounced => Some StatusBounced
  | EventComplained => Some StatusComplained
  | EventOpened => Some StatusOpened
  | EventOther _ => None
  end.

Definition strings_any (l : list string) : any := AList (AStr <$> l).

Definition buildEventMetadata (event : ProviderEvent) : fields_map :=
  let meta : fields_map :=
    {["provider_message_id" := AStr (pe_ProviderMessageID event); "source" := AStr "provider_webhook"]} in
  let meta := match pe_BounceDetail event with
              | None => meta
              | Some d => <["recipients" := strings_any (bd_Recipients d)]>
                          (<["diagnostic_code" := AStr (bd_DiagnosticCode d)]>
                          (<["bounce_type" := AStr (bd_BounceType d)]> meta))
              end in
  match pe_ComplaintDetail event with
  | None => meta
  | Some d => <["recipients" := strings_any (cd_Recipients d)]>
              (<["feedback_id" := AStr (cd_FeedbackID d)]>
              (<["complaint_type" := AStr (cd_ComplaintType d)]> meta))
  end.

(** ** The processor

    [emailLookup] and [emailUpdater] are two views of the email store;
    [ep_webhookService] is nil-able. Logging and metrics are left out. *)
Record EventProcessor (W : Type) := mkEventProcessor {
  ep_rt : Runtime W;
  ep_emails : EmailStore.t W;
  ep_suppression : SuppressionStore.t W;
  ep_webhookService : option (uuid -> string -> any -> M W unit);
}.
Arguments ep_rt {W}. Arguments ep_emails {W}.
Arguments ep_suppression {W}. Arguments ep_webhookService {W}.

Section Handlers.
Context `{GoStd} {W : Type} (p : EventProcessor W).

Definition handleSuppression (event : ProviderEvent) (email : Email) : M W unit :=
  match pe_Type event with
  | EventBounced =>
      match pe_BounceDetail event with
      | Some d =>
          if negb (bool_decide (bd_BounceType d = "hard")) then ret tt
          else
            let! id := NewV7 (ep_rt p) in
            let! now := Now (ep_rt p) in
            SuppressionStore.AddGlobal (ep_suppression p)
              {| sg_ID := id; sg_Email := em_RecipientEmail email; sg_Reason := SuppressionHardBounce;
                 sg_SourceEmailID := Some (em_ID email); sg_Notes := None; sg_CreatedAt := now;
                 sg_RemovedAt := None; sg_RemovedBy := None; sg_RemovalReason := None |}
      | None => ret tt
      end
  | EventComplained =>
      let! id := NewV7 (ep_rt p) in
      let! now := Now (ep_rt p) in
      SuppressionStore.AddWorkspace (ep_suppression p)
        {| sw_ID := id; sw_WorkspaceID := em_WorkspaceID email; sw_Email := em_RecipientEmail email;
           sw_Reason := SuppressionComplaint; sw_SourceEmailID := Some (em_ID email);
           sw_Notes := None; sw_CreatedAt := now; sw_RemovedAt := None; sw_RemovedBy := None;
           sw_RemovalReason := None |}
  | _ => ret tt
  end.

(** The recording of the event, shared by both handlers. *)
Definition add_event (email : Email) (status : EmailStatus) (event : ProviderEvent)
    (metadata : fields_map) : M W unit :=
  let! id := NewV7 (ep_rt p) in
  let! now := Now (ep_rt p) in
  EmailStore.AddEvent (ep_emails p)
    {| ev_ID := id; ev_EmailID := em_ID email; ev_EventType := StatusToEventType status;
       ev_OccurredAt := pe_Timestamp event; ev_Metadata := metadata; ev_CreatedAt := now |}.

(** Step 7: the dispatch to the workspace's webhooks; its error is logged. *)
Definition dispatch_event (email : Email) (status : EmailStatus) (event : ProviderEvent)
    (providerMsgID : string) : M W unit :=
  match ep_webhookService p with
  | None => ret tt
  | Some Dispatch =>
      ignore (Dispatch (em_WorkspaceID email) ("email." +:+ ProviderEventType_String (pe_Type event))
        (AMap [("email_id", AStr (uuid_String (em_ID email)));
               ("tracking_id", AStr (em_TrackingID email));
               ("recipient", AStr (em_RecipientEmail email));
               ("status", AStr (EmailStatus_String status));
               ("provider_message_id", AStr providerMsgID);
               ("timestamp", AStr (rfc3339 (pe_Timestamp event)))]))
  end.

Definition Process (event : ProviderEvent) : M W unit :=
  let! email := EmailStore.GetByProviderMessageID (ep_emails p) (pe_ProviderMessageID event) in
  match mapEventToStatus (pe_Type event) with
  | None => ret tt
  | Some status =>
      if negb (isValidTransition (em_Status email) status) then ret tt
      else
        EmailStore.UpdateStatus (ep_emails p) (em_ID email) status (em_Status email) ;;;
        add_event email status event (buildEventMetadata event) ;;;
        ignore (handleSuppression event email) ;;;
        dispatch_event email status event (pe_ProviderMessageID event)
  end.

Definition ProcessDirect (email : Email) (event : ProviderEvent) : M W unit :=
  match mapEventToStatus (pe_Type event) with
  | None => ret tt
  | Some status =>
      let record :=
        add_event email status event
          (<["source" := AStr "open_tracking_pixel"]> (buildEventMetadata event)) ;;;
        dispatch_event email status event (default "" (em_ProviderMessageID email)) in
      if bool_decide (pe_Type event = EventOpened) then
        (if bool_decide (em_Status email = StatusSent) || bool_decide (em_Status email = StatusDelivered)
         then EmailStore.UpdateStatus (ep_emails p) (em_ID email) status (em_Status email)
         else ret tt) ;;;
        record
      else if negb (isValidTransition (em_Status email) status) then ret tt
      else
        EmailStore.UpdateStatus (ep_emails p) (em_ID email) status (em_Status email) ;;;
        record
  end.
End Handlers.

(** ** The life of an email

    Every status update of the program: the worker's ([SendWorker.Work]), the
    provider events' ([Process]) and the tracking pixel's ([ProcessDirect]). *)
Inductive life : EmailStatus -> EmailStatus -> Prop :=
| life_claim : life StatusQueued StatusProcessing
| life_suppress : life StatusProcessing StatusSuppressed
| life_event from to : isValidTransition from to = true -> life from to
| life_open_sent : life StatusSent StatusOpened.

Definition status_rank (s : EmailStatus) : nat :=
  match s with
  | StatusQueued => 0
  | StatusProcessing => 1
  | StatusSent => 2
  | StatusDelivered => 3
  | StatusOpened => 4
  | StatusBounced | StatusComplained | StatusFailed | StatusSuppressed => 5
  end.

(** * Theorems *)

Lemma isValidTransition_rank from to :
  isValidTransition from to = true -> status_rank from < status_rank to.
Proof. destruct from, to; vm_compute; first [discriminate | lia]. Qed.

Lemma life_rank from to : life from to -> status_rank from < status_rank to.
Proof. intros []; simpl; try lia. by apply isValidTransition_rank. Qed.

Lemma rtc_life_rank from to : rtc life from to -> status_rank from <= status_rank to.
Proof. induction 1 as [|x y z Hxy _ IH]; [done|]. apply life_rank in Hxy. lia. Qed.

#[export] Hint Resolve life_rank rtc_life_rank life_claim life_suppress life_event life_open_sent : senda.

(** an email never returns to a status it has left, and its status changes
    at most five times: along any sequence of status updates of the program
    every non-trivial path ends in a different status of a higher rank. *)
Theorem life_acyclic s s' n :
  nsteps life n s s' -> n <= status_rank s' - status_rank s /\ n <= 5 /\ (0 < n -> s' <> s).
Proof.
  intros Hn. assert (Hr : status_rank s + n <= status_rank s').
  { induction Hn as [|n x y z Hxy _ IH]; [lia|]. apply life_rank in Hxy. lia. }
  assert (status_rank s' <= 5) by (destruct s'; simpl; lia).
  split; [lia|]. split; [lia|]. intros Hp ->. lia.
Qed.

Lemma life_acyclic_witness :
  nsteps life 5 StatusQueued StatusBounced /\ StatusBounced <> StatusQueued.
Proof.
  assert (H : nsteps life 5 StatusQueued StatusBounced).
  { apply nsteps_l with StatusProcessing; [apply life_claim|].
    apply nsteps_l with StatusSent; [by apply life_event|].
    apply nsteps_l with StatusDelivered; [by apply life_event|].
    apply nsteps_l with StatusOpened; [by apply life_event|].
    apply nsteps_once. by apply life_event. }
  split; [exact H|]. apply (life_acyclic _ _ _ H). lia.
Defined.

(** A history of the status table: the updates of all the workers and handlers,
    in the order the database applied them. *)
Abbreviation transition := (uuid * EmailStatus * EmailStatus)%type.

Inductive history : gmap uuid EmailStatus -> list transition -> gmap uuid EmailStatus -> Prop :=
| history_nil s : history s [] s
| history_cons s id from to tr s' :
    s !! id = Some from -> life from to -> history (<[id := to]> s) tr s' ->
    history s ((id, from, to) :: tr) s'.

Lemma history_rank s tr s' id st from to :
  history s tr s' -> s !! id = Some st -> (id, from, to) ∈ tr -> status_rank st <= status_rank from.
Proof.
  intros Hh. revert st. induction Hh as [s|s id' f t tr s' Hf He Hh IH]; intros st Hst Hin.
  - by apply elem_of_nil in Hin.
  - apply elem_of_cons in Hin as [[= -> -> ->]|Hin]; [by simplify_eq|].
    destruct (decide (id' = id)) as [->|Hne].
    + simplify_eq. specialize (IH t). rewrite lookup_insert_eq in IH. specialize (IH eq_refl Hin).
      apply life_rank in He. lia.
    + apply IH; [by rewrite lookup_insert_ne|done].
Qed.

(** C6: an email is claimed by at most one worker: however the handlers and the
    workers interleave, no status transition of an email occurs twice in the
    history of the table - in particular not the claim, from queued to
    processing, nor the step to sent. *)
Theorem transition_once s tr s' : history s tr s' -> NoDup tr.
Proof.
  induction 1 as [s|s id from to tr s' Hf He Hh IH]; constructor; [|done].
  intros Hin. pose proof (history_rank _ _ _ id to from to Hh (lookup_insert_eq s id to) Hin).
  apply life_rank in He. lia.
Qed.

Lemma transition_once_witness :
  NoDup [(1%N, StatusQueued, StatusProcessing); (2%N, StatusQueued, StatusProcessing);
         (1%N, StatusProcessing, StatusSent)].
Proof.
  eapply (transition_once {[1%N := StatusQueued; 2%N := StatusQueued]}).
  apply history_cons; [reflexivity|apply life_claim|].
  apply history_cons; [reflexivity|apply life_claim|].
  apply history_cons; [reflexivity|by apply life_event|]. apply history_nil.
Defined.

Section Laws.
Context `{GoStd} {W : Type} (p : EventProcessor W) (status_of : W -> gmap uuid EmailStatus).
Context `{!EmailStoreLaws (ep_emails p) status_of}.
Context `{!SuppressionStoreFrame (ep_suppression p) status_of, !RuntimeFrame (ep_rt p) status_of}.
Context (Dispatch_frame : forall D, ep_webhookService p = Some D ->
           forall ws t x, preserves status_of (D ws t x)).

Lemma handleSuppression_frame ev email : preserves status_of (handleSuppression p ev email).
Proof. unfold handleSuppression. preserves_tac. Qed.

Lemma add_event_frame email st ev meta : preserves status_of (add_event p email st ev meta).
Proof. unfold add_event. preserves_tac. Qed.

Lemma dispatch_event_frame email st ev m : preserves status_of (dispatch_event p email st ev m).
Proof.
  unfold dispatch_event. destruct (ep_webhookService p) eqn:E; [|apply preserves_ret].
  apply preserves_ignore. eauto.
Qed.
End Laws.

#[export] Hint Resolve handleSuppression_frame add_event_frame dispatch_event_frame : senda.

(** Provider events move statuses along the transition table. *)
Lemma Process_moves `{GoStd} {W} (p : EventProcessor W) status_of event :
  EmailStoreLaws (ep_emails p) status_of ->
  SuppressionStoreFrame (ep_suppression p) status_of -> RuntimeFrame (ep_rt p) status_of ->
  (forall D, ep_webhookService p = Some D -> forall ws t x, preserves status_of (D ws t x)) ->
  moves (fun from to => isValidTransition from to = true) status_of (Process p event).
Proof.
  intros ????. unfold Process. moves_tac.
  apply UpdateStatus_moves; [done|]. by bools.
Qed.

(** provider events move statuses forward only: whatever the stores answer
    and wherever they fail, running [Process] leaves the status table as it was
    or changes it along edges of [validTransitions]; no other status is
    touched, even when other handlers ran between the lookup and the update. *)
Theorem Process_forward `{GoStd} {W} (p : EventProcessor W) status_of event :
  EmailStoreLaws (ep_emails p) status_of ->
  SuppressionStoreFrame (ep_suppression p) status_of -> RuntimeFrame (ep_rt p) status_of ->
  (forall D, ep_webhookService p = Some D -> forall ws t x, preserves status_of (D ws t x)) ->
  moves (fun from to => isValidTransition from to = true) status_of (Process p event).
Proof. apply Process_moves. Qed.

(** The tracking pixel moves statuses along the life of an email. *)
Lemma ProcessDirect_moves `{GoStd} {W} (p : EventProcessor W) status_of email event :
  EmailStoreLaws (ep_emails p) status_of -> RuntimeFrame (ep_rt p) status_of ->
  (forall D, ep_webhookService p = Some D -> forall ws t x, preserves status_of (D ws t x)) ->
  moves life status_of (ProcessDirect p email event).
Proof.
  intros ???. unfold ProcessDirect. moves_tac; bools.
  - apply UpdateStatus_moves; [done|]. destruct (pe_Type event); simplify_eq/=.
    destruct Heqb0 as [E|E]; apply bool_decide_eq_true in E; rewrite E; [apply life_open_sent|by apply life_event].
  - apply UpdateStatus_moves; [done|]. by apply life_event.
Qed.

(** The tracking pixel keeps the life of an email too: whatever the email
    handed to [ProcessDirect] says and wherever the stores fail, the status
    table changes only along edges of the program's status machine. *)
Theorem ProcessDirect_life `{GoStd} {W} (p : EventProcessor W) status_of email event :
  EmailStoreLaws (ep_emails p) status_of -> RuntimeFrame (ep_rt p) status_of ->
  (forall D, ep_webhookService p = Some D -> forall ws t x, preserves status_of (D ws t x)) ->
  moves life status_of (ProcessDirect p email event).
Proof. apply ProcessDirect_moves. Qed.

(** duplicates are harmless: once the email an event refers to has reached
    the event's status (or moved on from there), processing the event again
    succeeds and does nothing after the lookup: no status update, no event
    row, no suppression, no webhook. *)
Theorem Process_duplicate `{GoStd} {W} (p : EventProcessor W) event status email w w1 :
  mapEventToStatus (pe_Type event) = Some status ->
  EmailStore.GetByProviderMessageID (ep_emails p) (pe_ProviderMessageID event) w = (Ok email, w1) ->
  rtc life status (em_Status email) ->
  Process p event w = (Ok tt, w1).
Proof.
  intros Hs Hl Hr. unfold Process, bind. rewrite Hl, Hs.
  destruct (isValidTransition (em_Status email) status) eqn:E; [|done].
  apply isValidTransition_rank in E. apply rtc_life_rank in Hr. lia.
Qed.
