(* ===== verification/Postgres.v ===== *)
(** * The PostgreSQL repositories ([internal/adapter/postgres])

    The tables behind the ports and the repositories' statements on them. A
    statement is executed by [stmt]: the next element of the fault schedule
    says whether it runs, fails in the driver before it runs, or runs and loses
    its reply, so every theorem over [Sys] holds for every schedule of failures. *)
From stdpp Require Import base gmap strings list.
From Stdlib Require Import ZArith String Lia.
From S2P Require Import Prelude GoMonad Domain Ports Suppression.

Inductive Fault := FaultNone | FaultBefore (msg : string) | FaultAfter (msg : string).

(** What leaves the process, in order: messages handed to a provider, jobs
    inserted in the queue and requests to webhook endpoints. *)
Inductive Action :=
| ASent (msg : OutgoingEmail)
| AJobSend (j : SendJob)
| AJobWebhook (j : WebhookJob)
| APost (url : string) (body : string) (headers : gmap string string).

Record Sys := mkSys {
  sys_emails : gmap uuid Email;
  sys_payloads : gmap uuid EmailPayload;
  sys_events : list EmailEvent;
  sys_global : gmap string SuppressionGlobal;
  sys_workspace : gmap (uuid * string) SuppressionWorkspace;
  sys_subs : gmap (uuid * uuid * string) TemplateTypeSubscription;
  sys_webhooks : gmap uuid Webhook;
  (** the [cache] table: value and expiry *)
  sys_cache : gmap string (string * gotime);
  sys_clock : gotime;
  sys_ids : N;
  sys_faults : list Fault;
  sys_log : list Action;
}.

Definition set_emails f s :=
  mkSys (f (sys_emails s)) (sys_payloads s) (sys_events s) (sys_global s) (sys_workspace s) (sys_subs s)
    (sys_webhooks s) (sys_cache s) (sys_clock s) (sys_ids s) (sys_faults s) (sys_log s).
Definition set_events f s :=
  mkSys (sys_emails s) (sys_payloads s) (f (sys_events s)) (sys_global s) (sys_workspace s) (sys_subs s)
    (sys_webhooks s) (sys_cache s) (sys_clock s) (sys_ids s) (sys_faults s) (sys_log s).
Definition set_global f s :=
  mkSys (sys_emails s) (sys_payloads s) (sys_events s) (f (sys_global s)) (sys_workspace s) (sys_subs s)
    (sys_webhooks s) (sys_cache s) (sys_clock s) (sys_ids s) (sys_faults s) (sys_log s).
Definition set_workspace f s :=
  mkSys (sys_emails s) (sys_payloads s) (sys_events s) (sys_global s) (f (sys_workspace s)) (sys_subs s)
    (sys_webhooks s) (sys_cache s) (sys_clock s) (sys_ids s) (sys_faults s) (sys_log s).
Definition set_subs f s :=
  mkSys (sys_emails s) (sys_payloads s) (sys_events s) (sys_global s) (sys_workspace s) (f (sys_subs s))
    (sys_webhooks s) (sys_cache s) (sys_clock s) (sys_ids s) (sys_faults s) (sys_log s).
Definition set_webhooks f s :=
  mkSys (sys_emails s) (sys_payloads s) (sys_events s) (sys_global s) (sys_workspace s) (sys_subs s)
    (f (sys_webhooks s)) (sys_cache s) (sys_clock s) (sys_ids s) (sys_faults s) (sys_log s).
Definition set_cache f s :=
  mkSys (sys_emails s) (sys_payloads s) (sys_events s) (sys_global s) (sys_workspace s) (sys_subs s)
    (sys_webhooks s) (f (sys_cache s)) (sys_clock s) (sys_ids s) (sys_faults s) (sys_log s).
Definition set_clock f s :=
  mkSys (sys_emails s) (sys_payloads s) (sys_events s) (sys_global s) (sys_workspace s) (sys_subs s)
    (sys_webhooks s) (sys_cache s) (f (sys_clock s)) (sys_ids s) (sys_faults s) (sys_log s).
Definition set_ids f s :=
  mkSys (sys_emails s) (sys_payloads s) (sys_events s) (sys_global s) (sys_workspace s) (sys_subs s)
    (sys_webhooks s) (sys_cache s) (sys_clock s) (f (sys_ids s)) (sys_faults s) (sys_log s).
Definition set_faults f s :=
  mkSys (sys_emails s) (sys_payloads s) (sys_events s) (sys_global s) (sys_workspace s) (sys_subs s)
    (sys_webhooks s) (sys_cache s) (sys_clock s) (sys_ids s) (f (sys_faults s)) (sys_log s).
Definition set_log f s :=
  mkSys (sys_emails s) (sys_payloads s) (sys_events s) (sys_global s) (sys_workspace s) (sys_subs s)
    (sys_webhooks s) (sys_cache s) (sys_clock s) (sys_ids s) (sys_faults s) (f (sys_log s)).

(** The process clock and identifier source; the clock advances. *)
Definition sys_runtime : Runtime Sys := {|
  rt_NewV7 := fun s => (sys_ids s, set_ids N.succ s);
  rt_Now := fun s => (sys_clock s, set_clock Z.succ s);
|}.

(** ** Statements *)

(** One round trip to the database: [f] is the statement's effect and result;
    [wrap] is the repository's error wrapping. *)
Definition stmt {A} (wrap : error -> error) (f : Sys -> Res A * Sys) : M Sys A := fun s =>
  match sys_faults s with
  | [] => f s
  | FaultNone :: r => f (set_faults (fun _ => r) s)
  | FaultBefore msg :: r => (Err (wrap (EMsg msg)), set_faults (fun _ => r) s)
  | FaultAfter msg :: r => (Err (wrap (EMsg msg)), (f (set_faults (fun _ => r) s)).2)
  end.

#[global] Arguments stmt : simpl never.

Definition wrapping (msg : string) (e : error) : error := EWrap (msg +:+ ": ") e "".
Definition NotFound (msg : string) : error := EApp 404 msg.

(** ** [EmailRepo] *)

(** The columns the updates write. *)
Definition with_email (status : EmailStatus) (pmid : option string) (retry : Z)
    (next : option gotime) (updated : gotime) (e : Email) : Email :=
  {| em_ID := em_ID e; em_TrackingID := em_TrackingID e; em_ExternalID := em_ExternalID e;
     em_WorkspaceID := em_WorkspaceID e; em_TenantID := em_TenantID e;
     em_TemplateID := em_TemplateID e; em_TemplateVersionID := em_TemplateVersionID e;
     em_TemplateTypeSlug := em_TemplateTypeSlug e; em_TemplateRef := em_TemplateRef e;
     em_RecipientEmail := em_RecipientEmail e; em_CC := em_CC e; em_BCC := em_BCC e;
     em_FromEmail := em_FromEmail e; em_FromName := em_FromName e; em_ReplyTo := em_ReplyTo e;
     em_SubjectRendered := em_SubjectRendered e; em_Locale := em_Locale e; em_Status := status;
     em_AdapterID := em_AdapterID e; em_SenderIdentityID := em_SenderIdentityID e;
     em_ProviderMessageID := pmid;
     em_VariablesSnapshot := em_VariablesSnapshot e; em_InjectorsSnapshot := em_InjectorsSnapshot e;
     em_SourceType := em_SourceType e; em_SourceActorMemberID := em_SourceActorMemberID e;
     em_SourceActorEmail := em_SourceActorEmail e; em_BodyMJML := em_BodyMJML e;
     em_RetryCount := retry; em_OpenTrackingEnabled := em_OpenTrackingEnabled e;
     em_MaxRetries := em_MaxRetries e; em_NextRetryAt := next;
     em_CreatedAt := em_CreatedAt e; em_UpdatedAt := updated |}.

Section EmailRepo.
Context `{GoStd}.

(** The row selected by a unique column. *)
Definition select_email (p : Email -> bool) (s : Sys) : Res Email * Sys :=
  (match List.filter (fun kv => p kv.2) (map_to_list (sys_emails s)) with
   | kv :: _ => Ok kv.2
   | [] => Err (NotFound "email not found")
   end, s).

Definition GetByTrackingID (trackingID : string) : M Sys Email :=
  stmt (wrapping "scanning email") (select_email (fun e => bool_decide (em_TrackingID e = trackingID))).

Definition GetByProviderMessageID (providerMessageID : string) : M Sys Email :=
  stmt (wrapping "scanning email")
    (select_email (fun e => bool_decide (em_ProviderMessageID e = Some providerMessageID))).

Definition GetPayload (emailID : uuid) : M Sys EmailPayload :=
  stmt (wrapping "scanning email payload") (fun s =>
    (match sys_payloads s !! emailID with
     | Some p => Ok p
     | None => Err (NotFound "email payload not found")
     end, s)).

Definition UpdateStatus (id : uuid) (newStatus expectedStatus : EmailStatus) : M Sys unit :=
  stmt (wrapping "updating email status") (fun s =>
    match sys_emails s !! id with
    | Some e =>
        if bool_decide (em_Status e = expectedStatus)
        then (Ok tt, set_emails <[id := with_email newStatus (em_ProviderMessageID e) (em_RetryCount e)
                                          (em_NextRetryAt e) (sys_clock s) e]> s)
        else (Err (ESent ErrStatusConflict), s)
    | None => (Err (ESent ErrStatusConflict), s)
    end).

Definition SetProviderMessageID (id : uuid) (providerMessageID : string) : M Sys unit :=
  stmt (wrapping "setting provider_message_id") (fun s =>
    match sys_emails s !! id with
    | Some e => (Ok tt, set_emails <[id := with_email (em_Status e) (Some providerMessageID)
                                             (em_RetryCount e) (em_NextRetryAt e) (sys_clock s) e]> s)
    | None => (Err (NotFound ("email " +:+ uuid_String id +:+ " not found")), s)
    end).

Definition UpdateRetry (id : uuid) (retryCount : Z) (nextRetryAt : option gotime) : M Sys unit :=
  stmt (wrapping "updating email retry") (fun s =>
    match sys_emails s !! id with
    | Some e => (Ok tt, set_emails <[id := with_email (em_Status e) (em_ProviderMessageID e)
                                             retryCount nextRetryAt (sys_clock s) e]> s)
    | None => (Err (NotFound ("email " +:+ uuid_String id +:+ " not found")), s)
    end).

(** The inserted columns; [created_at] is the database's clock. *)
Definition event_row (now : gotime) (event : EmailEvent) : EmailEvent :=
  {| ev_ID := ev_ID event; ev_EmailID := ev_EmailID event; ev_EventType := ev_EventType event;
     ev_OccurredAt := ev_OccurredAt event; ev_Metadata := ev_Metadata event; ev_CreatedAt := now |}.

Definition AddEvent (event : EmailEvent) : M Sys unit :=
  stmt (wrapping "inserting email event") (fun s =>
    (Ok tt, set_events (fun l => l ++ [event_row (sys_clock s) event]) s)).

Definition EmailRepo : EmailStore.t Sys := {|
  EmailStore.GetByTrackingID := GetByTrackingID;
  EmailStore.GetByProviderMessageID := GetByProviderMessageID;
  EmailStore.GetPayload := GetPayload;
  EmailStore.UpdateStatus := UpdateStatus;
  EmailStore.UpdateRetry := UpdateRetry;
  EmailStore.SetProviderMessageID := SetProviderMessageID;
  EmailStore.AddEvent := AddEvent;
|}.
End EmailRepo.

(** ** [SuppressionRepo] *)

Section SuppressionRepo.
Context `{GoStd}.

Definition global_row (now : gotime) (entry : SuppressionGlobal) : SuppressionGlobal :=
  {| sg_ID := sg_ID entry; sg_Email := sg_Email entry; sg_Reason := sg_Reason entry;
     sg_SourceEmailID := sg_SourceEmailID entry; sg_Notes := sg_Notes entry; sg_CreatedAt := now;
     sg_RemovedAt := None; sg_RemovedBy := None; sg_RemovalReason := None |}.

(** [ON CONFLICT (email) DO UPDATE]: the row keeps its id and creation time. *)
Definition global_upsert (now : gotime) (entry : SuppressionGlobal) (old : option SuppressionGlobal)
  : SuppressionGlobal :=
  match old with
  | None => global_row now entry
  | Some o =>
      {| sg_ID := sg_ID o; sg_Email := sg_Email o; sg_Reason := sg_Reason entry;
         sg_SourceEmailID := sg_SourceEmailID entry; sg_Notes := sg_Notes entry;
         sg_CreatedAt := sg_CreatedAt o; sg_RemovedAt := None; sg_RemovedBy := None;
         sg_RemovalReason := None |}
  end.

Definition AddGlobal (entry : SuppressionGlobal) : M Sys unit :=
  stmt (wrapping "upserting global suppression") (fun s =>
    (Ok tt, set_global (fun m => <[sg_Email entry :=
       global_upsert (sys_clock s) entry (m !! sg_Email entry)]> m) s)).

Definition active_global (s : Sys) (email : string) : option SuppressionGlobal :=
  match sys_global s !! email with
  | Some r => if bool_decide (sg_RemovedAt r = None) then Some r else None
  | None => None
  end.

Definition active_workspace (s : Sys) (wsID : uuid) (email : string) : option SuppressionWorkspace :=
  match sys_workspace s !! (wsID, email) with
  | Some r => if bool_decide (sw_RemovedAt r = None) then Some r else None
  | None => None
  end.

Definition IsGloballySuppressed (email : string) : M Sys bool :=
  stmt (wrapping "checking global suppression") (fun s =>
    (Ok (bool_decide (is_Some (active_global s email))), s)).

Definition RemoveGlobal (email : string) (removedBy : uuid) (reason : string) : M Sys unit :=
  stmt (wrapping "removing global suppression") (fun s =>
    match active_global s email with
    | None => (Err (NotFound ("global suppression for " +:+ Quote email +:+ " not found")), s)
    | Some r => (Ok tt, set_global <[email :=
        {| sg_ID := sg_ID r; sg_Email := sg_Email r; sg_Reason := sg_Reason r;
           sg_SourceEmailID := sg_SourceEmailID r; sg_Notes := sg_Notes r; sg_CreatedAt := sg_CreatedAt r;
           sg_RemovedAt := Some (sys_clock s); sg_RemovedBy := Some removedBy;
           sg_RemovalReason := Some reason |}]> s)
    end).

(** The new contents of the row, [None] when the conflicting row is kept: an
    active row that is not an unsubscribe is never overwritten. *)
Definition workspace_upsert (now : gotime) (entry : SuppressionWorkspace)
    (old : option SuppressionWorkspace) : option SuppressionWorkspace :=
  match old with
  | None =>
      Some {| sw_ID := sw_ID entry; sw_WorkspaceID := sw_WorkspaceID entry; sw_Email := sw_Email entry;
              sw_Reason := sw_Reason entry; sw_SourceEmailID := sw_SourceEmailID entry;
              sw_Notes := sw_Notes entry; sw_CreatedAt := now; sw_RemovedAt := None;
              sw_RemovedBy := None; sw_RemovalReason := None |}
  | Some o =>
      if bool_decide (sw_Reason o = SuppressionUnsubscribe) || negb (bool_decide (sw_RemovedAt o = None))
      then Some {| sw_ID := sw_ID o; sw_WorkspaceID := sw_WorkspaceID o; sw_Email := sw_Email o;
                   sw_Reason := sw_Reason entry; sw_SourceEmailID := sw_SourceEmailID entry;
                   sw_Notes := sw_Notes entry; sw_CreatedAt := sw_CreatedAt o; sw_RemovedAt := None;
                   sw_RemovedBy := None; sw_RemovalReason := None |}
      else None
  end.

Definition AddWorkspace (entry : SuppressionWorkspace) : M Sys unit :=
  stmt (wrapping "upserting workspace suppression") (fun s =>
    let key := (sw_WorkspaceID entry, sw_Email entry) in
    match workspace_upsert (sys_clock s) entry (sys_workspace s !! key) with
    | Some row => (Ok tt, set_workspace <[key := row]> s)
    | None => (Ok tt, s)
    end).

Definition IsWorkspaceSuppressed (wsID : uuid) (email : string) : M Sys bool :=
  stmt (wrapping "checking workspace suppression") (fun s =>
    (Ok (bool_decide (is_Some (active_workspace s wsID email))), s)).

Definition GetActiveWorkspaceSuppression (workspaceID : uuid) (email : string) : M Sys SuppressionWorkspace :=
  stmt (wrapping "suppression: get active workspace") (fun s =>
    (match active_workspace s workspaceID email with
     | Some r => Ok r
     | None => Err (NotFound ("active workspace suppression for ws=" +:+ uuid_String workspaceID +:+
                              " email=" +:+ Quote email +:+ " not found"))
     end, s)).

Definition RemoveWorkspaceSuppression (workspaceID : uuid) (email removalReason : string) : M Sys unit :=
  stmt (wrapping "suppression: remove workspace") (fun s =>
    let missing := Err (NotFound ("active unsubscribe suppression for ws=" +:+ uuid_String workspaceID +:+
                                  " email=" +:+ Quote email +:+ " not found")) in
    match active_workspace s workspaceID email with
    | None => (missing, s)
    | Some r =>
        if bool_decide (sw_Reason r = SuppressionUnsubscribe) then
          (Ok tt, set_workspace <[(workspaceID, email) :=
            {| sw_ID := sw_ID r; sw_WorkspaceID := sw_WorkspaceID r; sw_Email := sw_Email r;
               sw_Reason := sw_Reason r; sw_SourceEmailID := sw_SourceEmailID r; sw_Notes := sw_Notes r;
               sw_CreatedAt := sw_CreatedAt r; sw_RemovedAt := Some (sys_clock s);
               sw_RemovedBy := sw_RemovedBy r; sw_RemovalReason := Some removalReason |}]> s)
        else (missing, s)
    end).

(** The reason an address is suppressed for in a workspace, global first: the
    [COALESCE] of the batch query and the [UNION ALL ... LIMIT 1] of the single
    one (PostgreSQL runs the branches of a [UNION ALL] in order). *)
Definition suppression_reason (s : Sys) (wsID : uuid) (email : string) : option string :=
  match active_global s email with
  | Some r => Some (SuppressionReason_String (sg_Reason r))
  | None =>
      match active_workspace s wsID email with
      | Some r => Some (SuppressionReason_String (sw_Reason r))
      | None => None
      end
  end.

Definition IsSuppressed (wsID : uuid) (email : string) : M Sys (bool * string) :=
  stmt (wrapping "checking combined suppression") (fun s =>
    (Ok (match suppression_reason s wsID email with
         | Some reason => (true, reason)
         | None => (false, "")
         end), s)).

(** [port.SuppressionStatus]; the map has an entry for every requested email. *)
Record SuppressionStatus := mkSuppressionStatus { st_Suppressed : bool; st_Reason : string }.

Definition suppression_status (s : Sys) (wsID : uuid) (email : string) : SuppressionStatus :=
  match suppression_reason s wsID email with
  | Some reason => mkSuppressionStatus true reason
  | None => mkSuppressionStatus false ""
  end.

Definition GetSuppressionStatuses (wsID : uuid) (emails : list string)
  : M Sys (gmap string SuppressionStatus) :=
  match emails with
  | [] => ret ∅
  | _ =>
      stmt (wrapping "checking suppression set") (fun s =>
        (Ok (foldr (fun email m => <[email := suppression_status s wsID email]> m) ∅ emails), s))
  end.

Definition suppressed_reason (st : SuppressionStatus) : option string :=
  if st_Suppressed st then Some (st_Reason st) else None.

Definition CheckBatch (wsID : uuid) (emails : list string) : M Sys (gmap string string) :=
  let! statuses := GetSuppressionStatuses wsID emails in
  ret (omap suppressed_reason statuses).

Definition SuppressionRepo : SuppressionStore.t Sys := {|
  SuppressionStore.AddGlobal := AddGlobal;
  SuppressionStore.AddWorkspace := AddWorkspace;
  SuppressionStore.IsSuppressed := IsSuppressed;
|}.

Definition SuppressionBatchRepo : suppressionBatchStore Sys := {| Suppression.CheckBatch := CheckBatch |}.
End SuppressionRepo.

(** ** [TemplateTypeSubscriptionRepo] *)

Section SubscriptionRepo.
Context `{GoStd}.

Definition sub_upsert (now : gotime) (sub : TemplateTypeSubscription)
    (old : option TemplateTypeSubscription) : TemplateTypeSubscription :=
  {| sub_ID := match old with Some o => sub_ID o | None => sub_ID sub end;
     sub_WorkspaceID := sub_WorkspaceID sub; sub_TemplateTypeID := sub_TemplateTypeID sub;
     sub_Email := sub_Email sub; sub_Subscribed := sub_Subscribed sub; sub_Source := sub_Source sub;
     sub_SourceEmailID := sub_SourceEmailID sub; sub_ActorID := sub_ActorID sub;
     sub_Notes := sub_Notes sub;
     sub_CreatedAt := match old with Some o => sub_CreatedAt o | None => now end;
     sub_UpdatedAt := now |}.

Definition Upsert (sub : TemplateTypeSubscription) : M Sys unit :=
  stmt (wrapping "tts: upsert") (fun s =>
    let key := (sub_WorkspaceID sub, sub_TemplateTypeID sub, sub_Email sub) in
    (Ok tt, set_subs (fun m => <[key := sub_upsert (sys_clock s) sub (m !! key)]> m) s)).

Definition GetState (workspaceID templateTypeID : uuid) (email : string) : M Sys TemplateTypeSubscription :=
  stmt (wrapping "tts: get state") (fun s =>
    (match sys_subs s !! (workspaceID, templateTypeID, email) with
     | Some r => Ok r
     | None => Err (NotFound ("template_type_subscription not found for (ws=" +:+ uuid_String workspaceID
                   +:+ ", tt=" +:+ uuid_String templateTypeID +:+ ", email=" +:+ email +:+ ")"))
     end, s)).

Definition ListOptOutsForRecipient (workspaceID : uuid) (email : string)
  : M Sys (list TemplateTypeSubscription) :=
  stmt (wrapping "tts: list") (fun s =>
    (Ok (snd <$> List.filter (fun kv => bool_decide (sub_WorkspaceID kv.2 = workspaceID)
                                       && bool_decide (sub_Email kv.2 = email))
                             (map_to_list (sys_subs s))), s)).

Definition opted_out (s : Sys) (wsID ttID : uuid) (email : string) : bool :=
  match sys_subs s !! (wsID, ttID, email) with
  | Some r => negb (sub_Subscribed r)
  | None => false
  end.

Definition BatchCheckOptOut (workspaceID templateTypeID : uuid) (emails : list string)
  : M Sys (gset string) :=
  match emails with
  | [] => ret ∅
  | _ =>
      stmt (wrapping "tts: batch check") (fun s =>
        (Ok (list_to_set (List.filter (opted_out s workspaceID templateTypeID) emails)), s))
  end.

Definition SubscriptionRepo : templateTypeOptOutStore Sys :=
  {| Suppression.BatchCheckOptOut := BatchCheckOptOut |}.
End SubscriptionRepo.

(** ** [WebhookRepo]: the failure counter *)

Section WebhookRepo.
Context `{GoStd}.

Definition with_webhook (active : bool) (failures : Z) (lastFailure disabledAt : option gotime)
    (updated : gotime) (w : Webhook) : Webhook :=
  {| wh_ID := wh_ID w; wh_WorkspaceID := wh_WorkspaceID w; wh_URL := wh_URL w; wh_Secret := wh_Secret w;
     wh_Events := wh_Events w; wh_IsActive := active; wh_ConsecutiveFailures := failures;
     wh_LastFailureAt := lastFailure; wh_DisabledAt := disabledAt; wh_CreatedAt := wh_CreatedAt w;
     wh_UpdatedAt := updated |}.

Definition webhook_missing (id : uuid) : error := NotFound ("webhook " +:+ uuid_String id +:+ " not found").

Definition GetWebhookByID (id : uuid) : M Sys Webhook :=
  stmt (wrapping "querying webhook") (fun s =>
    (match sys_webhooks s !! id with Some w => Ok w | None => Err (webhook_missing id) end, s)).

Definition ResetFailureCount (id : uuid) : M Sys unit :=
  stmt (wrapping "resetting webhook failure count") (fun s =>
    match sys_webhooks s !! id with
    | Some w => (Ok tt, set_webhooks <[id := with_webhook (wh_IsActive w) 0 None (wh_DisabledAt w)
                                               (sys_clock s) w]> s)
    | None => (Err (webhook_missing id), s)
    end).

Definition increment_row (now : gotime) (w : Webhook) : Webhook :=
  let n := (wh_ConsecutiveFailures w + 1)%Z in
  with_webhook (if (10 <=? n)%Z then false else wh_IsActive w) n (Some now)
    (if (10 <=? n)%Z && bool_decide (wh_DisabledAt w = None) then Some now else wh_DisabledAt w) now w.

Definition IncrementFailureCount (id : uuid) : M Sys (Z * bool) :=
  stmt (wrapping "incrementing webhook failure count") (fun s =>
    match sys_webhooks s !! id with
    | Some w =>
        let w' := increment_row (sys_clock s) w in
        (Ok (wh_ConsecutiveFailures w', wh_IsActive w'), set_webhooks <[id := w']> s)
    | None => (Err (webhook_missing id), s)
    end).

Definition webhook_active (w : Webhook) : bool :=
  wh_IsActive w && bool_decide (wh_DisabledAt w = None).

Definition GetActiveByWorkspace (workspaceID : uuid) : M Sys (list Webhook) :=
  stmt (wrapping "querying active webhooks") (fun s =>
    (Ok (snd <$> List.filter (fun kv => bool_decide (wh_WorkspaceID kv.2 = workspaceID)
                                       && webhook_active kv.2)
                             (map_to_list (sys_webhooks s))), s)).
End WebhookRepo.

(** ** The job queue ([river.Client])

    River's tables are not modelled: a job that is inserted is a logged action. *)

Section Queue.
Context `{GoStd}.

Definition EnqueueSend (job : SendJob) : M Sys unit :=
  let priority := if (sj_Priority job <? 1)%Z then 2%Z else sj_Priority job in
  stmt (wrapping "river: enqueue send") (fun s =>
    (Ok tt, set_log (fun l => l ++ [AJobSend {| sj_EmailID := sj_EmailID job; sj_TrackingID := sj_TrackingID job;
                                               sj_AdapterID := sj_AdapterID job; sj_Priority := priority |}]) s)).

Definition EnqueueWebhook (job : WebhookJob) : M Sys unit :=
  stmt (wrapping "river: enqueue webhook") (fun s => (Ok tt, set_log (fun l => l ++ [AJobWebhook job]) s)).
End Queue.

(** * Theorems *)

(** What a statement can do, whatever the schedule. *)
Lemma stmt_cases {A} wrap (f : Sys -> Res A * Sys) s r s' :
  stmt wrap f s = (r, s') ->
  exists fs, let s0 := set_faults (fun _ => fs) s in
  (r, s') = f s0 \/ (exists m, r = Err (wrap (EMsg m)) /\ s' = s0) \/
  (exists m, r = Err (wrap (EMsg m)) /\ s' = (f s0).2).
Proof.
  unfold stmt. intros E. destruct (sys_faults s) as [|[|e|e] fs] eqn:F.
  - exists []. left. rewrite <- E. destruct s; simpl in *; by subst.
  - exists fs. by left.
  - exists fs. right. left. exists e. by simplify_eq.
  - exists fs. right. right. exists e. by simplify_eq.
Qed.

(** Without faults a statement runs. *)
Lemma no_faults_stmt {A} wrap (f : Sys -> Res A * Sys) s : sys_faults s = [] -> stmt wrap f s = f s.
Proof. intros E. unfold stmt. by rewrite E. Qed.

(** A view that neither the fault schedule nor the statement changes. *)
Lemma stmt_frame {A V} (v : Sys -> V) wrap (f : Sys -> Res A * Sys) :
  (forall fs s, v (set_faults (fun _ => fs) s) = v s) -> (forall s, v (f s).2 = v s) ->
  preserves v (stmt wrap f).
Proof.
  intros Hf Hs s. destruct (stmt wrap f s) as [r s'] eqn:E. simpl.
  apply stmt_cases in E as (fs & [E|[(e & -> & ->)|(e & -> & ->)]]).
  - replace s' with (f (set_faults (fun _ => fs) s)).2 by (by rewrite <- E). by rewrite Hs, Hf.
  - apply Hf.
  - by rewrite Hs, Hf.
Qed.

Definition status_of (s : Sys) : gmap uuid EmailStatus := em_Status <$> sys_emails s.

(** Discharges [preserves v (repository operation)] for a view made of fields. *)
Ltac repo_frame :=
  intros; first [apply stmt_frame; [done|intros ?; simpl; repeat case_match; done] | intros ?; done].

#[export] Instance EmailRepo_laws `{GoStd} : EmailStoreLaws EmailRepo status_of.
Proof.
  split; simpl.
  - intros id new old w w' (fs & [E|[(e & [=] & _)|(e & [=] & _)]])%stmt_cases.
    simpl in E. destruct (sys_emails w !! id) as [e|] eqn:El; [|done].
    case_bool_decide; simplify_eq. unfold status_of. simpl. by rewrite lookup_fmap, El, fmap_insert.
  - intros id new old w e w' (fs & E)%stmt_cases. simpl in E. unfold status_of.
    destruct (sys_emails w !! id) as [em|] eqn:El; [case_bool_decide|];
      destruct E as [E|[(x & ? & ->)|(x & ? & ->)]]; simplify_eq; simpl; auto; try (left; done).
    right. rewrite lookup_fmap, El, fmap_insert. simpl. subst. split; [|done]. done.
  - repo_frame.
  - repo_frame.
  - repo_frame.
  - intros id n t. apply stmt_frame; [done|]. intros s. unfold status_of. simpl.
    destruct (sys_emails s !! id) eqn:E; [|done]. simpl. rewrite fmap_insert. simpl.
    apply insert_id. by rewrite lookup_fmap, E.
  - intros id n. apply stmt_frame; [done|]. intros s. unfold status_of. simpl.
    destruct (sys_emails s !! id) eqn:E; [|done]. simpl. rewrite fmap_insert. simpl.
    apply insert_id. by rewrite lookup_fmap, E.
  - repo_frame.
Qed.

(** Every repository operation leaves the fields it does not write alone. *)
Definition effects (s : Sys) : list Action := sys_log s.

#[export] Instance EmailRepo_log `{GoStd} : EmailStoreFrame EmailRepo effects.
Proof. split; repo_frame. Qed.
#[export] Instance SuppressionRepo_log `{GoStd} : SuppressionStoreFrame SuppressionRepo effects.
Proof. split; repo_frame. Qed.
#[export] Instance SuppressionRepo_status `{GoStd} : SuppressionStoreFrame SuppressionRepo status_of.
Proof. split; repo_frame. Qed.
#[export] Instance sys_runtime_log : RuntimeFrame sys_runtime effects.
Proof. by split. Qed.
#[export] Instance sys_runtime_status : RuntimeFrame sys_runtime status_of.
Proof. by split. Qed.

Section Views.
Context `{GoStd}.

(** The addresses some row names. *)
Definition suppression_emails (s : Sys) : gset string :=
  dom (sys_global s) ∪ set_map snd (dom (sys_workspace s)).

(** The suppression table of a workspace and the opt-outs of a template type,
    as the evaluator sees them. *)
Definition suppression_table (wsID : uuid) (s : Sys) : gmap string string :=
  map_imap (fun e _ => suppression_reason s wsID e) (gset_to_gmap tt (suppression_emails s)).

Definition optout_set (wsID ttID : uuid) (s : Sys) : gset string :=
  filter (fun e => opted_out s wsID ttID e = true) (set_map snd (dom (sys_subs s))).

Lemma suppression_table_lookup wsID s e :
  suppression_table wsID s !! e = suppression_reason s wsID e.
Proof.
  unfold suppression_table. rewrite map_lookup_imap.
  destruct (decide (e ∈ suppression_emails s)) as [He|He].
  - by rewrite (proj2 (lookup_gset_to_gmap_Some _ _ _ _)) by done.
  - rewrite (proj2 (lookup_gset_to_gmap_None _ _ _)) by done. simpl.
    unfold suppression_emails in He. apply not_elem_of_union in He as [Hg Hw].
    unfold suppression_reason, active_global, active_workspace.
    rewrite (not_elem_of_dom_1 _ _ Hg).
    destruct (sys_workspace s !! (wsID, e)) eqn:E; [|done].
    exfalso. apply Hw. apply elem_of_map. exists (wsID, e). split; [done|]. by apply elem_of_dom_2 in E.
Qed.

Lemma optout_set_spec wsID ttID s e : e ∈ optout_set wsID ttID s <-> opted_out s wsID ttID e = true.
Proof.
  unfold optout_set. rewrite elem_of_filter. split; [tauto|]. intros Ho. split; [done|].
  unfold opted_out in Ho. destruct (sys_subs s !! (wsID, ttID, e)) eqn:E; [|done].
  apply elem_of_map. exists (wsID, ttID, e). split; [done|]. by apply elem_of_dom_2 in E.
Qed.

Lemma foldr_status_lookup s wsID emails e :
  foldr (fun email m => <[email := suppression_status s wsID email]> m)
    (∅ : gmap string SuppressionStatus) emails !! e =
  if decide (e ∈ emails) then Some (suppression_status s wsID e) else None.
Proof.
  induction emails as [|x l IH]; simpl; [by rewrite lookup_empty|].
  destruct (decide (e = x)) as [->|Hne].
  - rewrite lookup_insert_eq. by rewrite decide_True by set_solver.
  - rewrite lookup_insert_ne by done. rewrite IH. repeat case_decide; set_solver.
Qed.

(** The repositories implement what the evaluator assumes of its stores. *)
#[export] Instance SuppressionBatchRepo_table wsID :
  SuppressionTable SuppressionBatchRepo wsID (suppression_table wsID).
Proof.
  split. simpl. intros emails w m w' E a. rewrite suppression_table_lookup.
  revert E. unfold CheckBatch, bind, GetSuppressionStatuses.
  destruct emails as [|e0 l]; [intros [= <- _]; by rewrite lookup_omap, lookup_empty|].
  destruct (stmt _ _ w) as [[st|] w1] eqn:Es; [|done]. intros [= <- <-].
  apply stmt_cases in Es as (fs & [Es|[(x & [=] & _)|(x & [=] & _)]]). simplify_eq.
  pose proof (foldr_status_lookup (set_faults (fun _ => fs) w) wsID (e0 :: l) a) as Hf.
  simpl in Hf. rewrite lookup_omap, Hf. case_decide; [|done]. simpl.
  change (suppression_status (set_faults (fun _ => fs) w) wsID a) with (suppression_status w wsID a).
  unfold suppression_status. by destruct (suppression_reason w wsID a).
Qed.

#[export] Instance SubscriptionRepo_table wsID ttID :
  OptOutTable SuppressionBatchRepo SubscriptionRepo wsID ttID (optout_set wsID ttID).
Proof.
  split; simpl.
  - intros emails w m w' E a. rewrite optout_set_spec. revert E. unfold BatchCheckOptOut.
    destruct emails as [|e0 l]; [intros [= <- _]; set_solver|].
    intros (fs & [Es|[(x & [=] & _)|(x & [=] & _)]])%stmt_cases.
    assert (Em : m = list_to_set (List.filter (opted_out w wsID ttID) (e0 :: l))) by (injection Es as Es' _; exact Es').
    by rewrite Em, elem_of_list_to_set, elem_of_filter_b.
  - intros emails. unfold CheckBatch, GetSuppressionStatuses. preserves_tac. repo_frame.
Qed.
End Views.

(** an active suppression for a serious reason is never weakened: whatever
    row is added and whatever row is removed for unsubscribing, at any point of
    any fault schedule, a workspace suppression that is active with a reason
    other than unsubscribe stays as it is. *)
Theorem workspace_suppression_sticky `{GoStd} s wsID email row entry ws2 email2 reason :
  active_workspace s wsID email = Some row -> sw_Reason row <> SuppressionUnsubscribe ->
  active_workspace (AddWorkspace entry s).2 wsID email = Some row /\
  active_workspace (RemoveWorkspaceSuppression ws2 email2 reason s).2 wsID email = Some row.
Proof.
  intros Ha Hr. assert (Hl : sys_workspace s !! (wsID, email) = Some row /\ sw_RemovedAt row = None).
  { unfold active_workspace in Ha. repeat case_match; simplify_eq. by bools. }
  destruct Hl as [Hl Hn].
  assert (Hkeep : forall s', sys_workspace s' !! (wsID, email) = Some row ->
            active_workspace s' wsID email = Some row).
  { intros s' Hs'. unfold active_workspace. by rewrite Hs', bool_decide_eq_true_2. }
  split; apply Hkeep.
  - destruct (AddWorkspace entry s) as [r s'] eqn:E. simpl.
    apply stmt_cases in E as (fs & E). cbv zeta in E.
    set (s0 := set_faults (fun _ => fs) s) in *.
    set (u := workspace_upsert _ _ _) in *.
    assert (Hf : sys_workspace (match u with
        | Some row => (Ok tt, set_workspace <[(sw_WorkspaceID entry, sw_Email entry) := row]> s0)
        | None => (Ok tt, s0) end).2 !! (wsID, email) = Some row).
    { destruct u as [row'|] eqn:Eu; [|done]. simpl.
      destruct (decide ((sw_WorkspaceID entry, sw_Email entry) = (wsID, email))) as [Ek|Ek];
        [exfalso|by rewrite lookup_insert_ne by done].
      assert (Eu' : workspace_upsert (sys_clock s) entry (Some row) = Some row')
        by (rewrite <- Hl, <- Ek; exact Eu).
      unfold workspace_upsert in Eu'. by rewrite Hn, (bool_decide_eq_false_2 (sw_Reason row = _)) in Eu'. }
    destruct E as [E|[(x & _ & ->)|(x & _ & ->)]]; [|done|done].
    by rewrite <- E in Hf.
  - destruct (RemoveWorkspaceSuppression ws2 email2 reason s) as [r s'] eqn:E. simpl.
    apply stmt_cases in E as (fs & E). cbv zeta in E.
    set (s0 := set_faults (fun _ => fs) s) in *.
    match type of E with _ = ?f \/ _ => assert (Hf : sys_workspace f.2 !! (wsID, email) = Some row) end.
    { destruct (active_workspace s0 ws2 email2) as [r2|] eqn:E2; [|done].
      case_bool_decide as Hu; [|done]. simpl.
      destruct (decide ((ws2, email2) = (wsID, email))) as [[= -> ->]|Ek].
      - change (active_workspace s0 wsID email) with (active_workspace s wsID email) in E2. congruence.
      - by rewrite lookup_insert_ne by done. }
    destruct E as [E|[(x & _ & ->)|(x & _ & ->)]]; [|done|done].
    by rewrite <- E in Hf.
Qed.

(** An empty database, for the witnesses. *)
Definition empty_sys : Sys :=
  mkSys ∅ ∅ [] ∅ ∅ ∅ ∅ ∅ 1000 1 [] [].

Definition sample_email (status : EmailStatus) (recipient : string) : Email :=
  {| em_ID := 42; em_TrackingID := "trk_1"; em_ExternalID := None; em_WorkspaceID := 7;
     em_TenantID := 3; em_TemplateID := 11; em_TemplateVersionID := 12;
     em_TemplateTypeSlug := "welcome"; em_TemplateRef := "acme:main:welcome";
     em_RecipientEmail := recipient; em_CC := []; em_BCC := []; em_FromEmail := "no-reply@acme.io";
     em_FromName := "Acme"; em_ReplyTo := None; em_SubjectRendered := "Hi"; em_Locale := None;
     em_Status := status; em_AdapterID := 9; em_SenderIdentityID := None;
     em_ProviderMessageID := match status with
                             | StatusQueued | StatusProcessing => None | _ => Some "ses-1" end;
     em_VariablesSnapshot := ∅;
     em_InjectorsSnapshot := ∅; em_SourceType := EmailSourceTypeDataPlaneAPIKey;
     em_SourceActorMemberID := None; em_SourceActorEmail := None; em_BodyMJML := "";
     em_RetryCount := 0; em_OpenTrackingEnabled := true; em_MaxRetries := 5; em_NextRetryAt := None;
     em_CreatedAt := 0; em_UpdatedAt := 0 |}.

Definition sample_type : TemplateType :=
  {| tt_ID := 20; tt_WorkspaceID := Some 8%N; tt_Slug := "welcome"; tt_Name := "Welcome"; tt_Description := None;
     tt_AdapterID := None; tt_SenderIdentityID := None; tt_VariableSchema := None; tt_TestRecipientMode := None;
     tt_TestRecipientAddresses := []; tt_OwnerScope := ""; tt_InheritedFromSystem := false; tt_IsBulk := false;
     tt_CreatedAt := 0; tt_UpdatedAt := 0; tt_DeletedAt := None |}.

Definition sample_workspace_row (reason : SuppressionReason) : SuppressionWorkspace :=
  {| sw_ID := 5; sw_WorkspaceID := 7; sw_Email := "a@x.io"; sw_Reason := reason;
     sw_SourceEmailID := None; sw_Notes := None; sw_CreatedAt := 10; sw_RemovedAt := None;
     sw_RemovedBy := None; sw_RemovalReason := None |}.

Lemma workspace_suppression_sticky_witness :
  let G := ascii_std in
  let s := set_workspace <[(7%N, "a@x.io") := sample_workspace_row SuppressionComplaint]> empty_sys in
  active_workspace (AddWorkspace (sample_workspace_row SuppressionUnsubscribe) s).2 7 "a@x.io"
    = Some (sample_workspace_row SuppressionComplaint).
Proof.
  intros G s.
  apply (workspace_suppression_sticky s 7 "a@x.io" (sample_workspace_row SuppressionComplaint)
           (sample_workspace_row SuppressionUnsubscribe) 7 "a@x.io" "resubscribe").
  - vm_compute. reflexivity.
  - discriminate.
Defined.
