(* ===== verification/Database.v ===== *)
(** * The control-plane database ([adapter/postgres/db.go], [adapter/postgres/pagination.go])

    A database of tables of any type [T] with the process clock, its identifier
    and random sources and a schedule of failures: statements, transactions,
    the classification of constraint violations and the keyset pagination the
    repositories of the management API share. *)
From stdpp Require Import base gmap strings list sorting.
From Stdlib Require Import ZArith NArith Ascii String Lia.
From S2P Require Import Prelude GoMonad Domain Ports Token.
From S2P Require Import Suppression Postgres.

Record DB (T : Type) := mkDB {
  db_tables : T;
  db_clock : gotime;
  db_ids : N;
  (** what [crypto/rand] will produce *)
  db_entropy : list string;
  db_faults : list Fault;
}.
Arguments mkDB {T}. Arguments db_tables {T}. Arguments db_clock {T}.
Arguments db_ids {T}. Arguments db_entropy {T}. Arguments db_faults {T}.

(** ** Statements and transactions *)

Section Statements.
Context {T : Type}.

Definition set_tables (f : T -> T) (s : DB T) : DB T :=
  mkDB (f (db_tables s)) (db_clock s) (db_ids s) (db_entropy s) (db_faults s).
Definition with_faults (fs : list Fault) (s : DB T) : DB T :=
  mkDB (db_tables s) (db_clock s) (db_ids s) (db_entropy s) fs.

Definition db_runtime : Runtime (DB T) := {|
  rt_NewV7 := fun s => (db_ids s, mkDB (db_tables s) (db_clock s) (N.succ (db_ids s)) (db_entropy s) (db_faults s));
  rt_Now := fun s => (db_clock s, mkDB (db_tables s) (Z.succ (db_clock s)) (db_ids s) (db_entropy s) (db_faults s));
|}.

(** [rand.Read]: the next bytes of the source, or its failure. *)
Definition rand_Read : M (DB T) string := fun s =>
  match db_entropy s with
  | [] => (Err (EMsg "crypto/rand: unavailable"), s)
  | b :: r => (Ok b, mkDB (db_tables s) (db_clock s) (db_ids s) r (db_faults s))
  end.

(** One statement, with its effect on the tables at the database's time. *)
Definition apply_stmt {A} (f : gotime -> T -> Res A * T) (s : DB T) : Res A * DB T :=
  let '(r, t) := f (db_clock s) (db_tables s) in (r, set_tables (fun _ => t) s).

Definition exec {A} (wrap : error -> error) (f : gotime -> T -> Res A * T) : M (DB T) A := fun s =>
  match db_faults s with
  | [] => apply_stmt f s
  | FaultNone :: r => apply_stmt f (with_faults r s)
  | FaultBefore msg :: r => (Err (wrap (EMsg msg)), with_faults r s)
  | FaultAfter msg :: r => (Err (wrap (EMsg msg)), (apply_stmt f (with_faults r s)).2)
  end.

(** A statement that only reads. *)
Definition query {A} (wrap : error -> error) (f : T -> Res A) : M (DB T) A :=
  exec wrap (fun _ t => (f t, t)).

(** [BeginTx], the body, [Commit], and the deferred [Rollback]: whatever fails
    before the commit leaves the tables as they were; a commit whose reply is
    lost has been applied. *)
Definition rollback (to : DB T) (s : DB T) : DB T := set_tables (fun _ => db_tables to) s.

Definition transaction {A} (wrap_begin wrap_commit : error -> error) (body : M (DB T) A) : M (DB T) A := fun s =>
  match exec wrap_begin (fun _ t => (Ok tt, t)) s with
  | (Err e, s1) => (Err e, s1)
  | (Ok _, s1) =>
      match body s1 with
      | (Err e, s2) => (Err e, rollback s1 s2)
      | (Ok a, s2) =>
          match db_faults s2 with
          | FaultBefore msg :: r => (Err (wrap_commit (EMsg msg)), rollback s1 (with_faults r s2))
          | FaultAfter msg :: r => (Err (wrap_commit (EMsg msg)), with_faults r s2)
          | FaultNone :: r => (Ok a, with_faults r s2)
          | [] => (Ok a, s2)
          end
      end
  end.

Definition in_tx {A} (begin_msg commit_msg : string) (body : M (DB T) A) : M (DB T) A :=
  transaction (wrapping begin_msg) (wrapping commit_msg) body.
End Statements.

#[global] Arguments exec : simpl never.
#[global] Arguments query : simpl never.
#[global] Arguments transaction : simpl never.
#[global] Arguments in_tx : simpl never.

(** ** Constraint violations

    The errors of PostgreSQL [classifyPgError] recognises, with the detail or
    message PostgreSQL reports. *)
Inductive PgError :=
| UniqueViolation (detail : string)
| ForeignKeyViolation (detail : string)
| NotNullViolation (column : string)
| CheckViolation (constraint message : string)
| PgOther (message : string).

Definition Conflict (msg : string) : error := EApp 409 msg.
Definition BadRequest (msg : string) : error := EApp 400 msg.
Definition Validation (msg : string) : error := EApp 422 msg.

(** [None] when the error is not one of the classified ones. *)
Definition classifyPgError (e : PgError) : option error :=
  match e with
  | UniqueViolation detail => Some (Conflict detail)
  | ForeignKeyViolation detail => Some (BadRequest ("referenced resource does not exist: " +:+ detail))
  | NotNullViolation column => Some (BadRequest ("missing required field: " +:+ column))
  | CheckViolation constraint message =>
      Some (if bool_decide (constraint = "workspaces_code_format") || bool_decide (constraint = "tenants_code_format")
            then Validation "invalid code format"
            else if bool_decide (message = "") then Validation "check constraint violated"
            else Validation message)
  | PgOther _ => None
  end.

(** The reaction to a failed write: the classified error, or the wrapped one. *)
Definition write_error (msg : string) (e : PgError) : error :=
  match classifyPgError e with
  | Some appErr => appErr
  | None => wrapping msg (EMsg (match e with PgOther m => m | _ => "" end))
  end.

(** An operation of a repository over a part [U] of the tables. *)
Definition focus {T U A} (get : T -> U) (put : U -> T -> T) (m : M (DB U) A) : M (DB T) A := fun s =>
  let '(r, u) := m (mkDB (get (db_tables s)) (db_clock s) (db_ids s) (db_entropy s) (db_faults s)) in
  (r, mkDB (put (db_tables u) (db_tables s)) (db_clock u) (db_ids u) (db_entropy u) (db_faults u)).

(** *** Statements over tables of rows *)

(** [SELECT ... WHERE p]: the rows of a table. *)
Definition rows {A} (p : A -> bool) (m : gmap uuid A) : list A := List.filter p (map_to_list m).*2.

Definition first_row {A} (missing : error) (l : list A) : Res A :=
  match l with x :: _ => Ok x | [] => Err missing end.

Definition quoted (s : string) : string := dquote +:+ s +:+ dquote.
Definition duplicate (constraint : string) : PgError :=
  UniqueViolation ("duplicate key value violates unique constraint " +:+ quoted constraint).
Definition check_failed (table constraint : string) : PgError :=
  CheckViolation constraint ("new row for relation " +:+ quoted table +:+ " violates check constraint " +:+ quoted constraint).
Definition dangling (table : string) : PgError := ForeignKeyViolation ("Key is not present in table " +:+ quoted table +:+ ".").

(** The first violation of a list of named tests. *)
Fixpoint violation (tests : list (bool * PgError)) : option PgError :=
  match tests with
  | [] => None
  | (ok, e) :: r => if ok then violation r else Some e
  end.

(** A write: the new tables and the value returned, or the violation. *)
Definition write_stmt {T A} (msg : string) (f : gotime -> T -> PgError + (A * T)) : M (DB T) A :=
  exec (wrapping msg) (fun now t =>
    match f now t with
    | inl e => (Err (write_error msg e), t)
    | inr (a, t') => (Ok a, t')
    end).

(** [UPDATE]/[DELETE ... WHERE p], with the error for no row. *)
Definition update_stmt {T A} (msg : string) (missing : error) (p : T -> option A)
    (upd : gotime -> A -> T -> T) : M (DB T) unit :=
  exec (wrapping msg) (fun now t =>
    match p t with
    | Some a => (Ok tt, upd now a t)
    | None => (Err missing, t)
    end).

(** ** Pagination *)

Definition defaultLimit : Z := 25.
Definition maxLimit : Z := 100.

Definition NormalizeLimit (limit : Z) : Z :=
  if (limit <=? 0)%Z then defaultLimit else if (maxLimit <? limit)%Z then maxLimit else limit.

(** [n] bytes of a number, the most significant first. *)
Fixpoint be_bytes (n : nat) (x : N) : string :=
  match n with
  | O => EmptyString
  | S m => String (ascii_of_N (N.shiftr x (8 * N.of_nat m) mod 256)) (be_bytes m x)
  end.

Fixpoint be_value_from (acc : N) (s : string) : N :=
  match s with
  | EmptyString => acc
  | String c r => be_value_from (acc * 256 + N_of_ascii c) r
  end.
Definition be_value (s : string) : N := be_value_from 0 s.

Section Pagination.
Context `{Codec}.

Definition EncodeCursor (id : uuid) : string := b64_encode (be_bytes 16 id).

Definition DecodeCursor (cursor : string) : Res uuid :=
  match b64_decode cursor with
  | Err e => Err (EWrap "invalid cursor: " e "")
  | Ok b =>
      if (String.length b =? 16)%nat then Ok (be_value b)
      else Err (EMsg ("invalid cursor: expected 16 bytes, got " +:+ Itoa (Z.of_nat (String.length b))))
  end.

Definition ApplyPagination (opts : ListOptions) : Res (Z * option uuid) :=
  let limit := (if (lo_Limit opts <=? 0)%Z then defaultLimit else lo_Limit opts) in
  let limit := (if (maxLimit <? limit)%Z then maxLimit else limit) in
  if bool_decide (lo_Cursor opts = "") then Ok (limit, None)
  else match DecodeCursor (lo_Cursor opts) with
       | Err e => Err e
       | Ok id => Ok (limit, Some id)
       end.

(** [uint64(t.UnixNano())] and back: the two's complement of 64 bits. *)
Definition EncodeTimeCursor (t : gotime) (id : uuid) : string :=
  b64_encode (be_bytes 8 (Z.to_N (t mod 2 ^ 64)) +:+ be_bytes 16 id).

Definition DecodeTimeCursor (cursor : string) : Res (gotime * uuid) :=
  match b64_decode cursor with
  | Err e => Err (EWrap "invalid time cursor: " e "")
  | Ok b =>
      if (String.length b =? 24)%nat then
        let nanos := wrap64 (Z.of_N (be_value (String.substring 0 8 b))) in
        Ok (nanos, be_value (String.substring 8 16 b))
      else Err (EMsg ("invalid time cursor: expected 24 bytes, got " +:+ Itoa (Z.of_nat (String.length b))))
  end.

(** [WHERE id < @after_id ORDER BY id DESC LIMIT @limit + 1], then the cut to
    the page and the cursor of its last row: what every list statement of the
    repositories does. [key] is the id column. *)
Definition newer {A} (key : A -> uuid) (a b : A) : Prop := (key b <= key a)%N.
#[local] Instance newer_dec {A} (key : A -> uuid) : RelDecision (newer key).
Proof. intros a b. unfold newer. apply _. Defined.

Definition newest_first {A} (key : A -> uuid) (rows : list A) : list A := merge_sort (newer key) rows.

Definition after {A} (key : A -> uuid) (afterID : option uuid) (rows : list A) : list A :=
  match afterID with
  | Some id => List.filter (fun a => (key a <? id)%N) rows
  | None => rows
  end.

Definition page {A} (key : A -> uuid) (rows : list A) (limit : Z) (afterID : option uuid) : list A * string :=
  let got := take (Z.to_nat (limit + 1)) (newest_first key (after key afterID rows)) in
  if (limit <? Z.of_nat (List.length got))%Z then
    let cut := take (Z.to_nat limit) got in
    (cut, match last cut with Some a => EncodeCursor (key a) | None => "" end)
  else (got, "").
End Pagination.

(** * Theorems *)

(** ** Statements and transactions *)

Section StatementRules.
Context {T : Type}.

Lemma exec_cases {A} wrap (f : gotime -> T -> Res A * T) s r s' :
  exec wrap f s = (r, s') ->
  (is_ok r = false /\ db_tables s' = db_tables s) \/
  (exists r' t', f (db_clock s) (db_tables s) = (r', t') /\ db_tables s' = t' /\ (r = r' \/ is_ok r = false)).
Proof.
  unfold exec, apply_stmt. destruct (db_faults s) as [| [|m|m] fs]; simpl;
    try destruct (f _ _) as [r' t'] eqn:E; intros [= <- <-]; [right..|by left|right]; exists r', t'; auto.
Qed.

Lemma exec_Ok {A} wrap (f : gotime -> T -> Res A * T) s a s' :
  exec wrap f s = (Ok a, s') -> f (db_clock s) (db_tables s) = (Ok a, db_tables s').
Proof.
  intros [ [? _]|(r' & t' & E & <- & [<-|?])]%exec_cases; done.
Qed.

Lemma query_Ok {A} wrap (f : T -> Res A) s a s' :
  query wrap f s = (Ok a, s') -> f (db_tables s) = Ok a /\ db_tables s' = db_tables s.
Proof. unfold query. intros E%exec_Ok. by injection E as -> <-. Qed.

Lemma query_frame {A} wrap (f : T -> Res A) : preserves db_tables (query wrap f).
Proof.
  intros s. destruct (query wrap f s) as [r s'] eqn:E.
  apply exec_cases in E as [ [_ ?]|(r' & t' & [= _ <-] & ? & _)]; done.
Qed.

Lemma rand_frame : preserves db_tables (rand_Read (T:=T)).
Proof. intros s. unfold rand_Read. by destruct (db_entropy s). Qed.
Lemma db_now_frame : preserves db_tables (Now (db_runtime (T:=T))).
Proof. by intros s. Qed.
Lemma db_id_frame : preserves db_tables (NewV7 (db_runtime (T:=T))).
Proof. by intros s. Qed.

(** The outcomes of a transaction: nothing happened and an error, or the body
    ran to its end (with the reply of the commit lost, at worst). *)
Lemma transaction_cases {A} wb wc (body : M (DB T) A) s r s' :
  transaction wb wc body s = (r, s') ->
  (is_ok r = false /\ db_tables s' = db_tables s) \/
  (exists s1 a s2, db_tables s1 = db_tables s /\ body s1 = (Ok a, s2) /\ db_tables s' = db_tables s2 /\
     (r = Ok a \/ is_ok r = false)).
Proof.
  unfold transaction. pose proof (exec_cases wb (fun _ (t : T) => (Ok tt, t)) s) as Hb.
  destruct (exec _ _ s) as [[[]|e] s1]; specialize (Hb _ _ eq_refl);
    assert (Ht : db_tables s1 = db_tables s) by (destruct Hb as [ [_ ?]|(? & ? & [= _ <-] & ? & _)]; done);
    clear Hb; [|intros [= <- <-]; by left].
  destruct (body s1) as [[a|e] s2] eqn:Eb; [|intros [= <- <-]; by left].
  assert (Hran : forall r s', (r = Ok a \/ is_ok r = false) -> db_tables s' = db_tables s2 ->
    exists s1 a s2, db_tables s1 = db_tables s /\ body s1 = (Ok a, s2) /\ db_tables s' = db_tables s2 /\
      (r = Ok a \/ is_ok r = false)) by (intros; exists s1, a, s2; auto).
  destruct (db_faults s2) as [| [|m|m] fs]; intros [= <- <-]; [right; by eauto..|by left|right; by eauto].
Qed.

Lemma in_tx_cases {A} bm cm (body : M (DB T) A) s r s' :
  in_tx bm cm body s = (r, s') ->
  (is_ok r = false /\ db_tables s' = db_tables s) \/
  (exists s1 a s2, db_tables s1 = db_tables s /\ body s1 = (Ok a, s2) /\ db_tables s' = db_tables s2 /\
     (r = Ok a \/ is_ok r = false)).
Proof. apply transaction_cases. Qed.
End StatementRules.

#[export] Hint Resolve query_frame rand_frame db_now_frame db_id_frame : senda.

(** *** A database that does not fail *)

Section Calm.
Context {T : Type}.
Implicit Types (s : DB T).

Lemma exec_calm {A} wrap (f : gotime -> T -> Res A * T) s : db_faults s = [] ->
  exec wrap f s = ((f (db_clock s) (db_tables s)).1, set_tables (fun _ => (f (db_clock s) (db_tables s)).2) s).
Proof. intros E. unfold exec, apply_stmt. rewrite E. by destruct (f _ _). Qed.

Lemma query_calm {A} wrap (f : T -> Res A) s : db_faults s = [] -> query wrap f s = (f (db_tables s), s).
Proof. intros E. unfold query. rewrite exec_calm by done. by destruct s. Qed.

Lemma in_tx_calm {A} bm cm (body : M (DB T) A) s : db_faults s = [] -> db_faults (body s).2 = [] ->
  in_tx bm cm body s = match body s with (Ok a, s2) => (Ok a, s2) | (Err e, s2) => (Err e, rollback s s2) end.
Proof.
  intros E Eb. unfold in_tx, transaction. rewrite exec_calm by done. simpl.
  replace (set_tables (fun _ => db_tables s) s) with s by by destruct s.
  destruct (body s) as [ [a|e] s2]; simpl in *; by rewrite ?Eb.
Qed.
End Calm.

(** Statements do not move the process clock. *)
Lemma exec_clock {T A} wrap (f : gotime -> T -> Res A * T) : preserves db_clock (exec wrap f).
Proof.
  intros s. unfold exec, apply_stmt. destruct (db_faults s) as [| [|m|m] fs]; simpl; by repeat destruct (f _ _).
Qed.

(** ** Cursors *)

Lemma length_be_bytes n x : String.length (be_bytes n x) = n.
Proof. induction n as [|n IH]; simpl; by rewrite ?IH. Qed.

Lemma be_value_from_bytes n x acc :
  be_value_from acc (be_bytes n x) = (acc * 2 ^ (8 * N.of_nat n) + x mod 2 ^ (8 * N.of_nat n))%N.
Proof.
  revert acc. induction n as [|n IH]; intros acc.
  { simpl. rewrite N.mod_1_r. lia. }
  cbn [be_bytes be_value_from]. rewrite IH.
  rewrite N_ascii_embedding by (apply N.mod_lt; lia). rewrite N.shiftr_div_pow2.
  replace (8 * N.of_nat (S n))%N with (8 + 8 * N.of_nat n)%N by lia.
  rewrite N.pow_add_r. change (2 ^ 8)%N with 256%N. set (p := (2 ^ (8 * N.of_nat n))%N).
  assert (p <> 0)%N by (apply N.pow_nonzero; lia).
  rewrite (N.mul_comm 256 p), N.Div0.mod_mul_r by lia. lia.
Qed.

Lemma be_value_bytes n x : (x < 2 ^ (8 * N.of_nat n))%N -> be_value (be_bytes n x) = x.
Proof. intros Hx. unfold be_value. rewrite be_value_from_bytes, N.mod_small by done. lia. Qed.

(** A [uuid.UUID] has 16 bytes. *)
Definition wf_uuid (id : uuid) : Prop := (id < 2 ^ 128)%N.

Section Cursors.
Context `{Codec} `{!CodecLaws}.

Lemma cursor_roundtrip id : wf_uuid id -> DecodeCursor (EncodeCursor id) = Ok id.
Proof.
  intros Hid. unfold DecodeCursor, EncodeCursor. rewrite b64_roundtrip, length_be_bytes.
  simpl Nat.eqb. cbv iota. by rewrite be_value_bytes.
Qed.

Lemma cursor_nonempty id : EncodeCursor id <> "".
Proof. apply b64_nonempty. done. Qed.

Lemma substring_app (a b : string) n m : String.length a = n -> String.length b = m ->
  String.substring 0 n (a +:+ b) = a /\ String.substring n m (a +:+ b) = b.
Proof.
  intros <- <-. split.
  - induction a as [|c a IH]; simpl; [by destruct b|by rewrite IH].
  - induction a as [|c a IH]; simpl; [|done]. induction b as [|c b IH]; simpl; [done|by rewrite IH].
Qed.

Lemma wrap64_mod t : (- 2 ^ 63 <= t < 2 ^ 63)%Z -> wrap64 (t mod 2 ^ 64) = t.
Proof.
  intros Ht. unfold wrap64. rewrite Zplus_mod_idemp_l, Z.mod_small; lia.
Qed.

Lemma time_cursor_roundtrip t id :
  (- 2 ^ 63 <= t < 2 ^ 63)%Z -> wf_uuid id -> DecodeTimeCursor (EncodeTimeCursor t id) = Ok (t, id).
Proof.
  intros Ht Hid. unfold DecodeTimeCursor, EncodeTimeCursor.
  rewrite b64_roundtrip, length_app_s, !length_be_bytes. simpl Nat.eqb. cbv iota.
  destruct (substring_app (be_bytes 8 (Z.to_N (t mod 2 ^ 64))) (be_bytes 16 id) 8 16) as [-> ->];
    [apply length_be_bytes..|].
  pose proof (Z.mod_pos_bound t (2 ^ 64) ltac:(lia)) as Hm.
  rewrite (be_value_bytes 8), (be_value_bytes 16); [|done|change (8 * N.of_nat 8)%N with 64%N; lia].
  rewrite Z2N.id by lia. by rewrite wrap64_mod.
Qed.
End Cursors.

(** ** Pages *)

Section Pages.
Context `{Codec} `{!CodecLaws} {A : Type} (key : A -> uuid).
Implicit Types (l rows : list A).

#[local] Instance newer_transitive : Transitive (newer key).
Proof. intros x y z. unfold newer. lia. Qed.
#[local] Instance newer_total : Total (newer key).
Proof. intros x y. unfold newer. lia. Qed.

Lemma newest_first_perm rows : newest_first key rows ≡ₚ rows.
Proof. apply merge_sort_Permutation. Qed.

Lemma newest_first_sorted rows : StronglySorted (newer key) (newest_first key rows).
Proof. apply StronglySorted_merge_sort; apply _. Qed.

Lemma filter_perm (p : A -> bool) l1 l2 : l1 ≡ₚ l2 -> List.filter p l1 ≡ₚ List.filter p l2.
Proof.
  induction 1 as [|x l1 l2 _ IH|x y l|l1 l2 l3 _ IH1 _ IH2]; simpl; [done| | |by etrans].
  - destruct (p x); by rewrite IH.
  - destruct (p x), (p y); by (done || constructor).
Qed.

Lemma filter_sorted (p : A -> bool) l : StronglySorted (newer key) l -> StronglySorted (newer key) (List.filter p l).
Proof.
  induction 1 as [|x l _ IH Hx]; simpl; [constructor|]. destruct (p x); [|done]. constructor; [done|].
  apply Forall_forall. intros y [Hy _]%list_elem_of_In%filter_In. by eapply Forall_forall, list_elem_of_In.
Qed.

(** Distinct keys: a row is determined by its key, and the order is strict. *)
Lemma keys_inj rows x y : NoDup (key <$> rows) -> x ∈ rows -> y ∈ rows -> key x = key y -> x = y.
Proof.
  induction rows as [|z rows IH]; [set_solver|]. simpl. intros [Hz Hn]%NoDup_cons Hx Hy E.
  apply elem_of_cons in Hx as [->|Hx], Hy as [->|Hy]; auto; exfalso; apply Hz.
  - rewrite E. by apply list_elem_of_fmap_2.
  - rewrite <- E. by apply list_elem_of_fmap_2.
Qed.

Lemma newest_first_filter (p : A -> bool) rows :
  NoDup (key <$> rows) -> newest_first key (List.filter p rows) = List.filter p (newest_first key rows).
Proof.
  intros Hn. apply (StronglySorted_unique_strong (newer key)).
  - intros x y Hx Hy Hxy Hyx. apply (keys_inj rows); [done| | |unfold newer in *; lia].
    + rewrite newest_first_perm in Hx. by apply list_elem_of_In, filter_In in Hx as [?%list_elem_of_In _].
    + apply list_elem_of_In, filter_In in Hy as [Hy%list_elem_of_In _]. by rewrite newest_first_perm in Hy.
  - apply newest_first_sorted.
  - apply filter_sorted, newest_first_sorted.
  - rewrite newest_first_perm. apply filter_perm. symmetry. apply newest_first_perm.
Qed.

Lemma strictly_sorted l1 x l2 :
  NoDup (key <$> l1 ++ x :: l2) -> StronglySorted (newer key) (l1 ++ x :: l2) ->
  List.filter (fun a => (key a <? key x)%N) (l1 ++ x :: l2) = l2.
Proof.
  intros Hn Hs. rewrite List.filter_app. simpl. rewrite N.ltb_irrefl.
  assert (Hl1 : List.filter (fun a => (key a <? key x)%N) l1 = []).
  { assert (Hle : forall a, a ∈ l1 -> (key x <= key a)%N).
    { intros a Ha. eapply (StronglySorted_app_1_elem_of _ _ _ _ x Hs Ha). set_solver. }
    clear -Hle. induction l1 as [|a l1 IH]; [done|]. simpl.
    destruct (N.ltb_spec (key a) (key x)) as [Hlt|_]; [|apply IH; set_solver].
    specialize (Hle a ltac:(set_solver)). lia. }
  rewrite Hl1. simpl.
  apply StronglySorted_app in Hs as (_ & _ & [Hx _]%StronglySorted_cons).
  rewrite fmap_app in Hn. apply NoDup_app in Hn as (_ & _ & [Hnx _]%NoDup_cons).
  assert (Hlt : forall a, a ∈ l2 -> (key a < key x)%N).
  { intros a Ha. rewrite Forall_forall in Hx. specialize (Hx a Ha). unfold newer in Hx.
    destruct (decide (key a = key x)) as [E|]; [|lia]. exfalso. apply Hnx. rewrite <- E. by apply list_elem_of_fmap_2. }
  clear -Hlt. induction l2 as [|a l2 IH]; [done|]. simpl.
  rewrite (proj2 (N.ltb_lt _ _)) by (apply Hlt; set_solver). f_equal. apply IH. set_solver.
Qed.

Definition keeps (afterID : option uuid) (a : A) : bool :=
  match afterID with Some id => (key a <? id)%N | None => true end.

Lemma filter_sub (p q : A -> bool) l :
  (forall a, p a = true -> q a = true) -> List.filter p (List.filter q l) = List.filter p l.
Proof.
  intros Hpq. induction l as [|a l IH]; [done|]. simpl. specialize (Hpq a).
  destruct (q a) eqn:Eq; simpl; rewrite IH; [done|]. destruct (p a); [by specialize (Hpq eq_refl)|done].
Qed.

Lemma filter_distinct (p : A -> bool) l : NoDup (key <$> l) -> NoDup (key <$> List.filter p l).
Proof.
  induction l as [|a l IH]; [done|]. simpl. intros [Ha Hn]%NoDup_cons.
  destruct (p a); simpl; [|auto]. apply NoDup_cons. split; [|auto].
  intros (b & Eb & [Hb _]%list_elem_of_In%filter_In)%list_elem_of_fmap. apply Ha. rewrite Eb.
  apply list_elem_of_fmap_2. by apply list_elem_of_In.
Qed.

Lemma after_filter afterID rows : NoDup (key <$> rows) ->
  newest_first key (after key afterID rows) = List.filter (keeps afterID) (newest_first key rows).
Proof.
  intros Hn. destruct afterID as [id|]; simpl; [by apply newest_first_filter|].
  induction (newest_first key rows) as [|a l IH]; [done|]. simpl. by rewrite <- IH.
Qed.

(** The rows after the row [x] of a listing. *)
Lemma after_row afterID rows l1 x l2 : NoDup (key <$> rows) ->
  newest_first key (after key afterID rows) = l1 ++ x :: l2 ->
  x ∈ rows /\ newest_first key (after key (Some (key x)) rows) = l2.
Proof.
  intros Hn E. rewrite after_filter in E by done.
  assert (Hx : x ∈ newest_first key rows /\ keeps afterID x = true).
  { rewrite list_elem_of_In, <- filter_In, E. apply in_elt. }
  destruct Hx as [Hx Hk]. split; [by rewrite newest_first_perm in Hx|].
  rewrite after_filter by done. change (keeps (Some (key x))) with (fun a => (key a <? key x)%N).
  rewrite <- (filter_sub _ (keeps afterID)), E.
  - assert (Hd : NoDup (key <$> newest_first key rows)) by by rewrite newest_first_perm.
    apply strictly_sorted; rewrite <- E; [by apply filter_distinct|apply filter_sorted, newest_first_sorted].
  - intros a Ha. destruct afterID as [id|]; [|done]. simpl in *. rewrite N.ltb_lt in *. lia.
Qed.

(** Walking a listing: the calls of a client that follows the cursors. *)
Fixpoint follow {W} (list_page : ListOptions -> M W (list A * string)) (fuel : nat) (opts : ListOptions)
  : M W (list A) :=
  match fuel with
  | O => fail (EMsg "out of fuel")
  | S fuel =>
      let! (items, cursor) := list_page opts in
      if bool_decide (cursor = "") then ret items
      else let! rest := follow list_page fuel (mkListOptions cursor (lo_Limit opts) (lo_Search opts)) in
           ret (items ++ rest)
  end.

(** A listing that answers its pages in the worlds [I], for one search. *)
Definition answers_page {W} (list_page : ListOptions -> M W (list A * string)) (I : W -> Prop) search rows : Prop :=
  forall opts w limit afterID, I w -> lo_Search opts = search -> ApplyPagination opts = Ok (limit, afterID) ->
    exists w', list_page opts w = (Ok (page key rows limit afterID), w') /\ I w'.

Lemma limit_pos opts limit afterID : ApplyPagination opts = Ok (limit, afterID) -> (0 < limit)%Z.
Proof.
  unfold ApplyPagination, defaultLimit, maxLimit.
  repeat case_match; intros; simplify_eq; lia.
Qed.

Lemma limit_same opts cursor limit afterID :
  ApplyPagination opts = Ok (limit, afterID) -> wf_uuid cursor ->
  ApplyPagination (mkListOptions (EncodeCursor cursor) (lo_Limit opts) (lo_Search opts)) = Ok (limit, Some cursor).
Proof.
  intros E Hc. unfold ApplyPagination in *. simpl. rewrite bool_decide_eq_false_2 by apply cursor_nonempty.
  rewrite cursor_roundtrip by done. case_bool_decide; [by simplify_eq|].
  destruct (DecodeCursor (lo_Cursor opts)); by simplify_eq.
Qed.

(** Fetching one row more than the page tells whether there are more. *)
Lemma take_cut (left : list A) (limit : Z) : (0 < limit)%Z ->
  let got := take (Z.to_nat (limit + 1)) left in
  (limit <? Z.of_nat (List.length got))%Z = false /\ got = left \/
  (limit <? Z.of_nat (List.length got))%Z = true /\
  exists l1 x l2, left = l1 ++ x :: l2 /\ take (Z.to_nat limit) got = l1 ++ [x].
Proof.
  intros Hpos got. unfold got. rewrite length_take. destruct (_ <? _)%Z eqn:El; [right|left]; (split; [done|]).
  - apply Z.ltb_lt in El. destruct (left !! pred (Z.to_nat limit)) as [x|] eqn:Ex; [|apply lookup_ge_None in Ex; lia].
    exists (take (pred (Z.to_nat limit)) left), x, (drop (Z.to_nat limit) left).
    assert (HS : S (pred (Z.to_nat limit)) = Z.to_nat limit) by lia. split.
    + rewrite <- HS. by rewrite take_drop_middle.
    + rewrite take_take, (Nat.min_l (Z.to_nat limit)) by lia. by rewrite <- (take_S_r _ _ _ Ex), HS.
  - apply Z.ltb_ge in El. rewrite take_ge; [done|lia].
Qed.

(** A page is all that is left, or [limit] rows and the cursor of the last. *)
Lemma page_cut rows limit afterID : (0 < limit)%Z ->
  let left := newest_first key (after key afterID rows) in
  page key rows limit afterID = (left, "") \/
  exists l1 x l2, left = l1 ++ x :: l2 /\ page key rows limit afterID = (l1 ++ [x], EncodeCursor (key x)).
Proof.
  intros Hpos left. unfold page. fold left.
  destruct (take_cut left limit Hpos) as [ [-> ->]|(-> & l1 & x & l2 & El & ->)]; [by left|right].
  exists l1, x, l2. by rewrite last_snoc.
Qed.

(** Following the cursors from any point gives exactly the rest of the rows. *)
Lemma follow_rest {W} (list_page : ListOptions -> M W (list A * string)) I search rows :
  answers_page list_page I search rows -> NoDup (key <$> rows) -> Forall (fun a => wf_uuid (key a)) rows ->
  forall fuel opts limit afterID w,
    let left := newest_first key (after key afterID rows) in
    I w -> lo_Search opts = search -> ApplyPagination opts = Ok (limit, afterID) -> (List.length left < fuel)%nat ->
    exists w', follow list_page fuel opts w = (Ok left, w') /\ I w'.
Proof.
  intros Hpage Hn Hwf. induction fuel as [|fuel IH]; intros opts limit afterID w left Hw Hs Ha Hf; [lia|].
  destruct (Hpage opts w limit afterID Hw Hs Ha) as (w1 & E1 & Hw1).
  simpl follow. unfold bind at 1. rewrite E1.
  destruct (page_cut rows limit afterID (limit_pos _ _ _ Ha)) as [->|(l1 & x & l2 & El & ->)].
  { by exists w1. }
  rewrite bool_decide_eq_false_2 by apply cursor_nonempty.
  pose proof (after_row _ _ _ _ _ Hn El) as [Hx El2].
  rewrite Forall_forall in Hwf. specialize (Hwf x Hx).
  unfold left in *. rewrite El in *.
  destruct (IH (mkListOptions (EncodeCursor (key x)) (lo_Limit opts) (lo_Search opts)) _ _ w1 Hw1 Hs
              (limit_same _ _ _ _ Ha Hwf)) as (w2 & E2 & Hw2).
  { rewrite El2. rewrite length_app in Hf. simpl in Hf. lia. }
  rewrite El2 in E2. exists w2. unfold bind. rewrite E2. unfold ret. by rewrite <- app_assoc.
Qed.

Lemma follow_all {W} (list_page : ListOptions -> M W (list A * string)) I rows limit search w :
  answers_page list_page I search rows -> NoDup (key <$> rows) -> Forall (fun a => wf_uuid (key a)) rows -> I w ->
  exists w', follow list_page (S (List.length rows)) (mkListOptions "" limit search) w
             = (Ok (newest_first key rows), w') /\ I w'.
Proof.
  intros Hp Hn Hf Hw.
  destruct (ApplyPagination (mkListOptions "" limit search)) as [[lim afterID]|e] eqn:Ea; [|done].
  assert (afterID = None) as -> by (unfold ApplyPagination in Ea; simpl in Ea; by simplify_eq).
  apply (follow_rest list_page I search rows Hp Hn Hf _ (mkListOptions "" limit search) lim None w Hw eq_refl Ea). simpl.
  rewrite newest_first_perm. lia.
Qed.
End Pages.

(** ** Rows of a table *)

Lemma elem_of_rows {A} (p : A -> bool) (m : gmap uuid A) a :
  a ∈ rows p m <-> (exists id, m !! id = Some a) /\ p a = true.
Proof.
  unfold rows. rewrite list_elem_of_In, filter_In, <- list_elem_of_In, list_elem_of_fmap.
  split; intros [Ha Hp]; (split; [|done]).
  - destruct Ha as ([id b] & -> & Hb%elem_of_map_to_list). by exists id.
  - destruct Ha as [id Hid]. exists (id, a). by rewrite elem_of_map_to_list.
Qed.

Lemma rows_nil {A} (p : A -> bool) (m : gmap uuid A) :
  rows p m = [] <-> forall id a, m !! id = Some a -> p a = false.
Proof.
  split.
  - intros E id a Ha. destruct (p a) eqn:Hp; [|done]. exfalso.
    apply (not_elem_of_nil a). rewrite <- E. apply elem_of_rows. by eauto.
  - intros Hn. destruct (rows p m) as [|a l] eqn:E; [done|]. exfalso.
    assert (Ha : a ∈ rows p m) by (rewrite E; left).
    apply elem_of_rows in Ha as [ [id Hid] Hp]. by rewrite (Hn id a Hid) in Hp.
Qed.

(** The rows of a table whose key is their identifier are distinct. *)
Lemma rows_distinct {A} (key : A -> uuid) (p : A -> bool) (m : gmap uuid A) :
  (forall id a, m !! id = Some a -> key a = id) -> NoDup (key <$> rows p m).
Proof.
  intros Hk. unfold rows. apply filter_distinct.
  assert (E : key <$> (map_to_list m).*2 = (map_to_list m).*1).
  { rewrite <- list_fmap_compose. apply list_fmap_ext. intros i [id a] Hi. simpl.
    apply Hk, elem_of_map_to_list. by eapply list_elem_of_lookup_2. }
  rewrite E. apply NoDup_fst_map_to_list.
Qed.

(** A new row. *)
Lemma rows_insert {A} (p : A -> bool) (m : gmap uuid A) id a : m !! id = None ->
  rows p (<[id := a]> m) ≡ₚ (if p a then [a] else []) ++ rows p m.
Proof.
  intros Hid. unfold rows. rewrite (filter_perm p _ ((id, a) :: map_to_list m).*2); [by simpl; destruct (p a)|].
  by rewrite map_to_list_insert.
Qed.

Lemma violation_None tests : violation tests = None <-> Forall (fun x => x.1 = true) tests.
Proof.
  induction tests as [|[ok e] tests IH]; simpl; [by split|]. rewrite Forall_cons, <- IH. simpl.
  destruct ok; naive_solver.
Qed.

Lemma lookup_delete_all {A} (key : A -> uuid) l (m : gmap uuid A) id :
  foldr (fun a => delete (key a)) m l !! id = if bool_decide (id ∈ key <$> l) then None else m !! id.
Proof.
  induction l as [|a l IH]; simpl; [done|]. rewrite lookup_delete, IH.
  repeat case_decide; repeat case_bool_decide; set_solver.
Qed.

Lemma relates_exec {T A} (R : T -> T -> Prop) `{!PreOrder R} wrap (f : gotime -> T -> Res A * T) :
  (forall now t, R t (f now t).2) -> relates db_tables R (exec wrap f).
Proof.
  intros Hf s. unfold relates_at. destruct (exec wrap f s) as [r s'] eqn:E. simpl.
  apply exec_cases in E as [ [_ ->]|(r' & t' & E & -> & _)]; [done|].
  specialize (Hf (db_clock s) (db_tables s)). by rewrite E in Hf.
Qed.

Lemma relates_in_tx {T A} (R : T -> T -> Prop) `{!PreOrder R} bm cm (body : M (DB T) A) :
  relates db_tables R body -> relates db_tables R (in_tx bm cm body).
Proof.
  intros Hb s. unfold relates_at. destruct (in_tx bm cm body s) as [r s'] eqn:E. simpl.
  apply in_tx_cases in E as [ [_ ->]|(s1 & a & s2 & <- & E & -> & _)]; [done|].
  specialize (Hb s1). unfold relates_at in Hb. by rewrite E in Hb.
Qed.

Section WriteRules.
Context {T A : Type} (R : T -> T -> Prop) `{!PreOrder R}.

Lemma relates_write msg (f : gotime -> T -> PgError + (A * T)) :
  (forall now t a t', f now t = inr (a, t') -> R t t') -> relates db_tables R (write_stmt msg f).
Proof.
  intros Hf. related relates_exec. intros now t. specialize (Hf now t).
  destruct (f now t) as [e|[a t'] ]; simpl; [done|by eapply Hf].
Qed.

Lemma relates_update msg missing (p : T -> option A) upd :
  (forall now a t, p t = Some a -> R t (upd now a t)) -> relates db_tables R (update_stmt msg missing p upd).
Proof.
  intros Hf. related relates_exec. intros now t. destruct (p t) as [a|] eqn:E; simpl; [by apply Hf|done].
Qed.
End WriteRules.

(** The same at one state, whose tables are known. *)
Section WriteAt.
Context {T A : Type} (R : T -> T -> Prop) `{!PreOrder R} (s : DB T).

Lemma relates_at_exec {B} wrap (f : gotime -> T -> Res B * T) :
  (forall now, R (db_tables s) (f now (db_tables s)).2) -> relates_at db_tables R (exec wrap f) s.
Proof.
  intros Hf. unfold relates_at. destruct (exec wrap f s) as [r s'] eqn:E. simpl.
  apply exec_cases in E as [ [_ ->]|(r' & t' & E & -> & _)]; [done|].
  specialize (Hf (db_clock s)). by rewrite E in Hf.
Qed.

Lemma relates_at_write msg (f : gotime -> T -> PgError + (A * T)) :
  (forall now a t', f now (db_tables s) = inr (a, t') -> R (db_tables s) t') -> relates_at db_tables R (write_stmt msg f) s.
Proof.
  intros Hf. apply relates_at_exec. intros now. specialize (Hf now).
  destruct (f now (db_tables s)) as [e|[a t'] ]; simpl; [done|by eapply Hf].
Qed.

Lemma relates_at_update msg missing (p : T -> option A) upd :
  (forall now a, p (db_tables s) = Some a -> R (db_tables s) (upd now a (db_tables s))) ->
  relates_at db_tables R (update_stmt msg missing p upd) s.
Proof.
  intros Hf. apply relates_at_exec. intros now. destruct (p _) as [a|] eqn:E; simpl; [by apply Hf|done].
Qed.
End WriteAt.

Lemma relates_at_transaction {T A} (R : T -> T -> Prop) `{!PreOrder R} wb wc (body : M (DB T) A) s :
  (forall s1, db_tables s1 = db_tables s -> relates_at db_tables R body s1) -> relates_at db_tables R (transaction wb wc body) s.
Proof.
  intros Hb. unfold relates_at. destruct (transaction wb wc body s) as [r s'] eqn:E. simpl.
  apply transaction_cases in E as [ [_ ->]|(s1 & a & s2 & E1 & E & -> & _)]; [done|].
  specialize (Hb s1 E1). unfold relates_at in Hb. by rewrite E, E1 in Hb.
Qed.

Lemma relates_at_in_tx {T A} (R : T -> T -> Prop) `{!PreOrder R} bm cm (body : M (DB T) A) s :
  (forall s1, db_tables s1 = db_tables s -> relates_at db_tables R body s1) -> relates_at db_tables R (in_tx bm cm body) s.
Proof. exact (relates_at_transaction R (wrapping bm) (wrapping cm) body s). Qed.

(** *** Operations over a part of the tables *)

Section FocusRules.
Context {T U A : Type} (get : T -> U) (put : U -> T -> T).
Hypothesis put_get : forall t, put (get t) t = t.

Lemma focus_frame (m : M (DB U) A) : preserves db_tables m -> preserves db_tables (focus get put m).
Proof.
  intros Hm s. unfold focus. specialize (Hm (mkDB (get (db_tables s)) (db_clock s) (db_ids s) (db_entropy s) (db_faults s))).
  destruct (m _) as [r u]. simpl in *. rewrite Hm. apply put_get.
Qed.

(** A run that reads only answers what it answers on the part. *)
Lemma focus_Ok (m : M (DB U) A) s a s' : focus get put m s = (Ok a, s') ->
  exists u u', db_tables u = get (db_tables s) /\ m u = (Ok a, u').
Proof.
  unfold focus. destruct (m _) as [r u'] eqn:E. intros [= -> _].
  exists (mkDB (get (db_tables s)) (db_clock s) (db_ids s) (db_entropy s) (db_faults s)), u'. by rewrite E.
Qed.
End FocusRules.

(** ** Tables with a primary key and unique keys *)

Section Keys.
Context {A : Type}.
Implicit Types (m : gmap uuid A).

Definition keyed (key : A -> uuid) m : Prop := forall id a, m !! id = Some a -> key a = id.
Definition unique_by (same : A -> A -> bool) m : Prop :=
  forall i j a b, m !! i = Some a -> m !! j = Some b -> same a b = true -> i = j.

Lemma keyed_insert key m a : keyed key m -> keyed key (<[key a := a]> m).
Proof. intros Hk id b [ [<- <-]|[_ Hb] ]%lookup_insert_Some; [done|by apply Hk]. Qed.

Lemma unique_insert same m id a :
  (forall x y, same x y = same y x) -> unique_by same m ->
  (forall j b, j <> id -> m !! j = Some b -> same a b = false) -> unique_by same (<[id := a]> m).
Proof.
  intros Hs Hu Ha i j x y [ [<- <-]|[Hi Hx] ]%lookup_insert_Some [ [<- <-]|[Hj Hy] ]%lookup_insert_Some E; [done| | |by eapply Hu].
  - rewrite (Ha j y) in E; done.
  - rewrite Hs, (Ha i x) in E; done.
Qed.

(** A table whose rows come, key by key, from rows of another that are the same
    whenever they are. *)
Lemma unique_from (P : A -> A -> Prop) same m m' :
  (forall id a', m' !! id = Some a' -> exists a, m !! id = Some a /\ P a a') ->
  (forall a a' b b', P a a' -> P b b' -> same a' b' = true -> same a b = true) ->
  unique_by same m -> unique_by same m'.
Proof.
  intros Hf Hp Hu i j a' b' Ha Hb E. destruct (Hf _ _ Ha) as (a & Ha0 & Pa), (Hf _ _ Hb) as (b & Hb0 & Pb).
  eapply Hu; [exact Ha0|exact Hb0|]. by eapply Hp.
Qed.

Lemma unique_sub same m m' : m' ⊆ m -> unique_by same m -> unique_by same m'.
Proof. intros Hs Hu i j a b Ha Hb. eapply Hu; by eapply lookup_weaken. Qed.

Lemma keyed_sub key m m' : m' ⊆ m -> keyed key m -> keyed key m'.
Proof. intros Hs Hk id a Ha. apply Hk. by eapply lookup_weaken. Qed.

(** The rows of a table with a primary key, removed by that key. *)
Lemma lookup_delete_rows key (p : A -> bool) m id : keyed key m ->
  foldr (fun a => delete (key a)) m (rows p m) !! id =
  match m !! id with Some a => if p a then None else Some a | None => None end.
Proof.
  intros Hk. rewrite lookup_delete_all. case_bool_decide as Hid.
  - apply list_elem_of_fmap in Hid as (a & -> & [ [i Hi] Hp]%elem_of_rows). rewrite (Hk _ _ Hi), Hi. by rewrite Hp.
  - destruct (m !! id) as [a|] eqn:Ha; [|done]. destruct (p a) eqn:Hp; [|done]. exfalso. apply Hid.
    rewrite <- (Hk _ _ Ha). apply list_elem_of_fmap_2, elem_of_rows. eauto.
Qed.

Lemma delete_rows_sub key (p : A -> bool) m : foldr (fun a => delete (key a)) m (rows p m) ⊆ m.
Proof. apply map_subseteq_spec. intros id a. rewrite lookup_delete_all. by case_bool_decide. Qed.
End Keys.
