(* ===== verification/Config.v ===== *)
(** * External integration profiles ([domain/config.go], [pkg/slug], [port/external_integration.go])

    The global configuration and its external integration profiles, with their
    normalisation and validation, and the values the external surface exchanges
    with its auth methods and workspace resolvers. *)
From stdpp Require Import base gmap strings list.
From Stdlib Require Import ZArith Ascii String Lia.
From S2P Require Import Prelude GoMonad Domain.

(** ** Slugs *)

Definition slug_letter : ascii -> bool := is_lower_ascii.
Definition slug_alnum (c : ascii) : bool := is_lower_ascii c || is_digit_ascii c.
Definition slug_inner (c : ascii) : bool := slug_alnum c || Ascii.eqb c "_" || Ascii.eqb c "-".

Fixpoint last_byte (c : ascii) (s : string) : ascii :=
  match s with EmptyString => c | String d r => last_byte d r end.

(** [^[a-z][a-z0-9_-]{1,62}[a-z0-9]$] *)
Definition slugPattern (s : string) : bool :=
  match s with
  | EmptyString => false
  | String c r =>
      slug_letter c && sall slug_inner r && slug_alnum (last_byte c r)
      && (3 <=? String.length s)%nat && (String.length s <=? 64)%nat
  end.

Definition reservedWords : list string := ["system"; "admin"; "api"; "internal"; "global"; "null"; "undefined"].

Section Slug.
Context `{GoStd}.

Definition slug_Validate (s : string) : Res unit :=
  if negb (slugPattern s) then
    Err (EMsg ("invalid slug " +:+ Quote s +:+
               ": must be 3-64 chars, start with letter, end with letter/digit, contain only [a-z0-9_-]"))
  else if bool_decide (s ∈ reservedWords) then Err (EMsg ("invalid slug " +:+ Quote s +:+ ": reserved word"))
  else Ok tt.
End Slug.

(** ** Profiles *)

Record ExternalIntegrationCapabilities := mkCapabilities {
  cap_ListTemplates : bool;
  cap_ViewVersions : bool;
  cap_EditVersions : bool;
  cap_PublishVersions : bool;
  cap_TestSend : bool;
  cap_BuilderAccess : bool;
  cap_MetadataAccess : bool;
  cap_LocaleAccess : bool;
}.

Record ExternalIntegrationProfile := mkProfile {
  xp_Slug : string;
  xp_Name : string;
  xp_Description : string;
  xp_Enabled : bool;
  xp_AuthMethodName : string;
  xp_ResolverName : string;
  xp_AllowedOrigins : list string;
  xp_AllowedHeaders : list string;
  xp_RequiredHeaders : list string;
  xp_Capabilities : ExternalIntegrationCapabilities;
}.

Record GlobalConfig := mkGlobalConfig {
  gc_DefaultRetryCount : Z;
  gc_RetryBackoffBaseSeconds : Z;
  gc_LogRetentionDays : Z;
  (** float64s, as their bits *)
  gc_BounceAlertThresholdPercent : Z;
  gc_ComplaintAlertThresholdPercent : Z;
  gc_DomainRecheckIntervalHours : Z;
  gc_OnboardingCompleted : bool;
  gc_ExternalIntegrations : list ExternalIntegrationProfile;
  gc_UpdatedAt : gotime;
}.

(** The parts of [url.URL] the source reads. *)
Record URL := mkURL {
  url_Scheme : string;
  url_Host : string;
  url_User : option string;
  url_Path : string;
  url_RawQuery : string;
  url_Fragment : string;
}.

(** [url.Parse], kept abstract. *)
Class UrlParser := { url_Parse : string -> Res URL }.

Section Profiles.
Context `{GoStd}.

Definition normalizeAndDedupeStrings (values : list string) (lower : bool) : list string :=
  (uniq (fun value =>
           let value := TrimSpace value in
           let value := if lower then ToLower value else value in
           if bool_decide (value = "") then None else Some (value, value)) ∅ values).2.

Definition Normalize (p : ExternalIntegrationProfile) : ExternalIntegrationProfile :=
  {| xp_Slug := TrimSpace (ToLower (xp_Slug p));
     xp_Name := TrimSpace (xp_Name p);
     xp_Description := TrimSpace (xp_Description p);
     xp_Enabled := xp_Enabled p;
     xp_AuthMethodName := TrimSpace (xp_AuthMethodName p);
     xp_ResolverName := TrimSpace (xp_ResolverName p);
     xp_AllowedOrigins := normalizeAndDedupeStrings (xp_AllowedOrigins p) false;
     xp_AllowedHeaders := normalizeAndDedupeStrings (xp_AllowedHeaders p) true;
     xp_RequiredHeaders := normalizeAndDedupeStrings (xp_RequiredHeaders p) true;
     xp_Capabilities := xp_Capabilities p |}.

Definition NormalizeExternalIntegrationProfiles : list ExternalIntegrationProfile -> list ExternalIntegrationProfile :=
  List.map Normalize.

Definition validateExternalMethodName (value : string) : Res unit := slug_Validate (ToLower value).

(** [^[!#$%&'*+.^_`{|}~0-9A-Za-z-]+$]: the bytes of a header name. *)
Definition header_byte (c : ascii) : bool :=
  is_digit_ascii c || is_lower_ascii c || is_upper_ascii c
  || bool_decide (nat_of_ascii c ∈ [33; 35; 36; 37; 38; 39; 42; 43; 45; 46; 94; 95; 96; 123; 124; 125; 126]).

Definition headerNamePattern (s : string) : bool := negb (bool_decide (s = "")) && sall header_byte s.

Definition header_refused : error := EMsg "header is not allowed for external integration auth".

Definition validateAllowedHeaderName (value : string) : Res unit :=
  if negb (headerNamePattern value) then Err (EMsg "invalid header name")
  else
    let lower := ToLower value in
    if bool_decide (lower = "host") || bool_decide (lower = "origin") || bool_decide (lower = "cookie")
       || bool_decide (lower = "authorization") then Err header_refused
    else if HasPrefix lower "x-forwarded-" || HasPrefix lower "sec-" then Err header_refused
    else Ok tt.

Context `{UrlParser}.

Definition validateAllowedOrigin (origin : string) : Res unit :=
  match url_Parse origin with
  | Err e => Err (EWrap "invalid origin: " e "")
  | Ok u =>
      if negb (bool_decide (url_Scheme u = "https")) && negb (bool_decide (url_Scheme u = "http"))
      then Err (EMsg "scheme must be http or https")
      else if bool_decide (url_Host u = "") then Err (EMsg "host is required")
      else if bool_decide (is_Some (url_User u)) then Err (EMsg "userinfo is not allowed")
      else if negb (bool_decide (url_Path u = "")) && negb (bool_decide (url_Path u = "/"))
      then Err (EMsg "origin must not include a path")
      else if negb (bool_decide (url_RawQuery u = "")) || negb (bool_decide (url_Fragment u = ""))
      then Err (EMsg "origin must not include query or fragment")
      else if negb (bool_decide (origin = url_Scheme u +:+ "://" +:+ url_Host u))
           && negb (bool_decide (origin = url_Scheme u +:+ "://" +:+ url_Host u +:+ "/"))
      then Err (EMsg "origin must be a bare origin")
      else Ok tt
  end.

(** [for ... { if err := check(x); err != nil { return wrap(err) } }]. *)
Fixpoint check_all {A} (check : A -> Res unit) (l : list A) : Res unit :=
  match l with
  | [] => Ok tt
  | x :: r => match check x with Ok _ => check_all check r | Err e => Err e end
  end.

Definition wrap_res {A} (wrap : error -> error) (r : Res A) : Res A :=
  match r with Ok a => Ok a | Err e => Err (wrap e) end.

Definition then_check (r : Res unit) (k : Res unit) : Res unit := match r with Ok _ => k | Err e => Err e end.

Definition quoted_check (what : string) (check : string -> Res unit) (value : string) : Res unit :=
  wrap_res (fun e => EWrap (what +:+ " " +:+ Quote value +:+ ": ") e "") (check value).

Definition Validate (p : ExternalIntegrationProfile) : Res unit :=
  let n := Normalize p in
  then_check (wrap_res (fun e => EWrap "slug: " e "") (slug_Validate (xp_Slug n)))
  (if bool_decide (xp_Name n = "") then Err (EMsg "name is required") else
   if bool_decide (xp_AuthMethodName n = "") then Err (EMsg "auth_method_name is required") else
   then_check (wrap_res (fun e => EWrap "auth_method_name: " e "") (validateExternalMethodName (xp_AuthMethodName n)))
   (if bool_decide (xp_ResolverName n = "") then Err (EMsg "resolver_name is required") else
    then_check (wrap_res (fun e => EWrap "resolver_name: " e "") (validateExternalMethodName (xp_ResolverName n)))
    (then_check (check_all (quoted_check "allowed_origin" validateAllowedOrigin) (xp_AllowedOrigins n))
     (then_check (check_all (quoted_check "allowed_header" validateAllowedHeaderName) (xp_AllowedHeaders n))
      (check_all (fun header =>
         then_check (quoted_check "required_header" validateAllowedHeaderName header)
         (if bool_decide (header ∈ xp_AllowedHeaders n) then Ok tt
          else Err (EMsg ("required header " +:+ Quote header +:+ " must be present in allowed_headers"))))
        (xp_RequiredHeaders n)))))).

(** The loop over the profiles, with the slugs seen. *)
Fixpoint validate_profiles (i : Z) (seen : gset string) (l : list ExternalIntegrationProfile) : Res unit :=
  match l with
  | [] => Ok tt
  | p :: r =>
      let normalized := Normalize p in
      let pre := "external_integrations[" +:+ Itoa i +:+ "]: " in
      match Validate normalized with
      | Err e => Err (EWrap pre e "")
      | Ok _ =>
          if bool_decide (xp_Slug normalized ∈ seen)
          then Err (EMsg (pre +:+ "duplicate slug " +:+ Quote (xp_Slug normalized)))
          else validate_profiles (i + 1) ({[xp_Slug normalized]} ∪ seen) r
      end
  end.

(** [None] is the nil pointer. *)
Definition GlobalConfig_Validate (cfg : option GlobalConfig) : Res unit :=
  match cfg with
  | None => Ok tt
  | Some cfg => validate_profiles 0 ∅ (gc_ExternalIntegrations cfg)
  end.
End Profiles.

(** ** The values of the external surface *)

Record ExternalIntegrationRequest := mkExternalRequest {
  xr_ProfileSlug : string;
  xr_Environment : Environment;
  xr_TenantCode : string;
  xr_WorkspaceCodes : list string;
  xr_Token : string;
  xr_Headers : gmap string string;
  xr_QueryParams : gmap string string;
  xr_Path : string;
  xr_Method : string;
}.

Record ExternalPermissions := mkPermissions {
  prm_ListTemplates : bool;
  prm_ViewVersions : bool;
  prm_EditVersions : bool;
  prm_PublishVersions : bool;
  prm_TestSend : bool;
  prm_BuilderAccess : bool;
  prm_MetadataAccess : bool;
  prm_LocaleAccess : bool;
}.

Definition no_permissions : ExternalPermissions := mkPermissions false false false false false false false false.

Record ExternalAuthResult := mkAuthResult { ar_Permissions : ExternalPermissions; ar_Context : fields_map }.

Record ExternalWorkspaceResolution := mkResolution { wr_WorkspaceCode : string; wr_ReadOnly : bool }.
