(* ===== verification/Http.v ===== *)
(** * Requests, responses and shared middleware ([internal/http])

    The echo context of one request - the request, the values the middleware
    leaves for the handlers and the response written so far -, the error
    responses, and the middleware and helpers every handler shares. *)
From stdpp Require Import base gmap strings list.
From Stdlib Require Import ZArith Ascii String Lia.
From S2P Require Import Prelude GoMonad Domain Ports Config.

(** ** The context of a request *)

Record FieldError := mkFieldError { fe_Field : string; fe_Message : string }.

(** The bodies the handlers write. *)
Inductive Body :=
| BodyError (code message : string) (details : list FieldError) (requestID : string)
| BodyJSON (v : any)
| BodyBlob (contentType data : string)
| BodyNone.

Record Reply := mkReply { rp_Status : Z; rp_Body : Body }.

(** The values of the context, under their keys: every key is only ever set
    with one type, so a missing value and a failed type assertion agree. *)
Record Values := mkValues {
  v_request_id : string;
  v_auth_type : string;
  v_member : option Member;
  v_roles : option (list MemberRole);
  v_workspace_id : option uuid;
  v_environment : option Environment;
  v_tenant_code : string;
  v_workspace_code : string;
  v_profile : option ExternalIntegrationProfile;
  v_auth_result : option ExternalAuthResult;
  v_resolution : option ExternalWorkspaceResolution;
  v_permissions : option ExternalPermissions;
  v_read_only : bool;
  v_effective_workspace_code : string;
  v_allowed_headers : gmap string string;
}.

Definition no_values : Values := {|
  v_request_id := ""; v_auth_type := ""; v_member := None; v_roles := None; v_workspace_id := None;
  v_environment := None; v_tenant_code := ""; v_workspace_code := ""; v_profile := None; v_auth_result := None;
  v_resolution := None; v_permissions := None; v_read_only := false; v_effective_workspace_code := "";
  v_allowed_headers := ∅ |}.

Record Conn := mkConn {
  cn_Method : string;
  cn_Path : string;
  cn_Params : list (string * string);
  (** headers by canonical name, query parameters by name: all the values *)
  cn_Headers : gmap string (list string);
  cn_Query : gmap string (list string);
  cn_RawBody : string;
  cn_Values : Values;
  (** response headers, in the order they were set or added *)
  cn_RespHeaders : list (string * string);
  (** what was written; the response is committed when it is not empty *)
  cn_Replies : list Reply;
  (** the write error of a connection that is gone *)
  cn_Broken : option string;
  (** whether [echo.UnwrapResponse] recognises the response writer *)
  cn_Unwraps : bool;
  (** goroutines started for the request and not waited for: the keys whose
      last use is to be recorded *)
  cn_Touched : list uuid;
}.

Definition set_values (f : Values -> Values) (c : Conn) : Conn :=
  mkConn (cn_Method c) (cn_Path c) (cn_Params c) (cn_Headers c) (cn_Query c) (cn_RawBody c) (f (cn_Values c))
    (cn_RespHeaders c) (cn_Replies c) (cn_Broken c) (cn_Unwraps c) (cn_Touched c).
Definition set_params (f : list (string * string) -> list (string * string)) (c : Conn) : Conn :=
  mkConn (cn_Method c) (cn_Path c) (f (cn_Params c)) (cn_Headers c) (cn_Query c) (cn_RawBody c) (cn_Values c)
    (cn_RespHeaders c) (cn_Replies c) (cn_Broken c) (cn_Unwraps c) (cn_Touched c).
Definition set_resp_headers (f : list (string * string) -> list (string * string)) (c : Conn) : Conn :=
  mkConn (cn_Method c) (cn_Path c) (cn_Params c) (cn_Headers c) (cn_Query c) (cn_RawBody c) (cn_Values c)
    (f (cn_RespHeaders c)) (cn_Replies c) (cn_Broken c) (cn_Unwraps c) (cn_Touched c).
Definition set_replies (f : list Reply -> list Reply) (c : Conn) : Conn :=
  mkConn (cn_Method c) (cn_Path c) (cn_Params c) (cn_Headers c) (cn_Query c) (cn_RawBody c) (cn_Values c)
    (cn_RespHeaders c) (f (cn_Replies c)) (cn_Broken c) (cn_Unwraps c) (cn_Touched c).
Definition set_touched (f : list uuid -> list uuid) (c : Conn) : Conn :=
  mkConn (cn_Method c) (cn_Path c) (cn_Params c) (cn_Headers c) (cn_Query c) (cn_RawBody c) (cn_Values c)
    (cn_RespHeaders c) (cn_Replies c) (cn_Broken c) (cn_Unwraps c) (f (cn_Touched c)).

(** [c.Param], [c.QueryParam], [http.Header.Get]. *)
Definition Param (name : string) (c : Conn) : string :=
  match List.find (fun p => bool_decide (p.1 = name)) (cn_Params c) with Some p => p.2 | None => "" end.

Definition first_value (vs : option (list string)) : string :=
  match vs with Some (v :: _) => v | _ => "" end.

Definition QueryParam (name : string) (c : Conn) : string := first_value (cn_Query c !! name).

(** [http.CanonicalHeaderKey]: each word of a valid header name capitalised. *)
Definition token_byte (c : ascii) : bool :=
  is_digit_ascii c || is_lower_ascii c || is_upper_ascii c
  || bool_decide (nat_of_ascii c ∈ [33; 35; 36; 37; 38; 39; 42; 43; 45; 46; 94; 95; 96; 124; 126]).

Definition upper_ascii (c : ascii) : ascii :=
  if is_lower_ascii c then ascii_of_nat (nat_of_ascii c - 32) else c.

Fixpoint capitalise (upper : bool) (s : string) : string :=
  match s with
  | EmptyString => EmptyString
  | String c r => String (if upper then upper_ascii c else lower_ascii c) (capitalise (Ascii.eqb c "-") r)
  end.

Definition CanonicalHeaderKey (s : string) : string := if sall token_byte s then capitalise true s else s.

Definition header_get (headers : gmap string (list string)) (name : string) : string :=
  first_value (headers !! CanonicalHeaderKey name).

Definition Header (name : string) (c : Conn) : string := header_get (cn_Headers c) name.

(** ** Handlers and middleware *)

Definition HandlerFunc (W : Type) : Type := M (W * Conn) unit.
Definition MiddlewareFunc (W : Type) : Type := HandlerFunc W -> HandlerFunc W.

Section Shared.
Context `{GoStd} {W : Type}.

Definition conn : M (W * Conn) Conn := get_state.
Definition values : M (W * Conn) Values := fun x => (Ok (cn_Values x.2), x).
Definition set_value (f : Values -> Values) : M (W * Conn) unit := set_state (set_values f).

(** [c.JSON], [c.NoContent] and [c.Blob]: the response is committed, and the error is
    that of the connection. *)
Definition write (r : Reply) : HandlerFunc W := fun '(w, c) =>
  (match cn_Broken c with Some e => Err (EMsg e) | None => Ok tt end, (w, set_replies (fun l => l ++ [r]) c)).

Definition JSON_reply (status : Z) (v : any) : HandlerFunc W := write (mkReply status (BodyJSON v)).
Definition NoContent (status : Z) : HandlerFunc W := write (mkReply status BodyNone).
Definition Blob (status : Z) (contentType data : string) : HandlerFunc W := write (mkReply status (BodyBlob contentType data)).

Definition WriteErrorDetails (status : Z) (code message : string) (details : list FieldError) : HandlerFunc W :=
  let! v := values in
  write (mkReply status (BodyError code message details (v_request_id v))).
Definition WriteError (status : Z) (code message : string) : HandlerFunc W := WriteErrorDetails status code message [].

Definition Forbidden (message : string) : HandlerFunc W := WriteError 403 "FORBIDDEN" message.
Definition Unauthorized (message : string) : HandlerFunc W := WriteError 401 "UNAUTHORIZED" message.

(** What the server does with the error a handler returns: nothing more once
    the response is committed. (Only echo's own errors carry another status.) *)
Definition committed (c : Conn) : bool := cn_Unwraps c && negb (bool_decide (List.length (cn_Replies c) = 0%nat)).
Definition HTTPErrorHandler (e : error) : HandlerFunc W :=
  let! c := conn in
  if committed c then ret tt else ignore (WriteError 500 "INTERNAL_ERROR" "internal server error").

Definition serve (h : HandlerFunc W) : HandlerFunc W :=
  try! r := h in match r with Ok _ => ret tt | Err e => HTTPErrorHandler e end.

(** [handler.mapStoreError]. *)
Definition app_code (status : Z) : string :=
  if (status =? 404)%Z then "NOT_FOUND"
  else if (status =? 409)%Z then "CONFLICT"
  else if (status =? 400)%Z then "BAD_REQUEST"
  else if (status =? 422)%Z then "VALIDATION_ERROR"
  else if (status =? 403)%Z then "FORBIDDEN"
  else "INTERNAL_ERROR".

(** The message of the first [*AppError] of an error. *)
Fixpoint app_error (e : error) : option (Z * string) :=
  match e with
  | ESent _ | EMsg _ => None
  | EWrap _ e _ => app_error e
  | EWrap2 _ e1 _ e2 _ => match app_error e1 with Some c => Some c | None => app_error e2 end
  | EApp c m | EAppWrap c m _ => Some (c, m)
  end.

Definition mapStoreError (e : error) : HandlerFunc W :=
  if errors_Is e ErrNotFound then WriteError 404 "NOT_FOUND" "resource not found"
  else if errors_Is e ErrConflict then WriteError 409 "CONFLICT" "resource already exists"
  else if errors_Is e ErrForbidden then WriteError 403 "FORBIDDEN" (error_string e)
  else if errors_Is e ErrValidation then WriteError 422 "VALIDATION_ERROR" (error_string e)
  else if errors_Is e ErrInvalidCursor then WriteError 400 "BAD_REQUEST" "invalid cursor"
  else match app_error e with
       | Some (code, msg) => WriteError code (app_code code) msg
       | None => WriteError 500 "INTERNAL_ERROR" "internal server error"
       end.

(** [x, err := m; if err != nil { return mapStoreError(c, err) }; k x]. *)
Definition stored {A} (m : M (W * Conn) A) (k : A -> HandlerFunc W) : HandlerFunc W :=
  try! r := m in match r with Ok a => k a | Err e => mapStoreError e end.

(** ** Middleware *)

(** [^[a-zA-Z0-9\-_.]+$], at most 128 bytes. *)
Definition isValidRequestID (id : string) : bool :=
  if bool_decide (id = "") || (128 <? String.length id)%nat then false
  else sall (fun c => is_lower_ascii c || is_upper_ascii c || is_digit_ascii c
                      || bool_decide (nat_of_ascii c ∈ [45; 95; 46])) id.

Definition RequestID (new_id : M W uuid) : MiddlewareFunc W := fun next =>
  let! c := conn in
  let reqID := Header "X-Request-ID" c in
  let! reqID := if isValidRequestID reqID then ret reqID else let! id := up new_id in ret (uuid_String id) in
  set_value (fun v => mkValues reqID (v_auth_type v) (v_member v) (v_roles v) (v_workspace_id v)
    (v_environment v) (v_tenant_code v) (v_workspace_code v) (v_profile v) (v_auth_result v) (v_resolution v)
    (v_permissions v) (v_read_only v) (v_effective_workspace_code v) (v_allowed_headers v)) ;;;
  set_state (set_resp_headers (fun l => l ++ [("X-Request-ID", reqID)])) ;;;
  next.

Definition set_environment (e : option Environment) (v : Values) : Values :=
  mkValues (v_request_id v) (v_auth_type v) (v_member v) (v_roles v) (v_workspace_id v)
    e (v_tenant_code v) (v_workspace_code v) (v_profile v) (v_auth_result v) (v_resolution v)
    (v_permissions v) (v_read_only v) (v_effective_workspace_code v) (v_allowed_headers v).
Definition set_codes (tenant workspace : string) (v : Values) : Values :=
  mkValues (v_request_id v) (v_auth_type v) (v_member v) (v_roles v) (v_workspace_id v)
    (v_environment v) tenant workspace (v_profile v) (v_auth_result v) (v_resolution v)
    (v_permissions v) (v_read_only v) (v_effective_workspace_code v) (v_allowed_headers v).
Definition set_identity (auth_type : string) (member : option Member) (roles : option (list MemberRole))
    (workspace : option uuid) (v : Values) : Values :=
  mkValues (v_request_id v) auth_type member roles workspace
    (v_environment v) (v_tenant_code v) (v_workspace_code v) (v_profile v) (v_auth_result v) (v_resolution v)
    (v_permissions v) (v_read_only v) (v_effective_workspace_code v) (v_allowed_headers v).

(** The values [Scope] stores for a request's parameters. *)
Definition scope_values (c : Conn) (v : Values) : Values :=
  let v := set_codes (if bool_decide (Param "tenant_code" c = "") then v_tenant_code v else Param "tenant_code" c)
             (if bool_decide (Param "workspace_code" c = "") then v_workspace_code v else Param "workspace_code" c) v in
  if bool_decide (Param "environment" c = "") then v
  else match ParseEnvironment (Param "environment" c) with
       | Ok e => set_environment (Some e) v
       | Err _ => v
       end.

Definition Scope : MiddlewareFunc W := fun next =>
  let! c := conn in set_value (scope_values c) ;;; next.

Definition OIDCOnly : MiddlewareFunc W := fun next =>
  let! v := values in
  if negb (bool_decide (v_auth_type v = "oidc")) then Forbidden "management API requires OIDC authentication"
  else next.

(** ** Helpers of the handlers *)

Definition requestEnvironment (c : Conn) : Environment :=
  let stored := match v_environment (cn_Values c) with
                | Some e => if Environment_Valid e then e else EnvironmentProd
                | None => EnvironmentProd
                end in
  if bool_decide (Param "environment" c = "") then stored
  else match ParseEnvironment (Param "environment" c) with Ok e => e | Err _ => stored end.

(** [pagination.ParseListOptions]; [strconv.Atoi] is exact on the decimal
    numerals of an [int]. *)
Fixpoint digits (acc : Z) (s : string) : option Z :=
  match s with
  | EmptyString => Some acc
  | String c r => if is_digit_ascii c then digits (acc * 10 + Z.of_nat (nat_of_ascii c - 48)) r else None
  end.

Definition Atoi (s : string) : option Z :=
  let body := match s with String c r => if Ascii.eqb c "-" || Ascii.eqb c "+" then r else s | _ => s end in
  let neg := match s with String c _ => Ascii.eqb c "-" | _ => false end in
  if bool_decide (body = "") then None
  else match digits 0 body with
       | Some n => let z := if neg then (- n)%Z else n in
                   if ((- 2 ^ 63 <=? z) && (z <? 2 ^ 63))%Z then Some z else None
       | None => None
       end.

Definition ParseListOptions (c : Conn) : ListOptions :=
  let limit := match Atoi (QueryParam "limit" c) with
               | Some parsed => if (0 <? parsed)%Z then parsed else 25%Z
               | None => 25%Z
               end in
  mkListOptions (QueryParam "cursor" c) (if (100 <? limit)%Z then 100%Z else limit) (QueryParam "search" c).
End Shared.

#[global] Arguments write : simpl never.

(** * Theorems *)

(** ** What answering leaves alone *)

Section Frames.
Context `{GoStd} {W V : Type} (v : W -> V).

Lemma write_frame r : preserves (on_world v) (write (W:=W) r).
Proof. by intros [w c]. Qed.
Lemma conn_frame : preserves (on_world v) (conn (W:=W)).
Proof. by intros [w c]. Qed.
Lemma values_frame : preserves (on_world v) (values (W:=W)).
Proof. by intros [w c]. Qed.
Lemma WriteErrorDetails_frame st code msg ds : preserves (on_world v) (WriteErrorDetails (W:=W) st code msg ds).
Proof. by intros [w c]. Qed.
Lemma WriteError_frame st code msg : preserves (on_world v) (WriteError (W:=W) st code msg).
Proof. by intros [w c]. Qed.
Lemma mapStoreError_frame e : preserves (on_world v) (mapStoreError (W:=W) e).
Proof. unfold mapStoreError. repeat case_match; apply WriteError_frame. Qed.
Lemma stored_frame {A} (m : M (W * Conn) A) (k : A -> HandlerFunc W) :
  preserves (on_world v) m -> (forall a, preserves (on_world v) (k a)) -> preserves (on_world v) (stored m k).
Proof. intros Hm Hk. apply preserves_try; [done|]. intros [a|e]; [apply Hk|apply mapStoreError_frame]. Qed.
Lemma HTTPErrorHandler_frame e : preserves (on_world v) (HTTPErrorHandler (W:=W) e).
Proof.
  intros [w c]. unfold HTTPErrorHandler, bind, conn, get_state. simpl.
  by destruct (committed c).
Qed.

(** Relations between the view before and after. *)
Context (R : V -> V -> Prop) `{!PreOrder R}.

Lemma relates_stored {A} (m : M (W * Conn) A) (k : A -> HandlerFunc W) :
  relates (on_world v) R m -> (forall a, relates (on_world v) R (k a)) -> relates (on_world v) R (stored m k).
Proof.
  intros Hm Hk. apply relates_try; [done..|]. intros [a|e]; [apply Hk|].
  apply relates_preserves; [done|apply mapStoreError_frame].
Qed.

Lemma relates_at_stored {A} (m : M (W * Conn) A) (k : A -> HandlerFunc W) x :
  relates_at (on_world v) R m x -> (forall a x', m x = (Ok a, x') -> relates_at (on_world v) R (k a) x') ->
  relates_at (on_world v) R (stored m k) x.
Proof.
  intros Hm Hk. apply relates_at_try; [done..|]. intros [a|e] x' E; [by apply Hk|].
  apply relates_preserves; [done|apply mapStoreError_frame].
Qed.
End Frames.

#[export] Hint Resolve write_frame conn_frame values_frame WriteErrorDetails_frame WriteError_frame mapStoreError_frame
  stored_frame HTTPErrorHandler_frame : senda.

(** ** Middleware as gates

    [gates v P mw Q]: on a request that satisfies [P], [mw] leaves the view [v]
    of the world alone and either answers itself or runs the next handler, on a
    request that satisfies [Q]. *)
Definition gates {W V} (v : W -> V) (P : V -> Conn -> Prop) (mw : MiddlewareFunc W) (Q : V -> Conn -> Prop) : Prop :=
  forall next w c r x', P (v w) c -> mw next (w, c) = (r, x') ->
    v x'.1 = v w \/ exists w1 c1, v w1 = v w /\ Q (v w) c1 /\ next (w1, c1) = (r, x').

Section Gates.
Context `{GoStd} {W V : Type} (v : W -> V).
Implicit Types (P Q R : V -> Conn -> Prop).

Lemma gates_compose P Q R (f g : MiddlewareFunc W) :
  gates v P f Q -> gates v Q g R -> gates v P (fun next => f (g next)) R.
Proof.
  intros Hf Hg next w c r x' HP E. apply Hf in E as [?|(w1 & c1 & Ew & HQ & E)]; [by left| |done].
  rewrite <- Ew in HQ. apply Hg in E as [E|(w2 & c2 & Ew2 & HR & E)]; [left; congruence| |done].
  right. exists w2, c2. rewrite Ew in *. auto.
Qed.

(** Answering. *)
Lemma gate_answer (m : HandlerFunc W) w c r x' :
  preserves (on_world v) m -> m (w, c) = (r, x') -> v x'.1 = v w.
Proof. intros Hm E. specialize (Hm (w, c)). rewrite E in Hm. exact Hm. Qed.

(** Looking something up. *)
Lemma gate_up {A} (m : M W A) (k : Res A -> HandlerFunc W) w c r x' :
  preserves v m -> (try! a := up m in k a) (w, c) = (r, x') ->
  exists a w1, m w = (a, w1) /\ v w1 = v w /\ k a (w1, c) = (r, x').
Proof.
  intros Hm. specialize (Hm w). unfold try, up. destruct (m w) as [a w1]. eauto.
Qed.
End Gates.
