(* ===== verification/Directory.v ===== *)
(** * The directory ([adapter/postgres]: tenants, workspaces, members, API keys)

    The tables of tenants, workspaces, members, role assignments and API keys
    with their constraints, and the repositories over them. A write that
    violates a constraint changes nothing and fails with PostgreSQL's error. *)
From stdpp Require Import base gmap strings list sorting.
From Stdlib Require Import ZArith NArith Ascii String Lia.
From S2P Require Import Prelude GoMonad Domain Ports Token.
From S2P Require Import Suppression Postgres Database.

Record Tables := mkTables {
  tb_tenants : gmap uuid Tenant;
  tb_workspaces : gmap uuid Workspace;
  tb_signing : gmap uuid string;
  tb_members : gmap uuid Member;
  tb_roles : gmap uuid MemberRole;
  tb_keys : gmap uuid APIKey;
}.

Abbreviation Dir := (DB Tables).

Definition set_tenants f t :=
  mkTables (f (tb_tenants t)) (tb_workspaces t) (tb_signing t) (tb_members t) (tb_roles t) (tb_keys t).
Definition set_workspaces f t :=
  mkTables (tb_tenants t) (f (tb_workspaces t)) (tb_signing t) (tb_members t) (tb_roles t) (tb_keys t).
Definition set_signing f t :=
  mkTables (tb_tenants t) (tb_workspaces t) (f (tb_signing t)) (tb_members t) (tb_roles t) (tb_keys t).
Definition set_members f t :=
  mkTables (tb_tenants t) (tb_workspaces t) (tb_signing t) (f (tb_members t)) (tb_roles t) (tb_keys t).
Definition set_roles f t :=
  mkTables (tb_tenants t) (tb_workspaces t) (tb_signing t) (tb_members t) (f (tb_roles t)) (tb_keys t).
Definition set_keys f t :=
  mkTables (tb_tenants t) (tb_workspaces t) (tb_signing t) (tb_members t) (tb_roles t) (f (tb_keys t)).

(** ** Tenants ([tenant_repo.go]) *)

Section TenantRepo.
Context `{GoStd} `{Codec}.

Definition tenant_live (t : Tenant) : bool := bool_decide (ten_DeletedAt t = None).

Fixpoint contains_dashes (s : string) : bool :=
  HasPrefix s "---" || match s with EmptyString => false | String _ r => contains_dashes r end.

(** The constraint [tenants_code_format]. *)
Definition tenant_code_format (code : string) : bool :=
  match code with
  | EmptyString => false
  | String c r => is_lower_ascii c && sall (fun c => is_lower_ascii c || is_digit_ascii c || Ascii.eqb c "-") r
  end
  && (2 <=? String.length code)%nat && (String.length code <=? 50)%nat
  && negb (HasPrefix (srev code) "-") && negb (contains_dashes code)
  && negb (bool_decide (code ∈ ["_system"; "global"; "admin"; "api"; "system"])).

Definition tenant_row (now : gotime) (t : Tenant) : Tenant :=
  {| ten_ID := ten_ID t; ten_Code := ten_Code t; ten_Name := ten_Name t; ten_IsActive := ten_IsActive t;
     ten_CreatedAt := now; ten_UpdatedAt := now; ten_DeletedAt := None |}.

Definition TenantRepo_Create (tenant : Tenant) : M Dir Tenant :=
  write_stmt "inserting tenant" (fun now t =>
    match violation [(tenant_code_format (ten_Code tenant), check_failed "tenants" "tenants_code_format");
                     (bool_decide (tb_tenants t !! ten_ID tenant = None), duplicate "tenants_pkey");
                     (bool_decide (rows (fun o => bool_decide (ten_Code o = ten_Code tenant)) (tb_tenants t) = []),
                      duplicate "tenants_code_unique")] with
    | Some e => inl e
    | None => inr (tenant_row now tenant, set_tenants <[ten_ID tenant := tenant_row now tenant]> t)
    end).

Definition TenantRepo_GetByID (id : uuid) : M Dir Tenant :=
  query (wrapping "scanning tenant") (fun t =>
    match tb_tenants t !! id with
    | Some r => if tenant_live r then Ok r else Err (NotFound "tenant not found")
    | None => Err (NotFound "tenant not found")
    end).

Definition TenantRepo_GetByCode (code : string) : M Dir Tenant :=
  query (wrapping "scanning tenant") (fun t =>
    first_row (NotFound "tenant not found")
      (rows (fun r => bool_decide (ten_Code r = code) && tenant_live r) (tb_tenants t))).

(** [ILIKE] of a search pattern, kept abstract with the collation. *)
Context (ilike : string -> string -> bool).

Definition TenantRepo_List (opts : ListOptions) : M Dir (list Tenant * string) :=
  match ApplyPagination opts with
  | Err e => fail e
  | Ok (limit, afterID) =>
      query (wrapping "listing tenants") (fun t =>
        Ok (page ten_ID (rows (fun r => tenant_live r &&
                                 (bool_decide (lo_Search opts = "") || ilike (lo_Search opts) (ten_Name r)
                                  || ilike (lo_Search opts) (ten_Code r))) (tb_tenants t)) limit afterID))
  end.

Definition tenant_missing (id : uuid) : error := NotFound ("tenant " +:+ uuid_String id +:+ " not found").

Definition live_tenant (id : uuid) (t : Tables) : option Tenant :=
  match tb_tenants t !! id with Some r => if tenant_live r then Some r else None | None => None end.

Definition with_tenant (now : gotime) (tenant r : Tenant) : Tenant :=
  {| ten_ID := ten_ID r; ten_Code := ten_Code r; ten_Name := ten_Name tenant; ten_IsActive := ten_IsActive tenant;
     ten_CreatedAt := ten_CreatedAt r; ten_UpdatedAt := now; ten_DeletedAt := ten_DeletedAt r |}.

(** [RETURNING is_active, updated_at]: what it leaves in its argument. *)
Definition TenantRepo_Update (tenant : Tenant) : M Dir Tenant :=
  exec (wrapping "updating tenant") (fun now t =>
    match live_tenant (ten_ID tenant) t with
    | None => (Err (tenant_missing (ten_ID tenant)), t)
    | Some r => (Ok {| ten_ID := ten_ID tenant; ten_Code := ten_Code tenant; ten_Name := ten_Name tenant;
                       ten_IsActive := ten_IsActive tenant; ten_CreatedAt := ten_CreatedAt tenant;
                       ten_UpdatedAt := now; ten_DeletedAt := ten_DeletedAt tenant |},
                 set_tenants <[ten_ID tenant := with_tenant now tenant r]> t)
    end).

Definition TenantRepo_SoftDelete (id : uuid) : M Dir unit :=
  update_stmt "soft-deleting tenant" (tenant_missing id) (live_tenant id)
    (fun now r => set_tenants <[id :=
       {| ten_ID := ten_ID r; ten_Code := ten_Code r; ten_Name := ten_Name r; ten_IsActive := ten_IsActive r;
          ten_CreatedAt := ten_CreatedAt r; ten_UpdatedAt := ten_UpdatedAt r; ten_DeletedAt := Some now |}]>).
End TenantRepo.

(** ** Workspaces ([workspace_repo.go]) *)

Section WorkspaceRepo.
Context `{GoStd} `{Codec}.

Definition workspace_live (w : Workspace) : bool := bool_decide (ws_DeletedAt w = None).

(** The constraint [workspaces_code_format]. *)
Definition workspace_code_format (code : string) : bool :=
  bool_decide (code = "_system")
  || match code with
     | EmptyString => false
     | String c r =>
         is_lower_ascii c && sall (fun c => is_lower_ascii c || is_digit_ascii c || Ascii.eqb c "_" || Ascii.eqb c "-") r
         && (bool_decide (r = "")
             || match srev code with String d _ => is_lower_ascii d || is_digit_ascii d | EmptyString => false end)
     end
     && (2 <=? String.length code)%nat && (String.length code <=? 50)%nat
     && negb (bool_decide (code ∈ ["global"; "admin"; "api"; "system"])).

Definition effectiveWorkspacePolicyValue (value initialized : bool) : bool := if initialized then value else true.
Definition effectiveTestRecipientMode (mode : TestRecipientMode) : TestRecipientMode :=
  if TestRecipientMode_Valid mode then mode else TestRecipientModeReplace.

(** The row [insertWorkspace] inserts. *)
Definition workspace_row (now : gotime) (ws : Workspace) : Workspace :=
  {| ws_ID := ws_ID ws;
     ws_LogicalWorkspaceID := if bool_decide (ws_LogicalWorkspaceID ws = uuid_Nil) then ws_ID ws else ws_LogicalWorkspaceID ws;
     ws_TenantID := ws_TenantID ws; ws_Code := ws_Code ws; ws_Name := ws_Name ws;
     ws_Environment := if Environment_Valid (ws_Environment ws) then ws_Environment ws else EnvironmentProd;
     ws_IsSystem := ws_IsSystem ws; ws_IsActive := true;
     ws_OpenTrackingEnabled := ws_OpenTrackingEnabled ws; ws_DefaultLocale := ws_DefaultLocale ws;
     ws_TestRecipientMode := effectiveTestRecipientMode (ws_TestRecipientMode ws);
     ws_TestRecipientAddresses := NormalizeRecipientAddresses (ws_TestRecipientAddresses ws);
     ws_AllowWorkspaceLocalTemplates :=
       effectiveWorkspacePolicyValue (ws_AllowWorkspaceLocalTemplates ws) (ws_WorkspacePoliciesInitialized ws);
     ws_AllowWorkspaceInheritedTemplateForks :=
       effectiveWorkspacePolicyValue (ws_AllowWorkspaceInheritedTemplateForks ws) (ws_WorkspacePoliciesInitialized ws);
     ws_AllowWorkspaceLocalInjectors :=
       effectiveWorkspacePolicyValue (ws_AllowWorkspaceLocalInjectors ws) (ws_WorkspacePoliciesInitialized ws);
     ws_WorkspacePoliciesInitialized := true;
     ws_CreatedAt := now; ws_UpdatedAt := now; ws_DeletedAt := None |}.

(** The unique key and the exclusion constraint of the table. *)
Definition same_code (a b : Workspace) : bool :=
  bool_decide (ws_TenantID a = ws_TenantID b) && bool_decide (ws_Code a = ws_Code b)
  && bool_decide (ws_Environment a = ws_Environment b).
Definition both_system (a b : Workspace) : bool :=
  ws_IsSystem a && workspace_live a && ws_IsSystem b && workspace_live b
  && bool_decide (ws_TenantID a = ws_TenantID b) && bool_decide (ws_Environment a = ws_Environment b).

Definition insert_workspace (key : string) (now : gotime) (ws : Workspace) (t : Tables) : PgError + (Workspace * Tables) :=
  let row := workspace_row now ws in
  match violation [(workspace_code_format (ws_Code row), check_failed "workspaces" "workspaces_code_format");
                   (bool_decide (String.length key = 32%nat),
                    check_failed "workspaces" "workspaces_unsubscribe_signing_key_len");
                   (bool_decide (tb_workspaces t !! ws_ID row = None), duplicate "workspaces_pkey");
                   (bool_decide (rows (same_code row) (tb_workspaces t) = []),
                    duplicate "workspaces_code_per_tenant_environment");
                   (bool_decide (rows (both_system row) (tb_workspaces t) = []),
                    PgOther "conflicting key value violates exclusion constraint workspaces_one_system_per_tenant_environment");
                   (bool_decide (is_Some (tb_tenants t !! ws_TenantID row)), dangling "tenants")] with
  | Some e => inl e
  | None => inr (row, set_signing <[ws_ID row := key]> (set_workspaces <[ws_ID row := row]> t))
  end.

(** [insertWorkspace]; what it returns is the value it leaves in [ws]. *)
Definition insertWorkspace (ws : Workspace) : M Dir Workspace :=
  let! signingKey := wrap_err (wrapping "workspace: generate signing key") rand_Read in
  write_stmt "inserting workspace" (fun now => insert_workspace signingKey now ws).

Definition WorkspaceRepo_Create (ws : Workspace) : M Dir Workspace := insertWorkspace ws.

Definition CreateLogicalPair (prod test : Workspace) : M Dir (Workspace * Workspace) :=
  in_tx "beginning logical workspace transaction" "committing logical workspace transaction"
    (let! prod := insertWorkspace prod in
     let! test := insertWorkspace test in
     ret (prod, test)).

Definition scan_workspace : list Workspace -> Res Workspace := first_row (NotFound "workspace not found").

Definition WorkspaceRepo_GetByID (id : uuid) : M Dir Workspace :=
  query (wrapping "scanning workspace") (fun t =>
    scan_workspace (rows (fun w => bool_decide (ws_ID w = id) && workspace_live w) (tb_workspaces t))).

Definition at_code (tenantID : uuid) (code : string) (w : Workspace) : bool :=
  bool_decide (ws_TenantID w = tenantID) && bool_decide (ws_Code w = code) && workspace_live w.

Definition GetByTenantAndCode (tenantID : uuid) (code : string) (environment : Environment) : M Dir Workspace :=
  query (wrapping "scanning workspace") (fun t =>
    scan_workspace (rows (fun w => at_code tenantID code w && bool_decide (ws_Environment w = environment))
                         (tb_workspaces t))).

Definition GetSystemWorkspace (tenantID : uuid) (environment : Environment) : M Dir Workspace :=
  query (wrapping "scanning workspace") (fun t =>
    scan_workspace (rows (fun w => bool_decide (ws_TenantID w = tenantID) && ws_IsSystem w
                                   && bool_decide (ws_Environment w = environment) && workspace_live w)
                         (tb_workspaces t))).

Context (ilike : string -> string -> bool).

(** [ORDER BY is_system DESC, id DESC]: the system workspaces come first on
    every page, whatever the cursor. *)
Definition system_first (l : list Workspace) : list Workspace :=
  List.filter ws_IsSystem l ++ List.filter (fun w => negb (ws_IsSystem w)) l.

Definition ListByTenant (tenantID : uuid) (environment : Environment) (opts : ListOptions)
  : M Dir (list Workspace * string) :=
  match ApplyPagination opts with
  | Err e => fail e
  | Ok (limit, afterID) =>
      query (wrapping "listing workspaces") (fun t =>
        let selected := rows (fun w => bool_decide (ws_TenantID w = tenantID) && bool_decide (ws_Environment w = environment)
                                       && workspace_live w
                                       && (bool_decide (lo_Search opts = "") || ilike (lo_Search opts) (ws_Name w)
                                           || ilike (lo_Search opts) (ws_Code w))) (tb_workspaces t) in
        let got := take (Z.to_nat (limit + 1)) (system_first (newest_first ws_ID (after ws_ID afterID selected))) in
        Ok (if (limit <? Z.of_nat (List.length got))%Z then
              let cut := take (Z.to_nat limit) got in
              (cut, match last cut with Some w => EncodeCursor (ws_ID w) | None => "" end)
            else (got, "")))
  end.

Definition with_code (now : gotime) (code name : string) (w : Workspace) : Workspace :=
  {| ws_ID := ws_ID w; ws_LogicalWorkspaceID := ws_LogicalWorkspaceID w; ws_TenantID := ws_TenantID w;
     ws_Code := code; ws_Name := name; ws_Environment := ws_Environment w; ws_IsSystem := ws_IsSystem w;
     ws_IsActive := ws_IsActive w; ws_OpenTrackingEnabled := ws_OpenTrackingEnabled w;
     ws_DefaultLocale := ws_DefaultLocale w; ws_TestRecipientMode := ws_TestRecipientMode w;
     ws_TestRecipientAddresses := ws_TestRecipientAddresses w;
     ws_AllowWorkspaceLocalTemplates := ws_AllowWorkspaceLocalTemplates w;
     ws_AllowWorkspaceInheritedTemplateForks := ws_AllowWorkspaceInheritedTemplateForks w;
     ws_AllowWorkspaceLocalInjectors := ws_AllowWorkspaceLocalInjectors w;
     ws_WorkspacePoliciesInitialized := ws_WorkspacePoliciesInitialized w;
     ws_CreatedAt := ws_CreatedAt w; ws_UpdatedAt := now; ws_DeletedAt := ws_DeletedAt w |}.

Definition with_deleted (now : gotime) (w : Workspace) : Workspace :=
  {| ws_ID := ws_ID w; ws_LogicalWorkspaceID := ws_LogicalWorkspaceID w; ws_TenantID := ws_TenantID w;
     ws_Code := ws_Code w; ws_Name := ws_Name w; ws_Environment := ws_Environment w; ws_IsSystem := ws_IsSystem w;
     ws_IsActive := ws_IsActive w; ws_OpenTrackingEnabled := ws_OpenTrackingEnabled w;
     ws_DefaultLocale := ws_DefaultLocale w; ws_TestRecipientMode := ws_TestRecipientMode w;
     ws_TestRecipientAddresses := ws_TestRecipientAddresses w;
     ws_AllowWorkspaceLocalTemplates := ws_AllowWorkspaceLocalTemplates w;
     ws_AllowWorkspaceInheritedTemplateForks := ws_AllowWorkspaceInheritedTemplateForks w;
     ws_AllowWorkspaceLocalInjectors := ws_AllowWorkspaceLocalInjectors w;
     ws_WorkspacePoliciesInitialized := ws_WorkspacePoliciesInitialized w;
     ws_CreatedAt := ws_CreatedAt w; ws_UpdatedAt := ws_UpdatedAt w; ws_DeletedAt := Some now |}.

(** [UPDATE workspaces SET ... WHERE p]: every row that satisfies [p]. *)
Definition update_where (p : Workspace -> bool) (f : Workspace -> Workspace) (m : gmap uuid Workspace) : gmap uuid Workspace :=
  (fun w => if p w then f w else w) <$> m.

Definition workspace_missing (what : string) : error := NotFound ("workspace " +:+ what +:+ " not found").

Definition UpdateShared (tenantID : uuid) (currentCode nextCode nextName : string) : M Dir unit :=
  exec (wrapping "updating shared workspace fields") (fun now t =>
    let p := at_code tenantID currentCode in
    let selected := rows p (tb_workspaces t) in
    if bool_decide (selected = []) then (Err (workspace_missing currentCode), t)
    else
      let taken := List.existsb (fun w => bool_decide (rows (fun o => negb (p o) && same_code (with_code now nextCode nextName w) o)
                                                  (tb_workspaces t) <> [])) selected in
      match violation [(workspace_code_format nextCode, check_failed "workspaces" "workspaces_code_format");
                       (negb taken, duplicate "workspaces_code_per_tenant_environment")] with
      | Some e => (Err (write_error "updating shared workspace fields" e), t)
      | None => (Ok tt, set_workspaces (update_where p (with_code now nextCode nextName)) t)
      end).

(** The columns [Update] writes. *)
Definition with_settings (now : gotime) (ws w : Workspace) : Workspace :=
  {| ws_ID := ws_ID w; ws_LogicalWorkspaceID := ws_LogicalWorkspaceID w; ws_TenantID := ws_TenantID w;
     ws_Code := ws_Code w; ws_Name := ws_Name ws; ws_Environment := ws_Environment w; ws_IsSystem := ws_IsSystem w;
     ws_IsActive := ws_IsActive ws; ws_OpenTrackingEnabled := ws_OpenTrackingEnabled ws;
     ws_DefaultLocale := ws_DefaultLocale ws;
     ws_TestRecipientMode := effectiveTestRecipientMode (ws_TestRecipientMode ws);
     ws_TestRecipientAddresses := NormalizeRecipientAddresses (ws_TestRecipientAddresses ws);
     ws_AllowWorkspaceLocalTemplates :=
       effectiveWorkspacePolicyValue (ws_AllowWorkspaceLocalTemplates ws) (ws_WorkspacePoliciesInitialized ws);
     ws_AllowWorkspaceInheritedTemplateForks :=
       effectiveWorkspacePolicyValue (ws_AllowWorkspaceInheritedTemplateForks ws) (ws_WorkspacePoliciesInitialized ws);
     ws_AllowWorkspaceLocalInjectors :=
       effectiveWorkspacePolicyValue (ws_AllowWorkspaceLocalInjectors ws) (ws_WorkspacePoliciesInitialized ws);
     ws_WorkspacePoliciesInitialized := true;
     ws_CreatedAt := ws_CreatedAt w; ws_UpdatedAt := now; ws_DeletedAt := ws_DeletedAt w |}.

Definition live_workspace (id : uuid) (t : Tables) : option Workspace :=
  match tb_workspaces t !! id with Some w => if workspace_live w then Some w else None | None => None end.

Definition WorkspaceRepo_Update (ws : Workspace) : M Dir unit :=
  update_stmt "updating workspace" (workspace_missing (uuid_String (ws_ID ws))) (live_workspace (ws_ID ws))
    (fun now w => set_workspaces <[ws_ID ws := with_settings now ws w]>).

Definition SoftDeleteLogical (tenantID : uuid) (code : string) : M Dir unit :=
  exec (wrapping "soft-deleting logical workspace") (fun now t =>
    let p := at_code tenantID code in
    if bool_decide (rows p (tb_workspaces t) = []) then (Err (workspace_missing code), t)
    else (Ok tt, set_workspaces (update_where p (with_deleted now)) t)).

Definition WorkspaceRepo_SoftDelete (id : uuid) : M Dir unit :=
  update_stmt "soft-deleting workspace" (workspace_missing (uuid_String id)) (live_workspace id)
    (fun now w => set_workspaces <[id := with_deleted now w]>).

Definition ExistsActiveByTenantCode (tenantCode : string) (workspaceCodes : list string) (environment : Environment)
  : M Dir (gmap string bool) :=
  match workspaceCodes with
  | [] => ret ∅
  | _ =>
      query (wrapping "querying workspace existence by tenant code") (fun t =>
        let exists_active code :=
          List.existsb (fun ten => bool_decide (rows (fun w => at_code (ten_ID ten) code w
                                        && bool_decide (ws_Environment w = environment) && ws_IsActive w)
                                      (tb_workspaces t) <> []))
                  (rows (fun r => bool_decide (ten_Code r = tenantCode) && tenant_live r) (tb_tenants t)) in
        Ok (foldr (fun code m => <[code := exists_active code]> m) ∅ workspaceCodes))
  end.

Definition Workspace_GetUnsubscribeSigningKey (workspaceID : uuid) : M Dir string :=
  query (wrapping "workspace: load signing key") (fun t =>
    match live_workspace workspaceID t, tb_signing t !! workspaceID with
    | Some _, Some key => Ok key
    | _, _ => Err (workspace_missing (uuid_String workspaceID))
    end).
End WorkspaceRepo.

(** ** Members and role assignments ([member_repo.go]) *)

Definition Role_String (r : Role) : string :=
  match r with
  | RoleSuperadmin => "superadmin" | RoleTenantAdmin => "tenant_admin" | RoleWorkspaceAdmin => "workspace_admin"
  | RoleWorkspaceEditor => "workspace_editor" | RoleWorkspaceViewer => "workspace_viewer" | RoleOther raw => raw
  end.

Definition ScopeType_String (s : ScopeType) : string :=
  match s with
  | ScopeGlobal => "global" | ScopeTenant => "tenant" | ScopeWorkspace => "workspace" | ScopeOther raw => raw
  end.

(** The columns of type [member_role] and [scope_type]. *)
Definition known_role (r : Role) : bool := match r with RoleOther _ => false | _ => true end.
Definition known_scope (s : ScopeType) : bool := match s with ScopeOther _ => false | _ => true end.

(** The constraint [mr_scope_check]. *)
Definition role_scope_check (r : MemberRole) : bool :=
  match mr_ScopeType r with
  | ScopeGlobal => bool_decide (mr_TenantID r = None) && bool_decide (mr_WorkspaceID r = None)
                   && bool_decide (mr_Role r = RoleSuperadmin)
  | ScopeTenant => bool_decide (is_Some (mr_TenantID r)) && bool_decide (mr_WorkspaceID r = None)
                   && bool_decide (mr_Role r = RoleTenantAdmin)
  | ScopeWorkspace => bool_decide (is_Some (mr_TenantID r)) && bool_decide (is_Some (mr_WorkspaceID r))
                      && (bool_decide (mr_Role r = RoleWorkspaceAdmin) || bool_decide (mr_Role r = RoleWorkspaceEditor)
                          || bool_decide (mr_Role r = RoleWorkspaceViewer))
  | ScopeOther _ => false
  end.

(** The unique key [mr_unique_scope_assignment], nulls not distinct. *)
Definition same_assignment (a b : MemberRole) : bool :=
  bool_decide (mr_MemberID a = mr_MemberID b) && bool_decide (mr_ScopeType a = mr_ScopeType b)
  && bool_decide (mr_TenantID a = mr_TenantID b) && bool_decide (mr_WorkspaceID a = mr_WorkspaceID b).

Definition references (o : option uuid) (p : uuid -> bool) : bool := match o with Some id => p id | None => true end.

Definition with_role (role : Role) (r : MemberRole) : MemberRole :=
  mkMemberRole (mr_ID r) (mr_MemberID r) role (mr_ScopeType r) (mr_TenantID r) (mr_WorkspaceID r)
    (mr_CreatedAt r) (mr_CreatedBy r).
Definition with_created (now : gotime) (r : MemberRole) : MemberRole :=
  mkMemberRole (mr_ID r) (mr_MemberID r) (mr_Role r) (mr_ScopeType r) (mr_TenantID r) (mr_WorkspaceID r)
    now (mr_CreatedBy r).

Definition invalid_enum (type value : string) : PgError := PgOther ("invalid input value for enum " +:+ type +:+ ": " +:+ value).

Definition insert_role (now : gotime) (role : MemberRole) (t : Tables) : PgError + (MemberRole * Tables) :=
  let row := with_created now role in
  match violation [(known_role (mr_Role row), invalid_enum "member_role" (Role_String (mr_Role row)));
                   (known_scope (mr_ScopeType row), invalid_enum "scope_type" (ScopeType_String (mr_ScopeType row)));
                   (role_scope_check row, check_failed "member_roles" "mr_scope_check");
                   (bool_decide (tb_roles t !! mr_ID row = None), duplicate "member_roles_pkey");
                   (bool_decide (rows (same_assignment row) (tb_roles t) = []), duplicate "mr_unique_scope_assignment");
                   (bool_decide (is_Some (tb_members t !! mr_MemberID row)), dangling "members");
                   (references (mr_TenantID row) (fun id => bool_decide (is_Some (tb_tenants t !! id))), dangling "tenants");
                   (references (mr_WorkspaceID row) (fun id => bool_decide (is_Some (tb_workspaces t !! id))), dangling "workspaces");
                   (references (mr_CreatedBy row) (fun id => bool_decide (is_Some (tb_members t !! id))), dangling "members")] with
  | Some e => inl e
  | None => inr (row, set_roles <[mr_ID row := row]> t)
  end.

Section MemberRepo.
Context `{GoStd} `{Codec}.

Definition member_row (now : gotime) (m : Member) : Member :=
  mkMember (mem_ID m) (mem_Email m) (mem_DisplayName m) (mem_OIDCSubject m) (mem_OIDCIssuer m) now now.

Definition MemberRepo_Create (member : Member) : M Dir Member :=
  write_stmt "inserting member" (fun now t =>
    match violation [(bool_decide (tb_members t !! mem_ID member = None), duplicate "members_pkey");
                     (bool_decide (rows (fun o => bool_decide (mem_Email o = mem_Email member)) (tb_members t) = []),
                      duplicate "members_email_unique")] with
    | Some e => inl e
    | None => inr (member_row now member, set_members <[mem_ID member := member_row now member]> t)
    end).

(** [pgx.CollectExactlyOneRow]. *)
Definition exactly_one {A} (missing : error) (l : list A) : Res A :=
  match l with
  | [] => Err missing
  | [x] => Ok x
  | _ => Err (wrapping "scanning member" (EMsg "too many rows in result set"))
  end.

Definition GetByEmail (email : string) : M Dir Member :=
  query (wrapping "querying member by email") (fun t =>
    exactly_one (NotFound ("member with email " +:+ Quote email +:+ " not found"))
      (rows (fun m => bool_decide (mem_Email m = email)) (tb_members t))).

Definition GetByOIDCIdentity (issuer subject : string) : M Dir Member :=
  query (wrapping "querying member by oidc identity") (fun t =>
    exactly_one (NotFound ("member with oidc issuer " +:+ Quote issuer +:+ " and subject " +:+ Quote subject +:+ " not found"))
      (rows (fun m => bool_decide (mem_OIDCIssuer m = Some issuer) && bool_decide (mem_OIDCSubject m = Some subject))
         (tb_members t))).

Definition MemberRepo_GetByID (id : uuid) : M Dir Member :=
  query (wrapping "querying member by id") (fun t =>
    match tb_members t !! id with
    | Some m => Ok m
    | None => Err (NotFound ("member " +:+ uuid_String id +:+ " not found"))
    end).

Definition CountAll : M Dir Z :=
  query (wrapping "counting members") (fun t => Ok (Z.of_nat (size (tb_members t)))).

Definition ListAll (opts : ListOptions) : M Dir (list Member * string) :=
  match ApplyPagination opts with
  | Err e => fail e
  | Ok (limit, afterID) =>
      query (wrapping "listing members") (fun t =>
        Ok (page mem_ID (rows (fun _ => true) (tb_members t)) limit afterID))
  end.

(** The assignments in one scope: [scope_type = @scope_type AND <column> = @scope_id]. *)
Definition in_scope (scopeType : ScopeType) (scopeID : option uuid) (r : MemberRole) : bool :=
  bool_decide (mr_ScopeType r = scopeType) &&
  match scopeType with
  | ScopeTenant => bool_decide (is_Some scopeID) && bool_decide (mr_TenantID r = scopeID)
  | ScopeWorkspace => bool_decide (is_Some scopeID) && bool_decide (mr_WorkspaceID r = scopeID)
  | _ => true
  end.

Definition ListInScope (scopeType : ScopeType) (scopeID : option uuid) (opts : ListOptions)
  : M Dir (list Member * string) :=
  match ApplyPagination opts with
  | Err e => fail e
  | Ok (limit, afterID) =>
      if negb (bool_decide (scopeType = ScopeTenant)) && negb (bool_decide (scopeType = ScopeWorkspace))
      then fail (EMsg ("unsupported member scope " +:+ Quote (ScopeType_String scopeType)))
      else if bool_decide (scopeID = None) then fail (EMsg "scope id is required for scoped member listing")
      else
        query (wrapping "listing members by scope") (fun t =>
          let member_in_scope m :=
            bool_decide (rows (fun r => bool_decide (mr_MemberID r = mem_ID m) && in_scope scopeType scopeID r)
                              (tb_roles t) <> []) in
          Ok (page mem_ID (rows member_in_scope (tb_members t)) limit afterID))
  end.

(** The value returned is what the statement leaves in [*role]. *)
Definition AddRole (role : MemberRole) : M Dir MemberRole :=
  write_stmt "inserting member role" (fun now => insert_role now role).

Definition scope_error (scopeType : ScopeType) (what : string) (scopeID : option uuid) : option error :=
  match scopeType with
  | ScopeGlobal => None
  | ScopeTenant => if bool_decide (scopeID = None) then Some (EMsg ("scope id is required for tenant " +:+ what)) else None
  | ScopeWorkspace => if bool_decide (scopeID = None) then Some (EMsg ("scope id is required for workspace " +:+ what)) else None
  | ScopeOther raw => Some (EMsg ("unknown scope type: " +:+ raw))
  end.

Definition GetRolesInScope (memberID : uuid) (scopeType : ScopeType) (scopeID : option uuid) : M Dir (list MemberRole) :=
  match scope_error scopeType "member role query" scopeID with
  | Some e => fail e
  | None => query (wrapping "querying member roles in scope") (fun t =>
      Ok (rows (fun r => bool_decide (mr_MemberID r = memberID) && in_scope scopeType scopeID r) (tb_roles t)))
  end.

Definition scopeIDForRole (role : MemberRole) : option uuid :=
  match mr_ScopeType role with ScopeTenant => mr_TenantID role | ScopeWorkspace => mr_WorkspaceID role | _ => None end.

Definition compareMemberRolesForScope (a b : MemberRole) : Z :=
  let cmp := (Role_Level (mr_Role b) - Role_Level (mr_Role a))%Z in
  if negb (cmp =? 0)%Z then cmp
  else if (mr_CreatedAt a =? mr_CreatedAt b)%Z then
    (if bool_decide (mr_ID a = mr_ID b) then 0
     else if String.ltb (uuid_String (mr_ID a)) (uuid_String (mr_ID b)) then -1 else 1)%Z
  else if (mr_CreatedAt b <? mr_CreatedAt a)%Z then (-1)%Z else 1%Z.

Definition not_after (a b : MemberRole) : Prop := (compareMemberRolesForScope a b <= 0)%Z.
#[local] Instance not_after_dec : RelDecision not_after.
Proof. intros a b. unfold not_after. apply _. Defined.

Definition sameLocalScopeRole (existing desired : MemberRole) : bool :=
  bool_decide (mr_Role existing = mr_Role desired) && bool_decide (mr_ScopeType existing = mr_ScopeType desired) &&
  match mr_ScopeType desired with
  | ScopeGlobal => true
  | ScopeTenant => bool_decide (is_Some (mr_TenantID existing)) && bool_decide (mr_TenantID existing = mr_TenantID desired)
  | ScopeWorkspace =>
      bool_decide (is_Some (mr_WorkspaceID existing)) && bool_decide (mr_WorkspaceID existing = mr_WorkspaceID desired)
  | ScopeOther _ => false
  end.

(** [UPDATE member_roles SET role = @role WHERE id = @id]. *)
Definition update_role (id : uuid) (role : Role) (t : Tables) : PgError + (unit * Tables) :=
  match tb_roles t !! id with
  | None => inr (tt, t)
  | Some r =>
      match violation [(known_role role, invalid_enum "member_role" (Role_String role));
                       (role_scope_check (with_role role r), check_failed "member_roles" "mr_scope_check")] with
      | Some e => inl e
      | None => inr (tt, set_roles <[id := with_role role r]> t)
      end
  end.

(** [role.ID = kept.ID; ...]: the row the assignment keeps. *)
Definition adopt (kept role : MemberRole) : MemberRole :=
  mkMemberRole (mr_ID kept) (mr_MemberID role) (mr_Role role) (mr_ScopeType role) (mr_TenantID kept)
    (mr_WorkspaceID kept) (mr_CreatedAt kept) (mr_CreatedBy kept).

Definition ReplaceRoleInScope (role : MemberRole) : M Dir MemberRole :=
  in_tx "begin replace member role tx" "commit replace member role tx"
    (let! existing := GetRolesInScope (mr_MemberID role) (mr_ScopeType role) (scopeIDForRole role) in
     let existing := if (1 <? List.length existing)%nat then merge_sort not_after existing else existing in
     match existing with
     | [] => write_stmt "inserting member role" (fun now => insert_role now role)
     | kept :: extra =>
         if bool_decide (extra = []) && sameLocalScopeRole kept role then ret (adopt kept role)
         else
           write_stmt "updating member role in scope" (fun _ => update_role (mr_ID kept) (mr_Role role)) ;;;
           (if bool_decide (extra = []) then ret tt
            else exec (wrapping "deleting superseded member roles") (fun _ t =>
                   (Ok tt, set_roles (fun m => foldr (fun r => delete (mr_ID r)) m extra) t))) ;;;
           ret (adopt kept role)
     end).

Definition RemoveRole (roleID : uuid) : M Dir unit :=
  update_stmt "deleting member role" (NotFound ("member role " +:+ uuid_String roleID +:+ " not found"))
    (fun t => tb_roles t !! roleID) (fun _ _ => set_roles (delete roleID)).

Definition delete_roles (p : MemberRole -> bool) (m : gmap uuid MemberRole) : gmap uuid MemberRole :=
  foldr (fun r => delete (mr_ID r)) m (rows p m).

Definition RevokeAccessInScope (memberID : uuid) (scopeType : ScopeType) (scopeID : option uuid) : M Dir Z :=
  match scope_error scopeType "access revocation" scopeID with
  | Some e => fail e
  | None =>
      let p r := bool_decide (mr_MemberID r = memberID) && in_scope scopeType scopeID r in
      exec (wrapping "revoking member access") (fun _ t =>
        (Ok (Z.of_nat (List.length (rows p (tb_roles t)))), set_roles (delete_roles p) t))
  end.

(** [ORDER BY created_at]. *)
Definition older (a b : MemberRole) : Prop := (mr_CreatedAt a <= mr_CreatedAt b)%Z.
#[local] Instance older_dec : RelDecision older.
Proof. intros a b. unfold older. apply _. Defined.

Definition roles_of (memberID : uuid) (t : Tables) : list MemberRole :=
  merge_sort older (rows (fun r => bool_decide (mr_MemberID r = memberID)) (tb_roles t)).

Definition GetRoles (memberID : uuid) : M Dir (list MemberRole) :=
  query (wrapping "querying member roles") (fun t => Ok (roles_of memberID t)).

Definition GetRolesByMembers (memberIDs : list uuid) : M Dir (gmap uuid (list MemberRole)) :=
  match memberIDs with
  | [] => ret ∅
  | _ =>
      query (wrapping "batch querying member roles") (fun t =>
        Ok (foldr (fun id m => match roles_of id t with [] => m | l => <[id := l]> m end) ∅ memberIDs))
  end.
End MemberRepo.

(** ** API keys ([apikey_repo.go]) *)

Section APIKeyRepo.
Context `{GoStd} `{Codec}.

Definition key_live (k : APIKey) : bool := bool_decide (key_RevokedAt k = None).

Definition key_row (now : gotime) (k : APIKey) : APIKey :=
  mkAPIKey (key_ID k) (key_WorkspaceID k) (key_Name k) (key_KeyHash k) (key_KeyPrefix k) (key_KeyHint k)
    (key_CreatedBy k) None None now.

Definition APIKeyRepo_Create (key : APIKey) : M Dir APIKey :=
  write_stmt "inserting api key" (fun now t =>
    match violation [(bool_decide (tb_keys t !! key_ID key = None), duplicate "api_keys_pkey");
                     (bool_decide (rows (fun o => bool_decide (key_KeyHash o = key_KeyHash key)) (tb_keys t) = []),
                      duplicate "api_keys_hash_unique");
                     (bool_decide (is_Some (tb_workspaces t !! key_WorkspaceID key)), dangling "workspaces");
                     (bool_decide (is_Some (tb_members t !! key_CreatedBy key)), dangling "members")] with
    | Some e => inl e
    | None => inr (key_row now key, set_keys <[key_ID key := key_row now key]> t)
    end).

Definition scan_key : list APIKey -> Res APIKey := first_row (NotFound "api key not found").

Definition APIKeyRepo_GetByID (id : uuid) : M Dir APIKey :=
  query (wrapping "scanning api key") (fun t =>
    scan_key (rows (fun k => bool_decide (key_ID k = id) && key_live k) (tb_keys t))).

Definition GetByHash (hash : string) : M Dir APIKey :=
  query (wrapping "scanning api key") (fun t =>
    scan_key (rows (fun k => bool_decide (key_KeyHash k = hash) && key_live k) (tb_keys t))).

Definition with_revoked (now : gotime) (k : APIKey) : APIKey :=
  mkAPIKey (key_ID k) (key_WorkspaceID k) (key_Name k) (key_KeyHash k) (key_KeyPrefix k) (key_KeyHint k)
    (key_CreatedBy k) (key_LastUsedAt k) (Some now) (key_CreatedAt k).
Definition with_last_used (now : gotime) (k : APIKey) : APIKey :=
  mkAPIKey (key_ID k) (key_WorkspaceID k) (key_Name k) (key_KeyHash k) (key_KeyPrefix k) (key_KeyHint k)
    (key_CreatedBy k) (Some now) (key_RevokedAt k) (key_CreatedAt k).

Definition live_key (id : uuid) (t : Tables) : option APIKey :=
  match tb_keys t !! id with Some k => if key_live k then Some k else None | None => None end.

Definition APIKeyRepo_Revoke (id : uuid) : M Dir unit :=
  update_stmt "revoking api key" (NotFound ("api key " +:+ uuid_String id +:+ " not found or already revoked"))
    (live_key id) (fun now k => set_keys <[id := with_revoked now k]>).

(** No row is not an error here. *)
Definition TouchLastUsed (id : uuid) : M Dir unit :=
  exec (wrapping "touching api key last_used_at") (fun now t =>
    (Ok tt, match tb_keys t !! id with Some k => set_keys <[id := with_last_used now k]> t | None => t end)).

(** The listing leaves the hash out. *)
Definition without_hash (k : APIKey) : APIKey :=
  mkAPIKey (key_ID k) (key_WorkspaceID k) (key_Name k) "" (key_KeyPrefix k) (key_KeyHint k)
    (key_CreatedBy k) (key_LastUsedAt k) (key_RevokedAt k) (key_CreatedAt k).

Definition APIKeyRepo_ListByWorkspace (workspaceID : uuid) (opts : ListOptions) : M Dir (PageResult APIKey) :=
  match ApplyPagination opts with
  | Err e => fail e
  | Ok (limit, afterID) =>
      query (wrapping "listing api keys") (fun t =>
        let '(items, cursor) := page key_ID (without_hash <$> rows (fun k => bool_decide (key_WorkspaceID k = workspaceID))
                                                             (tb_keys t)) limit afterID in
        Ok (mkPageResult _ items cursor (negb (bool_decide (cursor = "")))))
  end.
End APIKeyRepo.

(** ** The repositories as stores *)

Section Stores.
Context `{GoStd} `{Codec} (ilike : string -> string -> bool).

Definition TenantRepo : TenantStore.t Dir := {|
  TenantStore.Create := TenantRepo_Create;
  TenantStore.GetByID := TenantRepo_GetByID;
  TenantStore.GetByCode := TenantRepo_GetByCode;
  TenantStore.List := TenantRepo_List ilike;
  TenantStore.Update := TenantRepo_Update;
  TenantStore.SoftDelete := TenantRepo_SoftDelete;
|}.

Definition WorkspaceRepo : WorkspaceStore.t Dir := {|
  WorkspaceStore.GetByID := WorkspaceRepo_GetByID;
  WorkspaceStore.GetByTenantAndCode := GetByTenantAndCode;
  WorkspaceStore.GetSystemWorkspace := GetSystemWorkspace;
  WorkspaceStore.ListByTenant := fun tenantID environment limit cursor =>
    ListByTenant ilike tenantID environment (mkListOptions cursor limit "");
|}.

Definition MemberRepo : MemberStore.t Dir := {|
  MemberStore.Create := MemberRepo_Create;
  MemberStore.GetByEmail := GetByEmail;
  MemberStore.GetByOIDCIdentity := GetByOIDCIdentity;
  MemberStore.GetByID := MemberRepo_GetByID;
  MemberStore.ListAll := ListAll;
  MemberStore.ListInScope := ListInScope;
  MemberStore.AddRole := AddRole;
  MemberStore.ReplaceRoleInScope := ReplaceRoleInScope;
  MemberStore.RemoveRole := RemoveRole;
  MemberStore.RevokeAccessInScope := RevokeAccessInScope;
  MemberStore.GetRoles := GetRoles;
  MemberStore.GetRolesInScope := GetRolesInScope;
  MemberStore.GetRolesByMembers := GetRolesByMembers;
|}.

Definition APIKeyRepo : APIKeyStore.t Dir := {|
  APIKeyStore.Create := APIKeyRepo_Create;
  APIKeyStore.GetByID := APIKeyRepo_GetByID;
  APIKeyStore.GetByHash := GetByHash;
  APIKeyStore.Revoke := APIKeyRepo_Revoke;
  APIKeyStore.TouchLastUsed := TouchLastUsed;
  APIKeyStore.ListByWorkspace := APIKeyRepo_ListByWorkspace;
|}.
End Stores.
