(* ===== verification/Auth.v ===== *)
(** * Authentication and authorisation ([service/apikey.go], [http/middleware])

    API keys - their generation, validation and revocation -, the [Auth]
    middleware that recognises a key or an OIDC bearer token, and the [RequireRole]
    middleware that checks the roles of a member against a route's scope. *)
From stdpp Require Import base gmap strings list.
From Stdlib Require Import ZArith NArith Ascii String Lia.
From S2P Require Import Prelude GoMonad Domain Ports Token Config Http.
From S2P Require Import Suppression Postgres Database Directory.

(** SHA-256, as HMAC-SHA256 in [Codec]. *)
Class Sha256 := { sha256 : string -> string }.

(** ** API keys *)

Record APIKeyService (W : Type) := mkAPIKeyService {
  ak_store : APIKeyStore.t W;
  ak_pepper : string;
  ak_rt : Runtime W;
  ak_rand : M W string;
}.
Arguments mkAPIKeyService {W}. Arguments ak_store {W}. Arguments ak_pepper {W}.
Arguments ak_rt {W}. Arguments ak_rand {W}.

Section Hashes.
Context `{Codec} `{Sha256}.
Definition HashKeyHMAC (key pepper : string) : string := HexEncode (hmac_sha256 pepper key).
Definition HashKeyPlain (key : string) : string := HexEncode (sha256 key).
End Hashes.

(** [s[len(s)-n:]]. *)
Definition suffix (n : nat) (s : string) : string := String.substring (String.length s - n) n s.

Section APIKeys.
Context `{Codec} `{Sha256} {W : Type} (s : APIKeyService W).

Definition generateKey (environment : Environment) : M W string :=
  let environment := if Environment_Valid environment then environment else EnvironmentProd in
  let! b := ak_rand s in
  ret (APIKeyTokenPrefix environment +:+ HexEncode b).

Definition APIKey_Generate (workspaceID : uuid) (environment : Environment) (name : string) (createdBy : uuid)
  : M W (string * APIKey) :=
  let! fullKey := generateKey environment in
  let! now := Now (ak_rt s) in
  let! id := NewV7 (ak_rt s) in
  let key := mkAPIKey id workspaceID name (HashKeyHMAC fullKey (ak_pepper s)) (APIKeyPrefix environment)
               (suffix 8 fullKey) createdBy None None now in
  let! key := APIKeyStore.Create (ak_store s) key in
  ret (fullKey, key).

Definition APIKey_Validate (rawKey : string) : M W APIKey :=
  let! key := APIKeyStore.GetByHash (ak_store s) (HashKeyHMAC rawKey (ak_pepper s)) in
  if negb (bool_decide (key_RevokedAt key = None)) then fail (ESent ErrNotFound)
  else ignore (APIKeyStore.TouchLastUsed (ak_store s) (key_ID key)) ;;; ret key.

Definition APIKey_Revoke (workspaceID keyID : uuid) : M W unit :=
  let! key := APIKeyStore.GetByID (ak_store s) keyID in
  if negb (bool_decide (key_WorkspaceID key = workspaceID)) then fail (ESent ErrNotFound)
  else APIKeyStore.Revoke (ak_store s) keyID.

Definition APIKey_ListByWorkspace (workspaceID : uuid) (opts : ListOptions) : M W (PageResult APIKey) :=
  APIKeyStore.ListByWorkspace (ak_store s) workspaceID opts.
End APIKeys.

(** ** The [Auth] middleware *)

Record OIDCClaims := mkClaims { cl_Subject : string; cl_Email : string; cl_Issuer : string }.

Definition apiKeyEnvironment (token : string) : option Environment :=
  List.find (fun e => HasPrefix token (APIKeyTokenPrefix e)) Environments.

Section Auth.
Context `{GoStd} `{Codec} `{Sha256} {W : Type}.
Context (apiKeyStore : APIKeyStore.t W) (memberStore : MemberStore.t W)
  (oidcVerifier : string -> M W OIDCClaims) (pepper : string).

(** The key whose hash is the token's, by HMAC or, for old keys, plain. *)
Definition find_key (token : string) : M W APIKey :=
  try! r := APIKeyStore.GetByHash apiKeyStore (HashKeyHMAC token pepper) in
  match r with
  | Ok key => ret key
  | Err _ => APIKeyStore.GetByHash apiKeyStore (HashKeyPlain token)
  end.

Definition authenticateAPIKey (token : string) (environment : Environment) : MiddlewareFunc W := fun next =>
  try! r := up (find_key token) in
  match r with
  | Err _ => Unauthorized "invalid API key"
  | Ok key =>
      if negb (bool_decide (key_RevokedAt key = None)) then Unauthorized "API key revoked"
      else
        (* the goroutine that records the use *)
        set_state (set_touched (fun l => l ++ [key_ID key])) ;;;
        set_value (fun v => set_environment (Some environment)
                              (set_identity "apikey" (v_member v) (v_roles v) (Some (key_WorkspaceID key)) v)) ;;;
        next
  end.

(** What that goroutine does, whenever it runs. *)
Definition background (id : uuid) : M W unit := ignore (APIKeyStore.TouchLastUsed apiKeyStore id).

Definition findUnboundMemberByEmail (email : string) : M W Member :=
  if bool_decide (TrimSpace email = "") then fail (ESent ErrNotFound)
  else
    let! member := MemberStore.GetByEmail memberStore email in
    if bool_decide (is_Some (mem_OIDCIssuer member)) || bool_decide (is_Some (mem_OIDCSubject member))
    then fail (ESent ErrNotFound) else ret member.

Definition load_roles (member : Member) : MiddlewareFunc W := fun next =>
  try! r := up (MemberStore.GetRoles memberStore (mem_ID member)) in
  match r with
  | Err _ => WriteError 500 "INTERNAL_ERROR" "failed to load roles"
  | Ok roles =>
      set_value (fun v => set_identity "oidc" (Some member) (Some roles) (v_workspace_id v) v) ;;; next
  end.

Definition authenticateOIDC (token : string) : MiddlewareFunc W := fun next =>
  try! r := up (oidcVerifier token) in
  match r with
  | Err _ => Unauthorized "invalid token"
  | Ok claims =>
      if bool_decide (cl_Issuer claims = "") || bool_decide (cl_Subject claims = "") then Unauthorized "invalid token"
      else
        try! m := up (MemberStore.GetByOIDCIdentity memberStore (cl_Issuer claims) (cl_Subject claims)) in
        match m with
        | Ok member => load_roles member next
        | Err e =>
            if negb (IsNotFound e) && negb (errors_Is e ErrNotFound)
            then WriteError 500 "INTERNAL_ERROR" "failed to load member"
            else
              try! m := up (findUnboundMemberByEmail (cl_Email claims)) in
              match m with
              | Ok member => load_roles member next
              | Err _ => Forbidden "identity not registered"
              end
        end
  end.

Definition Auth : MiddlewareFunc W := fun next =>
  let! c := conn in
  let header := Header "Authorization" c in
  if bool_decide (header = "") then Unauthorized "missing authorization"
  else if negb (HasPrefix header "Bearer ") then Unauthorized "invalid authorization format"
  else
    let token := TrimPrefix header "Bearer " in
    if bool_decide (token = "") then Unauthorized "missing authorization"
    else match apiKeyEnvironment token with
         | Some environment => authenticateAPIKey token environment next
         | None => authenticateOIDC token next
         end.
End Auth.

(** ** Roles *)

(** One role against the minimum a route requires in its scope. *)
Definition role_permits (minRole : Role) (tenantID workspaceID : option uuid) (r : MemberRole) : bool :=
  (bool_decide (mr_Role r = RoleSuperadmin) && bool_decide (mr_ScopeType r = ScopeGlobal))
  || (bool_decide (mr_ScopeType r = ScopeTenant) && bool_decide (is_Some tenantID) && bool_decide (is_Some (mr_TenantID r))
      && bool_decide (mr_TenantID r = tenantID) && (Role_Level minRole <=? Role_Level (mr_Role r))%Z)
  || (bool_decide (mr_ScopeType r = ScopeWorkspace) && bool_decide (is_Some workspaceID)
      && bool_decide (is_Some (mr_WorkspaceID r)) && bool_decide (mr_WorkspaceID r = workspaceID)
      && (Role_Level minRole <=? Role_Level (mr_Role r))%Z).

Fixpoint hasPermission (roles : list MemberRole) (minRole : Role) (tenantID workspaceID : option uuid) : bool :=
  match roles with
  | [] => false
  | r :: rest => if role_permits minRole tenantID workspaceID r then true
                 else hasPermission rest minRole tenantID workspaceID
  end.

Section RequireRole.
Context {W : Type} (tenantStore : TenantStore.t W) (wsStore : WorkspaceStore.t W).

(** The scope of the route: [Err] is the message of the refusal. *)
Definition role_scope (v : Values) : M W (option uuid * option uuid) :=
  let! tenantID :=
    (if bool_decide (v_tenant_code v = "") then ret None
     else wrap_err (fun _ => EMsg "invalid tenant")
            (let! tenant := TenantStore.GetByCode tenantStore (v_tenant_code v) in ret (Some (ten_ID tenant)))) in
  let! workspaceID :=
    (match tenantID with
     | Some tid =>
         if bool_decide (v_workspace_code v = "") then ret None
         else
           let environment := match v_environment v with
                              | Some e => if Environment_Valid e then e else EnvironmentProd
                              | None => EnvironmentProd
                              end in
           wrap_err (fun _ => EMsg "invalid workspace")
             (let! ws := WorkspaceStore.GetByTenantAndCode wsStore tid (v_workspace_code v) environment in
              ret (Some (ws_ID ws)))
     | None => ret None
     end) in
  ret (tenantID, workspaceID).

Definition RequireRole (minRole : Role) : MiddlewareFunc W := fun next =>
  let! v := values in
  if bool_decide (v_auth_type v = "apikey") then next
  else if negb (bool_decide (v_auth_type v = "oidc")) then Forbidden "authentication required"
  else match v_roles v with
       | None => Forbidden "no roles assigned"
       | Some roles =>
           try! scope := up (role_scope v) in
           match scope with
           | Err e => Forbidden (error_string e)
           | Ok (tenantID, workspaceID) =>
               if hasPermission roles minRole tenantID workspaceID then next
               else Forbidden "insufficient permissions"
           end
       end.
End RequireRole.

(** * Theorems *)

(** What gives a member authority over a route's scope. *)
Inductive authorises (minRole : Role) (tenantID workspaceID : option uuid) (r : MemberRole) : Prop :=
| by_superadmin : mr_Role r = RoleSuperadmin -> mr_ScopeType r = ScopeGlobal -> authorises minRole tenantID workspaceID r
| by_tenant tid : tenantID = Some tid -> mr_ScopeType r = ScopeTenant -> mr_TenantID r = Some tid ->
    (Role_Level minRole <= Role_Level (mr_Role r))%Z -> authorises minRole tenantID workspaceID r
| by_workspace wid : workspaceID = Some wid -> mr_ScopeType r = ScopeWorkspace -> mr_WorkspaceID r = Some wid ->
    (Role_Level minRole <= Role_Level (mr_Role r))%Z -> authorises minRole tenantID workspaceID r.

Lemma role_permits_spec minRole tid wid r : role_permits minRole tid wid r = true <-> authorises minRole tid wid r.
Proof.
  unfold role_permits. rewrite !orb_true_iff, !andb_true_iff, !bool_decide_eq_true, !Z.leb_le. split.
  - intros [ [ [? ?]|([ [ [? [t Et] ] ?] E] & ?)]|([ [ [? [w Ew] ] ?] E] & ?)]; [by apply by_superadmin| |].
    + eapply by_tenant; [exact Et|congruence..|done].
    + eapply by_workspace; [exact Ew|congruence..|done].
  - intros [? ?|t -> ? E ?|w -> ? E ?]; [by (left; left)|left; right|right]; rewrite E; eauto 12 using mk_is_Some.
Qed.

Lemma hasPermission_spec roles minRole tid wid :
  hasPermission roles minRole tid wid = true <-> exists r, r ∈ roles /\ authorises minRole tid wid r.
Proof.
  induction roles as [|r roles IH]; simpl; [split; [done|set_solver]|].
  destruct (role_permits _ _ _ r) eqn:E.
  - apply role_permits_spec in E. split; [|done]. intros _. exists r. split; [left|done].
  - rewrite IH. split; intros (x & Hx & Ha); exists x; (split; [|done]); [by right|].
    apply elem_of_cons in Hx as [->|Hx]; [|done]. apply role_permits_spec in Ha. congruence.
Qed.
