(* ===== verification/Members.v ===== *)
(** * Member management ([http/handler/member.go])

    The handlers that create members and assign, replace and remove their roles,
    on the global, tenant and workspace routes. *)
From stdpp Require Import base gmap strings list.
From Stdlib Require Import ZArith NArith Ascii String Lia.
From S2P Require Import Prelude GoMonad Domain Ports Token Config Http.
From S2P Require Import Suppression Postgres Database Directory Auth.

(** The parsers of other packages the handlers call: [uuid.Parse] and
    [mail.ParseAddress], and echo's [c.Bind] on a request type. *)
Class Parsers := { uuid_Parse : string -> Res uuid; ParseAddress : string -> Res string }.
Class Binder (A : Type) := { Bind : Conn -> Res A }.

Record memberScope := mkScope {
  sc_scopeType : ScopeType;
  sc_tenantID : option uuid;
  sc_workspaceID : option uuid;
}.

(** A nil scope is the global surface. *)
Definition scopeID (s : option memberScope) : option uuid :=
  match s with
  | None => None
  | Some s => match sc_scopeType s with
              | ScopeTenant => sc_tenantID s | ScopeWorkspace => sc_workspaceID s | _ => None
              end
  end.

Definition both_eq (a b : option uuid) : bool := bool_decide (is_Some a) && bool_decide (is_Some b) && bool_decide (a = b).

Definition scope_matches (s : option memberScope) (role : MemberRole) : bool :=
  match s with
  | None => true
  | Some s =>
      bool_decide (mr_ScopeType role = sc_scopeType s) &&
      match sc_scopeType s with
      | ScopeTenant => both_eq (mr_TenantID role) (sc_tenantID s)
      | ScopeWorkspace => both_eq (mr_WorkspaceID role) (sc_workspaceID s)
      | _ => true
      end
  end.

Definition rolesForResponse (s : option memberScope) (roles : list MemberRole) : list MemberRole :=
  match s with None => roles | Some _ => List.filter (scope_matches s) roles end.

Definition isValidRole : Role -> bool := known_role.
Definition isValidScopeType : ScopeType -> bool := known_scope.

Definition allowedRole (s : option memberScope) (role : Role) : bool :=
  match s with
  | None => isValidRole role
  | Some s => match sc_scopeType s with
              | ScopeTenant => bool_decide (role = RoleTenantAdmin)
              | ScopeWorkspace => bool_decide (role = RoleWorkspaceAdmin) || bool_decide (role = RoleWorkspaceEditor)
                                  || bool_decide (role = RoleWorkspaceViewer)
              | _ => isValidRole role
              end
  end.

Definition allowedScopeType (s : option memberScope) (scopeType : ScopeType) : bool :=
  match s with
  | None => isValidScopeType scopeType
  | Some s => bool_decide (scopeType = sc_scopeType s)
  end.

(** The conversions [domain.Role(s)] and [domain.ScopeType(s)]. *)
Definition to_Role (s : string) : Role :=
  if bool_decide (s = "superadmin") then RoleSuperadmin
  else if bool_decide (s = "tenant_admin") then RoleTenantAdmin
  else if bool_decide (s = "workspace_admin") then RoleWorkspaceAdmin
  else if bool_decide (s = "workspace_editor") then RoleWorkspaceEditor
  else if bool_decide (s = "workspace_viewer") then RoleWorkspaceViewer
  else RoleOther s.

Definition to_ScopeType (s : string) : ScopeType :=
  if bool_decide (s = "global") then ScopeGlobal
  else if bool_decide (s = "tenant") then ScopeTenant
  else if bool_decide (s = "workspace") then ScopeWorkspace
  else ScopeOther s.

Record CreateMemberRequest := mkCreateMember {
  cm_Email : string;
  cm_DisplayName : option string;
  cm_Role : option string;
}.

Record roleAssignmentRequest := mkRoleAssignment {
  ra_Role : string;
  ra_ScopeType : string;
  ra_TenantID : option string;
  ra_WorkspaceID : option string;
}.

(** ** Responses ([response/member.go]) *)

Section Responses.
Context `{GoStd}.

Definition field (name : string) (v : any) : list (string * any) := [(name, v)].
Definition flag (name : string) (b : bool) : list (string * any) := field name (ABool b).
Definition text (name : string) (s : string) : list (string * any) := field name (AStr s).
(** [omitempty] on a pointer. *)
Definition optional (name : string) (v : option string) : list (string * any) :=
  match v with Some s => [(name, AStr s)] | None => [] end.
Definition nullable (v : option string) : any := match v with Some s => AStr s | None => ANil end.

Definition NewMemberResponse (m : Member) : list (string * any) :=
  field "id" (AStr (uuid_String (mem_ID m))) ++ field "email" (AStr (mem_Email m))
  ++ field "display_name" (nullable (mem_DisplayName m)) ++ field "created_at" (AStr (rfc3339 (mem_CreatedAt m)))
  ++ field "updated_at" (AStr (rfc3339 (mem_UpdatedAt m))).

Definition role_response (tenantCode workspaceCode : option string) (r : MemberRole) : any :=
  AMap (field "id" (AStr (uuid_String (mr_ID r))) ++ field "member_id" (AStr (uuid_String (mr_MemberID r)))
        ++ field "role" (AStr (Role_String (mr_Role r))) ++ field "scope_type" (AStr (ScopeType_String (mr_ScopeType r)))
        ++ optional "tenant_id" (uuid_String <$> mr_TenantID r) ++ optional "workspace_id" (uuid_String <$> mr_WorkspaceID r)
        ++ optional "tenant_code" tenantCode ++ optional "workspace_code" workspaceCode
        ++ field "created_at" (AStr (rfc3339 (mr_CreatedAt r)))).

Definition NewMemberRoleResponse (r : MemberRole) : any := role_response None None r.

Definition MemberWithRolesResponse (m : Member) (roles : list any) : any :=
  AMap (NewMemberResponse m ++ field "roles" (AList roles)).
End Responses.

(** ** The handler *)

Record MemberHandler (W : Type) := mkMemberHandler {
  mh_store : MemberStore.t W;
  (** nil when the scoped routes are not configured *)
  mh_tenantStore : option (TenantStore.t W);
  mh_wsStore : option (WorkspaceStore.t W);
  mh_rt : Runtime W;
}.
Arguments mkMemberHandler {W}. Arguments mh_store {W}. Arguments mh_tenantStore {W}.
Arguments mh_wsStore {W}. Arguments mh_rt {W}.

Section Handler.
Context `{GoStd} `{Parsers} `{Binder CreateMemberRequest} `{Binder roleAssignmentRequest}.
Context {W : Type} (h : MemberHandler W).
#[local] Abbreviation Web := (M (W * Conn)).

(** [resolveTenant] and [resolveWorkspace] of [handler/resolve.go]. *)
Definition resolveTenant (ts : TenantStore.t W) : Web Tenant :=
  let! c := conn in up (TenantStore.GetByCode ts (Param "tenant_code" c)).

Definition resolveWorkspace (ts : TenantStore.t W) (ws : WorkspaceStore.t W) : Web Workspace :=
  let! c := conn in
  let! tenant := up (TenantStore.GetByCode ts (Param "tenant_code" c)) in
  up (WorkspaceStore.GetByTenantAndCode ws (ten_ID tenant) (Param "workspace_code" c) (requestEnvironment c)).

(** When a store is missing the error is written and, once written, is no error
    any more: the scope returned is then nil. *)
Definition resolveTenantScope : Web (option memberScope) :=
  match mh_tenantStore h with
  | None => WriteError 500 "INTERNAL_ERROR" "tenant store not configured" ;;; ret None
  | Some ts =>
      let! tenant := resolveTenant ts in
      ret (Some (mkScope ScopeTenant (Some (ten_ID tenant)) None))
  end.

Definition resolveWorkspaceScope : Web (option memberScope) :=
  match mh_tenantStore h, mh_wsStore h with
  | Some ts, Some wss =>
      let! ws := resolveWorkspace ts wss in
      ret (Some (mkScope ScopeWorkspace (Some (ws_TenantID ws)) (Some (ws_ID ws))))
  | _, _ => WriteError 500 "INTERNAL_ERROR" "workspace scope is not configured" ;;; ret None
  end.

Definition createScope : Web (option memberScope) :=
  let! c := conn in
  if negb (bool_decide (Param "workspace_code" c = "")) then resolveWorkspaceScope
  else if negb (bool_decide (Param "tenant_code" c = "")) then resolveTenantScope
  else ret None.

Definition scopedRoles (memberID : uuid) (scope : option memberScope) : M W (list MemberRole) :=
  match scope with
  | None => MemberStore.GetRoles (mh_store h) memberID
  | Some s => MemberStore.GetRolesInScope (mh_store h) memberID (sc_scopeType s) (scopeID scope)
  end.

(** *** Listing and reading *)

Definition list_members (scope : option memberScope) : HandlerFunc W :=
  let! c := conn in
  let opts := ParseListOptions c in
  stored (up match scope with
             | None => MemberStore.ListAll (mh_store h) opts
             | Some s => MemberStore.ListInScope (mh_store h) (sc_scopeType s) (scopeID scope) opts
             end)
  (fun '(members, nextCursor) =>
     stored (up (MemberStore.GetRolesByMembers (mh_store h) (mem_ID <$> members)))
     (fun rolesByMember =>
        let item m :=
          let roles := rolesForResponse scope (default [] (rolesByMember !! mem_ID m)) in
          if bool_decide (is_Some scope) && bool_decide (List.length roles = 0%nat) then None
          else Some (MemberWithRolesResponse m (NewMemberRoleResponse <$> roles)) in
        JSON_reply 200 (AMap (field "items" (AList (omap item members))
                              ++ (if bool_decide (nextCursor = "") then [] else field "next_cursor" (AStr nextCursor))
                              ++ field "has_more" (ABool (negb (bool_decide (nextCursor = ""))))))) ).

Definition get_member (scope : option memberScope) : HandlerFunc W :=
  let! c := conn in
  match uuid_Parse (Param "member_id" c) with
  | Err _ => WriteError 400 "BAD_REQUEST" "invalid member ID"
  | Ok memberID =>
      stored (up (MemberStore.GetByID (mh_store h) memberID)) (fun member =>
      stored (up (scopedRoles memberID scope)) (fun roles =>
        if bool_decide (is_Some scope) && bool_decide (List.length roles = 0%nat)
        then WriteError 404 "NOT_FOUND" "resource not found"
        else JSON_reply 200 (MemberWithRolesResponse member (NewMemberRoleResponse <$> roles))))
  end.

(** The codes of the tenants and workspaces of some roles; a lookup that fails
    leaves its code out and is tried again for the next role. *)
Definition remember (codes : gmap uuid string) (o : option uuid) (lookup : uuid -> M W string) : M W (gmap uuid string) :=
  match o with
  | None => ret codes
  | Some id =>
      match codes !! id with
      | Some _ => ret codes
      | None => try! r := lookup id in ret match r with Ok code => <[id := code]> codes | Err _ => codes end
      end
  end.

Definition nil_store {A} : M W A := fail (EMsg "runtime error: invalid memory address or nil pointer dereference").

Definition enrichRoleCodes (roles : list MemberRole) : M W (list any) :=
  let tenant_code id := match mh_tenantStore h with
                        | Some ts => let! t := TenantStore.GetByID ts id in ret (ten_Code t) | None => nil_store end in
  let workspace_code id := match mh_wsStore h with
                           | Some wss => let! w := WorkspaceStore.GetByID wss id in ret (ws_Code w) | None => nil_store end in
  let! (tenantCodes, workspaceCodes) := for_fold roles (∅, ∅) (fun '(tc, wc) r =>
    let! tc := remember tc (mr_TenantID r) tenant_code in
    let! wc := remember wc (mr_WorkspaceID r) workspace_code in
    ret (tc, wc)) in
  ret ((fun r => role_response (mr_TenantID r ≫= fun id => tenantCodes !! id)
                   (mr_WorkspaceID r ≫= fun id => workspaceCodes !! id) r) <$> roles).

Definition Me : HandlerFunc W :=
  let! v := values in
  match v_member v with
  | None => Unauthorized "missing member context"
  | Some member =>
      let! roles := up (enrichRoleCodes (default [] (v_roles v))) in
      JSON_reply 200 (MemberWithRolesResponse member roles)
  end.

(** *** Creating a member *)

Definition create_errors (scope : option memberScope) (req : CreateMemberRequest) (requested : option Role) : list FieldError :=
  (if bool_decide (cm_Email req = "") then [mkFieldError "email" "is required"]
   else match ParseAddress (cm_Email req) with
        | Err _ => [mkFieldError "email" "must be a valid email address"]
        | Ok _ => []
        end)
  ++ match scope, requested with
     | Some _, None => [mkFieldError "role" "is required for scoped member creation"]
     | Some _, Some role => if allowedRole scope role then [] else [mkFieldError "role" "role is not allowed for this scope"]
     | None, Some _ => [mkFieldError "role" "role is only allowed on scoped member creation"]
     | None, None => []
     end.

Definition requested_role (req : CreateMemberRequest) : option Role :=
  match cm_Role req with
  | Some role => if bool_decide (role = "") then None else Some (to_Role role)
  | None => None
  end.

(** The member with the email, created when there is none. *)
Definition find_or_create (req : CreateMemberRequest) : M W Member :=
  try! r := MemberStore.GetByEmail (mh_store h) (cm_Email req) in
  match r with
  | Ok member => ret member
  | Err e =>
      if negb (IsNotFound e) then fail e
      else
        let! now := Now (mh_rt h) in
        let! id := NewV7 (mh_rt h) in
        MemberStore.Create (mh_store h) (mkMember id (cm_Email req) (cm_DisplayName req) None None now now)
  end.

Definition new_assignment (memberID : uuid) (role : Role) (s : memberScope) : M W MemberRole :=
  let! id := NewV7 (mh_rt h) in
  let! now := Now (mh_rt h) in
  ret (mkMemberRole id memberID role (sc_scopeType s) (sc_tenantID s) (sc_workspaceID s) now None).

Definition create_member (scope : option memberScope) : HandlerFunc W :=
  let! c := conn in
  match Bind (A:=CreateMemberRequest) c with
  | Err _ => WriteError 400 "BAD_REQUEST" "invalid request body"
  | Ok req =>
      let requested := requested_role req in
      match create_errors scope req requested with
      | [] =>
          stored (up (find_or_create req)) (fun member =>
          stored (up match scope, requested with
                     | Some s, Some role =>
                         let! memberRole := new_assignment (mem_ID member) role s in
                         let! memberRole := MemberStore.AddRole (mh_store h) memberRole in
                         ret [memberRole]
                     | _, _ => ret []
                     end)
          (fun roles => JSON_reply 201 (MemberWithRolesResponse member (NewMemberRoleResponse <$> roles))))
      | fieldErrors => WriteErrorDetails 422 "VALIDATION_ERROR" "validation failed" fieldErrors
      end
  end.

Definition Members_Create : HandlerFunc W := stored createScope create_member.

(** *** Assigning roles *)

Definition validateScopedUUID (raw : option string) (expected : option uuid) (name target : string) : list FieldError :=
  match raw with
  | None => []
  | Some raw =>
      match uuid_Parse raw with
      | Err _ => [mkFieldError name "must be a valid UUID"]
      | Ok parsed =>
          match expected with
          | Some e => if negb (bool_decide (parsed = e)) then [mkFieldError name ("must match the route " +:+ target)] else []
          | None => []
          end
      end
  end.

Definition validateScopedRoleAssignment (scope : option memberScope) (req : roleAssignmentRequest) : list FieldError :=
  match scope with
  | None => []
  | Some s =>
      (if negb (bool_decide (ra_ScopeType req = "")) && negb (bool_decide (to_ScopeType (ra_ScopeType req) = sc_scopeType s))
       then [mkFieldError "scope_type" "scope_type must match the route scope"] else [])
      ++ validateScopedUUID (ra_TenantID req) (sc_tenantID s) "tenant_id" "tenant"
      ++ validateScopedUUID (ra_WorkspaceID req) (sc_workspaceID s) "workspace_id" "workspace"
  end.

Definition validateRoleScopeType (scope : option memberScope) (scopeType : ScopeType) : list FieldError :=
  (if negb (allowedScopeType scope scopeType)
   then [mkFieldError "scope_type" "scope_type is not allowed for this route"] else [])
  ++ match scope with
     | None => if negb (isValidScopeType scopeType)
               then [mkFieldError "scope_type" "must be one of: global, tenant, workspace"] else []
     | Some s =>
         (if bool_decide (scopeType = ScopeWorkspace) && bool_decide (sc_workspaceID s = None)
          then [mkFieldError "scope_type" "workspace scope requires a workspace"] else [])
         ++ (if bool_decide (scopeType = ScopeTenant) && bool_decide (sc_tenantID s = None)
             then [mkFieldError "scope_type" "tenant scope requires a tenant"] else [])
     end.

Definition validateRoleAssignment (scope : option memberScope) (req : roleAssignmentRequest) (role : Role)
    (scopeType : ScopeType) : list FieldError :=
  (if negb (allowedRole scope role) then [mkFieldError "role" "role is not allowed for this scope"] else [])
  ++ validateScopedRoleAssignment scope req ++ validateRoleScopeType scope scopeType.

Definition parseOptionalUUID (s : option string) : Res (option uuid) :=
  match s with
  | None => Ok None
  | Some s => match uuid_Parse s with Ok id => Ok (Some id) | Err e => Err e end
  end.

(** The assignment of a request; the error is a [roleAssignmentParseError]. *)
Definition buildMemberRole (memberID : uuid) (scope : option memberScope) (req : roleAssignmentRequest)
  : M W (MemberRole * list FieldError) :=
  let role := to_Role (ra_Role req) in
  let scopeType := match scope with Some s => sc_scopeType s | None => to_ScopeType (ra_ScopeType req) end in
  let fieldErrors := validateRoleAssignment scope req role scopeType in
  let! id := NewV7 (mh_rt h) in
  let! now := Now (mh_rt h) in
  let mr tid wid := mkMemberRole id memberID role scopeType tid wid now None in
  match scope with
  | Some s => ret (mr (sc_tenantID s) (sc_workspaceID s), fieldErrors)
  | None =>
      match parseOptionalUUID (ra_TenantID req) with
      | Err _ => fail (EMsg "invalid tenant_id")
      | Ok tid =>
          match parseOptionalUUID (ra_WorkspaceID req) with
          | Err _ => fail (EMsg "invalid workspace_id")
          | Ok wid => ret (mr tid wid, fieldErrors)
          end
      end
  end.

Definition mutateRole (scope : option memberScope) (persist : MemberRole -> M W MemberRole) (status : Z) : HandlerFunc W :=
  let! c := conn in
  match uuid_Parse (Param "member_id" c) with
  | Err _ => WriteError 400 "BAD_REQUEST" "invalid member ID"
  | Ok memberID =>
      stored (up (MemberStore.GetByID (mh_store h) memberID)) (fun _ =>
        match Bind (A:=roleAssignmentRequest) c with
        | Err _ => WriteError 400 "BAD_REQUEST" "invalid request body"
        | Ok req =>
            try! built := up (buildMemberRole memberID scope req) in
            match built with
            | Err e => WriteError 400 "BAD_REQUEST" (error_string e)
            | Ok (mr, []) => stored (up (persist mr)) (fun mr => JSON_reply status (NewMemberRoleResponse mr))
            | Ok (_, fieldErrors) => WriteErrorDetails 422 "VALIDATION_ERROR" "validation failed" fieldErrors
            end
        end)
  end.

Definition addRole (scope : option memberScope) : HandlerFunc W :=
  mutateRole scope (MemberStore.AddRole (mh_store h)) 201.
Definition replaceRole (scope : option memberScope) : HandlerFunc W :=
  mutateRole scope (MemberStore.ReplaceRoleInScope (mh_store h)) 200.

(** *** Removing roles and access *)

Definition removeRole (scope : option memberScope) : HandlerFunc W :=
  let! c := conn in
  match uuid_Parse (Param "member_id" c) with
  | Err _ => WriteError 400 "BAD_REQUEST" "invalid member ID"
  | Ok memberID =>
      match uuid_Parse (Param "role_id" c) with
      | Err _ => WriteError 400 "BAD_REQUEST" "invalid role ID"
      | Ok roleID =>
          let remove := stored (up (MemberStore.RemoveRole (mh_store h) roleID)) (fun _ => NoContent 204) in
          stored (up (MemberStore.GetByID (mh_store h) memberID)) (fun _ =>
            match scope with
            | None => remove
            | Some _ =>
                stored (up (scopedRoles memberID scope)) (fun roles =>
                  if List.existsb (fun r => bool_decide (mr_ID r = roleID)) roles then remove
                  else WriteError 404 "NOT_FOUND" "resource not found")
            end)
      end
  end.

Definition isGlobalSelfRevoke (v : Values) (targetMemberID : uuid) : bool :=
  match v_member v with
  | None => false
  | Some actor =>
      if negb (bool_decide (mem_ID actor = targetMemberID)) then false
      else List.existsb (fun r => bool_decide (mr_Role r = RoleSuperadmin) && bool_decide (mr_ScopeType r = ScopeGlobal))
             (default [] (v_roles v))
  end.

Definition removeAccess (scope : option memberScope) : HandlerFunc W :=
  let! c := conn in
  match uuid_Parse (Param "member_id" c) with
  | Err _ => WriteError 400 "BAD_REQUEST" "invalid member ID"
  | Ok memberID =>
      stored (up (MemberStore.GetByID (mh_store h) memberID)) (fun _ =>
        let scopeType := match scope with None => ScopeGlobal | Some s => sc_scopeType s end in
        if bool_decide (scope = None) && isGlobalSelfRevoke (cn_Values c) memberID
        then WriteError 409 "CONFLICT" "cannot revoke your own global superadmin access"
        else stored (up (MemberStore.RevokeAccessInScope (mh_store h) memberID scopeType (scopeID scope)))
               (fun _ => NoContent 204))
  end.

(** *** The routes' handlers *)

Definition on_tenant (k : option memberScope -> HandlerFunc W) : HandlerFunc W := stored resolveTenantScope k.
Definition on_workspace (k : option memberScope -> HandlerFunc W) : HandlerFunc W := stored resolveWorkspaceScope k.

Definition Members_List := list_members None.
Definition Members_ListTenant := on_tenant list_members.
Definition Members_ListWorkspace := on_workspace list_members.
Definition Members_Get := get_member None.
Definition Members_GetTenant := on_tenant get_member.
Definition Members_GetWorkspace := on_workspace get_member.
Definition Members_AddRole := addRole None.
Definition Members_AddRoleTenant := on_tenant addRole.
Definition Members_AddRoleWorkspace := on_workspace addRole.
Definition Members_ReplaceRole := replaceRole None.
Definition Members_ReplaceRoleTenant := on_tenant replaceRole.
Definition Members_ReplaceRoleWorkspace := on_workspace replaceRole.
Definition Members_RemoveRole := removeRole None.
Definition Members_RemoveRoleTenant := on_tenant removeRole.
Definition Members_RemoveRoleWorkspace := on_workspace removeRole.
Definition Members_RemoveAccess := removeAccess None.
Definition Members_RemoveAccessTenant := on_tenant removeAccess.
Definition Members_RemoveAccessWorkspace := on_workspace removeAccess.
End Handler.
