(* ===== verification/Roles.v ===== *)
(** * The table of role assignments ([adapter/postgres/member_repo.go])

    What the member repository does to the role assignments: the typing the
    schema gives them, which every operation keeps, and the scope an operation
    stays within. *)
From stdpp Require Import base gmap strings list sorting.
From Stdlib Require Import ZArith NArith Ascii String Lia.
From S2P Require Import Prelude GoMonad Domain Ports Token Config Http.
From S2P Require Import Suppression Postgres Database Directory Auth Members.

(** ** The typing of the role assignments *)

Record roles_ok (t : Tables) : Prop := {
  role_id id r : tb_roles t !! id = Some r -> mr_ID r = id;
  role_check id r : tb_roles t !! id = Some r -> role_scope_check r = true;
  role_unique i j ri rj : tb_roles t !! i = Some ri -> tb_roles t !! j = Some rj ->
    same_assignment ri rj = true -> i = j;
  role_member id r : tb_roles t !! id = Some r -> is_Some (tb_members t !! mr_MemberID r);
  role_tenant id r tid : tb_roles t !! id = Some r -> mr_TenantID r = Some tid -> is_Some (tb_tenants t !! tid);
  role_workspace id r wid : tb_roles t !! id = Some r -> mr_WorkspaceID r = Some wid ->
    is_Some (tb_workspaces t !! wid);
}.

Definition keeps_roles_ok (t t' : Tables) : Prop := roles_ok t -> roles_ok t'.
#[export] Instance keeps_roles_ok_preorder : PreOrder keeps_roles_ok.
Proof. split; unfold keeps_roles_ok; [intros ?|intros ???]; auto. Qed.

(** [confined sc t t']: the assignments that differ were in the scope [sc] and,
    when they still exist, are in it with a role the scope allows; tenants and
    workspaces are as they were. *)
Definition touched (sc : option memberScope) (before after : option MemberRole) : Prop :=
  (forall r, before = Some r -> scope_matches sc r = true) /\
  (forall r, after = Some r -> scope_matches sc r = true /\ allowedRole sc (mr_Role r) = true).

Record confined (sc : option memberScope) (t t' : Tables) : Prop := {
  confined_tenants : tb_tenants t' = tb_tenants t;
  confined_workspaces : tb_workspaces t' = tb_workspaces t;
  confined_roles id : tb_roles t' !! id = tb_roles t !! id \/ touched sc (tb_roles t !! id) (tb_roles t' !! id);
}.

#[export] Instance confined_preorder sc : PreOrder (confined sc).
Proof.
  split.
  - intros t. split; auto.
  - intros t1 t2 t3 H12 H23. split.
    + by rewrite (confined_tenants _ _ _ H23), (confined_tenants _ _ _ H12).
    + by rewrite (confined_workspaces _ _ _ H23), (confined_workspaces _ _ _ H12).
    + intros id. destruct (confined_roles _ _ _ H12 id) as [E12|T12], (confined_roles _ _ _ H23 id) as [E23|T23].
      * left. congruence.
      * right. by rewrite <- E12.
      * right. by rewrite E23.
      * right. split; [apply T12|apply T23].
Qed.

Lemma confined_same sc t t' :
  tb_tenants t' = tb_tenants t -> tb_workspaces t' = tb_workspaces t -> tb_roles t' = tb_roles t -> confined sc t t'.
Proof. intros Et Ew E. split; [done..|]. intros id. left. by rewrite E. Qed.

(** *** Insertion *)

Lemma insert_role_cases now role t :
  (exists e, insert_role now role t = inl e) \/
  (insert_role now role t = inr (with_created now role, set_roles <[mr_ID role := with_created now role]> t) /\
   known_role (mr_Role role) = true /\
   role_scope_check (with_created now role) = true /\ tb_roles t !! mr_ID role = None /\
   (forall id r, tb_roles t !! id = Some r -> same_assignment (with_created now role) r = false) /\
   is_Some (tb_members t !! mr_MemberID role) /\
   (forall tid, mr_TenantID role = Some tid -> is_Some (tb_tenants t !! tid)) /\
   (forall wid, mr_WorkspaceID role = Some wid -> is_Some (tb_workspaces t !! wid))).
Proof.
  unfold insert_role. destruct (violation _) as [e|] eqn:Ev; [left; by eexists|]. right.
  apply violation_None in Ev. rewrite !Forall_cons in Ev. simpl in Ev.
  destruct Ev as (Hkr & _ & Hck & Hid & Hun & Hmem & Hten & Hws & _).
  rewrite bool_decide_eq_true in Hid, Hun, Hmem. rewrite rows_nil in Hun.
  repeat split; try done.
  - intros tid E. rewrite E in Hten. simpl in Hten. by apply bool_decide_eq_true in Hten.
  - intros wid E. rewrite E in Hws. simpl in Hws. by apply bool_decide_eq_true in Hws.
Qed.

Lemma same_assignment_sym a b : same_assignment a b = same_assignment b a.
Proof. unfold same_assignment. repeat (f_equal; [|apply bool_decide_ext; naive_solver]). apply bool_decide_ext. naive_solver. Qed.

Lemma insert_role_ok now role t a t' :
  insert_role now role t = inr (a, t') -> roles_ok t -> roles_ok t'.
Proof.
  destruct (insert_role_cases now role t) as [ [e ->]|(-> & _ & Hck & Hnew & Hun & Hmem & Hten & Hws)]; [done|].
  intros [= <- <-] [Hid Hc Hu Hm Ht Hw]. split; simpl.
  - intros id r. rewrite lookup_insert_Some. intros [ [<- <-]|[_ ?] ]; [done|eauto].
  - intros id r. rewrite lookup_insert_Some. intros [ [<- <-]|[_ ?] ]; [done|eauto].
  - intros i j ri rj. rewrite !lookup_insert_Some.
    intros [ [<- <-]|[_ Hi] ] [ [<- <-]|[_ Hj] ] Hs; [done| | |eauto].
    + by rewrite (Hun _ _ Hj) in Hs.
    + rewrite same_assignment_sym in Hs. by rewrite (Hun _ _ Hi) in Hs.
  - intros id r. rewrite lookup_insert_Some. intros [ [<- <-]|[_ ?] ]; [done|eauto].
  - intros id r tid. rewrite lookup_insert_Some. intros [ [<- <-]|[_ ?] ]; [apply Hten|eauto].
  - intros id r wid. rewrite lookup_insert_Some. intros [ [<- <-]|[_ ?] ]; [apply Hws|eauto].
Qed.

Lemma insert_role_confined sc now role t a t' :
  insert_role now role t = inr (a, t') -> scope_matches sc role = true -> allowedRole sc (mr_Role role) = true ->
  confined sc t t'.
Proof.
  destruct (insert_role_cases now role t) as [ [e ->]|(-> & _ & _ & Hnew & _)]; [done|].
  intros [= <- <-] Hs Ha. split; [done..|]. intros id. simpl. rewrite lookup_insert. case_decide as Eid; [|by left].
  subst id. right. rewrite Hnew. split; [done|]. intros r [= <-].
  split; [destruct sc; apply Hs|apply Ha].
Qed.

(** *** Update and deletion *)

Lemma update_role_ok id role t a t' : update_role id role t = inr (a, t') -> roles_ok t -> roles_ok t'.
Proof.
  unfold update_role. destruct (tb_roles t !! id) as [r0|] eqn:E; [|by intros [= <- <-]].
  destruct (violation _) eqn:Ev; [done|]. apply violation_None in Ev. rewrite !Forall_cons in Ev. simpl in Ev.
  destruct Ev as (_ & Hck & _). intros [= <- <-] [Hid Hc Hu Hm Ht Hw].
  assert (Hsame : forall r, same_assignment (with_role role r0) r = same_assignment r0 r) by done.
  split; simpl.
  - intros i r. rewrite lookup_insert_Some. intros [ [<- <-]|[_ ?] ]; [exact (Hid id r0 E)|eauto].
  - intros i r. rewrite lookup_insert_Some. intros [ [<- <-]|[_ ?] ]; [done|eauto].
  - intros i j ri rj. rewrite !lookup_insert_Some.
    intros [ [<- <-]|[_ Hi] ] [ [<- <-]|[_ Hj] ] Hs; [done|by eapply (Hu _ _ r0 rj)| |eauto].
    eapply (Hu _ _ ri r0); [done..|]. rewrite same_assignment_sym in Hs |- *. by rewrite <- Hsame.
  - intros i r. rewrite lookup_insert_Some. intros [ [<- <-]|[_ ?] ]; [by apply (Hm id r0)|eauto].
  - intros i r tid. rewrite lookup_insert_Some. intros [ [<- <-]|[_ ?] ]; [by apply (Ht id r0)|eauto].
  - intros i r wid. rewrite lookup_insert_Some. intros [ [<- <-]|[_ ?] ]; [by apply (Hw id r0)|eauto].
Qed.

(** A table with fewer assignments is as well typed. *)
Lemma roles_ok_sub t m : (forall id r, m !! id = Some r -> tb_roles t !! id = Some r) ->
  roles_ok t -> roles_ok (set_roles (fun _ => m) t).
Proof. intros Hsub [Hid Hc Hu Hm Ht Hw]. split; simpl; eauto. Qed.

(** More members, tenants or workspaces do no harm. *)
Lemma roles_ok_grow t t' :
  tb_roles t' = tb_roles t ->
  (forall id, is_Some (tb_members t !! id) -> is_Some (tb_members t' !! id)) ->
  (forall id, is_Some (tb_tenants t !! id) -> is_Some (tb_tenants t' !! id)) ->
  (forall id, is_Some (tb_workspaces t !! id) -> is_Some (tb_workspaces t' !! id)) ->
  roles_ok t -> roles_ok t'.
Proof. intros E Hm' Ht' Hw' [Hid Hc Hu Hm Ht Hw]. split; rewrite E; eauto. Qed.

(** ** The operations of the repository *)

Section Repo.
Context `{GoStd} `{Codec}.

Lemma GetByEmail_frame email : preserves db_tables (GetByEmail email).
Proof. apply query_frame. Qed.
Lemma GetByOIDCIdentity_frame i s : preserves db_tables (GetByOIDCIdentity i s).
Proof. apply query_frame. Qed.
Lemma MemberRepo_GetByID_frame id : preserves db_tables (MemberRepo_GetByID id).
Proof. apply query_frame. Qed.
Lemma GetRoles_frame id : preserves db_tables (GetRoles id).
Proof. apply query_frame. Qed.
Lemma GetRolesInScope_frame id st sid : preserves db_tables (GetRolesInScope id st sid).
Proof. unfold GetRolesInScope. preserves_tac. Qed.
Lemma GetRolesByMembers_frame ids : preserves db_tables (GetRolesByMembers ids).
Proof. unfold GetRolesByMembers. preserves_tac. Qed.
Lemma ListAll_frame opts : preserves db_tables (ListAll opts).
Proof. unfold ListAll. preserves_tac. Qed.
Lemma ListInScope_frame st sid opts : preserves db_tables (ListInScope st sid opts).
Proof. unfold ListInScope. preserves_tac. Qed.
Lemma TenantRepo_GetByCode_frame code : preserves db_tables (TenantRepo_GetByCode code).
Proof. apply query_frame. Qed.
Lemma TenantRepo_GetByID_frame id : preserves db_tables (TenantRepo_GetByID id).
Proof. apply query_frame. Qed.
Lemma GetByTenantAndCode_frame tid code env : preserves db_tables (GetByTenantAndCode tid code env).
Proof. apply query_frame. Qed.
Lemma WorkspaceRepo_GetByID_frame id : preserves db_tables (WorkspaceRepo_GetByID id).
Proof. apply query_frame. Qed.

(** A new member. *)
Lemma MemberRepo_Create_relates (R : Tables -> Tables -> Prop) `{!PreOrder R} member :
  (forall t m, tb_members t !! mem_ID member = None -> R t (set_members <[mem_ID member := m]> t)) ->
  relates db_tables R (MemberRepo_Create member).
Proof.
  intros HR. related relates_write. intros now t a t'. destruct (violation _) eqn:Ev; [done|].
  apply violation_None in Ev. rewrite !Forall_cons in Ev. simpl in Ev. rewrite !bool_decide_eq_true in Ev.
  destruct Ev as (Hnew & _). intros [= <- <-]. by apply HR.
Qed.

Lemma MemberRepo_Create_ok member : relates db_tables keeps_roles_ok (MemberRepo_Create member).
Proof.
  related MemberRepo_Create_relates. intros t m _ Hok. apply (roles_ok_grow t); [done| |done..].
  intros id Hid. simpl. rewrite lookup_insert. by case_decide.
Qed.

Lemma MemberRepo_Create_confined sc member : relates db_tables (confined sc) (MemberRepo_Create member).
Proof. related MemberRepo_Create_relates. intros t m _. by apply confined_same. Qed.

(** *** One assignment *)

Lemma AddRole_ok role : relates db_tables keeps_roles_ok (AddRole role).
Proof. related relates_write. intros now t a t' E. exact (insert_role_ok _ _ _ _ _ E). Qed.

Lemma AddRole_confined sc role :
  scope_matches sc role = true -> allowedRole sc (mr_Role role) = true ->
  relates db_tables (confined sc) (AddRole role).
Proof.
  intros Hs Ha. related relates_write. intros now t a t' E. by eapply insert_role_confined.
Qed.

Lemma RemoveRole_ok id : relates db_tables keeps_roles_ok (RemoveRole id).
Proof.
  related relates_update. intros now a t _ Hok. apply (roles_ok_sub t (delete id (tb_roles t))); [|done].
  intros i r. rewrite lookup_delete_Some. naive_solver.
Qed.

(** The row removed is the one with that identifier. *)
Lemma RemoveRole_confined sc id s :
  (forall r, tb_roles (db_tables s) !! id = Some r -> scope_matches sc r = true) ->
  relates_at db_tables (confined sc) (RemoveRole id) s.
Proof.
  intros Hs. unfold relates_at. destruct (RemoveRole id s) as [r s'] eqn:E. simpl.
  apply exec_cases in E as [ [_ ->]|(r' & t' & E & -> & _)]; [done|].
  destruct (tb_roles (db_tables s) !! id) as [row|] eqn:Er; injection E as <- <-; [|done].
  split; [done..|]. intros i. simpl. rewrite lookup_delete. case_decide; [subst i|by left].
  right. rewrite Er. split; [|done]. intros ? [= <-]. by apply Hs.
Qed.

(** *** The assignments of a member in a scope *)

Lemma RevokeAccessInScope_ok id st sid : relates db_tables keeps_roles_ok (RevokeAccessInScope id st sid).
Proof.
  unfold RevokeAccessInScope. destruct (scope_error _ _ _); [related relates_preserves; apply preserves_fail|].
  related relates_exec. intros now t Hok. apply (roles_ok_sub t (delete_roles _ (tb_roles t))); [|done].
  intros i r. unfold delete_roles. rewrite lookup_delete_all. by case_bool_decide.
Qed.

Lemma in_scope_matches s r : (sc_scopeType s = ScopeTenant -> is_Some (sc_tenantID s)) ->
  in_scope (sc_scopeType s) (scopeID (Some s)) r = true -> scope_matches (Some s) r = true.
Proof.
  unfold in_scope, scope_matches, both_eq. simpl. destruct s as [st tid wid]. simpl.
  intros Ht. rewrite !andb_true_iff. intros [Hst Hid]. split; [done|].
  destruct st; try done; apply andb_true_iff in Hid as [Hi Hj];
    rewrite bool_decide_eq_true in Hj; subst; rewrite Hi; by rewrite bool_decide_eq_true_2.
Qed.

(** The identifier of a row is its key. *)
Lemma row_key t r (p : MemberRole -> bool) : roles_ok t -> r ∈ rows p (tb_roles t) ->
  tb_roles t !! mr_ID r = Some r /\ p r = true.
Proof. intros Hok [ [id Hid] Hp]%elem_of_rows. by rewrite (role_id _ Hok id r Hid). Qed.

Lemma RevokeAccessInScope_confined sc id st sid s :
  roles_ok (db_tables s) -> (forall r, in_scope st sid r = true -> scope_matches sc r = true) ->
  relates_at db_tables (confined sc) (RevokeAccessInScope id st sid) s.
Proof.
  intros Hok Hs. unfold relates_at, RevokeAccessInScope. destruct (scope_error _ _ _); [by apply confined_same|].
  destruct (exec _ _ s) as [r s'] eqn:E. simpl.
  apply exec_cases in E as [ [_ ->]|(r' & t' & [= _ <-] & -> & _)]; [done|].
  split; [done..|]. intros i. simpl. unfold delete_roles. rewrite lookup_delete_all. case_bool_decide as Hi; [|by left].
  right. split; [|done]. intros row Hrow.
  apply list_elem_of_fmap in Hi as (r0 & -> & Hr0). apply row_key in Hr0 as [Hr0 Hp]; [|done].
  simplify_eq. apply andb_true_iff in Hp as [_ Hp]. by apply Hs.
Qed.

(** What replacing an assignment does: nothing, the insertion of the first one
    in the scope, or the update of one and the deletion of the others. *)
Definition selected (role r : MemberRole) : bool :=
  bool_decide (mr_MemberID r = mr_MemberID role) && in_scope (mr_ScopeType role) (scopeIDForRole role) r.

Inductive replaced (role : MemberRole) (t : Tables) : MemberRole -> Tables -> Prop :=
| replaced_same kept : rows (selected role) (tb_roles t) = [kept] -> mr_Role kept = mr_Role role ->
    replaced role t (adopt kept role) t
| replaced_first now t' : rows (selected role) (tb_roles t) = [] ->
    insert_role now role t = inr (with_created now role, t') -> replaced role t (with_created now role) t'
| replaced_update kept extra t1 : rows (selected role) (tb_roles t) ≡ₚ kept :: extra ->
    update_role (mr_ID kept) (mr_Role role) t = inr (tt, t1) ->
    replaced role t (adopt kept role) (set_roles (fun m => foldr (fun r => delete (mr_ID r)) m extra) t1).

Lemma replace_in_tx role existing s r s' :
  existing ≡ₚ rows (selected role) (tb_roles (db_tables s)) ->
  (match existing with
   | [] => write_stmt "inserting member role" (fun now => insert_role now role)
   | kept :: extra =>
       if bool_decide (extra = []) && sameLocalScopeRole kept role then ret (adopt kept role)
       else
         write_stmt "updating member role in scope" (fun _ => update_role (mr_ID kept) (mr_Role role)) ;;;
         (if bool_decide (extra = []) then ret tt
          else exec (wrapping "deleting superseded member roles") (fun _ t =>
                 (Ok tt, set_roles (fun m => foldr (fun r => delete (mr_ID r)) m extra) t))) ;;;
         ret (adopt kept role)
   end) s = (Ok r, s') ->
  replaced role (db_tables s) r (db_tables s').
Proof.
  intros Hp. destruct existing as [|kept extra].
  - intros E%exec_Ok. destruct (insert_role_cases (db_clock s) role (db_tables s)) as [ [e Ee]|(Ei & _)].
    + by rewrite Ee in E.
    + rewrite Ei in E. injection E as <- <-. eapply replaced_first; [by apply Permutation_nil_l in Hp|exact Ei].
  - destruct (_ && _) eqn:Esame.
    + intros [= <- <-]. apply andb_true_iff in Esame as [Ee Esame]. apply bool_decide_eq_true in Ee as ->.
      symmetry in Hp. apply Permutation_singleton_r in Hp. apply replaced_same; [done|].
      unfold sameLocalScopeRole in Esame. rewrite !andb_true_iff, !bool_decide_eq_true in Esame. naive_solver.
    + unfold bind. destruct (write_stmt _ _ s) as [[[]|e] s1] eqn:Eu; [|done]. apply exec_Ok in Eu.
      destruct (update_role _ _ _) as [e|[[] t1] ] eqn:Er; [done|]. injection Eu as Eu.
      symmetry in Hp. pose proof (replaced_update _ _ _ _ _ Hp Er) as Hr. case_bool_decide as Ee.
      * intros [= <- <-]. subst extra. rewrite <- Eu. by destruct t1.
      * destruct (exec _ _ s1) as [[[]|e] s2] eqn:Ed; [|done]. intros [= <- <-].
        apply exec_Ok in Ed. injection Ed as <-. by rewrite <- Eu.
Qed.

Lemma ReplaceRoleInScope_effect role s r s' :
  ReplaceRoleInScope role s = (r, s') ->
  (is_ok r = false /\ db_tables s' = db_tables s) \/
  scope_error (mr_ScopeType role) "member role query" (scopeIDForRole role) = None /\
  exists a, replaced role (db_tables s) a (db_tables s') /\ (r = Ok a \/ is_ok r = false).
Proof.
  unfold ReplaceRoleInScope. intros [ ?|(s1 & a & s2 & E1 & E & -> & Hr)]%in_tx_cases; [by left|]. right.
  unfold bind at 1 in E. destruct (GetRolesInScope _ _ _ s1) as [[existing|e] s1'] eqn:Eg; [|done].
  unfold GetRolesInScope in Eg. destruct (scope_error _ _ _); [done|]. split; [done|].
  apply query_Ok in Eg as [Eg Es1]. injection Eg as <-. fold (selected role) in E.
  exists a. split; [|done]. rewrite <- E1, <- Es1.
  eapply replace_in_tx; [|exact E]. rewrite Es1. destruct (1 <? _)%nat; [apply merge_sort_Permutation|reflexivity].
Qed.

Lemma update_role_inv id role r t u t' : tb_roles t !! id = Some r -> update_role id role t = inr (u, t') ->
  t' = set_roles <[id := with_role role r]> t.
Proof. unfold update_role. intros ->. by destruct (violation _); intros [= <- <-]. Qed.

Lemma replaced_ok role t a t' : replaced role t a t' -> roles_ok t -> roles_ok t'.
Proof.
  destruct 1 as [kept E Er|now t' E Ei|kept extra t1 E Eu]; intros Hok; [done|by eapply insert_role_ok|].
  pose proof (update_role_ok _ _ _ _ _ Eu Hok) as Hok1. eapply roles_ok_sub in Hok1.
  - apply Hok1.
  - intros id r. rewrite lookup_delete_all. by case_bool_decide.
Qed.

Lemma replaced_confined sc role t a t' :
  replaced role t a t' -> roles_ok t -> scope_matches sc role = true -> allowedRole sc (mr_Role role) = true ->
  (forall r, selected role r = true -> scope_matches sc r = true) -> confined sc t t'.
Proof.
  intros Hr Hok Hm Ha Hs. destruct Hr as [kept E Er|now t' E Ei|kept extra t1 E Eu]; [done|by eapply insert_role_confined|].
  assert (Hin : forall r, r ∈ kept :: extra -> tb_roles t !! mr_ID r = Some r /\ selected role r = true).
  { intros r Hr. rewrite <- E in Hr. by apply row_key. }
  destruct (Hin kept ltac:(left)) as [Hk Hks].
  rewrite (update_role_inv _ _ _ _ _ _ Hk Eu). split; [done..|].
  intros id. simpl. rewrite lookup_delete_all, lookup_insert. case_bool_decide as Hid.
  - right. split; [|done]. intros r Hr. apply list_elem_of_fmap in Hid as (r0 & -> & Hr0).
    destruct (Hin r0 ltac:(by right)) as [Hr0' ?]. simplify_eq. by apply Hs.
  - case_decide as Eid; [|by left]. subst id. right. rewrite Hk. split; intros r [= <-]; [by apply Hs|].
    split; [|done]. specialize (Hs kept Hks). by destruct sc.
Qed.

Lemma adopt_selected role kept : selected role kept = true -> adopt kept role = with_role (mr_Role role) kept.
Proof.
  unfold selected, in_scope. rewrite !andb_true_iff, !bool_decide_eq_true. intros [Em [Es _] ].
  unfold adopt, with_role. by rewrite Em, Es.
Qed.

Lemma selected_with_role role x k : selected role (with_role x k) = selected role k.
Proof. done. Qed.

Lemma selected_created role now :
  scope_error (mr_ScopeType role) "member role query" (scopeIDForRole role) = None ->
  selected role (with_created now role) = true.
Proof.
  unfold scope_error, selected, in_scope, scopeIDForRole. intros Hs. simpl.
  rewrite bool_decide_eq_true_2 by done. simpl. rewrite bool_decide_eq_true_2 by done. simpl.
  destruct (mr_ScopeType role); try done; case_bool_decide as Hn; try done;
    (rewrite bool_decide_eq_true_2; [by apply bool_decide_eq_true_2|by apply not_eq_None_Some]).
Qed.

(** After the replacement the member has exactly one assignment in the scope,
    the one returned, and every assignment outside it is as it was. *)
Definition only_assignment (role : MemberRole) (t : Tables) (a : MemberRole) (t' : Tables) : Prop :=
  mr_Role a = mr_Role role /\
  (forall x, (exists id, tb_roles t' !! id = Some x) /\ selected role x = true <-> x = a) /\
  (forall id r, selected role r = false -> tb_roles t' !! id = Some r <-> tb_roles t !! id = Some r).

Lemma first_only role now t t' :
  rows (selected role) (tb_roles t) = [] -> insert_role now role t = inr (with_created now role, t') ->
  scope_error (mr_ScopeType role) "member role query" (scopeIDForRole role) = None ->
  only_assignment role t (with_created now role) t'.
Proof.
  intros E Ei Hsc.
  destruct (insert_role_cases now role t) as [ [e Ee]|(Ei' & _ & _ & Hnew & _)]; [by rewrite Ei in Ee|].
  rewrite Ei in Ei'. injection Ei' as ->. split; [done|].
  rewrite rows_nil in E. pose proof (selected_created role now Hsc) as Hsel. split.
  + intros x. split; [|intros ->; split; [exists (mr_ID role); apply lookup_insert_eq|done] ].
    intros [ [id Hx] Hs]. simpl in Hx. apply lookup_insert_Some in Hx as [ [_ <-]|[_ Hx] ]; [done|].
    by rewrite (E _ _ Hx) in Hs.
  + intros id r Hf. simpl. rewrite lookup_insert_Some. split; [|intros Hr; right; split; [|done] ].
    * intros [ [_ <-]|[_ ?] ]; [by rewrite Hsel in Hf|done].
    * intros <-. by rewrite Hnew in Hr.
Qed.

Lemma updated_only role kept extra t t1 :
  roles_ok t -> rows (selected role) (tb_roles t) ≡ₚ kept :: extra ->
  update_role (mr_ID kept) (mr_Role role) t = inr (tt, t1) ->
  only_assignment role t (adopt kept role) (set_roles (fun m => foldr (fun r => delete (mr_ID r)) m extra) t1).
Proof.
  intros Hok E Eu.
  assert (Hin : forall r, r ∈ kept :: extra -> tb_roles t !! mr_ID r = Some r /\ selected role r = true).
  { intros r Hr. rewrite <- E in Hr. by apply row_key. }
  destruct (Hin kept ltac:(left)) as [Hk Hks].
  rewrite (update_role_inv _ _ _ _ _ _ Hk Eu), adopt_selected by done. split; [done|]. simpl.
  assert (Hnd : NoDup (mr_ID <$> kept :: extra)).
  { rewrite <- E. by apply rows_distinct, role_id. }
  apply NoDup_cons in Hnd as [Hkx _]. split.
  + intros x. split.
    * intros [ [id Hx] Hs]. rewrite lookup_delete_all in Hx. case_bool_decide as Hid; [done|].
      apply lookup_insert_Some in Hx as [ [_ <-]|[Hne Hx] ]; [done|]. exfalso.
      assert (Hx' : x ∈ rows (selected role) (tb_roles t)) by (apply elem_of_rows; eauto).
      rewrite E, elem_of_cons in Hx'. rewrite <- (role_id _ Hok _ _ Hx) in *.
      destruct Hx' as [->|Hx']; [done|]. by apply Hid, list_elem_of_fmap_2.
    * intros ->. rewrite selected_with_role. split; [|done]. exists (mr_ID kept).
      rewrite lookup_delete_all, bool_decide_eq_false_2 by done. apply lookup_insert_eq.
  + intros id r Hf. rewrite lookup_delete_all. case_bool_decide as Hid.
    * split; [done|]. intros Hr. apply list_elem_of_fmap in Hid as (r0 & -> & Hr0).
      destruct (Hin r0 ltac:(by right)) as [Hr0' ?]. congruence.
    * rewrite lookup_insert_Some. split; [|intros Hr; right; split; [|done] ].
      -- intros [ [_ <-]|[_ ?] ]; [by rewrite selected_with_role, Hks in Hf|done].
      -- intros <-. congruence.
Qed.

Lemma replaced_exact role t a t' :
  replaced role t a t' -> roles_ok t -> scope_error (mr_ScopeType role) "member role query" (scopeIDForRole role) = None ->
  mr_Role a = mr_Role role /\ rows (selected role) (tb_roles t') = [a] /\
  (forall id r, selected role r = false -> tb_roles t' !! id = Some r <-> tb_roles t !! id = Some r).
Proof.
  intros Hr Hok Hsc. pose proof (replaced_ok _ _ _ _ Hr Hok) as Hok'.
  enough (only_assignment role t a t') as (? & Hx & ?).
  { split; [done|]. split; [|done]. apply Permutation_singleton_r, NoDup_Permutation; [|apply NoDup_singleton|].
    - eapply NoDup_fmap_1. by apply rows_distinct, role_id.
    - intros x. by rewrite elem_of_rows, Hx, list_elem_of_singleton. }
  destruct Hr as [kept E Er|now t' E Ei|kept extra t1 E Eu]; [|by apply first_only|by apply updated_only].
  split; [done|]. split; [|done]. intros x. rewrite <- elem_of_rows, E, list_elem_of_singleton.
  assert (Hk : kept ∈ rows (selected role) (tb_roles t)) by (rewrite E; left).
  apply elem_of_rows in Hk as [_ Hk]. rewrite (adopt_selected _ _ Hk), <- Er. by destruct kept.
Qed.

Lemma ReplaceRoleInScope_ok role : relates db_tables keeps_roles_ok (ReplaceRoleInScope role).
Proof.
  intros s. unfold relates_at. destruct (ReplaceRoleInScope role s) as [r s'] eqn:E. simpl.
  apply ReplaceRoleInScope_effect in E as [ [_ ->]|(_ & a & Hr & _)]; [done|]. intros Hok. by eapply replaced_ok.
Qed.

Lemma ReplaceRoleInScope_confined sc role s :
  roles_ok (db_tables s) -> scope_matches sc role = true -> allowedRole sc (mr_Role role) = true ->
  (forall r, selected role r = true -> scope_matches sc r = true) ->
  relates_at db_tables (confined sc) (ReplaceRoleInScope role) s.
Proof.
  intros Hok Hm Ha Hs. unfold relates_at. destruct (ReplaceRoleInScope role s) as [r s'] eqn:E. simpl.
  apply ReplaceRoleInScope_effect in E as [ [_ ->]|(_ & a & Hr & _)]; [done|]. by eapply replaced_confined.
Qed.
End Repo.

(** Replacing a member's role in a scope leaves it exactly one assignment
    there - the one returned, with the requested role - whatever assignments it
    had, creates the first one when it had none, and leaves every assignment
    outside the member and scope as it was. *)
Theorem ReplaceRoleInScope_exact `{GoStd} role s r s' :
  roles_ok (db_tables s) -> ReplaceRoleInScope role s = (Ok r, s') ->
  mr_Role r = mr_Role role /\ rows (selected role) (tb_roles (db_tables s')) = [r] /\
  (forall id x, selected role x = false ->
     tb_roles (db_tables s') !! id = Some x <-> tb_roles (db_tables s) !! id = Some x).
Proof.
  intros Hok E. apply ReplaceRoleInScope_effect in E as [ [? _]|(Hsc & a & Hr & [ [= <-]|?])]; [done| |done].
  by apply replaced_exact.
Qed.

#[export] Hint Resolve GetByEmail_frame GetByOIDCIdentity_frame MemberRepo_GetByID_frame GetRoles_frame
  GetRolesInScope_frame GetRolesByMembers_frame ListAll_frame ListInScope_frame TenantRepo_GetByCode_frame
  TenantRepo_GetByID_frame GetByTenantAndCode_frame WorkspaceRepo_GetByID_frame
  MemberRepo_Create_ok AddRole_ok RemoveRole_ok RevokeAccessInScope_ok ReplaceRoleInScope_ok : senda.

(** ** The handlers

    From a well-typed table, a handler of the scope [sc] ends in one, and
    changes only assignments of the scope. *)
Definition guarded (sc : option memberScope) (t t' : Tables) : Prop := roles_ok t -> roles_ok t' /\ confined sc t t'.

#[export] Instance guarded_preorder sc : PreOrder (guarded sc).
Proof.
  split; [by intros t|]. intros t1 t2 t3 H12 H23 Hok.
  destruct (H12 Hok) as [Hok2 Hc2], (H23 Hok2) as [Hok3 Hc3]. split; [done|by etrans].
Qed.

Lemma guarded_intro {A} sc (m : M Dir A) s :
  relates db_tables keeps_roles_ok m ->
  (roles_ok (db_tables s) -> relates_at db_tables (confined sc) m s) -> relates_at db_tables (guarded sc) m s.
Proof. intros Hk Hc Hok. split; [by apply Hk|by apply Hc]. Qed.

Section Handlers.
Context `{GoStd} `{Codec} `{Parsers} `{Binder CreateMemberRequest} `{Binder roleAssignmentRequest}.
Context (ts : option (TenantStore.t Dir)) (wss : option (WorkspaceStore.t Dir)) (sc : option memberScope).
#[local] Abbreviation h := (mkMemberHandler MemberRepo ts wss db_runtime).
#[local] Abbreviation safe := (relates (on_world db_tables) (guarded sc)).

(** A scope a route can resolve to. *)
Definition scope_wf : Prop := match sc with Some s => is_Some (scopeID (Some s)) | None => True end.
Hypothesis sc_wf : scope_wf.

Lemma Create_guarded m : relates db_tables (guarded sc) (MemberRepo_Create m).
Proof.
  intros s. apply guarded_intro; [apply MemberRepo_Create_ok|]. intros _. apply MemberRepo_Create_confined.
Qed.

Lemma AddRole_guarded role : scope_matches sc role = true -> allowedRole sc (mr_Role role) = true ->
  relates db_tables (guarded sc) (AddRole role).
Proof.
  intros Hm Ha s. apply guarded_intro; [apply AddRole_ok|]. intros _. by apply AddRole_confined.
Qed.

(** What a scope's assignments select stays in the scope. *)
Lemma in_scope_confined st : st = match sc with None => ScopeGlobal | Some s => sc_scopeType s end ->
  forall r, in_scope st (scopeID sc) r = true -> scope_matches sc r = true.
Proof.
  intros -> r Hr. pose proof sc_wf as Hwf. unfold scope_wf in Hwf.
  destruct sc as [ [st tid wid]|]; [|done]. apply in_scope_matches; [|done]. simpl in *. by intros ->.
Qed.

Lemma ReplaceRole_guarded role :
  scope_matches sc role = true -> allowedRole sc (mr_Role role) = true ->
  (forall r, selected role r = true -> scope_matches sc r = true) ->
  relates db_tables (guarded sc) (ReplaceRoleInScope role).
Proof.
  intros Hm Ha Hs s. apply guarded_intro; [apply ReplaceRoleInScope_ok|]. intros Hok. by apply ReplaceRoleInScope_confined.
Qed.

Lemma Revoke_guarded id st : st = match sc with None => ScopeGlobal | Some s => sc_scopeType s end ->
  relates db_tables (guarded sc) (RevokeAccessInScope id st (scopeID sc)).
Proof.
  intros Est s. apply guarded_intro; [apply RevokeAccessInScope_ok|]. intros Hok.
  apply RevokeAccessInScope_confined; [done|by apply in_scope_confined].
Qed.

Lemma removeAccess_safe : safe (removeAccess h sc).
Proof.
  unfold removeAccess. simpl. relates_tac. related relates_stored; [relates_tac|]. intros _.
  destruct (_ && _); [relates_tac|]. related relates_stored; [|intros; relates_tac].
  apply relates_up. by apply Revoke_guarded.
Qed.

(** *** Removing *)

Lemma scopedRoles_frame id : preserves db_tables (scopedRoles h id sc).
Proof. unfold scopedRoles. simpl. preserves_tac. Qed.

Lemma scopedRoles_in_scope id s roles s1 r :
  scopedRoles h id sc s = (Ok roles, s1) -> r ∈ roles -> is_Some sc ->
  (exists k, tb_roles (db_tables s) !! k = Some r) /\ scope_matches sc r = true.
Proof.
  intros E Hr [s0 Es]. unfold scopedRoles in E. pose proof in_scope_confined as Hin. rewrite Es in *. simpl in E.
  unfold GetRolesInScope in E. destruct (scope_error _ _ _); [done|]. apply query_Ok in E as [E _]. injection E as <-.
  apply elem_of_rows in Hr as [Hk Hp]. apply andb_true_iff in Hp as [_ Hp]. split; [done|]. by eapply Hin.
Qed.

Lemma RemoveRole_guarded id s :
  (forall r, roles_ok (db_tables s) -> tb_roles (db_tables s) !! id = Some r -> scope_matches sc r = true) ->
  relates_at db_tables (guarded sc) (RemoveRole id) s.
Proof.
  intros Hs. apply guarded_intro; [apply RemoveRole_ok|]. intros Hok. apply RemoveRole_confined. auto.
Qed.

Lemma stored_no_content {A} (m : M Dir A) x :
  relates_at db_tables (guarded sc) m x.1 ->
  relates_at (on_world db_tables) (guarded sc) (stored (up m) (fun _ => NoContent 204)) x.
Proof.
  intros Hm. related relates_at_stored; [by apply relates_at_up|]. intros a x' _.
  related relates_preserves. apply write_frame.
Qed.

Lemma removeRole_safe : safe (removeRole h sc).
Proof.
  unfold removeRole. simpl. relates_tac. related relates_stored; [relates_tac|]. intros _.
  destruct sc as [s0|] eqn:Es; intros x.
  - rewrite <- Es. related relates_at_stored; [apply relates_at_up; related relates_preserves; apply scopedRoles_frame|].
    intros roles x' Er. pose proof (scopedRoles_frame a0 x.1) as Hf.
    destruct x as [s c]. unfold up in Er. simpl in Hf. destruct (scopedRoles h a0 sc s) as [r s1] eqn:Ers.
    injection Er as -> <-. simpl in Hf. destruct (existsb _ _) eqn:Ex; [|related relates_preserves; apply WriteError_frame].
    apply stored_no_content, RemoveRole_guarded. simpl. rewrite Hf. intros r Hok Hr.
    apply existsb_exists in Ex as (r0 & Hr0%list_elem_of_In & Hid). apply bool_decide_eq_true in Hid.
    apply (scopedRoles_in_scope _ _ _ _ r0) in Ers as [ [k Hk] Hm]; [|done|by rewrite Es].
    rewrite <- (role_id _ Hok _ _ Hk), Hid, Hr in Hk. by injection Hk as ->.
  - rewrite <- Es. apply stored_no_content, RemoveRole_guarded. intros r _ _. by rewrite Es.
Qed.

(** *** Assigning *)

Lemma app_nil {A} (l1 l2 : list A) : l1 ++ l2 = [] -> l1 = [] /\ l2 = [].
Proof. apply app_eq_nil. Qed.

Lemma built_role memberID req s mr s1 :
  buildMemberRole h memberID sc req s = (Ok (mr, []), s1) ->
  scope_matches sc mr = true /\ allowedRole sc (mr_Role mr) = true /\
  (forall r, selected mr r = true -> scope_matches sc r = true).
Proof.
  pose proof in_scope_confined as Hin. pose proof sc_wf as Hwf. unfold scope_wf in Hwf.
  unfold buildMemberRole. simpl. unfold bind, total, NewV7, Now, total. simpl.
  assert (Ha : forall role st, validateRoleAssignment sc req role st = [] -> allowedRole sc role = true).
  { intros role st [Hr _]%app_nil. by destruct (allowedRole sc role). }
  destruct sc as [ [st tid wid]|]; simpl.
  - intros [= <- Hv _]. split; [|split; [by eapply Ha|] ].
    + simpl. rewrite bool_decide_eq_true_2 by done. unfold both_eq. simpl in Hwf.
      destruct st; simpl; try done; rewrite (bool_decide_eq_true_2 _ Hwf); by rewrite bool_decide_eq_true_2.
    + intros r [_ Hr]%andb_true_iff. by apply (Hin _ eq_refl).
  - destruct (parseOptionalUUID _) as [tid|]; [|done]. destruct (parseOptionalUUID _) as [wid|]; [|done].
    intros [= <- Hv _]. split; [done|]. split; [by eapply Ha|done].
Qed.

Lemma build_frame memberID req : preserves db_tables (buildMemberRole h memberID sc req).
Proof. unfold buildMemberRole. simpl. preserves_tac. Qed.

Lemma mutateRole_safe persist status :
  (forall mr, scope_matches sc mr = true -> allowedRole sc (mr_Role mr) = true ->
    (forall r, selected mr r = true -> scope_matches sc r = true) -> relates db_tables (guarded sc) (persist mr)) ->
  safe (mutateRole h sc persist status).
Proof.
  intros Hp. unfold mutateRole. simpl. relates_tac. related relates_stored; [relates_tac|]. intros _.
  destruct (Bind _) as [req|e]; [|relates_tac]. intros [s c].
  related relates_at_try; [apply relates_at_up; related relates_preserves; apply build_frame|].
  intros r x' E. unfold up in E. destruct (buildMemberRole _ _ _ _ s) as [b s1] eqn:Eb. injection E as -> <-.
  destruct r as [ [mr [|e es] ]|e]; [|related relates_preserves; apply WriteErrorDetails_frame|related relates_preserves; apply WriteError_frame].
  apply built_role in Eb as (Hm & Ha & Hs). apply (relates_stored db_tables); [apply _|apply relates_up; auto|].
  intros mr'. relates_tac.
Qed.

Lemma addRole_safe : safe (addRole h sc).
Proof. apply mutateRole_safe. intros mr Hm Ha _. by apply AddRole_guarded. Qed.

Lemma replaceRole_safe : safe (replaceRole h sc).
Proof. apply mutateRole_safe. intros mr Hm Ha Hs. by apply ReplaceRole_guarded. Qed.

(** *** Creating *)

Lemma new_assignment_spec memberID role s0 s mr s1 :
  sc = Some s0 -> new_assignment h memberID role s0 s = (Ok mr, s1) ->
  scope_matches sc mr = true /\ mr_Role mr = role.
Proof.
  intros Es. pose proof sc_wf as Hwf. unfold scope_wf in Hwf. rewrite Es in *. destruct s0 as [st tid wid].
  intros [= <- _]. simpl in *. split; [|done]. rewrite bool_decide_eq_true_2 by done. unfold both_eq.
  destruct st; simpl; try done; rewrite (bool_decide_eq_true_2 _ Hwf); by rewrite bool_decide_eq_true_2.
Qed.

Lemma create_member_safe : safe (create_member h sc).
Proof.
  unfold create_member. simpl. related relates_bind; [relates_tac|]. intros c.
  destruct (Bind _) as [req|e]; [|relates_tac].
  destruct (create_errors _ _ _) as [|fe fes] eqn:Ee; [|relates_tac].
  apply app_nil in Ee as [_ Ee]. related relates_stored.
  { apply relates_up. unfold find_or_create. simpl. relates_tac. apply Create_guarded. }
  intros member. related relates_stored; [|intros; relates_tac]. apply relates_up.
  destruct sc as [s0|] eqn:Es; [|relates_tac]. destruct (requested_role req) as [role|]; simpl in Ee; [|discriminate Ee].
  intros s. related relates_at_bind; [related relates_preserves; unfold new_assignment; simpl; preserves_tac|].
  intros mr s1 Em. rewrite <- Es in *. apply (new_assignment_spec _ _ _ _ _ _ Es) in Em as [Hm Hr].
  revert s1. change (relates db_tables (guarded sc) (let! memberRole := AddRole mr in ret [memberRole])).
  related relates_bind; [|intros; relates_tac]. apply AddRole_guarded; [done|]. rewrite Hr, Es. simpl.
  by match type of Ee with (if ?b then _ else _) = _ => destruct b end.
Qed.

(** *** Reading *)

Lemma list_members_frame : preserves (on_world db_tables) (list_members h sc).
Proof.
  unfold list_members. simpl. preserves_tac. apply stored_frame; [destruct sc; preserves_tac|]. intros [ms cur].
  apply stored_frame; [preserves_tac|]. intros. apply write_frame.
Qed.

Lemma get_member_frame : preserves (on_world db_tables) (get_member h sc).
Proof.
  unfold get_member. simpl. preserves_tac. apply stored_frame; [preserves_tac|]. intros m.
  apply stored_frame; [apply preserves_up, scopedRoles_frame|]. intros. destruct (_ && _); preserves_tac; apply write_frame.
Qed.
End Handlers.
