(* ===== verification/Gates.v ===== *)
(** * The middleware of a request, over any directory

    What a request has shown when the middleware lets it through, proved against
    an interface of the directory: the lookups of tenants, workspaces, keys,
    members and roles answer from the tables of the world and change nothing.
    The repositories implement it, alone and as a part of a larger world. *)
From stdpp Require Import base gmap strings list sorting.
From Stdlib Require Import ZArith NArith Ascii String Lia.
From S2P Require Import Prelude GoMonad Domain Ports Token Config Http.
From S2P Require Import Suppression Postgres Database Directory Auth Members Roles.

(** The tenant and the workspace of a request's codes. *)
Definition tenant_at (t : Tables) (code : string) : Res Tenant :=
  first_row (NotFound "tenant not found")
    (rows (fun r => bool_decide (ten_Code r = code) && tenant_live r) (tb_tenants t)).
Definition workspace_at `{GoStd} (t : Tables) (tenantID : uuid) (code : string) (environment : Environment) : Res Workspace :=
  scan_workspace (rows (fun w => at_code tenantID code w && bool_decide (ws_Environment w = environment)) (tb_workspaces t)).

(** ** The interface *)

(** A lookup that leaves the view [u] alone and whose answer satisfies [Q]. *)
Definition answers {W V A} (u : W -> V) (Q : V -> A -> Prop) (m : M W A) : Prop :=
  forall w r w', m w = (r, w') -> u w' = u w /\ forall a, r = Ok a -> Q (u w) a.

Class DirectoryView `{GoStd} {W V} (u : W -> V) (tabs : V -> Tables) (ts : TenantStore.t W) (wss : WorkspaceStore.t W)
    (ks : APIKeyStore.t W) (ms : MemberStore.t W) : Prop := {
  dv_tenant code : answers u (fun x a => tenant_at (tabs x) code = Ok a) (TenantStore.GetByCode ts code);
  dv_workspace tid code env :
    answers u (fun x a => workspace_at (tabs x) tid code env = Ok a) (WorkspaceStore.GetByTenantAndCode wss tid code env);
  dv_key hash : answers u (fun x k => (exists id, tb_keys (tabs x) !! id = Some k) /\ key_KeyHash k = hash /\ key_live k = true)
    (APIKeyStore.GetByHash ks hash);
  dv_identity iss sub : answers u (fun x m => (exists id, tb_members (tabs x) !! id = Some m) /\
    mem_OIDCIssuer m = Some iss /\ mem_OIDCSubject m = Some sub) (MemberStore.GetByOIDCIdentity ms iss sub);
  dv_email email : answers u (fun x m => (exists id, tb_members (tabs x) !! id = Some m) /\ mem_Email m = email)
    (MemberStore.GetByEmail ms email);
  dv_roles id : answers u (fun x rs => rs = roles_of id (tabs x)) (MemberStore.GetRoles ms id);
}.

Lemma exactly_one_rows {A} e (p : A -> bool) (m : gmap uuid A) a :
  exactly_one e (rows p m) = Ok a -> (exists id, m !! id = Some a) /\ p a = true.
Proof.
  intros E. apply elem_of_rows. unfold exactly_one in E. destruct (rows p m) as [|x [|y l] ]; simplify_eq. left.
Qed.

Lemma first_rows {A} e (p : A -> bool) (m : gmap uuid A) a :
  first_row e (rows p m) = Ok a -> (exists id, m !! id = Some a) /\ p a = true.
Proof. intros E. apply elem_of_rows. destruct (rows p m) as [|x l]; simplify_eq/=. left. Qed.

Section Implementation.
Context `{GoStd} `{Codec} (ilike : string -> string -> bool).

Lemma query_answers {A} wrap (f : Tables -> Res A) (Q : Tables -> A -> Prop) :
  (forall t a, f t = Ok a -> Q t a) -> answers db_tables Q (query wrap f).
Proof.
  intros Hf w r w' E. split; [pose proof (query_frame wrap f w) as Hq; by rewrite E in Hq|].
  intros a ->. apply query_Ok in E as [E _]. by apply Hf.
Qed.

#[export] Instance directory_repos :
  DirectoryView db_tables id (TenantRepo ilike) (WorkspaceRepo ilike) APIKeyRepo MemberRepo.
Proof.
  split; intros; apply query_answers; intros t a E; [done|done|..].
  - apply first_rows in E as [Ht Hp]. rewrite andb_true_iff, bool_decide_eq_true in Hp. tauto.
  - apply exactly_one_rows in E as [Ht Hp]. rewrite andb_true_iff, !bool_decide_eq_true in Hp. tauto.
  - apply exactly_one_rows in E as [Ht Hp]. by rewrite bool_decide_eq_true in Hp.
  - by injection E.
Qed.
End Implementation.

(** The lookups over a larger world that holds the directory. *)
Lemma answers_frame {W V A} (u : W -> V) Q (m : M W A) : answers u Q m -> preserves u m.
Proof. intros Hm w. destruct (m w) as [r w'] eqn:E. by apply Hm in E as [? _]. Qed.

Lemma answers_down {W U A} (f : W -> U) (Q : Tables -> A -> Prop) (m : M Dir A) :
  answers db_tables Q m -> answers (fun x : W * Dir => (f x.1, db_tables x.2)) (fun y => Q y.2) (down m).
Proof.
  intros Hm [x d] r w'. unfold down. destruct (m d) as [r' d'] eqn:E. intros [= <- <-].
  apply Hm in E as [Ed Ha]. simpl. by rewrite Ed.
Qed.

(** ** Guards

    [guards u rs P mw Q]: as [gates], for requests to which [rs] was answered
    so far, and what [mw] answers itself are errors. *)
Definition is_error (rp : Reply) : Prop := match rp_Body rp with BodyError _ _ _ _ => True | _ => False end.
Definition only_errors (rs : list Reply) (c : Conn) : Prop := exists l, cn_Replies c = rs ++ l /\ Forall is_error l.

Definition guards {W V} (u : W -> V) (rs : list Reply) (P : V -> Conn -> Prop) (mw : MiddlewareFunc W) (Q : V -> Conn -> Prop) : Prop :=
  forall next w c r x', P (u w) c -> mw next (w, c) = (r, x') ->
    (u x'.1 = u w /\ only_errors rs x'.2) \/ exists w1 c1, u w1 = u w /\ Q (u w) c1 /\ next (w1, c1) = (r, x').

Section Guards.
Context `{GoStd} {W V : Type} (u : W -> V) (rs : list Reply).

Lemma guards_compose P Q R (f g : MiddlewareFunc W) :
  guards u rs P f Q -> guards u rs Q g R -> guards u rs P (fun next => f (g next)) R.
Proof.
  intros Hf Hg next w c r x' HP E. apply Hf in E as [?|(w1 & c1 & Ew & HQ & E)]; [by left| |done].
  rewrite <- Ew in HQ. apply Hg in E as [ [E ?]|(w2 & c2 & Ew2 & HR & E)]; [left; split; [congruence|done]| |done].
  right. exists w2, c2. rewrite Ew in *. auto.
Qed.

Lemma guards_gates P mw Q : guards u rs P mw Q -> gates u P mw Q.
Proof. intros Hg next w c r x' HP E. apply Hg in E as [ [? _]|?]; auto. Qed.

Lemma refusal status code msg details w c r x' :
  cn_Replies c = rs -> WriteErrorDetails (W:=W) status code msg details (w, c) = (r, x') ->
  u x'.1 = u w /\ only_errors rs x'.2.
Proof. intros <- [= <- <-]. split; [done|]. eexists. split; [done|]. by constructor. Qed.
End Guards.

(** ** What a request has shown when its handler runs *)

Section Gates.
Context `{GoStd} `{Codec} `{Sha256} {W V : Type} (u : W -> V) (tabs : V -> Tables).
Context (ts : TenantStore.t W) (wss : WorkspaceStore.t W) (ks : APIKeyStore.t W) (ms : MemberStore.t W).
Context (oidcVerifier : string -> M W OIDCClaims) (apiKeyPepper : string).
Context `{view : !DirectoryView u tabs ts wss ks ms}.
Hypothesis verifier_frame : forall token, preserves u (oidcVerifier token).

Definition path_environment (c0 : Conn) : Environment :=
  if bool_decide (Param "environment" c0 = "") then EnvironmentProd
  else match ParseEnvironment (Param "environment" c0) with Ok e => e | Err _ => EnvironmentProd end.

Lemma ParseEnvironment_valid raw e : ParseEnvironment raw = Ok e -> Environment_Valid e = true.
Proof. unfold ParseEnvironment. repeat case_bool_decide; by intros [= <-]. Qed.

(** A request the server has just received. *)
Definition fresh (c0 : Conn) (_ : Tables) (c : Conn) : Prop := c = c0 /\ cn_Values c0 = no_values.

Definition scoped (c0 : Conn) (_ : Tables) (c : Conn) : Prop :=
  (cn_Params c = cn_Params c0 /\ cn_Query c = cn_Query c0 /\ cn_Replies c = cn_Replies c0 /\ v_workspace_id (cn_Values c) = None) /\
  cn_Headers c = cn_Headers c0 /\
  v_tenant_code (cn_Values c) = Param "tenant_code" c0 /\ v_workspace_code (cn_Values c) = Param "workspace_code" c0 /\
  match v_environment (cn_Values c) with
  | Some e => if Environment_Valid e then e else EnvironmentProd
  | None => EnvironmentProd
  end = path_environment c0.

Lemma scope_gate c0 new_id : preserves u new_id ->
  guards u (cn_Replies c0) (fun x => fresh c0 (tabs x)) (fun next => RequestID new_id (Scope next)) (fun x => scoped c0 (tabs x)).
Proof.
  intros Hid next w c r x' [-> Hv]. unfold RequestID, bind at 1, conn at 1, get_state. simpl.
  assert (Hs : forall reqID w1,
    exists c1, scoped c0 (tabs (u w)) c1 /\
    (set_value (W:=W) (fun v => mkValues reqID (v_auth_type v) (v_member v) (v_roles v) (v_workspace_id v)
       (v_environment v) (v_tenant_code v) (v_workspace_code v) (v_profile v) (v_auth_result v) (v_resolution v)
       (v_permissions v) (v_read_only v) (v_effective_workspace_code v) (v_allowed_headers v)) ;;;
     set_state (set_resp_headers (fun l => l ++ [("X-Request-ID", reqID)])) ;;; Scope next) (w1, c0) = next (w1, c1)).
  { intros reqID w1. eexists. split; [|reflexivity].
    unfold scoped, path_environment, scope_values, Param. simpl. rewrite !Hv. simpl. repeat split; repeat case_bool_decide; simpl; try done;
      try (destruct (ParseEnvironment _) as [e|] eqn:Ep; [apply ParseEnvironment_valid in Ep|]; simpl; rewrite ?Ep; done). }
  unfold bind at 1. destruct (isValidRequestID _).
  - intros E. right. destruct (Hs (Header "X-Request-ID" c0) w) as (c1 & ? & Ec). exists w, c1. rewrite <- Ec. auto.
  - unfold bind at 1, up. specialize (Hid w). destruct (new_id w) as [[id|e] w1]; simpl in *;
      [|intros [= <- <-]; left; split; [done|by exists []; rewrite app_nil_r] ].
    intros E. right. destruct (Hs (uuid_String id) w1) as (c1 & ? & Ec). exists w1, c1. rewrite <- Ec. auto.
Qed.

(** The member a bearer token stands for: the one bound to the token's issuer
    and subject, or one bound to nothing with the token's email. *)
Definition identifies (t : Tables) (cl : OIDCClaims) (m : Member) : Prop :=
  (exists id, tb_members t !! id = Some m) /\ cl_Issuer cl <> "" /\ cl_Subject cl <> "" /\
  ((mem_OIDCIssuer m = Some (cl_Issuer cl) /\ mem_OIDCSubject m = Some (cl_Subject cl)) \/
   (mem_OIDCIssuer m = None /\ mem_OIDCSubject m = None /\ mem_Email m = cl_Email cl)).

(** The verifier accepted the request's token, and the token is the member's. *)
Definition caller (c0 : Conn) (t : Tables) (m : Member) : Prop :=
  exists token cl s0 s1, Header "Authorization" c0 = "Bearer " +:+ token /\
    oidcVerifier token s0 = (Ok cl, s1) /\ identifies t cl m.

(** The request carries a live key of the table. *)
Definition holds_key (c0 : Conn) (t : Tables) (k : APIKey) : Prop :=
  exists token id, Header "Authorization" c0 = "Bearer " +:+ token /\ tb_keys t !! id = Some k /\ key_live k = true /\
    (key_KeyHash k = HashKeyHMAC token apiKeyPepper \/ key_KeyHash k = HashKeyPlain token).

(** What identification leaves of a scoped request. *)
Definition addressed (c0 : Conn) (c : Conn) : Prop :=
  cn_Params c = cn_Params c0 /\ cn_Query c = cn_Query c0 /\ cn_Replies c = cn_Replies c0.

Definition key_authed (c0 : Conn) (t : Tables) (c : Conn) : Prop :=
  addressed c0 c /\ v_auth_type (cn_Values c) = "apikey" /\
  exists k, holds_key c0 t k /\ v_workspace_id (cn_Values c) = Some (key_WorkspaceID k).
Definition oidc_authed (c0 : Conn) (t : Tables) (c : Conn) : Prop :=
  scoped c0 t c /\ exists m, caller c0 t m /\ v_auth_type (cn_Values c) = "oidc" /\
    v_member (cn_Values c) = Some m /\ v_roles (cn_Values c) = Some (roles_of (mem_ID m) t).
Definition authed (c0 : Conn) (t : Tables) (c : Conn) : Prop := key_authed c0 t c \/ oidc_authed c0 t c.

(** Looking something up in the directory. *)
Lemma gate_lookup {A} Q (m : M W A) (k : Res A -> HandlerFunc W) w c r x' :
  answers u Q m -> (try! a := up m in k a) (w, c) = (r, x') ->
  exists a w1, u w1 = u w /\ k a (w1, c) = (r, x') /\ (forall b, a = Ok b -> Q (u w) b) /\ m w = (a, w1).
Proof.
  intros Hm. unfold try, up. destruct (m w) as [a w1] eqn:E. intros Ek. exists a, w1.
  destruct (Hm _ _ _ E). auto.
Qed.

Lemma scoped_replies c0 t c : scoped c0 t c -> cn_Replies c = cn_Replies c0.
Proof. by intros ((_ & _ & ? & _) & _). Qed.

Lemma authed_replies c0 t c : authed c0 t c -> cn_Replies c = cn_Replies c0.
Proof. intros [ [ (_ & _ & ?) _]|[? _] ]; [done|by eapply scoped_replies]. Qed.

(** The middleware has answered with an error. *)
Ltac refused E :=
  left; let X := fresh "X" in pose proof E as X;
  eapply (refusal u) in X; [destruct X; split; [congruence|eassumption]|first [by eapply scoped_replies|by eapply authed_replies] ].

Lemma load_roles_gate c0 m :
  guards u (cn_Replies c0) (fun x c => scoped c0 (tabs x) c /\ caller c0 (tabs x) m) (load_roles ms m) (fun x => authed c0 (tabs x)).
Proof.
  intros next w c r x' [Hsc Hm]. unfold load_roles. intros E.
  eapply gate_lookup in E as (a & w1 & Ew & E & Er & _); [|apply dv_roles].
  destruct a as [roles|e]; [|refused E].
  specialize (Er _ eq_refl) as ->.
  right. eexists w1, _. split; [done|]. split; [|exact E]. right. split; [exact Hsc|]. exists m. auto.
Qed.

Lemma unbound_answers email : answers u (fun x m => (exists id, tb_members (tabs x) !! id = Some m) /\
  mem_OIDCIssuer m = None /\ mem_OIDCSubject m = None /\ mem_Email m = email) (findUnboundMemberByEmail ms email).
Proof.
  intros w r w'. unfold findUnboundMemberByEmail. case_bool_decide; [by intros [= <- <-]|]. unfold bind.
  destruct (MemberStore.GetByEmail ms email w) as [[m'|e] s2] eqn:E; apply dv_email in E as [Eu Hq];
    [|intros [= <- <-]; done].
  destruct (Hq _ eq_refl) as [Hid Hem].
  destruct (_ || _) eqn:Eb; [by intros [= <- <-]|]. apply orb_false_iff in Eb as [Ei Es].
  rewrite bool_decide_eq_false in Ei, Es. rewrite <- eq_None_not_Some in Ei, Es. intros [= <- <-].
  split; [done|]. by intros a [= <-].
Qed.

Lemma OIDC_gate c0 token :
  Header "Authorization" c0 = "Bearer " +:+ token ->
  guards u (cn_Replies c0) (fun x => scoped c0 (tabs x)) (authenticateOIDC ms oidcVerifier token) (fun x => authed c0 (tabs x)).
Proof.
  intros Hh next w c r x' Hsc E. unfold authenticateOIDC in E.
  apply (gate_up u) in E as (cl & w1 & Ev & Ew & E); [|apply verifier_frame].
  destruct cl as [cl|e]; [|refused E].
  destruct (_ || _) eqn:Eb; [refused E|].
  apply orb_false_iff in Eb as [Hiss Hsub]. rewrite bool_decide_eq_false in Hiss, Hsub.
  eapply gate_lookup in E as (m & w2 & Ew2 & E & Em & _); [|apply dv_identity].
  assert (Hload : forall m w3 r x', u w3 = u w -> identifies (tabs (u w)) cl m ->
    load_roles ms m next (w3, c) = (r, x') ->
    (u x'.1 = u w /\ only_errors (cn_Replies c0) x'.2) \/ exists w4 c4, u w4 = u w /\ authed c0 (tabs (u w)) c4 /\ next (w4, c4) = (r, x')).
  { intros m' w3 r' x3 Ew3 Hid El. rewrite <- Ew3. refine (load_roles_gate c0 m' next w3 c r' x3 _ El). rewrite Ew3.
    split; [exact Hsc|]. exists token, cl, w, w1. auto. }
  destruct m as [m|e].
  - destruct (Em _ eq_refl) as (Hid & Hi & Hs).
    eapply Hload; [|split; [rewrite <- Ew; exact Hid|eauto]|exact E]. congruence.
  - destruct (_ && _); [refused E|].
    eapply gate_lookup in E as (m & w3 & Ew3 & E & Em' & _); [|apply unbound_answers].
    destruct m as [m|e']; [|refused E].
    destruct (Em' _ eq_refl) as (Hid & Hi & Hs & He).
    eapply Hload; [|split; [rewrite <- Ew, <- Ew2; exact Hid|eauto 10]|exact E]. congruence.
Qed.

Lemma find_key_answers token : answers u (fun x k => (exists id, tb_keys (tabs x) !! id = Some k) /\ key_live k = true /\
  (key_KeyHash k = HashKeyHMAC token apiKeyPepper \/ key_KeyHash k = HashKeyPlain token)) (find_key ks apiKeyPepper token).
Proof.
  intros w r w'. unfold find_key, try, ret.
  destruct (APIKeyStore.GetByHash ks (HashKeyHMAC token apiKeyPepper) w) as [[k|e] w1] eqn:E; apply dv_key in E as [Eu Hq].
  - intros [= <- <-]. split; [done|]. intros a [= <-]. destruct (Hq _ eq_refl) as (? & ? & ?). auto.
  - intros E2. apply dv_key in E2 as [Eu2 Hq2]. split; [congruence|]. intros a Ha. destruct (Hq2 _ Ha) as (? & ? & ?).
    rewrite Eu in *. auto.
Qed.

Lemma APIKey_gate c0 token env :
  Header "Authorization" c0 = "Bearer " +:+ token ->
  guards u (cn_Replies c0) (fun x => scoped c0 (tabs x)) (authenticateAPIKey ks apiKeyPepper token env) (fun x => authed c0 (tabs x)).
Proof.
  intros Hh next w c r x' Hsc E. unfold authenticateAPIKey in E.
  eapply gate_lookup in E as (k & w1 & Ew & E & Ek & _); [|apply find_key_answers].
  destruct k as [k|e]; [|refused E].
  destruct (negb _); [refused E|].
  destruct (Ek _ eq_refl) as ( [id Hid] & Hl & Hhash).
  right. eexists w1, _. split; [done|]. split; [|exact E]. left.
  destruct Hsc as ((Hp & Hq & Hr & _) & _). split; [done|]. split; [done|]. exists k. split; [|done]. by exists token, id.
Qed.

Lemma auth_gate c0 :
  guards u (cn_Replies c0) (fun x => scoped c0 (tabs x)) (Auth ks ms oidcVerifier apiKeyPepper) (fun x => authed c0 (tabs x)).
Proof.
  intros next w c r x' Hsc E. unfold Auth, bind at 1, conn at 1, get_state in E. simpl in E.
  assert (Hh : Header "Authorization" c = Header "Authorization" c0).
  { unfold Header. by destruct Hsc as (_ & -> & _). }
  rewrite Hh in E.
  case_bool_decide; [refused E|].
  destruct (HasPrefix _ _) eqn:Ep; simpl in E; [|refused E].
  case_bool_decide; [refused E|].
  apply HasPrefix_TrimPrefix in Ep.
  destruct (apiKeyEnvironment _) as [env|]; [eapply APIKey_gate|eapply OIDC_gate]; done.
Qed.

Lemma oidc_gate c0 : guards u (cn_Replies c0) (fun x => authed c0 (tabs x)) (OIDCOnly (W:=W)) (fun x => oidc_authed c0 (tabs x)).
Proof.
  intros next w c r x' Ha E. unfold OIDCOnly, bind at 1, values in E. simpl in E.
  case_bool_decide as Ht; simpl in E; [|refused E].
  right. exists w, c. split; [done|]. split; [|done]. destruct Ha as [(_ & Ha & _)|Ha]; [congruence|done].
Qed.

Definition resolves (c0 : Conn) (t : Tables) (tenantID workspaceID : option uuid) : Prop :=
  match tenantID with
  | None => Param "tenant_code" c0 = ""
  | Some tid => Param "tenant_code" c0 <> "" /\ exists ten, tenant_at t (Param "tenant_code" c0) = Ok ten /\ tid = ten_ID ten
  end /\
  match workspaceID with
  | None => Param "workspace_code" c0 = "" \/ tenantID = None
  | Some wid => Param "workspace_code" c0 <> "" /\ exists tid ws, tenantID = Some tid /\
      workspace_at t tid (Param "workspace_code" c0) (path_environment c0) = Ok ws /\ wid = ws_ID ws
  end.

Definition permitted (minRole : Role) (c0 : Conn) (t : Tables) (c : Conn) : Prop :=
  scoped c0 t c /\ exists m a tid wid, caller c0 t m /\ a ∈ roles_of (mem_ID m) t /\
    authorises minRole tid wid a /\ resolves c0 t tid wid.

Lemma role_scope_resolves c0 c w r w' :
  scoped c0 (tabs (u w)) c -> role_scope ts wss (cn_Values c) w = (r, w') ->
  u w' = u w /\ forall tid wid, r = Ok (tid, wid) -> resolves c0 (tabs (u w)) tid wid.
Proof.
  intros (_ & _ & Et & Ew & Ee). unfold role_scope. rewrite Et, Ew, Ee. unfold bind at 1.
  case_bool_decide as Htc; simpl.
  { unfold bind, ret. simpl. intros [= <- <-]. split; [done|]. intros ? ? [= <- <-]. split; [done|by right]. }
  unfold wrap_err at 1, bind at 1. destruct (TenantStore.GetByCode ts _ w) as [[ten|e] w2] eqn:E2;
    apply dv_tenant in E2 as [Eu2 Hq2]; [|by intros [= <- <-] ].
  specialize (Hq2 _ eq_refl). simpl. unfold bind at 1. case_bool_decide as Hwc.
  { intros [= <- <-]. split; [done|]. intros ? ? [= <- <-]. split; [split; [done|by exists ten]|by left]. }
  unfold wrap_err, bind at 1. destruct (WorkspaceStore.GetByTenantAndCode wss _ _ _ w2) as [[ws|e] w3] eqn:E3;
    apply dv_workspace in E3 as [Eu3 Hq3]; simpl; intros [= <- <-]; (split; [congruence|]); [|done].
  specialize (Hq3 _ eq_refl). rewrite Eu2 in Hq3. intros ? ? [= <- <-].
  split; (split; [done|]); [by exists ten|by exists (ten_ID ten), ws].
Qed.

Lemma role_gate minRole c0 :
  guards u (cn_Replies c0) (fun x => oidc_authed c0 (tabs x)) (RequireRole ts wss minRole) (fun x => permitted minRole c0 (tabs x)).
Proof.
  intros next w c r x' (Hsc & m & Hm & Ht & _ & Hr) E. unfold RequireRole, bind at 1, values in E. simpl in E.
  rewrite Ht, Hr in E. simpl in E. unfold try, up in E.
  destruct (role_scope ts wss (cn_Values c) w) as [sc w1] eqn:Es.
  apply (role_scope_resolves _ _ _ _ _ Hsc) in Es as [Ew Es].
  destruct sc as [[tid wid]|e]; [|refused E].
  destruct (hasPermission _ _ _ _) eqn:Ep; [|refused E].
  apply hasPermission_spec in Ep as (a & Ha & Hauth). specialize (Es _ _ eq_refl).
  right. exists w1, c. split; [done|]. split; [|done]. split; [done|]. by exists m, a, tid, wid.
Qed.

(** A handler of the management surface only runs for a caller with authority. *)
Lemma manage_gate new_id minRole c0 : preserves u new_id ->
  guards u (cn_Replies c0) (fun x => fresh c0 (tabs x))
    (fun next => RequestID new_id (Scope (Auth ks ms oidcVerifier apiKeyPepper (OIDCOnly (RequireRole ts wss minRole next)))))
    (fun x => permitted minRole c0 (tabs x)).
Proof.
  intros Hid. apply (guards_compose u (cn_Replies c0) _ (fun x => scoped c0 (tabs x)) _ (fun next => RequestID new_id (Scope next)));
    [by apply scope_gate|].
  apply (guards_compose u (cn_Replies c0) _ (fun x => authed c0 (tabs x))); [apply auth_gate|].
  apply (guards_compose u (cn_Replies c0) _ (fun x => oidc_authed c0 (tabs x))); [apply oidc_gate|apply role_gate].
Qed.

(** A handler of the data plane runs for a key, or for a member. *)
Lemma data_plane_gate new_id c0 : preserves u new_id ->
  guards u (cn_Replies c0) (fun x => fresh c0 (tabs x))
    (fun next => RequestID new_id (Scope (Auth ks ms oidcVerifier apiKeyPepper next))) (fun x => authed c0 (tabs x)).
Proof.
  intros Hid. apply (guards_compose u (cn_Replies c0) _ (fun x => scoped c0 (tabs x)) _ (fun next => RequestID new_id (Scope next)));
    [by apply scope_gate|apply auth_gate].
Qed.
End Gates.

(** ** What a handler does and shows

    [serves u R about m x]: run from [x], [m] takes the view [u] of the world
    along [R] and what it answers satisfies [about]. *)
Section Serving.
Context `{GoStd} {W V : Type} (u : W -> V) (R : V -> V -> Prop) `{!PreOrder R} (about : Body -> Prop).

Definition seen (x : W * Conn) : V * list Reply := (u x.1, cn_Replies x.2).
Definition serving (a b : V * list Reply) : Prop :=
  R a.1 b.1 /\ exists l, b.2 = a.2 ++ l /\ Forall (fun rp => about (rp_Body rp)) l.

#[export] Instance serving_preorder : PreOrder serving.
Proof.
  split.
  - intros a. split; [done|]. exists []. by rewrite app_nil_r.
  - intros a b c [Hab (l & El & Hl)] [Hbc (k & Ek & Hk)]. split; [by etrans|].
    exists (l ++ k). rewrite Ek, El, app_assoc. split; [done|]. by apply Forall_app.
Qed.

Definition serves {A} (m : M (W * Conn) A) (x : W * Conn) : Prop := relates_at seen serving m x.

Lemma serves_bind {A B} (m : M (W * Conn) A) (k : A -> M (W * Conn) B) x :
  serves m x -> (forall a x', m x = (Ok a, x') -> serves (k a) x') -> serves (bind m k) x.
Proof. apply relates_at_bind, _. Qed.
Lemma serves_try {A B} (m : M (W * Conn) A) (k : Res A -> M (W * Conn) B) x :
  serves m x -> (forall r x', m x = (r, x') -> serves (k r) x') -> serves (try m k) x.
Proof. apply relates_at_try, _. Qed.
Lemma serves_quiet {A} (m : M (W * Conn) A) x : seen (m x).2 = seen x -> serves m x.
Proof. intros E. unfold serves, relates_at. by rewrite E. Qed.
Lemma serves_ret {A} (a : A) x : serves (ret a) x.
Proof. by apply serves_quiet. Qed.
Lemma serves_fail {A} e x : serves (fail (A:=A) e) x.
Proof. by apply serves_quiet. Qed.
Lemma serves_conn x : serves conn x.
Proof. by apply serves_quiet. Qed.
Lemma serves_values x : serves values x.
Proof. by apply serves_quiet. Qed.
Lemma serves_headers f x : serves (set_state (set_resp_headers f)) x.
Proof. apply serves_quiet. by destruct x. Qed.
Lemma serves_up {A} (m : M W A) x : R (u x.1) (u (m x.1).2) -> serves (up m) x.
Proof.
  destruct x as [w c]. unfold serves, relates_at, seen, serving, up. simpl. destruct (m w) as [r w']. simpl.
  intros Hm. split; [done|]. exists []. by rewrite app_nil_r.
Qed.
Lemma serves_read {A} (m : M W A) x : preserves u m -> serves (up m) x.
Proof. intros Hm. apply serves_up. by rewrite Hm. Qed.
Lemma serves_write rp x : about (rp_Body rp) -> serves (write rp) x.
Proof.
  destruct x as [w c]. intros Ha. split; simpl; [done|]. exists [rp]. split; [done|]. by constructor.
Qed.

Hypothesis about_error : forall code msg details id, about (BodyError code msg details id).

Lemma serves_error status code msg details x : serves (WriteErrorDetails status code msg details) x.
Proof. apply serves_bind; [apply serves_values|]. intros v x' _. apply serves_write, about_error. Qed.
Lemma serves_store_error e x : serves (mapStoreError e) x.
Proof. unfold mapStoreError. repeat case_match; apply serves_error. Qed.
Lemma serves_stored {A} (m : M (W * Conn) A) (k : A -> HandlerFunc W) x :
  serves m x -> (forall a x', m x = (Ok a, x') -> serves (k a) x') -> serves (stored m k) x.
Proof.
  intros Hm Hk. apply serves_try; [done|]. intros [a|e] x' E; [by apply Hk|apply serves_store_error].
Qed.
Lemma serves_serve (h : HandlerFunc W) x : serves h x -> serves (serve h) x.
Proof.
  intros Hh. apply serves_try; [done|]. intros [a|e] x' _; [apply serves_ret|].
  unfold HTTPErrorHandler. apply serves_bind; [apply serves_conn|]. intros c x2 _.
  destruct (committed c); [apply serves_ret|].
  assert (Hs : serves (WriteError 500 "INTERNAL_ERROR" "internal server error") x2) by apply serves_error. exact Hs.
Qed.

(** A guarded handler serves what it does behind the guard. *)
Lemma serves_guarded P (mw : MiddlewareFunc W) Q (h : HandlerFunc W) w c :
  guards u (cn_Replies c) P mw Q -> P (u w) c ->
  (forall w1 c1, u w1 = u w -> Q (u w) c1 -> cn_Replies c1 = cn_Replies c /\ serves h (w1, c1)) -> serves (mw h) (w, c).
Proof.
  intros Hg HP Hh. unfold serves, relates_at. destruct (mw h (w, c)) as [r x'] eqn:E.
  apply Hg in E as [ [Eu (l & El & Hl)]|(w1 & c1 & Ew & HQ & E)]; [| |done]; unfold seen; simpl.
  - rewrite Eu. split; simpl; [done|]. exists l. split; [done|]. eapply Forall_impl; [exact Hl|].
    intros rp. unfold is_error. destruct (rp_Body rp); done.
  - destruct (Hh w1 c1 Ew HQ) as [Ec Hs]. unfold serves, relates_at in Hs. rewrite E in Hs.
    unfold seen in Hs. simpl in Hs. by rewrite Ew, Ec in Hs.
Qed.
End Serving.
