(* ===== verification/Surface.v ===== *)
(** * The member routes of the management API ([http/routes_management.go])

    The routes of member management with the middleware each request goes
    through, over the repositories. *)
From stdpp Require Import base gmap strings list sorting.
From Stdlib Require Import ZArith NArith Ascii String Lia.
From S2P Require Import Prelude GoMonad Domain Ports Token Config Http.
From S2P Require Import Suppression Postgres Database Directory Auth Members Roles Gates.

Record Route (W : Type) := mkRoute {
  route_Method : string;
  route_Path : string;
  route_Min : Role;
  route_Handler : HandlerFunc W;
}.
Arguments mkRoute {W}. Arguments route_Method {W}. Arguments route_Path {W}.
Arguments route_Min {W}. Arguments route_Handler {W}.

Section Routes.
Context `{GoStd} `{Codec} `{Sha256} `{Parsers} `{Binder CreateMemberRequest} `{Binder roleAssignmentRequest}.
Context (ilike : string -> string -> bool) (oidcVerifier : string -> M Dir OIDCClaims) (apiKeyPepper : string).

(** [NewMemberHandler(memberRepo, tenantRepo, workspaceRepo)]. *)
Definition memberHandler : MemberHandler Dir := mkMemberHandler MemberRepo (Some (TenantRepo ilike)) (Some (WorkspaceRepo ilike)) db_runtime.

Definition global_member_routes : list (Route Dir) :=
  let h := memberHandler in
  [mkRoute "GET" "/members" RoleSuperadmin (Members_List h);
   mkRoute "POST" "/members" RoleSuperadmin (Members_Create h);
   mkRoute "GET" "/members/:member_id" RoleSuperadmin (Members_Get h);
   mkRoute "DELETE" "/members/:member_id/access" RoleSuperadmin (Members_RemoveAccess h);
   mkRoute "PUT" "/members/:member_id/role" RoleSuperadmin (Members_ReplaceRole h);
   mkRoute "POST" "/members/:member_id/roles" RoleSuperadmin (Members_AddRole h);
   mkRoute "DELETE" "/members/:member_id/roles/:role_id" RoleSuperadmin (Members_RemoveRole h)].

Definition tenant_member_routes : list (Route Dir) :=
  let h := memberHandler in
  [mkRoute "GET" "/tenants/:tenant_code/members" RoleTenantAdmin (Members_ListTenant h);
   mkRoute "POST" "/tenants/:tenant_code/members" RoleTenantAdmin (Members_Create h);
   mkRoute "GET" "/tenants/:tenant_code/members/:member_id" RoleTenantAdmin (Members_GetTenant h);
   mkRoute "DELETE" "/tenants/:tenant_code/members/:member_id/access" RoleTenantAdmin (Members_RemoveAccessTenant h);
   mkRoute "PUT" "/tenants/:tenant_code/members/:member_id/role" RoleTenantAdmin (Members_ReplaceRoleTenant h);
   mkRoute "POST" "/tenants/:tenant_code/members/:member_id/roles" RoleTenantAdmin (Members_AddRoleTenant h);
   mkRoute "DELETE" "/tenants/:tenant_code/members/:member_id/roles/:role_id" RoleTenantAdmin (Members_RemoveRoleTenant h)].

(** Registered twice, with and without an environment in the path. *)
Definition workspace_member_routes (group : string) : list (Route Dir) :=
  let h := memberHandler in
  [mkRoute "GET" (group +:+ "/members") RoleWorkspaceViewer (Members_ListWorkspace h);
   mkRoute "POST" (group +:+ "/members") RoleWorkspaceAdmin (Members_Create h);
   mkRoute "GET" (group +:+ "/members/:member_id") RoleWorkspaceViewer (Members_GetWorkspace h);
   mkRoute "DELETE" (group +:+ "/members/:member_id/access") RoleWorkspaceAdmin (Members_RemoveAccessWorkspace h);
   mkRoute "PUT" (group +:+ "/members/:member_id/role") RoleWorkspaceAdmin (Members_ReplaceRoleWorkspace h);
   mkRoute "POST" (group +:+ "/members/:member_id/roles") RoleWorkspaceAdmin (Members_AddRoleWorkspace h);
   mkRoute "DELETE" (group +:+ "/members/:member_id/roles/:role_id") RoleWorkspaceAdmin (Members_RemoveRoleWorkspace h)].

Definition member_routes : list (Route Dir) :=
  global_member_routes ++ tenant_member_routes
  ++ workspace_member_routes "/tenants/:tenant_code/workspaces/:workspace_code"
  ++ workspace_member_routes "/environments/:environment/tenants/:tenant_code/workspaces/:workspace_code".

(** The middleware of a route of the [/api/v1/manage] group, in the order the
    server and the group install it. *)
Definition auth : MiddlewareFunc Dir := Auth APIKeyRepo MemberRepo oidcVerifier apiKeyPepper.
Definition manage (route : Route Dir) : HandlerFunc Dir :=
  RequestID (NewV7 db_runtime)
    (Scope (auth (OIDCOnly (RequireRole (TenantRepo ilike) (WorkspaceRepo ilike) (route_Min route) (route_Handler route))))).

Definition handle (route : Route Dir) : HandlerFunc Dir := serve (manage route).
End Routes.
