(* ===== verification/Authority.v ===== *)
(** * No escalation on the member routes

    Every assignment a request to the member routes adds, changes or removes is
    one its caller has authority over, and the table of assignments stays well
    typed. *)
From stdpp Require Import base gmap strings list sorting.
From Stdlib Require Import ZArith NArith Ascii String Lia.
From S2P Require Import Prelude GoMonad Domain Ports Token Config Http.
From S2P Require Import Suppression Postgres Database Directory Auth Members Roles Gates Surface.

(** ** Authority

    [commands t a r]: holding the assignment [a] gives authority over [r]. *)
Definition belongs (t : Tables) (workspaceID tenantID : uuid) : Prop :=
  exists id ws, tb_workspaces t !! id = Some ws /\ ws_ID ws = workspaceID /\ ws_TenantID ws = tenantID.

Inductive commands (t : Tables) (a r : MemberRole) : Prop :=
| superadmin_commands : mr_ScopeType a = ScopeGlobal -> mr_Role a = RoleSuperadmin -> commands t a r
| tenant_commands tid : mr_ScopeType a = ScopeTenant -> mr_Role a = RoleTenantAdmin -> mr_TenantID a = Some tid ->
    mr_ScopeType r = ScopeTenant -> mr_TenantID r = Some tid -> commands t a r
| tenant_commands_workspace tid wid :
    mr_ScopeType a = ScopeTenant -> mr_Role a = RoleTenantAdmin -> mr_TenantID a = Some tid ->
    mr_ScopeType r = ScopeWorkspace -> mr_WorkspaceID r = Some wid -> belongs t wid tid -> commands t a r
| workspace_commands wid : mr_ScopeType a = ScopeWorkspace -> mr_Role a = RoleWorkspaceAdmin ->
    mr_WorkspaceID a = Some wid -> mr_ScopeType r = ScopeWorkspace -> mr_WorkspaceID r = Some wid -> commands t a r.

(** Authority never reaches above one's own level. *)
Lemma commands_level t a r : role_scope_check r = true -> commands t a r ->
  (Role_Level (mr_Role r) <= Role_Level (mr_Role a))%Z.
Proof.
  unfold role_scope_check. intros Hr [Hs Ha|tid Hs Ha _ Hrs _|tid wid Hs Ha _ Hrs _ _|wid Hs Ha _ Hrs _]; rewrite Ha;
    [|rewrite Hrs in Hr..].
  - destruct (mr_Role r); simpl; lia.
  - rewrite !andb_true_iff, !bool_decide_eq_true in Hr. destruct Hr as [_ ->]. simpl. lia.
  - rewrite !andb_true_iff, !orb_true_iff, !bool_decide_eq_true in Hr. destruct Hr as [_ [ [->| ->]| ->] ]; simpl; lia.
  - rewrite !andb_true_iff, !orb_true_iff, !bool_decide_eq_true in Hr. destruct Hr as [_ [ [->| ->]| ->] ]; simpl; lia.
Qed.

(** ** The scope of a request and what its caller holds *)

Section Scopes.
Context `{GoStd}.

(** The scopes the routes can resolve to. *)
Definition names (c : Conn) (t : Tables) (sc : option memberScope) : Prop :=
  match sc with
  | None => True
  | Some s =>
      exists ten, tenant_at t (Param "tenant_code" c) = Ok ten /\
      (s = mkScope ScopeTenant (Some (ten_ID ten)) None \/
       exists ws, workspace_at t (ten_ID ten) (Param "workspace_code" c) (path_environment c) = Ok ws /\
         s = mkScope ScopeWorkspace (Some (ws_TenantID ws)) (Some (ws_ID ws)))
  end.

(** The minimum role of a route is enough for the scope. *)
Definition compatible (minRole : Role) (c : Conn) (sc : option memberScope) : Prop :=
  minRole = RoleSuperadmin \/
  match sc with
  | None => Param "tenant_code" c = ""
  | Some s =>
      match sc_scopeType s with
      | ScopeTenant => minRole = RoleTenantAdmin \/ (minRole = RoleWorkspaceAdmin /\ Param "workspace_code" c = "")
      | _ => minRole = RoleTenantAdmin \/ minRole = RoleWorkspaceAdmin
      end
  end.

Lemma workspace_at_row t tid code env ws : workspace_at t tid code env = Ok ws ->
  exists id, tb_workspaces t !! id = Some ws /\ ws_TenantID ws = tid.
Proof.
  unfold workspace_at, scan_workspace, first_row. destruct (rows _ _) as [|w l] eqn:E; [done|]. intros [= <-].
  assert (Hw : w ∈ rows (fun w => at_code tid code w && bool_decide (ws_Environment w = env)) (tb_workspaces t))
    by (rewrite E; left).
  apply elem_of_rows in Hw as [ [id Hid] Hp]. exists id. split; [done|].
  unfold at_code in Hp. rewrite !andb_true_iff, !bool_decide_eq_true in Hp. by destruct Hp as [ [ [? _] _] _].
Qed.

(** What the assignments of a well-typed table say by their level. *)
Lemma tenant_level a : role_scope_check a = true -> mr_ScopeType a = ScopeTenant -> mr_Role a = RoleTenantAdmin.
Proof. unfold role_scope_check. intros Ha Es. rewrite Es, !andb_true_iff, !bool_decide_eq_true in Ha. tauto. Qed.

Lemma workspace_level a : role_scope_check a = true -> mr_ScopeType a = ScopeWorkspace ->
  (60 <= Role_Level (mr_Role a))%Z -> mr_Role a = RoleWorkspaceAdmin.
Proof.
  unfold role_scope_check. intros Ha Es Hl. rewrite Es, !andb_true_iff, !orb_true_iff, !bool_decide_eq_true in Ha.
  destruct Ha as [_ [ [E|E]|E] ]; rewrite E in *; simpl in Hl; lia || done.
Qed.

Lemma workspace_below a : role_scope_check a = true -> mr_ScopeType a = ScopeWorkspace -> (Role_Level (mr_Role a) <= 60)%Z.
Proof.
  unfold role_scope_check. intros Ha Es. rewrite Es, !andb_true_iff, !orb_true_iff, !bool_decide_eq_true in Ha.
  destruct Ha as [_ [ [E|E]|E] ]; rewrite E; simpl; lia.
Qed.

Lemma matches_tenant tid wid r : scope_matches (Some (mkScope ScopeTenant (Some tid) wid)) r = true ->
  mr_ScopeType r = ScopeTenant /\ mr_TenantID r = Some tid.
Proof. unfold scope_matches, both_eq. simpl. rewrite !andb_true_iff, !bool_decide_eq_true. tauto. Qed.
Lemma matches_workspace tid wid r : scope_matches (Some (mkScope ScopeWorkspace tid (Some wid))) r = true ->
  mr_ScopeType r = ScopeWorkspace /\ mr_WorkspaceID r = Some wid.
Proof. unfold scope_matches, both_eq. simpl. rewrite !andb_true_iff, !bool_decide_eq_true. tauto. Qed.

(** A caller a route admits has authority over the route's scope. *)
Lemma authority minRole c t sc tid wid a r :
  role_scope_check a = true -> authorises minRole tid wid a -> resolves c t tid wid ->
  names c t sc -> compatible minRole c sc -> scope_matches sc r = true -> commands t a r.
Proof.
  intros Ha Hauth [Ht Hw] Hn Hc Hm.
  destruct Hauth as [? ?|ti -> Hst Hti Hlv|wi -> Hst Hwi Hlv]; [by apply superadmin_commands| |].
  - pose proof (tenant_level _ Ha Hst) as Hr. rewrite Hr in Hlv. destruct Ht as (Htc & ten & Et & ->).
    destruct Hc as [->|Hc]; [simpl in Hlv; lia|]. destruct sc as [s|]; [|done].
    destruct Hn as (ten' & Et' & [->|(ws & Ews & ->)]); rewrite Et in Et'; injection Et' as <-.
    + apply matches_tenant in Hm as [? ?]. by apply (tenant_commands _ _ _ (ten_ID ten)).
    + apply matches_workspace in Hm as [? ?]. apply workspace_at_row in Ews as (id & Hid & Htid).
      apply (tenant_commands_workspace _ _ _ (ten_ID ten) (ws_ID ws)); try done. by exists id, ws.
  - pose proof (workspace_below _ Ha Hst) as Hb. destruct Hw as (Hwc & ti & ws & -> & Ews & ->).
    destruct Ht as (Htc & ten & Et & ->).
    destruct Hc as [->|Hc]; [simpl in Hlv; lia|]. destruct sc as [s|]; [|done].
    destruct Hn as (ten' & Et' & [->|(ws' & Ews' & ->)]); rewrite Et in Et'; injection Et' as <-; simpl in Hc.
    + destruct Hc as [->|[_ ?] ]; [simpl in Hlv; lia|done].
    + rewrite Ews in Ews'. injection Ews' as <-. apply matches_workspace in Hm as [? ?].
      destruct Hc as [->| ->]; [simpl in Hlv; lia|]. simpl in Hlv.
      apply (workspace_commands _ _ _ (ws_ID ws)); try done. by apply workspace_level.
Qed.
End Scopes.

(** ** What the routes' handlers do *)

Section Effects.
Context `{GoStd} `{Codec} `{Sha256} `{Parsers} `{Binder CreateMemberRequest} `{Binder roleAssignmentRequest}.
Context (ilike : string -> string -> bool).
#[local] Abbreviation h := (memberHandler ilike).

(** From a well-typed table, a handler leaves the tables alone or stays within
    a scope the request names and the route's minimum role is enough for. *)
Definition effect (minRole : Role) (m : HandlerFunc Dir) : Prop :=
  forall w c, roles_ok (db_tables w) -> requestEnvironment c = path_environment c ->
    let t' := db_tables (m (w, c)).2.1 in
    t' = db_tables w \/
    exists sc, names c (db_tables w) sc /\ compatible minRole c sc /\ roles_ok t' /\ confined sc (db_tables w) t'.

Lemma effect_reads minRole m : preserves (on_world db_tables) m -> effect minRole m.
Proof. intros Hm w c _ _. left. apply (Hm (w, c)). Qed.

Lemma effect_global m : relates (on_world db_tables) (guarded None) m -> effect RoleSuperadmin m.
Proof.
  intros Hm w c Hok _. right. exists None. destruct (Hm (w, c) Hok) as [Hok' Hc].
  split; [done|]. split; [by left|done].
Qed.

(** Resolving the scope only reads. *)
Lemma stored_cases {A} (m : M (Dir * Conn) A) (k : A -> HandlerFunc Dir) w c :
  preserves (on_world db_tables) m ->
  db_tables (stored m k (w, c)).2.1 = db_tables w \/
  exists a x, m (w, c) = (Ok a, x) /\ db_tables x.1 = db_tables w /\ stored m k (w, c) = k a x.
Proof.
  intros Hm. specialize (Hm (w, c)). unfold stored, try, on_world in *. simpl in Hm.
  destruct (m (w, c)) as [[a|e] x]; simpl in *; [right; by exists a, x|].
  left. rewrite <- Hm. apply (mapStoreError_frame db_tables e x).
Qed.

Lemma resolveTenantScope_frame : preserves (on_world db_tables) (resolveTenantScope h).
Proof. unfold resolveTenantScope, resolveTenant. simpl. preserves_tac. Qed.
Lemma resolveWorkspaceScope_frame : preserves (on_world db_tables) (resolveWorkspaceScope h).
Proof. unfold resolveWorkspaceScope, resolveWorkspace. simpl. preserves_tac. Qed.
Lemma createScope_frame : preserves (on_world db_tables) (createScope h).
Proof.
  pose proof resolveTenantScope_frame. pose proof resolveWorkspaceScope_frame. unfold createScope. preserves_tac.
Qed.

Lemma resolveTenantScope_names w c sc x :
  resolveTenantScope h (w, c) = (Ok sc, x) ->
  x.2 = c /\ exists ten, tenant_at (db_tables w) (Param "tenant_code" c) = Ok ten /\
    sc = Some (mkScope ScopeTenant (Some (ten_ID ten)) None).
Proof.
  unfold resolveTenantScope, resolveTenant, bind, conn, get_state. simpl.
  destruct (TenantRepo_GetByCode _ w) as [[ten|e] w1] eqn:E; [|done].
  apply query_Ok in E as [E _]. intros [= <- <-]. split; [done|]. by exists ten.
Qed.

Lemma resolveWorkspaceScope_names w c sc x :
  resolveWorkspaceScope h (w, c) = (Ok sc, x) -> requestEnvironment c = path_environment c ->
  x.2 = c /\ exists ten ws, tenant_at (db_tables w) (Param "tenant_code" c) = Ok ten /\
    workspace_at (db_tables w) (ten_ID ten) (Param "workspace_code" c) (path_environment c) = Ok ws /\
    sc = Some (mkScope ScopeWorkspace (Some (ws_TenantID ws)) (Some (ws_ID ws))).
Proof.
  intros E He. unfold resolveWorkspaceScope, resolveWorkspace, bind, conn, get_state in E. simpl in E. rewrite He in E.
  destruct (TenantRepo_GetByCode _ w) as [[ten|e] w1] eqn:E1; [|done].
  apply query_Ok in E1 as [E1 Ew1].
  simpl in E. destruct (GetByTenantAndCode _ _ _ w1) as [[ws|e] w2] eqn:E2; [|done].
  apply query_Ok in E2 as [E2 _]. rewrite Ew1 in E2. injection E as <- <-. split; [done|]. by exists ten, ws.
Qed.

(** A handler that is safe in every scope is confined to the one it resolves. *)
Definition safe_in_all (k : option memberScope -> HandlerFunc Dir) : Prop :=
  forall sc, scope_wf sc -> relates (on_world db_tables) (guarded sc) (k sc).

Lemma effect_resolved minRole m k :
  preserves (on_world db_tables) m -> safe_in_all k ->
  (forall w c sc x, m (w, c) = (Ok sc, x) -> requestEnvironment c = path_environment c ->
     scope_wf sc /\ names c (db_tables w) sc /\ compatible minRole c sc) ->
  effect minRole (stored m k).
Proof.
  intros Hm Hk Hs w c Hok He.
  destruct (stored_cases m k w c Hm) as [E|(sc & x & E & Ex & Ek)]; [by left|].
  destruct (Hs _ _ _ _ E He) as (Hwf & Hn & Hc). rewrite <- Ex in Hok.
  destruct (Hk sc Hwf x Hok) as [Hok' Hconf]. unfold on_world in *. rewrite Ex in Hconf.
  right. exists sc. simpl. rewrite Ek. auto.
Qed.

Lemma effect_tenant k : safe_in_all k -> effect RoleTenantAdmin (on_tenant h k).
Proof.
  intros Hk. apply effect_resolved; [apply resolveTenantScope_frame|done|].
  intros w c sc x E _. apply resolveTenantScope_names in E as (_ & ten & Et & ->).
  split; [by eexists|]. split; [|by right; left]. exists ten. auto.
Qed.

Lemma effect_workspace k : safe_in_all k -> effect RoleWorkspaceAdmin (on_workspace h k).
Proof.
  intros Hk. apply effect_resolved; [apply resolveWorkspaceScope_frame|done|].
  intros w c sc x E He. apply resolveWorkspaceScope_names in E as (_ & ten & ws & Et & Ews & ->); [|done].
  split; [by eexists|]. split; [|by right; right]. exists ten. eauto.
Qed.

Lemma effect_create minRole :
  minRole ∈ [RoleSuperadmin; RoleTenantAdmin; RoleWorkspaceAdmin] -> effect minRole (Members_Create h).
Proof.
  intros Hmin. apply effect_resolved; [apply createScope_frame|intros sc Hsc; by apply create_member_safe|].
  intros w c sc x E He. unfold createScope, bind, conn, get_state in E. simpl in E.
  assert (Hcase : minRole = RoleSuperadmin \/ minRole = RoleTenantAdmin \/ minRole = RoleWorkspaceAdmin) by set_solver.
  case_bool_decide as Hw; simpl in E; [case_bool_decide as Ht; simpl in E|].
  - injection E as <- _. split; [done|]. split; [done|]. right. done.
  - apply resolveTenantScope_names in E as (_ & ten & Et & ->).
    split; [by eexists|]. split; [exists ten; auto|]. unfold compatible. simpl. tauto.
  - apply resolveWorkspaceScope_names in E as (_ & ten & ws & Et & Ews & ->); [|done].
    split; [by eexists|]. split; [exists ten; eauto|]. unfold compatible. simpl. tauto.
Qed.

#[local] Abbreviation routes_safe := (Forall (fun route => effect (route_Min route) (route_Handler route))).
#[local] Abbreviation tenants := (Some (TenantRepo ilike)).
#[local] Abbreviation workspaces := (Some (WorkspaceRepo ilike)).

Lemma global_routes_effect : routes_safe (global_member_routes ilike).
Proof.
  unfold global_member_routes. rewrite !Forall_cons. cbn [route_Min route_Handler]. split_and!; [..|constructor].
  - apply effect_reads. exact (list_members_frame tenants workspaces None).
  - apply effect_create. set_solver.
  - apply effect_reads. exact (get_member_frame tenants workspaces None).
  - apply effect_global. exact (removeAccess_safe tenants workspaces None I).
  - apply effect_global. exact (replaceRole_safe tenants workspaces None I).
  - apply effect_global. exact (addRole_safe tenants workspaces None I).
  - apply effect_global. exact (removeRole_safe tenants workspaces None I).
Qed.

Lemma tenant_routes_effect : routes_safe (tenant_member_routes ilike).
Proof.
  unfold tenant_member_routes. rewrite !Forall_cons. cbn [route_Min route_Handler]. split_and!; [..|constructor].
  - apply effect_reads, stored_frame; [apply resolveTenantScope_frame|apply list_members_frame].
  - apply effect_create. set_solver.
  - apply effect_reads, stored_frame; [apply resolveTenantScope_frame|apply get_member_frame].
  - apply effect_tenant. exact (removeAccess_safe tenants workspaces).
  - apply effect_tenant. exact (replaceRole_safe tenants workspaces).
  - apply effect_tenant. exact (addRole_safe tenants workspaces).
  - apply effect_tenant. exact (removeRole_safe tenants workspaces).
Qed.

Lemma workspace_routes_effect group : routes_safe (workspace_member_routes ilike group).
Proof.
  unfold workspace_member_routes. rewrite !Forall_cons. cbn [route_Min route_Handler]. split_and!; [..|constructor].
  - apply effect_reads, stored_frame; [apply resolveWorkspaceScope_frame|apply list_members_frame].
  - apply effect_create. set_solver.
  - apply effect_reads, stored_frame; [apply resolveWorkspaceScope_frame|apply get_member_frame].
  - apply effect_workspace. exact (removeAccess_safe tenants workspaces).
  - apply effect_workspace. exact (replaceRole_safe tenants workspaces).
  - apply effect_workspace. exact (addRole_safe tenants workspaces).
  - apply effect_workspace. exact (removeRole_safe tenants workspaces).
Qed.

Lemma member_routes_effect : routes_safe (member_routes ilike).
Proof.
  unfold member_routes. rewrite !Forall_app.
  split_and!; auto using global_routes_effect, tenant_routes_effect, workspace_routes_effect.
Qed.
End Effects.

(** ** The routes *)

Section NoEscalation.
Context `{GoStd} `{Codec} `{Sha256} `{Parsers} `{Binder CreateMemberRequest} `{Binder roleAssignmentRequest}.
Context (ilike : string -> string -> bool) (oidcVerifier : string -> M Dir OIDCClaims) (pepper : string).
Hypothesis verifier_frame : forall token, preserves db_tables (oidcVerifier token).

Lemma names_params c0 t c sc : cn_Params c = cn_Params c0 -> names c t sc -> names c0 t sc.
Proof. unfold names, path_environment, Param. by intros ->. Qed.
Lemma compatible_params minRole c0 c sc :
  cn_Params c = cn_Params c0 -> compatible minRole c sc -> compatible minRole c0 sc.
Proof. unfold compatible, Param. by intros ->. Qed.

Lemma scoped_environment c0 t c : scoped c0 t c -> requestEnvironment c = path_environment c.
Proof.
  intros ((Hp & _) & _ & _ & _ & He). unfold requestEnvironment, path_environment, Param in *. rewrite Hp in *.
  case_bool_decide; [done|]. destruct (ParseEnvironment _); [done|exact He].
Qed.

Lemma roles_of_row m t a : a ∈ roles_of m t -> exists id, tb_roles t !! id = Some a.
Proof.
  unfold roles_of. rewrite merge_sort_Permutation. intros [? _]%elem_of_rows. done.
Qed.

(** A route ends in a well-typed table, and what it changed is under the
    authority of its caller. *)
Lemma handle_effect route w c r x' :
  roles_ok (db_tables w) -> cn_Values c = no_values -> route ∈ member_routes ilike ->
  handle ilike oidcVerifier pepper route (w, c) = (r, x') ->
  db_tables x'.1 = db_tables w \/
  exists m a sc, caller oidcVerifier c (db_tables w) m /\ a ∈ roles_of (mem_ID m) (db_tables w) /\
    roles_ok (db_tables x'.1) /\ confined sc (db_tables w) (db_tables x'.1) /\
    forall row, scope_matches sc row = true -> commands (db_tables w) a row.
Proof.
  intros Hok Hv Hroute E. unfold handle, serve, try in E.
  destruct (manage _ _ _ route (w, c)) as [res x1] eqn:Em.
  assert (Ht : db_tables x'.1 = db_tables x1.1).
  { destruct res as [u|e]; [by injection E as _ <-|].
    pose proof (HTTPErrorHandler_frame db_tables e x1) as Hf. rewrite E in Hf. exact Hf. }
  rewrite Ht. clear E Ht r x'.
  apply (manage_gate db_tables id _ _ _ _ oidcVerifier pepper verifier_frame _ _ c db_id_frame) in Em as [ [? _]|(w1 & c1 & Ew & Hp & Em)]; [by left| |done].
  destruct Hp as (Hsc & m & a & tid & wid & Hm & Ha & Hauth & Hres).
  pose proof (scoped_environment _ _ _ Hsc) as Henv. destruct Hsc as ((Hpar & _) & _).
  pose proof (member_routes_effect ilike) as Heff. rewrite Forall_forall in Heff.
  specialize (Heff route Hroute w1 c1). rewrite Ew, Em in Heff. simpl in Heff.
  destruct (Heff Hok Henv) as [->|(sc & Hn & Hc & Hok' & Hconf)]; [by left|]. right.
  exists m, a, sc. repeat split; try done; try apply Hconf; try apply Hok'. intros row Hrow.
  apply roles_of_row in Ha as [ida Ha].
  eapply authority; [exact (role_check _ Hok _ _ Ha)|exact Hauth|exact Hres|..|exact Hrow].
  - by eapply names_params.
  - by eapply compatible_params.
Qed.

(** C31: Every request to the member routes (global, tenant and workspace
    surfaces, through authentication, the OIDC check and [RequireRole]) leaves
    the table of role assignments well typed: identifiers are keys, every row
    satisfies the scope check, an assignment is unique in its scope, and its
    member, tenant and workspace exist. *)
Theorem member_routes_well_typed route w c r x' :
  roles_ok (db_tables w) -> cn_Values c = no_values -> route ∈ member_routes ilike ->
  handle ilike oidcVerifier pepper route (w, c) = (r, x') -> roles_ok (db_tables x'.1).
Proof.
  intros Hok Hv Hroute E. destruct (handle_effect _ _ _ _ _ Hok Hv Hroute E) as [->|(m & a & sc & _ & _ & ? & _)]; done.
Qed.

(** C9: No escalation: an assignment that differs after a request to any of the
    member routes - added, changed or removed - was requested by a member whose
    verified token identifies it and who held, before the request, an
    assignment with authority over the row before and after: a global
    superadmin, the admin of its tenant, or the admin of its workspace, never
    of a lower level than the row's role. *)
Theorem no_escalation route w c r x' id :
  roles_ok (db_tables w) -> cn_Values c = no_values -> route ∈ member_routes ilike ->
  handle ilike oidcVerifier pepper route (w, c) = (r, x') ->
  tb_roles (db_tables x'.1) !! id <> tb_roles (db_tables w) !! id ->
  exists m a, caller oidcVerifier c (db_tables w) m /\ a ∈ roles_of (mem_ID m) (db_tables w) /\
    forall row, tb_roles (db_tables w) !! id = Some row \/ tb_roles (db_tables x'.1) !! id = Some row ->
      commands (db_tables w) a row /\ (Role_Level (mr_Role row) <= Role_Level (mr_Role a))%Z.
Proof.
  intros Hok Hv Hroute E Hid.
  destruct (handle_effect _ _ _ _ _ Hok Hv Hroute E) as [Es|(m & a & sc & Hm & Ha & Hok' & Hc & Hcmd)]; [by rewrite Es in Hid|].
  exists m, a. split; [done|]. split; [done|]. intros row Hrow.
  destruct (confined_roles _ _ _ Hc id) as [?|[Hb Hat] ]; [done|].
  assert (role_scope_check row = true /\ scope_matches sc row = true) as [Hck Hmt].
  { destruct Hrow as [Hr|Hr]; [split; [by eapply (role_check _ Hok)|by apply Hb]|].
    split; [by eapply (role_check _ Hok')|by apply Hat]. }
  pose proof (Hcmd row Hmt) as Hc'. split; [done|]. by eapply commands_level.
Qed.
End NoEscalation.
