(* ===== verification/Keys.v ===== *)
(** * The life of an API key ([service/apikey.go], [middleware/auth.go], [apikey_repo.go])

    A generated key authenticates as its workspace and environment until it is
    revoked, and never again afterwards, whatever else happens to the keys. *)
From stdpp Require Import base gmap strings list.
From Stdlib Require Import ZArith NArith Ascii String Lia.
From S2P Require Import Prelude GoMonad Domain Ports Token Config Http.
From S2P Require Import Suppression Postgres Database Directory Auth Members Roles.

(** The keys of the table: identifiers are keys and hashes are unique. *)
Record keys_ok (t : Tables) : Prop := {
  key_id id k : tb_keys t !! id = Some k -> key_ID k = id;
  key_hash i j ki kj : tb_keys t !! i = Some ki -> tb_keys t !! j = Some kj ->
    key_KeyHash ki = key_KeyHash kj -> i = j;
}.

(** What may happen to a key: its last use changes, and once revoked it stays. *)
Definition later (k k' : APIKey) : Prop :=
  key_KeyHash k' = key_KeyHash k /\ key_WorkspaceID k' = key_WorkspaceID k /\
  (key_RevokedAt k <> None -> key_RevokedAt k' = key_RevokedAt k).

Definition keys_evolve (t t' : Tables) : Prop :=
  (keys_ok t -> keys_ok t') /\
  forall id k, tb_keys t !! id = Some k -> exists k', tb_keys t' !! id = Some k' /\ later k k'.

#[export] Instance later_preorder : PreOrder later.
Proof.
  split; [by intros k|]. intros k1 k2 k3 (E1 & E2 & E3) (F1 & F2 & F3). unfold later.
  rewrite F1, E1, F2, E2. split_and!; try done. intros Hr. rewrite F3; [by apply E3|]. by rewrite E3.
Qed.

#[export] Instance keys_evolve_preorder : PreOrder keys_evolve.
Proof.
  split; [intros t; split; [done|]; intros id k Hk; by exists k|].
  intros t1 t2 t3 [A1 B1] [A2 B2]. split; [auto|]. intros id k Hk.
  destruct (B1 _ _ Hk) as (k2 & Hk2 & L2), (B2 _ _ Hk2) as (k3 & Hk3 & L3). exists k3. split; [done|]. by etrans.
Qed.

(** The row of a live key except when it is the key [id] that is revoked. *)
Definition keys_evolve_but (id : uuid) (t t' : Tables) : Prop :=
  keys_evolve t t' /\ forall k, tb_keys t !! id = Some k -> key_RevokedAt k = None ->
    exists k', tb_keys t' !! id = Some k' /\ key_RevokedAt k' = None.

#[export] Instance keys_evolve_but_preorder id : PreOrder (keys_evolve_but id).
Proof.
  split; [intros t; split; [done|]; by eauto|]. intros t1 t2 t3 [A1 B1] [A2 B2]. split; [by etrans|].
  intros k Hk Hr. destruct (B1 k Hk Hr) as (k2 & ? & ?). by apply (B2 k2).
Qed.

Lemma evolve_insert t id k k' :
  tb_keys t !! id = Some k -> key_ID k' = key_ID k -> later k k' ->
  keys_evolve t (set_keys <[id := k']> t).
Proof.
  intros Hk Hid Hl. split.
  - intros [Hi Hh]. split; simpl.
    + intros i x. rewrite lookup_insert_Some. intros [ [<- <-]|[_ ?] ]; [rewrite Hid|]; eauto.
    + destruct Hl as (Eh & _). intros i j ki kj. rewrite !lookup_insert_Some.
      intros [ [<- <-]|[_ ?] ] [ [<- <-]|[_ ?] ] E; [done|rewrite Eh in E|rewrite Eh in E|]; eauto.
  - intros i x Hx. simpl. destruct (decide (i = id)) as [->|].
    + simplify_eq. exists k'. by rewrite lookup_insert_eq.
    + exists x. by rewrite lookup_insert_ne.
Qed.

Section Repo.
Context `{GoStd} `{Codec}.

Lemma TouchLastUsed_evolve id other : relates db_tables (keys_evolve_but other) (TouchLastUsed id).
Proof.
  related relates_exec. intros now t. simpl. destruct (tb_keys t !! id) as [k|] eqn:Ek; [|done].
  split; [by eapply evolve_insert|]. intros k0 Hk0 Hr. simpl.
  destruct (decide (other = id)) as [->|]; [|rewrite lookup_insert_ne by done; by eauto].
  rewrite lookup_insert_eq. simplify_eq. eauto.
Qed.

Lemma Revoke_evolve id : relates db_tables keys_evolve (APIKeyRepo_Revoke id).
Proof.
  related relates_update. intros now k t E. unfold live_key in E.
  destruct (tb_keys t !! id) as [k0|] eqn:Ek; [|done]. destruct (key_live k0) eqn:El; simplify_eq.
  apply bool_decide_eq_true in El. eapply evolve_insert; [done|done|]. by split_and!.
Qed.

Lemma Revoke_other id other : id <> other -> relates db_tables (keys_evolve_but other) (APIKeyRepo_Revoke id).
Proof.
  intros Hne s. split; [apply Revoke_evolve|]. intros k Hk Hr.
  unfold APIKeyRepo_Revoke, update_stmt. destruct (exec _ _ s) as [r s'] eqn:E. simpl.
  apply exec_cases in E as [ [_ ->]|(r' & t' & E & -> & _)]; [by eauto|].
  destruct (live_key id (db_tables s)); injection E as _ <-; simpl; [rewrite lookup_insert_ne by done|]; eauto.
Qed.

Lemma Create_evolve key other : relates db_tables (keys_evolve_but other) (APIKeyRepo_Create key).
Proof.
  related relates_write. intros now t a t'. destruct (violation _) eqn:Ev; [done|].
  apply violation_None in Ev. rewrite !Forall_cons in Ev. simpl in Ev. rewrite !bool_decide_eq_true in Ev.
  destruct Ev as (Hnew & Hun & _). rewrite rows_nil in Hun. intros [= <- <-].
  assert (Hkeep : forall i k, tb_keys t !! i = Some k -> <[key_ID key := key_row now key]> (tb_keys t) !! i = Some k).
  { intros i k Hi. rewrite lookup_insert_ne; [done|]. intros <-. by rewrite Hnew in Hi. }
  split; [split|]; simpl.
  - intros [Hi Hh]. split; simpl.
    + intros i x. rewrite lookup_insert_Some. intros [ [<- <-]|[_ ?] ]; [done|eauto].
    + intros i j ki kj. rewrite !lookup_insert_Some. intros [ [<- <-]|[_ Hki] ] [ [<- <-]|[_ Hkj] ] E; [done|..|eauto].
      * specialize (Hun _ _ Hkj). apply bool_decide_eq_false in Hun. by rewrite <- E in Hun.
      * specialize (Hun _ _ Hki). apply bool_decide_eq_false in Hun. by rewrite E in Hun.
  - intros i k Hk. exists k. split; [by apply Hkeep|done].
  - intros k Hk Hr. exists k. split; [by apply Hkeep|done].
Qed.
End Repo.

(** ** The operations on keys *)

Lemma hex_digit_inj m n : (m < 16)%nat -> (n < 16)%nat -> hex_digit m = hex_digit n -> m = n.
Proof. intros Hm Hn. do 16 (destruct m as [|m]; [do 16 (destruct n as [|n]; [done|]); lia|]). lia. Qed.

Lemma String_inv c d a b : String c a = String d b -> c = d /\ a = b.
Proof. by intros [= -> ->]. Qed.

Lemma HexEncode_inj a b : HexEncode a = HexEncode b -> a = b.
Proof.
  revert b. induction a as [|c a IH]; intros [|d b]; try done. cbn [HexEncode].
  intros [E1 [E2 E3]%String_inv]%String_inv.
  f_equal; [|by apply IH].
  pose proof (nat_ascii_bounded c) as Hc. pose proof (nat_ascii_bounded d) as Hd.
  apply hex_digit_inj in E1; [|apply Nat.Div0.div_lt_upper_bound; lia..].
  apply hex_digit_inj in E2; [|apply Nat.mod_upper_bound; lia..].
  rewrite <- (ascii_nat_embedding c), <- (ascii_nat_embedding d). f_equal.
  rewrite (Nat.div_mod_eq (nat_of_ascii c) 16), (Nat.div_mod_eq (nat_of_ascii d) 16). congruence.
Qed.

Inductive key_op :=
| OpGenerate (workspaceID : uuid) (environment : Environment) (name : string) (createdBy : uuid)
| OpRevoke (workspaceID keyID : uuid)
| OpValidate (rawKey : string)
| OpTouch (keyID : uuid)
| OpList (workspaceID : uuid) (opts : ListOptions).

Section Life.
Context `{GoStd} `{Codec} `{Sha256} (pepper : string).
#[local] Abbreviation svc := (mkAPIKeyService APIKeyRepo pepper db_runtime rand_Read).

Definition exec_op (op : key_op) : M Dir unit :=
  match op with
  | OpGenerate ws env name by_ => let! _ := APIKey_Generate svc ws env name by_ in ret tt
  | OpRevoke ws id => APIKey_Revoke svc ws id
  | OpValidate raw => let! _ := APIKey_Validate svc raw in ret tt
  | OpTouch id => background APIKeyRepo id
  | OpList ws opts => let! _ := APIKey_ListByWorkspace svc ws opts in ret tt
  end.

Definition run_ops (ops : list key_op) (s : Dir) : Dir := fold_left (fun s op => (exec_op op s).2) ops s.

(** Some operation of the run revoked the key [id], and said so. *)
Definition revoked_during (id : uuid) (ops : list key_op) (s : Dir) : Prop :=
  exists before ws after, ops = before ++ OpRevoke ws id :: after /\
    is_ok (exec_op (OpRevoke ws id) (run_ops before s)).1 = true.

(** No key of the table has the plain hash of [token]. *)
Definition plain_free (token : string) (t : Tables) : Prop :=
  forall id k, tb_keys t !! id = Some k -> key_KeyHash k <> HashKeyPlain token.

(** Every key has the hash of a key there was, or the keyed hash of a full key. *)
Definition hashes_from (t t' : Tables) : Prop :=
  forall id k', tb_keys t' !! id = Some k' ->
    (exists k, tb_keys t !! id = Some k /\ key_KeyHash k = key_KeyHash k') \/
    exists fullKey, key_KeyHash k' = HashKeyHMAC fullKey pepper.

#[local] Instance hashes_from_preorder : PreOrder hashes_from.
Proof.
  split; [intros t id k Hk; left; by exists k|]. intros t1 t2 t3 H12 H23 id k3 Hk3.
  destruct (H23 _ _ Hk3) as [(k2 & Hk2 & <-)|?]; [by apply H12|by right].
Qed.

(** A live key whose keyed hash is the plain hash of the token: a full key whose
    HMAC under the pepper is the SHA-256 of another string. *)
Definition collides (token : string) (t : Tables) : Prop :=
  exists id k fullKey, tb_keys t !! id = Some k /\ key_live k = true /\
    key_KeyHash k = HashKeyHMAC fullKey pepper /\ HashKeyHMAC fullKey pepper = HashKeyPlain token.

Lemma GetByHash_frame x : preserves db_tables (GetByHash x).
Proof. apply query_frame. Qed.
Lemma Key_GetByID_frame x : preserves db_tables (APIKeyRepo_GetByID x).
Proof. apply query_frame. Qed.
Lemma Key_List_frame ws opts : preserves db_tables (APIKeyRepo_ListByWorkspace ws opts).
Proof. unfold APIKeyRepo_ListByWorkspace. preserves_tac. Qed.
#[local] Hint Resolve GetByHash_frame Key_GetByID_frame Key_List_frame : senda.

(** What every operation does, from what the statements do. *)
Lemma exec_op_relates (R : Tables -> Tables -> Prop) `{!PreOrder R} op :
  (forall key fullKey, key_KeyHash key = HashKeyHMAC fullKey pepper -> relates db_tables R (APIKeyRepo_Create key)) ->
  (forall id, relates db_tables R (TouchLastUsed id)) ->
  (forall ws id, op = OpRevoke ws id -> relates db_tables R (APIKeyRepo_Revoke id)) ->
  relates db_tables R (exec_op op).
Proof.
  intros Hcreate Htouch Hrevoke. destruct op as [ws env name by_|ws id|raw|id|ws opts]; simpl exec_op.
  - unfold APIKey_Generate, generateKey. simpl. relates_tac; by eapply Hcreate.
  - unfold APIKey_Revoke. simpl. relates_tac; by eapply Hrevoke.
  - unfold APIKey_Validate. simpl. relates_tac.
  - unfold background. simpl. relates_tac.
  - unfold APIKey_ListByWorkspace. simpl. relates_tac.
Qed.

Lemma exec_op_evolve op : relates db_tables keys_evolve (exec_op op).
Proof.
  apply exec_op_relates; [apply _|..].
  - intros key fullKey _ s. apply (Create_evolve key 0%N s).
  - intros id s. apply (TouchLastUsed_evolve id 0%N s).
  - intros ws id _. apply Revoke_evolve.
Qed.

Lemma exec_op_other id op : (forall ws, op <> OpRevoke ws id) -> relates db_tables (keys_evolve_but id) (exec_op op).
Proof.
  intros Hne. apply exec_op_relates; [apply _|..].
  - intros. apply Create_evolve.
  - intros. apply TouchLastUsed_evolve.
  - intros ws i ->. apply Revoke_other. intros ->. by eapply Hne.
Qed.

Lemma hashes_insert t id k k' : tb_keys t !! id = Some k -> key_KeyHash k' = key_KeyHash k -> hashes_from t (set_keys <[id := k']> t).
Proof.
  intros Hk Eh i x. simpl. rewrite lookup_insert_Some. intros [ [<- <-]|[_ ?] ]; left; by eexists.
Qed.

Lemma exec_op_hashes op : relates db_tables hashes_from (exec_op op).
Proof.
  apply exec_op_relates; [apply _|..].
  - intros key fullKey Hh. related relates_write. intros now t a t'. destruct (violation _); [done|].
    intros [= <- <-] id k. simpl. rewrite lookup_insert_Some. intros [ [_ <-]|[_ ?] ]; [right; by exists fullKey|left; by exists k].
  - intros id. related relates_exec. intros now t. simpl. destruct (tb_keys t !! id) as [k|] eqn:Ek; [|done].
    by eapply hashes_insert.
  - intros ws id _. related relates_update. intros now k t E. unfold live_key in E.
    destruct (tb_keys t !! id) as [k0|] eqn:Ek; [|done]. destruct (key_live k0); simplify_eq. by eapply hashes_insert.
Qed.

Lemma run_ops_relates (R : Tables -> Tables -> Prop) `{!PreOrder R} ops s :
  (forall op, op ∈ ops -> relates db_tables R (exec_op op)) -> R (db_tables s) (db_tables (run_ops ops s)).
Proof.
  revert s. induction ops as [|op ops IH]; intros s Hops; simpl; [done|].
  etrans; [apply (Hops op ltac:(left) s)|]. apply IH. intros op' Hop. apply Hops. by right.
Qed.

(** ** Authentication with a key *)

(** The live keys with a hash: the one row there is. *)
Lemma scan_hash t id k : keys_ok t -> tb_keys t !! id = Some k ->
  scan_key (rows (fun x => bool_decide (key_KeyHash x = key_KeyHash k) && key_live x) (tb_keys t))
  = if key_live k then Ok k else Err (NotFound "api key not found").
Proof.
  intros Hok Hk. set (p := fun x => _).
  assert (Hp : forall x, x ∈ rows p (tb_keys t) -> x = k /\ key_live k = true).
  { intros x [ [i Hx] Hpx]%elem_of_rows. apply andb_true_iff in Hpx as [Hh Hl]. apply bool_decide_eq_true in Hh.
    pose proof (key_hash _ Hok _ _ _ _ Hx Hk Hh) as ->. by simplify_eq. }
  destruct (rows p (tb_keys t)) as [|x l] eqn:E; simpl.
  - destruct (key_live k) eqn:El; [|done]. exfalso. apply (not_elem_of_nil k). rewrite <- E. apply elem_of_rows.
    split; [by exists id|]. unfold p. by rewrite bool_decide_eq_true_2.
  - destruct (Hp x ltac:(left)) as [-> ->]. done.
Qed.

(** A key found by its plain hash is a row of the table. *)
Lemma scan_plain token t k :
  scan_key (rows (fun x => bool_decide (key_KeyHash x = HashKeyPlain token) && key_live x) (tb_keys t)) = Ok k ->
  exists id, tb_keys t !! id = Some k /\ key_KeyHash k = HashKeyPlain token /\ key_live k = true.
Proof.
  destruct (rows _ _) as [|x l] eqn:E; simpl; [done|]. intros [= <-].
  assert (Hx : x ∈ x :: l) by left. rewrite <- E in Hx.
  apply elem_of_rows in Hx as [ [id Hid] [Hh Hl]%andb_true_iff]. apply bool_decide_eq_true in Hh. by exists id.
Qed.

Lemma find_key_live token s id k :
  db_faults s = [] -> keys_ok (db_tables s) ->
  tb_keys (db_tables s) !! id = Some k -> key_KeyHash k = HashKeyHMAC token pepper -> key_live k = true ->
  find_key APIKeyRepo pepper token s = (Ok k, s).
Proof.
  intros Hf Hok Hk Hh Hl. unfold find_key, try. simpl. unfold GetByHash.
  by rewrite query_calm, <- Hh, (scan_hash _ _ _ Hok Hk), Hl by done.
Qed.

Lemma find_key_dead token s id k :
  db_faults s = [] -> keys_ok (db_tables s) ->
  tb_keys (db_tables s) !! id = Some k -> key_KeyHash k = HashKeyHMAC token pepper -> key_live k = false ->
  (exists e, find_key APIKeyRepo pepper token s = (Err e, s)) \/
  exists i k', tb_keys (db_tables s) !! i = Some k' /\ key_KeyHash k' = HashKeyPlain token /\ key_live k' = true.
Proof.
  intros Hf Hok Hk Hh Hl. unfold find_key, try. simpl. unfold GetByHash.
  rewrite query_calm, <- Hh, (scan_hash _ _ _ Hok Hk), Hl by done. rewrite query_calm by done.
  destruct (scan_key _) as [k'|e] eqn:E; [right|left; by exists e]. apply scan_plain in E as (i & ?). by exists i, k'.
Qed.

Context (memberStore : MemberStore.t Dir) (oidcVerifier : string -> M Dir OIDCClaims).
#[local] Abbreviation auth := (Auth APIKeyRepo memberStore oidcVerifier pepper).

(** The request [c] once [Auth] has recognised the key [k]. *)
Definition as_key (k : APIKey) (env : Environment) (c : Conn) : Conn :=
  set_values (fun v => set_environment (Some env) (set_identity "apikey" (v_member v) (v_roles v) (Some (key_WorkspaceID k)) v))
    (set_touched (fun l => l ++ [key_ID k]) c).

Lemma token_environment env x : Environment_Valid env = true -> apiKeyEnvironment (APIKeyTokenPrefix env +:+ x) = Some env.
Proof.
  unfold Environment_Valid. rewrite orb_true_iff, !bool_decide_eq_true. unfold apiKeyEnvironment, Environments.
  intros [->| ->]; simpl; by destruct x.
Qed.

(** What [Auth] does with a token of an environment is what [authenticateAPIKey] does. *)
Lemma Auth_key env x s c next :
  let token := APIKeyTokenPrefix env +:+ x in
  Environment_Valid env = true -> Header "Authorization" c = "Bearer " +:+ token ->
  auth next (s, c) = authenticateAPIKey APIKeyRepo pepper token env next (s, c).
Proof.
  intros token Henv Hh. unfold Auth, bind at 1.
  change (conn (s, c)) with (@Ok Conn c, (s, c)). cbv beta iota zeta. rewrite Hh, bool_decide_eq_false_2 by done. rewrite HasPrefix_app, TrimPrefix_app. cbn [negb].
  rewrite bool_decide_eq_false_2 by (unfold token; by destruct env).
  unfold token at 1. by rewrite token_environment by done.
Qed.

Lemma authenticate_key token env s c next :
  authenticateAPIKey APIKeyRepo pepper token env next (s, c) =
  match find_key APIKeyRepo pepper token s with
  | (Err _, s') => Unauthorized "invalid API key" (s', c)
  | (Ok k, s') => if bool_decide (key_RevokedAt k = None) then next (s', as_key k env c) else Unauthorized "API key revoked" (s', c)
  end.
Proof. unfold authenticateAPIKey, try, up. destruct (find_key _ _ _ _) as [ [k|e] s']; [|done]. by case_bool_decide. Qed.

(** ** Generation and revocation *)

Definition effective_environment (env : Environment) : Environment :=
  if Environment_Valid env then env else EnvironmentProd.

Lemma effective_valid env : Environment_Valid (effective_environment env) = true.
Proof. unfold effective_environment. by destruct (Environment_Valid env) eqn:E. Qed.

Lemma Generate_row ws env name by_ s0 token key s1 :
  APIKey_Generate svc ws env name by_ s0 = (Ok (token, key), s1) ->
  (exists x, token = APIKeyTokenPrefix (effective_environment env) +:+ x) /\
  tb_keys (db_tables s1) !! key_ID key = Some key /\ key_KeyHash key = HashKeyHMAC token pepper /\
  key_WorkspaceID key = ws /\ key_live key = true.
Proof.
  unfold APIKey_Generate, generateKey, bind. simpl.
  destruct (rand_Read s0) as [[b|e] s2]; [|done]. cbn.
  match goal with |- context [APIKeyRepo_Create ?k ?w] => destruct (APIKeyRepo_Create k w) as [[k'|e] s3] eqn:E end; [|done].
  intros [= <- <- <-]. apply exec_Ok in E. destruct (violation _); [done|]. injection E as <- <-.
  split_and!; simpl; try done; [by eexists|]. by rewrite lookup_insert_eq.
Qed.

Lemma revoked_row id ops s k : revoked_during id ops s -> tb_keys (db_tables s) !! id = Some k ->
  exists k', tb_keys (db_tables (run_ops ops s)) !! id = Some k' /\ later k k' /\ key_live k' = false.
Proof.
  intros (before & ws & after & -> & Hrev) Hk. unfold run_ops in *. rewrite fold_left_app. simpl.
  set (s1 := fold_left _ before s) in *.
  assert (Hev1 : keys_evolve (db_tables s) (db_tables s1)).
  { apply (run_ops_relates keys_evolve). intros op _. apply exec_op_evolve. }
  destruct (proj2 Hev1 _ _ Hk) as (k1 & Hk1 & L1).
  change (exec_op (OpRevoke ws id) s1) with (APIKey_Revoke svc ws id s1) in Hrev.
  destruct (APIKey_Revoke svc ws id s1) as [ [u|e] s2] eqn:Er; [|done]. cbn [snd].
  assert (exists k2, tb_keys (db_tables s2) !! id = Some k2 /\ later k1 k2 /\ key_live k2 = false) as (k2 & Hk2 & L2 & Hd).
  { unfold APIKey_Revoke, bind in Er. simpl in Er.
    pose proof (Key_GetByID_frame id s1) as Hf. destruct (APIKeyRepo_GetByID id s1) as [[key|e] s1'] eqn:Eg; [|done].
    simpl in Hf. destruct (negb _); [done|]. apply exec_Ok in Er. rewrite Hf in Er. unfold live_key in Er. rewrite Hk1 in Er.
    destruct (key_live k1) eqn:El; [|done]. injection Er as _ <-. simpl. eexists. rewrite lookup_insert_eq.
    split; [done|]. split; [|done]. apply bool_decide_eq_true in El. by split_and!. }
  assert (Hev3 : keys_evolve (db_tables s2) (db_tables (run_ops after s2))).
  { apply run_ops_relates; [apply _|]. intros op _. apply exec_op_evolve. }
  destruct (proj2 Hev3 _ _ Hk2) as (k3 & Hk3 & L3). exists k3. split; [exact Hk3|].
  split; [by do 2 (etrans; [done|])|]. destruct L3 as (_ & _ & Hr). unfold key_live in *.
  rewrite bool_decide_eq_false in Hd |- *. by rewrite Hr.
Qed.

(** C10: A generated API key authenticates until it is revoked, and never again.
    After any sequence of operations on the keys - generating and revoking
    others, recording uses, validating, listing, with any failures - a request
    that bears the key is passed on as its workspace and environment when
    nothing tried to revoke it, and is answered 401 without reaching the handler
    when some revocation of it reported success - unless the table holds a
    collision of the two hashes, a live key whose keyed hash is the plain hash
    of the token. No key hashed without the pepper, from before it was
    introduced, may hold the token. *)
Theorem api_key_life ws env name by_ s0 token key s1 ops c next :
  keys_ok (db_tables s0) -> plain_free token (db_tables s0) ->
  APIKey_Generate svc ws env name by_ s0 = (Ok (token, key), s1) ->
  Header "Authorization" c = "Bearer " +:+ token ->
  let s2 := run_ops ops s1 in
  db_faults s2 = [] ->
  ((forall wid, OpRevoke wid (key_ID key) ∉ ops) ->
     exists k, key_ID k = key_ID key /\ key_WorkspaceID k = ws /\
       auth next (s2, c) = next (s2, as_key k (effective_environment env) c)) /\
  (revoked_during (key_ID key) ops s1 ->
     auth next (s2, c) = Unauthorized "invalid API key" (s2, c) \/ collides token (db_tables s2)).
Proof.
  intros Hok0 Hplain Hgen Hc s2 Hf.
  assert (Hrun : run_ops (OpGenerate ws env name by_ :: ops) s0 = s2).
  { unfold s2, run_ops. simpl. unfold bind. by rewrite Hgen. }
  destruct (Generate_row _ _ _ _ _ _ _ _ Hgen) as ([x ->] & Hk & Hh & Hws & Hl).
  assert (Hok2 : keys_ok (db_tables s2)).
  { rewrite <- Hrun. apply (run_ops_relates keys_evolve); [|done]. intros op _. apply exec_op_evolve. }
  assert (Hfrom : hashes_from (db_tables s0) (db_tables s2)).
  { rewrite <- Hrun. apply run_ops_relates; [apply _|]. intros op _. apply exec_op_hashes. }
  assert (Hev : keys_evolve (db_tables s1) (db_tables s2)).
  { apply (run_ops_relates keys_evolve). intros op _. apply exec_op_evolve. }
  rewrite (Auth_key (effective_environment env) x), authenticate_key by (try apply effective_valid; done). split.
  - intros Hno. assert (Hb : keys_evolve_but (key_ID key) (db_tables s1) (db_tables s2)).
    { apply run_ops_relates; [apply _|]. intros op Hop. apply exec_op_other. intros wid ->. by eapply Hno. }
    apply bool_decide_eq_true in Hl. destruct (proj2 Hb _ Hk Hl) as (k & Hk2 & Hr).
    destruct (proj2 Hev _ _ Hk) as (k' & Hk2' & Eh & Ews & _). simplify_eq.
    exists k. split; [by apply (key_id _ Hok2)|]. split; [done|].
    rewrite (find_key_live _ _ _ k Hf Hok2 Hk2 (eq_trans Eh Hh) (bool_decide_eq_true_2 _ Hr)). by rewrite bool_decide_eq_true_2.
  - intros Hrev. destruct (revoked_row _ _ _ _ Hrev Hk) as (k & Hk2 & (Eh & _) & Hd).
    destruct (find_key_dead _ s2 _ k Hf Hok2 Hk2 (eq_trans Eh Hh) Hd) as [ [e ->]|(i & k' & Hi & Hp & Hlive)]; [by left|right].
    destruct (Hfrom _ _ Hi) as [(k0 & Hk0 & E)|[fullKey E] ]; [by destruct (Hplain _ _ Hk0); rewrite E|].
    exists i, k', fullKey. split_and!; [done..|congruence].
Qed.
End Life.
