(* ===== verification/Listings.v ===== *)
(** * The listings of the directory

    A client that follows the cursors of a listing - members, the members of a
    scope, tenants, API keys - gets every row once, newest first, and stops. *)
From stdpp Require Import base gmap strings list sorting.
From Stdlib Require Import ZArith NArith Ascii String Lia.
From S2P Require Import Prelude GoMonad Domain Ports Token.
From S2P Require Import Suppression Postgres Database Directory Roles Keys.

(** The rows of a table: keyed by their identifiers, which have 16 bytes. *)
Definition table_ok {A} (key : A -> uuid) (m : gmap uuid A) : Prop :=
  forall id a, m !! id = Some a -> key a = id /\ wf_uuid id.

Section Listings.
Context `{GoStd} `{Codec} `{!CodecLaws}.

Lemma table_rows {A} (key : A -> uuid) p (m : gmap uuid A) : table_ok key m ->
  NoDup (key <$> rows p m) /\ Forall (fun a => wf_uuid (key a)) (rows p m).
Proof.
  intros Hok. split; [apply rows_distinct; intros id a Ha; by apply Hok|].
  apply Forall_forall. intros a [ [id Ha] _]%elem_of_rows. destruct (Hok _ _ Ha) as [-> ?]. done.
Qed.

(** A listing that shows something of the rows it selects from a table. *)
Lemma listing_complete {A B} (key : A -> uuid) (key' : B -> uuid) (show : A -> B) (m : gmap uuid A) (p : A -> bool)
    (list_page : ListOptions -> M Dir (list B * string)) limit search s :
  table_ok key m -> (forall a, key' (show a) = key a) ->
  (forall opts lim afterID, lo_Search opts = search -> ApplyPagination opts = Ok (lim, afterID) ->
     list_page opts s = (Ok (page key' (show <$> rows p m) lim afterID), s)) ->
  follow list_page (S (List.length (rows p m))) (mkListOptions "" limit search) s
  = (Ok (newest_first key' (show <$> rows p m)), s).
Proof.
  intros Hok Hkey Hpage. destruct (table_rows key p m Hok) as [Hn Hf].
  assert (Ek : key' <$> (show <$> rows p m) = key <$> rows p m).
  { rewrite <- list_fmap_compose. apply list_fmap_ext. intros i a _. apply Hkey. }
  rewrite <- (length_fmap show).
  destruct (follow_all key' list_page (fun s' => s' = s) (show <$> rows p m) limit search s) as (s' & E & ->); [| | |done|done].
  - intros opts w lim afterID -> Hs Ha. exists s. split; [by apply Hpage|done].
  - by rewrite Ek.
  - apply Forall_fmap. eapply Forall_impl; [exact Hf|]. intros a Ha. simpl. by rewrite Hkey.
Qed.

Lemma listing_plain {A} (key : A -> uuid) (m : gmap uuid A) (p : A -> bool)
    (list_page : ListOptions -> M Dir (list A * string)) limit search s :
  table_ok key m ->
  (forall opts lim afterID, lo_Search opts = search -> ApplyPagination opts = Ok (lim, afterID) ->
     list_page opts s = (Ok (page key (rows p m) lim afterID), s)) ->
  follow list_page (S (List.length (rows p m))) (mkListOptions "" limit search) s = (Ok (newest_first key (rows p m)), s).
Proof.
  intros Hok Hp. rewrite <- (list_fmap_id (rows p m)) at 2. apply (listing_complete key); [done..|].
  intros opts lim afterID Hs Ha. rewrite list_fmap_id. by apply Hp.
Qed.

(** [ListByWorkspace] as a listing: the cursor of the page result. *)
Definition list_keys (workspaceID : uuid) (opts : ListOptions) : M Dir (list APIKey * string) :=
  let! r := APIKeyRepo_ListByWorkspace workspaceID opts in ret (pr_Items _ r, pr_NextCursor _ r).

(** C35: A client that follows the cursors of a listing - of all members, of the
    members of a tenant or workspace, of the tenants that match a search, of the
    API keys of a workspace - gets every row exactly once, newest first, and
    stops after at most one call more than there are rows, whatever limit it
    asks for; a listed key has no hash. *)
Theorem listings_complete ilike st scope_id ws limit search s :
  db_faults s = [] -> table_ok mem_ID (tb_members (db_tables s)) -> table_ok ten_ID (tb_tenants (db_tables s)) ->
  table_ok key_ID (tb_keys (db_tables s)) -> st ∈ [ScopeTenant; ScopeWorkspace] ->
  let t := db_tables s in
  let in_sc m := bool_decide (rows (fun r => bool_decide (mr_MemberID r = mem_ID m) && in_scope st (Some scope_id) r) (tb_roles t) <> []) in
  let found r := tenant_live r && (bool_decide (search = "") || ilike search (ten_Name r) || ilike search (ten_Code r)) in
  let of_ws k := bool_decide (key_WorkspaceID k = ws) in
  let all {A} (list_page : ListOptions -> M Dir (list A * string)) (l : list A) n :=
    follow list_page (S n) (mkListOptions "" limit search) s = (Ok l, s) in
  all ListAll (newest_first mem_ID (rows (fun _ => true) (tb_members t))) (List.length (rows (fun _ => true) (tb_members t))) /\
  all (ListInScope st (Some scope_id)) (newest_first mem_ID (rows in_sc (tb_members t))) (List.length (rows in_sc (tb_members t))) /\
  all (TenantRepo_List ilike) (newest_first ten_ID (rows found (tb_tenants t))) (List.length (rows found (tb_tenants t))) /\
  all (list_keys ws) (newest_first key_ID (without_hash <$> rows of_ws (tb_keys t))) (List.length (rows of_ws (tb_keys t))).
Proof.
  intros Hf Hm Ht Hk Hst t in_sc found of_ws all. unfold all. split_and!.
  - apply listing_plain; [done|]. intros opts lim afterID _ Ha. unfold ListAll. by rewrite Ha, query_calm.
  - apply listing_plain; [done|]. intros opts lim afterID _ Ha. unfold ListInScope. rewrite Ha.
    assert (negb (bool_decide (st = ScopeTenant)) && negb (bool_decide (st = ScopeWorkspace)) = false) as ->
      by (repeat (apply elem_of_cons in Hst as [->|Hst]; [done|]); by apply not_elem_of_nil in Hst).
    by rewrite bool_decide_eq_false_2, query_calm.
  - apply listing_plain; [done|]. intros opts lim afterID Hs Ha. unfold TenantRepo_List. rewrite Ha, query_calm by done.
    by rewrite Hs.
  - apply (listing_complete key_ID); [done..|]. intros opts lim afterID _ Ha.
    unfold list_keys, APIKeyRepo_ListByWorkspace. rewrite Ha. unfold bind. rewrite query_calm by done.
    fold t of_ws. by destruct (page _ _ _ _) as [items cur].
Qed.
End Listings.
