(* ===== verification/ControlRuns.v ===== *)
(** * Runs of the control plane

    A small directory - one tenant, its admin and another member - and the
    theorems of the control plane at concrete requests. *)
From stdpp Require Import base gmap strings list sorting.
From Stdlib Require Import ZArith NArith Ascii String Lia.
From S2P Require Import Prelude GoMonad Domain Ports Token Config Http.
From S2P Require Import Suppression Postgres Database Directory Auth Members Roles Gates Surface Authority Keys Listings.

#[local] Instance run_std : GoStd := ascii_std.
#[local] Instance run_codec : Codec := sample_codec.
#[local] Instance run_sha : Sha256 := {| sha256 := fun m => "s" +:+ m |}.
#[local] Instance run_parsers : Parsers := {|
  uuid_Parse := fun s => match Atoi s with Some n => Ok (Z.to_N n) | None => Err (EMsg "invalid UUID") end;
  ParseAddress := fun s => Ok s;
|}.
#[local] Instance run_bind_member : Binder CreateMemberRequest :=
  {| Bind := fun c => Ok (mkCreateMember (cn_RawBody c) None (Some "tenant_admin")) |}.
#[local] Instance run_bind_role : Binder roleAssignmentRequest :=
  {| Bind := fun c => Ok (mkRoleAssignment (cn_RawBody c) "" None None) |}.

Definition acme : Tenant := {| ten_ID := 1; ten_Code := "acme"; ten_Name := "Acme"; ten_IsActive := true;
  ten_CreatedAt := 0; ten_UpdatedAt := 0; ten_DeletedAt := None |}.
Definition admin : Member := mkMember 2 "admin@x.io" None (Some "adm") (Some "idp") 0 0.
Definition guest : Member := mkMember 3 "guest@x.io" None None None 0 0.
Definition tenant_role (id member : uuid) : MemberRole :=
  mkMemberRole id member RoleTenantAdmin ScopeTenant (Some 1%N) None 0 None.

Definition small_tables : Tables := {|
  tb_tenants := {[1%N := acme]}; tb_workspaces := ∅; tb_signing := ∅;
  tb_members := {[2%N := admin; 3%N := guest]};
  tb_roles := {[10%N := tenant_role 10 2; 11%N := tenant_role 11 3]};
  tb_keys := ∅ |}.
Definition small_db : Dir := mkDB small_tables 100 50 ["0123456789abcdef"] [].

Definition idp (token : string) : M Dir OIDCClaims :=
  if bool_decide (token = "jwt") then ret (mkClaims "adm" "admin@x.io" "idp") else fail (EMsg "invalid signature").

Lemma idp_frame token : preserves db_tables (idp token).
Proof. unfold idp. by case_bool_decide. Qed.

Definition request (meth : string) (params : list (string * string)) (bearer body : string) : Conn :=
  mkConn meth "" params {["Authorization" := ["Bearer " +:+ bearer]]} ∅ body no_values [] [] None true [].

Lemma small_ok : roles_ok small_tables.
Proof.
  assert (Hrow : forall id r, tb_roles small_tables !! id = Some r -> r = tenant_role 10 2 /\ id = 10%N \/ r = tenant_role 11 3 /\ id = 11%N).
  { intros id r. simpl. rewrite lookup_insert_Some, lookup_singleton_Some. naive_solver. }
  split.
  - intros id r [ [-> ->]|[-> ->] ]%Hrow; done.
  - intros id r [ [-> ->]|[-> ->] ]%Hrow; done.
  - intros i j ri rj [ [-> ->]|[-> ->] ]%Hrow [ [-> ->]|[-> ->] ]%Hrow; done.
  - intros id r [ [-> ->]|[-> ->] ]%Hrow; by eexists.
  - intros id r tid [ [-> ->]|[-> ->] ]%Hrow [= <-]; by eexists.
  - intros id r wid [ [-> ->]|[-> ->] ]%Hrow; done.
Qed.

(** The admin revokes the other member's access to the tenant. *)
Definition revoke_route : Route Dir :=
  mkRoute "DELETE" "/tenants/:tenant_code/members/:member_id/access" RoleTenantAdmin
    (Members_RemoveAccessTenant (memberHandler (fun _ _ => true))).
Definition revoke_request : Conn := request "DELETE" [("tenant_code", "acme"); ("member_id", "3")] "jwt" "".

Lemma revoke_listed : revoke_route ∈ member_routes (fun _ _ => true).
Proof. apply (list_elem_of_lookup_2 _ 10). reflexivity. Qed.

Lemma no_escalation_witness :
  let run := handle (fun _ _ => true) idp "pepper" revoke_route (small_db, revoke_request) in
  tb_roles (db_tables run.2.1) !! 11%N <> tb_roles small_tables !! 11%N /\
  exists m a, caller idp revoke_request small_tables m /\ a ∈ roles_of (mem_ID m) small_tables /\
    forall row, tb_roles small_tables !! 11%N = Some row \/ tb_roles (db_tables run.2.1) !! 11%N = Some row ->
      commands small_tables a row /\ (Role_Level (mr_Role row) <= Role_Level (mr_Role a))%Z.
Proof.
  intros run. assert (Hne : tb_roles (db_tables run.2.1) !! 11%N <> tb_roles small_tables !! 11%N) by (vm_compute; discriminate).
  split; [exact Hne|].
  exact (no_escalation (fun _ _ => true) idp "pepper" idp_frame revoke_route small_db revoke_request run.1 run.2 11%N
           small_ok eq_refl revoke_listed (surjective_pairing run) Hne).
Defined.

(** The table that request leaves. *)
Lemma member_routes_well_typed_witness :
  let run := handle (fun _ _ => true) idp "pepper" revoke_route (small_db, revoke_request) in
  rows (fun _ => true) (tb_roles (db_tables run.2.1)) = [tenant_role 10 2] /\ roles_ok (db_tables run.2.1).
Proof.
  intros run. split; [vm_compute; reflexivity|].
  exact (member_routes_well_typed (fun _ _ => true) idp "pepper" idp_frame revoke_route small_db revoke_request run.1 run.2
           small_ok eq_refl revoke_listed (surjective_pairing run)).
Defined.

(** A viewer of a workspace becomes its editor. *)
Definition shop : Workspace := {|
  ws_ID := 5; ws_LogicalWorkspaceID := 5; ws_TenantID := 1; ws_Code := "shop"; ws_Name := "Shop";
  ws_Environment := EnvironmentProd; ws_IsSystem := false; ws_IsActive := true; ws_OpenTrackingEnabled := false;
  ws_DefaultLocale := None; ws_TestRecipientMode := TestRecipientModeReplace; ws_TestRecipientAddresses := [];
  ws_AllowWorkspaceLocalTemplates := true; ws_AllowWorkspaceInheritedTemplateForks := true;
  ws_AllowWorkspaceLocalInjectors := true; ws_WorkspacePoliciesInitialized := true;
  ws_CreatedAt := 0; ws_UpdatedAt := 0; ws_DeletedAt := None |}.
Definition shop_role (id : uuid) (role : Role) : MemberRole :=
  mkMemberRole id 3 role ScopeWorkspace (Some 1%N) (Some 5%N) 0 None.
Definition shop_db : Dir :=
  mkDB (set_roles (fun _ => {[12%N := shop_role 12 RoleWorkspaceViewer]}) (set_workspaces (fun _ => {[5%N := shop]}) small_tables)) 100 50 [] [].

Lemma shop_ok : roles_ok (db_tables shop_db).
Proof.
  assert (Hrow : forall id r, tb_roles (db_tables shop_db) !! id = Some r -> r = shop_role 12 RoleWorkspaceViewer /\ id = 12%N).
  { intros id r. simpl. rewrite lookup_singleton_Some. naive_solver. }
  split.
  - intros id r [-> ->]%Hrow; done.
  - intros id r [-> ->]%Hrow; done.
  - intros i j ri rj [-> ->]%Hrow [-> ->]%Hrow; done.
  - intros id r [-> ->]%Hrow; by eexists.
  - intros id r tid [-> ->]%Hrow [= <-]; by eexists.
  - intros id r wid [-> ->]%Hrow [= <-]; by eexists.
Qed.

Lemma ReplaceRoleInScope_exact_witness :
  let run := ReplaceRoleInScope (shop_role 20 RoleWorkspaceEditor) shop_db in
  exists r, run.1 = Ok r /\ mr_ID r = 12%N /\ mr_Role r = RoleWorkspaceEditor /\
    rows (selected (shop_role 20 RoleWorkspaceEditor)) (tb_roles (db_tables run.2)) = [r].
Proof.
  intros run. assert (E : run = (Ok (shop_role 12 RoleWorkspaceEditor), run.2)) by (vm_compute; reflexivity).
  exists (shop_role 12 RoleWorkspaceEditor).
  destruct (ReplaceRoleInScope_exact (shop_role 20 RoleWorkspaceEditor) shop_db (shop_role 12 RoleWorkspaceEditor) run.2 shop_ok E) as (Hr & Hrows & _).
  split; [by rewrite E|]. split; [done|]. split; [exact Hr|exact Hrows].
Defined.

(** A key of the workspace: generated, used, and - in the second run - revoked. *)
Definition key_db : Dir := mkDB (db_tables shop_db) 100 50 ["0123456789abcdef"] [].
Definition run_token : string := "senda_test_" +:+ HexEncode "0123456789abcdef".
Definition run_key : APIKey := mkAPIKey 50 5 "ci" (HashKeyHMAC run_token "pepper") "senda_test" (suffix 8 run_token) 2 None None 101.
Definition key_request : Conn := request "POST" [] run_token "".
Definition answer_ok : HandlerFunc Dir := NoContent 204.

Lemma api_key_life_witness :
  let gen := APIKey_Generate (mkAPIKeyService APIKeyRepo "pepper" db_runtime rand_Read) 5 EnvironmentTest "ci" 2 key_db in
  let used := run_ops "pepper" [OpValidate run_token; OpTouch 50] gen.2 in
  let revoked := run_ops "pepper" [OpTouch 50; OpRevoke 5 50] gen.2 in
  let auth := Auth APIKeyRepo MemberRepo idp "pepper" answer_ok in
  (exists k, key_WorkspaceID k = 5%N /\ auth (used, key_request) = answer_ok (used, as_key k EnvironmentTest key_request)) /\
  auth (revoked, key_request) = Unauthorized "invalid API key" (revoked, key_request).
Proof.
  intros gen used revoked auth.
  assert (Eg : gen = (Ok (run_token, run_key), gen.2)) by (vm_compute; reflexivity).
  assert (Hok : keys_ok (db_tables key_db)) by by split.
  assert (Hpf : plain_free run_token (db_tables key_db)) by by intros id k.
  split.
  - destruct (api_key_life "pepper" MemberRepo idp 5 EnvironmentTest "ci" 2 key_db run_token run_key gen.2
                [OpValidate run_token; OpTouch 50] key_request answer_ok Hok Hpf Eg eq_refl) as [Hlive _].
    + vm_compute; reflexivity.
    + destruct Hlive as (k & _ & Hws & Ek); [set_solver|]. exists k. split; [exact Hws|exact Ek].
  - destruct (api_key_life "pepper" MemberRepo idp 5 EnvironmentTest "ci" 2 key_db run_token run_key gen.2
                [OpTouch 50; OpRevoke 5 50] key_request answer_ok Hok Hpf Eg eq_refl) as [_ Hdead].
    + vm_compute; reflexivity.
    + destruct Hdead as [Hd|(id & k & fullKey & _ & _ & _ & E)]; [|exact Hd|].
      * exists [OpTouch 50], 5%N, []. split; [reflexivity|vm_compute; reflexivity].
      * apply HexEncode_inj in E. discriminate E.
Defined.

Lemma small_members : table_ok mem_ID (tb_members small_tables).
Proof. intros id m. simpl. rewrite lookup_insert_Some, lookup_singleton_Some. by intros [ [<- <-]|[_ [<- <-] ] ]. Qed.

Lemma listings_complete_witness :
  let listed := follow ListAll 3 (mkListOptions "" 1 "") small_db in
  listed = (Ok [guest; admin], small_db) /\
  follow (ListInScope ScopeTenant (Some 1%N)) 3 (mkListOptions "" 1 "") small_db = (Ok [guest; admin], small_db).
Proof.
  intros listed.
  destruct (listings_complete (H1 := sample_codec_laws) (fun _ _ => true) ScopeTenant 1 5 1 "" small_db eq_refl small_members)
    as (Hall & Hscope & _).
  - intros id t. simpl. rewrite lookup_singleton_Some. by intros [<- <-].
  - by intros id k.
  - left.
  - split; [exact Hall|exact Hscope].
Defined.
