(* ===== verification/Inheritance.v ===== *)
(** * Inheritance and policies ([handler/scope_inheritance.go], [workspace_policy.go])

    A workspace sees what its tenant's system workspace of the same environment
    owns, under the policies of that workspace. The checks and the request
    helpers the management handlers share. *)
From stdpp Require Import base gmap strings list.
From Stdlib Require Import ZArith Ascii String Lia.
From S2P Require Import Prelude GoMonad Domain Ports Token Config Http Suppression Postgres Database Directory Auth Members.

(** ** Policies and inheritance *)

Record workspacePolicies := mkPolicies {
  AllowWorkspaceLocalTemplates : bool;
  AllowWorkspaceInheritedTemplateForks : bool;
  AllowWorkspaceLocalInjectors : bool;
}.

Definition defaultWorkspacePolicies : workspacePolicies := mkPolicies true true true.

Definition effectiveWorkspacePolicies (systemWorkspace : option Workspace) : workspacePolicies :=
  match systemWorkspace with
  | None => defaultWorkspacePolicies
  | Some w =>
      if negb (ws_WorkspacePoliciesInitialized w) then defaultWorkspacePolicies
      else mkPolicies (ws_AllowWorkspaceLocalTemplates w) (ws_AllowWorkspaceInheritedTemplateForks w)
             (ws_AllowWorkspaceLocalInjectors w)
  end.

Definition isOwnedByCurrentWorkspace (resource : option uuid) (current : Workspace) : bool :=
  bool_decide (resource = Some (ws_ID current)).

Definition templateVisibleInWorkspace (tpl : Template) (current : Workspace) (system : option Workspace) : bool :=
  if isOwnedByCurrentWorkspace (tpl_WorkspaceID tpl) current then true
  else match tpl_WorkspaceID tpl, system with
       | Some id, Some sys => bool_decide (id = ws_ID sys)
       | _, _ => false
       end.

Definition resourceOwnerScope (resource : option uuid) (current : Workspace) (system : option Workspace) : string :=
  match resource with
  | None => "global"
  | Some id =>
      if bool_decide (id = ws_ID current) then (if ws_IsSystem current then "system" else "local")
      else match system with
           | Some sys => if bool_decide (id = ws_ID sys) then "system" else "workspace"
           | None => "workspace"
           end
  end.

Definition inheritedFromSystem (resource : option uuid) (current : Workspace) (system : option Workspace) : bool :=
  match resource, system with
  | Some id, Some sys => negb (ws_IsSystem current) && bool_decide (id = ws_ID sys)
  | _, _ => false
  end.

Definition annotateTemplateScope (current : Workspace) (system : option Workspace) (t : Template) : Template :=
  {| tpl_ID := tpl_ID t; tpl_TemplateTypeID := tpl_TemplateTypeID t; tpl_WorkspaceID := tpl_WorkspaceID t;
     tpl_IsDisabled := tpl_IsDisabled t; tpl_IsFork := tpl_IsFork t; tpl_OriginTemplateID := tpl_OriginTemplateID t;
     tpl_OwnerScope := resourceOwnerScope (tpl_WorkspaceID t) current system;
     tpl_InheritedFromSystem := inheritedFromSystem (tpl_WorkspaceID t) current system;
     tpl_CreatedAt := tpl_CreatedAt t; tpl_UpdatedAt := tpl_UpdatedAt t; tpl_DeletedAt := tpl_DeletedAt t |}.

Definition annotateTemplateTypeScope (current : Workspace) (system : option Workspace) (ty : TemplateType) : TemplateType :=
  {| tt_ID := tt_ID ty; tt_WorkspaceID := tt_WorkspaceID ty; tt_Slug := tt_Slug ty; tt_Name := tt_Name ty;
     tt_Description := tt_Description ty; tt_AdapterID := tt_AdapterID ty; tt_SenderIdentityID := tt_SenderIdentityID ty;
     tt_VariableSchema := tt_VariableSchema ty; tt_TestRecipientMode := tt_TestRecipientMode ty;
     tt_TestRecipientAddresses := tt_TestRecipientAddresses ty;
     tt_OwnerScope := resourceOwnerScope (tt_WorkspaceID ty) current system;
     tt_InheritedFromSystem := inheritedFromSystem (tt_WorkspaceID ty) current system; tt_IsBulk := tt_IsBulk ty;
     tt_CreatedAt := tt_CreatedAt ty; tt_UpdatedAt := tt_UpdatedAt ty; tt_DeletedAt := tt_DeletedAt ty |}.

(** ** What the handlers share *)

Section Shared.
Context `{GoStd} {W : Type}.

Definition validation_failed (errors : list FieldError) : HandlerFunc W :=
  WriteErrorDetails 422 "VALIDATION_ERROR" "validation failed" errors.
Definition writePolicyForbidden (code message : string) : HandlerFunc W := WriteError 403 code message.

(** [id, err := uuid.Parse(c.Param(name))]. *)
Definition path_id `{Parsers} (name message : string) (k : uuid -> HandlerFunc W) : HandlerFunc W :=
  let! c := conn in
  match uuid_Parse (Param name c) with
  | Err _ => WriteError 400 "BAD_REQUEST" message
  | Ok id => k id
  end.

Definition bound {A} `{Binder A} (k : A -> HandlerFunc W) : HandlerFunc W :=
  let! c := conn in
  match Bind c with
  | Err _ => WriteError 400 "BAD_REQUEST" "invalid request body"
  | Ok req => k req
  end.

Context (wsStore : WorkspaceStore.t W).

Definition resolveSystemWorkspace (current : Workspace) : M W (option Workspace) :=
  if ws_IsSystem current then ret (Some current)
  else
    try! r := WorkspaceStore.GetSystemWorkspace wsStore (ws_TenantID current) (ws_Environment current) in
    match r with
    | Ok systemWorkspace => ret (Some systemWorkspace)
    | Err e => if IsNotFound e || errors_Is e ErrNotFound then ret None else fail e
    end.

Definition workspaceResolutionChain (current : Workspace) : M W (list (option uuid) * option Workspace) :=
  let! systemWorkspace := resolveSystemWorkspace current in
  let chain := [Some (ws_ID current)] ++
    match systemWorkspace with
    | Some sys => if bool_decide (ws_ID sys = ws_ID current) then [] else [Some (ws_ID sys)]
    | None => []
    end in
  ret (chain, systemWorkspace).
End Shared.
