(* ===== verification/Hosted.v ===== *)
(** * Management routes over a database that hosts the directory

    Every management handler runs behind the same middleware over a database
    with the directory's tables among its own: the stores of the directory over
    such a database, the middleware of a route, and what a handler's effect says
    of whole requests - proved once, for any tables that host the directory. *)
From stdpp Require Import base gmap strings list.
From Stdlib Require Import ZArith NArith Ascii String Lia.
From S2P Require Import Prelude GoMonad Domain Ports Token Config Http.
From S2P Require Import Suppression Postgres Database Directory Auth Members Roles Gates Surface Authority Inheritance.

(** Tables with the directory's among them. *)
Class Hosted (T : Type) := { directory : T -> Tables; set_directory : Tables -> T -> T }.
Class HostedLaws (T : Type) `{Hosted T} : Prop := {
  set_directory_same (t : T) : set_directory (directory t) t = t;
}.

Section Stores.
Context `{GoStd} `{Codec} `{Sha256} {T : Type} `{Hosted T} (ilike : string -> string -> bool).

Definition hosted {A} (m : M Dir A) : M (DB T) A := focus directory set_directory m.

Definition HostedTenants : TenantStore.t (DB T) := {|
  TenantStore.Create := fun t => hosted (TenantRepo_Create t);
  TenantStore.GetByID := fun id => hosted (TenantRepo_GetByID id);
  TenantStore.GetByCode := fun code => hosted (TenantRepo_GetByCode code);
  TenantStore.List := fun opts => hosted (TenantRepo_List ilike opts);
  TenantStore.Update := fun t => hosted (TenantRepo_Update t);
  TenantStore.SoftDelete := fun id => hosted (TenantRepo_SoftDelete id);
|}.

Definition HostedWorkspaces : WorkspaceStore.t (DB T) := {|
  WorkspaceStore.GetByID := fun id => hosted (WorkspaceRepo_GetByID id);
  WorkspaceStore.GetByTenantAndCode := fun tid code env => hosted (GetByTenantAndCode tid code env);
  WorkspaceStore.GetSystemWorkspace := fun tid env => hosted (GetSystemWorkspace tid env);
  WorkspaceStore.ListByTenant := fun tid env limit cursor =>
    hosted (ListByTenant ilike tid env (mkListOptions cursor limit ""));
|}.

Definition HostedMembers : MemberStore.t (DB T) := {|
  MemberStore.Create := fun m => hosted (MemberRepo_Create m);
  MemberStore.GetByEmail := fun e => hosted (GetByEmail e);
  MemberStore.GetByOIDCIdentity := fun i s => hosted (GetByOIDCIdentity i s);
  MemberStore.GetByID := fun id => hosted (MemberRepo_GetByID id);
  MemberStore.ListAll := fun o => hosted (ListAll o);
  MemberStore.ListInScope := fun st id o => hosted (ListInScope st id o);
  MemberStore.AddRole := fun r => hosted (AddRole r);
  MemberStore.ReplaceRoleInScope := fun r => hosted (ReplaceRoleInScope r);
  MemberStore.RemoveRole := fun id => hosted (RemoveRole id);
  MemberStore.RevokeAccessInScope := fun m st id => hosted (RevokeAccessInScope m st id);
  MemberStore.GetRoles := fun id => hosted (GetRoles id);
  MemberStore.GetRolesInScope := fun m st id => hosted (GetRolesInScope m st id);
  MemberStore.GetRolesByMembers := fun ids => hosted (GetRolesByMembers ids);
|}.

Definition HostedKeys : APIKeyStore.t (DB T) := {|
  APIKeyStore.Create := fun k => hosted (APIKeyRepo_Create k);
  APIKeyStore.GetByID := fun id => hosted (APIKeyRepo_GetByID id);
  APIKeyStore.GetByHash := fun h => hosted (GetByHash h);
  APIKeyStore.Revoke := fun id => hosted (APIKeyRepo_Revoke id);
  APIKeyStore.TouchLastUsed := fun id => hosted (TouchLastUsed id);
  APIKeyStore.ListByWorkspace := fun ws o => hosted (APIKeyRepo_ListByWorkspace ws o);
|}.

(** The middleware of a route of the [/api/v1/manage] group, in the order the
    server and the group install it. *)
Context (oidcVerifier : string -> M (DB T) OIDCClaims) (apiKeyPepper : string).

Definition manage_hosted (route : Route (DB T)) : HandlerFunc (DB T) :=
  RequestID (NewV7 db_runtime)
    (Scope (Auth HostedKeys HostedMembers oidcVerifier apiKeyPepper
      (OIDCOnly (RequireRole HostedTenants HostedWorkspaces (route_Min route) (route_Handler route))))).
Definition handle_hosted (route : Route (DB T)) : HandlerFunc (DB T) := serve (manage_hosted route).
End Stores.

(** ** The directory of the host *)

Section Directory.
Context `{GoStd} `{Codec} `{Sha256} {T : Type} `{HostedLaws T} (ilike : string -> string -> bool).

Lemma hosted_frame {A} (m : M Dir A) : preserves db_tables m -> preserves db_tables (hosted (T:=T) m).
Proof. apply focus_frame. apply set_directory_same. Qed.

Lemma hosted_answers {A} Q (m : M Dir A) : answers db_tables Q m ->
  answers db_tables (fun t => Q (directory t)) (hosted (T:=T) m).
Proof.
  intros Hm s r s'. unfold hosted, focus.
  set (u := mkDB (directory (db_tables s)) _ _ _ _). destruct (m u) as [r' u'] eqn:E. intros [= <- <-].
  apply Hm in E as [Eu Hq]. simpl. rewrite Eu. split; [apply set_directory_same|exact Hq].
Qed.

#[export] Instance hosted_directory :
  DirectoryView db_tables directory (HostedTenants (T:=T) ilike) (HostedWorkspaces ilike) HostedKeys HostedMembers.
Proof.
  destruct (directory_repos ilike) as [Ht Hw Hk Hi He Hr].
  split; intros; [exact (hosted_answers _ _ (Ht _))|exact (hosted_answers _ _ (Hw _ _ _))|exact (hosted_answers _ _ (Hk _))
    |exact (hosted_answers _ _ (Hi _ _))|exact (hosted_answers _ _ (He _))|exact (hosted_answers _ _ (Hr _))].
Qed.

(** The workspace a request names. *)
Definition named (c : Conn) (t : Tables) (ws : Workspace) : Prop :=
  exists ten, tenant_at t (Param "tenant_code" c) = Ok ten /\
    workspace_at t (ten_ID ten) (Param "workspace_code" c) (path_environment c) = Ok ws.

Lemma named_same c t ws ws' : named c t ws -> named c t ws' -> ws = ws'.
Proof. intros (ten & E & Ew) (ten' & E' & Ew'). congruence. Qed.

Lemma named_row c t ws : named c t ws -> exists id, tb_workspaces t !! id = Some ws.
Proof. intros (ten & _ & (id & Hid & _)%workspace_at_row). by exists id. Qed.

Lemma resolveWorkspace_named s c ws x :
  resolveWorkspace (HostedTenants ilike) (HostedWorkspaces ilike) (s, c) = (Ok ws, x) ->
  requestEnvironment c = path_environment c ->
  named c (directory (db_tables s)) ws /\ x.2 = c /\ db_tables x.1 = db_tables s.
Proof.
  intros E He. unfold resolveWorkspace, bind, conn, get_state, up in E. simpl in E. rewrite He in E.
  pose proof (hosted_directory) as [Ht Hw _ _ _ _].
  destruct (hosted (TenantRepo_GetByCode _) s) as [ [ten|e] s1] eqn:E1; [|done].
  apply (Ht (Param "tenant_code" c)) in E1 as [Es1 E1]. specialize (E1 _ eq_refl).
  destruct (hosted (GetByTenantAndCode _ _ _) s1) as [ [w|e] s2] eqn:E2; [|done].
  apply (Hw (ten_ID ten) (Param "workspace_code" c) (path_environment c)) in E2 as [Es2 E2]. specialize (E2 _ eq_refl).
  injection E as <- <-. simpl. split; [|split; [done|congruence] ]. exists ten. rewrite <- Es1. rewrite Es1 in *. auto.
Qed.

Lemma resolveWorkspace_hosted_frame :
  preserves (on_world db_tables) (resolveWorkspace (HostedTenants (T:=T) ilike) (HostedWorkspaces ilike)).
Proof.
  unfold resolveWorkspace. apply preserves_bind; [apply conn_frame|]. intros c.
  apply preserves_bind; [|intros ten]; apply preserves_up, hosted_frame, query_frame.
Qed.

Lemma resolveSystemWorkspace_hosted_frame ws :
  preserves db_tables (resolveSystemWorkspace (HostedWorkspaces (T:=T) ilike) ws).
Proof.
  unfold resolveSystemWorkspace. destruct (ws_IsSystem ws); [apply preserves_ret|]. apply preserves_try.
  - apply hosted_frame, query_frame.
  - intros [sys|e]; [apply preserves_ret|]. destruct (_ || _); [apply preserves_ret|apply preserves_fail].
Qed.

Lemma workspaceResolutionChain_hosted_frame ws :
  preserves db_tables (workspaceResolutionChain (HostedWorkspaces (T:=T) ilike) ws).
Proof.
  unfold workspaceResolutionChain. apply preserves_bind; [apply resolveSystemWorkspace_hosted_frame|]. intros sys.
  repeat case_match; apply preserves_ret.
Qed.
End Directory.

(** ** Authority over a workspace *)

Inductive governs (minRole : Role) (ws : Workspace) (a : MemberRole) : Prop :=
| superadmin_governs : mr_Role a = RoleSuperadmin -> mr_ScopeType a = ScopeGlobal -> governs minRole ws a
| tenant_governs : mr_ScopeType a = ScopeTenant -> mr_TenantID a = Some (ws_TenantID ws) ->
    (Role_Level minRole <= Role_Level (mr_Role a))%Z -> governs minRole ws a
| workspace_governs : mr_ScopeType a = ScopeWorkspace -> mr_WorkspaceID a = Some (ws_ID ws) ->
    (Role_Level minRole <= Role_Level (mr_Role a))%Z -> governs minRole ws a.

Section Requests.
Context `{GoStd} `{Codec} `{Sha256} {T : Type} `{HostedLaws T} (ilike : string -> string -> bool).
Context (oidcVerifier : string -> M (DB T) OIDCClaims) (apiKeyPepper : string).
Hypothesis verifier_frame : forall token, preserves db_tables (oidcVerifier token).

Lemma authorises_governs minRole c t tid wid a ws :
  authorises minRole tid wid a -> resolves c t tid wid -> named c t ws -> governs minRole ws a.
Proof.
  intros [? ?|ti -> Hst Hti Hlv|wi -> Hst Hwi Hlv] [Ht Hw] Hn; [by apply superadmin_governs| |].
  - destruct Ht as (_ & ten & Et & ->). destruct Hn as (ten' & Et' & Ews). rewrite Et in Et'. injection Et' as <-.
    apply workspace_at_row in Ews as (_ & _ & Htid). apply tenant_governs; congruence || done.
  - destruct Hw as (_ & ti & ws' & -> & Ews & ->). destruct Ht as (_ & ten & Et & ->).
    assert (ws' = ws) as -> by (eapply named_same; [|exact Hn]; by exists ten). by apply workspace_governs.
Qed.

(** A caller with at least a route's role over a workspace. *)
Definition entitled (minRole : Role) (c : Conn) (t : Tables) (ws : Workspace) : Prop :=
  exists m a, caller oidcVerifier c t m /\ a ∈ roles_of (mem_ID m) t /\ governs minRole ws a.
Definition superadmin (c : Conn) (t : Tables) : Prop :=
  exists m a, caller oidcVerifier c t m /\ a ∈ roles_of (mem_ID m) t /\ mr_Role a = RoleSuperadmin /\ mr_ScopeType a = ScopeGlobal.

(** What a handler does to the tables: nothing, or [R] for the workspace the
    request names. *)
Definition workspace_effect (R : Workspace -> T -> T -> Prop) (h : HandlerFunc (DB T)) : Prop :=
  forall s c, requestEnvironment c = path_environment c ->
    let t' := db_tables (h (s, c)).2.1 in
    t' = db_tables s \/ exists ws, named c (directory (db_tables s)) ws /\ R ws (db_tables s) t'.

(** A handler that works in the workspace it resolves. *)
Lemma resolved_effect (R : Workspace -> T -> T -> Prop) (k : Workspace -> HandlerFunc (DB T)) :
  (forall ws x, R ws (db_tables x.1) (db_tables (k ws x).2.1)) ->
  workspace_effect R (stored (resolveWorkspace (HostedTenants ilike) (HostedWorkspaces ilike)) k).
Proof.
  intros Hk s c He. cbv zeta. unfold stored, try.
  pose proof (resolveWorkspace_hosted_frame ilike (s, c)) as Hf. unfold on_world in Hf. simpl in Hf.
  destruct (resolveWorkspace _ _ (s, c)) as [ [ws|e] x1] eqn:E; simpl in Hf.
  - right. exists ws. apply resolveWorkspace_named in E as (Hn & _ & Es); [|done]. split; [done|]. rewrite <- Es. apply Hk.
  - left. rewrite <- Hf. exact (mapStoreError_frame db_tables e x1).
Qed.

(** What reached the handler of a changed database. *)
Lemma hosted_gate route s c r x' : cn_Values c = no_values ->
  handle_hosted ilike oidcVerifier apiKeyPepper route (s, c) = (r, x') ->
  db_tables x'.1 = db_tables s \/
  exists s1 c1, db_tables s1 = db_tables s /\ requestEnvironment c1 = path_environment c1 /\ cn_Params c1 = cn_Params c /\
    permitted oidcVerifier (route_Min route) c (directory (db_tables s)) c1 /\
    db_tables x'.1 = db_tables (route_Handler route (s1, c1)).2.1.
Proof.
  intros Hv E. unfold handle_hosted, serve, try in E.
  destruct (manage_hosted _ _ _ route (s, c)) as [res x1] eqn:Em.
  assert (Ht : db_tables x'.1 = db_tables x1.1).
  { destruct res as [u|e]; [by injection E as _ <-|].
    pose proof (HTTPErrorHandler_frame db_tables e x1) as Hf. rewrite E in Hf. exact Hf. }
  rewrite Ht. clear E Ht r x'.
  apply (manage_gate db_tables directory _ _ _ _ oidcVerifier apiKeyPepper verifier_frame _ _ c db_id_frame) in Em
    as [ [? _]|(s1 & c1 & Es & Hp & Em)]; [by left| |done].
  right. exists s1, c1. destruct Hp as (Hsc & Hrest). split; [done|].
  split; [by eapply scoped_environment|]. split; [by destruct Hsc as ((? & _) & _)|]. split; [by split|]. by rewrite Em.
Qed.

(** A workspace route changes what its handler may, for an entitled caller. *)
Theorem workspace_route R route s c r x' : cn_Values c = no_values -> workspace_effect R (route_Handler route) ->
  handle_hosted ilike oidcVerifier apiKeyPepper route (s, c) = (r, x') ->
  db_tables x'.1 = db_tables s \/
  exists ws, named c (directory (db_tables s)) ws /\ entitled (route_Min route) c (directory (db_tables s)) ws /\
    R ws (db_tables s) (db_tables x'.1).
Proof.
  intros Hv Hh [?|(s1 & c1 & Es & He & Hpar & (_ & m & a & tid & wid & Hm & Ha & Hauth & Hres) & ->)]%hosted_gate; [by left| |done].
  destruct (Hh s1 c1 He) as [->|(ws & Hn & HR)]; [by left|]. rewrite Es in *. right. exists ws.
  assert (Hn' : named c (directory (db_tables s)) ws).
  { unfold named, path_environment, Param in *. by rewrite Hpar in Hn. }
  split; [done|]. split; [|done]. exists m, a. split; [done|]. split; [done|]. by eapply authorises_governs.
Qed.

(** A route for superadmins runs for superadmins. *)
Theorem superadmin_route route s c r x' : cn_Values c = no_values -> route_Min route = RoleSuperadmin ->
  (forall id a, tb_roles (directory (db_tables s)) !! id = Some a -> role_scope_check a = true) ->
  handle_hosted ilike oidcVerifier apiKeyPepper route (s, c) = (r, x') ->
  db_tables x'.1 = db_tables s \/
  superadmin c (directory (db_tables s)) /\
  exists s1 c1, db_tables s1 = db_tables s /\ cn_Params c1 = cn_Params c /\
    db_tables x'.1 = db_tables (route_Handler route (s1, c1)).2.1.
Proof.
  intros Hv Hmin Hroles [?|(s1 & c1 & Es & _ & Hpar & (_ & m & a & tid & wid & Hm & Ha & Hauth & _) & ->)]%hosted_gate; [by left| |done].
  right. split; [|by exists s1, c1]. exists m, a. split; [done|]. split; [done|].
  apply roles_of_row in Ha as [id Hid]. specialize (Hroles _ _ Hid). rewrite Hmin in Hauth.
  destruct Hauth as [? ?|ti _ Hst _ Hlv|wi _ Hst _ Hlv]; [done|exfalso..].
  - rewrite (tenant_level _ Hroles Hst) in Hlv. simpl in Hlv. lia.
  - pose proof (workspace_below _ Hroles Hst). simpl in Hlv. lia.
Qed.
End Requests.
