(* ===== verification/Cache.v ===== *)
(** * The cache ([port.Cache], [adapter/pgcache])

    The cache port, its implementation on the [cache] table - with the [LIKE]
    patterns and the [split_part] predicates of its deletions - and what each
    deletion removes. *)
From stdpp Require Import base gmap strings list.
From Stdlib Require Import ZArith Ascii String Lia.
From S2P Require Import Prelude GoMonad Domain Ports Suppression Postgres.

(** [resolvedTemplateScopeCache], the optional interface of a cache. *)
Record ScopeCache (W : Type) := mkScopeCache {
  DeleteResolvedTemplatesByWorkspace : uuid -> M W unit;
  DeleteAllResolvedTemplates : M W unit;
}.
Arguments DeleteResolvedTemplatesByWorkspace {W}. Arguments DeleteAllResolvedTemplates {W}.

(** [port.Cache], and whether it has the optional interface. *)
Record Cache (W : Type) := mkCache {
  cache_Get : string -> M W string;
  cache_Set : string -> string -> duration -> M W unit;
  cache_Delete : string -> M W unit;
  cache_DeletePattern : string -> M W unit;
  cache_ScopeCache : option (ScopeCache W);
}.
Arguments cache_Get {W}. Arguments cache_Set {W}. Arguments cache_Delete {W}.
Arguments cache_DeletePattern {W}. Arguments cache_ScopeCache {W}.

(** The patterns are ASCII constants, so bytes are runes. *)
Fixpoint escapeLikePattern (pattern : string) : string :=
  match pattern with
  | EmptyString => EmptyString
  | String c r =>
      if Ascii.eqb c (byte 92) || Ascii.eqb c "%" || Ascii.eqb c "_"
      then String (byte 92) (String c (escapeLikePattern r))
      else if Ascii.eqb c "*" then String "%" (escapeLikePattern r)
      else String c (escapeLikePattern r)
  end.

(** [s LIKE p], with the default escape character. *)
Fixpoint any_suffix (f : string -> bool) (s : string) : bool :=
  f s || match s with EmptyString => false | String _ r => any_suffix f r end.

Fixpoint like (p : string) (s : string) : bool :=
  match p with
  | EmptyString => bool_decide (s = "")
  | String c p' =>
      if Ascii.eqb c "%" then any_suffix (like p') s
      else if Ascii.eqb c "_" then match s with String _ r => like p' r | EmptyString => false end
      else if Ascii.eqb c (byte 92) then
        match p', s with
        | String d p2, String e r => Ascii.eqb d e && like p2 r
        | _, _ => false
        end
      else match s with String e r => Ascii.eqb c e && like p' r | EmptyString => false end
  end.

(** [split_part(s, sep, n)], with fields counted from 1. *)
Fixpoint split_part (s : string) (sep : ascii) (n : nat) : string :=
  match n with
  | O => ""
  | S m =>
      match Cut sep s with
      | Some (a, b) => match m with O => a | _ => split_part b sep m end
      | None => match m with O => s | _ => "" end
      end
  end.

Section PGCache.
Context `{GoStd}.

Definition quoted (msg key : string) (e : error) : error :=
  EWrap ("pgcache " +:+ msg +:+ " " +:+ Quote key +:+ ": ") e "".

Definition PGCache_Get (key : string) : M Sys string :=
  stmt (quoted "get" key) (fun s =>
    (match sys_cache s !! key with
     | Some (value, expires) => if (sys_clock s <? expires)%Z then Ok value
                                else Err (NotFound ("cache miss: " +:+ key))
     | None => Err (NotFound ("cache miss: " +:+ key))
     end, s)).

(** The TTL is passed in whole seconds. *)
Definition PGCache_Set (key value : string) (ttl : duration) : M Sys unit :=
  stmt (quoted "set" key) (fun s =>
    (Ok tt, set_cache <[key := (value, (sys_clock s + Z.quot ttl Second * Second)%Z)]> s)).

Definition PGCache_Delete (key : string) : M Sys unit :=
  stmt (quoted "delete" key) (fun s => (Ok tt, set_cache (delete key) s)).

Definition delete_where (p : string -> bool) (s : Sys) : Res unit * Sys :=
  (Ok tt, set_cache (filter (fun kv => p kv.1 = false)) s).

Definition PGCache_DeletePattern (pattern : string) : M Sys unit :=
  stmt (quoted "delete pattern" pattern) (delete_where (like (escapeLikePattern pattern))).

Definition PGCache_DeleteResolvedTemplatesByWorkspace (workspaceID : uuid) : M Sys unit :=
  stmt (fun e => EWrap ("pgcache delete resolved templates for workspace " +:+ uuid_String workspaceID +:+ ": ") e "")
    (delete_where (fun k => bool_decide (split_part k ":" 1 = "resolved_template")
                            && bool_decide (split_part k ":" 2 = uuid_String workspaceID))).

Definition PGCache_DeleteAllResolvedTemplates : M Sys unit :=
  stmt (fun e => EWrap "pgcache delete all resolved templates: " e "")
    (delete_where (fun k => bool_decide (split_part k ":" 1 = "resolved_template"))).

Definition PGCache : Cache Sys := {|
  cache_Get := PGCache_Get;
  cache_Set := PGCache_Set;
  cache_Delete := PGCache_Delete;
  cache_DeletePattern := PGCache_DeletePattern;
  cache_ScopeCache := Some {|
    DeleteResolvedTemplatesByWorkspace := PGCache_DeleteResolvedTemplatesByWorkspace;
    DeleteAllResolvedTemplates := PGCache_DeleteAllResolvedTemplates;
  |};
|}.
End PGCache.

(** * Theorems *)

Lemma any_suffix_true s f : (forall t, f t = true) -> any_suffix f s = true.
Proof. intros Hf. destruct s; simpl; by rewrite Hf. Qed.

(** A literal prefix followed by [*] matches exactly the keys with that prefix. *)
Lemma like_prefix lit s :
  has_byte "*"%char lit = false -> like (escapeLikePattern (lit +:+ "*")) s = HasPrefix s lit.
Proof.
  revert s. induction lit as [|c lit IH]; intros s Hs.
  - assert (E : like (escapeLikePattern ("" +:+ "*")) s = true).
    { change (any_suffix (like "") s = true). induction s as [|d s IH]; [done|].
      cbn [any_suffix]. rewrite IH. apply orb_true_r. }
    rewrite E. by destruct s.
  - simpl in Hs. apply orb_false_iff in Hs as [Hc Hs]. unfold HasPrefix in *.
    cbn [String.append escapeLikePattern].
    destruct (Ascii.eqb c (byte 92) || Ascii.eqb c "%" || Ascii.eqb c "_") eqn:Em.
    + change (like (String (byte 92) (String c (escapeLikePattern (lit +:+ "*")))) s) with
        (match s with String e r => Ascii.eqb c e && like (escapeLikePattern (lit +:+ "*")) r
                    | EmptyString => false end).
      destruct s as [|e r]; [done|]. rewrite IH by done. simpl.
      destruct (Ascii.eqb_spec c e) as [->|Hne]; destruct (ascii_dec _ _); done || congruence.
    + rewrite Hc. bools. cbn [like].
      destruct (Ascii.eqb c "%"); [done|]. destruct (Ascii.eqb c "_"); [done|].
      destruct (Ascii.eqb c (byte 92)); [done|].
      destruct s as [|e r]; [done|]. rewrite IH by done. simpl.
      destruct (Ascii.eqb_spec c e) as [->|Hne]; destruct (ascii_dec _ _); done || congruence.
Qed.

(** What a deletion by predicate leaves. *)
Lemma filter_lookup {V} (p : string -> bool) (m : gmap string V) k :
  filter (fun kv => p kv.1 = false) m !! k = if p k then None else m !! k.
Proof.
  apply option_eq. intros x. rewrite map_lookup_filter_Some. simpl. destruct (p k); naive_solver.
Qed.
