(* ===== verification/Resolution.v ===== *)
(** * Resolution ([internal/resolution])

    The scope chain of a workspace, the template and adapter resolvers with
    their caches, the sender address and the cache invalidator; the caches are
    shown transparent and the invalidations exact. *)
From stdpp Require Import base gmap strings list.
From Stdlib Require Import ZArith Ascii String Lia.
From S2P Require Import Prelude GoMonad Domain Ports Suppression Postgres Cache.

Definition chainCacheTTL : duration := (5 * Minute)%Z.
Definition templateCacheTTL : duration := (5 * Minute)%Z.
Definition adapterCacheTTL : duration := (10 * Minute)%Z.

Record ResolutionChain := mkResolutionChain {
  ch_WorkspaceID : uuid;
  ch_SystemWorkspaceID : uuid;
  ch_TenantID : uuid;
  ch_Scopes : list (option uuid);
}.

Record ResolvedTemplate := mkResolvedTemplate {
  rt_Template : Template;
  rt_Version : TemplateVersion;
  rt_Locale : option TemplateVersionLocale;
  rt_TemplateType : TemplateType;
}.

Section Keys.
Context `{GoStd}.

Definition chainCacheKey (workspaceID : uuid) : string := "chain:" +:+ uuid_String workspaceID.
Definition adapterCacheKey (id : uuid) : string := "adapter:" +:+ uuid_String id.
Definition resolvedTemplateCacheKey (workspaceID : uuid) (typeSlug : string) (locale : option string) : string :=
  "resolved_template:" +:+ uuid_String workspaceID +:+ ":" +:+ typeSlug +:+ ":" +:+ default "_default" locale.
End Keys.

Section Resolvers.
Context `{GoStd} {W : Type} (cache : Cache W).
Context `{JSON ResolutionChain} `{JSON ResolvedTemplate} `{JSON Adapter}.

(** The two halves the resolvers share: a read that falls through on a miss or
    an undecodable value, and the best-effort write. *)
Definition cache_read {A} `{JSON A} (key : string) : M W (option A) :=
  try! r := cache_Get cache key in
  match r with
  | Err _ => ret None
  | Ok data => match Unmarshal data with Ok a => ret (Some a) | Err _ => ret None end
  end.

Definition cache_write {A} `{JSON A} (key : string) (ttl : duration) (a : A) : M W unit :=
  match Marshal a with
  | Ok data => ignore (cache_Set cache key data ttl)
  | Err _ => ret tt
  end.

Definition read_through {A} `{JSON A} (key : string) (ttl : duration) (load : M W A) : M W A :=
  let! hit := cache_read key in
  match hit with
  | Some a => ret a
  | None => let! a := load in cache_write key ttl a ;;; ret a
  end.

Context (ws_store : WorkspaceStore.t W) (tpl_store : TemplateStore.t W).

Definition load_chain (workspaceID : uuid) : M W ResolutionChain :=
  let! ws := WorkspaceStore.GetByID ws_store workspaceID in
  if ws_IsSystem ws then
    ret {| ch_WorkspaceID := ws_ID ws; ch_SystemWorkspaceID := ws_ID ws; ch_TenantID := ws_TenantID ws;
           ch_Scopes := [Some (ws_ID ws)] |}
  else
    let! sysWS := WorkspaceStore.GetSystemWorkspace ws_store (ws_TenantID ws) (ws_Environment ws) in
    ret {| ch_WorkspaceID := ws_ID ws; ch_SystemWorkspaceID := ws_ID sysWS; ch_TenantID := ws_TenantID ws;
           ch_Scopes := [Some (ws_ID ws); Some (ws_ID sysWS)] |}.

Definition ChainResolver_Resolve (workspaceID : uuid) : M W ResolutionChain :=
  read_through (chainCacheKey workspaceID) chainCacheTTL (load_chain workspaceID).

(** The localized content of a version: the exact locale, else its language
    prefix, else the version's own content. *)
Definition resolve_locale (version : TemplateVersion) (locale : option string)
  : M W (option TemplateVersionLocale) :=
  match locale with
  | None => ret None
  | Some l =>
      if bool_decide (l = ver_DefaultLocale version) then ret None
      else
        try! r := TemplateStore.GetLocale tpl_store (ver_ID version) l in
        match r with
        | Ok loc => ret (Some loc)
        | Err _ =>
            match Cut "-"%char l with
            | Some (prefix, _) =>
                if bool_decide (prefix = "") then ret None
                else
                  try! r := TemplateStore.GetLocale tpl_store (ver_ID version) prefix in
                  match r with Ok loc => ret (Some loc) | Err _ => ret None end
            | None => ret None
            end
        end
  end.

Definition load_template_from (get_chain : M W ResolutionChain) (typeSlug : string) (locale : option string)
  : M W ResolvedTemplate :=
  let! chain := get_chain in
  let! templateType :=
    wrap_err (fun _ => EWrap "" (ESent ErrTemplateTypeNotFound) (": " +:+ typeSlug))
             (TemplateStore.GetTypeBySlug tpl_store typeSlug (ch_Scopes chain)) in
  let! template :=
    wrap_err (fun _ => EWrap "" (ESent ErrTemplateNotFound) (": type " +:+ typeSlug))
             (TemplateStore.ResolveTemplate tpl_store (tt_ID templateType) (ch_Scopes chain)) in
  if tpl_IsDisabled template then fail (ESent ErrTemplateDisabled)
  else
    let! version :=
      wrap_err (fun _ => EWrap "" (ESent ErrNoPublishedVersion) (": template " +:+ uuid_String (tpl_ID template)))
               (TemplateStore.GetPublishedVersion tpl_store (tpl_ID template)) in
    let! localeContent := resolve_locale version locale in
    ret {| rt_Template := template; rt_Version := version; rt_Locale := localeContent;
           rt_TemplateType := templateType |}.

Definition load_template (workspaceID : uuid) (typeSlug : string) (locale : option string)
  : M W ResolvedTemplate :=
  load_template_from (ChainResolver_Resolve workspaceID) typeSlug locale.

Definition TemplateResolver_Resolve (workspaceID : uuid) (typeSlug : string) (locale : option string)
  : M W ResolvedTemplate :=
  read_through (resolvedTemplateCacheKey workspaceID typeSlug locale) templateCacheTTL
    (load_template workspaceID typeSlug locale).

(** *** Adapters and the sender address *)

Context (GetAdapterByID : uuid -> M W Adapter).

Definition ResolveForTemplateType (templateType : TemplateType) : M W Adapter :=
  match tt_AdapterID templateType with
  | None => fail (ESent ErrNoAdapterConfigured)
  | Some adapterID =>
      let cacheKey := adapterCacheKey adapterID in
      let! hit := cache_read cacheKey in
      match hit with
      | Some adapter =>
          if bool_decide (is_Some (ad_DeletedAt adapter)) then fail (ESent ErrNoAdapterConfigured)
          else ret adapter
      | None =>
          let! adapter := GetAdapterByID adapterID in
          if bool_decide (is_Some (ad_DeletedAt adapter)) then fail (ESent ErrNoAdapterConfigured)
          else cache_write cacheKey adapterCacheTTL adapter ;;; ret adapter
      end
  end.

Definition IdentityToEmailAddress (identity : AdapterIdentity) : EmailAddress :=
  mkEmailAddress (default "" (id_DisplayName identity)) (id_Identity identity).

(** [cfg_delegate] is the [delegate_email] string of the decrypted JSON config,
    when it parses and has one. *)
Definition ResolveFromAddress (GetDefault : uuid -> M W AdapterIdentity) (adapter : Adapter)
    (cfg_delegate : option string) : M W EmailAddress :=
  try! identity := GetDefault (ad_ID adapter) in
  match identity with
  | Ok identity => ret (IdentityToEmailAddress identity)
  | Err _ =>
      let de := default "" (ad_ConfigMeta adapter !! "delegate_email") in
      if negb (bool_decide (de = "")) then ret (mkEmailAddress "" de)
      else ret (mkEmailAddress "" (default "" cfg_delegate))
  end.

(** *** Invalidation *)

Definition InvalidateWorkspace (workspaceID : uuid) : M W unit :=
  ignore (cache_Delete cache (chainCacheKey workspaceID)).
Definition InvalidateAdapter (adapterID : uuid) : M W unit :=
  ignore (cache_Delete cache (adapterCacheKey adapterID)).
Definition InvalidateDomainValidation (workspaceID : uuid) (domainName : string) : M W unit :=
  ignore (cache_Delete cache ("domain_valid:" +:+ uuid_String workspaceID +:+ ":" +:+ domainName)).
Definition InvalidateResolvedTemplates (workspaceID : uuid) : M W unit :=
  match cache_ScopeCache cache with
  | Some sc => ignore (DeleteResolvedTemplatesByWorkspace sc workspaceID)
  | None => ret tt
  end.
Definition InvalidateAllResolvedTemplates : M W unit :=
  match cache_ScopeCache cache with Some sc => ignore (DeleteAllResolvedTemplates sc) | None => ret tt end.
Definition InvalidateGlobal : M W unit :=
  ignore (cache_DeletePattern cache "chain:*") ;;;
  ignore (cache_DeletePattern cache "adapter:*") ;;;
  InvalidateAllResolvedTemplates.

(** The page loop of one environment; [true] when it reached the last page,
    [false] when it fell back to the global invalidation. [None] when the fuel
    (the number of pages read) runs out. *)
Fixpoint invalidate_pages (fuel : nat) (tenantID : uuid) (environment : Environment) (cursor : string)
  : M W (option bool) :=
  match fuel with
  | O => ret None
  | S fuel =>
      try! page := WorkspaceStore.ListByTenant ws_store tenantID environment 1000 cursor in
      match page with
      | Err _ => InvalidateGlobal ;;; ret (Some false)
      | Ok (workspaces, nextCursor) =>
          for_each workspaces (fun ws => InvalidateWorkspace (ws_ID ws)) ;;;
          if bool_decide (nextCursor = "") then ret (Some true)
          else invalidate_pages fuel tenantID environment nextCursor
      end
  end.

Fixpoint invalidate_environments (fuel : nat) (tenantID : uuid) (envs : list Environment)
  : M W (option bool) :=
  match envs with
  | [] => ret (Some true)
  | e :: r =>
      let! res := invalidate_pages fuel tenantID e "" in
      match res with
      | Some true => invalidate_environments fuel tenantID r
      | _ => ret res
      end
  end.

Definition InvalidateTenantWorkspaces (fuel : nat) (tenantID : uuid) : M W (option bool) :=
  invalidate_environments fuel tenantID Environments.
End Resolvers.

(** * Theorems *)

(** ** The caches are transparent *)

(** What the resolvers rely on: a hit returns a cell, and a cell present after a
    read or a write was there before or is the one written (cells may expire
    and writes may fail). *)
Class CacheLaws {W} (cache : Cache W) (cells : W -> gmap string string) : Prop := {
  cache_Get_hit key w d w' : cache_Get cache key w = (Ok d, w') -> cells w !! key = Some d;
  cache_Get_cells key w k d : cells (cache_Get cache key w).2 !! k = Some d -> cells w !! k = Some d;
  cache_Set_cells key v ttl w k d :
    cells (cache_Set cache key v ttl w).2 !! k = Some d -> cells w !! k = Some d \/ (k = key /\ d = v);
}.

Definition pg_cells (s : Sys) : gmap string string := fst <$> sys_cache s.

#[export] Instance PGCache_laws `{GoStd} : CacheLaws PGCache pg_cells.
Proof.
  split; simpl.
  - intros key w d w' (fs & [E|[(m & [=] & _)|(m & [=] & _)]])%stmt_cases.
    unfold pg_cells. rewrite lookup_fmap. simpl in E.
    destruct (sys_cache w !! key) as [[v ex]|]; [|done]. case_match; by simplify_eq/=.
  - intros key w k d. assert (Hp : preserves pg_cells (PGCache_Get key)) by repo_frame. by rewrite Hp.
  - intros key v ttl w k d. destruct (PGCache_Set key v ttl w) as [r w'] eqn:E. simpl.
    unfold pg_cells. apply stmt_cases in E as (fs & E). simpl in E.
    assert (Hi : forall x, fst <$> <[key := (v, x)]> (sys_cache w) !! k = Some d ->
              fst <$> sys_cache w !! k = Some d \/ k = key /\ d = v).
    { intros x. destruct (decide (k = key)) as [->|Hne]; [rewrite lookup_insert_eq|by rewrite lookup_insert_ne; auto].
      intros [= <-]. by right. }
    rewrite !lookup_fmap. destruct E as [[= -> ->]|[(m & _ & ->)|(m & _ & ->)]]; simpl; eauto.
Qed.

Lemma colon_inj (a b a' b' : string) :
  has_byte ":"%char a = false -> has_byte ":"%char a' = false ->
  a +:+ ":" +:+ b = a' +:+ ":" +:+ b' -> a = a' /\ b = b'.
Proof.
  intros Ha Ha' E. assert (H1 : Cut ":"%char (a +:+ ":" +:+ b) = Some (a, b)) by (by apply Cut_Some).
  rewrite E in H1. assert (H2 : Cut ":"%char (a' +:+ ":" +:+ b') = Some (a', b')) by (by apply Cut_Some).
  rewrite H1 in H2. by simplify_eq.
Qed.

Lemma app_inj_l (a b c : string) : a +:+ b = a +:+ c -> b = c.
Proof. induction a as [|d a IH]; simpl; [done|]. intros [= E]. auto. Qed.

(** The template queries whose keys identify them: the slug has no colon and the
    locale is not [_default]. The slugs of stored types have no colon, but the
    slug of a reference may have, and the locale of a request may be anything;
    two other queries can share a key. *)
Definition wf_query (slug : string) (locale : option string) : Prop :=
  has_byte ":"%char slug = false /\ locale <> Some "_default".

Lemma resolved_keys_collide `{GoStd} ws :
  resolvedTemplateCacheKey ws "welcome" (Some "es:_default") = resolvedTemplateCacheKey ws "welcome:es" None /\
  ParseRef "acme:crm:welcome:es" = Ok (mkTemplateRef "acme" "crm" "welcome:es").
Proof. split; [done|]. by vm_compute. Qed.

Lemma resolvedTemplateCacheKey_inj `{GoStd} `{!UuidLaws} ws slug loc ws' slug' loc' :
  wf_query slug loc -> wf_query slug' loc' ->
  resolvedTemplateCacheKey ws slug loc = resolvedTemplateCacheKey ws' slug' loc' ->
  ws = ws' /\ slug = slug' /\ loc = loc'.
Proof.
  intros [Hs Hl] [Hs' Hl'] E. unfold resolvedTemplateCacheKey in E.
  apply app_inj_l in E. apply colon_inj in E as [Eu E]; [|apply uuid_String_colon..].
  apply colon_inj in E as [-> E]; [|done..]. apply uuid_String_inj in Eu as ->.
  split; [done|]. split; [done|]. destruct loc, loc'; simpl in E; congruence.
Qed.

Section Transparent.
Context `{GoStd} `{!UuidLaws} {W : Type} (cache : Cache W) (cells : W -> gmap string string).
Context `{!CacheLaws cache cells}.
Context `{JC : JSON ResolutionChain} `{JT : JSON ResolvedTemplate}.
Context `{!JSONLaws ResolutionChain} `{!JSONLaws ResolvedTemplate}.
Context (ws_store : WorkspaceStore.t W) (tpl_store : TemplateStore.t W).

(** The data of the database in a world, and the worlds in which its statements
    run. The cache does not touch them. *)
Context {D : Type} (data : W -> D) (ready : W -> Prop).

Definition undisturbed {A} (m : M W A) : Prop :=
  forall w, data (m w).2 = data w /\ (ready w -> ready (m w).2).

Context (Hget : forall key, undisturbed (cache_Get cache key)) (Hset : forall key v ttl, undisturbed (cache_Set cache key v ttl)).

(** A read of the database: its answer depends on the data only, and it leaves
    the data and the cells as they are. *)
Record stable {A} (m : M W A) : Prop := {
  stable_same w w' : ready w -> ready w' -> data w = data w' -> (m w).1 = (m w').1;
  stable_cells w : ready w -> cells (m w).2 = cells w;
  stable_data w : ready w -> data (m w).2 = data w;
  stable_ready w : ready w -> ready (m w).2;
}.
#[local] Arguments stable_same {A m}. #[local] Arguments stable_cells {A m}.
#[local] Arguments stable_data {A m}. #[local] Arguments stable_ready {A m}.

Lemma stable_ret {A} (a : A) : stable (ret a).
Proof. by split. Qed.
Lemma stable_fail {A} e : stable (fail (A:=A) e).
Proof. by split. Qed.
Lemma stable_bind {A B} (m : M W A) (k : A -> M W B) :
  stable m -> (forall a, stable (k a)) -> stable (bind m k).
Proof.
  intros Hm Hk. split.
  - intros w w' Hw Hw' Hd. pose proof (stable_same Hm w w' Hw Hw' Hd) as E. unfold bind.
    pose proof (stable_data Hm w Hw) as E1. pose proof (stable_data Hm w' Hw') as E2.
    pose proof (stable_ready Hm w Hw) as R1. pose proof (stable_ready Hm w' Hw') as R2.
    destruct (m w) as [r w1], (m w') as [r' w1']. simpl in *. subst r'. destruct r as [a|e]; [|done].
    apply (stable_same (Hk a)); [done..|congruence].
  - intros w Hw. pose proof (stable_cells Hm w Hw) as E. pose proof (stable_ready Hm w Hw) as R. unfold bind.
    destruct (m w) as [ [a|e] w1]; simpl in *; [|done]. by rewrite (stable_cells (Hk a)).
  - intros w Hw. pose proof (stable_data Hm w Hw) as E. pose proof (stable_ready Hm w Hw) as R. unfold bind.
    destruct (m w) as [ [a|e] w1]; simpl in *; [|done]. by rewrite (stable_data (Hk a)).
  - intros w Hw. pose proof (stable_ready Hm w Hw) as R. unfold bind.
    destruct (m w) as [ [a|e] w1]; simpl in *; [|done]. by apply (stable_ready (Hk a)).
Qed.
Lemma stable_reify {A} (m : M W A) : stable m -> stable (fun w => (Ok (m w).1, (m w).2)).
Proof.
  intros Hm. split; simpl; [|apply Hm..]. intros w w' Hw Hw' Hd. by rewrite (stable_same Hm w w').
Qed.
Lemma stable_try {A B} (m : M W A) (k : Res A -> M W B) :
  stable m -> (forall r, stable (k r)) -> stable (try m k).
Proof.
  intros Hm Hk. pose proof (stable_bind _ k (stable_reify m Hm) Hk) as Hb.
  assert (E : forall w, bind (fun w => (Ok (m w).1, (m w).2)) k w = try m k w)
    by (intros w; unfold bind, try; by destruct (m w)).
  split; [intros w w'|intros w..]; rewrite <- !E; apply Hb.
Qed.
Lemma stable_wrap {A} f (m : M W A) : stable m -> stable (wrap_err f m).
Proof.
  intros Hm. split; [intros w w' Hw Hw' Hd; pose proof (stable_same Hm w w' Hw Hw' Hd) as E; unfold wrap_err;
    destruct (m w) as [r w1], (m w') as [r' w1']; simpl in E; subst r'; by destruct r|..];
    intros w Hw; [pose proof (stable_cells Hm w Hw)|pose proof (stable_data Hm w Hw)|pose proof (stable_ready Hm w Hw)];
    unfold wrap_err; by destruct (m w) as [ [] ].
Qed.

(** Discharges [stable] by the structure of the program. *)
Ltac stable_tac :=
  repeat first
    [ done | apply stable_ret | apply stable_fail | apply stable_bind | apply stable_wrap
    | apply stable_try | case_match | intro ].

(** The queries of the resolvers are such reads. *)
Context (Hws : forall id, stable (WorkspaceStore.GetByID ws_store id)).
Context (Hsys : forall t e, stable (WorkspaceStore.GetSystemWorkspace ws_store t e)).
Context (Htype : forall s c, stable (TemplateStore.GetTypeBySlug tpl_store s c)).
Context (Htpl : forall i c, stable (TemplateStore.ResolveTemplate tpl_store i c)).
Context (Hver : forall i, stable (TemplateStore.GetPublishedVersion tpl_store i)).
Context (Hloc : forall i l, stable (TemplateStore.GetLocale tpl_store i l)).

Lemma load_chain_stable ws : stable (load_chain ws_store ws).
Proof.
  unfold load_chain. stable_tac.
Qed.

Lemma resolve_locale_stable ver loc : stable (resolve_locale tpl_store ver loc).
Proof.
  unfold resolve_locale. stable_tac.
Qed.

(** The template as the database has it, without any cache. *)
Definition fresh_template (ws : uuid) (slug : string) (loc : option string) : M W ResolvedTemplate :=
  load_template_from tpl_store (load_chain ws_store ws) slug loc.

Lemma load_from_stable get slug loc : stable get -> stable (load_template_from tpl_store get slug loc).
Proof.
  intros Hg. unfold load_template_from. stable_tac. apply resolve_locale_stable.
Qed.

(** The statements of the database run, and every cell the resolvers may read
    holds what the data give. *)
Record coherent (w : W) : Prop := {
  coherent_ready : ready w;
  coherent_chain ws d a : cells w !! chainCacheKey ws = Some d -> Unmarshal d = Ok a ->
    (load_chain ws_store ws w).1 = Ok a;
  coherent_template ws slug loc d a : wf_query slug loc ->
    cells w !! resolvedTemplateCacheKey ws slug loc = Some d -> Unmarshal d = Ok a ->
    (fresh_template ws slug loc w).1 = Ok a;
}.

Lemma fresh_stable ws slug loc : stable (fresh_template ws slug loc).
Proof. apply load_from_stable, load_chain_stable. Qed.

Lemma coherent_sub w w' :
  data w' = data w -> ready w' ->
  (forall k d, cells w' !! k = Some d -> cells w !! k = Some d) -> coherent w -> coherent w'.
Proof.
  intros Hd Hr Hs [Hw Hc Ht]. split; [done| |].
  - intros ws d a Hk Hu. rewrite (stable_same (load_chain_stable ws) w' w) by done. eauto.
  - intros ws slug loc d a Hq Hk Hu. rewrite (stable_same (fresh_stable ws slug loc) w' w) by done. eauto.
Qed.

(** Reading the database or the cache keeps the coherence. *)
Lemma stable_coherent {A} (m : M W A) w : stable m -> coherent w -> coherent (m w).2 /\ data (m w).2 = data w.
Proof.
  intros Hm Hw. pose proof (coherent_ready _ Hw) as Hr. split; [|by apply Hm].
  eapply coherent_sub; [by apply Hm|by apply Hm| |exact Hw]. by rewrite (stable_cells Hm).
Qed.
Lemma get_coherent key w : coherent w -> coherent (cache_Get cache key w).2 /\ data (cache_Get cache key w).2 = data w.
Proof.
  intros Hw. destruct (Hget key w) as [Hd Hr]. split; [|done].
  eapply coherent_sub; [exact Hd|by apply Hr, Hw| |exact Hw]. apply cache_Get_cells.
Qed.

Lemma read_through_eq {A} `{JSON A} key ttl (load : M W A) w :
  read_through cache key ttl load w =
  let '(r, w1) := cache_Get cache key w in
  match (match r with Ok d => Unmarshal d | Err e => Err e end) with
  | Ok a => (Ok a, w1)
  | Err _ => (fun w1 => (let! a := load in cache_write cache key ttl a ;;; ret a) w1) w1
  end.
Proof.
  unfold read_through, bind at 1, cache_read, try. destruct (cache_Get cache key w) as [[d|e] w1]; [|done].
  by destruct (Unmarshal d).
Qed.

(** The read-through step, for a key and a loader whose answer [val] depends on
    the data only and whose write keeps the coherence. *)
Lemma read_through_ok {A} `{JA : JSON A} key ttl (load : M W A) (val : Res A) w :
  coherent w ->
  (forall d a, cells w !! key = Some d -> Unmarshal d = Ok a -> val = Ok a) ->
  (forall w1, coherent w1 -> data w1 = data w -> (load w1).1 = val /\ coherent (load w1).2 /\ data (load w1).2 = data w) ->
  (forall w1 a d, coherent w1 -> data w1 = data w -> val = Ok a -> Marshal a = Ok d -> coherent (cache_Set cache key d ttl w1).2) ->
  (read_through cache key ttl load w).1 = val /\ coherent (read_through cache key ttl load w).2 /\
  data (read_through cache key ttl load w).2 = data w.
Proof.
  intros Hw Hhit Hload Hwrite.
  set (miss := fun w1 => (let! a := load in cache_write cache key ttl a ;;; ret a) w1).
  destruct (get_coherent key w Hw) as [Hg Hgd].
  assert (Hmiss : forall w1, coherent w1 -> data w1 = data w ->
    (miss w1).1 = val /\ coherent (miss w1).2 /\ data (miss w1).2 = data w).
  { intros w1 Hw1 Hd1. unfold miss, bind. destruct (Hload w1 Hw1 Hd1) as (Hv & Hc & Hd).
    destruct (load w1) as [ [a|e] w2]; simpl in *; [|done].
    unfold cache_write, ignore. destruct (Marshal a) as [d|] eqn:Em; simpl; [|done].
    split; [done|]. split; [by eapply Hwrite|]. rewrite (proj1 (Hset key d ttl w2)). done. }
  rewrite read_through_eq. fold miss.
  destruct (cache_Get cache key w) as [ [d|e] w1] eqn:E; simpl in *; [|by apply Hmiss].
  destruct (Unmarshal d) as [a|] eqn:Eu; simpl; [|by apply Hmiss].
  split; [|done]. symmetry. eapply Hhit; [by eapply cache_Get_hit|done].
Qed.

(** A write that stores what the data give. *)
Lemma set_coherent key d ttl w :
  coherent w ->
  (forall ws a, key = chainCacheKey ws -> Unmarshal d = Ok a -> (load_chain ws_store ws w).1 = Ok a) ->
  (forall ws slug loc a, wf_query slug loc -> key = resolvedTemplateCacheKey ws slug loc -> Unmarshal d = Ok a ->
     (fresh_template ws slug loc w).1 = Ok a) ->
  coherent (cache_Set cache key d ttl w).2.
Proof.
  intros [Hr Hc Ht] Hchain Htemplate. destruct (Hset key d ttl w) as [Hd Hr']. specialize (Hr' Hr). split; [done| |].
  - intros ws d' a Hk Hu. rewrite (stable_same (load_chain_stable ws) _ w) by done.
    apply cache_Set_cells in Hk as [Hk|[Ek ->] ]; eauto.
  - intros ws slug loc d' a Hq Hk Hu. rewrite (stable_same (fresh_stable ws slug loc) _ w) by done.
    apply cache_Set_cells in Hk as [Hk|[Ek ->] ]; eauto.
Qed.

Lemma chain_run ws w :
  coherent w ->
  (ChainResolver_Resolve cache ws_store ws w).1 = (load_chain ws_store ws w).1 /\
  coherent (ChainResolver_Resolve cache ws_store ws w).2 /\ data (ChainResolver_Resolve cache ws_store ws w).2 = data w.
Proof.
  intros Hw. pose proof (coherent_ready _ Hw) as Hr. apply read_through_ok; [done|apply Hw| |].
  - intros w1 Hw1 Hd1. destruct (stable_coherent _ w1 (load_chain_stable ws) Hw1) as [Hc Hd].
    split; [by apply (stable_same (load_chain_stable ws)); [apply Hw1|..]|]. by rewrite Hd.
  - intros w1 a d Hw1 Hd1 Hv Hd. pose proof (coherent_ready _ Hw1). apply set_coherent; [done| |done].
    intros ws' a' Ek Hu. apply app_inj_l, uuid_String_inj in Ek as <-. apply json_decode_encode in Hd.
    rewrite (stable_same (load_chain_stable ws) w1 w) by done. rewrite Hv. congruence.
Qed.

(** What follows the chain in a resolution reads the database only: the answer
    is a function of the chain's answer, and the cells are those the chain left. *)
Lemma load_from_run get get' slug loc w w' :
  (get w).1 = (get' w').1 -> coherent (get w).2 -> ready (get' w').2 -> data (get w).2 = data (get' w').2 ->
  (load_template_from tpl_store get slug loc w).1 = (load_template_from tpl_store get' slug loc w').1 /\
  coherent (load_template_from tpl_store get slug loc w).2 /\
  data (load_template_from tpl_store get slug loc w).2 = data (get w).2.
Proof.
  intros E Hc Hr Hd. unfold load_template_from.
  match goal with |- (bind _ ?k w).1 = _ /\ _ => set (rest := k) end.
  assert (Hrest : forall c, stable (rest c)) by (unfold rest; stable_tac; apply resolve_locale_stable).
  clearbody rest. unfold bind. destruct (get w) as [ [c|e] w1], (get' w') as [ [c'|e'] w1']; simpl in *; try done.
  - injection E as ->. split; [by apply (stable_same (Hrest c')); [apply Hc|..]|]. by apply stable_coherent.
  - split; [congruence|done].
Qed.

(** C39: the resolver's caches are invisible while the data of the database stay
    as they are and its statements run: for a slug without a colon and a locale
    that is not [_default], a resolution through the chain cache and the template
    cache answers exactly what the database would answer without any cache - the
    same template, the same error - and leaves the caches coherent and the data
    alone, so every later resolution does too; entries may expire, writes may
    fail, cached bytes may be undecodable. (Other slugs and locales can share
    the key of a well-formed query: [resolved_keys_collide].) *)
Theorem TemplateResolver_transparent ws slug loc w :
  coherent w -> wf_query slug loc ->
  (TemplateResolver_Resolve cache ws_store tpl_store ws slug loc w).1 = (fresh_template ws slug loc w).1 /\
  coherent (TemplateResolver_Resolve cache ws_store tpl_store ws slug loc w).2 /\
  data (TemplateResolver_Resolve cache ws_store tpl_store ws slug loc w).2 = data w.
Proof.
  intros Hw Hq. pose proof (coherent_ready _ Hw) as Hr. apply read_through_ok; [done|intros; by eapply Hw| |].
  - intros w1 Hw1 Hd1. destruct (chain_run ws w1 Hw1) as (Hc & Hcoh & Hdata).
    assert (Hs : (load_chain ws_store ws w1).1 = (load_chain ws_store ws w).1)
      by (apply (stable_same (load_chain_stable ws)); [apply Hw1|done|done]).
    rewrite Hs in Hc.
    destruct (load_from_run _ _ slug loc _ _ Hc Hcoh (stable_ready (load_chain_stable ws) w Hr)) as (Hv & Hcells & Hd).
    { rewrite (stable_data (load_chain_stable ws)) by done. congruence. }
    split; [exact Hv|]. split; [exact Hcells|]. unfold load_template. congruence.
  - intros w1 a d Hw1 Hd1 Hv Hd. pose proof (coherent_ready _ Hw1). apply set_coherent; [done|done|].
    intros ws' slug' loc' a' Hq' Ek Hu. apply resolvedTemplateCacheKey_inj in Ek as (<- & <- & <-); [|done..].
    apply json_decode_encode in Hd. rewrite (stable_same (fresh_stable ws slug loc) w1 w) by done. rewrite Hv. congruence.
Qed.
End Transparent.

(** ** Localisation *)

(** The stored localisations of a version, as the resolver sees them. *)
Definition locale_at {W} (tpl_store : TemplateStore.t W) (v : uuid) (l : string) (w : W)
  : option TemplateVersionLocale :=
  match (TemplateStore.GetLocale tpl_store v l w).1 with Ok loc => Some loc | Err _ => None end.

(** The language of a locale: what precedes its first dash. *)
Definition language (l : string) : option string :=
  match Cut "-"%char l with Some (p, _) => if bool_decide (p = "") then None else Some p | None => None end.

(** Localisation never fails and falls back in order: the version's own
    content when no locale or the default one is asked for, else the exact
    locale, else the localisation of its language, else the own content. *)
Theorem resolve_locale_spec {W} (tpl_store : TemplateStore.t W) version locale w :
  (forall v l w1 w2, (TemplateStore.GetLocale tpl_store v l w1).1 = (TemplateStore.GetLocale tpl_store v l w2).1) ->
  (resolve_locale tpl_store version locale w).1 = Ok
    match locale with
    | None => None
    | Some l =>
        if decide (l = ver_DefaultLocale version) then None
        else match locale_at tpl_store (ver_ID version) l w with
             | Some loc => Some loc
             | None => p ← language l; locale_at tpl_store (ver_ID version) p w
             end
    end.
Proof.
  intros Hs. unfold resolve_locale. destruct locale as [l|]; [|done].
  case_bool_decide; case_decide; try done. unfold try at 1, locale_at at 1.
  destruct (TemplateStore.GetLocale tpl_store (ver_ID version) l w) as [[loc|e] w1]; simpl; [done|].
  unfold language. destruct (Cut "-"%char l) as [[p r]|]; simpl; [|done].
  case_bool_decide; simpl; [done|]. unfold try, locale_at. rewrite (Hs _ _ w w1).
  by destruct (TemplateStore.GetLocale tpl_store (ver_ID version) p w1) as [[]].
Qed.

(** ** Invalidation *)

(** The fields of the cache keys, as [split_part] sees them. *)
Lemma split_field1 a b : has_byte ":"%char a = false -> split_part (a +:+ ":" +:+ b) ":"%char 1 = a.
Proof. intros Ha. unfold split_part. by rewrite (proj2 (Cut_Some ":"%char _ a b)). Qed.
Lemma split_field2 a b c :
  has_byte ":"%char a = false -> has_byte ":"%char b = false ->
  split_part (a +:+ ":" +:+ b +:+ ":" +:+ c) ":"%char 2 = b.
Proof.
  intros Ha Hb. cbn [split_part]. rewrite (proj2 (Cut_Some ":"%char _ a (b +:+ ":" +:+ c))) by done.
  by rewrite (proj2 (Cut_Some ":"%char _ b c)).
Qed.

Section Invalidation.
Context `{GoStd} `{!UuidLaws}.

(** The cells a deletion leaves, when its statement reports success. *)
Lemma delete_where_cells wrap p s s' :
  stmt wrap (delete_where p) s = (Ok tt, s') ->
  forall k, pg_cells s' !! k = if p k then None else pg_cells s !! k.
Proof.
  intros (fs & [E|[(m & [=] & _)|(m & [=] & _)]])%stmt_cases k.
  unfold delete_where in E. injection E as ->. unfold pg_cells. simpl. rewrite !lookup_fmap, filter_lookup.
  by destruct (p k).
Qed.

Lemma delete_where_runs wrap p s :
  sys_faults s = [] -> exists s', stmt wrap (delete_where p) s = (Ok tt, s') /\ sys_faults s' = [].
Proof. intros Hf. unfold stmt. rewrite Hf. by eexists. Qed.

Lemma template_key_fields ws slug loc :
  split_part (resolvedTemplateCacheKey ws slug loc) ":"%char 1 = "resolved_template" /\
  split_part (resolvedTemplateCacheKey ws slug loc) ":"%char 2 = uuid_String ws.
Proof.
  unfold resolvedTemplateCacheKey.
  change ("resolved_template:" +:+ ?x) with ("resolved_template" +:+ ":" +:+ x).
  split; [by apply split_field1|]. apply split_field2; [done|apply uuid_String_colon].
Qed.

(** The invalidation of one workspace's templates removes exactly that
    workspace's cells: every resolved template of the workspace, whatever its
    slug and locale, is gone, and no other workspace's template, no chain and no
    adapter is touched. *)
Theorem template_invalidation_exact ws s s' :
  PGCache_DeleteResolvedTemplatesByWorkspace ws s = (Ok tt, s') ->
  (forall slug loc, pg_cells s' !! resolvedTemplateCacheKey ws slug loc = None) /\
  (forall ws' slug loc, ws' <> ws ->
     pg_cells s' !! resolvedTemplateCacheKey ws' slug loc = pg_cells s !! resolvedTemplateCacheKey ws' slug loc) /\
  (forall id, pg_cells s' !! chainCacheKey id = pg_cells s !! chainCacheKey id /\
              pg_cells s' !! adapterCacheKey id = pg_cells s !! adapterCacheKey id).
Proof.
  intros E. pose proof (delete_where_cells _ _ _ _ E) as Hd. repeat split; intros.
  - rewrite Hd. destruct (template_key_fields ws slug loc) as [-> ->]. by rewrite !bool_decide_eq_true_2.
  - rewrite Hd. destruct (template_key_fields ws' slug loc) as [-> ->].
    rewrite (bool_decide_eq_false_2 (uuid_String ws' = _)) by (intros ?%uuid_String_inj; done).
    by rewrite andb_false_r.
  - rewrite Hd. unfold chainCacheKey. change ("chain:" +:+ ?x) with ("chain" +:+ ":" +:+ x).
    by rewrite split_field1.
  - rewrite Hd. unfold adapterCacheKey. change ("adapter:" +:+ ?x) with ("adapter" +:+ ":" +:+ x).
    by rewrite split_field1.
Qed.

(** The global invalidation empties the three families of keys, whatever the
    cache held, when its statements run. *)
Theorem InvalidateGlobal_clears s :
  sys_faults s = [] ->
  let s' := (InvalidateGlobal PGCache s).2 in
  forall id slug loc, pg_cells s' !! chainCacheKey id = None /\ pg_cells s' !! adapterCacheKey id = None /\
    pg_cells s' !! resolvedTemplateCacheKey id slug loc = None.
Proof.
  intros Hf s' id slug loc. subst s'. unfold InvalidateGlobal, InvalidateAllResolvedTemplates, bind, ignore.
  cbn [PGCache cache_DeletePattern cache_ScopeCache DeleteAllResolvedTemplates].
  unfold PGCache_DeletePattern, PGCache_DeleteAllResolvedTemplates.
  destruct (delete_where_runs (quoted "delete pattern" "chain:*") (like (escapeLikePattern "chain:*")) s Hf)
    as (s1 & E1 & Hf1). rewrite E1. cbn [snd].
  destruct (delete_where_runs (quoted "delete pattern" "adapter:*") (like (escapeLikePattern "adapter:*")) s1 Hf1)
    as (s2 & E2 & Hf2). rewrite E2. cbn [snd].
  match goal with |- context [stmt ?w (delete_where ?p) s2] =>
    destruct (delete_where_runs w p s2 Hf2) as (s3 & E3 & _) end.
  rewrite E3. cbn [snd]. rewrite !(delete_where_cells _ _ _ _ E3), !(delete_where_cells _ _ _ _ E2),
    !(delete_where_cells _ _ _ _ E1).
  change "chain:*" with ("chain:" +:+ "*"). change "adapter:*" with ("adapter:" +:+ "*").
  rewrite !like_prefix by done. destruct (template_key_fields id slug loc) as [-> _].
  unfold chainCacheKey, adapterCacheKey. rewrite !HasPrefix_app, (bool_decide_eq_true_2 (_ = _) eq_refl).
  repeat split; by repeat case_match.
Qed.
End Invalidation.

(** ** Witnesses *)

Definition sample_workspace (id : uuid) (system : bool) : Workspace :=
  {| ws_ID := id; ws_LogicalWorkspaceID := id; ws_TenantID := 3; ws_Code := "crm"; ws_Name := "CRM";
     ws_Environment := EnvironmentProd; ws_IsSystem := system; ws_IsActive := true;
     ws_OpenTrackingEnabled := true; ws_DefaultLocale := None; ws_TestRecipientMode := TestRecipientModeReplace;
     ws_TestRecipientAddresses := []; ws_AllowWorkspaceLocalTemplates := true;
     ws_AllowWorkspaceInheritedTemplateForks := true; ws_AllowWorkspaceLocalInjectors := true;
     ws_WorkspacePoliciesInitialized := true; ws_CreatedAt := 0; ws_UpdatedAt := 0; ws_DeletedAt := None |}.

Definition sample_template : Template :=
  {| tpl_ID := 21; tpl_TemplateTypeID := 20; tpl_WorkspaceID := Some 8%N; tpl_IsDisabled := false;
     tpl_IsFork := false; tpl_OriginTemplateID := None; tpl_OwnerScope := ""; tpl_InheritedFromSystem := false;
     tpl_CreatedAt := 0; tpl_UpdatedAt := 0; tpl_DeletedAt := None |}.

Definition sample_version : TemplateVersion :=
  {| ver_ID := 22; ver_TemplateID := 21; ver_VersionNumber := 1; ver_Status := VersionStatusPublished;
     ver_Subject := "Hi"; ver_PreviewText := ""; ver_FromName := "Senda"; ver_ReplyTo := None;
     ver_BodyMJML := "<mjml></mjml>"; ver_DefaultLocale := "en"; ver_EditorData := None; ver_CreatedBy := None;
     ver_PublishedAt := Some 0%Z; ver_ArchivedAt := None; ver_CreatedAt := 0; ver_UpdatedAt := 0 |}.

Definition sample_localization : TemplateVersionLocale :=
  {| loc_ID := 23; loc_TemplateVersionID := 22; loc_Locale := "es"; loc_Subject := Some "Hola";
     loc_PreviewText := None; loc_FromName := None; loc_BodyMJML := None; loc_EditorData := None;
     loc_CreatedAt := 0; loc_UpdatedAt := 0 |}.

(** Workspace 7 of tenant 3, whose system workspace 8 owns one template. *)
Definition sample_ws_store : WorkspaceStore.t Sys := {|
  WorkspaceStore.GetByID id := if bool_decide (id = 7%N) then ret (sample_workspace 7 false) else fail (ESent ErrNotFound);
  WorkspaceStore.GetByTenantAndCode _ _ _ := ret (sample_workspace 7 false);
  WorkspaceStore.GetSystemWorkspace _ _ := ret (sample_workspace 8 true);
  WorkspaceStore.ListByTenant _ _ _ _ := ret ([sample_workspace 7 false; sample_workspace 8 true], "");
|}.

Definition sample_tpl_store : TemplateStore.t Sys := {|
  TemplateStore.GetTypeBySlug slug _ :=
    if bool_decide (slug = "welcome") then ret sample_type else fail (ESent ErrNotFound);
  TemplateStore.ResolveTemplate _ _ := ret sample_template;
  TemplateStore.GetPublishedVersion _ := ret sample_version;
  TemplateStore.GetLocale _ l :=
    if bool_decide (l = "es") then ret sample_localization else fail (ESent ErrNotFound);
|}.

Lemma resolve_locale_spec_witness :
  (resolve_locale sample_tpl_store sample_version (Some "es-CL") empty_sys).1 = Ok (Some sample_localization).
Proof.
  rewrite (resolve_locale_spec sample_tpl_store sample_version (Some "es-CL") empty_sys).
  - vm_compute. reflexivity.
  - intros v l w1 w2. simpl. by destruct (bool_decide _).
Defined.

Lemma template_invalidation_exact_witness :
  let G := ascii_std in
  let s := set_cache (fun _ => {[resolvedTemplateCacheKey 7 "welcome" None := ("x", 5000%Z);
                                 resolvedTemplateCacheKey 70 "welcome" None := ("y", 5000%Z)]}) empty_sys in
  let s' := (PGCache_DeleteResolvedTemplatesByWorkspace 7 s).2 in
  pg_cells s' !! resolvedTemplateCacheKey 7 "welcome" None = None /\
  pg_cells s' !! resolvedTemplateCacheKey 70 "welcome" None = Some "y".
Proof.
  intros G s s'. pose proof ascii_std_uuid as HU.
  destruct (template_invalidation_exact 7 s s' eq_refl) as (H1 & H2 & _).
  split; [apply H1|]. rewrite H2 by discriminate. vm_compute. reflexivity.
Defined.
