(* ===== verification/Templates.v ===== *)
(** * Templates ([adapter/postgres/template_repo.go], [service/template.go], [service/template_type.go])

    The tables of template types, templates, their versions and the locale
    overrides of a version, with their constraints; the repository over them
    and the template services. *)
From stdpp Require Import base gmap strings list sorting.
From Stdlib Require Import ZArith NArith Ascii String Lia.
From S2P Require Import Prelude GoMonad Domain Ports Token.
From S2P Require Import Suppression Postgres Database Directory.

(** The template tables beside those of the directory; of adapters and sender
    identities only the identifiers the foreign keys refer to. *)
Record Library := mkLibrary {
  tp_dir : Tables;
  tp_adapters : gset uuid;
  tp_identities : gset uuid;
  tp_types : gmap uuid TemplateType;
  tp_templates : gmap uuid Template;
  tp_versions : gmap uuid TemplateVersion;
  tp_locales : gmap uuid TemplateVersionLocale;
}.

Abbreviation Tpl := (DB Library).

Definition set_types f t :=
  mkLibrary (tp_dir t) (tp_adapters t) (tp_identities t) (f (tp_types t)) (tp_templates t) (tp_versions t) (tp_locales t).
Definition set_templates f t :=
  mkLibrary (tp_dir t) (tp_adapters t) (tp_identities t) (tp_types t) (f (tp_templates t)) (tp_versions t) (tp_locales t).
Definition set_versions f t :=
  mkLibrary (tp_dir t) (tp_adapters t) (tp_identities t) (tp_types t) (tp_templates t) (f (tp_versions t)) (tp_locales t).
Definition set_locales f t :=
  mkLibrary (tp_dir t) (tp_adapters t) (tp_identities t) (tp_types t) (tp_templates t) (tp_versions t) (f (tp_locales t)).
Definition set_dir d t :=
  mkLibrary d (tp_adapters t) (tp_identities t) (tp_types t) (tp_templates t) (tp_versions t) (tp_locales t).

(** A nullable foreign key. *)
Definition refers {A} (m : gmap uuid A) (o : option uuid) : bool :=
  match o with Some id => bool_decide (is_Some (m !! id)) | None => true end.
Definition refers_in (s : gset uuid) (o : option uuid) : bool :=
  match o with Some id => bool_decide (id ∈ s) | None => true end.

(** ** The order of a resolution chain

    [ORDER BY CASE WHEN workspace_id IS NULL THEN cardinality(scopes) + 1 ELSE
    array_position(scopes, workspace_id) END, created_at DESC, id DESC LIMIT 1]. *)
Fixpoint splitChain (chain : list (option uuid)) : list uuid * bool :=
  match chain with
  | [] => ([], false)
  | None :: r => let '(scopes, _) := splitChain r in (scopes, true)
  | Some id :: r => let '(scopes, includeGlobal) := splitChain r in (id :: scopes, includeGlobal)
  end.

Fixpoint array_position (scopes : list uuid) (id : uuid) : nat :=
  match scopes with
  | [] => 1
  | x :: r => if bool_decide (x = id) then 1 else S (array_position r id)
  end.

Definition scope_rank (scopes : list uuid) (ws : option uuid) : nat :=
  match ws with Some id => array_position scopes id | None => S (List.length scopes) end.

Definition in_chain (scopes : list uuid) (includeGlobal : bool) (ws : option uuid) : bool :=
  match ws with Some id => bool_decide (id ∈ scopes) | None => includeGlobal end.

(** The columns the order reads. *)
Record Ranked := mkRanked { rk_rank : nat; rk_created : gotime; rk_id : uuid }.

Definition ranked_before (a b : Ranked) : bool :=
  (rk_rank a <? rk_rank b)%nat
  || ((rk_rank a =? rk_rank b)%nat
      && ((rk_created b <? rk_created a)%Z || ((rk_created a =? rk_created b)%Z && (rk_id b <=? rk_id a)%N))).

(** The first row of that order. *)
Fixpoint nearest {A} (key : A -> Ranked) (l : list A) : option A :=
  match l with
  | [] => None
  | a :: r => match nearest key r with
              | Some b => Some (if ranked_before (key a) (key b) then a else b)
              | None => Some a
              end
  end.

Definition type_key (scopes : list uuid) (tt : TemplateType) : Ranked :=
  mkRanked (scope_rank scopes (tt_WorkspaceID tt)) (tt_CreatedAt tt) (tt_ID tt).
Definition template_key (scopes : list uuid) (t : Template) : Ranked :=
  mkRanked (scope_rank scopes (tpl_WorkspaceID t)) (tpl_CreatedAt t) (tpl_ID t).

Definition scan_row {A} (missing : error) (o : option A) : Res A := match o with Some a => Ok a | None => Err missing end.

(** ** Template types *)

Section TypeRepo.
Context `{GoStd} `{Codec}.

Definition type_live (tt : TemplateType) : bool := bool_decide (tt_DeletedAt tt = None).
Definition type_not_found : error := NotFound "template type not found".

(** [coalesceJSON]: the column is not nullable. *)
Definition coalesceJSON (m : option fields_map) : option fields_map := Some (default ∅ m).

Definition type_row (now : gotime) (tt : TemplateType) : TemplateType :=
  {| tt_ID := tt_ID tt; tt_WorkspaceID := tt_WorkspaceID tt; tt_Slug := tt_Slug tt; tt_Name := tt_Name tt;
     tt_Description := tt_Description tt; tt_AdapterID := tt_AdapterID tt; tt_SenderIdentityID := tt_SenderIdentityID tt;
     tt_VariableSchema := coalesceJSON (tt_VariableSchema tt); tt_TestRecipientMode := tt_TestRecipientMode tt;
     tt_TestRecipientAddresses := NormalizeRecipientAddresses (tt_TestRecipientAddresses tt);
     tt_OwnerScope := ""; tt_InheritedFromSystem := false; tt_IsBulk := tt_IsBulk tt;
     tt_CreatedAt := now; tt_UpdatedAt := now; tt_DeletedAt := None |}.

(** What the repository leaves in its argument. *)
Definition with_type_times (created updated : gotime) (tt : TemplateType) : TemplateType :=
  {| tt_ID := tt_ID tt; tt_WorkspaceID := tt_WorkspaceID tt; tt_Slug := tt_Slug tt; tt_Name := tt_Name tt;
     tt_Description := tt_Description tt; tt_AdapterID := tt_AdapterID tt; tt_SenderIdentityID := tt_SenderIdentityID tt;
     tt_VariableSchema := tt_VariableSchema tt; tt_TestRecipientMode := tt_TestRecipientMode tt;
     tt_TestRecipientAddresses := tt_TestRecipientAddresses tt;
     tt_OwnerScope := tt_OwnerScope tt; tt_InheritedFromSystem := tt_InheritedFromSystem tt; tt_IsBulk := tt_IsBulk tt;
     tt_CreatedAt := created; tt_UpdatedAt := updated; tt_DeletedAt := tt_DeletedAt tt |}.

(** [UNIQUE NULLS NOT DISTINCT (slug, workspace_id)]: deleted rows count. *)
Definition same_slug (a b : TemplateType) : bool :=
  bool_decide (tt_Slug a = tt_Slug b) && bool_decide (tt_WorkspaceID a = tt_WorkspaceID b).
Definition type_mode_check (tt : TemplateType) : bool :=
  match tt_TestRecipientMode tt with Some m => TestRecipientMode_Valid m | None => true end.

(** The constraints of a row that is written, against the other rows. *)
Definition type_violation (row : TemplateType) (others : gmap uuid TemplateType) (t : Library) : option PgError :=
  violation [(type_mode_check row, check_failed "template_types" "template_types_test_recipient_mode_check");
             (bool_decide (others !! tt_ID row = None), duplicate "template_types_pkey");
             (bool_decide (rows (same_slug row) others = []), duplicate "template_types_unique_per_scope");
             (refers (tb_workspaces (tp_dir t)) (tt_WorkspaceID row), dangling "workspaces");
             (refers_in (tp_adapters t) (tt_AdapterID row), dangling "adapters");
             (refers_in (tp_identities t) (tt_SenderIdentityID row), dangling "adapter_identities")].

Definition CreateType (tt : TemplateType) : M Tpl TemplateType :=
  write_stmt "inserting template type" (fun now t =>
    match type_violation (type_row now tt) (tp_types t) t with
    | Some e => inl e
    | None => inr (with_type_times now now tt, set_types <[tt_ID tt := type_row now tt]> t)
    end).

Definition live_type (id : uuid) (t : Library) : option TemplateType :=
  match tp_types t !! id with Some r => if type_live r then Some r else None | None => None end.

(** The columns [UpdateType] writes; the scope of a type never changes. *)
Definition with_type (now : gotime) (tt r : TemplateType) : TemplateType :=
  {| tt_ID := tt_ID r; tt_WorkspaceID := tt_WorkspaceID r; tt_Slug := tt_Slug tt; tt_Name := tt_Name tt;
     tt_Description := tt_Description tt; tt_AdapterID := tt_AdapterID tt; tt_SenderIdentityID := tt_SenderIdentityID tt;
     tt_VariableSchema := coalesceJSON (tt_VariableSchema tt); tt_TestRecipientMode := tt_TestRecipientMode tt;
     tt_TestRecipientAddresses := NormalizeRecipientAddresses (tt_TestRecipientAddresses tt);
     tt_OwnerScope := ""; tt_InheritedFromSystem := false; tt_IsBulk := tt_IsBulk tt;
     tt_CreatedAt := tt_CreatedAt r; tt_UpdatedAt := now; tt_DeletedAt := tt_DeletedAt r |}.

(** No row is the driver's own error here, which is not classified. *)
Definition UpdateType (tt : TemplateType) : M Tpl TemplateType :=
  write_stmt "updating template type" (fun now t =>
    match live_type (tt_ID tt) t with
    | None => inl (PgOther "no rows in result set")
    | Some r =>
        match type_violation (with_type now tt r) (delete (tt_ID tt) (tp_types t)) t with
        | Some e => inl e
        | None => inr (with_type_times (tt_CreatedAt tt) now tt, set_types <[tt_ID tt := with_type now tt r]> t)
        end
    end).

Definition with_type_deleted (now : gotime) (r : TemplateType) : TemplateType :=
  {| tt_ID := tt_ID r; tt_WorkspaceID := tt_WorkspaceID r; tt_Slug := tt_Slug r; tt_Name := tt_Name r;
     tt_Description := tt_Description r; tt_AdapterID := tt_AdapterID r; tt_SenderIdentityID := tt_SenderIdentityID r;
     tt_VariableSchema := tt_VariableSchema r; tt_TestRecipientMode := tt_TestRecipientMode r;
     tt_TestRecipientAddresses := tt_TestRecipientAddresses r;
     tt_OwnerScope := tt_OwnerScope r; tt_InheritedFromSystem := tt_InheritedFromSystem r; tt_IsBulk := tt_IsBulk r;
     tt_CreatedAt := tt_CreatedAt r; tt_UpdatedAt := tt_UpdatedAt r; tt_DeletedAt := Some now |}.

Definition SoftDeleteType (id : uuid) : M Tpl unit :=
  update_stmt "soft-deleting template type" (NotFound ("template type " +:+ uuid_String id +:+ " not found"))
    (live_type id) (fun now r => set_types <[id := with_type_deleted now r]>).

Definition TemplateRepo_GetTypeBySlug (slug : string) (chain : list (option uuid)) : M Tpl TemplateType :=
  let '(scopes, includeGlobal) := splitChain chain in
  query (wrapping "scanning template type") (fun t =>
    scan_row type_not_found (nearest (type_key scopes)
      (rows (fun r => bool_decide (tt_Slug r = slug) && in_chain scopes includeGlobal (tt_WorkspaceID r) && type_live r)
            (tp_types t)))).

Definition FindTypeBySlugInScope (slug : string) (wsID : option uuid) : M Tpl TemplateType :=
  query (wrapping "scanning template type") (fun t =>
    first_row type_not_found
      (rows (fun r => bool_decide (tt_Slug r = slug) && bool_decide (tt_WorkspaceID r = wsID) && type_live r) (tp_types t))).

Definition GetTypeByID (id : uuid) : M Tpl TemplateType :=
  query (wrapping "scanning template type") (fun t => scan_row type_not_found (live_type id t)).

Definition ListTypes (wsID : option uuid) (opts : ListOptions) : M Tpl (list TemplateType * string) :=
  match ApplyPagination opts with
  | Err e => fail e
  | Ok (limit, afterID) =>
      query (wrapping "listing template types") (fun t =>
        Ok (page tt_ID (rows (fun r => bool_decide (tt_WorkspaceID r = wsID) && type_live r) (tp_types t)) limit afterID))
  end.
End TypeRepo.

(** ** Templates *)

Section TemplateRepo.
Context `{GoStd} `{Codec}.

Definition template_live (t : Template) : bool := bool_decide (tpl_DeletedAt t = None).
Definition template_not_found : error := NotFound "template not found".

Definition template_row (now : gotime) (tpl : Template) : Template :=
  {| tpl_ID := tpl_ID tpl; tpl_TemplateTypeID := tpl_TemplateTypeID tpl; tpl_WorkspaceID := tpl_WorkspaceID tpl;
     tpl_IsDisabled := tpl_IsDisabled tpl; tpl_IsFork := tpl_IsFork tpl; tpl_OriginTemplateID := tpl_OriginTemplateID tpl;
     tpl_OwnerScope := ""; tpl_InheritedFromSystem := false;
     tpl_CreatedAt := now; tpl_UpdatedAt := now; tpl_DeletedAt := None |}.

Definition with_template_times (now : gotime) (tpl : Template) : Template :=
  {| tpl_ID := tpl_ID tpl; tpl_TemplateTypeID := tpl_TemplateTypeID tpl; tpl_WorkspaceID := tpl_WorkspaceID tpl;
     tpl_IsDisabled := tpl_IsDisabled tpl; tpl_IsFork := tpl_IsFork tpl; tpl_OriginTemplateID := tpl_OriginTemplateID tpl;
     tpl_OwnerScope := tpl_OwnerScope tpl; tpl_InheritedFromSystem := tpl_InheritedFromSystem tpl;
     tpl_CreatedAt := now; tpl_UpdatedAt := now; tpl_DeletedAt := tpl_DeletedAt tpl |}.

(** [UNIQUE NULLS NOT DISTINCT (template_type_id, workspace_id)]: deleted rows
    count. *)
Definition same_slot (a b : Template) : bool :=
  bool_decide (tpl_TemplateTypeID a = tpl_TemplateTypeID b) && bool_decide (tpl_WorkspaceID a = tpl_WorkspaceID b).

Definition insert_template (now : gotime) (tpl : Template) (t : Library) : PgError + (Template * Library) :=
  let row := template_row now tpl in
  match violation [(bool_decide (tp_templates t !! tpl_ID row = None), duplicate "templates_pkey");
                   (bool_decide (rows (same_slot row) (tp_templates t) = []), duplicate "templates_unique_type_per_scope");
                   (bool_decide (is_Some (tp_types t !! tpl_TemplateTypeID row)), dangling "template_types");
                   (refers (tb_workspaces (tp_dir t)) (tpl_WorkspaceID row), dangling "workspaces");
                   (refers (tp_templates t) (tpl_OriginTemplateID row), dangling "templates")] with
  | Some e => inl e
  | None => inr (with_template_times now tpl, set_templates <[tpl_ID tpl := row]> t)
  end.

Definition TemplateRepo_CreateTemplate (tpl : Template) : M Tpl Template :=
  write_stmt "inserting template" (fun now => insert_template now tpl).

Definition live_template (id : uuid) (t : Library) : option Template :=
  match tp_templates t !! id with Some r => if template_live r then Some r else None | None => None end.

Definition GetTemplateByID (id : uuid) : M Tpl Template :=
  query (wrapping "scanning template") (fun t => scan_row template_not_found (live_template id t)).

Definition GetByTypeAndScope (typeID : uuid) (wsID : option uuid) : M Tpl Template :=
  query (wrapping "scanning template") (fun t =>
    first_row template_not_found
      (rows (fun r => bool_decide (tpl_TemplateTypeID r = typeID) && bool_decide (tpl_WorkspaceID r = wsID)
                      && template_live r) (tp_templates t))).

Definition TemplateRepo_ListByType (typeID : uuid) (wsID : option uuid) (opts : ListOptions)
  : M Tpl (list Template * string) :=
  match ApplyPagination opts with
  | Err e => fail e
  | Ok (limit, afterID) =>
      query (wrapping "listing templates by type") (fun t =>
        Ok (page tpl_ID (rows (fun r => bool_decide (tpl_TemplateTypeID r = typeID) && bool_decide (tpl_WorkspaceID r = wsID)
                                        && template_live r) (tp_templates t)) limit afterID))
  end.

Definition TemplateRepo_ResolveTemplate (typeID : uuid) (chain : list (option uuid)) : M Tpl Template :=
  let '(scopes, includeGlobal) := splitChain chain in
  query (wrapping "scanning template") (fun t =>
    scan_row template_not_found (nearest (template_key scopes)
      (rows (fun r => bool_decide (tpl_TemplateTypeID r = typeID) && in_chain scopes includeGlobal (tpl_WorkspaceID r)
                      && template_live r) (tp_templates t)))).

Definition with_disabled (now : gotime) (disabled : bool) (r : Template) : Template :=
  {| tpl_ID := tpl_ID r; tpl_TemplateTypeID := tpl_TemplateTypeID r; tpl_WorkspaceID := tpl_WorkspaceID r;
     tpl_IsDisabled := disabled; tpl_IsFork := tpl_IsFork r; tpl_OriginTemplateID := tpl_OriginTemplateID r;
     tpl_OwnerScope := tpl_OwnerScope r; tpl_InheritedFromSystem := tpl_InheritedFromSystem r;
     tpl_CreatedAt := tpl_CreatedAt r; tpl_UpdatedAt := now; tpl_DeletedAt := tpl_DeletedAt r |}.
Definition with_template_deleted (now : gotime) (r : Template) : Template :=
  {| tpl_ID := tpl_ID r; tpl_TemplateTypeID := tpl_TemplateTypeID r; tpl_WorkspaceID := tpl_WorkspaceID r;
     tpl_IsDisabled := tpl_IsDisabled r; tpl_IsFork := tpl_IsFork r; tpl_OriginTemplateID := tpl_OriginTemplateID r;
     tpl_OwnerScope := tpl_OwnerScope r; tpl_InheritedFromSystem := tpl_InheritedFromSystem r;
     tpl_CreatedAt := tpl_CreatedAt r; tpl_UpdatedAt := tpl_UpdatedAt r; tpl_DeletedAt := Some now |}.

Definition owned_template (id : uuid) (wsID : option uuid) (t : Library) : option Template :=
  match live_template id t with
  | Some r => if bool_decide (tpl_WorkspaceID r = wsID) then Some r else None
  | None => None
  end.

Definition SetDisabled (templateID : uuid) (wsID : option uuid) (disabled : bool) : M Tpl unit :=
  update_stmt "updating template disabled state"
    (NotFound ("template " +:+ uuid_String templateID +:+ " not found in scope"))
    (owned_template templateID wsID) (fun now r => set_templates <[templateID := with_disabled now disabled r]>).

Definition SoftDeleteTemplate (templateID : uuid) : M Tpl unit :=
  update_stmt "soft-deleting template" (NotFound ("template " +:+ uuid_String templateID +:+ " not found"))
    (live_template templateID) (fun now r => set_templates <[templateID := with_template_deleted now r]>).
End TemplateRepo.

(** ** Versions *)

(** What a version says, beside its place in the template. *)
Record Content := mkContent {
  ct_Subject : string;
  ct_PreviewText : string;
  ct_FromName : string;
  ct_ReplyTo : option string;
  ct_BodyMJML : string;
  ct_DefaultLocale : string;
  ct_EditorData : option fields_map;
}.

Definition content (v : TemplateVersion) : Content :=
  mkContent (ver_Subject v) (ver_PreviewText v) (ver_FromName v) (ver_ReplyTo v) (ver_BodyMJML v)
    (ver_DefaultLocale v) (ver_EditorData v).

(** A row of the table. *)
Definition mk_version (id templateID : uuid) (number : Z) (status : VersionStatus) (c : Content)
    (createdBy : option uuid) (published archived : option gotime) (created updated : gotime) : TemplateVersion :=
  {| ver_ID := id; ver_TemplateID := templateID; ver_VersionNumber := number; ver_Status := status;
     ver_Subject := ct_Subject c; ver_PreviewText := ct_PreviewText c; ver_FromName := ct_FromName c;
     ver_ReplyTo := ct_ReplyTo c; ver_BodyMJML := ct_BodyMJML c; ver_DefaultLocale := ct_DefaultLocale c;
     ver_EditorData := ct_EditorData c; ver_CreatedBy := createdBy; ver_PublishedAt := published;
     ver_ArchivedAt := archived; ver_CreatedAt := created; ver_UpdatedAt := updated |}.

Section VersionRepo.
Context `{GoStd}.

Definition version_not_found : error := NotFound "template version not found".
Definition published (v : TemplateVersion) : bool := bool_decide (ver_Status v = VersionStatusPublished).
Definition is_draft (v : TemplateVersion) : bool := bool_decide (ver_Status v = VersionStatusDraft).
Definition of_template (id : uuid) (v : TemplateVersion) : bool := bool_decide (ver_TemplateID v = id).

(** [tv_version_unique] and [tv_one_published]. *)
Definition same_number (a b : TemplateVersion) : bool :=
  bool_decide (ver_TemplateID a = ver_TemplateID b) && bool_decide (ver_VersionNumber a = ver_VersionNumber b).
Definition both_published (a b : TemplateVersion) : bool :=
  published a && published b && bool_decide (ver_TemplateID a = ver_TemplateID b).

Definition insert_version (row : TemplateVersion) (t : Library) : PgError + (unit * Library) :=
  match violation [(bool_decide (tp_versions t !! ver_ID row = None), duplicate "template_versions_pkey");
                   (bool_decide (rows (same_number row) (tp_versions t) = []), duplicate "tv_version_unique");
                   (bool_decide (rows (both_published row) (tp_versions t) = []),
                    PgOther "conflicting key value violates exclusion constraint tv_one_published");
                   (bool_decide (is_Some (tp_templates t !! ver_TemplateID row)), dangling "templates");
                   (refers (tb_members (tp_dir t)) (ver_CreatedBy row), dangling "members")] with
  | Some e => inl e
  | None => inr (tt, set_versions <[ver_ID row := row]> t)
  end.

(** [SELECT id FROM templates WHERE id = @template_id FOR UPDATE]: a deleted
    template can be locked. *)
Definition lock_template (msg : string) (templateID : uuid) : M Tpl unit :=
  query (wrapping msg) (fun t =>
    if bool_decide (is_Some (tp_templates t !! templateID)) then Ok tt
    else Err (NotFound ("template " +:+ uuid_String templateID +:+ " not found"))).
Definition lockTemplateForVersionMutation (templateID : uuid) (operation : string) : M Tpl unit :=
  lock_template ("locking template for version " +:+ operation) templateID.

(** [SELECT COALESCE(MAX(version_number), 0) + 1], an [INT]. *)
Definition max_number (templateID : uuid) (t : Library) : Z :=
  match ver_VersionNumber <$> rows (of_template templateID) (tp_versions t) with
  | [] => 0
  | n :: r => foldr Z.max n r
  end.

Definition next_number (msg : string) (templateID : uuid) : M Tpl Z :=
  query (wrapping msg) (fun t =>
    let n := (max_number templateID t + 1)%Z in
    if (n <? 2 ^ 31)%Z then Ok n else Err (wrapping msg (EMsg "integer out of range"))).
Definition nextTemplateVersionNumber (templateID : uuid) : M Tpl Z :=
  next_number "calculating cloned version number" templateID.

(** The row both insertions write: no publication and no archival yet. *)
Definition fresh_version (now : gotime) (number : Z) (v : TemplateVersion) : TemplateVersion :=
  mk_version (ver_ID v) (ver_TemplateID v) number (ver_Status v) (content v) (ver_CreatedBy v) None None now now.

Definition TemplateRepo_CreateVersion (ver : TemplateVersion) : M Tpl TemplateVersion :=
  in_tx "beginning transaction" "committing transaction"
    (lock_template "locking template for version creation" (ver_TemplateID ver) ;;;
     let! versionNumber := next_number "calculating version number" (ver_TemplateID ver) in
     write_stmt "inserting template version" (fun now t =>
       match insert_version (fresh_version now versionNumber ver) t with
       | inl e => inl e
       | inr (_, t') =>
           inr (mk_version (ver_ID ver) (ver_TemplateID ver) versionNumber (ver_Status ver) (content ver)
                  (ver_CreatedBy ver) (ver_PublishedAt ver) (ver_ArchivedAt ver) now now, t')
       end)).

Definition GetVersionByID (versionID : uuid) : M Tpl TemplateVersion :=
  query (wrapping "scanning template version") (fun t => scan_row version_not_found (tp_versions t !! versionID)).

Definition draft_version (id : uuid) (t : Library) : option TemplateVersion :=
  match tp_versions t !! id with Some v => if is_draft v then Some v else None | None => None end.

(** The columns [UpdateVersion] writes. *)
Definition with_content (now : gotime) (c : Content) (v : TemplateVersion) : TemplateVersion :=
  mk_version (ver_ID v) (ver_TemplateID v) (ver_VersionNumber v) (ver_Status v) c (ver_CreatedBy v)
    (ver_PublishedAt v) (ver_ArchivedAt v) (ver_CreatedAt v) now.

Definition TemplateRepo_UpdateVersion (ver : TemplateVersion) : M Tpl unit :=
  update_stmt "updating template version" (NotFound "template version not found or not in draft status")
    (draft_version (ver_ID ver)) (fun now v => set_versions <[ver_ID ver := with_content now (content ver) v]>).

Definition TemplateRepo_GetPublishedVersion (templateID : uuid) : M Tpl TemplateVersion :=
  query (wrapping "scanning template version") (fun t =>
    first_row version_not_found (rows (fun v => of_template templateID v && published v) (tp_versions t))).

(** *** Publication *)

Definition archived (now : gotime) (v : TemplateVersion) : TemplateVersion :=
  mk_version (ver_ID v) (ver_TemplateID v) (ver_VersionNumber v) VersionStatusArchived (content v) (ver_CreatedBy v)
    (ver_PublishedAt v) (Some now) (ver_CreatedAt v) now.
Definition published_at (now : gotime) (v : TemplateVersion) : TemplateVersion :=
  mk_version (ver_ID v) (ver_TemplateID v) (ver_VersionNumber v) VersionStatusPublished (content v) (ver_CreatedBy v)
    (Some now) (ver_ArchivedAt v) (ver_CreatedAt v) now.

(** [UPDATE template_versions SET status = 'archived' ... WHERE template_id =
    @template_id AND status = 'published']. *)
Definition archive_published (templateID : uuid) (now : gotime) (m : gmap uuid TemplateVersion)
  : gmap uuid TemplateVersion :=
  (fun v => if of_template templateID v && published v then archived now v else v) <$> m.

(** [UPDATE ... SET status = 'published' WHERE id = @id AND status = 'draft']:
    the rows affected, under [tv_one_published]. *)
Definition publish_draft (versionID : uuid) (now : gotime) (t : Library) : PgError + (nat * Library) :=
  match draft_version versionID t with
  | None => inr (0, t)
  | Some v =>
      if bool_decide (rows (both_published (published_at now v)) (tp_versions t) = [])
      then inr (1, set_versions <[versionID := published_at now v]> t)
      else inl (PgOther "conflicting key value violates exclusion constraint tv_one_published")
  end.

Definition exec_unclassified {A} (msg : string) (f : gotime -> Library -> PgError + (A * Library)) : M Tpl A :=
  exec (wrapping msg) (fun now t =>
    match f now t with
    | inl (PgOther m) => (Err (wrapping msg (EMsg m)), t)
    | inl (UniqueViolation m) | inl (ForeignKeyViolation m) | inl (NotNullViolation m) | inl (CheckViolation _ m) =>
        (Err (wrapping msg (EMsg m)), t)
    | inr (a, t') => (Ok a, t')
    end).

Definition Publish (versionID : uuid) : M Tpl unit :=
  in_tx "beginning transaction" "committing publish"
    (let! templateID := query (wrapping "looking up template version") (fun t =>
       match tp_versions t !! versionID with
       | Some v => Ok (ver_TemplateID v)
       | None => Err (NotFound ("template version " +:+ uuid_String versionID +:+ " not found"))
       end) in
     lock_template "lock template" templateID ;;;
     exec (wrapping "archiving previous version") (fun now t => (Ok tt, set_versions (archive_published templateID now) t)) ;;;
     let! affected := exec_unclassified "publishing version" (publish_draft versionID) in
     if bool_decide (affected = 0)
     then fail (Conflict ("version " +:+ uuid_String versionID +:+ " is not in draft status"))
     else ret tt).

(** *** Listings *)

Definition number_after (a b : TemplateVersion) : Prop := (ver_VersionNumber b <= ver_VersionNumber a)%Z.
#[local] Instance number_after_dec : RelDecision number_after.
Proof. intros a b. unfold number_after. apply _. Defined.
Definition number_before (a b : TemplateVersion) : Prop := (ver_VersionNumber a <= ver_VersionNumber b)%Z.
#[local] Instance number_before_dec : RelDecision number_before.
Proof. intros a b. unfold number_before. apply _. Defined.

Definition versions_of (templateID : uuid) (t : Library) : list TemplateVersion :=
  merge_sort number_after (rows (of_template templateID) (tp_versions t)).

Definition fork_versions_of (templateID : uuid) (t : Library) : list TemplateVersion :=
  merge_sort number_before (rows (of_template templateID) (tp_versions t)).

Definition TemplateRepo_ListVersions (templateID : uuid) : M Tpl (list TemplateVersion) :=
  query (wrapping "listing template versions") (fun t => Ok (versions_of templateID t)).

Definition GetLatestVersion (templateID : uuid) : M Tpl TemplateVersion :=
  query (wrapping "scanning template version") (fun t => first_row version_not_found (versions_of templateID t)).
End VersionRepo.

(** ** Locale overrides *)

Section LocaleRepo.
Context `{GoStd}.

Definition locale_not_found : error := NotFound "template version locale not found".
Definition of_version (id : uuid) (l : TemplateVersionLocale) : bool := bool_decide (loc_TemplateVersionID l = id).
Definition at_locale (versionID : uuid) (locale : string) (l : TemplateVersionLocale) : bool :=
  of_version versionID l && bool_decide (loc_Locale l = locale).

(** The override [src] as a new row of a version. *)
Definition copy_locale (id versionID : uuid) (now : gotime) (src : TemplateVersionLocale) : TemplateVersionLocale :=
  {| loc_ID := id; loc_TemplateVersionID := versionID; loc_Locale := loc_Locale src; loc_Subject := loc_Subject src;
     loc_PreviewText := loc_PreviewText src; loc_FromName := loc_FromName src; loc_BodyMJML := loc_BodyMJML src;
     loc_EditorData := loc_EditorData src; loc_CreatedAt := now; loc_UpdatedAt := now |}.

Definition insert_locale (row : TemplateVersionLocale) (t : Library) : PgError + (unit * Library) :=
  match violation [(bool_decide (tp_locales t !! loc_ID row = None), duplicate "template_version_locales_pkey");
                   (bool_decide (rows (at_locale (loc_TemplateVersionID row) (loc_Locale row)) (tp_locales t) = []),
                    duplicate "tvl_unique");
                   (bool_decide (is_Some (tp_versions t !! loc_TemplateVersionID row)), dangling "template_versions")] with
  | Some e => inl e
  | None => inr (tt, set_locales <[loc_ID row := row]> t)
  end.

(** [DO UPDATE SET ...]: the override of [new] on the row [old]. *)
Definition overwrite_locale (now : gotime) (new old : TemplateVersionLocale) : TemplateVersionLocale :=
  {| loc_ID := loc_ID old; loc_TemplateVersionID := loc_TemplateVersionID old; loc_Locale := loc_Locale old;
     loc_Subject := loc_Subject new; loc_PreviewText := loc_PreviewText new; loc_FromName := loc_FromName new;
     loc_BodyMJML := loc_BodyMJML new; loc_EditorData := loc_EditorData new;
     loc_CreatedAt := loc_CreatedAt old; loc_UpdatedAt := now |}.

(** The argument with the returned columns. *)
Definition with_locale_row (r l : TemplateVersionLocale) : TemplateVersionLocale :=
  {| loc_ID := loc_ID r; loc_TemplateVersionID := loc_TemplateVersionID l; loc_Locale := loc_Locale l;
     loc_Subject := loc_Subject l; loc_PreviewText := loc_PreviewText l; loc_FromName := loc_FromName l;
     loc_BodyMJML := loc_BodyMJML l; loc_EditorData := loc_EditorData l;
     loc_CreatedAt := loc_CreatedAt r; loc_UpdatedAt := loc_UpdatedAt r |}.

(** [INSERT ... ON CONFLICT ON CONSTRAINT tvl_unique DO UPDATE]. *)
Definition upsert_locale (l : TemplateVersionLocale) (now : gotime) (t : Library)
  : PgError + (TemplateVersionLocale * Library) :=
  match rows (at_locale (loc_TemplateVersionID l) (loc_Locale l)) (tp_locales t) with
  | old :: _ =>
      let row := overwrite_locale now l old in
      inr (with_locale_row row l, set_locales <[loc_ID old := row]> t)
  | [] =>
      let row := copy_locale (loc_ID l) (loc_TemplateVersionID l) now l in
      match insert_locale row t with
      | inl e => inl e
      | inr (_, t') => inr (with_locale_row row l, t')
      end
  end.

(** A violation is not classified here. *)
Definition TemplateRepo_SetLocale (l : TemplateVersionLocale) : M Tpl TemplateVersionLocale :=
  exec_unclassified "upserting template version locale" (upsert_locale l).

Definition TemplateRepo_GetLocale (versionID : uuid) (locale : string) : M Tpl TemplateVersionLocale :=
  query (wrapping "scanning template version locale") (fun t =>
    first_row locale_not_found (rows (at_locale versionID locale) (tp_locales t))).

(** [ORDER BY created_at ASC]. *)
Definition locale_before (a b : TemplateVersionLocale) : Prop := (loc_CreatedAt a <= loc_CreatedAt b)%Z.
#[local] Instance locale_before_dec : RelDecision locale_before.
Proof. intros a b. unfold locale_before. apply _. Defined.

Definition locales_of (versionID : uuid) (t : Library) : list TemplateVersionLocale :=
  merge_sort locale_before (rows (of_version versionID) (tp_locales t)).

Definition TemplateRepo_ListLocales (versionID : uuid) : M Tpl (list TemplateVersionLocale) :=
  query (wrapping "listing template version locales") (fun t => Ok (locales_of versionID t)).

Definition delete_locales (p : TemplateVersionLocale -> bool) (m : gmap uuid TemplateVersionLocale)
  : gmap uuid TemplateVersionLocale := foldr (fun l => delete (loc_ID l)) m (rows p m).

Definition TemplateRepo_DeleteLocale (versionID : uuid) (locale : string) : M Tpl unit :=
  exec (wrapping "deleting template version locale") (fun _ t =>
    if bool_decide (rows (at_locale versionID locale) (tp_locales t) = []) then (Err (NotFound "template locale not found"), t)
    else (Ok tt, set_locales (delete_locales (at_locale versionID locale)) t)).

(** The locales of a version go with it ([ON DELETE CASCADE]). *)
Definition DeleteDraftVersion (versionID : uuid) : M Tpl unit :=
  update_stmt "deleting draft version" (NotFound ("draft version " +:+ uuid_String versionID +:+ " not found"))
    (draft_version versionID)
    (fun _ _ t => set_locales (delete_locales (of_version versionID)) (set_versions (delete versionID) t)).
End LocaleRepo.

(** ** Copies *)

(** [for k, v := range m]: the order is the runtime's. *)
Class MapRange := { map_range : gmap uuid uuid -> list (uuid * uuid) }.
Class MapRangeLaws `{MapRange} : Prop := { map_range_perm m : map_range m ≡ₚ map_to_list m }.

Definition coalesceUUID (preferred fallback : option uuid) : option uuid :=
  match preferred with Some id => Some id | None => fallback end.

Section CopyRepo.
Context `{GoStd}.

(** *** Cloning a version *)

Definition loadTemplateVersionForClone (templateID sourceVersionID : uuid) : M Tpl TemplateVersion :=
  query (wrapping "scanning template version") (fun t =>
    match tp_versions t !! sourceVersionID with
    | Some v => if of_template templateID v then Ok v else Err version_not_found
    | None => Err version_not_found
    end).

Definition listTemplateVersionLocalesForClone (sourceVersionID : uuid) : M Tpl (list TemplateVersionLocale) :=
  query (wrapping "listing source locales for clone") (fun t => Ok (locales_of sourceVersionID t)).

Definition insertClonedVersion (cloned : TemplateVersion) : M Tpl TemplateVersion :=
  let! versionNumber := nextTemplateVersionNumber (ver_TemplateID cloned) in
  write_stmt "inserting cloned template version" (fun now t =>
    let row := fresh_version now versionNumber cloned in
    match insert_version row t with inl e => inl e | inr (_, t') => inr (row, t') end).

(** One copied override, under a new identifier. *)
Definition insert_copied_locale (msg : string) (versionID : uuid) (l : TemplateVersionLocale) : M Tpl unit :=
  let! id := NewV7 db_runtime in
  write_stmt msg (fun now => insert_locale (copy_locale id versionID now l)).

Definition insertClonedLocales (clonedVersionID : uuid) (sourceLocales : list TemplateVersionLocale) : M Tpl unit :=
  for_each sourceLocales (fun l =>
    insert_copied_locale ("inserting cloned template locale " +:+ loc_Locale l) clonedVersionID l).

(** The draft a clone starts as. *)
Definition clone_of (id templateID : uuid) (createdBy : option uuid) (source : TemplateVersion) : TemplateVersion :=
  mk_version id templateID 0 VersionStatusDraft (content source) createdBy None None 0 0.

Definition TemplateRepo_CloneVersion (templateID sourceVersionID : uuid) (createdBy : option uuid) : M Tpl TemplateVersion :=
  in_tx "beginning transaction" "committing cloned template version"
    (lockTemplateForVersionMutation templateID "clone" ;;;
     let! sourceVersion := loadTemplateVersionForClone templateID sourceVersionID in
     let! sourceLocales := listTemplateVersionLocalesForClone sourceVersionID in
     let! id := NewV7 db_runtime in
     let! cloned := insertClonedVersion (clone_of id templateID createdBy sourceVersion) in
     insertClonedLocales (ver_ID cloned) sourceLocales ;;;
     ret cloned).

(** *** Forking a template *)

Definition loadTemplateForFork (sourceTemplateID : uuid) : M Tpl Template := GetTemplateByID sourceTemplateID.

Definition listTemplateVersionsForFork (sourceTemplateID : uuid) : M Tpl (list TemplateVersion) :=
  query (wrapping "listing template versions for fork") (fun t => Ok (fork_versions_of sourceTemplateID t)).

Definition fork_of (id workspaceID : uuid) (source : Template) : Template :=
  {| tpl_ID := id; tpl_TemplateTypeID := tpl_TemplateTypeID source; tpl_WorkspaceID := Some workspaceID;
     tpl_IsDisabled := tpl_IsDisabled source; tpl_IsFork := true; tpl_OriginTemplateID := Some (tpl_ID source);
     tpl_OwnerScope := ""; tpl_InheritedFromSystem := false; tpl_CreatedAt := 0; tpl_UpdatedAt := 0; tpl_DeletedAt := None |}.

(** The row of a copied version: its number, status and times are the source's. *)
Definition forked_version (id templateID : uuid) (createdBy : option uuid) (now : gotime) (v : TemplateVersion)
  : TemplateVersion :=
  mk_version id templateID (ver_VersionNumber v) (ver_Status v) (content v) (coalesceUUID createdBy (ver_CreatedBy v))
    (ver_PublishedAt v) (ver_ArchivedAt v) now now.

Definition copy_versions_for_fork (templateID : uuid) (createdBy : option uuid) (sourceVersions : list TemplateVersion)
  : M Tpl (gmap uuid uuid) :=
  for_fold sourceVersions ∅ (fun versionIDMap v =>
    let! targetVersionID := NewV7 db_runtime in
    write_stmt "copying template version during fork"
      (fun now => insert_version (forked_version targetVersionID templateID createdBy now v)) ;;;
    ret (<[ver_ID v := targetVersionID]> versionIDMap)).

Context `{MapRange}.

Definition copyTemplateLocalesForFork (versionIDMap : gmap uuid uuid) : M Tpl unit :=
  for_each (map_range versionIDMap) (fun '(sourceVersionID, targetVersionID) =>
    let! locales := query (wrapping "listing locales for forked template version")
                      (fun t => Ok (locales_of sourceVersionID t)) in
    for_each locales (fun l =>
      insert_copied_locale ("copying locale " +:+ loc_Locale l +:+ " during template fork") targetVersionID l)).

Definition TemplateRepo_ForkTemplate (sourceTemplateID workspaceID : uuid) (createdBy : option uuid) : M Tpl Template :=
  in_tx "beginning template fork transaction" "committing template fork"
    (let! sourceTemplate := loadTemplateForFork sourceTemplateID in
     let! id := NewV7 db_runtime in
     let! forked := write_stmt "inserting forked template"
                      (fun now => insert_template now (fork_of id workspaceID sourceTemplate)) in
     let! sourceVersions := listTemplateVersionsForFork sourceTemplateID in
     let! versionIDMap := copy_versions_for_fork id createdBy sourceVersions in
     copyTemplateLocalesForFork versionIDMap ;;;
     ret forked).
End CopyRepo.

(** ** The repository as a [TemplateStore] of the resolver *)

Section Store.
Context `{GoStd}.

Definition TemplateRepo : TemplateStore.t Tpl := {|
  TemplateStore.GetTypeBySlug := TemplateRepo_GetTypeBySlug;
  TemplateStore.ResolveTemplate := TemplateRepo_ResolveTemplate;
  TemplateStore.GetPublishedVersion := TemplateRepo_GetPublishedVersion;
  TemplateStore.GetLocale := TemplateRepo_GetLocale;
|}.
End Store.

(** ** Services

    The services run over the repository: a call they only pass on is the
    repository's operation itself. *)

Section TemplateService.
Context `{GoStd} `{Codec} `{MapRange}.

Definition Template_CreateTemplate (templateTypeID : uuid) (wsID : option uuid) : M Tpl Template :=
  let! now := Now db_runtime in
  let! id := NewV7 db_runtime in
  TemplateRepo_CreateTemplate (mkTemplate id templateTypeID wsID false false None "" false now now None).

Definition Template_ForkTemplate (sourceTemplateID workspaceID : uuid) (createdBy : option uuid) : M Tpl Template :=
  TemplateRepo_ForkTemplate sourceTemplateID workspaceID createdBy.

Definition Template_ListByType := TemplateRepo_ListByType.
Definition DisableTemplate (templateID : uuid) (wsID : option uuid) : M Tpl unit := SetDisabled templateID wsID true.
Definition EnableTemplate (templateID : uuid) (wsID : option uuid) : M Tpl unit := SetDisabled templateID wsID false.

Definition Template_CreateVersion (templateID : uuid) (c : Content) (createdBy : option uuid) : M Tpl TemplateVersion :=
  let! now := Now db_runtime in
  let! id := NewV7 db_runtime in
  TemplateRepo_CreateVersion (mk_version id templateID 0 VersionStatusDraft c createdBy None None now now).

Definition Template_GetVersionByID := GetVersionByID.
Definition Template_UpdateVersion := TemplateRepo_UpdateVersion.
Definition PublishVersion (versionID : uuid) : M Tpl unit := Publish versionID.

(** The scope a clone is requested in is the template's own. *)
Definition Template_CloneVersion (templateID sourceVersionID : uuid) (wsID createdBy : option uuid)
  : M Tpl TemplateVersion :=
  let! tpl := GetTemplateByID templateID in
  if negb (bool_decide (tpl_WorkspaceID tpl = wsID)) then fail (ESent ErrNotFound)
  else
    let! sourceVersion := GetVersionByID sourceVersionID in
    if negb (bool_decide (ver_TemplateID sourceVersion = templateID)) then fail (ESent ErrNotFound)
    else TemplateRepo_CloneVersion templateID sourceVersionID createdBy.

Definition Template_ListVersions := TemplateRepo_ListVersions.

Definition Template_SetLocale (versionID : uuid) (locale : string) (subject previewText fromName bodyMJML : option string)
    (editorData : option fields_map) : M Tpl TemplateVersionLocale :=
  let! now := Now db_runtime in
  let! id := NewV7 db_runtime in
  TemplateRepo_SetLocale (mkTemplateVersionLocale id versionID locale subject previewText fromName bodyMJML editorData now now).

Definition Template_GetLocale := TemplateRepo_GetLocale.
Definition Template_ListLocales := TemplateRepo_ListLocales.
Definition Template_DeleteLocale := TemplateRepo_DeleteLocale.

(** Any error of the lookup counts as "no published version". *)
Definition DeleteTemplate (templateID : uuid) : M Tpl unit :=
  try! r := TemplateRepo_GetPublishedVersion templateID in
  match r with
  | Ok _ => fail (ESent ErrHasPublishedVersion)
  | Err _ => SoftDeleteTemplate templateID
  end.

Definition DeleteVersion (versionID : uuid) : M Tpl unit :=
  let! ver := GetVersionByID versionID in
  if negb (is_draft ver) then fail (ESent ErrVersionNotDraft) else DeleteDraftVersion versionID.

(** *** Template types *)

Definition isNotFoundErr (e : error) : bool :=
  if errors_Is e ErrNotFound || errors_Is e ErrTemplateTypeNotFound then true else IsNotFound e.

Definition slug_conflict (slug : string) : error :=
  EWrap "" (ESent ErrConflict) (": template type with slug " +:+ Quote slug +:+ " already exists in scope").

(** [existing, err := FindTypeBySlugInScope(...)], with "not found" as nil. *)
Definition find_existing (slug : string) (wsID : option uuid) : M Tpl (option TemplateType) :=
  try! r := FindTypeBySlugInScope slug wsID in
  match r with
  | Ok existing => ret (Some existing)
  | Err e => if isNotFoundErr e then ret None else fail e
  end.

(** The caller's fields of a type. *)
Record TypeFields := mkTypeFields {
  tf_Slug : string;
  tf_Name : string;
  tf_Description : option string;
  tf_AdapterID : option uuid;
  tf_SenderIdentityID : option uuid;
  tf_VariableSchema : option fields_map;
  tf_TestRecipientMode : option TestRecipientMode;
  tf_TestRecipientAddresses : list string;
  tf_IsBulk : bool;
}.

Definition TemplateType_Create (f : TypeFields) (wsID : option uuid) : M Tpl TemplateType :=
  let! existing := find_existing (tf_Slug f) wsID in
  match existing with
  | Some _ => fail (slug_conflict (tf_Slug f))
  | None =>
      let! now := Now db_runtime in
      let! id := NewV7 db_runtime in
      CreateType (mkTemplateType id wsID (tf_Slug f) (tf_Name f) (tf_Description f) (tf_AdapterID f)
        (tf_SenderIdentityID f) (tf_VariableSchema f) (tf_TestRecipientMode f) (tf_TestRecipientAddresses f)
        "" false (tf_IsBulk f) now now None)
  end.

Definition TemplateType_Update (tt : TemplateType) (previousSlug : string) : M Tpl TemplateType :=
  (if negb (bool_decide (tt_Slug tt = previousSlug)) then
     let! existing := find_existing (tt_Slug tt) (tt_WorkspaceID tt) in
     match existing with
     | Some e => if negb (bool_decide (tt_ID e = tt_ID tt)) then fail (slug_conflict (tt_Slug tt)) else ret tt
     | None => ret tt
     end
   else ret tt) ;;;
  UpdateType tt.

Definition DeleteType (id : uuid) : M Tpl unit := SoftDeleteType id.
Definition GetBySlug := TemplateRepo_GetTypeBySlug.
Definition FindBySlugInScope := FindTypeBySlugInScope.
Definition TemplateType_ListTypes := ListTypes.
End TemplateService.
