(* ===== verification/Versions.v ===== *)
(** * The template library: typing and history

    What every operation of the template repository keeps: the keys and the
    references of the four tables, and the history of a version - what is
    published never changes, it is only archived. *)
From stdpp Require Import base gmap strings list sorting.
From Stdlib Require Import ZArith NArith Ascii String Lia.
From S2P Require Import Prelude GoMonad Domain Ports Token.
From S2P Require Import Suppression Postgres Database Directory Templates.

Lemma content_mk id tid n st c by_ p a cr up : content (mk_version id tid n st c by_ p a cr up) = c.
Proof. by destruct c. Qed.

(** ** The typing of the tables *)

Record library_ok (t : Library) : Prop := {
  types_keyed : keyed tt_ID (tp_types t);
  types_unique : unique_by same_slug (tp_types t);
  templates_keyed : keyed tpl_ID (tp_templates t);
  templates_unique : unique_by same_slot (tp_templates t);
  templates_type id r : tp_templates t !! id = Some r -> is_Some (tp_types t !! tpl_TemplateTypeID r);
  templates_origin id r : tp_templates t !! id = Some r -> refers (tp_templates t) (tpl_OriginTemplateID r) = true;
  versions_keyed : keyed ver_ID (tp_versions t);
  versions_number : unique_by same_number (tp_versions t);
  versions_published : unique_by both_published (tp_versions t);
  versions_template id v : tp_versions t !! id = Some v -> is_Some (tp_templates t !! ver_TemplateID v);
  locales_keyed : keyed loc_ID (tp_locales t);
  locales_unique : unique_by (fun a b => at_locale (loc_TemplateVersionID a) (loc_Locale a) b) (tp_locales t);
  locales_version id l : tp_locales t !! id = Some l -> is_Some (tp_versions t !! loc_TemplateVersionID l);
}.

(** ** The history of a version *)

(** A version that left the draft state stays as it is, or is archived. *)
Definition settled (v v' : TemplateVersion) : Prop :=
  v' = v \/ (ver_Status v = VersionStatusPublished /\ exists now, v' = archived now v).

Definition evolves (t t' : Library) : Prop :=
  forall id v, tp_versions t !! id = Some v -> ver_Status v <> VersionStatusDraft ->
    exists v', tp_versions t' !! id = Some v' /\ settled v v'.

(** Both, over one step. *)
Definition lifecycle (t t' : Library) : Prop := (library_ok t -> library_ok t') /\ evolves t t'.

#[export] Instance evolves_preorder : PreOrder evolves.
Proof.
  split.
  - intros t id v Hv _. exists v. split; [done|by left].
  - intros t1 t2 t3 H12 H23 id v Hv Hd. destruct (H12 id v Hv Hd) as (v2 & Hv2 & [->|(Hp & now & ->)]); [by apply H23|].
    destruct (H23 id (archived now v) Hv2) as (v3 & Hv3 & [->|(? & _)]); [done| |done].
    exists (archived now v). split; [done|]. right. eauto.
Qed.

#[export] Instance lifecycle_preorder : PreOrder lifecycle.
Proof.
  split; [by intros t|]. intros t1 t2 t3 [H12 E12] [H23 E23]. split; [auto|by etrans].
Qed.

Lemma evolves_same t t' : tp_versions t' = tp_versions t -> evolves t t'.
Proof. intros E id v Hv _. exists v. rewrite E. split; [done|by left]. Qed.

(** ** Steps of one table *)

Lemma same_slug_sym a b : same_slug a b = same_slug b a.
Proof. unfold same_slug. f_equal; apply bool_decide_ext; split; by intros ->. Qed.
Lemma same_slot_sym a b : same_slot a b = same_slot b a.
Proof. unfold same_slot. f_equal; apply bool_decide_ext; split; by intros ->. Qed.
Lemma same_number_sym a b : same_number a b = same_number b a.
Proof. unfold same_number. f_equal; apply bool_decide_ext; split; by intros ->. Qed.
Lemma both_published_sym a b : both_published a b = both_published b a.
Proof. unfold both_published. rewrite (andb_comm (published a)). f_equal. apply bool_decide_ext; split; by intros ->. Qed.

(** The keys of a version: two rows with the same keys take the same place. *)
Definition same_place (v v' : TemplateVersion) : Prop :=
  ver_ID v' = ver_ID v /\ ver_TemplateID v' = ver_TemplateID v /\ ver_VersionNumber v' = ver_VersionNumber v /\
  (published v' = true -> published v = true).

Lemma same_place_refl v : same_place v v.
Proof. by repeat split. Qed.
#[export] Hint Resolve same_place_refl : senda.

(** Replacing the version table by one whose rows take the places of rows of
    the old one. *)
Lemma versions_moved t m' :
  (forall id v', m' !! id = Some v' -> exists v, tp_versions t !! id = Some v /\ same_place v v') ->
  (forall id l, tp_locales t !! id = Some l -> is_Some (m' !! loc_TemplateVersionID l)) ->
  library_ok t -> library_ok (set_versions (fun _ => m') t).
Proof.
  intros Hm Hl []. split; simpl; try done.
  - intros id v' Hv'. destruct (Hm _ _ Hv') as (v & Hv & (-> & _)). by apply versions_keyed0.
  - eapply (unique_from same_place); [done| |done]. unfold same_number. intros a a' b b' (_ & -> & -> & _) (_ & -> & -> & _). done.
  - eapply (unique_from same_place); [done| |done]. unfold both_published.
    intros a a' b b' (_ & -> & _ & Ha) (_ & -> & _ & Hb) [ [Pa Pb]%andb_true_iff ->]%andb_true_iff. by rewrite (Ha Pa), (Hb Pb).
  - intros id v' Hv'. destruct (Hm _ _ Hv') as (v & Hv & (_ & -> & _)). by eapply versions_template0.
Qed.

(** Changing one row in place. *)
Lemma version_changed t id v v' :
  tp_versions t !! id = Some v -> same_place v v' -> library_ok t -> library_ok (set_versions <[id := v']> t).
Proof.
  intros Hv Hp Hok. apply (versions_moved t (<[id := v']> (tp_versions t))); [..|done].
  - intros i w [ [<- <-]|[_ Hw] ]%lookup_insert_Some; eauto with senda.
  - intros i l Hl. apply lookup_insert_is_Some'. right. by eapply locales_version.
Qed.

Lemma insert_version_cases row t :
  (exists e, insert_version row t = inl e) \/
  (insert_version row t = inr (tt, set_versions <[ver_ID row := row]> t) /\
   tp_versions t !! ver_ID row = None /\
   (forall id v, tp_versions t !! id = Some v -> same_number row v = false) /\
   (forall id v, tp_versions t !! id = Some v -> both_published row v = false) /\
   is_Some (tp_templates t !! ver_TemplateID row) /\ refers (tb_members (tp_dir t)) (ver_CreatedBy row) = true).
Proof.
  unfold insert_version. destruct (violation _) as [e|] eqn:Ev; [left; by eexists|]. right.
  apply violation_None in Ev. rewrite !Forall_cons in Ev. simpl in Ev. rewrite !bool_decide_eq_true, !rows_nil in Ev.
  destruct Ev as (Hid & Hn & Hp & Ht & Hm & _). done.
Qed.

Lemma insert_version_lifecycle row t r t' : insert_version row t = inr (r, t') -> lifecycle t t'.
Proof.
  destruct (insert_version_cases row t) as [ [e ->]|(-> & Hid & Hn & Hp & Ht & _)]; [done|]. intros [= _ <-]. split.
  - intros []. split; simpl; try done.
    + by apply keyed_insert.
    + apply unique_insert; [apply same_number_sym|done|eauto].
    + apply unique_insert; [apply both_published_sym|done|eauto].
    + intros id v [ [_ <-]|[_ Hv] ]%lookup_insert_Some; [done|eauto].
    + intros id l Hl. apply lookup_insert_is_Some'. eauto.
  - intros id v Hv _. exists v. simpl. rewrite lookup_insert_ne by congruence. split; [done|by left].
Qed.

Lemma draft_version_Some id t v : draft_version id t = Some v -> tp_versions t !! id = Some v /\ ver_Status v = VersionStatusDraft.
Proof.
  unfold draft_version, is_draft. destruct (tp_versions t !! id) as [w|] eqn:E; [|done].
  case_bool_decide; [|done]. by intros [= <-].
Qed.

Lemma evolves_draft t id v v' : tp_versions t !! id = Some v -> ver_Status v = VersionStatusDraft ->
  evolves t (set_versions <[id := v']> t).
Proof.
  intros Hv Hd i w Hw Hn. exists w. simpl. rewrite lookup_insert_ne by congruence. split; [done|by left].
Qed.

(** A published version, or [None] when the draft was not there. *)
Lemma publish_draft_cases id now t :
  (exists e, publish_draft id now t = inl e) \/
  (publish_draft id now t = inr (0, t) /\ draft_version id t = None) \/
  (exists v, draft_version id t = Some v /\
     publish_draft id now t = inr (1, set_versions <[id := published_at now v]> t) /\
     (forall i w, tp_versions t !! i = Some w -> both_published (published_at now v) w = false)).
Proof.
  unfold publish_draft. destruct (draft_version id t) as [v|] eqn:E; [|by right; left].
  case_bool_decide as Hr; [|left; by eexists]. right; right. exists v. rewrite rows_nil in Hr. done.
Qed.

Lemma publish_draft_lifecycle id now t r t' : publish_draft id now t = inr (r, t') -> lifecycle t t'.
Proof.
  destruct (publish_draft_cases id now t) as [ [e ->]|[ [-> _]|(v & [Hv Hd]%draft_version_Some & -> & Hp)] ];
    [done|by intros [= _ <-]|]. intros [= _ <-]. split; [|by eapply evolves_draft].
  intros Hok. destruct Hok. assert (ver_ID v = id) as Ek by eauto. split; simpl; try done.
  - rewrite <- Ek. change (ver_ID v) with (ver_ID (published_at now v)). by apply keyed_insert.
  - apply (unique_from (fun a b => same_number a b = true)) with (m := tp_versions t); [| |done].
    + intros i w [ [<- <-]|[_ Hw] ]%lookup_insert_Some; eexists; (split; [done|]); unfold same_number; simpl; by rewrite !bool_decide_eq_true_2.
    + unfold same_number. intros a a' b b'. rewrite !andb_true_iff, !bool_decide_eq_true. intuition congruence.
  - apply unique_insert; [apply both_published_sym|done|eauto].
  - intros i w [ [_ <-]|[_ Hw] ]%lookup_insert_Some; [simpl|]; eauto.
  - intros i l Hl. apply lookup_insert_is_Some'. eauto.
Qed.

Lemma archive_lifecycle templateID now t : lifecycle t (set_versions (archive_published templateID now) t).
Proof.
  set (f v := if of_template templateID v && published v then archived now v else v). split.
  - intros Hok. apply (versions_moved t (f <$> tp_versions t)); [| |done].
    + intros id v' Hv'. rewrite lookup_fmap in Hv'. destruct (tp_versions t !! id) as [v|]; [|done].
      injection Hv' as <-. exists v. split; [done|]. unfold f. case_match; by repeat split.
    + intros id l Hl. rewrite lookup_fmap, fmap_is_Some. by eapply locales_version.
  - intros id v Hv _. exists (f v). simpl. unfold archive_published. rewrite lookup_fmap, Hv. split; [done|].
    unfold f. destruct (_ && _) eqn:E; [|by left]. right. apply andb_true_iff in E as [_ E].
    unfold published in E. apply bool_decide_eq_true in E. eauto.
Qed.

(** ** Steps of the other tables *)

(** A step that leaves the versions alone and keeps the typing. *)
Lemma lifecycle_same t t' : tp_versions t' = tp_versions t -> (library_ok t -> library_ok t') -> lifecycle t t'.
Proof. intros E Hk. split; [done|by apply evolves_same]. Qed.

Definition same_locale (a b : TemplateVersionLocale) : bool := at_locale (loc_TemplateVersionID a) (loc_Locale a) b.

Lemma same_locale_eq a b : same_locale a b = true <->
  loc_TemplateVersionID b = loc_TemplateVersionID a /\ loc_Locale b = loc_Locale a.
Proof. unfold same_locale, at_locale, of_version. by rewrite andb_true_iff, !bool_decide_eq_true. Qed.

Lemma same_locale_sym a b : same_locale a b = same_locale b a.
Proof. apply eq_true_iff_eq. rewrite !same_locale_eq. split; intros [-> ->]; done. Qed.

Lemma locales_moved t m' :
  (forall id l', m' !! id = Some l' -> exists l, tp_locales t !! id = Some l /\ loc_ID l' = loc_ID l /\
     loc_TemplateVersionID l' = loc_TemplateVersionID l /\ loc_Locale l' = loc_Locale l) ->
  lifecycle t (set_locales (fun _ => m') t).
Proof.
  intros Hm. apply lifecycle_same; [done|]. intros []. split; simpl; try done.
  - intros id l' Hl'. destruct (Hm _ _ Hl') as (l & Hl & -> & _). eauto.
  - apply (unique_from (fun a b => loc_TemplateVersionID b = loc_TemplateVersionID a /\ loc_Locale b = loc_Locale a) same_locale (tp_locales t)); [| |done].
    + intros id l' Hl'. destruct (Hm _ _ Hl') as (l & Hl & _ & ? & ?). eauto.
    + intros a a' b b' [Ea Fa] [Eb Fb]. rewrite !same_locale_eq. intros [? ?]. split; congruence.
  - intros id l' Hl'. destruct (Hm _ _ Hl') as (l & Hl & _ & -> & _). eauto.
Qed.

Lemma insert_locale_cases row t :
  (exists e, insert_locale row t = inl e) \/
  (insert_locale row t = inr (tt, set_locales <[loc_ID row := row]> t) /\
   tp_locales t !! loc_ID row = None /\
   (forall id l, tp_locales t !! id = Some l -> same_locale row l = false) /\
   is_Some (tp_versions t !! loc_TemplateVersionID row)).
Proof.
  unfold insert_locale. destruct (violation _) as [e|] eqn:Ev; [left; by eexists|]. right.
  apply violation_None in Ev. rewrite !Forall_cons in Ev. simpl in Ev. rewrite !bool_decide_eq_true, !rows_nil in Ev.
  by destruct Ev as (? & ? & ? & _).
Qed.

Lemma insert_locale_lifecycle row t r t' : insert_locale row t = inr (r, t') -> lifecycle t t'.
Proof.
  destruct (insert_locale_cases row t) as [ [e ->]|(-> & Hid & Hu & Hv)]; [done|]. intros [= _ <-].
  apply lifecycle_same; [done|]. intros []. split; simpl; try done.
  - by apply keyed_insert.
  - apply (unique_insert same_locale); [apply same_locale_sym|done|eauto].
  - intros id l [ [_ <-]|[_ Hl] ]%lookup_insert_Some; eauto.
Qed.

Lemma upsert_locale_lifecycle l now t r t' : upsert_locale l now t = inr (r, t') -> lifecycle t t'.
Proof.
  unfold upsert_locale. destruct (rows _ _) as [|old rest] eqn:E.
  - destruct (insert_locale _ t) as [e|[u t1] ] eqn:Ei; [done|]. intros [= _ <-]. by eapply insert_locale_lifecycle.
  - intros [= _ <-]. assert (Ho : old ∈ rows (at_locale (loc_TemplateVersionID l) (loc_Locale l)) (tp_locales t)) by (rewrite E; left).
    apply elem_of_rows in Ho as [ [id Hid] _]. split; [|by apply evolves_same]. intros Hok.
    rewrite <- (locales_keyed _ Hok _ _ Hid) in Hid. revert Hok.
    apply (locales_moved t (<[loc_ID old := overwrite_locale now l old]> (tp_locales t))).
    intros i l' [ [<- <-]|[_ Hl] ]%lookup_insert_Some; eauto.
Qed.

Lemma delete_locales_lifecycle p t : lifecycle t (set_locales (delete_locales p) t).
Proof.
  apply (locales_moved t (delete_locales p (tp_locales t))). intros id l Hl. exists l.
  split; [|done]. eapply lookup_weaken; [exact Hl|apply delete_rows_sub].
Qed.

Lemma delete_version_lifecycle id v t : draft_version id t = Some v ->
  lifecycle t (set_locales (delete_locales (of_version id)) (set_versions (delete id) t)).
Proof.
  intros [Hv Hd]%draft_version_Some. split.
  - intros Hok. pose proof (locales_keyed _ Hok) as Hlk.
    assert (Hl : lifecycle t (set_locales (delete_locales (of_version id)) t)) by apply delete_locales_lifecycle.
    apply proj1 in Hl. apply (versions_moved _ (delete id (tp_versions t))) in Hl; [exact Hl|..|exact Hok].
    + intros i w [_ Hw]%lookup_delete_Some. eauto with senda.
    + intros i l Hi. simpl in Hi. unfold delete_locales in Hi. rewrite (lookup_delete_rows loc_ID) in Hi by done.
      destruct (tp_locales t !! i) as [l0|] eqn:E; [|done]. destruct (of_version id l0) eqn:Eo; [done|].
      injection Hi as ->. unfold of_version in Eo. apply bool_decide_eq_false in Eo.
      rewrite lookup_delete_ne by done. by eapply locales_version.
  - intros i w Hw Hn. exists w. simpl. rewrite lookup_delete_ne by congruence. split; [done|by left].
Qed.

(** *** Templates *)

Lemma refers_insert {A} (m : gmap uuid A) id a o : refers m o = true -> refers (<[id := a]> m) o = true.
Proof.
  destruct o as [i|]; simpl; [|done]. rewrite !bool_decide_eq_true, lookup_insert_is_Some'. by right.
Qed.

Lemma insert_template_cases now tpl t :
  (exists e, insert_template now tpl t = inl e) \/
  (insert_template now tpl t = inr (with_template_times now tpl, set_templates <[tpl_ID tpl := template_row now tpl]> t) /\
   tp_templates t !! tpl_ID tpl = None /\
   (forall id r, tp_templates t !! id = Some r -> same_slot (template_row now tpl) r = false) /\
   is_Some (tp_types t !! tpl_TemplateTypeID tpl) /\ refers (tb_workspaces (tp_dir t)) (tpl_WorkspaceID tpl) = true /\
   refers (tp_templates t) (tpl_OriginTemplateID tpl) = true).
Proof.
  unfold insert_template. destruct (violation _) as [e|] eqn:Ev; [left; by eexists|]. right.
  apply violation_None in Ev. rewrite !Forall_cons in Ev. simpl in Ev. rewrite !bool_decide_eq_true, !rows_nil in Ev.
  by destruct Ev as (? & ? & ? & ? & ? & _).
Qed.

Lemma insert_template_lifecycle now tpl t r t' : insert_template now tpl t = inr (r, t') -> lifecycle t t'.
Proof.
  destruct (insert_template_cases now tpl t) as [ [e ->]|(-> & Hid & Hu & Hty & _ & Ho)]; [done|]. intros [= _ <-].
  apply lifecycle_same; [done|]. intros []. split; simpl; try done.
  - change (tpl_ID tpl) with (tpl_ID (template_row now tpl)). by apply keyed_insert.
  - apply unique_insert; [apply same_slot_sym|done|eauto].
  - intros id r' [ [_ <-]|[_ Hr] ]%lookup_insert_Some; eauto.
  - intros id r' [ [_ <-]|[_ Hr] ]%lookup_insert_Some; apply refers_insert; eauto.
  - intros id v Hv. apply lookup_insert_is_Some'. eauto.
Qed.

(** The keys and references of a template, which only an insertion sets. *)
Definition same_template (r r' : Template) : Prop :=
  tpl_ID r' = tpl_ID r /\ tpl_TemplateTypeID r' = tpl_TemplateTypeID r /\ tpl_WorkspaceID r' = tpl_WorkspaceID r /\
  tpl_OriginTemplateID r' = tpl_OriginTemplateID r.

Lemma template_changed t id r r' : tp_templates t !! id = Some r -> same_template r r' ->
  lifecycle t (set_templates <[id := r']> t).
Proof.
  intros Hr (Ei & Et & Ew & Eo). apply lifecycle_same; [done|]. intros [].
  assert (Hrow : forall i x', <[id := r']> (tp_templates t) !! i = Some x' -> exists x, tp_templates t !! i = Some x /\ same_template x x').
  { intros i x' [ [<- <-]|[_ Hx] ]%lookup_insert_Some; eexists; (split; [done|]); repeat split; done. }
  split; simpl; try done.
  - intros i x' Hx'. destruct (Hrow _ _ Hx') as (x & Hx & -> & _). eauto.
  - eapply (unique_from same_template); [exact Hrow| |done]. unfold same_slot.
    intros a a' b b' (_ & -> & -> & _) (_ & -> & -> & _). done.
  - intros i x' Hx'. destruct (Hrow _ _ Hx') as (x & Hx & _ & -> & _). eauto.
  - intros i x' Hx'. destruct (Hrow _ _ Hx') as (x & Hx & _ & _ & _ & ->). apply refers_insert. eauto.
  - intros i v Hv. apply lookup_insert_is_Some'. eauto.
Qed.

Lemma live_template_Some id t r : live_template id t = Some r -> tp_templates t !! id = Some r /\ tpl_DeletedAt r = None.
Proof.
  unfold live_template, template_live. destruct (tp_templates t !! id) as [w|] eqn:E; [|done].
  case_bool_decide; [|done]. by intros [= <-].
Qed.

Lemma owned_template_Some id ws t r : owned_template id ws t = Some r ->
  tp_templates t !! id = Some r /\ tpl_DeletedAt r = None /\ tpl_WorkspaceID r = ws.
Proof.
  unfold owned_template. destruct (live_template id t) as [w|] eqn:E; [|done]. apply live_template_Some in E as [? ?].
  case_bool_decide; [|done]. by intros [= <-].
Qed.

(** *** Types *)

Lemma type_written t id row :
  tt_ID row = id -> (forall j r, tp_types t !! j = Some r -> j <> id -> same_slug row r = false) ->
  lifecycle t (set_types <[id := row]> t).
Proof.
  intros <- Hu. apply lifecycle_same; [done|]. intros []. split; simpl; try done.
  - by apply keyed_insert.
  - apply unique_insert; [apply same_slug_sym|done|eauto].
  - intros id r Hr. apply lookup_insert_is_Some'. eauto.
Qed.

Lemma type_violation_None row others t : type_violation row others t = None ->
  others !! tt_ID row = None /\ (forall j r, others !! j = Some r -> same_slug row r = false).
Proof.
  unfold type_violation. intros Ev. apply violation_None in Ev. rewrite !Forall_cons in Ev. simpl in Ev.
  rewrite !bool_decide_eq_true, rows_nil in Ev. by destruct Ev as (_ & ? & ? & _).
Qed.

Lemma live_type_Some id t r : live_type id t = Some r -> tp_types t !! id = Some r /\ tt_DeletedAt r = None.
Proof.
  unfold live_type, type_live. destruct (tp_types t !! id) as [w|] eqn:E; [|done].
  case_bool_decide; [|done]. by intros [= <-].
Qed.

(** ** The operations *)

Lemma relates_exec_unclassified (R : Library -> Library -> Prop) `{!PreOrder R} {A} msg (f : gotime -> Library -> PgError + (A * Library)) :
  (forall now t a t', f now t = inr (a, t') -> R t t') -> relates db_tables R (exec_unclassified msg f).
Proof.
  intros Hf. related relates_exec. intros now t. specialize (Hf now t).
  destruct (f now t) as [ []|[a t'] ]; simpl; [done..|by eapply Hf].
Qed.

(** Loops. *)
Lemma relates_for_each {W V X} (v : W -> V) (R : V -> V -> Prop) `{!PreOrder R} (l : list X) body :
  (forall x, relates v R (body x)) -> relates v R (for_each l body).
Proof.
  intros Hb. induction l as [|x l IH]; simpl; [related relates_preserves; apply preserves_ret|].
  related relates_bind; [apply Hb|]. intros _. apply IH.
Qed.

Lemma relates_for_fold {W V X S} (v : W -> V) (R : V -> V -> Prop) `{!PreOrder R} (l : list X) (s : S) body :
  (forall s x, relates v R (body s x)) -> relates v R (for_fold l s body).
Proof.
  intros Hb. revert s. induction l as [|x l IH]; intros s; simpl; [related relates_preserves; apply preserves_ret|].
  related relates_bind; [apply Hb|]. intros s'. apply IH.
Qed.

Section Operations.
Context `{GoStd} `{Codec} `{MapRange}.
#[local] Abbreviation keeps := (relates db_tables lifecycle).

Lemma CreateType_keeps ty : keeps (CreateType ty).
Proof.
  related relates_write. intros now t a t'. destruct (type_violation _ _ _) eqn:Ev; [done|].
  apply type_violation_None in Ev as [_ Hu]. intros [= _ <-]. apply type_written; [done|eauto].
Qed.

Lemma UpdateType_keeps ty : keeps (UpdateType ty).
Proof.
  related relates_write. intros now t a t'. destruct (live_type _ t) as [r|] eqn:El; [|done].
  apply live_type_Some in El as [Hr _]. destruct (type_violation _ _ _) eqn:Ev; [done|].
  apply type_violation_None in Ev as [_ Hu]. intros [= _ <-]. split; [|by apply evolves_same]. intros Hok.
  apply type_written; [exact (types_keyed _ Hok _ _ Hr)| |done].
  intros j x Hx Hj. apply (Hu j). by rewrite lookup_delete_ne.
Qed.

Lemma SoftDeleteType_keeps id : keeps (SoftDeleteType id).
Proof.
  related relates_update. intros now r t [Hr _]%live_type_Some. split; [|by apply evolves_same]. intros Hok.
  apply type_written; [exact (types_keyed _ Hok _ _ Hr)| |done].
  intros j x Hx Hj. destruct (same_slug _ x) eqn:E; [|done]. exfalso. apply Hj. symmetry.
  by apply (types_unique _ Hok id j r x).
Qed.

Lemma CreateTemplate_keeps tpl : keeps (TemplateRepo_CreateTemplate tpl).
Proof. related relates_write. intros now t a t'. apply insert_template_lifecycle. Qed.

Lemma SetDisabled_keeps id ws d : keeps (SetDisabled id ws d).
Proof. related relates_update. intros now r t (Hr & _)%owned_template_Some. eapply template_changed; [done|]. by repeat split. Qed.

Lemma SoftDeleteTemplate_keeps id : keeps (SoftDeleteTemplate id).
Proof. related relates_update. intros now r t [Hr _]%live_template_Some. eapply template_changed; [done|]. by repeat split. Qed.

Lemma lock_frame msg id : preserves db_tables (lock_template msg id).
Proof. apply query_frame. Qed.
Lemma next_frame msg id : preserves db_tables (next_number msg id).
Proof. apply query_frame. Qed.

Lemma CreateVersion_keeps v : keeps (TemplateRepo_CreateVersion v).
Proof.
  related relates_in_tx. related relates_bind; [related relates_preserves; apply lock_frame|]. intros _.
  related relates_bind; [related relates_preserves; apply next_frame|]. intros n.
  related relates_write. intros now t a t'. destruct (insert_version _ t) as [e|[u t1] ] eqn:E; [done|].
  intros [= _ <-]. by eapply insert_version_lifecycle.
Qed.

Lemma UpdateVersion_keeps v : keeps (TemplateRepo_UpdateVersion v).
Proof.
  related relates_update. intros now w t [Hw Hd]%draft_version_Some. split; [|by eapply evolves_draft].
  apply (version_changed t _ w); [done|by repeat split].
Qed.

Lemma DeleteDraftVersion_keeps id : keeps (DeleteDraftVersion id).
Proof. related relates_update. intros now v t. apply delete_version_lifecycle. Qed.

Lemma SetLocale_keeps l : keeps (TemplateRepo_SetLocale l).
Proof. related relates_exec_unclassified. intros now t a t'. apply upsert_locale_lifecycle. Qed.

Lemma DeleteLocale_keeps id l : keeps (TemplateRepo_DeleteLocale id l).
Proof. related relates_exec. intros now t. case_bool_decide; simpl; [done|apply delete_locales_lifecycle]. Qed.

Lemma Publish_keeps id : keeps (Publish id).
Proof.
  related relates_in_tx. related relates_bind; [related relates_preserves; apply query_frame|]. intros tid.
  related relates_bind; [related relates_preserves; apply lock_frame|]. intros _.
  related relates_bind; [related relates_exec; intros now t; apply archive_lifecycle|]. intros _.
  related relates_bind; [related relates_exec_unclassified; intros now t a t'; apply publish_draft_lifecycle|].
  intros n. case_bool_decide; relates_tac.
Qed.

Lemma copied_locale_keeps msg id l : keeps (insert_copied_locale msg id l).
Proof.
  related relates_bind; [related relates_preserves; apply db_id_frame|]. intros i.
  related relates_write. intros now t a t'. apply insert_locale_lifecycle.
Qed.

Lemma CloneVersion_keeps tid src by_ : keeps (TemplateRepo_CloneVersion tid src by_).
Proof.
  related relates_in_tx. related relates_bind; [related relates_preserves; apply lock_frame|]. intros _.
  related relates_bind; [related relates_preserves; apply query_frame|]. intros v.
  related relates_bind; [related relates_preserves; apply query_frame|]. intros ls.
  related relates_bind; [related relates_preserves; apply db_id_frame|]. intros id.
  related relates_bind.
  - related relates_bind; [related relates_preserves; apply next_frame|]. intros n. related relates_write.
    intros now t a t'. cbv zeta. destruct (insert_version _ t) as [e|[u t1] ] eqn:E; [done|]. intros [= _ <-]. by eapply insert_version_lifecycle.
  - intros c. related relates_bind; [|intros; related relates_preserves; apply preserves_ret].
    related relates_for_each. intros l. apply copied_locale_keeps.
Qed.

Lemma ForkTemplate_keeps src ws by_ : keeps (TemplateRepo_ForkTemplate src ws by_).
Proof.
  related relates_in_tx. related relates_bind; [related relates_preserves; apply query_frame|]. intros source.
  related relates_bind; [related relates_preserves; apply db_id_frame|]. intros id.
  related relates_bind; [related relates_write; intros now t a t'; apply insert_template_lifecycle|]. intros forked.
  related relates_bind; [related relates_preserves; apply query_frame|]. intros vs.
  related relates_bind.
  - related relates_for_fold. intros m v. related relates_bind; [related relates_preserves; apply db_id_frame|]. intros i.
    related relates_bind; [related relates_write; intros now t a t'; apply insert_version_lifecycle|]. intros _.
    related relates_preserves; apply preserves_ret.
  - intros m. related relates_bind; [|intros; related relates_preserves; apply preserves_ret].
    related relates_for_each. intros [s d]. related relates_bind; [related relates_preserves; apply query_frame|].
    intros ls. related relates_for_each. intros l. apply copied_locale_keeps.
Qed.
End Operations.

#[export] Hint Resolve CreateType_keeps UpdateType_keeps SoftDeleteType_keeps CreateTemplate_keeps SetDisabled_keeps
  SoftDeleteTemplate_keeps CreateVersion_keeps UpdateVersion_keeps DeleteDraftVersion_keeps SetLocale_keeps
  DeleteLocale_keeps Publish_keeps CloneVersion_keeps ForkTemplate_keeps lock_frame next_frame : senda.

(** ** Histories of the repository *)

Inductive template_op :=
| OpCreateType (tt : TemplateType) | OpUpdateType (tt : TemplateType) | OpSoftDeleteType (id : uuid)
| OpCreateTemplate (tpl : Template) | OpForkTemplate (sourceTemplateID workspaceID : uuid) (createdBy : option uuid)
| OpSetDisabled (templateID : uuid) (wsID : option uuid) (disabled : bool) | OpSoftDeleteTemplate (templateID : uuid)
| OpCreateVersion (ver : TemplateVersion) | OpUpdateVersion (ver : TemplateVersion)
| OpCloneVersion (templateID sourceVersionID : uuid) (createdBy : option uuid)
| OpPublish (versionID : uuid) | OpDeleteDraftVersion (versionID : uuid)
| OpSetLocale (locale : TemplateVersionLocale) | OpDeleteLocale (versionID : uuid) (locale : string).

Section History.
Context `{GoStd} `{Codec} `{MapRange}.

(** One call; its result is the caller's business. *)
Definition template_call (op : template_op) : M Tpl unit :=
  match op with
  | OpCreateType t => ignore (CreateType t)
  | OpUpdateType t => ignore (UpdateType t)
  | OpSoftDeleteType id => ignore (SoftDeleteType id)
  | OpCreateTemplate tpl => ignore (TemplateRepo_CreateTemplate tpl)
  | OpForkTemplate src ws by_ => ignore (TemplateRepo_ForkTemplate src ws by_)
  | OpSetDisabled id ws d => ignore (SetDisabled id ws d)
  | OpSoftDeleteTemplate id => ignore (SoftDeleteTemplate id)
  | OpCreateVersion v => ignore (TemplateRepo_CreateVersion v)
  | OpUpdateVersion v => ignore (TemplateRepo_UpdateVersion v)
  | OpCloneVersion tid src by_ => ignore (TemplateRepo_CloneVersion tid src by_)
  | OpPublish id => ignore (Publish id)
  | OpDeleteDraftVersion id => ignore (DeleteDraftVersion id)
  | OpSetLocale l => ignore (TemplateRepo_SetLocale l)
  | OpDeleteLocale id l => ignore (TemplateRepo_DeleteLocale id l)
  end.

Definition template_calls (ops : list template_op) : M Tpl unit := for_each ops template_call.

Lemma template_calls_keep ops : relates db_tables lifecycle (template_calls ops).
Proof.
  related relates_for_each. intros []; simpl; apply relates_ignore; eauto with senda.
Qed.
End History.

(** C11: Whatever calls reach the template repository, in any order and under any
    failure of the database, the library stays well typed - version numbers are
    unique in a template, a template has at most one published version, locale
    overrides are unique in a version, nothing dangles - and a version that was
    ever published is never deleted or changed again: it is only archived. *)
Theorem template_history `{GoStd} `{Codec} `{MapRange} ops s :
  library_ok (db_tables s) ->
  library_ok (db_tables (template_calls ops s).2) /\
  forall id v, tp_versions (db_tables s) !! id = Some v -> ver_Status v <> VersionStatusDraft ->
    exists v', tp_versions (db_tables (template_calls ops s).2) !! id = Some v' /\
      content v' = content v /\ ver_TemplateID v' = ver_TemplateID v /\ ver_VersionNumber v' = ver_VersionNumber v /\
      ver_PublishedAt v' = ver_PublishedAt v /\
      (ver_Status v' = ver_Status v \/
       ver_Status v = VersionStatusPublished /\ ver_Status v' = VersionStatusArchived).
Proof.
  intros Hok. destruct (template_calls_keep ops s) as [Hk He]. split; [by apply Hk|]. intros id v Hv Hd.
  destruct (He id v Hv Hd) as (v' & Hv' & [->|(Hp & now & ->)]); [by exists v; auto 8|].
  exists (archived now v). split; [done|]. unfold archived. rewrite content_mk. auto 8.
Qed.
