(* ===== verification/Publication.v ===== *)
(** * Publishing, cloning and forking

    What a publication, a clone and a fork leave in the library, exactly, and
    when they succeed. *)
From stdpp Require Import base gmap strings list sorting.
From Stdlib Require Import ZArith NArith Ascii String Lia.
From S2P Require Import Prelude GoMonad Domain Ports Token.
From S2P Require Import Suppression Postgres Database Directory Templates Versions.

(** ** Successful statements *)

Section Statements.
Context {A : Type}.
Implicit Types (s : Tpl).

(** What a statement that succeeded did, and that the clock stands still. *)
Definition did (f : gotime -> Library -> Res A * Library) s (a : A) s' : Prop :=
  f (db_clock s) (db_tables s) = (Ok a, db_tables s') /\ db_clock s' = db_clock s.

Lemma exec_did wrap f s a s' : exec wrap f s = (Ok a, s') -> did f s a s'.
Proof.
  intros E. split; [by eapply exec_Ok|]. pose proof (exec_clock wrap f s) as Hc. by rewrite E in Hc.
Qed.

Lemma query_did wrap (f : Library -> Res A) s a s' : query wrap f s = (Ok a, s') ->
  f (db_tables s) = Ok a /\ db_tables s' = db_tables s /\ db_clock s' = db_clock s.
Proof.
  intros E. pose proof (exec_clock wrap (fun _ t => (f t, t)) s) as Hc. apply query_Ok in E as E'.
  unfold query in E. rewrite E in Hc. naive_solver.
Qed.

Lemma write_did msg (f : gotime -> Library -> PgError + (A * Library)) s a s' : write_stmt msg f s = (Ok a, s') ->
  f (db_clock s) (db_tables s) = inr (a, db_tables s') /\ db_clock s' = db_clock s.
Proof.
  intros [E Hc]%exec_did. split; [|done]. destruct (f _ _) as [e|[b t'] ]; [done|by injection E as -> ->].
Qed.

Lemma unclassified_did msg (f : gotime -> Library -> PgError + (A * Library)) s a s' :
  exec_unclassified msg f s = (Ok a, s') -> f (db_clock s) (db_tables s) = inr (a, db_tables s') /\ db_clock s' = db_clock s.
Proof.
  intros [E Hc]%exec_did. split; [|done]. destruct (f _ _) as [ []|[b t'] ]; [done..|by injection E as -> ->].
Qed.

(** A statement on a database that does not fail. *)
Lemma write_calm msg (f : gotime -> Library -> PgError + (A * Library)) s a t' : db_faults s = [] ->
  f (db_clock s) (db_tables s) = inr (a, t') -> write_stmt msg f s = (Ok a, set_tables (fun _ => t') s).
Proof. intros Hf E. unfold write_stmt. rewrite exec_calm by done. by rewrite E. Qed.

Lemma unclassified_calm msg (f : gotime -> Library -> PgError + (A * Library)) s a t' : db_faults s = [] ->
  f (db_clock s) (db_tables s) = inr (a, t') -> exec_unclassified msg f s = (Ok a, set_tables (fun _ => t') s).
Proof. intros Hf E. unfold exec_unclassified. rewrite exec_calm by done. by rewrite E. Qed.
End Statements.

(** ** Publication *)

Section Publication.
Context `{GoStd}.
Implicit Types (t : Library) (v : TemplateVersion).

(** The library after the draft [v] was published at [now]. *)
Definition with_published (now : gotime) v t : Library :=
  set_versions (fun m => <[ver_ID v := published_at now v]> (archive_published (ver_TemplateID v) now m)) t.

Lemma archive_lookup tid now t id : archive_published tid now (tp_versions t) !! id =
  (fun v => if of_template tid v && published v then archived now v else v) <$> tp_versions t !! id.
Proof. unfold archive_published. by rewrite lookup_fmap. Qed.

Lemma draft_not_published v : ver_Status v = VersionStatusDraft -> published v = false.
Proof. unfold published. by intros ->. Qed.

Lemma archive_keeps_draft tid now t id v : draft_version id t = Some v ->
  draft_version id (set_versions (archive_published tid now) t) = Some v.
Proof.
  intros [Hv Hd]%draft_version_Some. unfold draft_version, is_draft. simpl. rewrite archive_lookup, Hv. simpl.
  rewrite (draft_not_published v Hd), andb_false_r. by rewrite bool_decide_eq_true_2.
Qed.

Lemma archive_no_draft tid now t id : draft_version id t = None ->
  draft_version id (set_versions (archive_published tid now) t) = None.
Proof.
  unfold draft_version, is_draft. simpl. rewrite archive_lookup. destruct (tp_versions t !! id) as [v|]; [|done]. simpl.
  case_bool_decide as Hv; [done|]. intros _. destruct (_ && _); [done|]. by rewrite bool_decide_eq_false_2.
Qed.

(** After the archival nothing of the template is published. *)
Lemma archived_none tid now t id w v : archive_published tid now (tp_versions t) !! id = Some w ->
  ver_TemplateID v = tid -> both_published v w = false.
Proof.
  rewrite archive_lookup. destruct (tp_versions t !! id) as [u|]; [|done]. intros [= <-] Ht. unfold both_published.
  apply andb_false_iff. destruct (of_template tid u) eqn:Eo; simpl.
  - left. destruct (published u) eqn:Ep; [|by rewrite Ep, andb_false_r]. unfold published at 2. simpl. by rewrite andb_false_r.
  - right. unfold of_template in Eo. apply bool_decide_eq_false in Eo. apply bool_decide_eq_false. congruence.
Qed.

(** The publication of a draft cannot violate the exclusion constraint. *)
Lemma publish_archived id now t v : library_ok t -> draft_version id t = Some v ->
  publish_draft id now (set_versions (archive_published (ver_TemplateID v) now) t) = inr (1, with_published now v t).
Proof.
  intros Hok Hd. pose proof (archive_keeps_draft (ver_TemplateID v) now _ _ _ Hd) as Ha.
  apply draft_version_Some in Hd as [Hv _]. pose proof (versions_keyed _ Hok _ _ Hv) as <-.
  unfold publish_draft. rewrite Ha. rewrite bool_decide_eq_true_2; [done|]. apply rows_nil. intros i w Hw. simpl in Hw.
  by eapply archived_none.
Qed.

(** What the body of the transaction did when it returned. *)
Lemma publish_body s r s' id : library_ok (db_tables s) ->
  Publish id s = (r, s') ->
  (is_ok r = false /\ db_tables s' = db_tables s) \/
  (exists v, draft_version id (db_tables s) = Some v /\
     (exists now, db_tables s' = with_published now v (db_tables s)) /\ (r = Ok tt \/ is_ok r = false)).
Proof.
  intros Hok E. apply in_tx_cases in E as [?|(s1 & [] & s2 & E1 & E & E2 & Hr)]; [by left|]. right.
  rewrite <- E1 in *. clear E1 s. rewrite E2. clear E2 s'.
  apply bind_Ok in E as (tid & s3 & (Eq & E3 & _)%query_did & E). rewrite <- E3 in *. clear E3 s1.
  destruct (tp_versions (db_tables s3) !! id) as [v|] eqn:Ev; [|done]. injection Eq as <-.
  apply bind_Ok in E as ([] & s4 & (_ & E4 & _)%query_did & E). rewrite <- E4 in *. clear E4 s3.
  apply bind_Ok in E as ([] & s5 & [ E5 Hc]%exec_did & E). injection E5 as E5.
  apply bind_Ok in E as (n & s6 & [E6 _]%unclassified_did & E). rewrite <- E5, Hc in E6.
  case_bool_decide as Hn; [done|]. injection E as ->.
  destruct (draft_version id (db_tables s4)) as [w|] eqn:Ed.
  - apply draft_version_Some in Ed as Ew. rewrite Ev in Ew. destruct Ew as [ [= ->] _].
    rewrite (publish_archived _ _ _ _ Hok Ed) in E6. injection E6 as _ <-. exists w. eauto.
  - unfold publish_draft in E6. rewrite (archive_no_draft _ _ _ _ Ed) in E6. injection E6 as <- _. done.
Qed.

(** A draft of a database that does not fail is published. *)
Lemma publish_calm s id v : library_ok (db_tables s) -> db_faults s = [] -> draft_version id (db_tables s) = Some v ->
  (Publish id s).1 = Ok tt.
Proof.
  intros Hok Hf Hd. apply draft_version_Some in Hd as Hv. destruct Hv as [Hv _].
  assert (Hlock : is_Some (tp_templates (db_tables s) !! ver_TemplateID v)) by by eapply versions_template.
  assert (E : exists s2, db_faults s2 = [] /\
    (let! templateID := query (wrapping "looking up template version") (fun t =>
       match tp_versions t !! id with
       | Some v => Ok (ver_TemplateID v)
       | None => Err (NotFound ("template version " +:+ uuid_String id +:+ " not found"))
       end) in
     lock_template "lock template" templateID ;;;
     exec (wrapping "archiving previous version") (fun now t => (Ok tt, set_versions (archive_published templateID now) t)) ;;;
     let! affected := exec_unclassified "publishing version" (publish_draft id) in
     if bool_decide (affected = 0)
     then fail (Conflict ("version " +:+ uuid_String id +:+ " is not in draft status"))
     else ret tt) s = (Ok tt, s2)).
  { unfold bind at 1. rewrite query_calm, Hv by done. cbv iota beta.
    unfold bind at 1, lock_template. rewrite query_calm, bool_decide_eq_true_2 by done.
    unfold bind at 1. rewrite exec_calm by done. cbn -[publish_draft].
    unfold bind. erewrite unclassified_calm; [|done|cbn -[publish_draft]; by apply publish_archived].
    eexists. split; [|reflexivity]. done. }
  destruct E as (s2 & Hf2 & E). unfold Publish. rewrite in_tx_calm; rewrite ?E; done.
Qed.
End Publication.

(** C20: Publishing a version is all or nothing. Either the library is as it was
    and an error is returned, or the version was a draft and now is the one
    published version of its template, the versions published before are
    archived, and nothing else changed; the error then can only be a lost reply
    of the commit. On a database that does not fail, publishing succeeds exactly
    on the drafts. *)
Theorem Publish_exact `{GoStd} id s r s' :
  library_ok (db_tables s) -> Publish id s = (r, s') ->
  ((is_ok r = false /\ db_tables s' = db_tables s) \/
   (exists v now, draft_version id (db_tables s) = Some v /\ db_tables s' = with_published now v (db_tables s) /\
      rows (fun w => of_template (ver_TemplateID v) w && published w) (tp_versions (db_tables s')) = [published_at now v] /\
      (r = Ok tt \/ is_ok r = false))) /\
  (db_faults s = [] -> is_ok r = true <-> is_Some (draft_version id (db_tables s))).
Proof.
  intros Hok E. pose proof (Publish_keeps id s) as [Hk _]. rewrite E in Hk. specialize (Hk Hok). simpl in Hk. split.
  - destruct (publish_body s r s' id Hok E) as [?|(v & Hd & [now Et] & Hr)]; [by left|]. right.
    exists v, now. split_and!; [done..| |done].
    assert (Hin : published_at now v ∈ rows (fun w => of_template (ver_TemplateID v) w && published w) (tp_versions (db_tables s'))).
    { apply elem_of_rows. split; [|unfold of_template; simpl; by rewrite bool_decide_eq_true_2].
      exists (ver_ID v). rewrite Et. simpl. apply lookup_insert_eq. }
    apply Permutation_singleton_r, NoDup_Permutation; [|apply NoDup_singleton|].
    { eapply NoDup_fmap_1. apply (rows_distinct ver_ID). exact (versions_keyed _ Hk). }
    intros w. rewrite list_elem_of_singleton. split; [|by intros ->]. intros [ [i Hi] Hp]%elem_of_rows.
    apply elem_of_rows in Hin as [ [j Hj] Hq]. apply andb_true_iff in Hp as [Ho Hp], Hq as [_ Hq].
    assert (i = j) as ->; [|congruence]. apply (versions_published _ Hk i j w (published_at now v)); [done..|].
    unfold both_published. rewrite Hp, Hq. unfold of_template in Ho. apply bool_decide_eq_true in Ho. simpl. by apply bool_decide_eq_true.
  - intros Hf. split.
    + intros Hr. destruct (publish_body s r s' id Hok E) as [ [? _]|(v & -> & _)]; [congruence|done].
    + intros [v Hd]. pose proof (publish_calm s id v Hok Hf Hd) as Ec. rewrite E in Ec. simpl in Ec. by rewrite Ec.
Qed.
