(* ===== verification/Copies.v ===== *)
(** * Clones and forks

    A clone copies a version into a new draft of the same template, a fork
    copies a template with all its versions into a workspace: what each leaves
    in the library, exactly. *)
From stdpp Require Import base gmap strings list sorting.
From Stdlib Require Import ZArith NArith Ascii String Lia.
From S2P Require Import Prelude GoMonad Domain Ports Token.
From S2P Require Import Suppression Postgres Database Directory Templates Versions Publication.

(** ** Locale overrides *)

(** What an override says, without its keys. *)
Definition override (l : TemplateVersionLocale) : string * option string * option string * option string * option string * option fields_map :=
  (loc_Locale l, loc_Subject l, loc_PreviewText l, loc_FromName l, loc_BodyMJML l, loc_EditorData l).
Definition overrides (versionID : uuid) (t : Library) := override <$> rows (of_version versionID) (tp_locales t).

(** Only the rows [new] were added to the overrides. *)
Record adds (t t' : Library) (new : list TemplateVersionLocale) : Prop := {
  adds_tables : t' = set_locales (fun _ => tp_locales t') t;
  adds_kept : tp_locales t ⊆ tp_locales t';
  adds_rows p : rows p (tp_locales t') ≡ₚ List.filter p new ++ rows p (tp_locales t);
  adds_new id l : tp_locales t' !! id = Some l -> tp_locales t !! id = Some l \/ l ∈ new;
}.

Lemma adds_nil t : adds t t [].
Proof. split; [by destruct t|done|done|by left]. Qed.

Lemma adds_trans t1 t2 t3 n1 n2 : adds t1 t2 n1 -> adds t2 t3 n2 -> adds t1 t3 (n2 ++ n1).
Proof.
  intros [E12 S12 R12 N12] [E23 S23 R23 N23]. split.
  - rewrite E23, E12. by destruct t1.
  - by etrans.
  - intros p. by rewrite R23, R12, List.filter_app, app_assoc.
  - intros id l Hl. rewrite elem_of_app. apply N23 in Hl as [Hl|?]; [apply N12 in Hl as [?|?]|]; auto.
Qed.

Lemma filter_all {A} (p : A -> bool) l : Forall (fun a => p a = true) l -> List.filter p l = l.
Proof. induction 1 as [|a l Ha _ IH]; simpl; [done|]. by rewrite Ha, IH. Qed.
Lemma filter_none {A} (p : A -> bool) l : Forall (fun a => p a = false) l -> List.filter p l = [].
Proof. induction 1 as [|a l Ha _ IH]; simpl; [done|]. by rewrite Ha, IH. Qed.

Lemma adds_overrides t t' new id : adds t t' new ->
  overrides id t' ≡ₚ (override <$> List.filter (of_version id) new) ++ overrides id t.
Proof. intros [_ _ R _]. unfold overrides. by rewrite R, fmap_app. Qed.

(** The rows of one version. *)
Definition all_of (id : uuid) (new : list TemplateVersionLocale) : Prop := Forall (fun l => of_version id l = true) new.

Lemma all_of_other id id' new : id <> id' -> all_of id new -> List.filter (of_version id') new = [].
Proof.
  intros Hne Ha. apply filter_none. eapply Forall_impl; [done|]. intros l. unfold of_version.
  rewrite bool_decide_eq_true, bool_decide_eq_false. congruence.
Qed.

Section Locales.
Context `{GoStd}.

Lemma copied_locale_did msg id l s s' : insert_copied_locale msg id l s = (Ok tt, s') ->
  exists new, adds (db_tables s) (db_tables s') [new] /\ override new = override l /\ of_version id new = true /\
    db_clock s' = db_clock s.
Proof.
  intros (i & s1 & E1 & E2)%bind_Ok. injection E1 as <- <-. apply write_did in E2 as [E Hc]. simpl in *.
  destruct (insert_locale_cases (copy_locale (db_ids s) id (db_clock s) l) (db_tables s)) as [ [e Ee]|(Ei & Hn & _)];
    rewrite ?Ee, ?Ei in E; [done|]. injection E as <-.
  exists (copy_locale (db_ids s) id (db_clock s) l). split_and!; [|done| |done].
  - split; simpl; [done|by apply insert_subseteq| |].
    + intros p. rewrite rows_insert by done. by destruct (p _).
    + intros j x [ [_ <-]|[_ Hx] ]%lookup_insert_Some; [right; left|by left].
  - unfold of_version. by rewrite bool_decide_eq_true_2.
Qed.

Lemma copied_locales_did msg id ls s s' : for_each ls (fun l => insert_copied_locale (msg l) id l) s = (Ok tt, s') ->
  exists new, adds (db_tables s) (db_tables s') new /\ (override <$> new) ≡ₚ (override <$> ls) /\ all_of id new /\
    db_clock s' = db_clock s.
Proof.
  revert s. induction ls as [|l ls IH]; intros s.
  { intros [= <-]. exists []. split_and!; [apply adds_nil|done|by constructor|done]. }
  intros ([] & s1 & (n & An & En & Hn & Hc)%copied_locale_did & (new & Ai & Ei & Hi & Hc')%IH)%bind_Ok.
  exists (new ++ [n]). split_and!; [by eapply adds_trans| | |congruence].
  - rewrite fmap_app, Ei. simpl. rewrite En. symmetry. apply Permutation_cons_append.
  - apply Forall_app. split; [done|by constructor].
Qed.

Lemma locales_of_perm id t : (override <$> locales_of id t) ≡ₚ overrides id t.
Proof. unfold locales_of, overrides. by rewrite merge_sort_Permutation. Qed.

(** The overrides of each first version copied to the second one. *)
Lemma copied_pairs_did (pairs : list (uuid * uuid)) s s' :
  for_each pairs (fun '(sourceVersionID, targetVersionID) =>
    let! locales := query (wrapping "listing locales for forked template version")
                      (fun t => Ok (locales_of sourceVersionID t)) in
    for_each locales (fun l =>
      insert_copied_locale ("copying locale " +:+ loc_Locale l +:+ " during template fork") targetVersionID l)) s = (Ok tt, s') ->
  NoDup pairs.*2 -> (forall a, a ∈ pairs.*1 -> a ∉ pairs.*2) ->
  exists new, adds (db_tables s) (db_tables s') new /\ Forall (fun l => loc_TemplateVersionID l ∈ pairs.*2) new /\
    forall a b, (a, b) ∈ pairs -> (override <$> List.filter (of_version b) new) ≡ₚ overrides a (db_tables s).
Proof.
  revert s. induction pairs as [|[a b] pairs IH]; intros s.
  { intros [= <-] _ _. exists []. split_and!; [apply adds_nil|by constructor|set_solver]. }
  intros ([] & s1 & E1 & E2)%bind_Ok Hn Hd. csimpl in Hn; csimpl in Hd; csimpl. apply NoDup_cons in Hn as [Hb Hn].
  apply bind_Ok in E1 as (ls & s0 & ([= <-] & Et & _)%query_did & (n & An & En & Hall & _)%copied_locales_did).
  rewrite Et in *. apply IH in E2 as (new & Ai & Hi & Hp); [|done|intros x Hx Hy; apply (Hd x); by right].
  exists (new ++ n). split_and!; [by eapply adds_trans| |].
  - apply Forall_app. split; (eapply Forall_impl; [done|]); simpl; intros l; [by right|].
    unfold of_version. rewrite bool_decide_eq_true. intros ->. left.
  - intros a' b' [ [= -> ->]|Hin]%elem_of_cons; rewrite List.filter_app, fmap_app.
    + rewrite (filter_all _ n Hall), En, locales_of_perm, filter_none; [done|].
      eapply Forall_impl; [done|]. simpl. intros l Hl. unfold of_version. apply bool_decide_eq_false. intros El. by rewrite El in Hl.
    + assert (Hb' : b' ∈ pairs.*2) by (by apply (list_elem_of_fmap_2 snd _ _ Hin)).
      assert (Ha' : a' ∈ pairs.*1) by (by apply (list_elem_of_fmap_2 fst _ _ Hin)).
      rewrite (Hp _ _ Hin), (all_of_other b b' n), app_nil_r; [|intros <-; done|done].
      rewrite (adds_overrides _ _ _ _ An), (all_of_other b a' n); [done| |done].
      intros <-. apply (Hd b); [by right|left].
Qed.
End Locales.

(** ** Clones *)

Lemma foldr_max_ge n l x : x ∈ n :: l -> (x <= foldr Z.max n l)%Z.
Proof.
  induction l as [|y l IH]; simpl; [set_solver|].
  intros [->|[->|Hx]%elem_of_cons]%elem_of_cons; [|lia|]; etrans; [|apply Z.le_max_r| |apply Z.le_max_r]; apply IH; set_solver.
Qed.

(** The next number is above every number of the template. *)
Lemma max_number_ge tid t id v : tp_versions t !! id = Some v -> ver_TemplateID v = tid ->
  (ver_VersionNumber v <= max_number tid t)%Z.
Proof.
  intros Hv Ht. unfold max_number.
  assert (Hin : ver_VersionNumber v ∈ ver_VersionNumber <$> rows (of_template tid) (tp_versions t)).
  { apply list_elem_of_fmap_2, elem_of_rows. split; [eauto|]. unfold of_template. by apply bool_decide_eq_true. }
  destruct (ver_VersionNumber <$> _) as [|n l]; [set_solver|]. by apply foldr_max_ge.
Qed.

(** A version that is not there has no overrides. *)
Lemma no_overrides t id : library_ok t -> tp_versions t !! id = None -> overrides id t = [].
Proof.
  intros Hok Hid. unfold overrides. replace (rows (of_version id) (tp_locales t)) with (@nil TemplateVersionLocale); [done|].
  symmetry. apply rows_nil. intros i l Hl. unfold of_version. apply bool_decide_eq_false. intros <-.
  destruct (locales_version _ Hok _ _ Hl). congruence.
Qed.

(** [t'] is [t] with the draft [c] and its overrides, copied from [src]. *)
Record cloned (src : uuid) (c : TemplateVersion) (t t' : Library) : Prop := {
  cloned_fresh : tp_versions t !! ver_ID c = None;
  cloned_versions : tp_versions t' = <[ver_ID c := c]> (tp_versions t);
  cloned_overrides : overrides (ver_ID c) t' ≡ₚ overrides src t;
  cloned_others id : id <> ver_ID c -> overrides id t' ≡ₚ overrides id t;
  cloned_kept : tp_locales t ⊆ tp_locales t';
  cloned_new id l : tp_locales t' !! id = Some l -> tp_locales t !! id = Some l \/ loc_TemplateVersionID l = ver_ID c;
  cloned_rest : tp_templates t' = tp_templates t /\ tp_types t' = tp_types t /\ tp_dir t' = tp_dir t;
}.

Section Clone.
Context `{GoStd}.

Lemma insertClonedVersion_did c s v s' : insertClonedVersion c s = (Ok v, s') ->
  v = fresh_version (db_clock s) (max_number (ver_TemplateID c) (db_tables s) + 1) c /\
  (max_number (ver_TemplateID c) (db_tables s) + 1 < 2 ^ 31)%Z /\
  tp_versions (db_tables s) !! ver_ID c = None /\ db_tables s' = set_versions <[ver_ID c := v]> (db_tables s).
Proof.
  intros (n & s1 & (En & Et & Hc)%query_did & [E _]%write_did)%bind_Ok. rewrite Et, Hc in E. cbv zeta in E, En.
  destruct (_ <? _)%Z eqn:Hlt; [|done]. injection En as <-. apply Z.ltb_lt in Hlt.
  match type of E with context [insert_version ?r ?t] => destruct (insert_version_cases r t) as [ [e Ee]|(Ei & Hid & _)] end;
    rewrite ?Ee, ?Ei in E; [done|]. injection E as <- <-. done.
Qed.

Lemma clone_body tid src by_ s r s' : library_ok (db_tables s) ->
  TemplateRepo_CloneVersion tid src by_ s = (r, s') ->
  (is_ok r = false /\ db_tables s' = db_tables s) \/
  (exists v c, tp_versions (db_tables s) !! src = Some v /\ ver_TemplateID v = tid /\
     content c = content v /\ ver_TemplateID c = tid /\ ver_Status c = VersionStatusDraft /\ ver_CreatedBy c = by_ /\
     ver_VersionNumber c = (max_number tid (db_tables s) + 1)%Z /\
     ver_PublishedAt c = None /\ ver_ArchivedAt c = None /\
     cloned src c (db_tables s) (db_tables s') /\ (r = Ok c \/ is_ok r = false)).
Proof.
  intros Hok E. apply in_tx_cases in E as [?|(s1 & c & s2 & E1 & E & E2 & Hr)]; [by left|]. right.
  rewrite <- E1 in *. clear E1 s. rewrite E2. clear E2 s'.
  apply bind_Ok in E as ([] & s3 & (_ & E3 & _)%query_did & E).
  apply bind_Ok in E as (v & s4 & (Ev & E4 & _)%query_did & E). rewrite E3 in *.
  destruct (tp_versions (db_tables s1) !! src) as [w|] eqn:Hw; [|done]. destruct (of_template tid w) eqn:Ht; [|done].
  injection Ev as <-. unfold of_template in Ht. apply bool_decide_eq_true in Ht.
  apply bind_Ok in E as (ls & s5 & ([= <-] & E5 & _)%query_did & E). rewrite E4 in *.
  apply bind_Ok in E as (id & s6 & E6 & E). injection E6 as <- <-.
  apply bind_Ok in E as (c' & s7 & (Ec & _ & Hid & E7)%insertClonedVersion_did & E). simpl in Ec, Hid, E7. rewrite E5 in *.
  apply bind_Ok in E as ([] & s8 & (new & Ad & En & Ha & _)%copied_locales_did & E). injection E as <- <-.
  exists w, c'. rewrite E7 in Ad. pose proof (adds_tables _ _ _ Ad) as Eall.
  assert (Hver : ver_ID c' = db_ids s5) by by subst c'.
  assert (Hcw : content c' = content w) by by subst c'; destruct w.
  split_and!; try done; try by subst c'.
  split; rewrite ?Hver.
  - done.
  - by rewrite Eall.
  - rewrite (adds_overrides _ _ _ _ Ad), <- Hver, (filter_all _ new), En, locales_of_perm by done. rewrite Hver.
    change (overrides (db_ids s5) (set_versions _ _)) with (overrides (db_ids s5) (db_tables s1)).
    rewrite (no_overrides _ (db_ids s5)), app_nil_r by done. done.
  - intros i Hi. rewrite (adds_overrides _ _ _ _ Ad), (all_of_other (ver_ID c') i) by (done || congruence). done.
  - etrans; [|exact (adds_kept _ _ _ Ad)]. done.
  - intros i l Hl. apply (adds_new _ _ _ Ad) in Hl as [Hl|Hl]; [by left|right]. unfold all_of in Ha. rewrite Forall_forall in Ha.
    specialize (Ha l Hl). unfold of_version in Ha. apply bool_decide_eq_true in Ha. congruence.
  - by rewrite Eall.
Qed.
End Clone.

(** Cloning a version is all or nothing and copies exactly: the clone is a new
    draft of the same template, numbered above every version of it, with the
    content of the source and the same locale overrides; no other version, no
    override of another version and no template changes. *)
Theorem CloneVersion_exact `{GoStd} templateID src createdBy s r s' :
  library_ok (db_tables s) -> TemplateRepo_CloneVersion templateID src createdBy s = (r, s') ->
  (is_ok r = false /\ db_tables s' = db_tables s) \/
  (exists v c, tp_versions (db_tables s) !! src = Some v /\ ver_TemplateID v = templateID /\
     content c = content v /\ ver_TemplateID c = templateID /\ ver_Status c = VersionStatusDraft /\
     (forall id w, tp_versions (db_tables s) !! id = Some w -> ver_TemplateID w = templateID ->
        (ver_VersionNumber w < ver_VersionNumber c)%Z) /\
     cloned src c (db_tables s) (db_tables s') /\ (r = Ok c \/ is_ok r = false)).
Proof.
  intros Hok [?|(v & c & Hv & Ht & Hc & Htc & Hs & _ & Hn & _ & _ & Hcl & Hr)]%clone_body; [by left| |done].
  right. exists v, c. split_and!; [done..| |done|done]. intros id w Hw Htw. pose proof (max_number_ge _ _ _ _ Hw Htw). lia.
Qed.

(** ** Forks *)

(** The copies of the versions [vs]: each with its new identifier. *)
Record forked_versions (id : uuid) (createdBy : option uuid) (now : gotime) (pairs : list (TemplateVersion * uuid))
    (t t' : Library) : Prop := {
  forked_tables : t' = set_versions (fun _ => tp_versions t') t;
  forked_fresh i : i ∈ pairs.*2 -> tp_versions t !! i = None;
  forked_distinct : NoDup pairs.*2;
  forked_rows v i : (v, i) ∈ pairs -> tp_versions t' !! i = Some (forked_version i id createdBy now v);
  forked_others i : i ∉ pairs.*2 -> tp_versions t' !! i = tp_versions t !! i;
}.

Lemma forked_nil id by_ now t : forked_versions id by_ now [] t t.
Proof. split; [by destruct t|set_solver|constructor|set_solver|done]. Qed.

Lemma forked_cons id by_ now v i pairs t t' :
  tp_versions t !! i = None ->
  forked_versions id by_ now pairs (set_versions <[i := forked_version i id by_ now v]> t) t' ->
  forked_versions id by_ now ((v, i) :: pairs) t t'.
Proof.
  intros Hi [Et Hf Hd Hr Ho]. simpl in *.
  assert (Hni : i ∉ pairs.*2).
  { intros Hin. specialize (Hf i Hin). by rewrite lookup_insert_eq in Hf. }
  split; csimpl.
  - rewrite Et. by destruct t.
  - intros j [->|Hj]%elem_of_cons; [done|]. specialize (Hf j Hj). by apply lookup_insert_None in Hf as [? _].
  - by apply NoDup_cons.
  - intros w j [ [= -> ->]|Hj]%elem_of_cons; [|by apply Hr]. rewrite Ho by done. apply lookup_insert_eq.
  - intros j Hj. rewrite not_elem_of_cons in Hj. destruct Hj as [Hj1 Hj2]. rewrite Ho by done. by rewrite lookup_insert_ne.
Qed.

Section Fork.
Context `{GoStd}.

Lemma copy_versions_did id by_ vs m s m' s' :
  for_fold vs m (fun versionIDMap v =>
    let! targetVersionID := NewV7 db_runtime in
    write_stmt "copying template version during fork"
      (fun now => insert_version (forked_version targetVersionID id by_ now v)) ;;;
    ret (<[ver_ID v := targetVersionID]> versionIDMap)) s = (Ok m', s') ->
  NoDup (ver_ID <$> vs) -> (forall v, v ∈ vs -> m !! ver_ID v = None) ->
  exists pairs, pairs.*1 = vs /\ forked_versions id by_ (db_clock s) pairs (db_tables s) (db_tables s') /\
    map_to_list m' ≡ₚ ((fun p => (ver_ID p.1, p.2)) <$> pairs) ++ map_to_list m /\ db_clock s' = db_clock s.
Proof.
  revert m s. induction vs as [|v vs IH]; intros m s.
  { intros [= <- <-] _ _. exists []. split_and!; [done|apply forked_nil|done..]. }
  intros (m1 & s1 & E1 & E2)%bind_Ok Hn Hm. csimpl in Hn. apply NoDup_cons in Hn as [Hv Hn].
  apply bind_Ok in E1 as (i & s2 & E3 & E1). injection E3 as <- <-.
  apply bind_Ok in E1 as ([] & s3 & [E3 Hc]%write_did & E1). injection E1 as <- <-. simpl in E3, Hc.
  destruct (insert_version_cases (forked_version (db_ids s) id by_ (db_clock s) v) (db_tables s)) as [ [e Ee]|(Ei & Hid & _)];
    rewrite ?Ee, ?Ei in E3; [done|]. injection E3 as Et. simpl in Hid.
  apply IH in E2 as (pairs & Ep & Hf & Hl & Hc'); [|done|].
  - exists ((v, db_ids s) :: pairs). rewrite <- Et, Hc in Hf. split_and!; [csimpl; by rewrite Ep|by apply forked_cons| |congruence].
    rewrite Hl, map_to_list_insert by (apply Hm; left). csimpl. by rewrite Permutation_middle.
  - intros w Hw. rewrite lookup_insert_ne; [apply Hm; by right|]. intros E. apply Hv. rewrite E. by apply list_elem_of_fmap_2.
Qed.
End Fork.

(** [t'] is [t] with the template [f], a copy for [workspaceID] of the live
    template [source]; [pairs] gives the copy of each of its versions. *)
Record forked (source : Template) (workspaceID : uuid) (createdBy : option uuid) (f : Template)
    (pairs : list (TemplateVersion * uuid)) (t t' : Library) : Prop := {
  forked_template : tpl_TemplateTypeID f = tpl_TemplateTypeID source /\ tpl_WorkspaceID f = Some workspaceID /\
    tpl_IsDisabled f = tpl_IsDisabled source /\ tpl_IsFork f = true /\ tpl_OriginTemplateID f = Some (tpl_ID source) /\
    tpl_DeletedAt f = None;
  forked_template_fresh : tp_templates t !! tpl_ID f = None;
  forked_templates : tp_templates t' = <[tpl_ID f := f]> (tp_templates t);
  forked_all : pairs.*1 ≡ₚ rows (of_template (tpl_ID source)) (tp_versions t);
  forked_ids : NoDup pairs.*2 /\ forall i, i ∈ pairs.*2 -> tp_versions t !! i = None;
  forked_copy v i : (v, i) ∈ pairs ->
    (exists now, tp_versions t' !! i = Some (forked_version i (tpl_ID f) createdBy now v)) /\
    overrides i t' ≡ₚ overrides (ver_ID v) t;
  forked_same i : i ∉ pairs.*2 -> tp_versions t' !! i = tp_versions t !! i /\ overrides i t' ≡ₚ overrides i t;
  forked_kept : tp_locales t ⊆ tp_locales t';
  forked_new id l : tp_locales t' !! id = Some l -> tp_locales t !! id = Some l \/ loc_TemplateVersionID l ∈ pairs.*2;
  forked_rest : tp_types t' = tp_types t /\ tp_dir t' = tp_dir t;
}.

Section ForkTheorem.
Context `{GoStd} `{MapRangeLaws}.

Lemma fork_versions_perm id t : fork_versions_of id t ≡ₚ rows (of_template id) (tp_versions t).
Proof. apply merge_sort_Permutation. Qed.

(** The identifiers a map of copies ranges over. *)
Lemma range_pairs pairs (m : gmap uuid uuid) :
  map_to_list m ≡ₚ ((fun p : TemplateVersion * uuid => (ver_ID p.1, p.2)) <$> pairs) ++ map_to_list (∅ : gmap uuid uuid) ->
  map_range m ≡ₚ (fun p => (ver_ID p.1, p.2)) <$> pairs.
Proof. intros Hl. rewrite map_range_perm, Hl, map_to_list_empty, app_nil_r. done. Qed.

Lemma fork_body src ws by_ s r s' : library_ok (db_tables s) ->
  TemplateRepo_ForkTemplate src ws by_ s = (r, s') ->
  (is_ok r = false /\ db_tables s' = db_tables s) \/
  (exists source f pairs, live_template src (db_tables s) = Some source /\
     forked source ws by_ f pairs (db_tables s) (db_tables s') /\ (r = Ok f \/ is_ok r = false)).
Proof.
  intros Hok E. apply in_tx_cases in E as [?|(s1 & f & s2 & E1 & E & E2 & Hr)]; [by left|]. right.
  rewrite <- E1 in *. clear E1 s. rewrite E2. clear E2 s'.
  apply bind_Ok in E as (source & s3 & (Es & E3 & _)%query_did & E).
  destruct (live_template src (db_tables s1)) as [w|] eqn:Hw; [|done]. injection Es as ->.
  pose proof (live_template_Some _ _ _ Hw) as [Hsrc _]. pose proof (templates_keyed _ Hok _ _ Hsrc) as Hid.
  apply bind_Ok in E as (id & s4 & E4 & E). injection E4 as <- <-.
  apply bind_Ok in E as (f' & s5 & [E5 Hc5]%write_did & E). simpl in E5. rewrite E3 in E5.
  destruct (insert_template_cases (db_clock s3) (fork_of (db_ids s3) ws source) (db_tables s1)) as [ [e Ee]|(Ei & Hf & _)];
    rewrite ?Ee, ?Ei in E5; [done|]. injection E5 as <- E5. simpl in Hf.
  apply bind_Ok in E as (vs & s6 & ([= <-] & E6 & Hc6)%query_did & E).
  assert (Evs : fork_versions_of src (db_tables s5) ≡ₚ rows (of_template src) (tp_versions (db_tables s1))).
  { rewrite fork_versions_perm, <- E5. done. }
  assert (Hkeys : NoDup (ver_ID <$> fork_versions_of src (db_tables s5))).
  { rewrite Evs. apply rows_distinct, (versions_keyed _ Hok). }
  apply bind_Ok in E as (m & s7 & (pairs & Ep & Hfv & Hl%range_pairs & _)%copy_versions_did & E); [|done|intros; apply lookup_empty].
  apply bind_Ok in E as ([] & s8 & E8 & E). injection E as <- <-.
  destruct Hfv as [Et7 Hfresh Hnd Hrows Hoth]. rewrite E6, <- E5 in *. simpl in Hfresh, Hoth.
  assert (Hexists : forall v, v ∈ pairs.*1 -> exists i, tp_versions (db_tables s1) !! i = Some v /\ ver_ID v = i /\ ver_TemplateID v = src).
  { intros v Hv. rewrite Ep, Evs in Hv. apply elem_of_rows in Hv as [ [i Hi] Hv]. exists i. unfold of_template in Hv.
    apply bool_decide_eq_true in Hv. split_and!; [done| |done]. exact (versions_keyed _ Hok _ _ Hi). }
  assert (E2 : (map_range m).*2 ≡ₚ pairs.*2) by by rewrite Hl, <- list_fmap_compose.
  apply copied_pairs_did in E8 as (new & Ad & Hnew & Hcopy); [|by rewrite E2|].
  2:{ intros a Ha Hb. rewrite E2 in Hb. apply list_elem_of_fmap in Ha as ([a1 a2] & -> & Ha). rewrite Hl in Ha.
      apply list_elem_of_fmap in Ha as ([v i] & [= -> ->] & Ha). simpl in Hb.
      destruct (Hexists v) as (j & Hj & <- & _); [by apply (list_elem_of_fmap_2 fst _ _ Ha)|].
      specialize (Hfresh _ Hb). congruence. }
  pose proof (adds_tables _ _ _ Ad) as E8. rewrite Et7 in E8, Ad.
  assert (Hloc7 : tp_locales (db_tables s7) = tp_locales (db_tables s1)) by by rewrite Et7.
  exists source, (with_template_times (db_clock s3) (fork_of (db_ids s3) ws source)), pairs. split_and!; [done| |done].
  assert (Hv8 : tp_versions (db_tables s8) = tp_versions (db_tables s7)) by by rewrite E8.
  split.
  - done.
  - done.
  - rewrite E8. done.
  - by rewrite Ep, Hid.
  - done.
  - intros v i Hvi. split; [exists (db_clock s6); rewrite Hv8; by apply Hrows|].
    assert (Hin : (ver_ID v, i) ∈ map_range m) by (rewrite Hl; by apply (list_elem_of_fmap_2 (fun p : TemplateVersion * uuid => (ver_ID p.1, p.2)) _ _ Hvi)).
    rewrite (adds_overrides _ _ _ _ Ad), (Hcopy _ _ Hin).
    change (overrides i (set_versions _ _)) with (overrides i (db_tables s1)).
    rewrite (no_overrides _ i Hok), app_nil_r; [|apply Hfresh; by apply (list_elem_of_fmap_2 snd _ _ Hvi)].
    unfold overrides. by rewrite Hloc7.
  - intros i Hi. split; [rewrite Hv8; by apply Hoth|]. rewrite (adds_overrides _ _ _ _ Ad), filter_none; [done|].
    eapply Forall_impl; [done|]. simpl. intros l Hl'. rewrite E2 in Hl'. unfold of_version. apply bool_decide_eq_false.
    intros El. by rewrite El in Hl'.
  - etrans; [|exact (adds_kept _ _ _ Ad)]. done.
  - intros i l Hl'. apply (adds_new _ _ _ Ad) in Hl' as [Hl'|Hl']; [by left|right]. rewrite Forall_forall in Hnew.
    rewrite <- E2. by apply Hnew.
  - by rewrite E8.
Qed.
End ForkTheorem.

(** C22: Forking a template is all or nothing and copies it whole: a new template of
    the same type in the target workspace, marked as a fork of its origin, with
    one copy of every version of the source - number, status, content, times of
    publication and archival - and of every locale override, whatever order the
    runtime ranges over the versions in; every other template, version and
    override is as it was. *)
Theorem ForkTemplate_exact `{GoStd} `{MapRangeLaws} sourceTemplateID workspaceID createdBy s r s' :
  library_ok (db_tables s) -> TemplateRepo_ForkTemplate sourceTemplateID workspaceID createdBy s = (r, s') ->
  (is_ok r = false /\ db_tables s' = db_tables s) \/
  (exists source f pairs, live_template sourceTemplateID (db_tables s) = Some source /\
     forked source workspaceID createdBy f pairs (db_tables s) (db_tables s') /\
     (forall v i, (v, i) ∈ pairs -> exists w, tp_versions (db_tables s') !! i = Some w /\ content w = content v /\
        ver_VersionNumber w = ver_VersionNumber v /\ ver_Status w = ver_Status v /\ ver_TemplateID w = tpl_ID f) /\
     (r = Ok f \/ is_ok r = false)).
Proof.
  intros Hok [?|(source & f & pairs & Hl & Hf & Hr)]%fork_body; [by left| |done]. right. exists source, f, pairs.
  split_and!; [done|done| |done]. intros v i Hvi. destruct (forked_copy _ _ _ _ _ _ _ Hf _ _ Hvi) as [ [now Hw] _].
  eexists. split; [exact Hw|]. unfold forked_version. by rewrite content_mk.
Qed.
