(* ===== verification/TemplateHandlers.v ===== *)
(** * Template management ([http/handler/template.go], [template_type.go])

    The handlers of templates, versions, locale overrides and template types,
    with the responses of [response/template.go]. *)
From stdpp Require Import base gmap strings list sorting.
From Stdlib Require Import ZArith NArith Ascii String Lia.
From S2P Require Import Prelude GoMonad Domain Ports Token Config Http.
From S2P Require Import Suppression Postgres Database Directory Auth Members Inheritance Templates.

(** The directory's stores over the library. *)
Section DirectoryStores.
Context `{GoStd} `{Codec} (ilike : string -> string -> bool).

Definition of_directory {A} (m : M Dir A) : M Tpl A := focus tp_dir set_dir m.

Definition LibTenants : TenantStore.t Tpl := {|
  TenantStore.Create := fun t => of_directory (TenantRepo_Create t);
  TenantStore.GetByID := fun id => of_directory (TenantRepo_GetByID id);
  TenantStore.GetByCode := fun code => of_directory (TenantRepo_GetByCode code);
  TenantStore.List := fun opts => of_directory (TenantRepo_List ilike opts);
  TenantStore.Update := fun t => of_directory (TenantRepo_Update t);
  TenantStore.SoftDelete := fun id => of_directory (TenantRepo_SoftDelete id);
|}.

Definition LibWorkspaces : WorkspaceStore.t Tpl := {|
  WorkspaceStore.GetByID := fun id => of_directory (WorkspaceRepo_GetByID id);
  WorkspaceStore.GetByTenantAndCode := fun tid code env => of_directory (GetByTenantAndCode tid code env);
  WorkspaceStore.GetSystemWorkspace := fun tid env => of_directory (GetSystemWorkspace tid env);
  WorkspaceStore.ListByTenant := fun tid env limit cursor =>
    of_directory (ListByTenant ilike tid env (mkListOptions cursor limit ""));
|}.
End DirectoryStores.

(** ** Responses *)

Section Responses.
Context `{GoStd}.

(** [omitempty] on a string. *)
Definition filled (name : string) (s : string) : list (string * any) := if bool_decide (s = "") then [] else text name s.

(** A marshalled map has its keys in order. *)
Definition key_before (a b : string * any) : Prop := String.leb a.1 b.1 = true.
#[local] Instance key_before_dec : RelDecision key_before.
Proof. intros a b. unfold key_before. apply _. Defined.
Definition raw_map (name : string) (m : option fields_map) : list (string * any) :=
  match m with Some m => field name (AMap (merge_sort key_before (map_to_list m))) | None => [] end.

Definition TestRecipientMode_String (m : TestRecipientMode) : string :=
  match m with TestRecipientModeReplace => "replace" | TestRecipientModeAppend => "append" | TestRecipientModeOther r => r end.
Definition VersionStatus_String (s : VersionStatus) : string :=
  match s with VersionStatusDraft => "draft" | VersionStatusPublished => "published" | VersionStatusArchived => "archived" end.

Definition NewTemplateTypeResponse (ty : TemplateType) : any :=
  AMap (text "id" (uuid_String (tt_ID ty)) ++ optional "workspace_id" (uuid_String <$> tt_WorkspaceID ty)
        ++ text "slug" (tt_Slug ty) ++ text "name" (tt_Name ty) ++ optional "description" (tt_Description ty)
        ++ optional "adapter_id" (uuid_String <$> tt_AdapterID ty)
        ++ optional "sender_identity_id" (uuid_String <$> tt_SenderIdentityID ty)
        ++ raw_map "variable_schema" (tt_VariableSchema ty)
        ++ optional "test_recipient_mode" (TestRecipientMode_String <$> tt_TestRecipientMode ty)
        ++ (if bool_decide (tt_TestRecipientAddresses ty = []) then []
            else field "test_recipient_addresses" (AList (AStr <$> tt_TestRecipientAddresses ty)))
        ++ filled "owner_scope" (tt_OwnerScope ty) ++ flag "inherited_from_system" (tt_InheritedFromSystem ty)
        ++ flag "is_bulk" (tt_IsBulk ty)
        ++ text "created_at" (rfc3339 (tt_CreatedAt ty)) ++ text "updated_at" (rfc3339 (tt_UpdatedAt ty))).

Definition NewTemplateResponse (t : Template) : any :=
  AMap (text "id" (uuid_String (tpl_ID t)) ++ text "template_type_id" (uuid_String (tpl_TemplateTypeID t))
        ++ optional "workspace_id" (uuid_String <$> tpl_WorkspaceID t) ++ flag "is_disabled" (tpl_IsDisabled t)
        ++ filled "owner_scope" (tpl_OwnerScope t) ++ flag "inherited_from_system" (tpl_InheritedFromSystem t)
        ++ flag "is_fork" (tpl_IsFork t) ++ optional "origin_template_id" (uuid_String <$> tpl_OriginTemplateID t)
        ++ text "created_at" (rfc3339 (tpl_CreatedAt t)) ++ text "updated_at" (rfc3339 (tpl_UpdatedAt t))).

Definition NewTemplateVersionResponse (v : TemplateVersion) : any :=
  AMap (text "id" (uuid_String (ver_ID v)) ++ text "template_id" (uuid_String (ver_TemplateID v))
        ++ field "version_number" (AInt (ver_VersionNumber v)) ++ text "status" (VersionStatus_String (ver_Status v))
        ++ text "subject" (ver_Subject v) ++ text "preview_text" (ver_PreviewText v) ++ text "from_name" (ver_FromName v)
        ++ optional "reply_to" (ver_ReplyTo v) ++ text "default_locale" (ver_DefaultLocale v)
        ++ text "body_mjml" (ver_BodyMJML v) ++ raw_map "editor_data" (ver_EditorData v)
        ++ optional "created_by" (uuid_String <$> ver_CreatedBy v) ++ optional "published_at" (rfc3339 <$> ver_PublishedAt v)
        ++ text "created_at" (rfc3339 (ver_CreatedAt v)) ++ text "updated_at" (rfc3339 (ver_UpdatedAt v))).

Definition NewTemplateVersionListResponse (vs : list TemplateVersion) : any :=
  AMap (field "items" (AList (NewTemplateVersionResponse <$> vs))).

Definition NewTemplateVersionLocaleResponse (l : TemplateVersionLocale) : any :=
  AMap (text "id" (uuid_String (loc_ID l)) ++ text "template_version_id" (uuid_String (loc_TemplateVersionID l))
        ++ text "locale" (loc_Locale l) ++ optional "subject" (loc_Subject l) ++ optional "preview_text" (loc_PreviewText l)
        ++ optional "from_name" (loc_FromName l) ++ optional "body_mjml" (loc_BodyMJML l)
        ++ raw_map "editor_data" (loc_EditorData l)
        ++ text "created_at" (rfc3339 (loc_CreatedAt l)) ++ text "updated_at" (rfc3339 (loc_UpdatedAt l))).

(** [TemplateListResponse] and [TemplateTypeListResponse]. *)
Definition list_response (items : list any) (nextCursor : string) : any :=
  AMap (field "items" (AList items) ++ filled "next_cursor" nextCursor ++ flag "has_more" (negb (bool_decide (nextCursor = "")))).
End Responses.

(** ** Requests *)

Record CreateTemplateRequest := mkCreateTemplate { ctr_TemplateTypeID : string }.

(** The raw JSON of [editor_data] is empty when it is not given. *)
Record CreateVersionRequest := mkCreateVersion {
  cv_Subject : string;
  cv_PreviewText : string;
  cv_FromName : string;
  cv_ReplyTo : option string;
  cv_BodyMJML : string;
  cv_DefaultLocale : string;
  cv_EditorData : string;
}.

Record SetLocaleRequest := mkSetLocale {
  sl_Subject : option string;
  sl_PreviewText : option string;
  sl_FromName : option string;
  sl_BodyMJML : option string;
  sl_EditorData : string;
}.

(** [var editorData map[string]any; if len(raw) > 0 { json.Unmarshal(...) }]. *)
Definition parse_object `{JSON (option fields_map)} (raw : string) : Res (option fields_map) :=
  if bool_decide (raw = "") then Ok None else Unmarshal raw.

(** [resolvedTemplateInvalidator]. *)
Record Invalidator (W : Type) := mkInvalidator {
  InvalidateResolvedTemplates : uuid -> M W unit;
  InvalidateAllResolvedTemplates : M W unit;
}.
Arguments mkInvalidator {W}. Arguments InvalidateResolvedTemplates {W}. Arguments InvalidateAllResolvedTemplates {W}.

(** ** Templates *)

Section TemplateHandler.
Context `{GoStd} `{Codec} `{Parsers} `{MapRange} `{JSON (option fields_map)}.
Context `{Binder CreateTemplateRequest} `{Binder CreateVersionRequest} `{Binder SetLocaleRequest}.
Context (tsStore : TenantStore.t Tpl) (wsStore : WorkspaceStore.t Tpl) (templateInvalidator : option (Invalidator Tpl)).
#[local] Abbreviation Handler := (HandlerFunc Tpl).

Definition forks_disabled : Handler :=
  writePolicyForbidden "WORKSPACE_INHERITED_TEMPLATE_FORKS_DISABLED"
    "workspace inherited template forks are disabled by tenant policy".
Definition local_templates_disabled : Handler :=
  writePolicyForbidden "WORKSPACE_LOCAL_TEMPLATES_DISABLED" "workspace local templates are disabled by tenant policy".

Definition mapTemplateError (e : error) : Handler :=
  if errors_Is e ErrTemplateTypeNotFound then WriteError 404 "NOT_FOUND" "template type not found"
  else if errors_Is e ErrTemplateNotFound then WriteError 404 "NOT_FOUND" "template not found"
  else if errors_Is e ErrTemplateDisabled then WriteError 409 "CONFLICT" "template is disabled"
  else if errors_Is e ErrNoPublishedVersion then WriteError 404 "NOT_FOUND" "no published version"
  else if errors_Is e ErrDomainNotVerified then WriteError 409 "CONFLICT" "domain not verified"
  else mapStoreError e.

(** [x, err := m; if err != nil { return mapTemplateError(c, err) }; k x]. *)
Definition checked {A} (m : M Tpl A) (k : A -> Handler) : Handler :=
  try! r := up m in match r with Ok a => k a | Err e => mapTemplateError e end.

Definition template_id (k : uuid -> Handler) : Handler := path_id "template_id" "invalid template ID" k.
Definition version_id (k : uuid -> Handler) : Handler := path_id "version_id" "invalid version ID" k.

Definition with_workspace (k : Workspace -> Handler) : Handler := stored (resolveWorkspace tsStore wsStore) k.

Definition invalidateResolvedTemplates (wsID : option uuid) : Handler :=
  match templateInvalidator with
  | None => ret tt
  | Some inv => ignore (up match wsID with
                           | None => InvalidateAllResolvedTemplates inv
                           | Some id => InvalidateResolvedTemplates inv id
                           end)
  end.

(** *** Access *)

Definition loadWorkspaceTemplateAccess (workspace : Workspace) (templateID : uuid)
  : M Tpl (Template * option Workspace * workspacePolicies) :=
  let! systemWorkspace := resolveSystemWorkspace wsStore workspace in
  let! tpl := GetTemplateByID templateID in
  if negb (templateVisibleInWorkspace tpl workspace systemWorkspace)
  then fail (NotFound "template not found in workspace scope")
  else ret (annotateTemplateScope workspace systemWorkspace tpl, systemWorkspace, effectiveWorkspacePolicies systemWorkspace).

Definition AppForbidden (msg : string) : error := EApp 403 msg.

Definition requireMutableWorkspaceTemplate (workspace : Workspace) (templateID : uuid) : M Tpl Template :=
  let! (tpl, systemWorkspace, policies) := loadWorkspaceTemplateAccess workspace templateID in
  if negb (isOwnedByCurrentWorkspace (tpl_WorkspaceID tpl) workspace)
  then fail (AppForbidden "inherited templates are read-only in workspace scope")
  else if tpl_IsFork tpl then
    (if negb (AllowWorkspaceInheritedTemplateForks policies)
     then fail (AppForbidden "workspace inherited template forks are disabled by tenant policy")
     else ret (annotateTemplateScope workspace systemWorkspace tpl))
  else if negb (ws_IsSystem workspace) && negb (AllowWorkspaceLocalTemplates policies)
    then fail (AppForbidden "workspace local templates are disabled by tenant policy")
    else ret (annotateTemplateScope workspace systemWorkspace tpl).

(** The prologue of the handlers that change a template's versions: the
    template of the path is the workspace's own. *)
Definition mutable_template (k : Workspace -> uuid -> Handler) : Handler :=
  with_workspace (fun ws => template_id (fun templateID =>
    checked (requireMutableWorkspaceTemplate ws templateID) (fun _ => k ws templateID))).

(** *** Templates *)

Definition createTemplate (workspaceID : option uuid) : Handler :=
  bound (fun req : CreateTemplateRequest =>
    if bool_decide (ctr_TemplateTypeID req = "") then validation_failed [mkFieldError "template_type_id" "is required"]
    else match uuid_Parse (ctr_TemplateTypeID req) with
         | Err _ => validation_failed [mkFieldError "template_type_id" "must be a valid UUID"]
         | Ok typeID =>
             checked (Template_CreateTemplate typeID workspaceID) (fun tpl => JSON_reply 201 (NewTemplateResponse tpl))
         end).

Definition Templates_CreateTemplate : Handler :=
  with_workspace (fun ws =>
    if ws_IsSystem ws then createTemplate (Some (ws_ID ws))
    else stored (up (resolveSystemWorkspace wsStore ws)) (fun systemWorkspace =>
      if negb (AllowWorkspaceLocalTemplates (effectiveWorkspacePolicies systemWorkspace)) then local_templates_disabled
      else createTemplate (Some (ws_ID ws)))).

Definition CreateTemplateGlobal : Handler := createTemplate None.

Definition listByTemplateType (workspace : option Workspace) : Handler :=
  let! c := conn in
  let slugParam := Param "slug" c in
  match workspace with
  | None =>
      stored (up (FindTypeBySlugInScope slugParam None)) (fun ty =>
      stored (up (Template_ListByType (tt_ID ty) None (ParseListOptions c))) (fun '(templates, nextCursor) =>
        JSON_reply 200 (list_response (NewTemplateResponse <$> templates) nextCursor)))
  | Some ws =>
      stored (up (workspaceResolutionChain wsStore ws)) (fun '(chain, systemWorkspace) =>
      stored (up (TemplateRepo_GetTypeBySlug slugParam chain)) (fun ty =>
        try! r := up (TemplateRepo_ResolveTemplate (tt_ID ty) chain) in
        match r with
        | Ok tpl =>
            JSON_reply 200 (list_response [NewTemplateResponse (annotateTemplateScope ws systemWorkspace tpl)] "")
        | Err e =>
            if errors_Is e ErrTemplateNotFound || errors_Is e ErrNotFound || IsNotFound e
            then JSON_reply 200 (list_response [] "")
            else mapStoreError e
        end))
  end.

Definition ListByTemplateType : Handler := with_workspace (fun ws => listByTemplateType (Some ws)).
Definition ListByTemplateTypeGlobal : Handler := listByTemplateType None.

(** The policy of a template: forks and local templates are allowed apart. *)
Definition policy_gate (tpl : Template) (policies : workspacePolicies) (k : Handler) : Handler :=
  if tpl_IsFork tpl then
    (if negb (AllowWorkspaceInheritedTemplateForks policies) then forks_disabled else k)
  else (if negb (AllowWorkspaceLocalTemplates policies) then local_templates_disabled else k).

Definition set_disabled (templateID : uuid) (wsID : option uuid) (disabled : bool) : Handler :=
  checked (if disabled then DisableTemplate templateID wsID else EnableTemplate templateID wsID) (fun _ =>
    invalidateResolvedTemplates wsID ;;; NoContent 204).

Definition setTemplateDisabled (workspace : option Workspace) (disabled : bool) : Handler :=
  template_id (fun templateID =>
    match workspace with
    | None => set_disabled templateID None disabled
    | Some ws =>
        checked (loadWorkspaceTemplateAccess ws templateID) (fun '(tpl, _, policies) =>
          policy_gate tpl policies (set_disabled templateID (Some (ws_ID ws)) disabled))
    end).

Definition Templates_DisableTemplate : Handler := with_workspace (fun ws => setTemplateDisabled (Some ws) true).
Definition Templates_EnableTemplate : Handler := with_workspace (fun ws => setTemplateDisabled (Some ws) false).
Definition DisableTemplateGlobal : Handler := setTemplateDisabled None true.
Definition EnableTemplateGlobal : Handler := setTemplateDisabled None false.

Definition Templates_DeleteTemplate : Handler :=
  with_workspace (fun ws => template_id (fun templateID =>
    checked (loadWorkspaceTemplateAccess ws templateID) (fun '(tpl, _, policies) =>
      policy_gate tpl policies
        (try! r := up (DeleteTemplate templateID) in
         match r with
         | Ok _ => NoContent 204
         | Err e =>
             if errors_Is e ErrHasPublishedVersion
             then WriteError 409 "HAS_PUBLISHED_VERSION" "cannot delete template with a published version"
             else mapTemplateError e
         end)))).

Definition Templates_ForkTemplate : Handler :=
  with_workspace (fun ws => template_id (fun templateID =>
    checked (loadWorkspaceTemplateAccess ws templateID) (fun '(tpl, _, policies) =>
      if isOwnedByCurrentWorkspace (tpl_WorkspaceID tpl) ws
      then WriteError 409 "TEMPLATE_ALREADY_LOCAL" "template already belongs to this workspace"
      else if negb (AllowWorkspaceInheritedTemplateForks policies) then forks_disabled
      else checked (Template_ForkTemplate templateID (ws_ID ws) None) (fun forked =>
        invalidateResolvedTemplates (Some (ws_ID ws)) ;;;
        JSON_reply 201 (NewTemplateResponse (annotateTemplateScope ws None forked)))))).

(** *** Versions *)

Definition Templates_GetVersion : Handler :=
  version_id (fun versionID =>
    checked (Template_GetVersionByID versionID) (fun ver => JSON_reply 200 (NewTemplateVersionResponse ver))).

Definition Templates_ListVersions : Handler :=
  template_id (fun templateID =>
    checked (Template_ListVersions templateID) (fun versions => JSON_reply 200 (NewTemplateVersionListResponse versions))).

Definition bad_editor_data : Handler := validation_failed [mkFieldError "editor_data" "must be valid JSON"].

Definition required (name value : string) : list FieldError :=
  if bool_decide (value = "") then [mkFieldError name "is required"] else [].

Definition Templates_CreateVersion : Handler :=
  mutable_template (fun _ templateID => bound (fun req : CreateVersionRequest =>
    let fieldErrors := required "subject" (cv_Subject req) ++ required "from_name" (cv_FromName req)
                       ++ required "body_mjml" (cv_BodyMJML req) ++ required "default_locale" (cv_DefaultLocale req) in
    match fieldErrors with
    | _ :: _ => validation_failed fieldErrors
    | [] =>
        match parse_object (cv_EditorData req) with
        | Err _ => bad_editor_data
        | Ok editorData =>
            checked (Template_CreateVersion templateID
                       (mkContent (cv_Subject req) (cv_PreviewText req) (cv_FromName req) (cv_ReplyTo req)
                          (cv_BodyMJML req) (cv_DefaultLocale req) editorData) None)
              (fun ver => JSON_reply 201 (NewTemplateVersionResponse ver))
        end
    end)).

(** The fields of the request that are given replace those of the version. *)
Definition given (new old : string) : string := if bool_decide (new = "") then old else new.

Definition patched (req : CreateVersionRequest) (editorData : option fields_map) (ver : TemplateVersion) : TemplateVersion :=
  mk_version (ver_ID ver) (ver_TemplateID ver) (ver_VersionNumber ver) (ver_Status ver)
    (mkContent (given (cv_Subject req) (ver_Subject ver)) (given (cv_PreviewText req) (ver_PreviewText ver))
       (given (cv_FromName req) (ver_FromName ver))
       (match cv_ReplyTo req with Some r => Some r | None => ver_ReplyTo ver end)
       (given (cv_BodyMJML req) (ver_BodyMJML ver)) (given (cv_DefaultLocale req) (ver_DefaultLocale ver)) editorData)
    (ver_CreatedBy ver) (ver_PublishedAt ver) (ver_ArchivedAt ver) (ver_CreatedAt ver) (ver_UpdatedAt ver).

Definition Templates_UpdateVersion : Handler :=
  mutable_template (fun _ templateID => version_id (fun versionID => bound (fun req : CreateVersionRequest =>
    checked (Template_GetVersionByID versionID) (fun ver =>
      if negb (is_draft ver) then WriteError 409 "CONFLICT" "only draft versions can be updated"
      else if negb (bool_decide (ver_TemplateID ver = templateID)) then WriteError 404 "NOT_FOUND" "resource not found"
      else
        match (if bool_decide (cv_EditorData req = "") then Ok (ver_EditorData ver) else Unmarshal (cv_EditorData req)) with
        | Err _ => bad_editor_data
        | Ok editorData =>
            checked (Template_UpdateVersion (patched req editorData ver)) (fun _ =>
            checked (Template_GetVersionByID versionID) (fun updated =>
              JSON_reply 200 (NewTemplateVersionResponse updated)))
        end)))).

Definition Templates_PublishVersion : Handler :=
  mutable_template (fun _ _ => version_id (fun versionID =>
    checked (PublishVersion versionID) (fun _ => NoContent 204))).

Definition cloneVersion (workspace : option Workspace) : Handler :=
  template_id (fun templateID => version_id (fun versionID =>
    let clone wsID :=
      checked (Template_CloneVersion templateID versionID wsID None)
        (fun cloned => JSON_reply 201 (NewTemplateVersionResponse cloned)) in
    match workspace with
    | None => clone None
    | Some ws => checked (requireMutableWorkspaceTemplate ws templateID) (fun _ => clone (Some (ws_ID ws)))
    end)).

Definition Templates_CloneVersion : Handler := with_workspace (fun ws => cloneVersion (Some ws)).
Definition CloneVersionGlobal : Handler := cloneVersion None.

Definition Templates_DeleteVersion : Handler :=
  mutable_template (fun _ _ => version_id (fun versionID =>
    try! r := up (DeleteVersion versionID) in
    match r with
    | Ok _ => NoContent 204
    | Err e =>
        if errors_Is e ErrVersionNotDraft then WriteError 409 "VERSION_NOT_DRAFT" "only draft versions can be deleted"
        else mapTemplateError e
    end)).

(** *** Locale overrides *)

Definition locale_param (k : string -> Handler) : Handler :=
  let! c := conn in
  let locale := Param "locale" c in
  if bool_decide (locale = "") then WriteError 400 "BAD_REQUEST" "locale is required" else k locale.

(** [SetLocale] and [UpdateLocale] differ in the status of their answer. *)
Definition set_locale (status : Z) : Handler :=
  mutable_template (fun _ _ => version_id (fun versionID => locale_param (fun locale =>
    bound (fun req : SetLocaleRequest =>
      match parse_object (sl_EditorData req) with
      | Err _ => bad_editor_data
      | Ok editorData =>
          checked (Template_SetLocale versionID locale (sl_Subject req) (sl_PreviewText req) (sl_FromName req)
                     (sl_BodyMJML req) editorData)
            (fun loc => JSON_reply status (NewTemplateVersionLocaleResponse loc))
      end)))).

Definition Templates_SetLocale : Handler := set_locale 201.
Definition Templates_UpdateLocale : Handler := set_locale 200.

Definition Templates_GetLocale : Handler :=
  version_id (fun versionID => locale_param (fun locale =>
    checked (Template_GetLocale versionID locale) (fun loc => JSON_reply 200 (NewTemplateVersionLocaleResponse loc)))).

Definition Templates_ListLocales : Handler :=
  version_id (fun versionID =>
    checked (Template_ListLocales versionID) (fun locales =>
      JSON_reply 200 (AMap (field "items" (AList (NewTemplateVersionLocaleResponse <$> locales)))))).

Definition Templates_DeleteLocale : Handler :=
  mutable_template (fun _ _ => version_id (fun versionID => locale_param (fun locale =>
    checked (Template_DeleteLocale versionID locale) (fun _ => NoContent 204)))).
End TemplateHandler.

(** ** Template types *)

Record CreateTemplateTypeRequest := mkCreateType {
  cty_Slug : string;
  cty_Name : string;
  cty_Description : option string;
  cty_AdapterID : option string;
  cty_SenderIdentityID : option string;
  cty_VariableSchema : string;
  cty_TestRecipientMode : option string;
  cty_TestRecipientAddresses : list string;
  cty_IsBulk : option bool;
}.

Record UpdateTemplateTypeRequest := mkUpdateType {
  uty_Slug : option string;
  uty_Name : option string;
  uty_Description : option string;
  uty_AdapterID : option string;
  uty_SenderIdentityID : option string;
  uty_VariableSchema : option string;
  uty_TestRecipientMode : option string;
  uty_TestRecipientAddresses : option (list string);
}.

(** The conversion [domain.TestRecipientMode(s)]. *)
Definition to_TestRecipientMode (s : string) : TestRecipientMode :=
  if bool_decide (s = "replace") then TestRecipientModeReplace
  else if bool_decide (s = "append") then TestRecipientModeAppend
  else TestRecipientModeOther s.

Section TemplateTypeHandler.
Context `{GoStd} `{Codec} `{Parsers} `{JSON (option fields_map)}.
Context `{Binder CreateTemplateTypeRequest} `{Binder UpdateTemplateTypeRequest}.
Context (tsStore : TenantStore.t Tpl) (wsStore : WorkspaceStore.t Tpl) (templateInvalidator : option (Invalidator Tpl)).
(** [accessSvc.ValidateTemplateTypeSelection], when the service is wired. *)
Context (validateSelection : option (option Workspace -> option uuid -> option uuid -> M Tpl unit)).
#[local] Abbreviation Handler := (HandlerFunc Tpl).

Definition ValidateRecipientAddresses (values : list string) : Res unit :=
  foldr (fun value rest => match ParseAddress value with Ok _ => rest | Err e => Err e end) (Ok tt)
    (NormalizeRecipientAddresses values).

Definition name_errors (name : string) : list FieldError :=
  if bool_decide (name = "") then [mkFieldError "name" "is required"]
  else if (255 <? String.length name)%nat then [mkFieldError "name" "must be at most 255 characters"]
  else [].
Definition slug_errors (s : string) : list FieldError :=
  match slug_Validate s with Err e => [mkFieldError "slug" (error_string e)] | Ok _ => [] end.

Definition is_test (workspace : option Workspace) : bool :=
  match workspace with Some ws => bool_decide (ws_Environment ws = EnvironmentTest) | None => false end.

Definition parseTemplateTypeTestRecipientPolicyForCreate (workspace : option Workspace) (req : CreateTemplateTypeRequest)
  : option TestRecipientMode * list string * list FieldError :=
  if bool_decide (cty_TestRecipientMode req = None) && bool_decide (cty_TestRecipientAddresses req = []) then (None, [], [])
  else if negb (is_test workspace)
  then (None, [], [mkFieldError "test_recipient_mode" "is only supported in the test environment"])
  else
    let mode := match cty_TestRecipientMode req with
                | Some m => to_TestRecipientMode (TrimSpace m)
                | None => TestRecipientModeReplace
                end in
    if negb (TestRecipientMode_Valid mode) then (None, [], [mkFieldError "test_recipient_mode" "must be replace or append"])
    else
      let addresses := NormalizeRecipientAddresses (cty_TestRecipientAddresses req) in
      match ValidateRecipientAddresses addresses with
      | Err _ => (None, [], [mkFieldError "test_recipient_addresses" "must contain valid email addresses"])
      | Ok _ => (Some mode, addresses, [])
      end.

Definition mapTemplateTypeAccessError (e : error) : Handler :=
  if errors_Is e ErrAdapterAccessDenied
  then validation_failed [mkFieldError "adapter_id" "is not accessible from this workspace"]
  else if errors_Is e ErrSenderIdentityRequired
  then validation_failed [mkFieldError "sender_identity_id" "is required for shared adapter sender identities"]
  else if errors_Is e ErrSenderIdentityAccessDenied || errors_Is e ErrIdentityNotFound
  then validation_failed [mkFieldError "sender_identity_id" "is not accessible from this workspace"]
  else mapStoreError e.

Definition selection_checked (workspace : option Workspace) (adapterID senderIdentityID : option uuid) (k : Handler) : Handler :=
  match validateSelection with
  | None => k
  | Some validate =>
      try! r := up (validate workspace adapterID senderIdentityID) in
      match r with Ok _ => k | Err e => mapTemplateTypeAccessError e end
  end.

Definition create_type (workspace : option Workspace) : Handler :=
  bound (fun req : CreateTemplateTypeRequest =>
    match slug_errors (cty_Slug req) ++ name_errors (cty_Name req) with
    | (_ :: _) as fieldErrors => validation_failed fieldErrors
    | [] =>
        match parseOptionalUUID (cty_AdapterID req) with
        | Err _ => validation_failed [mkFieldError "adapter_id" "must be a valid UUID"]
        | Ok adapterID =>
            match parseOptionalUUID (cty_SenderIdentityID req) with
            | Err _ => validation_failed [mkFieldError "sender_identity_id" "must be a valid UUID"]
            | Ok senderIdentityID =>
                match parse_object (cty_VariableSchema req) with
                | Err _ => validation_failed [mkFieldError "variable_schema" "must be valid JSON"]
                | Ok variableSchema =>
                    match parseTemplateTypeTestRecipientPolicyForCreate workspace req with
                    | (_, _, (_ :: _) as policyErrors) => validation_failed policyErrors
                    | (mode, addresses, []) =>
                        selection_checked workspace adapterID senderIdentityID
                          (stored (up (TemplateType_Create
                             (mkTypeFields (cty_Slug req) (cty_Name req) (cty_Description req) adapterID senderIdentityID
                                variableSchema mode addresses (bool_decide (cty_IsBulk req = Some true)))
                             (ws_ID <$> workspace)))
                           (fun ty => JSON_reply 201 (NewTemplateTypeResponse ty)))
                    end
                end
            end
        end
    end).

Definition TemplateTypes_Create : Handler :=
  with_workspace tsStore wsStore (fun ws =>
    if ws_IsSystem ws then create_type (Some ws)
    else stored (up (resolveSystemWorkspace wsStore ws)) (fun systemWorkspace =>
      if negb (AllowWorkspaceLocalTemplates (effectiveWorkspacePolicies systemWorkspace)) then local_templates_disabled
      else create_type (Some ws))).
Definition TemplateTypes_CreateGlobal : Handler := create_type None.

(** *** Deletion *)

Definition delete_type (id : uuid) (workspaceID : option uuid) : Handler :=
  stored (up (DeleteType id)) (fun _ => invalidateResolvedTemplates templateInvalidator workspaceID ;;; NoContent 204).

Definition deleteType (workspace : option Workspace) : Handler :=
  let! c := conn in
  match workspace with
  | None => stored (up (FindBySlugInScope (Param "slug" c) None)) (fun ty => delete_type (tt_ID ty) None)
  | Some ws =>
      stored (up (let! (chain, systemWorkspace) := workspaceResolutionChain wsStore ws in
                  let! ty := GetBySlug (Param "slug" c) chain in
                  ret (ty, systemWorkspace)))
      (fun '(ty, systemWorkspace) =>
         if negb (isOwnedByCurrentWorkspace (tt_WorkspaceID ty) ws)
         then writePolicyForbidden "READ_ONLY_INHERITED_TEMPLATE_TYPE"
                "inherited template types are read-only in workspace scope"
         else if negb (ws_IsSystem ws) && negb (AllowWorkspaceLocalTemplates (effectiveWorkspacePolicies systemWorkspace))
         then local_templates_disabled
         else delete_type (tt_ID ty) (Some (ws_ID ws)))
  end.

Definition TemplateTypes_Delete : Handler := with_workspace tsStore wsStore (fun ws => deleteType (Some ws)).
Definition TemplateTypes_DeleteGlobal : Handler := deleteType None.

(** *** Update *)

Definition loadTemplateTypeForUpdate (workspace : option Workspace) (slugParam : string) : M Tpl TemplateType :=
  match workspace with
  | None => FindBySlugInScope slugParam None
  | Some ws =>
      let! (chain, systemWorkspace) := workspaceResolutionChain wsStore ws in
      let! ty := GetBySlug slugParam chain in
      if negb (isOwnedByCurrentWorkspace (tt_WorkspaceID ty) ws)
      then fail (AppForbidden "inherited template types are read-only in workspace scope")
      else if negb (ws_IsSystem ws) && negb (AllowWorkspaceLocalTemplates (effectiveWorkspacePolicies systemWorkspace))
      then fail (AppForbidden "workspace local templates are disabled by tenant policy")
      else ret (annotateTemplateTypeScope ws systemWorkspace ty)
  end.

Definition validateTemplateTypeUpdateRequest (req : UpdateTemplateTypeRequest) : list FieldError :=
  match uty_Slug req with Some s => slug_errors s | None => [] end
  ++ match uty_Name req with Some n => name_errors n | None => [] end.

(** The setters of the fields a request can change. *)
Definition with_ids (adapterID senderIdentityID : option uuid) (ty : TemplateType) : TemplateType :=
  {| tt_ID := tt_ID ty; tt_WorkspaceID := tt_WorkspaceID ty; tt_Slug := tt_Slug ty; tt_Name := tt_Name ty;
     tt_Description := tt_Description ty; tt_AdapterID := adapterID; tt_SenderIdentityID := senderIdentityID;
     tt_VariableSchema := tt_VariableSchema ty; tt_TestRecipientMode := tt_TestRecipientMode ty;
     tt_TestRecipientAddresses := tt_TestRecipientAddresses ty;
     tt_OwnerScope := tt_OwnerScope ty; tt_InheritedFromSystem := tt_InheritedFromSystem ty; tt_IsBulk := tt_IsBulk ty;
     tt_CreatedAt := tt_CreatedAt ty; tt_UpdatedAt := tt_UpdatedAt ty; tt_DeletedAt := tt_DeletedAt ty |}.
Definition with_texts (slug name : string) (description : option string) (schema : option fields_map) (ty : TemplateType)
  : TemplateType :=
  {| tt_ID := tt_ID ty; tt_WorkspaceID := tt_WorkspaceID ty; tt_Slug := slug; tt_Name := name;
     tt_Description := description; tt_AdapterID := tt_AdapterID ty; tt_SenderIdentityID := tt_SenderIdentityID ty;
     tt_VariableSchema := schema; tt_TestRecipientMode := tt_TestRecipientMode ty;
     tt_TestRecipientAddresses := tt_TestRecipientAddresses ty;
     tt_OwnerScope := tt_OwnerScope ty; tt_InheritedFromSystem := tt_InheritedFromSystem ty; tt_IsBulk := tt_IsBulk ty;
     tt_CreatedAt := tt_CreatedAt ty; tt_UpdatedAt := tt_UpdatedAt ty; tt_DeletedAt := tt_DeletedAt ty |}.
Definition with_recipients (mode : option TestRecipientMode) (addresses : list string) (ty : TemplateType) : TemplateType :=
  {| tt_ID := tt_ID ty; tt_WorkspaceID := tt_WorkspaceID ty; tt_Slug := tt_Slug ty; tt_Name := tt_Name ty;
     tt_Description := tt_Description ty; tt_AdapterID := tt_AdapterID ty; tt_SenderIdentityID := tt_SenderIdentityID ty;
     tt_VariableSchema := tt_VariableSchema ty; tt_TestRecipientMode := mode; tt_TestRecipientAddresses := addresses;
     tt_OwnerScope := tt_OwnerScope ty; tt_InheritedFromSystem := tt_InheritedFromSystem ty; tt_IsBulk := tt_IsBulk ty;
     tt_CreatedAt := tt_CreatedAt ty; tt_UpdatedAt := tt_UpdatedAt ty; tt_DeletedAt := tt_DeletedAt ty |}.

(** Every step ends in the field that is invalid, or goes on. *)
Definition res_bind {A B} (r : Res A) (k : A -> Res B) : Res B := match r with Ok a => k a | Err e => Err e end.
Definition invalid {A} (field : string) : Res A := Err (EMsg field).

Definition patch_texts (req : UpdateTemplateTypeRequest) (ty : TemplateType) : Res TemplateType :=
  let description := match uty_Description req with
                     | None => tt_Description ty
                     | Some d => if bool_decide (d = "") then None else Some d
                     end in
  let with_schema := fun schema => Ok (with_texts (default (tt_Slug ty) (uty_Slug req)) (default (tt_Name ty) (uty_Name req))
                                         description schema ty) in
  match uty_VariableSchema req with
  | None => with_schema (tt_VariableSchema ty)
  | Some raw => match Unmarshal raw with Ok schema => with_schema schema | Err _ => invalid "variable_schema" end
  end.

(** An empty adapter also drops the sender identity. *)
Definition patch_adapter (req : UpdateTemplateTypeRequest) (ty : TemplateType) : Res TemplateType :=
  match uty_AdapterID req with
  | None => Ok ty
  | Some s => if bool_decide (s = "") then Ok (with_ids None None ty)
              else match uuid_Parse s with
                   | Ok id => Ok (with_ids (Some id) (tt_SenderIdentityID ty) ty)
                   | Err _ => invalid "adapter_id"
                   end
  end.

Definition patch_sender (req : UpdateTemplateTypeRequest) (ty : TemplateType) : Res TemplateType :=
  match uty_SenderIdentityID req with
  | None => Ok ty
  | Some s => if bool_decide (s = "") then Ok (with_ids (tt_AdapterID ty) None ty)
              else match uuid_Parse s with
                   | Ok id => Ok (with_ids (tt_AdapterID ty) (Some id) ty)
                   | Err _ => invalid "sender_identity_id"
                   end
  end.

Definition patch_mode (req : UpdateTemplateTypeRequest) (ty : TemplateType) : Res TemplateType :=
  match uty_TestRecipientMode req with
  | None => Ok ty
  | Some m =>
      let trimmed := TrimSpace m in
      if bool_decide (trimmed = "") then Ok (with_recipients None (tt_TestRecipientAddresses ty) ty)
      else if TestRecipientMode_Valid (to_TestRecipientMode trimmed)
           then Ok (with_recipients (Some (to_TestRecipientMode trimmed)) (tt_TestRecipientAddresses ty) ty)
           else invalid "test_recipient_mode"
  end.

Definition patch_addresses (req : UpdateTemplateTypeRequest) (ty : TemplateType) : Res TemplateType :=
  match uty_TestRecipientAddresses req with
  | None => Ok ty
  | Some [] => Ok (with_recipients (tt_TestRecipientMode ty) [] ty)
  | Some l =>
      let addresses := NormalizeRecipientAddresses l in
      match ValidateRecipientAddresses addresses with
      | Err _ => invalid "test_recipient_addresses"
      | Ok _ => Ok (with_recipients (tt_TestRecipientMode ty) addresses ty)
      end
  end.

Definition patch_recipients (req : UpdateTemplateTypeRequest) (workspace : option Workspace) (ty : TemplateType)
  : Res TemplateType :=
  if bool_decide (uty_TestRecipientMode req = None) && bool_decide (uty_TestRecipientAddresses req = None) then Ok ty
  else if negb (is_test workspace) then invalid "test_recipient_mode"
  else res_bind (patch_mode req ty) (patch_addresses req).

Definition applyTemplateTypeUpdateRequest (ty : TemplateType) (req : UpdateTemplateTypeRequest) (workspace : option Workspace)
  : Res TemplateType :=
  res_bind (patch_texts req ty) (fun ty =>
  res_bind (patch_adapter req ty) (fun ty =>
  res_bind (patch_sender req ty) (patch_recipients req workspace))).

Definition update_type (workspace : option Workspace) : Handler :=
  let! c := conn in
  stored (up (loadTemplateTypeForUpdate workspace (Param "slug" c))) (fun loaded =>
    bound (fun req : UpdateTemplateTypeRequest =>
      match validateTemplateTypeUpdateRequest req with
      | (_ :: _) as fieldErrors => validation_failed fieldErrors
      | [] =>
          match applyTemplateTypeUpdateRequest loaded req workspace with
          | Err e => WriteError 422 "VALIDATION_ERROR" ("invalid " +:+ error_string e)
          | Ok ty =>
              selection_checked workspace (tt_AdapterID ty) (tt_SenderIdentityID ty)
                (stored (up (TemplateType_Update ty (tt_Slug loaded))) (fun updated =>
                   invalidateResolvedTemplates templateInvalidator (ws_ID <$> workspace) ;;;
                   JSON_reply 200 (NewTemplateTypeResponse updated)))
          end
      end)).

Definition TemplateTypes_Update : Handler := with_workspace tsStore wsStore (fun ws => update_type (Some ws)).
Definition TemplateTypes_UpdateGlobal : Handler := update_type None.

(** *** Reading *)

(** The workspace is resolved twice. *)
Definition TemplateTypes_Get : Handler :=
  with_workspace tsStore wsStore (fun _ =>
  with_workspace tsStore wsStore (fun workspace =>
    let! c := conn in
    stored (up (workspaceResolutionChain wsStore workspace)) (fun '(chain, systemWorkspace) =>
    stored (up (GetBySlug (Param "slug" c) chain)) (fun ty =>
      JSON_reply 200 (NewTemplateTypeResponse (annotateTemplateTypeScope workspace systemWorkspace ty)))))).
Definition TemplateTypes_GetGlobal : Handler :=
  let! c := conn in
  stored (up (FindBySlugInScope (Param "slug" c) None)) (fun ty => JSON_reply 200 (NewTemplateTypeResponse ty)).

(** [appendUnique]: the first type of each slug. *)
Definition append_unique (visible new : list TemplateType) : list TemplateType :=
  fold_left (fun l ty => if bool_decide (tt_Slug ty ∈ tt_Slug <$> l) then l else l ++ [ty]) new visible.

Definition listTypes (workspace : option Workspace) : Handler :=
  let! c := conn in
  let opts := ParseListOptions c in
  match workspace with
  | None =>
      stored (up (TemplateType_ListTypes None opts)) (fun '(types, nextCursor) =>
        JSON_reply 200 (list_response (NewTemplateTypeResponse <$> types) nextCursor))
  | Some ws =>
      stored (up (resolveSystemWorkspace wsStore ws)) (fun systemWorkspace =>
      stored (up (TemplateType_ListTypes (Some (ws_ID ws)) opts)) (fun '(localTypes, _) =>
        let answer types :=
          JSON_reply 200 (list_response
            (NewTemplateTypeResponse <$> (annotateTemplateTypeScope ws systemWorkspace <$> types)) "") in
        match systemWorkspace with
        | Some sys =>
            if bool_decide (ws_ID sys = ws_ID ws) then answer (append_unique [] localTypes)
            else stored (up (TemplateType_ListTypes (Some (ws_ID sys)) opts)) (fun '(systemTypes, _) =>
                   answer (append_unique (append_unique [] localTypes) systemTypes))
        | None => answer (append_unique [] localTypes)
        end))
  end.

Definition TemplateTypes_List : Handler := with_workspace tsStore wsStore (fun ws => listTypes (Some ws)).
Definition TemplateTypes_ListGlobal : Handler := listTypes None.
End TemplateTypeHandler.
