(* ===== verification/Fleet.v ===== *)
(** * The fleet of adapters ([adapter/postgres]: adapters, identities, grants, audit)

    The tables of adapters, of their sender identities and provisioning steps, of
    the grants that share them between workspaces and of the audit log, with
    their constraints, and the repositories over them; the one of the steps is in
    [Provisioning.v]. *)
From stdpp Require Import base gmap strings list sorting.
From Stdlib Require Import ZArith NArith Ascii String Lia.
From S2P Require Import Prelude GoMonad Domain Ports Token Config Http.
From S2P Require Import Suppression Postgres Database Directory Auth Members Inheritance Hosted Templates.

(** [domain/audit.go] *)
Record AuditLog := mkAuditLog {
  al_ID : uuid;
  al_ActorID : uuid;
  al_ActorEmail : string;
  al_Action : string;
  al_EntityType : string;
  al_EntityID : uuid;
  al_TenantID : option uuid;
  al_WorkspaceID : option uuid;
  al_ScopeType : ScopeType;
  al_Changes : fields_map;
  al_Metadata : fields_map;
  al_CreatedAt : gotime;
}.

(** [domain/provisioning.go] *)
Inductive ProvisioningStepStatus := ProvisionStepPending | ProvisionStepCompleted | ProvisionStepFailed.
#[export] Instance ProvisioningStepStatus_eq_dec : EqDecision ProvisioningStepStatus.
Proof. solve_decision. Defined.

Record AdapterProvisioningStep := mkProvisioningStep {
  st_ID : uuid;
  st_AdapterID : uuid;
  st_StepName : string;
  st_StepOrder : Z;
  st_Status : ProvisioningStepStatus;
  st_ResourceName : option string;
  st_ResourceARN : option string;
  st_ErrorMessage : option string;
  st_StartedAt : option gotime;
  st_CompletedAt : option gotime;
  st_CreatedAt : gotime;
  st_UpdatedAt : gotime;
}.

(** Grants are pairs of an adapter, or an identity, and a workspace. *)
Record Fleet := mkFleet {
  fl_dir : Tables;
  fl_adapters : gmap uuid Adapter;
  fl_identities : gmap uuid AdapterIdentity;
  fl_adapter_grants : gset (uuid * uuid);
  fl_identity_grants : gset (uuid * uuid);
  fl_types : gmap uuid TemplateType;
  fl_audit : list AuditLog;
  fl_steps : gmap uuid AdapterProvisioningStep;
}.

Abbreviation Flt := (DB Fleet).

Definition set_fleet_dir d t :=
  mkFleet d (fl_adapters t) (fl_identities t) (fl_adapter_grants t) (fl_identity_grants t) (fl_types t) (fl_audit t) (fl_steps t).
Definition set_adapters f t :=
  mkFleet (fl_dir t) (f (fl_adapters t)) (fl_identities t) (fl_adapter_grants t) (fl_identity_grants t) (fl_types t) (fl_audit t) (fl_steps t).
Definition set_identities f t :=
  mkFleet (fl_dir t) (fl_adapters t) (f (fl_identities t)) (fl_adapter_grants t) (fl_identity_grants t) (fl_types t) (fl_audit t) (fl_steps t).
Definition set_adapter_grants f t :=
  mkFleet (fl_dir t) (fl_adapters t) (fl_identities t) (f (fl_adapter_grants t)) (fl_identity_grants t) (fl_types t) (fl_audit t) (fl_steps t).
Definition set_identity_grants f t :=
  mkFleet (fl_dir t) (fl_adapters t) (fl_identities t) (fl_adapter_grants t) (f (fl_identity_grants t)) (fl_types t) (fl_audit t) (fl_steps t).
Definition set_fleet_types f t :=
  mkFleet (fl_dir t) (fl_adapters t) (fl_identities t) (fl_adapter_grants t) (fl_identity_grants t) (f (fl_types t)) (fl_audit t) (fl_steps t).
Definition set_audit f t :=
  mkFleet (fl_dir t) (fl_adapters t) (fl_identities t) (fl_adapter_grants t) (fl_identity_grants t) (fl_types t) (f (fl_audit t)) (fl_steps t).

Definition set_steps f t :=
  mkFleet (fl_dir t) (fl_adapters t) (fl_identities t) (fl_adapter_grants t) (fl_identity_grants t) (fl_types t) (fl_audit t)
    (f (fl_steps t)).

#[export] Instance fleet_hosted : Hosted Fleet := {| directory := fl_dir; set_directory := set_fleet_dir |}.
#[export] Instance fleet_hosted_laws : HostedLaws Fleet.
Proof. split. by intros []. Qed.

(** [pgx] reports the violations of these statements as they are. *)
Definition unclassified (msg : string) (e : PgError) : error :=
  wrapping msg (EMsg match e with
                     | UniqueViolation d | ForeignKeyViolation d => d
                     | NotNullViolation c => c
                     | CheckViolation _ m | PgOther m => m
                     end).

(** The cut of a listing to its page, with the flag of a further one. *)
Definition paged `{Codec} {A} (key : A -> uuid) (rows : list A) (limit : Z) (afterID : option uuid) : PageResult A :=
  let got := take (Z.to_nat (limit + 1)) (newest_first key (after key afterID rows)) in
  let more := (limit <? Z.of_nat (List.length got))%Z in
  let cut := take (Z.to_nat limit) got in
  if more then mkPageResult _ cut (match last cut with Some a => EncodeCursor (key a) | None => "" end) true
  else mkPageResult _ got "" false.

(** ** Adapters ([adapter_repo.go]) *)

Section AdapterRepo.
Context `{GoStd} `{Codec}.

Definition adapter_live (a : Adapter) : bool := bool_decide (ad_DeletedAt a = None).
Definition known_adapter_type (t : AdapterType) : bool := match t with AdapterTypeOther _ => false | _ => true end.

(** The exclusion constraint and the index of defaults; nulls do not conflict in
    the first. *)
Definition both_default (a b : Adapter) : bool :=
  ad_IsDefault a && adapter_live a && ad_IsDefault b && adapter_live b && bool_decide (ad_WorkspaceID a = ad_WorkspaceID b).
Definition default_taken (a : Adapter) (others : gmap uuid Adapter) : bool * PgError :=
  (bool_decide (rows (both_default a) others = []),
   match ad_WorkspaceID a with
   | Some _ => PgOther "conflicting key value violates exclusion constraint adapters_one_default_per_scope"
   | None => duplicate "idx_adapters_global_default"
   end).

Definition adapter_row (now : gotime) (a : Adapter) : Adapter :=
  mkAdapter (ad_ID a) (ad_WorkspaceID a) (ad_Name a) (ad_AdapterType a) (ad_ConfigEncrypted a) (ad_IsDefault a)
    (ad_RateLimitPerSecond a) (ad_ConfigMeta a) now now None.

Definition AdapterRepo_Create (a : Adapter) : M Flt Adapter :=
  write_stmt "inserting adapter" (fun now t =>
    let row := adapter_row now a in
    match violation [(known_adapter_type (ad_AdapterType row), invalid_enum "adapter_type" (AdapterType_String (ad_AdapterType row)));
                     (bool_decide (fl_adapters t !! ad_ID row = None), duplicate "adapters_pkey");
                     default_taken row (fl_adapters t);
                     (refers (tb_workspaces (fl_dir t)) (ad_WorkspaceID row), dangling "workspaces")] with
    | Some e => inl e
    | None => inr (row, set_adapters <[ad_ID row := row]> t)
    end).

Definition adapter_not_found : error := NotFound "adapter not found".
Definition live_adapter (id : uuid) (t : Fleet) : option Adapter :=
  match fl_adapters t !! id with Some a => if adapter_live a then Some a else None | None => None end.

Definition AdapterRepo_GetByID (id : uuid) : M Flt Adapter :=
  query (wrapping "scanning adapter") (fun t =>
    match live_adapter id t with Some a => Ok a | None => Err adapter_not_found end).

Definition with_adapter (now : gotime) (a row : Adapter) : Adapter :=
  mkAdapter (ad_ID row) (ad_WorkspaceID row) (ad_Name a) (ad_AdapterType a) (ad_ConfigEncrypted a) (ad_IsDefault a)
    (ad_RateLimitPerSecond a) (ad_ConfigMeta a) (ad_CreatedAt row) now (ad_DeletedAt row).

Definition adapter_missing (id : uuid) : error := NotFound ("adapter " +:+ uuid_String id +:+ " not found").
(** [RETURNING updated_at]. *)
Definition with_updated (now : gotime) (a : Adapter) : Adapter :=
  mkAdapter (ad_ID a) (ad_WorkspaceID a) (ad_Name a) (ad_AdapterType a) (ad_ConfigEncrypted a) (ad_IsDefault a)
    (ad_RateLimitPerSecond a) (ad_ConfigMeta a) (ad_CreatedAt a) now (ad_DeletedAt a).

Definition AdapterRepo_Update (a : Adapter) : M Flt Adapter :=
  exec (wrapping "updating adapter") (fun now t =>
    match live_adapter (ad_ID a) t with
    | None => (Err (adapter_missing (ad_ID a)), t)
    | Some r =>
        let row := with_adapter now a r in
        match violation [(known_adapter_type (ad_AdapterType row), invalid_enum "adapter_type" (AdapterType_String (ad_AdapterType row)));
                         default_taken row (delete (ad_ID a) (fl_adapters t))] with
        | Some e => (Err (unclassified "updating adapter" e), t)
        | None => (Ok (with_updated now a), set_adapters <[ad_ID a := row]> t)
        end
    end).

Definition with_adapter_deleted (now : gotime) (a : Adapter) : Adapter :=
  mkAdapter (ad_ID a) (ad_WorkspaceID a) (ad_Name a) (ad_AdapterType a) (ad_ConfigEncrypted a) (ad_IsDefault a)
    (ad_RateLimitPerSecond a) (ad_ConfigMeta a) (ad_CreatedAt a) (ad_UpdatedAt a) (Some now).

Definition AdapterRepo_SoftDelete (id : uuid) : M Flt unit :=
  update_stmt "soft-deleting adapter" (adapter_missing id) (live_adapter id)
    (fun now a => set_adapters <[id := with_adapter_deleted now a]>).

Definition Adapters_ListInChain (chain : list (option uuid)) : M Flt (list Adapter) :=
  let '(scopes, includeGlobal) := splitChain chain in
  query (wrapping "listing adapters in chain") (fun t =>
    Ok (newest_first ad_ID
          (rows (fun a => in_chain scopes includeGlobal (ad_WorkspaceID a) && adapter_live a) (fl_adapters t)))).

Definition Adapters_ListByWorkspace (workspaceID : option uuid) (opts : ListOptions) : M Flt (PageResult Adapter) :=
  match ApplyPagination opts with
  | Err e => fail e
  | Ok (limit, afterID) =>
      query (wrapping "listing adapters by workspace") (fun t =>
        Ok (paged ad_ID (rows (fun a => bool_decide (ad_WorkspaceID a = workspaceID) && adapter_live a) (fl_adapters t))
              limit afterID))
  end.
End AdapterRepo.

(** ** Identities ([adapter_identity_repo.go]) *)

Section IdentityRepo.
Context `{GoStd} `{Codec}.
(** [ORDER BY] of a text column, with the collation of the database. *)
Context (collate : string -> string -> bool).

Definition known_identity_type (t : IdentityType) : bool := match t with IdentityTypeOther _ => false | _ => true end.
Definition known_identity_status (s : IdentityStatus) : bool := match s with IdentityStatusOther _ => false | _ => true end.
Definition IdentityType_String (t : IdentityType) : string :=
  match t with IdentityTypeEmail => "email" | IdentityTypeDomain => "domain" | IdentityTypeOther raw => raw end.
Definition IdentityStatus_String (s : IdentityStatus) : string :=
  match s with
  | IdentityStatusVerified => "verified" | IdentityStatusPending => "pending" | IdentityStatusFailed => "failed"
  | IdentityStatusOther raw => raw
  end.

(** [ai_unique] and [ai_one_default]. *)
Definition same_identity (a b : AdapterIdentity) : bool :=
  bool_decide (id_AdapterID a = id_AdapterID b) && bool_decide (id_Identity a = id_Identity b).
Definition both_default_identity (a b : AdapterIdentity) : bool :=
  id_IsDefault a && id_IsDefault b && bool_decide (id_AdapterID a = id_AdapterID b).
Definition one_default_identity : PgError := PgOther "conflicting key value violates exclusion constraint ai_one_default".

Definition identity_tests (row : AdapterIdentity) (others : gmap uuid AdapterIdentity) (t : Fleet) : list (bool * PgError) :=
  [(known_identity_type (id_IdentityType row), invalid_enum "identity_type" (IdentityType_String (id_IdentityType row)));
   (known_identity_status (id_Status row), invalid_enum "identity_status" (IdentityStatus_String (id_Status row)));
   (bool_decide (others !! id_ID row = None), duplicate "adapter_identities_pkey");
   (bool_decide (rows (same_identity row) others = []), duplicate "ai_unique");
   (bool_decide (rows (both_default_identity row) others = []), one_default_identity);
   (bool_decide (is_Some (fl_adapters t !! id_AdapterID row)), dangling "adapters")].

Definition identity_row (now : gotime) (synced : option gotime) (i : AdapterIdentity) : AdapterIdentity :=
  mkAdapterIdentity (id_ID i) (id_AdapterID i) (id_Identity i) (id_IdentityType i) (id_Status i) (id_SendingEnabled i)
    (id_IsDefault i) (id_DisplayName i) (id_Source i) synced 0 now now.

Definition IdentityRepo_Create (i : AdapterIdentity) : M Flt AdapterIdentity :=
  write_stmt "inserting adapter identity" (fun now t =>
    let row := identity_row now (id_LastSyncedAt i) i in
    match violation (identity_tests row (fl_identities t) t) with
    | Some e => inl e
    | None => inr (row, set_identities <[id_ID row := row]> t)
    end).

Definition identity_not_found : error := NotFound "adapter identity not found".
Definition IdentityRepo_GetByID (id : uuid) : M Flt AdapterIdentity :=
  query (wrapping "scanning adapter identity") (fun t =>
    match fl_identities t !! id with Some i => Ok i | None => Err identity_not_found end).

Definition with_identity (now : gotime) (i row : AdapterIdentity) : AdapterIdentity :=
  mkAdapterIdentity (id_ID row) (id_AdapterID row) (id_Identity row) (id_IdentityType row) (id_Status i) (id_SendingEnabled i)
    (id_IsDefault i) (id_DisplayName i) (id_Source row) (id_LastSyncedAt i) (id_GrantedWorkspaceCount row)
    (id_CreatedAt row) now.

Definition identity_missing (id : uuid) : error := NotFound ("adapter identity " +:+ uuid_String id +:+ " not found").

Definition IdentityRepo_Update (i : AdapterIdentity) : M Flt unit :=
  exec (wrapping "updating adapter identity") (fun now t =>
    match fl_identities t !! id_ID i with
    | None => (Err (identity_missing (id_ID i)), t)
    | Some r =>
        let row := with_identity now i r in
        match violation [(known_identity_status (id_Status row), invalid_enum "identity_status" (IdentityStatus_String (id_Status row)));
                         (bool_decide (rows (both_default_identity row) (delete (id_ID i) (fl_identities t)) = []), one_default_identity)] with
        | Some e => (Err (unclassified "updating adapter identity" e), t)
        | None => (Ok tt, set_identities <[id_ID i := row]> t)
        end
    end).

(** [ON DELETE CASCADE] of the grants, [ON DELETE SET NULL] of the types. *)
Definition without_sender (p : uuid -> bool) (ty : TemplateType) : TemplateType :=
  {| tt_ID := tt_ID ty; tt_WorkspaceID := tt_WorkspaceID ty; tt_Slug := tt_Slug ty; tt_Name := tt_Name ty;
     tt_Description := tt_Description ty; tt_AdapterID := tt_AdapterID ty;
     tt_SenderIdentityID := match tt_SenderIdentityID ty with Some id => if p id then None else Some id | None => None end;
     tt_VariableSchema := tt_VariableSchema ty; tt_TestRecipientMode := tt_TestRecipientMode ty;
     tt_TestRecipientAddresses := tt_TestRecipientAddresses ty; tt_OwnerScope := tt_OwnerScope ty;
     tt_InheritedFromSystem := tt_InheritedFromSystem ty; tt_IsBulk := tt_IsBulk ty; tt_CreatedAt := tt_CreatedAt ty;
     tt_UpdatedAt := tt_UpdatedAt ty; tt_DeletedAt := tt_DeletedAt ty |}.

Definition drop_identities (p : AdapterIdentity -> bool) (t : Fleet) : Fleet :=
  let gone id := match fl_identities t !! id with Some i => p i | None => false end in
  mkFleet (fl_dir t) (fl_adapters t) (filter (fun kv => p kv.2 = false) (fl_identities t)) (fl_adapter_grants t)
    (filter (fun g => gone g.1 = false) (fl_identity_grants t)) (without_sender gone <$> fl_types t) (fl_audit t) (fl_steps t).

Definition IdentityRepo_Delete (id : uuid) : M Flt unit :=
  update_stmt "deleting adapter identity" (identity_missing id) (fun t => fl_identities t !! id)
    (fun _ _ => drop_identities (fun i => bool_decide (id_ID i = id))).

Definition identity_type_rank (t : IdentityType) : Z :=
  match t with IdentityTypeEmail => 0 | IdentityTypeDomain => 1 | IdentityTypeOther _ => 2 end%Z.
Definition identity_before (a b : AdapterIdentity) : bool :=
  if negb (Bool.eqb (id_IsDefault a) (id_IsDefault b)) then id_IsDefault a
  else if (identity_type_rank (id_IdentityType a) =? identity_type_rank (id_IdentityType b))%Z
  then collate (id_Identity a) (id_Identity b)
  else (identity_type_rank (id_IdentityType a) <? identity_type_rank (id_IdentityType b))%Z.

Definition granted_count (t : Fleet) (i : AdapterIdentity) : AdapterIdentity :=
  mkAdapterIdentity (id_ID i) (id_AdapterID i) (id_Identity i) (id_IdentityType i) (id_Status i) (id_SendingEnabled i)
    (id_IsDefault i) (id_DisplayName i) (id_Source i) (id_LastSyncedAt i)
    (Z.of_nat (size (filter (fun g => g.1 = id_ID i) (fl_identity_grants t)))) (id_CreatedAt i) (id_UpdatedAt i).

Definition ListByAdapter (adapterID : uuid) : M Flt (list AdapterIdentity) :=
  query (wrapping "listing adapter identities") (fun t =>
    Ok (granted_count t <$> merge_sort (fun a b => Is_true (identity_before a b))
          (rows (fun i => bool_decide (id_AdapterID i = adapterID)) (fl_identities t)))).

Definition IdentityRepo_GetDefault (adapterID : uuid) : M Flt AdapterIdentity :=
  query (wrapping "scanning adapter identity") (fun t =>
    first_row identity_not_found
      (rows (fun i => bool_decide (id_AdapterID i = adapterID) && id_IsDefault i) (fl_identities t))).

Definition with_default_identity (now : gotime) (d : bool) (i : AdapterIdentity) : AdapterIdentity :=
  mkAdapterIdentity (id_ID i) (id_AdapterID i) (id_Identity i) (id_IdentityType i) (id_Status i) (id_SendingEnabled i)
    d (id_DisplayName i) (id_Source i) (id_LastSyncedAt i) (id_GrantedWorkspaceCount i) (id_CreatedAt i) now.

Definition unset_default (adapterID : uuid) : M Flt unit :=
  exec (wrapping "unsetting previous default") (fun now t =>
    (Ok tt, set_identities (fmap (fun i => if bool_decide (id_AdapterID i = adapterID) && id_IsDefault i
                                           then with_default_identity now false i else i)) t)).

Definition set_default (adapterID identityID : uuid) : M Flt unit :=
  exec (wrapping "setting new default") (fun now t =>
    match fl_identities t !! identityID with
    | Some i =>
        if bool_decide (id_AdapterID i = adapterID) then
          let row := with_default_identity now true i in
          if bool_decide (rows (both_default_identity row) (delete identityID (fl_identities t)) = [])
          then (Ok tt, set_identities <[identityID := row]> t)
          else (Err (unclassified "setting new default" one_default_identity), t)
        else (Err (identity_missing identityID), t)
    | None => (Err (identity_missing identityID), t)
    end).

Definition IdentityRepo_SetDefault (adapterID identityID : uuid) : M Flt unit :=
  transaction (wrapping "beginning tx") id (unset_default adapterID ;;; set_default adapterID identityID).

(** The row of a conflict keeps what the statement does not set. *)
Definition with_sync (now : gotime) (i row : AdapterIdentity) : AdapterIdentity :=
  mkAdapterIdentity (id_ID row) (id_AdapterID row) (id_Identity row) (id_IdentityType row) (id_Status i) (id_SendingEnabled i)
    (id_IsDefault row) (id_DisplayName row) (id_Source row) (Some now) (id_GrantedWorkspaceCount row) (id_CreatedAt row) now.
Definition synced_row (now : gotime) (adapterID : uuid) (i : AdapterIdentity) : AdapterIdentity :=
  mkAdapterIdentity (id_ID i) adapterID (id_Identity i) (id_IdentityType i) (id_Status i) (id_SendingEnabled i)
    false None (id_Source i) (Some now) 0 now now.

Definition upsert_identity (adapterID : uuid) (i : AdapterIdentity) : M Flt unit :=
  let msg := "upserting identity " +:+ id_Identity i in
  exec (wrapping msg) (fun now t =>
    let row := synced_row now adapterID i in
    match rows (same_identity row) (fl_identities t) with
    | old :: _ =>
        if known_identity_type (id_IdentityType i) && known_identity_status (id_Status i)
        then (Ok tt, set_identities <[id_ID old := with_sync now i old]> t)
        else (Err (unclassified msg (invalid_enum "identity_status" (IdentityStatus_String (id_Status i)))), t)
    | [] =>
        match violation (identity_tests row (fl_identities t) t) with
        | Some e => (Err (unclassified msg e), t)
        | None => (Ok tt, set_identities <[id_ID row := row]> t)
        end
    end).

Definition UpsertBatch (adapterID : uuid) (identities : list AdapterIdentity) : M Flt unit :=
  transaction (wrapping "beginning tx") id (for_each identities (upsert_identity adapterID)).

Definition DeleteStale (adapterID : uuid) (keepIdentities : list string) : M Flt unit :=
  exec (wrapping "deleting stale identities") (fun _ t =>
    (Ok tt, drop_identities (fun i => bool_decide (id_AdapterID i = adapterID)
                                      && bool_decide (id_Source i = IdentitySourceProvider)
                                      && negb (bool_decide (id_Identity i ∈ keepIdentities))) t)).
End IdentityRepo.

(** ** Grants ([adapter_access_repo.go]) *)

Section GrantRepos.
Context `{GoStd} `{Codec} (collate : string -> string -> bool).

(** The workspaces of one resource, in the order of their identifiers. *)
Definition granted_to (id : uuid) (g : gset (uuid * uuid)) : list uuid :=
  merge_sort N.le (snd <$> List.filter (fun p => bool_decide (p.1 = id)) (elements g)).

Definition GrantRepo_List (adapterID : uuid) : M Flt (list uuid) :=
  query (wrapping "listing adapter workspace grants") (fun t => Ok (granted_to adapterID (fl_adapter_grants t))).

(** [INSERT] of a grant: the primary key and both references. *)
Definition insert_grant (what : string) (owner_exists : Fleet -> bool) (workspaceID : uuid) (put : (gset (uuid * uuid) -> gset (uuid * uuid)) -> Fleet -> Fleet)
    (get : Fleet -> gset (uuid * uuid)) (id : uuid) : M Flt unit :=
  let msg := "inserting " +:+ what +:+ " workspace grant" in
  exec (wrapping msg) (fun _ t =>
    match violation [(negb (bool_decide ((id, workspaceID) ∈ get t)), duplicate (what +:+ "_workspace_grants_pkey"));
                     (owner_exists t, dangling (what +:+ "s"));
                     (bool_decide (is_Some (tb_workspaces (fl_dir t) !! workspaceID)), dangling "workspaces")] with
    | Some e => (Err (unclassified msg e), t)
    | None => (Ok tt, put (fun g => {[(id, workspaceID)]} ∪ g) t)
    end).

Definition without_grants (id : uuid) (g : gset (uuid * uuid)) : gset (uuid * uuid) := filter (fun p => p.1 <> id) g.

Definition GrantRepo_Replace (adapterID : uuid) (workspaceIDs : list uuid) : M Flt unit :=
  in_tx "beginning tx" "committing adapter workspace grants"
    (exec (wrapping "deleting adapter workspace grants") (fun _ t => (Ok tt, set_adapter_grants (without_grants adapterID) t)) ;;;
     for_each workspaceIDs (fun ws =>
       insert_grant "adapter" (fun t => bool_decide (is_Some (fl_adapters t !! adapterID))) ws set_adapter_grants
         fl_adapter_grants adapterID)).

Definition GrantRepo_Has (adapterID workspaceID : uuid) : M Flt bool :=
  query (wrapping "checking adapter workspace grant") (fun t => Ok (bool_decide ((adapterID, workspaceID) ∈ fl_adapter_grants t))).

(** The owner of a shared adapter: a live system workspace of the tenant. *)
Definition shared_by_system (t : Fleet) (a : Adapter) (ws : Workspace) : bool :=
  match ad_WorkspaceID a with
  | Some ownerID => match live_workspace ownerID (fl_dir t) with
                    | Some owner => bool_decide (ws_TenantID owner = ws_TenantID ws) && ws_IsSystem owner
                    | None => false
                    end
  | None => false
  end.

Definition visible_adapter (t : Fleet) (ws : Workspace) (a : Adapter) : bool :=
  adapter_live a &&
  (bool_decide (ad_WorkspaceID a = Some (ws_ID ws))
   || bool_decide (ad_AdapterType a = AdapterTypeGmail) && bool_decide ((ad_ID a, ws_ID ws) ∈ fl_adapter_grants t)
      && shared_by_system t a ws
   || (bool_decide (ad_AdapterType a = AdapterTypeSES) || bool_decide (ad_AdapterType a = AdapterTypeSMTP))
      && bool_decide (rows (fun i => bool_decide (id_AdapterID i = ad_ID a) && bool_decide ((id_ID i, ws_ID ws) ∈ fl_identity_grants t))
                        (fl_identities t) <> [])
      && shared_by_system t a ws).

Definition GrantRepo_ListVisible (workspaceID : uuid) (opts : ListOptions) : M Flt (PageResult Adapter) :=
  match ApplyPagination opts with
  | Err e => fail e
  | Ok (limit, afterID) =>
      query (wrapping "listing visible adapters for workspace") (fun t =>
        let visible := match live_workspace workspaceID (fl_dir t) with
                       | Some ws => rows (visible_adapter t ws) (fl_adapters t)
                       | None => []
                       end in
        Ok (paged ad_ID visible limit afterID))
  end.

Definition IdentityGrants_List (identityID : uuid) : M Flt (list uuid) :=
  query (wrapping "listing identity workspace grants") (fun t => Ok (granted_to identityID (fl_identity_grants t))).

Definition IdentityGrants_Replace (identityID : uuid) (workspaceIDs : list uuid) : M Flt unit :=
  in_tx "beginning tx" "committing identity workspace grants"
    (exec (wrapping "deleting identity workspace grants") (fun _ t => (Ok tt, set_identity_grants (without_grants identityID) t)) ;;;
     for_each workspaceIDs (fun ws =>
       insert_grant "identity" (fun t => bool_decide (is_Some (fl_identities t !! identityID))) ws set_identity_grants
         fl_identity_grants identityID)).

Definition IdentityGrants_Has (identityID workspaceID : uuid) : M Flt bool :=
  query (wrapping "checking identity workspace grant") (fun t => Ok (bool_decide ((identityID, workspaceID) ∈ fl_identity_grants t))).

Definition default_first (a b : AdapterIdentity) : bool :=
  if negb (Bool.eqb (id_IsDefault a) (id_IsDefault b)) then id_IsDefault a else collate (id_Identity a) (id_Identity b).

Definition IdentityGrants_ListGranted (adapterID workspaceID : uuid) : M Flt (list AdapterIdentity) :=
  query (wrapping "listing granted identities for workspace") (fun t =>
    Ok (merge_sort (fun a b => Is_true (default_first a b))
          (rows (fun i => bool_decide (id_AdapterID i = adapterID) && bool_decide ((id_ID i, workspaceID) ∈ fl_identity_grants t)
                          && bool_decide (id_IdentityType i = IdentityTypeEmail)) (fl_identities t)))).

(** The live types that use a resource. *)
Definition types_with (p : TemplateType -> bool) (workspaceID : option uuid) (t : Fleet) : list TemplateType :=
  rows (fun ty => p ty && bool_decide (tt_DeletedAt ty = None)
                  && match workspaceID with Some ws => bool_decide (tt_WorkspaceID ty = Some ws) | None => true end) (fl_types t).
Definition uses_adapter (adapterID : uuid) (ty : TemplateType) : bool := bool_decide (tt_AdapterID ty = Some adapterID).
Definition uses_sender (identityID : uuid) (ty : TemplateType) : bool := bool_decide (tt_SenderIdentityID ty = Some identityID).

Definition CountTypesUsingAdapter (adapterID : uuid) (workspaceID : option uuid) : M Flt Z :=
  query (wrapping "counting template types using adapter") (fun t =>
    Ok (Z.of_nat (List.length (types_with (uses_adapter adapterID) workspaceID t)))).
Definition CountTypesUsingSenderIdentity (identityID : uuid) (workspaceID : option uuid) : M Flt Z :=
  query (wrapping "counting template types using sender identity") (fun t =>
    Ok (Z.of_nat (List.length (types_with (uses_sender identityID) workspaceID t)))).

(** The join has a row for each type; the workspaces in the order of their first
    request. *)
Fixpoint first_requests (seen l : list uuid) : list uuid :=
  match l with
  | [] => []
  | x :: r => if bool_decide (x ∈ seen) then first_requests seen r else x :: first_requests (x :: seen) r
  end.
Definition workspaces_using (p : TemplateType -> bool) (workspaceIDs : list uuid) (t : Fleet) : list uuid :=
  first_requests [] workspaceIDs ≫= fun ws => (fun _ => ws) <$> types_with p (Some ws) t.

Definition Usages_UsingAdapter (adapterID : uuid) (workspaceIDs : list uuid) : M Flt (list uuid) :=
  match workspaceIDs with
  | [] => ret []
  | _ => query (wrapping "listing workspaces using adapter") (fun t => Ok (workspaces_using (uses_adapter adapterID) workspaceIDs t))
  end.
Definition Usages_UsingSender (identityID : uuid) (workspaceIDs : list uuid) : M Flt (list uuid) :=
  match workspaceIDs with
  | [] => ret []
  | _ => query (wrapping "listing workspaces using sender identity") (fun t => Ok (workspaces_using (uses_sender identityID) workspaceIDs t))
  end.
End GrantRepos.

(** ** The audit log ([audit_repo.go]) *)

Section AuditRepo.
Context `{GoStd} `{Codec}.

(** The values of the column's type. *)
Definition audit_actions : list string :=
  ["create"; "update"; "delete"; "purge"; "publish"; "archive"; "disable"; "enable"; "revoke"; "invite"; "remove_role"].

Definition audit_row (now : gotime) (e : AuditLog) : AuditLog :=
  mkAuditLog (al_ID e) (al_ActorID e) (al_ActorEmail e) (al_Action e) (al_EntityType e) (al_EntityID e) (al_TenantID e)
    (al_WorkspaceID e) (al_ScopeType e) (al_Changes e) (al_Metadata e) now.

Definition Audit_Append (e : AuditLog) : M Flt unit :=
  exec (wrapping "inserting audit log") (fun now t =>
    match violation [(bool_decide (al_Action e ∈ audit_actions), invalid_enum "audit_action" (al_Action e));
                     (known_scope (al_ScopeType e), invalid_enum "scope_type" (ScopeType_String (al_ScopeType e)));
                     (negb (List.existsb (fun o => bool_decide (al_ID o = al_ID e) && bool_decide (al_CreatedAt o = now)) (fl_audit t)),
                      duplicate "audit_logs_pkey")] with
    | Some err => (Err (unclassified "inserting audit log" err), t)
    | None => (Ok tt, set_audit (cons (audit_row now e)) t)
    end).

Record AuditFilter := mkAuditFilter {
  af_TenantID : option uuid;
  af_WorkspaceID : option uuid;
  af_ActorID : option uuid;
  af_Action : option string;
  af_EntityType : option string;
  af_Since : option gotime;
  af_Until : option gotime;
}.

Definition when_given {A} (o : option A) (p : A -> bool) : bool := match o with Some a => p a | None => true end.
Definition audit_matches (f : AuditFilter) (e : AuditLog) : bool :=
  when_given (af_TenantID f) (fun id => bool_decide (al_TenantID e = Some id))
  && when_given (af_WorkspaceID f) (fun id => bool_decide (al_WorkspaceID e = Some id))
  && when_given (af_ActorID f) (fun id => bool_decide (al_ActorID e = id))
  && when_given (af_Action f) (fun a => bool_decide (al_Action e = a))
  && when_given (af_EntityType f) (fun ty => bool_decide (al_EntityType e = ty))
  && when_given (af_Since f) (fun since => (since <=? al_CreatedAt e)%Z)
  && when_given (af_Until f) (fun until => (al_CreatedAt e <? until)%Z).

(** [ORDER BY created_at DESC, id DESC] and [(created_at, id) < (...)]. *)
Definition audit_after (a b : AuditLog) : Prop :=
  (al_CreatedAt b < al_CreatedAt a)%Z \/ al_CreatedAt a = al_CreatedAt b /\ (al_ID b <= al_ID a)%N.
#[local] Instance audit_after_dec : RelDecision audit_after.
Proof. intros a b. unfold audit_after. apply _. Defined.
Definition audit_before (time : gotime) (id : uuid) (e : AuditLog) : bool :=
  (al_CreatedAt e <? time)%Z || (al_CreatedAt e =? time)%Z && (al_ID e <? id)%N.

(** A filter for an action outside the column's type is PostgreSQL's error. *)
Definition Audit_Query (f : AuditFilter) (opts : ListOptions) : M Flt (PageResult AuditLog) :=
  let limit := NormalizeLimit (lo_Limit opts) in
  let! cursor := lift_res (if bool_decide (lo_Cursor opts = "") then Ok None
                           else match DecodeTimeCursor (lo_Cursor opts) with Ok c => Ok (Some c) | Err e => Err e end) in
  query (wrapping "querying audit logs") (fun t =>
    if negb (when_given (af_Action f) (fun a => bool_decide (a ∈ audit_actions)))
    then Err (unclassified "querying audit logs" (invalid_enum "audit_action" (default "" (af_Action f))))
    else
      let selected := merge_sort audit_after
        (List.filter (fun e => audit_matches f e && when_given cursor (fun c => audit_before c.1 c.2 e)) (fl_audit t)) in
      let got := take (Z.to_nat (limit + 1)) selected in
      if (limit <? Z.of_nat (List.length got))%Z then
        let cut := take (Z.to_nat limit) got in
        Ok (mkPageResult _ cut (match last cut with Some e => EncodeTimeCursor (al_CreatedAt e) (al_ID e) | None => "" end) true)
      else Ok (mkPageResult _ got "" false)).
End AuditRepo.
