(* ===== verification/TenantHandlers.v ===== *)
(** * Managing tenants, workspaces and keys
    ([handler/tenant.go], [workspace.go], [workspace_policy.go], [apikey.go])

    The handlers with their requests ([request/tenant.go], [workspace.go],
    [apikey.go]) and responses ([response/tenant.go], [workspace.go],
    [apikey.go]), and the guard that keeps a tenant with an active SES adapter. *)
From stdpp Require Import base gmap strings list.
From Stdlib Require Import ZArith NArith Ascii String Lia.
From S2P Require Import Prelude GoMonad Domain Ports Token Config Http.
From S2P Require Import Suppression Postgres Database Directory Auth Members Surface Inheritance Hosted.
From S2P Require Import Templates Fleet TemplateHandlers.

(** ** Requests *)

Record CreateTenantRequest := mkCreateTenant { ctr_Code : string; ctr_Name : string }.
Record UpdateTenantRequest := mkUpdateTenant { utr_Name : option string; utr_IsActive : option bool }.
Record CreateWorkspaceRequest := mkCreateWorkspace {
  cwr_Code : string;
  cwr_Name : string;
  cwr_DefaultLocale : option string;
}.
Record UpdateWorkspaceRequest := mkUpdateWorkspace {
  uwr_Code : option string;
  uwr_Name : option string;
  uwr_IsActive : option bool;
  uwr_OpenTrackingEnabled : option bool;
  uwr_DefaultLocale : option string;
  uwr_TestRecipientMode : option string;
  uwr_TestRecipientAddresses : option (list string);
}.
Record UpdateWorkspacePolicyRequest := mkUpdatePolicy {
  upr_LocalTemplates : option bool;
  upr_InheritedTemplateForks : option bool;
  upr_LocalInjectors : option bool;
}.
Record CreateAPIKeyRequest := mkCreateAPIKey { ckr_Name : string }.

(** ** Responses *)

Section Responses.
Context `{GoStd}.

Definition NewTenantResponse (t : Tenant) (deleteBlockedReason : string) : any :=
  AMap (text "id" (uuid_String (ten_ID t)) ++ text "code" (ten_Code t) ++ text "name" (ten_Name t)
        ++ flag "is_active" (ten_IsActive t) ++ filled "delete_blocked_reason" deleteBlockedReason
        ++ text "created_at" (rfc3339 (ten_CreatedAt t)) ++ text "updated_at" (rfc3339 (ten_UpdatedAt t))).
(** [TenantListResponse] and [WorkspaceListResponse]. *)
Definition listed (items : list any) (nextCursor : string) : any :=
  AMap (field "items" (AList items) ++ filled "next_cursor" nextCursor
        ++ flag "has_more" (negb (bool_decide (nextCursor = "")))).

Definition NewWorkspaceResponse (ws : Workspace) : any :=
  AMap (text "id" (uuid_String (ws_ID ws))
        ++ text "logical_workspace_id"
             (uuid_String (if bool_decide (ws_LogicalWorkspaceID ws = uuid_Nil) then ws_ID ws else ws_LogicalWorkspaceID ws))
        ++ text "tenant_id" (uuid_String (ws_TenantID ws)) ++ text "code" (ws_Code ws) ++ text "name" (ws_Name ws)
        ++ text "environment" (Environment_String (if Environment_Valid (ws_Environment ws) then ws_Environment ws
                                                   else EnvironmentProd))
        ++ flag "is_system" (ws_IsSystem ws) ++ flag "is_active" (ws_IsActive ws)
        ++ flag "open_tracking_enabled" (ws_OpenTrackingEnabled ws)
        ++ field "default_locale" (nullable (ws_DefaultLocale ws))
        ++ text "test_recipient_mode" (TestRecipientMode_String (effectiveTestRecipientMode (ws_TestRecipientMode ws)))
        ++ field "test_recipient_addresses" (AList (AStr <$> ws_TestRecipientAddresses ws))
        ++ text "created_at" (rfc3339 (ws_CreatedAt ws)) ++ text "updated_at" (rfc3339 (ws_UpdatedAt ws))).

Definition newWorkspacePolicyResponse (ws : option Workspace) : any :=
  let p := effectiveWorkspacePolicies ws in
  AMap (flag "allow_workspace_local_templates" (AllowWorkspaceLocalTemplates p)
        ++ flag "allow_workspace_inherited_template_forks" (AllowWorkspaceInheritedTemplateForks p)
        ++ flag "allow_workspace_local_injectors" (AllowWorkspaceLocalInjectors p)).

(** The only answer with the key itself. *)
Definition NewAPIKeyCreatedResponse (key : APIKey) (fullKey : string) : any :=
  AMap (text "id" (uuid_String (key_ID key)) ++ text "key" fullKey ++ text "name" (key_Name key)
        ++ text "hint" (key_KeyHint key) ++ text "created_at" (rfc3339 (key_CreatedAt key))
        ++ text "created_by" (uuid_String (key_CreatedBy key))).
Definition NewAPIKeyResponse (key : APIKey) : any :=
  AMap (text "id" (uuid_String (key_ID key)) ++ text "name" (key_Name key) ++ text "hint" (key_KeyHint key)
        ++ text "created_at" (rfc3339 (key_CreatedAt key)) ++ text "created_by" (uuid_String (key_CreatedBy key))
        ++ optional "last_used_at" (rfc3339 <$> key_LastUsedAt key) ++ optional "revoked_at" (rfc3339 <$> key_RevokedAt key)).
Definition NewAPIKeyListResponse (page : PageResult APIKey) : any :=
  AMap (field "items" (AList (NewAPIKeyResponse <$> pr_Items _ page)) ++ filled "next_cursor" (pr_NextCursor _ page)
        ++ flag "has_more" (pr_HasMore _ page)).
End Responses.

(** ** Validation *)

Section Validation.
Context `{GoStd} `{Parsers}.

Definition code_errors (code : string) : list FieldError :=
  match slug_Validate code with Err e => [mkFieldError "code" (error_string e)] | Ok _ => [] end.

(** [unicode.IsControl] of some rune: C0 and DEL, or a C1 control, which is
    encoded as C2 followed by 80 to 9F. *)
Fixpoint has_control (s : string) : bool :=
  match s with
  | EmptyString => false
  | String c r =>
      (nat_of_ascii c <? 32)%nat || (nat_of_ascii c =? 127)%nat
      || ((nat_of_ascii c =? 194)%nat
          && match r with String d _ => (128 <=? nat_of_ascii d)%nat && (nat_of_ascii d <=? 159)%nat | _ => false end)
      || has_control r
  end.

Definition key_name_errors (name : string) : list FieldError :=
  if bool_decide (name = "") then [mkFieldError "name" "is required"]
  else (if (100 <? String.length name)%nat then [mkFieldError "name" "must be at most 100 characters"] else [])
       ++ (if has_control name then [mkFieldError "name" "must not contain control characters"] else []).

(** A new name of a tenant or workspace, when one is given. *)
Definition new_name_errors (name : option string) : list FieldError :=
  match name with
  | None => []
  | Some n => if bool_decide (n = "") then [mkFieldError "name" "cannot be empty"]
              else if (255 <? String.length n)%nat then [mkFieldError "name" "must be at most 255 characters"] else []
  end.

Definition present {A} (o : option A) : bool := match o with Some _ => true | None => false end.
Definition not_scoped (given : bool) (name : string) : list FieldError :=
  if given then [mkFieldError name "is only supported on environment-scoped workspace routes"] else [].
Definition environment_only_errors (req : UpdateWorkspaceRequest) : list FieldError :=
  not_scoped (present (uwr_IsActive req)) "is_active"
  ++ not_scoped (present (uwr_OpenTrackingEnabled req)) "open_tracking_enabled"
  ++ not_scoped (present (uwr_DefaultLocale req)) "default_locale"
  ++ not_scoped (present (uwr_TestRecipientMode req)) "test_recipient_mode"
  ++ not_scoped (present (uwr_TestRecipientAddresses req)) "test_recipient_addresses".
End Validation.

(** ** Rows *)

Definition fresh_workspace (id logical tenantID : uuid) (code name : string) (env : Environment) (system : bool)
    (locale : option string) (now : gotime) : Workspace := {|
  ws_ID := id; ws_LogicalWorkspaceID := logical; ws_TenantID := tenantID; ws_Code := code; ws_Name := name;
  ws_Environment := env; ws_IsSystem := system; ws_IsActive := true; ws_OpenTrackingEnabled := false;
  ws_DefaultLocale := locale; ws_TestRecipientMode := TestRecipientModeOther ""; ws_TestRecipientAddresses := [];
  ws_AllowWorkspaceLocalTemplates := system; ws_AllowWorkspaceInheritedTemplateForks := system;
  ws_AllowWorkspaceLocalInjectors := system; ws_WorkspacePoliciesInitialized := system;
  ws_CreatedAt := now; ws_UpdatedAt := now; ws_DeletedAt := None |}.

Definition with_tenant_request (req : UpdateTenantRequest) (now : gotime) (t : Tenant) : Tenant := {|
  ten_ID := ten_ID t; ten_Code := ten_Code t; ten_Name := default (ten_Name t) (utr_Name req);
  ten_IsActive := default (ten_IsActive t) (utr_IsActive req); ten_CreatedAt := ten_CreatedAt t; ten_UpdatedAt := now;
  ten_DeletedAt := ten_DeletedAt t |}.

Definition renamed (code name : string) (w : Workspace) : Workspace := with_code (ws_UpdatedAt w) code name w.

Definition with_environment_fields (active tracking : bool) (locale : option string) (mode : TestRecipientMode)
    (addresses : list string) (w : Workspace) : Workspace := {|
  ws_ID := ws_ID w; ws_LogicalWorkspaceID := ws_LogicalWorkspaceID w; ws_TenantID := ws_TenantID w; ws_Code := ws_Code w;
  ws_Name := ws_Name w; ws_Environment := ws_Environment w; ws_IsSystem := ws_IsSystem w; ws_IsActive := active;
  ws_OpenTrackingEnabled := tracking; ws_DefaultLocale := locale; ws_TestRecipientMode := mode;
  ws_TestRecipientAddresses := addresses; ws_AllowWorkspaceLocalTemplates := ws_AllowWorkspaceLocalTemplates w;
  ws_AllowWorkspaceInheritedTemplateForks := ws_AllowWorkspaceInheritedTemplateForks w;
  ws_AllowWorkspaceLocalInjectors := ws_AllowWorkspaceLocalInjectors w;
  ws_WorkspacePoliciesInitialized := ws_WorkspacePoliciesInitialized w; ws_CreatedAt := ws_CreatedAt w;
  ws_UpdatedAt := ws_UpdatedAt w; ws_DeletedAt := ws_DeletedAt w |}.

Definition with_policies (req : UpdateWorkspacePolicyRequest) (now : gotime) (w : Workspace) : Workspace := {|
  ws_ID := ws_ID w; ws_LogicalWorkspaceID := ws_LogicalWorkspaceID w; ws_TenantID := ws_TenantID w; ws_Code := ws_Code w;
  ws_Name := ws_Name w; ws_Environment := ws_Environment w; ws_IsSystem := ws_IsSystem w; ws_IsActive := ws_IsActive w;
  ws_OpenTrackingEnabled := ws_OpenTrackingEnabled w; ws_DefaultLocale := ws_DefaultLocale w;
  ws_TestRecipientMode := ws_TestRecipientMode w; ws_TestRecipientAddresses := ws_TestRecipientAddresses w;
  ws_AllowWorkspaceLocalTemplates := default (ws_AllowWorkspaceLocalTemplates w) (upr_LocalTemplates req);
  ws_AllowWorkspaceInheritedTemplateForks :=
    default (ws_AllowWorkspaceInheritedTemplateForks w) (upr_InheritedTemplateForks req);
  ws_AllowWorkspaceLocalInjectors := default (ws_AllowWorkspaceLocalInjectors w) (upr_LocalInjectors req);
  ws_WorkspacePoliciesInitialized := true; ws_CreatedAt := ws_CreatedAt w; ws_UpdatedAt := now;
  ws_DeletedAt := ws_DeletedAt w |}.

(** ** The handlers *)

Section Handlers.
Context `{GoStd} `{Codec} `{Sha256} `{Parsers} (ilike : string -> string -> bool).
Context `{Binder CreateTenantRequest} `{Binder UpdateTenantRequest} `{Binder CreateWorkspaceRequest}.
Context `{Binder UpdateWorkspaceRequest} `{Binder UpdateWorkspacePolicyRequest} `{Binder CreateAPIKeyRequest}.
#[local] Abbreviation Handler := (HandlerFunc Flt).
#[local] Abbreviation tenants := (HostedTenants (T:=Fleet) ilike).
#[local] Abbreviation workspaces := (HostedWorkspaces (T:=Fleet) ilike).

(** *** Tenants *)

(** [adapterStore.ListByWorkspace], when the store is wired, and the rounds the
    loops over pages are given. *)
Context (listAdapters : option (option uuid -> ListOptions -> M Flt (PageResult Adapter))) (rounds : nat).

Definition deleteBlockedReasonMessage (adapterName workspaceCode : string) : string :=
  "Delete disabled: tenant still has active SES adapter " +:+ Quote adapterName +:+ " in workspace "
  +:+ Quote workspaceCode +:+ ". Delete it first.".

(** A loop that returns the first reason found. *)
Fixpoint first_reason {A} (l : list A) (check : A -> M Flt (option string)) : M Flt (option string) :=
  match l with
  | [] => ret None
  | a :: r => let! found := check a in
              match found with Some reason => ret (Some reason) | None => first_reason r check end
  end.

Definition is_SES (a : Adapter) : bool := bool_decide (ad_AdapterType a = AdapterTypeSES).

Fixpoint scan_adapters (fuel : nat) (list_page : option uuid -> ListOptions -> M Flt (PageResult Adapter))
    (cursor : string) (ws : Workspace) : M Flt (option string) :=
  match fuel with
  | O => fail (EMsg "out of fuel")
  | S fuel =>
      let! page := list_page (Some (ws_ID ws)) (mkListOptions cursor 100 "") in
      match List.find is_SES (pr_Items _ page) with
      | Some a => ret (Some (deleteBlockedReasonMessage (ad_Name a) (ws_Code ws)))
      | None => if negb (pr_HasMore _ page) || bool_decide (pr_NextCursor _ page = "") then ret None
                else scan_adapters fuel list_page (pr_NextCursor _ page) ws
      end
  end.

Fixpoint scan_workspaces (fuel : nat) (check : Workspace -> M Flt (option string)) (tenantID : uuid) (cursor : string)
    (environment : Environment) : M Flt (option string) :=
  match fuel with
  | O => fail (EMsg "out of fuel")
  | S fuel =>
      let! (page, nextCursor) := WorkspaceStore.ListByTenant workspaces tenantID environment 100 cursor in
      let! found := first_reason page check in
      match found with
      | Some reason => ret (Some reason)
      | None => if bool_decide (nextCursor = "") then ret None else scan_workspaces fuel check tenantID nextCursor environment
      end
  end.

Definition deleteBlockedReason (tenantID : uuid) : M Flt string :=
  match listAdapters with
  | None => ret ""
  | Some list_page =>
      let! found := first_reason Environments (scan_workspaces rounds (scan_adapters rounds list_page "") tenantID "") in
      ret (default "" found)
  end.

Definition system_pair (tenantID logical prod test : uuid) (now : gotime) : M Flt (Workspace * Workspace) :=
  hosted (CreateLogicalPair (fresh_workspace prod logical tenantID "_system" "System" EnvironmentProd true None now)
            (fresh_workspace test logical tenantID "_system" "System" EnvironmentTest true None now)).

Definition Tenants_Create : Handler := bound (fun req : CreateTenantRequest =>
  let errors := code_errors (ctr_Code req) ++ name_errors (ctr_Name req) in
  if negb (bool_decide (errors = [])) then validation_failed errors
  else
    let! now := up (Now db_runtime) in
    let! id := up (NewV7 db_runtime) in
    stored (up (TenantStore.Create tenants (mkTenant id (ctr_Code req) (ctr_Name req) true now now None))) (fun tenant =>
      let! logical := up (NewV7 db_runtime) in
      let! prod := up (NewV7 db_runtime) in
      let! test := up (NewV7 db_runtime) in
      stored (up (system_pair id logical prod test now)) (fun _ => JSON_reply 201 (NewTenantResponse tenant "")))).

Fixpoint tenant_responses (l : list Tenant) : M Flt (list any) :=
  match l with
  | [] => ret []
  | t :: r =>
      let! reason := deleteBlockedReason (ten_ID t) in
      let! rest := tenant_responses r in
      ret (NewTenantResponse t reason :: rest)
  end.

Definition Tenants_List : Handler :=
  let! c := conn in
  stored (up (TenantStore.List tenants (ParseListOptions c))) (fun '(page, nextCursor) =>
    stored (up (tenant_responses page)) (fun items => JSON_reply 200 (listed items nextCursor))).

Definition on_tenant (k : Tenant -> Handler) : Handler := stored (resolveTenant tenants) k.

Definition Tenants_GetByCode : Handler := on_tenant (fun tenant =>
  stored (up (deleteBlockedReason (ten_ID tenant))) (fun reason => JSON_reply 200 (NewTenantResponse tenant reason))).

Definition Tenants_Update : Handler := on_tenant (fun tenant =>
  bound (fun req : UpdateTenantRequest =>
    let errors := new_name_errors (utr_Name req) in
    if negb (bool_decide (errors = [])) then validation_failed errors
    else
      let! now := up (Now db_runtime) in
      stored (up (TenantStore.Update tenants (with_tenant_request req now tenant))) (fun tenant =>
        JSON_reply 200 (NewTenantResponse tenant "")))).

Definition Tenants_SoftDelete : Handler := on_tenant (fun tenant =>
  stored (up (deleteBlockedReason (ten_ID tenant))) (fun reason =>
    if negb (bool_decide (reason = "")) then WriteError 409 "CONFLICT" reason
    else stored (up (TenantStore.SoftDelete tenants (ten_ID tenant))) (fun _ => NoContent 204))).

(** *** Workspaces *)

Definition system_workspace_protected : Handler :=
  WriteError 409 "SYSTEM_WORKSPACE_PROTECTED" "system workspace is protected and cannot be modified from workspace management".

Definition Workspaces_Create : Handler := on_tenant (fun tenant =>
  bound (fun req : CreateWorkspaceRequest =>
    let errors := code_errors (cwr_Code req) ++ name_errors (cwr_Name req) in
    if negb (bool_decide (errors = [])) then validation_failed errors
    else
      let! now := up (Now db_runtime) in
      let! logical := up (NewV7 db_runtime) in
      let! prod := up (NewV7 db_runtime) in
      let! test := up (NewV7 db_runtime) in
      let fresh id env :=
        fresh_workspace id logical (ten_ID tenant) (cwr_Code req) (cwr_Name req) env false (cwr_DefaultLocale req) now in
      stored (up (hosted (CreateLogicalPair (fresh prod EnvironmentProd) (fresh test EnvironmentTest)))) (fun '(prod, _) =>
        JSON_reply 201 (NewWorkspaceResponse prod)))).

Definition Workspaces_List : Handler := on_tenant (fun tenant =>
  let! c := conn in
  stored (up (hosted (ListByTenant ilike (ten_ID tenant) (requestEnvironment c) (ParseListOptions c))))
    (fun '(page, nextCursor) => JSON_reply 200 (listed (NewWorkspaceResponse <$> page) nextCursor))).

Definition Workspaces_Get : Handler := stored (resolveWorkspace tenants workspaces) (fun ws =>
  JSON_reply 200 (NewWorkspaceResponse ws)).

(** The workspace with the fields of its environment a request sets, and
    whether it sets any. *)
Definition environment_fields (environment : Environment) (req : UpdateWorkspaceRequest) (ws : Workspace)
  : FieldError + (Workspace * bool) :=
  let active := default (ws_IsActive ws) (uwr_IsActive req) in
  let tracking := default (ws_OpenTrackingEnabled ws) (uwr_OpenTrackingEnabled req) in
  let locale := match uwr_DefaultLocale req with Some l => Some l | None => ws_DefaultLocale ws end in
  let changed := present (uwr_IsActive req) || present (uwr_OpenTrackingEnabled req) || present (uwr_DefaultLocale req) in
  let set mode addresses := with_environment_fields active tracking locale mode addresses ws in
  if present (uwr_TestRecipientMode req) || present (uwr_TestRecipientAddresses req) then
    if negb (bool_decide (environment = EnvironmentTest))
    then inl (mkFieldError "test_recipient_mode" "is only supported in the test environment")
    else
      let mode := match uwr_TestRecipientMode req with
                  | Some m => to_TestRecipientMode (TrimSpace m)
                  | None => ws_TestRecipientMode ws
                  end in
      if present (uwr_TestRecipientMode req) && negb (TestRecipientMode_Valid mode)
      then inl (mkFieldError "test_recipient_mode" "must be replace or append")
      else match uwr_TestRecipientAddresses req with
           | None => inr (set mode (ws_TestRecipientAddresses ws), true)
           | Some given =>
               let addresses := NormalizeRecipientAddresses given in
               match ValidateRecipientAddresses addresses with
               | Err _ => inl (mkFieldError "test_recipient_addresses" "must contain valid email addresses")
               | Ok _ => inr (set mode addresses, true)
               end
           end
  else inr (set (ws_TestRecipientMode ws) (ws_TestRecipientAddresses ws), changed).

(** Renaming the logical workspace, in both environments. *)
Definition rename_shared (tenant : Tenant) (ws : Workspace) (code name : string) (k : Workspace -> Handler) : Handler :=
  if bool_decide (code = ws_Code ws) && bool_decide (name = ws_Name ws) then k ws
  else stored (up (hosted (UpdateShared (ten_ID tenant) (ws_Code ws) code name))) (fun _ => k (renamed code name ws)).

Definition refreshed (tenant : Tenant) (environment : Environment) (ws : Workspace) : Handler :=
  stored (up (WorkspaceStore.GetByTenantAndCode workspaces (ten_ID tenant) (ws_Code ws) environment)) (fun ws =>
    JSON_reply 200 (NewWorkspaceResponse ws)).

Definition update_environment (tenant : Tenant) (environment : Environment) (req : UpdateWorkspaceRequest) (ws : Workspace)
  : Handler :=
  match environment_fields environment req ws with
  | inl e => validation_failed [e]
  | inr (ws, false) => refreshed tenant environment ws
  | inr (ws, true) =>
      let! now := up (Now db_runtime) in
      stored (up (hosted (WorkspaceRepo_Update ws))) (fun _ => refreshed tenant environment ws)
  end.

Definition Workspaces_Update : Handler := on_tenant (fun tenant =>
  let! c := conn in
  let environment := requestEnvironment c in
  stored (up (WorkspaceStore.GetByTenantAndCode workspaces (ten_ID tenant) (Param "workspace_code" c) environment)) (fun ws =>
    if ws_IsSystem ws then system_workspace_protected
    else bound (fun req : UpdateWorkspaceRequest =>
      let errors := if bool_decide (Param "environment" c = "") then environment_only_errors req else [] in
      let code_wrong := match uwr_Code req with Some code => code_errors code | None => [] end in
      let name_wrong := new_name_errors (uwr_Name req) in
      if negb (bool_decide (errors = [])) then validation_failed errors
      else if negb (bool_decide (code_wrong = [])) then validation_failed code_wrong
      else if negb (bool_decide (name_wrong = [])) then validation_failed name_wrong
      else rename_shared tenant ws (default (ws_Code ws) (uwr_Code req)) (default (ws_Name ws) (uwr_Name req))
             (update_environment tenant environment req)))).

Definition Workspaces_SoftDelete : Handler := on_tenant (fun tenant =>
  let! c := conn in
  stored (up (WorkspaceStore.GetByTenantAndCode workspaces (ten_ID tenant) (Param "workspace_code" c) (requestEnvironment c)))
    (fun ws =>
      if ws_IsSystem ws then system_workspace_protected
      else stored (up (hosted (SoftDeleteLogical (ten_ID tenant) (ws_Code ws)))) (fun _ => NoContent 204))).

(** [emailStore.PurgeWorkspaceRuntime], over the tables of the mail. *)
Context (PurgeWorkspaceRuntime : uuid -> M Flt unit).

Definition Workspaces_ResetRuntime : Handler :=
  let! c := conn in
  if negb (bool_decide (requestEnvironment c = EnvironmentTest))
  then WriteError 409 "TEST_ENVIRONMENT_REQUIRED" "runtime reset is only available for the test environment"
  else on_tenant (fun tenant =>
    stored (up (WorkspaceStore.GetByTenantAndCode workspaces (ten_ID tenant) (Param "workspace_code" c) EnvironmentTest))
      (fun ws => stored (up (PurgeWorkspaceRuntime (ws_ID ws))) (fun _ => NoContent 204))).

(** *** Policies *)

Definition Policies_Get : Handler := stored (resolveWorkspace tenants workspaces) (fun ws =>
  stored (up (resolveSystemWorkspace workspaces ws)) (fun policyWorkspace =>
    JSON_reply 200 (newWorkspacePolicyResponse policyWorkspace))).

Definition Policies_Update : Handler := stored (resolveWorkspace tenants workspaces) (fun ws =>
  if negb (ws_IsSystem ws) then WriteError 404 "NOT_FOUND" "resource not found"
  else bound (fun req : UpdateWorkspacePolicyRequest =>
    let! now := up (Now db_runtime) in
    let ws := with_policies req now ws in
    stored (up (hosted (WorkspaceRepo_Update ws))) (fun _ => JSON_reply 200 (newWorkspacePolicyResponse (Some ws))))).

(** *** API keys *)

Context (keyService : APIKeyService Flt).

Definition Keys_Create : Handler := stored (resolveWorkspace tenants workspaces) (fun ws =>
  bound (fun req : CreateAPIKeyRequest =>
    let errors := key_name_errors (ckr_Name req) in
    if negb (bool_decide (errors = [])) then validation_failed errors
    else
      let! v := values in
      match v_member v with
      | None => Unauthorized "authentication required"
      | Some member =>
          stored (up (APIKey_Generate keyService (ws_ID ws) (ws_Environment ws) (ckr_Name req) (mem_ID member)))
            (fun '(fullKey, key) => JSON_reply 201 (NewAPIKeyCreatedResponse key fullKey))
      end)).

Definition Keys_List : Handler := stored (resolveWorkspace tenants workspaces) (fun ws =>
  let! c := conn in
  stored (up (APIKey_ListByWorkspace keyService (ws_ID ws) (ParseListOptions c))) (fun page =>
    JSON_reply 200 (NewAPIKeyListResponse page))).

Definition Keys_Revoke : Handler := stored (resolveWorkspace tenants workspaces) (fun ws =>
  path_id "id" "invalid API key ID" (fun keyID =>
    stored (up (APIKey_Revoke keyService (ws_ID ws) keyID)) (fun _ => NoContent 204))).

(** ** The routes ([routes_management.go]) *)

Definition tenant_routes : list (Route Flt) :=
  [mkRoute "POST" "/tenants" RoleSuperadmin Tenants_Create;
   mkRoute "GET" "/tenants" RoleSuperadmin Tenants_List;
   mkRoute "GET" "/tenants/:tenant_code" RoleTenantAdmin Tenants_GetByCode;
   mkRoute "PUT" "/tenants/:tenant_code" RoleTenantAdmin Tenants_Update;
   mkRoute "DELETE" "/tenants/:tenant_code" RoleSuperadmin Tenants_SoftDelete].

Definition workspace_routes : list (Route Flt) :=
  [mkRoute "POST" "/tenants/:tenant_code/workspaces" RoleTenantAdmin Workspaces_Create;
   mkRoute "GET" "/tenants/:tenant_code/workspaces" RoleTenantAdmin Workspaces_List;
   mkRoute "GET" "/tenants/:tenant_code/workspaces/:workspace_code" RoleWorkspaceViewer Workspaces_Get;
   mkRoute "PUT" "/tenants/:tenant_code/workspaces/:workspace_code" RoleWorkspaceAdmin Workspaces_Update;
   mkRoute "DELETE" "/tenants/:tenant_code/workspaces/:workspace_code" RoleTenantAdmin Workspaces_SoftDelete;
   mkRoute "GET" "/environments/:environment/tenants/:tenant_code/workspaces" RoleTenantAdmin Workspaces_List;
   mkRoute "GET" "/environments/:environment/tenants/:tenant_code/workspaces/:workspace_code" RoleWorkspaceViewer
     Workspaces_Get;
   mkRoute "PUT" "/environments/:environment/tenants/:tenant_code/workspaces/:workspace_code" RoleWorkspaceAdmin
     Workspaces_Update;
   mkRoute "POST" "/environments/:environment/tenants/:tenant_code/workspaces/:workspace_code/runtime/reset"
     RoleWorkspaceAdmin Workspaces_ResetRuntime].

(** Registered with and without an environment in the path. *)
Definition policy_routes (group : string) : list (Route Flt) :=
  [mkRoute "GET" (group +:+ "/policies") RoleWorkspaceViewer Policies_Get;
   mkRoute "PUT" (group +:+ "/policies") RoleTenantAdmin Policies_Update].
Definition key_routes (group : string) : list (Route Flt) :=
  [mkRoute "POST" (group +:+ "/api-keys") RoleWorkspaceAdmin Keys_Create;
   mkRoute "GET" (group +:+ "/api-keys") RoleWorkspaceAdmin Keys_List;
   mkRoute "DELETE" (group +:+ "/api-keys/:id") RoleWorkspaceAdmin Keys_Revoke].

Definition control_routes : list (Route Flt) :=
  let ws := "/tenants/:tenant_code/workspaces/:workspace_code" in
  let envWS := "/environments/:environment/tenants/:tenant_code/workspaces/:workspace_code" in
  tenant_routes ++ workspace_routes ++ policy_routes ws ++ policy_routes envWS ++ key_routes ws ++ key_routes envWS.
End Handlers.

(** The service of keys over the tables of the fleet. *)
Definition FleetKeys `{GoStd} `{Codec} `{Sha256} (pepper : string) : APIKeyService Flt :=
  mkAPIKeyService HostedKeys pepper db_runtime rand_Read.
