(* ===== verification/TenantSafety.v ===== *)
(** * What a request to the tenant, workspace, policy and key routes may change

    Whatever a request asks and whichever statement fails, the rows that change
    are those of the tenant or workspace its path names, the caller has the
    authority the change needs, and what a row stands for - its code, its tenant
    and environment, its workspace and hash - stays. *)
From stdpp Require Import base gmap strings list.
From Stdlib Require Import ZArith NArith Ascii String Lia.
From S2P Require Import Prelude GoMonad Domain Ports Token Config Http Suppression Postgres Database Directory.
From S2P Require Import Auth Members Roles Gates Surface Authority Inheritance Hosted Templates Fleet TemplateHandlers TenantHandlers.

(** ** Tables of which only some rows change *)

Section OnlyRows.
Context {A O : Type} (owner : A -> O).

Record only_rows (S : uuid -> Prop) (New : O -> Prop) (m m' : gmap uuid A) : Prop := {
  or_outside id : ~ S id -> m' !! id = m !! id;
  or_kept id a : m !! id = Some a -> exists a', m' !! id = Some a' /\ owner a' = owner a;
  or_added id a : m !! id = None -> m' !! id = Some a -> New (owner a);
}.

#[export] Instance only_rows_preorder S New : PreOrder (only_rows S New).
Proof.
  split; [intros m; split; [done|by eauto|congruence]|]. intros m1 m2 m3 [O1 K1 N1] [O2 K2 N2]. split.
  - intros id Hid. by rewrite O2, O1.
  - intros id a Ha. destruct (K1 _ _ Ha) as (b & Hb & Eb), (K2 _ _ Hb) as (c & Hc & Ec). exists c. split; congruence.
  - intros id a Hn Ha. destruct (m2 !! id) as [b|] eqn:Eb; [|by eapply N2].
    destruct (K2 _ _ Eb) as (c & Hc & Ec). rewrite Ha in Hc. injection Hc as ->. rewrite Ec. by eapply N1.
Qed.

Lemma only_insert_new (S : uuid -> Prop) (New : O -> Prop) m id a : m !! id = None -> S id -> New (owner a) -> only_rows S New m (<[id := a]> m).
Proof.
  intros Hid HS Hn. split.
  - intros j Hj. rewrite lookup_insert_ne; [done|]. by intros ->.
  - intros j b Hb. exists b. rewrite lookup_insert_ne; [done|]. intros ->. congruence.
  - intros j b Hj [ [-> <-]|[_ Hb] ]%lookup_insert_Some; [done|congruence].
Qed.

Lemma only_insert_old (S : uuid -> Prop) (New : O -> Prop) m id a a' : m !! id = Some a -> S id -> owner a' = owner a ->
  only_rows S New m (<[id := a']> m).
Proof.
  intros Hid HS Ho. split.
  - intros j Hj. rewrite lookup_insert_ne; [done|]. by intros ->.
  - intros j b Hb. destruct (decide (id = j)) as [<-|Hne]; [|exists b; by rewrite lookup_insert_ne].
    exists a'. rewrite lookup_insert_eq. split; congruence.
  - intros j b Hj [ [-> <-]|[_ Hb] ]%lookup_insert_Some; congruence.
Qed.

Lemma only_where (S : uuid -> Prop) (New : O -> Prop) (p : A -> bool) f m :
  (forall id a, m !! id = Some a -> p a = true -> S id /\ owner (f a) = owner a) ->
  only_rows S New m ((fun a => if p a then f a else a) <$> m).
Proof.
  intros Hp. split.
  - intros id Hid. rewrite lookup_fmap. destruct (m !! id) as [a|] eqn:Ea; [|done]. simpl.
    destruct (p a) eqn:Ep; [|done]. by destruct (Hp _ _ Ea Ep).
  - intros id a Ha. rewrite lookup_fmap, Ha. simpl. eexists. split; [done|].
    destruct (p a) eqn:Ep; [by destruct (Hp _ _ Ha Ep)|done].
  - intros id a Hn. by rewrite lookup_fmap, Hn.
Qed.
End OnlyRows.

(** The rows a request may reach, and what a new one must stand for. *)
Record Reach := mkReach {
  re_tenants : uuid -> Prop;
  re_workspaces : uuid -> Prop;
  re_new_workspace : uuid * Environment * bool * option gotime -> Prop;
  re_keys : uuid -> Prop;
  re_new_key : uuid * string -> Prop;
  re_deletes : bool;
}.

(** What a row stands for; a deletion is kept apart. *)
Definition unless {A} (b : bool) (o : option A) : option A := if b then None else o.
Definition tenant_owner (d : bool) (t : Tenant) : string * option gotime := (ten_Code t, unless d (ten_DeletedAt t)).
Definition workspace_owner (d : bool) (w : Workspace) : uuid * Environment * bool * option gotime :=
  (ws_TenantID w, ws_Environment w, ws_IsSystem w, unless d (ws_DeletedAt w)).
Definition key_owner (k : APIKey) : uuid * string := (key_WorkspaceID k, key_KeyHash k).

Record confined (r : Reach) (t t' : Tables) : Prop := {
  cf_tenants : only_rows (tenant_owner (re_deletes r)) (re_tenants r) (fun _ => True) (tb_tenants t) (tb_tenants t');
  cf_workspaces : only_rows (workspace_owner (re_deletes r)) (re_workspaces r) (re_new_workspace r) (tb_workspaces t) (tb_workspaces t');
  cf_keys : only_rows key_owner (re_keys r) (re_new_key r) (tb_keys t) (tb_keys t');
  cf_signing id : ~ re_workspaces r id -> tb_signing t' !! id = tb_signing t !! id;
  cf_members : tb_members t' = tb_members t;
  cf_roles : tb_roles t' = tb_roles t;
}.

#[export] Instance confined_preorder r : PreOrder (confined r).
Proof.
  split; [intros t; by split|]. intros t1 t2 t3 [? ? ? Hs1 ? ?] [? ? ? Hs2 ? ?]. split; try (by etrans); try congruence.
  intros id Hid. by rewrite Hs2, Hs1.
Qed.

(** A change of the directory alone. *)
Definition on_directory (R : Tables -> Tables -> Prop) (t t' : Fleet) : Prop :=
  t' = set_fleet_dir (fl_dir t') t /\ R (fl_dir t) (fl_dir t').
#[export] Instance on_directory_preorder R `{!PreOrder R} : PreOrder (on_directory R).
Proof.
  split; [intros []; by split|]. intros t1 t2 t3 [E1 H1] [E2 H2]. split; [|by etrans].
  rewrite E2 at 1. rewrite E1. by destruct t1.
Qed.

Definition nobody (_ : uuid) : Prop := False.
Definition one_tenant (deletes : bool) (id : uuid) : Reach :=
  mkReach (fun i => i = id) nobody (fun _ => False) nobody (fun _ => False) deletes.
(** A new tenant, with its system workspaces. *)
Definition fresh_tenant (t : Tables) : Reach :=
  mkReach (fun i => tb_tenants t !! i = None) (fun i => tb_workspaces t !! i = None)
    (fun o => tb_tenants t !! o.1.1.1 = None /\ o.1.2 = true) nobody (fun _ => False) false.
Definition fresh_workspaces (t : Tables) (tenantID : uuid) : Reach :=
  mkReach nobody (fun i => tb_workspaces t !! i = None) (fun o => o.1.1.1 = tenantID /\ o.1.2 = false) nobody (fun _ => False) false.
(** The rows of a logical workspace, in both environments. *)
Definition logical_workspace (deletes : bool) (t : Tables) (tenantID : uuid) (code : string) : Reach :=
  mkReach nobody (fun i => exists w, tb_workspaces t !! i = Some w /\ at_code tenantID code w = true) (fun _ => False)
    nobody (fun _ => False) deletes.
Definition one_workspace (id : uuid) : Reach := mkReach nobody (fun i => i = id) (fun _ => False) nobody (fun _ => False) false.
Definition keys_within (t : Tables) (workspaceID : uuid) : Reach :=
  mkReach nobody nobody (fun _ => False)
    (fun i => match tb_keys t !! i with Some k => key_WorkspaceID k = workspaceID | None => True end)
    (fun o => o.1 = workspaceID) false.

(** ** The repositories *)

Section Repos.
Context `{GoStd} `{Codec} (r : Reach).
#[local] Abbreviation conf := (relates_at db_tables (confined r)).

Lemma conf_tenants f t : only_rows (tenant_owner (re_deletes r)) (re_tenants r) (fun _ => True) (tb_tenants t) (f (tb_tenants t)) ->
  confined r t (set_tenants f t).
Proof. intros Hr. by split. Qed.
Lemma conf_workspaces f t : only_rows (workspace_owner (re_deletes r)) (re_workspaces r) (re_new_workspace r) (tb_workspaces t) (f (tb_workspaces t)) ->
  confined r t (set_workspaces f t).
Proof. intros Hr. by split. Qed.
Lemma conf_keys f t : only_rows key_owner (re_keys r) (re_new_key r) (tb_keys t) (f (tb_keys t)) -> confined r t (set_keys f t).
Proof. intros Hr. by split. Qed.

Lemma TenantCreate_confined t s : (tb_tenants (db_tables s) !! ten_ID t = None -> re_tenants r (ten_ID t)) -> conf (TenantRepo_Create t) s.
Proof.
  intros Hr. related relates_at_write. intros now a t' E. destruct (violation _) eqn:Ev; [done|]. injection E as _ <-.
  apply violation_None in Ev. rewrite !Forall_cons in Ev. destruct Ev as (_ & Hn & _). apply bool_decide_eq_true in Hn.
  apply conf_tenants, only_insert_new; auto.
Qed.

Lemma live_tenant_row id t x : live_tenant id t = Some x -> tb_tenants t !! id = Some x.
Proof. unfold live_tenant. repeat case_match; congruence. Qed.
Lemma live_workspace_row id t x : live_workspace id t = Some x -> tb_workspaces t !! id = Some x.
Proof. unfold live_workspace. repeat case_match; congruence. Qed.

Lemma TenantUpdate_confined t s : re_tenants r (ten_ID t) -> conf (TenantRepo_Update t) s.
Proof.
  intros Hr. related relates_at_exec. intros now. destruct (live_tenant _ _) as [x|] eqn:Ex; [|done]. simpl.
  apply live_tenant_row in Ex. by eapply conf_tenants, only_insert_old.
Qed.

Lemma TenantSoftDelete_confined id s : re_tenants r id -> re_deletes r = true -> conf (TenantRepo_SoftDelete id) s.
Proof.
  intros Hr Hd. related relates_at_update. intros now x Ex%live_tenant_row. eapply conf_tenants, only_insert_old; [done..|].
  unfold tenant_owner. by rewrite Hd.
Qed.

(** [insertWorkspace] adds a row under an identifier no row has. *)
Lemma insertWorkspace_confined ws s : re_deletes r = false ->
  (tb_workspaces (db_tables s) !! ws_ID ws = None -> re_workspaces r (ws_ID ws)) ->
  (forall now, re_new_workspace r (workspace_owner false (workspace_row now ws))) -> conf (insertWorkspace ws) s.
Proof.
  intros Hd Hr Hn. related relates_at_bind; [|intros key s1 E1].
  { related relates_preserves. intros x. unfold wrap_err, rand_Read. by destruct (db_entropy x). }
  assert (Es : db_tables s1 = db_tables s).
  { pose proof (rand_frame (T:=Tables) s) as Hf. unfold wrap_err in E1. destruct (rand_Read s) as [ [?|?] ?]; by simplify_eq/=. }
  rewrite <- Es in Hr. related relates_at_write. intros now a t' E. unfold insert_workspace in E. destruct (violation _) eqn:Ev; [done|].
  injection E as _ <-. apply violation_None in Ev. rewrite !Forall_cons in Ev. destruct Ev as (_ & _ & Hid & _).
  apply bool_decide_eq_true in Hid. simpl in Hid. specialize (Hr Hid).
  assert (Hrows : only_rows (workspace_owner (re_deletes r)) (re_workspaces r) (re_new_workspace r) (tb_workspaces (db_tables s1))
                    (<[ws_ID ws := workspace_row now ws]> (tb_workspaces (db_tables s1)))).
  { apply only_insert_new; [done..|]. rewrite Hd. apply Hn. }
  split; simpl; [done|exact Hrows|done| |done|done].
  intros id Hne. rewrite lookup_insert_ne; [done|]. by intros <-.
Qed.

Lemma insertWorkspace_lookup ws s ws' s' id : insertWorkspace ws s = (Ok ws', s') ->
  tb_workspaces (db_tables s') !! id = None -> tb_workspaces (db_tables s) !! id = None.
Proof.
  unfold insertWorkspace, bind. intros E Hn.
  destruct (wrap_err _ rand_Read s) as [ [key|e] s1] eqn:E1; [|done].
  assert (Es : db_tables s1 = db_tables s).
  { pose proof (rand_frame (T:=Tables) s) as Hf. unfold wrap_err in E1. destruct (rand_Read s) as [ [?|?] ?]; by simplify_eq/=. }
  unfold write_stmt in E. apply exec_Ok in E. unfold insert_workspace in E. cbv zeta in E.
  destruct (violation _); [done|]. injection E as _ E. rewrite <- E in Hn. simpl in Hn.
  apply lookup_insert_None in Hn as [Hn _]. by rewrite <- Es.
Qed.

Lemma CreateLogicalPair_confined a b s : re_deletes r = false ->
  (forall id, tb_workspaces (db_tables s) !! id = None -> re_workspaces r id) ->
  (forall now, re_new_workspace r (workspace_owner false (workspace_row now a)) /\
               re_new_workspace r (workspace_owner false (workspace_row now b))) -> conf (CreateLogicalPair a b) s.
Proof.
  intros Hd Hr Hn. related relates_at_in_tx. intros s1 Es. rewrite <- Es in Hr.
  related relates_at_bind; [apply insertWorkspace_confined; [done|auto|intros; apply Hn]|]. intros a' s2 E2.
  related relates_at_bind; [|intros; by related relates_preserves]. apply insertWorkspace_confined; [done| |intros; apply Hn].
  intros Hid. apply Hr. by eapply insertWorkspace_lookup.
Qed.

Lemma UpdateShared_confined tenantID code code' name s :
  (forall id w, tb_workspaces (db_tables s) !! id = Some w -> at_code tenantID code w = true -> re_workspaces r id) ->
  conf (UpdateShared tenantID code code' name) s.
Proof.
  intros Hr. related relates_at_exec. intros now. cbv zeta. case_bool_decide; [done|]. destruct (violation _); [done|]. simpl.
  apply conf_workspaces, only_where. intros id w Hw Hp. split; [by eapply Hr|done].
Qed.

Lemma SoftDeleteLogical_confined tenantID code s : re_deletes r = true ->
  (forall id w, tb_workspaces (db_tables s) !! id = Some w -> at_code tenantID code w = true -> re_workspaces r id) ->
  conf (SoftDeleteLogical tenantID code) s.
Proof.
  intros Hd Hr. related relates_at_exec. intros now. cbv zeta. case_bool_decide; [done|]. simpl.
  apply conf_workspaces, only_where. intros id w Hw Hp. split; [by eapply Hr|]. unfold workspace_owner. by rewrite Hd.
Qed.

Lemma WorkspaceUpdate_confined ws s : re_workspaces r (ws_ID ws) -> conf (WorkspaceRepo_Update ws) s.
Proof.
  intros Hr. related relates_at_update. intros now x Ex%live_workspace_row. by eapply conf_workspaces, only_insert_old.
Qed.

Lemma KeyCreate_confined k s : (tb_keys (db_tables s) !! key_ID k = None -> re_keys r (key_ID k)) -> re_new_key r (key_owner k) ->
  conf (APIKeyRepo_Create k) s.
Proof.
  intros Hr Hn. related relates_at_write. intros now a t' E. destruct (violation _) eqn:Ev; [done|]. injection E as _ <-.
  apply violation_None in Ev. rewrite !Forall_cons in Ev. destruct Ev as (Hid & _). apply bool_decide_eq_true in Hid.
  apply conf_keys, only_insert_new; auto.
Qed.

Lemma KeyRevoke_confined id s : re_keys r id -> conf (APIKeyRepo_Revoke id) s.
Proof.
  intros Hr. related relates_at_update. intros now x Ex. unfold live_key in Ex.
  destruct (tb_keys _ !! id) as [k|] eqn:Ek; [|done]. destruct (key_live k); simplify_eq. by eapply conf_keys, only_insert_old.
Qed.
End Repos.

(** ** The handlers *)

Definition reaches (r : Reach) : Fleet -> Fleet -> Prop := on_directory (confined r).

Section Handlers.
Context `{GoStd} `{Codec} `{Sha256} `{Parsers} (ilike : string -> string -> bool).
Context `{Binder CreateTenantRequest} `{Binder UpdateTenantRequest} `{Binder CreateWorkspaceRequest}.
Context `{Binder UpdateWorkspaceRequest} `{Binder UpdateWorkspacePolicyRequest} `{Binder CreateAPIKeyRequest}.
Context (rounds : nat) (PurgeWorkspaceRuntime : uuid -> M Flt unit) (pepper : string).
Hypothesis purge_frame : forall id, preserves db_tables (PurgeWorkspaceRuntime id).
#[local] Abbreviation Handler := (HandlerFunc Flt).
#[local] Abbreviation adapters := (Some Adapters_ListByWorkspace).
#[local] Abbreviation moves_at r := (relates_at (on_world db_tables) (reaches r)).

Lemma hosted_reaches {A} r (m : M Dir A) s :
  (forall u, db_tables u = fl_dir (db_tables s) -> relates_at db_tables (confined r) m u) ->
  relates_at db_tables (reaches r) (hosted m) s.
Proof.
  intros Hm. unfold relates_at, hosted, focus. set (u := mkDB (directory (db_tables s)) _ _ _ _).
  specialize (Hm u eq_refl). unfold relates_at in Hm. destruct (m u) as [a u']. simpl in *. split; [done|exact Hm].
Qed.

Lemma stored_hosted {A} r (m : M Dir A) (k : A -> Handler) (x : Flt * Conn) :
  (forall u, db_tables u = fl_dir (db_tables x.1) -> relates_at db_tables (confined r) m u) ->
  (forall a x', up (hosted m) x = (Ok a, x') -> moves_at r (k a) x') -> moves_at r (stored (up (hosted m)) k) x.
Proof. intros Hm Hk. related relates_at_stored; [|done]. apply relates_at_up. by apply hosted_reaches. Qed.

(** Steps that leave the tables alone. *)
Lemma read_step {A B} r (m : M Flt A) (k : A -> M (Flt * Conn) B) (x : Flt * Conn) : preserves db_tables m ->
  (forall a x', db_tables x'.1 = db_tables x.1 -> moves_at r (k a) x') -> moves_at r (bind (up m) k) x.
Proof.
  intros Hm Hk. related relates_at_bind; [by related relates_preserves; apply preserves_up|]. intros a x' E. apply Hk.
  pose proof (preserves_up (S:=Conn) db_tables m Hm x) as Hf. by rewrite E in Hf.
Qed.
Lemma bound_step {A} `{Binder A} r (k : A -> Handler) x : (forall req, moves_at r (k req) x) -> moves_at r (bound k) x.
Proof.
  intros Hk. related relates_at_bind; [related relates_preserves; apply conn_frame|]. intros c x' [= <- <-].
  destruct (Bind x.2) as [req|e]; [apply Hk|]. related relates_preserves. apply WriteError_frame.
Qed.
Lemma answered {A} r (h : M (Flt * Conn) A) x : preserves (on_world db_tables) h -> moves_at r h x.
Proof. intros Hh. by related relates_preserves. Qed.
#[local] Hint Resolve answered write_frame WriteErrorDetails_frame WriteError_frame : senda.

Lemma checked {A} r (errors : list A) (refuse k : Handler) x : preserves (on_world db_tables) refuse -> moves_at r k x ->
  moves_at r (if negb (bool_decide (errors = [])) then refuse else k) x.
Proof. intros Hr Hk. destruct (negb _); [by apply answered|done]. Qed.

(** What a handler does once the tenant its path names is found. *)
Definition tenant_effect (R : Tenant -> Fleet -> Fleet -> Prop) (h : Handler) : Prop :=
  forall s c, let t' := db_tables (h (s, c)).2.1 in
    t' = db_tables s \/
    exists ten, tenant_at (fl_dir (db_tables s)) (Param "tenant_code" c) = Ok ten /\ R ten (db_tables s) t'.

Lemma resolveTenant_at s c ten x : resolveTenant (HostedTenants ilike) (s, c) = (Ok ten, x) ->
  tenant_at (fl_dir (db_tables s)) (Param "tenant_code" c) = Ok ten /\ x.2 = c /\ db_tables x.1 = db_tables s.
Proof.
  unfold resolveTenant, bind, conn, get_state, up. simpl. intros E.
  pose proof (hosted_directory (T:=Fleet) ilike) as [Ht _ _ _ _ _].
  destruct (hosted (TenantRepo_GetByCode _) s) as [r s1] eqn:E1. injection E as -> <-.
  apply (Ht (Param "tenant_code" c)) in E1 as [Es E1]. auto.
Qed.

Lemma resolveTenant_frame : preserves (on_world db_tables) (resolveTenant (HostedTenants (T:=Fleet) ilike)).
Proof. unfold resolveTenant. apply preserves_bind; [apply conn_frame|]. intros c. apply preserves_up, hosted_frame, query_frame. Qed.

Lemma on_tenant_effect (R : Tenant -> Fleet -> Fleet -> Prop) (k : Tenant -> Handler) :
  (forall ten x, R ten (db_tables x.1) (db_tables (k ten x).2.1)) -> tenant_effect R (on_tenant ilike k).
Proof.
  intros Hk s c. cbv zeta. unfold on_tenant, stored, try. pose proof (resolveTenant_frame (s, c)) as Hf. unfold on_world in Hf. simpl in Hf.
  destruct (resolveTenant _ (s, c)) as [ [ten|e] x1] eqn:E; simpl in Hf.
  - right. exists ten. apply resolveTenant_at in E as (Et & _ & Es). split; [done|]. rewrite <- Es. apply Hk.
  - left. rewrite <- Hf. exact (mapStoreError_frame db_tables e x1).
Qed.

(** ... and once the workspace is. *)
Lemma at_code_row t tid code env ws : workspace_at t tid code env = Ok ws ->
  (exists id, tb_workspaces t !! id = Some ws) /\ at_code tid (ws_Code ws) ws = true /\ ws_TenantID ws = tid.
Proof.
  intros (Hrow & Hp)%first_rows. split; [done|]. apply andb_true_iff in Hp as [Hp _]. unfold at_code in *.
  rewrite !andb_true_iff, !bool_decide_eq_true in Hp. destruct Hp as [ [? ?] ?]. by rewrite !andb_true_iff, !bool_decide_eq_true.
Qed.

Lemma on_workspace_effect (R : Workspace -> Fleet -> Fleet -> Prop) (k : Tenant -> Conn -> Workspace -> Handler) :
  (forall ten c ws x, ws_TenantID ws = ten_ID ten -> at_code (ten_ID ten) (ws_Code ws) ws = true ->
     (exists id, tb_workspaces (fl_dir (db_tables x.1)) !! id = Some ws) -> R ws (db_tables x.1) (db_tables (k ten c ws x).2.1)) ->
  workspace_effect R (on_tenant ilike (fun ten =>
    let! c := conn in
    stored (up (WorkspaceStore.GetByTenantAndCode (HostedWorkspaces ilike) (ten_ID ten) (Param "workspace_code" c)
                  (requestEnvironment c))) (k ten c))).
Proof.
  intros Hk s c He. cbv zeta. destruct (on_tenant _ _ (s, c)) as [res x'] eqn:Eh. cbn [snd]. unfold on_tenant, stored at 1, try in Eh.
  pose proof (resolveTenant_frame (s, c)) as Hf. unfold on_world in Hf. simpl in Hf.
  destruct (resolveTenant _ (s, c)) as [ [ten|e] x1] eqn:E; simpl in Hf.
  2: { left. rewrite <- Hf. pose proof (mapStoreError_frame db_tables e x1) as Hm. by rewrite Eh in Hm. }
  apply resolveTenant_at in E as (Et & Ec & Es). unfold bind, conn, get_state, stored, try in Eh. rewrite Ec in Eh.
  destruct x1 as [s1 c1]. simpl in Ec, Es. subst c1. cbn [up] in Eh. rewrite He in Eh.
  destruct (WorkspaceStore.GetByTenantAndCode _ _ _ _ s1) as [r s2] eqn:E2.
  pose proof (hosted_directory (T:=Fleet) ilike) as [_ Hw _ _ _ _].
  apply (Hw (ten_ID ten) (Param "workspace_code" c) (path_environment c)) in E2 as [Es2 E2].
  destruct r as [ws|e].
  2: { left. pose proof (mapStoreError_frame db_tables e (s2, c)) as Hm. rewrite Eh in Hm. unfold on_world in Hm. simpl in Hm. congruence. }
  specialize (E2 ws eq_refl). right. exists ws. change (directory (db_tables s1)) with (fl_dir (db_tables s1)) in E2.
  split; [exists ten; split; [done|]; simpl; by rewrite <- Es|].
  apply at_code_row in E2 as (Hrow & Hcode & Ht). specialize (Hk ten c ws (s2, c) Ht Hcode). rewrite Eh in Hk. simpl in Hk.
  rewrite Es2, Es in *. by apply Hk.
Qed.

(** *** Tenants *)

Lemma adapters_frame id opts : preserves db_tables (Adapters_ListByWorkspace id opts).
Proof. unfold Adapters_ListByWorkspace. destruct (ApplyPagination opts) as [ [? ?]|e]; [apply query_frame|apply preserves_fail]. Qed.

Lemma first_reason_frame {A} (l : list A) check : (forall a, preserves db_tables (check a)) -> preserves db_tables (first_reason l check).
Proof.
  intros Hc. induction l as [|a l IH]; simpl; [apply preserves_ret|]. apply preserves_bind; [done|].
  intros [reason|]; [apply preserves_ret|done].
Qed.

Lemma scan_adapters_frame fuel cursor ws : preserves db_tables (scan_adapters fuel Adapters_ListByWorkspace cursor ws).
Proof.
  revert cursor. induction fuel as [|fuel IH]; intros cursor; simpl; [apply preserves_fail|].
  apply preserves_bind; [apply adapters_frame|]. intros page. destruct (List.find is_SES _); [apply preserves_ret|].
  destruct (_ || _); [apply preserves_ret|apply IH].
Qed.

Lemma ListByTenant_frame tid env opts : preserves db_tables (ListByTenant ilike tid env opts).
Proof. unfold ListByTenant. destruct (ApplyPagination opts) as [ [? ?]|e]; [apply query_frame|apply preserves_fail]. Qed.

Lemma scan_workspaces_frame fuel check tid cursor env : (forall ws, preserves db_tables (check ws)) ->
  preserves db_tables (scan_workspaces ilike fuel check tid cursor env).
Proof.
  intros Hc. revert cursor. induction fuel as [|fuel IH]; intros cursor; simpl; [apply preserves_fail|].
  apply preserves_bind; [apply hosted_frame, ListByTenant_frame|]. intros [page next].
  apply preserves_bind; [by apply first_reason_frame|]. intros [reason|]; [apply preserves_ret|].
  case_bool_decide; [apply preserves_ret|apply IH].
Qed.

Lemma deleteBlockedReason_frame tid : preserves db_tables (deleteBlockedReason ilike adapters rounds tid).
Proof.
  apply preserves_bind; [|intros; apply preserves_ret]. apply first_reason_frame. intros env.
  apply scan_workspaces_frame. intros ws. apply scan_adapters_frame.
Qed.

Lemma tenant_responses_frame l : preserves db_tables (tenant_responses ilike adapters rounds l).
Proof.
  induction l as [|t l IH]; simpl; [apply preserves_ret|]. apply preserves_bind; [apply deleteBlockedReason_frame|].
  intros reason. apply preserves_bind; [done|intros; apply preserves_ret].
Qed.

Lemma Tenants_List_frame : preserves (on_world db_tables) (Tenants_List ilike adapters rounds).
Proof.
  apply preserves_bind; [apply conn_frame|]. intros c. apply stored_frame.
  - apply preserves_up, hosted_frame. unfold TenantRepo_List. destruct (ApplyPagination _) as [ [? ?]|e]; [apply query_frame|apply preserves_fail].
  - intros [page next]. apply stored_frame; [apply preserves_up, tenant_responses_frame|intros; apply write_frame].
Qed.

Lemma Tenants_Get_frame : preserves (on_world db_tables) (Tenants_GetByCode ilike adapters rounds).
Proof.
  apply stored_frame; [apply resolveTenant_frame|]. intros ten.
  apply stored_frame; [apply preserves_up, deleteBlockedReason_frame|intros; apply write_frame].
Qed.

Lemma Tenants_Create_reaches x : moves_at (fresh_tenant (fl_dir (db_tables x.1))) (Tenants_Create ilike) x.
Proof.
  apply bound_step. intros req. cbv zeta. apply checked; [apply WriteErrorDetails_frame|].
  apply read_step; [apply db_now_frame|]. intros now x1 E1. apply read_step; [apply db_id_frame|]. intros id x2 E2.
  rewrite <- E1, <- E2. apply stored_hosted.
  { intros u Eu. apply TenantCreate_confined. simpl. by rewrite Eu. }
  intros tenant x3 E3.
  assert (Hx3 : tb_tenants (fl_dir (db_tables x2.1)) !! id = None /\
                tb_workspaces (fl_dir (db_tables x3.1)) = tb_workspaces (fl_dir (db_tables x2.1))).
  { destruct x2 as [s2 c2]. unfold up, hosted, focus in E3. destruct (TenantRepo_Create _ _) as [r u] eqn:Ec.
    injection E3 as -> <-. unfold TenantRepo_Create, write_stmt in Ec. apply exec_Ok in Ec. cbv zeta in Ec.
    destruct (violation _) eqn:Ev; [done|]. injection Ec as _ Ec. apply violation_None in Ev. rewrite !Forall_cons in Ev.
    destruct Ev as (_ & Hn & _). apply bool_decide_eq_true in Hn. simpl. by rewrite <- Ec. }
  destruct Hx3 as [Hid Hws].
  do 3 (apply read_step; [apply db_id_frame|]; let E := fresh "E" in intros ? ? E; rewrite <- E in Hws; clear E).
  apply stored_hosted; [|intros; apply answered, write_frame].
  intros u Eu. apply CreateLogicalPair_confined; [done| |intros; done]. intros i. simpl. by rewrite Eu, Hws.
Qed.

Lemma Tenants_Update_effect : tenant_effect (fun ten => reaches (one_tenant false (ten_ID ten))) (Tenants_Update ilike).
Proof.
  apply on_tenant_effect. intros ten x. change (moves_at (one_tenant false (ten_ID ten)) (bound (fun req : UpdateTenantRequest =>
    let errors := new_name_errors (utr_Name req) in
    if negb (bool_decide (errors = [])) then validation_failed errors
    else let! now := up (Now db_runtime) in
      stored (up (TenantStore.Update (HostedTenants ilike) (with_tenant_request req now ten))) (fun tenant =>
        JSON_reply 200 (NewTenantResponse tenant "")))) x).
  apply bound_step. intros req. cbv zeta. apply checked; [apply WriteErrorDetails_frame|].
  apply read_step; [apply db_now_frame|]. intros now x1 E1. apply stored_hosted; [|intros; apply answered, write_frame].
  intros u Eu. by apply TenantUpdate_confined.
Qed.

Lemma Tenants_SoftDelete_effect :
  tenant_effect (fun ten => reaches (one_tenant true (ten_ID ten))) (Tenants_SoftDelete ilike adapters rounds).
Proof.
  apply on_tenant_effect. intros ten x.
  pose (k := stored (up (deleteBlockedReason ilike adapters rounds (ten_ID ten))) (fun reason =>
    if negb (bool_decide (reason = "")) then WriteError 409 "CONFLICT" reason
    else stored (up (TenantStore.SoftDelete (HostedTenants ilike) (ten_ID ten))) (fun _ => NoContent 204))).
  change (moves_at (one_tenant true (ten_ID ten)) k x). unfold k.
  related relates_at_stored; [related relates_preserves; apply preserves_up, deleteBlockedReason_frame|].
  intros reason x' _. destruct (negb _); [apply answered, WriteError_frame|].
  apply stored_hosted; [|intros; apply answered, write_frame]. intros u Eu. by apply TenantSoftDelete_confined.
Qed.

(** *** Workspaces *)

Lemma Workspaces_Create_effect :
  tenant_effect (fun ten t => reaches (fresh_workspaces (fl_dir t) (ten_ID ten)) t) (Workspaces_Create ilike).
Proof.
  apply on_tenant_effect. intros ten x.
  match goal with |- reaches ?r _ (db_tables (?k x).2.1) => change (moves_at r k x) end.
  apply bound_step. intros req. cbv zeta. apply checked; [apply WriteErrorDetails_frame|].
  apply read_step; [apply db_now_frame|]. intros now x0 E0. rewrite <- E0.
  do 3 (apply read_step; [apply db_id_frame|]; let E := fresh "E" in intros ? ? E; rewrite <- E; clear E).
  apply stored_hosted; [|intros [? ?] ? _; apply answered, write_frame].
  intros u Eu. apply CreateLogicalPair_confined; [done| |by split]. intros i. simpl. by rewrite Eu.
Qed.

(** The rows of the tables are under their identifiers. *)
Definition keyed_directory (t : Tables) : Prop :=
  keyed ws_ID (tb_workspaces t) /\ keyed key_ID (tb_keys t).

(** A handler that finds its workspace: nothing, or what [reach] allows. *)
Definition found_effect (reach : Workspace -> Tables -> Reach) (P : Workspace -> Prop) (ws : Workspace) (t t' : Fleet) : Prop :=
  keyed_directory (fl_dir t) -> t' = t \/ P ws /\ reaches (reach ws (fl_dir t)) t t'.

Definition logical (deletes : bool) (ws : Workspace) (t : Tables) : Reach := logical_workspace deletes t (ws_TenantID ws) (ws_Code ws).
Definition ordinary (ws : Workspace) : Prop := ws_IsSystem ws = false.
Definition is_system (ws : Workspace) : Prop := ws_IsSystem ws = true.

Lemma logical_member deletes ws t w : w ∈ [ws] -> keyed ws_ID (tb_workspaces t) -> (exists id, tb_workspaces t !! id = Some ws) ->
  at_code (ws_TenantID ws) (ws_Code ws) ws = true -> re_workspaces (logical deletes ws t) (ws_ID w).
Proof. intros ->%list_elem_of_singleton Hk [id Hid] Hc. exists ws. by rewrite (Hk _ _ Hid). Qed.

Lemma environment_fields_id env req ws ws' b : environment_fields env req ws = inr (ws', b) -> ws_ID ws' = ws_ID ws.
Proof. unfold environment_fields. repeat case_match; intros; by simplify_eq. Qed.

Lemma refreshed_frame ten env ws : preserves (on_world db_tables) (refreshed ilike ten env ws).
Proof. apply stored_frame; [apply preserves_up, hosted_frame, query_frame|intros; apply write_frame]. Qed.

Lemma update_environment_reaches r ten env req ws x : re_workspaces r (ws_ID ws) ->
  moves_at r (update_environment ilike ten env req ws) x.
Proof.
  intros Hr. unfold update_environment. destruct (environment_fields _ _ _) as [e|[ws' [] ] ] eqn:E.
  - apply answered, WriteErrorDetails_frame.
  - apply environment_fields_id in E. apply read_step; [apply db_now_frame|]. intros now x1 E1.
    apply stored_hosted; [|intros; apply answered, refreshed_frame].
    intros u Eu. apply WorkspaceUpdate_confined. by rewrite E.
  - apply answered, refreshed_frame.
Qed.

Lemma Workspaces_Update_effect : workspace_effect (found_effect (logical false) ordinary) (Workspaces_Update ilike).
Proof.
  apply on_workspace_effect. intros ten c ws x Ht Hc Hrow [Hk _]. cbv beta zeta.
  destruct (ws_IsSystem ws) eqn:Es; [left; apply (WriteError_frame db_tables)|]. right. split; [done|]. rewrite <- Ht in Hc.
  pose proof (logical_member false ws _ ws (list_elem_of_here _ _) Hk Hrow Hc) as Hm.
  match goal with |- reaches ?r _ (db_tables (?k x).2.1) => change (moves_at r k x) end.
  apply bound_step. intros req. cbv zeta. repeat (apply checked; [apply WriteErrorDetails_frame|]).
  unfold rename_shared. destruct (_ && _); [by apply update_environment_reaches|].
  apply stored_hosted; [|intros a x' _; by apply update_environment_reaches].
  intros u Eu. apply UpdateShared_confined. rewrite Eu, <- Ht. intros id w Hw Hp. by exists w.
Qed.

Lemma Workspaces_SoftDelete_effect : workspace_effect (found_effect (logical true) ordinary) (Workspaces_SoftDelete ilike).
Proof.
  apply on_workspace_effect. intros ten c ws x Ht Hc Hrow [Hk _]. cbv beta zeta.
  destruct (ws_IsSystem ws) eqn:Es; [left; apply (WriteError_frame db_tables)|]. right. split; [done|].
  match goal with |- reaches ?r _ (db_tables (?k x).2.1) => change (moves_at r k x) end.
  apply stored_hosted; [|intros; apply answered, write_frame].
  intros u Eu. apply SoftDeleteLogical_confined; [done|]. rewrite Eu, <- Ht. intros id w Hw Hp. by exists w.
Qed.

Lemma Workspaces_List_frame : preserves (on_world db_tables) (Workspaces_List ilike).
Proof.
  apply stored_frame; [apply resolveTenant_frame|]. intros ten. apply preserves_bind; [apply conn_frame|]. intros c.
  apply stored_frame; [apply preserves_up, hosted_frame, ListByTenant_frame|]. intros [page next]. apply write_frame.
Qed.

Lemma Workspaces_Get_frame : preserves (on_world db_tables) (Workspaces_Get ilike).
Proof. apply stored_frame; [apply resolveWorkspace_hosted_frame|intros; apply write_frame]. Qed.

Lemma ResetRuntime_frame : preserves (on_world db_tables) (Workspaces_ResetRuntime ilike PurgeWorkspaceRuntime).
Proof.
  apply preserves_bind; [apply conn_frame|]. intros c. destruct (negb _); [apply WriteError_frame|].
  apply stored_frame; [apply resolveTenant_frame|]. intros ten.
  apply stored_frame; [apply preserves_up, hosted_frame, query_frame|]. intros ws.
  apply stored_frame; [apply preserves_up, purge_frame|intros; apply write_frame].
Qed.

(** *** Policies and keys *)

Lemma Policies_Get_frame : preserves (on_world db_tables) (Policies_Get ilike).
Proof.
  apply stored_frame; [apply resolveWorkspace_hosted_frame|]. intros ws.
  apply stored_frame; [apply preserves_up, resolveSystemWorkspace_hosted_frame|intros; apply write_frame].
Qed.

Lemma Policies_Update_effect :
  workspace_effect (found_effect (fun ws _ => one_workspace (ws_ID ws)) is_system) (Policies_Update ilike).
Proof.
  apply resolved_effect. intros ws x _. cbv beta. destruct (ws_IsSystem ws) eqn:Es; [|left; apply (WriteError_frame db_tables)]. right. split; [done|].
  match goal with |- reaches ?r _ (db_tables (?k x).2.1) => change (moves_at r k x) end.
  apply bound_step. intros req. apply read_step; [apply db_now_frame|]. intros now x1 E1. cbv zeta.
  apply stored_hosted; [|intros; apply answered, write_frame]. intros u Eu. by apply WorkspaceUpdate_confined.
Qed.

Lemma fleet_stored {A} r (m : M Flt A) (k : A -> Handler) (x : Flt * Conn) :
  relates_at db_tables (reaches r) m x.1 -> (forall a, preserves (on_world db_tables) (k a)) -> moves_at r (stored (up m) k) x.
Proof. intros Hm Hk. related relates_at_stored; [by apply relates_at_up|]. intros a x' _. by apply answered. Qed.

Lemma Generate_reaches ws env name member s :
  relates_at db_tables (reaches (keys_within (fl_dir (db_tables s)) ws)) (APIKey_Generate (FleetKeys pepper) ws env name member) s.
Proof.
  unfold APIKey_Generate. related relates_at_bind; [related relates_preserves|].
  { unfold generateKey. cbv zeta. apply preserves_bind; [apply rand_frame|intros; apply preserves_ret]. }
  intros key s1 E1. assert (Es1 : db_tables s1 = db_tables s).
  { pose proof (preserves_bind db_tables (rand_Read (T:=Fleet)) (fun b => ret (APIKeyTokenPrefix (if Environment_Valid env then env else EnvironmentProd) +:+ HexEncode b))
                  rand_frame (fun _ => preserves_ret _ _) s) as Hf.
    change (generateKey (FleetKeys pepper) env s = (Ok key, s1)) in E1. unfold generateKey in E1. cbv zeta in E1. simpl ak_rand in E1.
    by rewrite E1 in Hf. }
  related relates_at_bind; [related relates_preserves; apply db_now_frame|]. intros now s2 E2.
  related relates_at_bind; [related relates_preserves; apply db_id_frame|]. intros id s3 E3.
  assert (Es3 : db_tables s3 = db_tables s).
  { pose proof (db_now_frame (T:=Fleet) s1) as Hn. pose proof (db_id_frame (T:=Fleet) s2) as Hi.
    change (Now db_runtime s1 = (Ok now, s2)) in E2. change (NewV7 db_runtime s2 = (Ok id, s3)) in E3.
    rewrite E2 in Hn. rewrite E3 in Hi. simpl in *. congruence. }
  cbv zeta. related relates_at_bind; [|intros; by related relates_preserves].
  apply hosted_reaches. intros u Eu. apply KeyCreate_confined; [|done]. simpl. rewrite Eu, Es3. by intros ->.
Qed.

Lemma Revoke_reaches ws id s : keyed key_ID (tb_keys (fl_dir (db_tables s))) ->
  relates_at db_tables (reaches (keys_within (fl_dir (db_tables s)) ws)) (APIKey_Revoke (FleetKeys pepper) ws id) s.
Proof.
  intros Hk. unfold APIKey_Revoke. related relates_at_bind; [related relates_preserves; apply hosted_frame, query_frame|].
  intros key s1 E1. destruct (negb _) eqn:En; [by related relates_preserves|]. apply negb_false_iff, bool_decide_eq_true in En.
  assert (Hs1 : db_tables s1 = db_tables s /\ tb_keys (fl_dir (db_tables s)) !! id = Some key).
  { pose proof (hosted_frame (T:=Fleet) (APIKeyRepo_GetByID id) (query_frame _ _) s) as Hf.
    change (hosted (T:=Fleet) (APIKeyRepo_GetByID id) s = (Ok key, s1)) in E1. rewrite E1 in Hf. split; [done|].
    apply focus_Ok in E1 as (u & u' & Eu & E1). apply query_Ok in E1 as [E1 _]. unfold scan_key in E1.
    apply first_rows in E1 as ( [i Hi] & Hp). apply andb_true_iff in Hp as [Hp%bool_decide_eq_true _]. rewrite Eu in Hi. simpl in Hi.
    by rewrite <- (Hk _ _ Hi), Hp in Hi. }
  destruct Hs1 as [Es1 Hrow]. apply hosted_reaches. intros u Eu. apply KeyRevoke_confined. simpl. by rewrite Hrow.
Qed.

Lemma Keys_Create_effect : workspace_effect (found_effect (fun ws t => keys_within t (ws_ID ws)) (fun _ => True))
  (Keys_Create ilike (FleetKeys pepper)).
Proof.
  apply resolved_effect. intros ws x _. right. split; [done|].
  match goal with |- reaches ?r _ (db_tables (?k x).2.1) => change (moves_at r k x) end.
  apply bound_step. intros req. cbv zeta. apply checked; [apply WriteErrorDetails_frame|].
  related relates_at_bind; [apply answered, values_frame|]. intros v x' [= <- <-]. destruct (v_member _) as [member|].
  - apply fleet_stored; [apply Generate_reaches|]. intros [fullKey key]. apply write_frame.
  - apply answered, WriteError_frame.
Qed.

Lemma Keys_Revoke_effect : workspace_effect (found_effect (fun ws t => keys_within t (ws_ID ws)) (fun _ => True))
  (Keys_Revoke ilike (FleetKeys pepper)).
Proof.
  apply resolved_effect. intros ws x [_ Hk]. right. split; [done|].
  match goal with |- reaches ?r _ (db_tables (?k x).2.1) => change (moves_at r k x) end.
  unfold path_id. related relates_at_bind; [apply answered, conn_frame|]. intros c x' [= <- <-].
  destruct (uuid_Parse _) as [id|e]; [|apply answered, WriteError_frame].
  apply fleet_stored; [by apply Revoke_reaches|]. intros; apply write_frame.
Qed.

Lemma Keys_List_frame : preserves (on_world db_tables) (Keys_List ilike (FleetKeys pepper)).
Proof.
  apply stored_frame; [apply resolveWorkspace_hosted_frame|]. intros ws. apply preserves_bind; [apply conn_frame|]. intros c.
  apply stored_frame; [|intros; apply write_frame]. apply preserves_up.
  change (preserves db_tables (hosted (T:=Fleet) (APIKeyRepo_ListByWorkspace (ws_ID ws) (ParseListOptions c)))). apply hosted_frame.
  unfold APIKeyRepo_ListByWorkspace. destruct (ApplyPagination _) as [ [? ?]|e]; [apply query_frame|apply preserves_fail].
Qed.

(** ** Requests *)

Context (oidcVerifier : string -> M Flt OIDCClaims).
Hypothesis verifier_frame : forall token, preserves db_tables (oidcVerifier token).

(** A caller who administers a tenant. *)
Definition administers (c : Conn) (t : Tables) (ten : Tenant) : Prop :=
  exists m a, caller oidcVerifier c t m /\ a ∈ roles_of (mem_ID m) t /\
    (mr_Role a = RoleSuperadmin /\ mr_ScopeType a = ScopeGlobal \/
     mr_Role a = RoleTenantAdmin /\ mr_ScopeType a = ScopeTenant /\ mr_TenantID a = Some (ten_ID ten)).

(** The rows a request may reach for its caller. *)
Inductive granted (c : Conn) (t : Tables) : Reach -> Prop :=
| new_tenant_granted : superadmin oidcVerifier c t -> granted c t (fresh_tenant t)
| deleted_tenant_granted ten : superadmin oidcVerifier c t -> tenant_at t (Param "tenant_code" c) = Ok ten ->
    granted c t (one_tenant true (ten_ID ten))
| tenant_granted ten : tenant_at t (Param "tenant_code" c) = Ok ten -> administers c t ten ->
    granted c t (one_tenant false (ten_ID ten))
| new_workspaces_granted ten : tenant_at t (Param "tenant_code" c) = Ok ten -> administers c t ten ->
    granted c t (fresh_workspaces t (ten_ID ten))
| workspace_granted ws : named c t ws -> ws_IsSystem ws = false -> entitled oidcVerifier RoleWorkspaceAdmin c t ws ->
    granted c t (logical_workspace false t (ws_TenantID ws) (ws_Code ws))
| deleted_workspace_granted ws : named c t ws -> ws_IsSystem ws = false -> entitled oidcVerifier RoleTenantAdmin c t ws ->
    granted c t (logical_workspace true t (ws_TenantID ws) (ws_Code ws))
| policies_granted ws : named c t ws -> ws_IsSystem ws = true -> entitled oidcVerifier RoleTenantAdmin c t ws ->
    granted c t (one_workspace (ws_ID ws))
| keys_granted ws : named c t ws -> entitled oidcVerifier RoleWorkspaceAdmin c t ws -> granted c t (keys_within t (ws_ID ws)).

Section Request.
Context (s : Flt) (c : Conn) (r : Res unit) (x' : Flt * Conn) (Hv : cn_Values c = no_values).
Context (Hkeyed : keyed_directory (fl_dir (db_tables s))).
Context (Hroles : forall id a, tb_roles (fl_dir (db_tables s)) !! id = Some a -> role_scope_check a = true).
#[local] Abbreviation handled route := (handle_hosted ilike oidcVerifier pepper route (s, c) = (r, x')).
#[local] Abbreviation outcome :=
  (db_tables x'.1 = db_tables s \/ exists reach, granted c (fl_dir (db_tables s)) reach /\ reaches reach (db_tables s) (db_tables x'.1)).

Lemma reading_route route : preserves (on_world db_tables) (route_Handler route) -> handled route -> outcome.
Proof.
  intros Hf [?|(s1 & c1 & Es & _ & _ & _ & ->)]%hosted_gate; [by left| |done..]. left. rewrite <- Es. exact (Hf (s1, c1)).
Qed.

Lemma tenant_route (R : Tenant -> Fleet -> Fleet -> Prop) route : route_Min route = RoleTenantAdmin ->
  tenant_effect R (route_Handler route) -> handled route ->
  db_tables x'.1 = db_tables s \/
  exists ten, tenant_at (fl_dir (db_tables s)) (Param "tenant_code" c) = Ok ten /\ administers c (fl_dir (db_tables s)) ten /\
    R ten (db_tables s) (db_tables x'.1).
Proof.
  intros Hmin Hh [?|(s1 & c1 & Es & _ & Hpar & (_ & m & a & tid & wid & Hm & Ha & Hauth & Hres) & ->)]%hosted_gate; [by left| |done..].
  destruct (Hh s1 c1) as [->|(ten & Hten & HR)]; [by left|]. rewrite Es in *. right. exists ten.
  assert (Hn : tenant_at (fl_dir (db_tables s)) (Param "tenant_code" c) = Ok ten) by (unfold Param in *; by rewrite Hpar in Hten).
  split; [done|]. split; [|done]. exists m, a. split; [done|]. split; [done|]. rewrite Hmin in Hauth.
  apply roles_of_row in Ha as [id Hid]. specialize (Hroles _ _ Hid).
  destruct Hauth as [? ?|ti -> Hst Hti Hlv|wi -> Hst _ Hlv]; [by left|right|].
  - split; [by apply tenant_level|]. split; [done|]. destruct Hres as [(_ & ten' & E & ->) _].
    change (directory (db_tables s)) with (fl_dir (db_tables s)) in E. congruence.
  - pose proof (workspace_below _ Hroles Hst). simpl in Hlv. lia.
Qed.

Lemma workspace_outcome (reach : Workspace -> Tables -> Reach) (P : Workspace -> Prop) route :
  (forall ws, named c (fl_dir (db_tables s)) ws -> P ws -> entitled oidcVerifier (route_Min route) c (fl_dir (db_tables s)) ws ->
     granted c (fl_dir (db_tables s)) (reach ws (fl_dir (db_tables s)))) ->
  workspace_effect (found_effect reach P) (route_Handler route) -> handled route -> outcome.
Proof.
  intros Hg Hh [?|(ws & Hn & He & HR)]%(workspace_route ilike oidcVerifier pepper verifier_frame (found_effect reach P)); [by left| |done..].
  destruct (HR Hkeyed) as [->|[HP HR'] ]; [by left|]. right. exists (reach ws (fl_dir (db_tables s))). split; [by apply Hg|done].
Qed.

#[local] Abbreviation routes := (control_routes ilike adapters rounds PurgeWorkspaceRuntime (FleetKeys pepper)).

Lemma tenant_routes_outcome route : route ∈ tenant_routes ilike adapters rounds -> handled route -> outcome.
Proof.
  intros Hin E. unfold tenant_routes in Hin. repeat (apply elem_of_cons in Hin as [->|Hin]); [| | | | |by apply not_elem_of_nil in Hin].
  - apply superadmin_route in E as [?|(Ha & s1 & c1 & Es & _ & E)]; [by left| |done..]. right. exists (fresh_tenant (fl_dir (db_tables s))).
    split; [by constructor|]. rewrite E, <- Es. apply (Tenants_Create_reaches (s1, c1)).
  - eapply reading_route; [|exact E]. apply Tenants_List_frame.
  - eapply reading_route; [|exact E]. apply Tenants_Get_frame.
  - destruct (tenant_route _ (mkRoute _ _ _ _) eq_refl Tenants_Update_effect E) as [?|(ten & Hn & Ha & HR)]; [by left|].
    right. eexists. split; [by eapply tenant_granted|done].
  - apply superadmin_route in E as [?|(Ha & s1 & c1 & Es & Hpar & E)]; [by left| |done..]. rewrite E.
    destruct (Tenants_SoftDelete_effect s1 c1) as [E2|(ten & Hn & HR)]; [left; by rewrite <- Es|right].
    rewrite Es in *. unfold Param in Hn. rewrite Hpar in Hn. exists (one_tenant true (ten_ID ten)). split; [by apply deleted_tenant_granted|done].
Qed.

Lemma workspace_routes_outcome route : route ∈ workspace_routes ilike PurgeWorkspaceRuntime -> handled route -> outcome.
Proof.
  intros Hin E. unfold workspace_routes in Hin. repeat (apply elem_of_cons in Hin as [->|Hin]); [..|by apply not_elem_of_nil in Hin].
  - destruct (tenant_route _ (mkRoute _ _ _ _) eq_refl Workspaces_Create_effect E) as [?|(ten & Hn & Ha & HR)]; [by left|].
    right. eexists. split; [by eapply new_workspaces_granted|done].
  - eapply reading_route; [|exact E]. apply Workspaces_List_frame.
  - eapply reading_route; [|exact E]. apply Workspaces_Get_frame.
  - eapply workspace_outcome; [ | |exact E]; [|apply Workspaces_Update_effect]. intros; by apply workspace_granted.
  - eapply workspace_outcome; [ | |exact E]; [|apply Workspaces_SoftDelete_effect]. intros; by apply deleted_workspace_granted.
  - eapply reading_route; [|exact E]. apply Workspaces_List_frame.
  - eapply reading_route; [|exact E]. apply Workspaces_Get_frame.
  - eapply workspace_outcome; [ | |exact E]; [|apply Workspaces_Update_effect]. intros; by apply workspace_granted.
  - eapply reading_route; [|exact E]. apply ResetRuntime_frame.
Qed.

Lemma policy_routes_outcome group route : route ∈ policy_routes ilike group -> handled route -> outcome.
Proof.
  intros Hin E. unfold policy_routes in Hin. repeat (apply elem_of_cons in Hin as [->|Hin]); [..|by apply not_elem_of_nil in Hin].
  - eapply reading_route; [|exact E]. apply Policies_Get_frame.
  - eapply workspace_outcome; [ | |exact E]; [|apply Policies_Update_effect]. intros; by apply policies_granted.
Qed.

Lemma key_routes_outcome group route : route ∈ key_routes ilike (FleetKeys pepper) group -> handled route -> outcome.
Proof.
  intros Hin E. unfold key_routes in Hin. repeat (apply elem_of_cons in Hin as [->|Hin]); [..|by apply not_elem_of_nil in Hin].
  - eapply workspace_outcome; [ | |exact E]; [|apply Keys_Create_effect]. intros; by apply keys_granted.
  - eapply reading_route; [|exact E]. apply Keys_List_frame.
  - eapply workspace_outcome; [ | |exact E]; [|apply Keys_Revoke_effect]. intros; by apply keys_granted.
Qed.

(** C14: whatever a request to a tenant, workspace, policy or key route asks, and
    whichever of its statements fails, either no table changed or the caller was
    granted what changed, and nothing else did: a superadmin adds or deletes a
    tenant; who administers a tenant changes its row and adds workspaces to it;
    an administrator of a workspace changes the two rows of its logical
    workspace, or keys of that workspace; deleting a workspace or changing the
    policies takes an administrator of its tenant. No row changes what it stands
    for, and members and roles stay. *)
Theorem control_plane_confined route : route ∈ routes -> handled route ->
  db_tables x'.1 = db_tables s \/
  exists reach, granted c (fl_dir (db_tables s)) reach /\
    db_tables x'.1 = set_fleet_dir (fl_dir (db_tables x'.1)) (db_tables s) /\
    confined reach (fl_dir (db_tables s)) (fl_dir (db_tables x'.1)).
Proof.
  intros Hin E. unfold control_routes in Hin. cbv zeta in Hin. rewrite !elem_of_app in Hin.
  destruct Hin as [Hin|[Hin|[Hin|[Hin|[Hin|Hin] ] ] ] ];
    [by eapply tenant_routes_outcome|by eapply workspace_routes_outcome|by eapply policy_routes_outcome..|by eapply key_routes_outcome|by eapply key_routes_outcome].
Qed.
End Request.
End Handlers.
