(* ===== verification/TenantGuard.v ===== *)
(** * The guard of a tenant's deletion ([deleteBlockedReason] of [handler/tenant.go])

    The nested loops over pages of workspaces and of adapters stop, and find an
    active SES adapter exactly when a live workspace of the tenant has one. *)
From stdpp Require Import base gmap strings list sorting.
From Stdlib Require Import ZArith NArith Ascii String Lia.
From S2P Require Import Prelude GoMonad Domain Ports Token Config Http Suppression Postgres Database Directory.
From S2P Require Import Auth Members Roles Gates Keys Listings Surface Inheritance Hosted Templates Fleet TemplateHandlers TenantHandlers.

Lemma find_append {A} (p : A -> bool) l1 l2 :
  List.find p (l1 ++ l2) = match List.find p l1 with Some a => Some a | None => List.find p l2 end.
Proof. induction l1 as [|a l1 IH]; simpl; [done|]. by destruct (p a). Qed.

(** What the constraints of the tables say. *)
Record fleet_ok (t : Fleet) : Prop := {
  fo_tenants : table_ok ten_ID (tb_tenants (fl_dir t));
  fo_workspaces : table_ok ws_ID (tb_workspaces (fl_dir t));
  fo_environments id w : tb_workspaces (fl_dir t) !! id = Some w -> Environment_Valid (ws_Environment w) = true;
  fo_adapters : table_ok ad_ID (fl_adapters t);
  fo_system i j w w' : tb_workspaces (fl_dir t) !! i = Some w -> tb_workspaces (fl_dir t) !! j = Some w' ->
    both_system w w' = true -> i = j;
}.

(** A live SES adapter of a live workspace of a tenant. *)
Definition blocking (t : Fleet) (tenantID : uuid) (ws : Workspace) (a : Adapter) : Prop :=
  (exists id, tb_workspaces (fl_dir t) !! id = Some ws) /\ ws_TenantID ws = tenantID /\ workspace_live ws = true /\
  (exists id, fl_adapters t !! id = Some a) /\ ad_WorkspaceID a = Some (ws_ID ws) /\ adapter_live a = true /\ is_SES a = true.

Section Guard.
Context `{GoStd} `{Codec} `{!CodecLaws} (ilike : string -> string -> bool) (s : Flt).
Hypothesis calm : db_faults s = [].
Hypothesis constraints : fleet_ok (db_tables s).
#[local] Abbreviation t := (db_tables s).

Lemma hosted_query_calm {A} wrap (f : Tables -> Res A) : hosted (query wrap f) s = (f (fl_dir t), s).
Proof. unfold hosted, focus. rewrite query_calm by done. simpl. destruct s as [ [] ? ? ? ?]. done. Qed.

(** *** Adapters of a workspace *)

Definition adapters_of (ws : Workspace) : list Adapter :=
  rows (fun a => bool_decide (ad_WorkspaceID a = Some (ws_ID ws)) && adapter_live a) (fl_adapters t).

Lemma paged_cut {A} (key : A -> uuid) rows limit afterID : (0 < limit)%Z ->
  let left := newest_first key (after key afterID rows) in
  paged key rows limit afterID = mkPageResult _ left "" false \/
  exists l1 x l2, left = l1 ++ x :: l2 /\ paged key rows limit afterID = mkPageResult _ (l1 ++ [x]) (EncodeCursor (key x)) true.
Proof.
  intros Hpos left. unfold paged. fold left.
  destruct (take_cut left limit Hpos) as [ [-> ->]|(-> & l1 & x & l2 & El & ->)]; [by left|right].
  exists l1, x, l2. by rewrite last_snoc.
Qed.

Definition reason (ws : Workspace) (l : list Adapter) : option string :=
  (fun a => deleteBlockedReasonMessage (ad_Name a) (ws_Code ws)) <$> List.find is_SES l.


Lemma next_page id : wf_uuid id -> ApplyPagination (mkListOptions (EncodeCursor id) 100 "") = Ok (100%Z, Some id).
Proof. intros Hid. by apply (limit_same (mkListOptions "" 100 "") id 100 None). Qed.

Lemma scan_adapters_rest ws fuel cursor afterID :
  ApplyPagination (mkListOptions cursor 100 "") = Ok (100%Z, afterID) ->
  let left := newest_first ad_ID (after ad_ID afterID (adapters_of ws)) in
  (List.length left < fuel)%nat -> scan_adapters fuel Adapters_ListByWorkspace cursor ws s = (Ok (reason ws left), s).
Proof.
  destruct (table_rows ad_ID (fun a => bool_decide (ad_WorkspaceID a = Some (ws_ID ws)) && adapter_live a) _
              (fo_adapters _ constraints)) as [Hn Hwf].
  revert cursor afterID. induction fuel as [|fuel IH]; intros cursor afterID Ha left Hf; [lia|].
  simpl. unfold bind at 1. unfold Adapters_ListByWorkspace at 1. rewrite Ha, query_calm by done. fold (adapters_of ws).
  destruct (paged_cut ad_ID (adapters_of ws) 100 afterID eq_refl) as [->|(l1 & x & l2 & El & ->)]; fold left; simpl.
  { unfold reason. by destruct (List.find is_SES left). }
  fold left in El. pose proof (find_append is_SES (l1 ++ [x]) l2) as Ef. rewrite <- app_assoc in Ef. simpl in Ef.
  unfold reason at 1. rewrite El, Ef.
  destruct (List.find is_SES (l1 ++ [x])) as [a|]; [done|]. rewrite bool_decide_eq_false_2 by apply cursor_nonempty. simpl.
  destruct (after_row ad_ID _ _ _ _ _ Hn El) as [Hx El2].
  fold (adapters_of ws) in El2. rewrite Forall_forall in Hwf. rewrite (IH _ (Some (ad_ID x))); [by rewrite El2|by apply next_page, Hwf|].
  rewrite El2. rewrite El, length_app in Hf. simpl in Hf. lia.
Qed.

Lemma scan_adapters_all ws fuel : (size (fl_adapters t) < fuel)%nat ->
  scan_adapters fuel Adapters_ListByWorkspace "" ws s = (Ok (reason ws (newest_first ad_ID (adapters_of ws))), s).
Proof.
  intros Hf. apply (scan_adapters_rest ws fuel "" None eq_refl). simpl. rewrite newest_first_perm.
  eapply Nat.le_lt_trans; [|exact Hf]. unfold adapters_of, rows. etrans; [apply List.filter_length_le|].
  by rewrite length_fmap, length_map_to_list.
Qed.

Lemma reason_None ws : reason ws (newest_first ad_ID (adapters_of ws)) = None <->
  forall id a, fl_adapters t !! id = Some a -> ad_WorkspaceID a = Some (ws_ID ws) -> adapter_live a = true -> is_SES a = false.
Proof.
  unfold reason. rewrite fmap_None. split.
  - intros Hn id a Ha Hw Hl. eapply List.find_none in Hn; [exact Hn|]. apply list_elem_of_In. rewrite newest_first_perm.
    apply elem_of_rows. split; [by eexists|]. by rewrite bool_decide_eq_true_2, Hl.
  - intros Hall. destruct (List.find _ _) as [a|] eqn:E; [|done]. apply List.find_some in E as [Hin Hs].
    apply list_elem_of_In in Hin. rewrite newest_first_perm in Hin. apply elem_of_rows in Hin as [ [id Hid] Hp].
    apply andb_true_iff in Hp as [Hp%bool_decide_eq_true Hl]. by rewrite (Hall id a) in Hs.
Qed.

(** *** Workspaces of a tenant *)

(** A search over the rows that satisfy [P]: nothing, or what one of them says. *)
Definition settles {A} (found : A -> option string) (P : A -> Prop) (r : option string) : Prop :=
  r = None /\ (forall a, P a -> found a = None) \/ exists a m, P a /\ found a = Some m /\ r = Some m.

Lemma first_reason_settles {A} (check : A -> M Flt (option string)) found (l : list A) :
  (forall a, a ∈ l -> check a s = (Ok (found a), s)) ->
  exists r, first_reason l check s = (Ok r, s) /\ settles found (fun a => a ∈ l) r.
Proof.
  induction l as [|a l IH]; intros Hc.
  { exists None. split; [done|]. left. split; [done|]. by intros a ?%not_elem_of_nil. }
  simpl. unfold bind. rewrite (Hc a) by left. destruct (found a) as [m|] eqn:Em.
  - exists (Some m). split; [done|]. right. exists a, m. split; [left|done].
  - destruct IH as (r & E & Hr); [intros b Hb; apply Hc; by right|]. exists r. split; [exact E|].
    destruct Hr as [ [-> Hn]|(b & m & Hb & Hf & ->)]; [left|right].
    + split; [done|]. intros b [->|Hb]%elem_of_cons; [done|auto].
    + exists b, m. split; [by right|done].
Qed.

Definition listed_row (tenantID : uuid) (env : Environment) (w : Workspace) : bool :=
  bool_decide (ws_TenantID w = tenantID) && bool_decide (ws_Environment w = env) && workspace_live w
  && (bool_decide ("" = "") || ilike "" (ws_Name w) || ilike "" (ws_Code w)).
Definition tenant_rows (tenantID : uuid) (env : Environment) : list Workspace :=
  rows (listed_row tenantID env) (tb_workspaces (fl_dir t)).
Definition plain (w : Workspace) : bool := negb (ws_IsSystem w).

Lemma elem_of_tenant_rows tenantID env w : w ∈ tenant_rows tenantID env <->
  (exists id, tb_workspaces (fl_dir t) !! id = Some w) /\ ws_TenantID w = tenantID /\ ws_Environment w = env /\ workspace_live w = true.
Proof.
  unfold tenant_rows. rewrite elem_of_rows. unfold listed_row. rewrite (bool_decide_eq_true_2 ("" = "")) by done. simpl.
  rewrite andb_true_r, !andb_true_iff, !bool_decide_eq_true. tauto.
Qed.

(** A page of 100 has at most one system workspace, so it ends at a plain one. *)
Lemma one_system_row tenantID env afterID :
  (List.length (List.filter ws_IsSystem (newest_first ws_ID (after ws_ID afterID (tenant_rows tenantID env)))) <= 1)%nat.
Proof.
  destruct (table_rows ws_ID (listed_row tenantID env) _ (fo_workspaces _ constraints)) as [Hn _].
  fold (tenant_rows tenantID env) in Hn. rewrite after_filter by done.
  set (l := List.filter ws_IsSystem _).
  assert (Hl : NoDup (ws_ID <$> l)) by (do 2 apply filter_distinct; by rewrite newest_first_perm).
  assert (Hin : forall w, w ∈ l -> w ∈ tenant_rows tenantID env /\ ws_IsSystem w = true).
  { intros w Hw. apply list_elem_of_In, filter_In in Hw as [Hw Hs]. apply filter_In in Hw as [Hw%list_elem_of_In _].
    by rewrite newest_first_perm in Hw. }
  destruct l as [|a [|b l] ]; simpl; [lia..|exfalso].
  destruct (Hin a) as [ ( [i Hi] & Ha1 & Ha2 & Ha3)%elem_of_tenant_rows Ha]; [left|].
  destruct (Hin b) as [ ( [j Hj] & Hb1 & Hb2 & Hb3)%elem_of_tenant_rows Hb]; [right; left|].
  assert (i = j).
  { eapply (fo_system _ constraints); [done..|]. unfold both_system. rewrite Ha, Hb, Ha3, Hb3. simpl.
    by rewrite !bool_decide_eq_true_2 by congruence. }
  destruct (fo_workspaces _ constraints _ _ Hi) as [Ei _], (fo_workspaces _ constraints _ _ Hj) as [Ej _].
  simpl in Hl. apply NoDup_cons in Hl as [Hni _]. apply Hni. rewrite Ei, H2, <- Ej. left.
Qed.

Lemma plain_left tenantID env afterID :
  List.filter plain (newest_first ws_ID (after ws_ID afterID (tenant_rows tenantID env)))
  = newest_first ws_ID (after ws_ID afterID (List.filter plain (tenant_rows tenantID env))).
Proof.
  destruct (table_rows ws_ID (listed_row tenantID env) _ (fo_workspaces _ constraints)) as [Hn _].
  fold (tenant_rows tenantID env) in Hn. rewrite !after_filter by (done || by apply filter_distinct).
  rewrite newest_first_filter by done. generalize (newest_first ws_ID (tenant_rows tenantID env)). intros l.
  induction l as [|w l IH]; [done|]. simpl. destruct (keeps ws_ID afterID w) eqn:Ek, (plain w) eqn:Ep; simpl; rewrite ?Ep, ?Ek, IH; done.
Qed.

#[local] Abbreviation left_of tenantID env afterID := (newest_first ws_ID (after ws_ID afterID (tenant_rows tenantID env))).

Lemma list_page tenantID env cursor afterID :
  ApplyPagination (mkListOptions cursor 100 "") = Ok (100%Z, afterID) ->
  let left := left_of tenantID env afterID in
  exists items next, WorkspaceStore.ListByTenant (HostedWorkspaces ilike) tenantID env 100 cursor s = (Ok (items, next), s) /\
  (items = system_first left /\ next = "" \/
   exists l x l2, List.filter plain left = l ++ x :: l2 /\ items = List.filter ws_IsSystem left ++ l ++ [x] /\
     next = EncodeCursor (ws_ID x)).
Proof.
  intros Ha left. simpl. unfold ListByTenant. rewrite Ha, hosted_query_calm. simpl lo_Search. fold (listed_row tenantID env).
  fold (tenant_rows tenantID env). fold left. cbv zeta.
  destruct (take_cut (system_first left) 100 eq_refl) as [ [-> ->]|(Hlt & l1 & x & l2 & El & Ec)].
  { eexists _, _. split; [done|]. by left. }
  rewrite Hlt, Ec, last_snoc. eexists _, _. split; [done|]. right.
  assert (Hlen : List.length l1 = 99%nat).
  { apply Z.ltb_lt in Hlt. apply (f_equal (@List.length _)) in Ec. rewrite length_take, length_app in Ec. cbn [List.length] in Ec.
    revert Hlt Ec. generalize (Datatypes.length (take (Z.to_nat (100 + 1)) (system_first left))). lia. }
  unfold system_first in El. fold plain in El.
  pose proof (one_system_row tenantID env afterID) as Hone. fold left in Hone.
  destruct (List.app_eq_app _ _ _ _ El) as (l & [ [Es _]|[El1 Ep] ]).
  - exfalso. apply (f_equal (@List.length _)) in Es. rewrite length_app in Es. lia.
  - exists l, x, l2. split; [exact Ep|]. by rewrite El1, app_assoc.
Qed.

Section Scan.
Context (check : Workspace -> M Flt (option string)) (found : Workspace -> option string).
Hypothesis checks : forall ws, check ws s = (Ok (found ws), s).

Lemma scan_workspaces_rest tenantID env fuel cursor afterID :
  ApplyPagination (mkListOptions cursor 100 "") = Ok (100%Z, afterID) ->
  (List.length (List.filter plain (left_of tenantID env afterID)) < fuel)%nat ->
  exists r, scan_workspaces ilike fuel check tenantID cursor env s = (Ok r, s) /\
    (r = None /\ (forall w, w ∈ left_of tenantID env afterID -> found w = None) \/
     exists w m, w ∈ tenant_rows tenantID env /\ found w = Some m /\ r = Some m).
Proof.
  destruct (table_rows ws_ID (listed_row tenantID env) _ (fo_workspaces _ constraints)) as [Hn Hwf].
  fold (tenant_rows tenantID env) in Hn, Hwf.
  revert cursor afterID. induction fuel as [|fuel IH]; intros cursor afterID Ha Hf; [lia|].
  destruct (list_page tenantID env cursor afterID Ha) as (items & next & E & Hpage).
  cbn [scan_workspaces]. unfold bind at 1. rewrite E. unfold bind at 1.
  destruct (first_reason_settles check found items) as (r & Er & Hr); [by intros|]. rewrite Er.
  assert (Hin : forall w, w ∈ left_of tenantID env afterID -> w ∈ tenant_rows tenantID env).
  { intros w Hw. rewrite after_filter in Hw by done. apply list_elem_of_In, filter_In in Hw as [Hw%list_elem_of_In _].
    by rewrite newest_first_perm in Hw. }
  assert (Hall : forall w, w ∈ items -> w ∈ left_of tenantID env afterID).
  { intros w Hw. destruct Hpage as [ [-> _]|(l & x & l2 & El & -> & _)].
    - unfold system_first in Hw. apply elem_of_app in Hw as [Hw|Hw]; by apply list_elem_of_In, filter_In in Hw as [?%list_elem_of_In _].
    - apply elem_of_app in Hw as [Hw|Hw]; [by apply list_elem_of_In, filter_In in Hw as [?%list_elem_of_In _]|].
      assert (Hp : w ∈ List.filter plain (left_of tenantID env afterID)) by (rewrite El; set_solver).
      by apply list_elem_of_In, filter_In in Hp as [?%list_elem_of_In _]. }
  destruct Hr as [ [-> Hnone]|(w & m & Hw & Hfound & ->)]; [|exists (Some m); split; [done|right; exists w, m; auto] ].
  destruct Hpage as [ [-> ->]|(l & x & l2 & El & -> & ->)].
  { exists None. split; [done|]. left. split; [done|]. intros w Hw. apply Hnone. unfold system_first.
    apply elem_of_app. destruct (ws_IsSystem w) eqn:Es; [left|right]; apply list_elem_of_In, filter_In; by rewrite ?Es, <- list_elem_of_In. }
  rewrite bool_decide_eq_false_2 by apply cursor_nonempty.
  pose proof El as El'. rewrite plain_left in El'.
  destruct (after_row ws_ID _ _ _ _ _ (filter_distinct ws_ID plain _ Hn) El') as [Hx El2]. rewrite <- plain_left in El2.
  assert (Hx' : x ∈ tenant_rows tenantID env) by by apply list_elem_of_In, filter_In in Hx as [?%list_elem_of_In _].
  rewrite Forall_forall in Hwf.
  destruct (IH (EncodeCursor (ws_ID x)) (Some (ws_ID x))) as (r & Es & Hr); [by apply next_page, Hwf| |].
  { rewrite El2. rewrite El, length_app in Hf. simpl in Hf. lia. }
  exists r. split; [exact Es|]. destruct Hr as [ [-> Hrest]|?]; [left|by right]. split; [done|]. intros w Hw.
  destruct (plain w) eqn:Ep.
  - assert (Hpw : w ∈ List.filter plain (left_of tenantID env afterID)) by by apply list_elem_of_In, filter_In; rewrite <- list_elem_of_In.
    rewrite El in Hpw. apply elem_of_app in Hpw as [Hw1|[->|Hw2]%elem_of_cons]; [apply Hnone; set_solver..|].
    apply Hrest. rewrite <- El2 in Hw2. by apply list_elem_of_In, filter_In in Hw2 as [?%list_elem_of_In _].
  - apply Hnone, elem_of_app. left. apply list_elem_of_In, filter_In. rewrite <- list_elem_of_In. split; [done|].
    unfold plain in Ep. by apply negb_false_iff in Ep.
Qed.

Lemma scan_workspaces_all tenantID env fuel : (size (tb_workspaces (fl_dir t)) < fuel)%nat ->
  exists r, scan_workspaces ilike fuel check tenantID "" env s = (Ok r, s) /\
    settles found (fun w => w ∈ tenant_rows tenantID env) r.
Proof.
  intros Hf. destruct (scan_workspaces_rest tenantID env fuel "" None eq_refl) as (r & E & Hr).
  - eapply Nat.le_lt_trans; [|exact Hf]. etrans; [apply List.filter_length_le|]. simpl. rewrite newest_first_perm.
    unfold tenant_rows, rows. etrans; [apply List.filter_length_le|]. by rewrite length_fmap, length_map_to_list.
  - exists r. split; [done|]. destruct Hr as [ [-> Hn]|?]; [left|by right]. split; [done|]. intros w Hw. apply Hn. simpl.
    by rewrite newest_first_perm.
Qed.
End Scan.

(** *** The guard *)

Context (rounds : nat).
Hypothesis enough : (size (tb_workspaces (fl_dir t)) < rounds)%nat /\ (size (fl_adapters t) < rounds)%nat.
#[local] Abbreviation adapters := (Some Adapters_ListByWorkspace).
#[local] Abbreviation found := (fun ws => reason ws (newest_first ad_ID (adapters_of ws))).

Lemma message_nonempty a w : deleteBlockedReasonMessage a w <> "".
Proof. done. Qed.

Lemma blocking_found tenantID ws : (exists env, ws ∈ tenant_rows tenantID env) ->
  (exists m, found ws = Some m) <-> exists a, blocking t tenantID ws a.
Proof.
  intros (env & (Hrow & Ht & _ & Hl)%elem_of_tenant_rows). split.
  - intros [m Hm]. unfold reason in Hm. apply fmap_Some in Hm as (a & Ha & _). apply List.find_some in Ha as [Hin Hs].
    apply list_elem_of_In in Hin. rewrite newest_first_perm in Hin. apply elem_of_rows in Hin as [Hid Hp].
    apply andb_true_iff in Hp as [Hp%bool_decide_eq_true Hla]. by exists a.
  - intros (a & _ & _ & _ & [id Hid] & Hw & Hla & Hs). destruct (found ws) as [m|] eqn:E; [by exists m|].
    pose proof (proj1 (reason_None ws) E id a Hid Hw Hla) as Hn. by rewrite Hn in Hs.
Qed.

Lemma deleteBlockedReason_exact tenantID : exists r, deleteBlockedReason ilike adapters rounds tenantID s = (Ok r, s) /\
  (r <> "" <-> exists ws a, blocking t tenantID ws a).
Proof.
  destruct enough as [Hw Ha].
  pose proof (fun env => scan_workspaces_all (scan_adapters rounds Adapters_ListByWorkspace "") found
                (fun ws => scan_adapters_all ws rounds Ha) tenantID env rounds Hw) as Hscan.
  assert (Hnone : (forall env w, env ∈ Environments -> w ∈ tenant_rows tenantID env -> found w = None) ->
            ~ exists ws a, blocking t tenantID ws a).
  { intros Hn (ws & a & Hb). assert (Hin : ws ∈ tenant_rows tenantID (ws_Environment ws)).
    { apply elem_of_tenant_rows. destruct Hb as (? & ? & ? & _). auto. }
    assert (He : ws_Environment ws ∈ Environments).
    { destruct Hb as ([id Hid] & _). pose proof (fo_environments _ constraints _ _ Hid) as He. unfold Environment_Valid in He.
      apply orb_true_iff in He as [->%bool_decide_eq_true| ->%bool_decide_eq_true]; [left|right; left]. }
    assert (Hm : exists m, found ws = Some m) by (apply (blocking_found tenantID); eauto).
    destruct Hm as [m Hm]. by rewrite (Hn _ _ He Hin) in Hm. }
  assert (Hsome : forall env w m, w ∈ tenant_rows tenantID env -> found w = Some m ->
            m <> "" /\ exists ws a, blocking t tenantID ws a).
  { intros env w m Hin Hm. split.
    - unfold reason in Hm. apply fmap_Some in Hm as (a & _ & ->). apply message_nonempty.
    - exists w. apply blocking_found; eauto. }
  unfold deleteBlockedReason, Environments. cbn [first_reason]. unfold bind.
  destruct (Hscan EnvironmentProd) as (r1 & E1 & [ [-> Hn1]|(w & m & Hin & Hm & ->)]); rewrite E1.
  2: { exists m. split; [done|]. specialize (Hsome _ _ _ Hin Hm). tauto. }
  destruct (Hscan EnvironmentTest) as (r2 & E2 & [ [-> Hn2]|(w & m & Hin & Hm & ->)]); rewrite E2.
  2: { exists m. split; [done|]. specialize (Hsome _ _ _ Hin Hm). tauto. }
  exists "". split; [done|]. split; [done|]. intros Hb. exfalso. apply Hnone; [|done].
  intros env w [->|[->|?%not_elem_of_nil]%elem_of_cons]%elem_of_cons; [auto|auto|done].
Qed.
End Guard.

(** C36: with a database that answers, deleting a tenant stops after at most as
    many pages as there are rows and does one of two things: when a live
    workspace of the tenant, in either environment, has a live SES adapter,
    nothing changes and the answer is a conflict; when none has, the tenant is
    deleted and nothing else changes. *)
Theorem SoftDelete_guarded `{GoStd} `{Codec} `{!CodecLaws} `{Sha256} ilike rounds (s : Flt) c ten :
  let t := db_tables s in
  db_faults s = [] -> cn_Broken c = None -> fleet_ok t -> tenant_at (fl_dir t) (Param "tenant_code" c) = Ok ten ->
  (size (tb_workspaces (fl_dir t)) < rounds)%nat -> (size (fl_adapters t) < rounds)%nat ->
  exists s' rp, Tenants_SoftDelete ilike (Some Adapters_ListByWorkspace) rounds (s, c) = (Ok tt, (s', set_replies (fun l => l ++ [rp]) c)) /\
  ((exists ws a, blocking t (ten_ID ten) ws a) /\ db_tables s' = t /\ rp_Status rp = 409%Z \/
   (~ exists ws a, blocking t (ten_ID ten) ws a) /\ rp_Status rp = 204%Z /\
   exists ten', ten_DeletedAt ten' <> None /\
     db_tables s' = set_fleet_dir (set_tenants <[ten_ID ten := ten']> (fl_dir t)) t).
Proof.
  intros t Hcalm Hbroken Hok Hten Hw Ha. unfold Tenants_SoftDelete, on_tenant, stored at 1, try.
  assert (Eten : resolveTenant (HostedTenants (T:=Fleet) ilike) (s, c) = (Ok ten, (s, c))).
  { unfold resolveTenant, bind, conn, get_state, up. simpl. unfold TenantRepo_GetByCode. rewrite hosted_query_calm by done.
    change (db_tables s) with t. unfold tenant_at in Hten. by rewrite Hten. }
  rewrite Eten. destruct (deleteBlockedReason_exact ilike s Hcalm Hok rounds (conj Hw Ha) (ten_ID ten)) as (r & Er & Hr).
  unfold stored at 1, try, up at 1. rewrite Er. case_bool_decide as Hne.
  2: { simpl. unfold WriteError, WriteErrorDetails, bind, values, write. simpl. rewrite Hbroken. eexists _, _. split; [done|].
       left. split; [by apply Hr|done]. }
  simpl negb. cbv iota. unfold stored, try, up.
  apply first_rows in Hten as [ [id Hid] Hp]. apply andb_true_iff in Hp as [_ Hlive].
  destruct (fo_tenants _ Hok _ _ Hid) as [Eid _]. rewrite <- Eid in Hid.
  simpl. unfold hosted, focus, TenantRepo_SoftDelete, update_stmt. rewrite exec_calm by done. simpl.
  unfold live_tenant. change (db_tables s) with t. rewrite Hid, Hlive. simpl. unfold NoContent, write. simpl. rewrite Hbroken.
  eexists _, _. split; [done|]. right. split; [intros Hb; by apply Hr in Hb|]. split; [done|]. simpl.
  eexists. split; [|reflexivity]. done.
Qed.
