(* ===== verification/TemplateSafety.v ===== *)
(** * What a request can change in the library

    The requests that create and edit templates through a workspace's routes
    change only templates of that workspace, their versions and overrides. *)
From stdpp Require Import base gmap strings list sorting.
From Stdlib Require Import ZArith NArith Ascii String Lia.
From S2P Require Import Prelude GoMonad Domain Ports Token Config Http.
From S2P Require Import Suppression Postgres Database Directory Auth Members Gates Surface Templates.
From S2P Require Import Versions Publication Copies Inheritance TemplateHandlers.

(** ** Staying within a workspace *)

Definition owned (ws : uuid) (t : Library) (templateID : uuid) : Prop :=
  exists r, tp_templates t !! templateID = Some r /\ tpl_WorkspaceID r = Some ws.

(** The rows that differ are of templates of the workspace [ws]; nothing is
    removed, and overrides are only added. *)
Record within (ws : uuid) (t t' : Library) : Prop := {
  within_dir : tp_dir t' = tp_dir t;
  within_types : tp_types t' = tp_types t;
  within_templates id : tp_templates t' !! id = tp_templates t !! id \/
    ((forall r, tp_templates t !! id = Some r -> tpl_WorkspaceID r = Some ws) /\ owned ws t' id);
  within_versions id : tp_versions t' !! id = tp_versions t !! id \/
    (exists v', tp_versions t' !! id = Some v' /\ owned ws t' (ver_TemplateID v') /\
       forall v, tp_versions t !! id = Some v -> ver_TemplateID v' = ver_TemplateID v);
  within_locales id : tp_locales t' !! id = tp_locales t !! id \/
    (tp_locales t !! id = None /\ exists l v, tp_locales t' !! id = Some l /\
       tp_versions t' !! loc_TemplateVersionID l = Some v /\ owned ws t' (ver_TemplateID v));
}.

Section Within.
Context (ws : uuid).

Lemma within_owned t t' id : within ws t t' -> owned ws t id -> owned ws t' id.
Proof.
  intros Hw (r & Hr & Ho). destruct (within_templates _ _ _ Hw id) as [E|[_ ?] ]; [|done]. exists r. by rewrite E.
Qed.

Lemma within_version t t' id v : within ws t t' -> tp_versions t !! id = Some v ->
  exists v', tp_versions t' !! id = Some v' /\ ver_TemplateID v' = ver_TemplateID v.
Proof.
  intros Hw Hv. destruct (within_versions _ _ _ Hw id) as [E|(v' & Hv' & _ & Ht)]; [|eauto]. exists v. by rewrite E.
Qed.

#[export] Instance within_preorder : PreOrder (within ws).
Proof.
  split.
  - intros t. split; auto.
  - intros t1 t2 t3 H12 H23. split.
    + by rewrite (within_dir _ _ _ H23), (within_dir _ _ _ H12).
    + by rewrite (within_types _ _ _ H23), (within_types _ _ _ H12).
    + intros id. destruct (within_templates _ _ _ H12 id) as [E12|[T12 O12] ], (within_templates _ _ _ H23 id) as [E23|[T23 O23] ].
      * left. congruence.
      * right. rewrite <- E12. done.
      * right. split; [done|]. by apply (within_owned _ _ _ H23).
      * right. done.
    + intros id. destruct (within_versions _ _ _ H23 id) as [E23|(v' & Hv' & Ho & Ht)].
      * destruct (within_versions _ _ _ H12 id) as [E12|(v & Hv & Ho & Ht)]; [left; congruence|right].
        exists v. rewrite E23. split_and!; [done|by apply (within_owned _ _ _ H23)|done].
      * right. exists v'. split_and!; [done..|]. intros v Hv. destruct (within_version _ _ _ _ H12 Hv) as (w & Hw & <-). by apply Ht.
    + intros id. destruct (within_locales _ _ _ H12 id) as [E12|(Hn & l & v & Hl & Hv & Ho)], (within_locales _ _ _ H23 id) as [E23|T23].
      * left. congruence.
      * right. by rewrite <- E12.
      * right. split; [done|]. destruct (within_version _ _ _ _ H23 Hv) as (w & Hw & Ew). exists l, w. rewrite E23, Ew.
        split_and!; [done..|]. by apply (within_owned _ _ _ H23).
      * destruct T23 as [T23 _]. congruence.
Qed.

(** From a well typed library, a step within the workspace to another one. *)
Definition safely (t t' : Library) : Prop := library_ok t -> library_ok t' /\ within ws t t'.

#[export] Instance safely_preorder : PreOrder safely.
Proof.
  split; [by intros t|]. intros t1 t2 t3 H12 H23 Hok.
  destruct (H12 Hok) as [Hok2 Hc2], (H23 Hok2) as [Hok3 Hc3]. split; [done|by etrans].
Qed.

Lemma safely_intro {A} (m : M Tpl A) s : relates_at db_tables lifecycle m s ->
  (library_ok (db_tables s) -> within ws (db_tables s) (db_tables (m s).2)) -> relates_at db_tables safely m s.
Proof. intros [Hk _] Hw Hok. split; [by apply Hk|by apply Hw]. Qed.

(** *** Steps *)

Lemma within_template t id r : (forall r0, tp_templates t !! id = Some r0 -> tpl_WorkspaceID r0 = Some ws) ->
  tpl_WorkspaceID r = Some ws -> within ws t (set_templates <[id := r]> t).
Proof.
  intros Hb Hr. split; simpl; try done; try by left. intros i. destruct (decide (i = id)) as [->|Hi].
  - right. split; [done|]. exists r. simpl. by rewrite lookup_insert_eq.
  - left. by rewrite lookup_insert_ne.
Qed.

Lemma within_new_version t id v : owned ws t (ver_TemplateID v) ->
  (forall v0, tp_versions t !! id = Some v0 -> ver_TemplateID v = ver_TemplateID v0) ->
  within ws t (set_versions <[id := v]> t).
Proof.
  intros Ho Hb. split; simpl; try done; try by left. intros i. destruct (decide (i = id)) as [->|Hi].
  - right. exists v. rewrite lookup_insert_eq. auto.
  - left. by rewrite lookup_insert_ne.
Qed.

Lemma within_cloned src c t t' : cloned src c t t' -> owned ws t (ver_TemplateID c) -> library_ok t ->
  (forall id, tp_locales t' !! id = tp_locales t !! id \/ tp_locales t !! id = None) -> within ws t t'.
Proof.
  intros Hc Ho Hok Hl. destruct (cloned_rest _ _ _ _ Hc) as (Et & Ety & Ed).
  assert (Ho' : owned ws t' (ver_TemplateID c)) by (destruct Ho as (r & Hr & ?); exists r; by rewrite Et).
  split; [done|done|left; by rewrite Et| |]; rewrite ?(cloned_versions _ _ _ _ Hc).
  - intros id. destruct (decide (id = ver_ID c)) as [->|Hi]; [|left; by rewrite lookup_insert_ne].
    right. exists c. rewrite lookup_insert_eq. split_and!; [done..|]. intros v. by rewrite (cloned_fresh _ _ _ _ Hc).
  - intros id. destruct (Hl id) as [?|Hn]; [by left|]. destruct (tp_locales t' !! id) as [l|] eqn:El; [|by left].
    destruct (cloned_new _ _ _ _ Hc _ _ El) as [?|E]; [congruence|]. right. split; [done|]. exists l, c.
    by rewrite E, lookup_insert_eq.
Qed.

(** A table of overrides that only grew. *)
Lemma grown t t' : tp_locales t ⊆ tp_locales t' -> forall id, tp_locales t' !! id = tp_locales t !! id \/ tp_locales t !! id = None.
Proof.
  intros Hs id. destruct (tp_locales t !! id) as [l|] eqn:E; [left|by right]. by eapply lookup_weaken.
Qed.

Lemma within_forked source by_ f pairs t t' : forked source ws by_ f pairs t t' -> library_ok t -> within ws t t'.
Proof.
  intros Hf Hok. destruct (forked_rest _ _ _ _ _ _ _ Hf) as [Ety Ed].
  destruct (forked_template _ _ _ _ _ _ _ Hf) as (_ & Hw & _).
  assert (Ho : owned ws t' (tpl_ID f)).
  { exists f. rewrite (forked_templates _ _ _ _ _ _ _ Hf). by rewrite lookup_insert_eq. }
  assert (Hv : forall i, i ∈ pairs.*2 -> exists w, tp_versions t' !! i = Some w /\ ver_TemplateID w = tpl_ID f).
  { intros i Hi. apply list_elem_of_fmap in Hi as ([v j] & -> & Hi).
    destruct (forked_copy _ _ _ _ _ _ _ Hf _ _ Hi) as [ [now E] _]. simpl. rewrite E. eauto. }
  destruct (forked_ids _ _ _ _ _ _ _ Hf) as [_ Hfresh]. split; [done|done| | |].
  - intros id. rewrite (forked_templates _ _ _ _ _ _ _ Hf). destruct (decide (id = tpl_ID f)) as [->|Hi].
    + right. split; [|done]. intros r. by rewrite (forked_template_fresh _ _ _ _ _ _ _ Hf).
    + left. by rewrite lookup_insert_ne.
  - intros id. destruct (decide (id ∈ pairs.*2)) as [Hi|Hi].
    + right. destruct (Hv id Hi) as (w & Hw' & Et). exists w. rewrite Et. split_and!; [done..|]. intros v Hv'.
      by rewrite (Hfresh _ Hi) in Hv'.
    + left. apply (forked_same _ _ _ _ _ _ _ Hf _ Hi).
  - intros id. destruct (grown t t' (forked_kept _ _ _ _ _ _ _ Hf) id) as [?|Hn]; [by left|].
    destruct (tp_locales t' !! id) as [l|] eqn:El; [|by left]. right. split; [done|].
    destruct (forked_new _ _ _ _ _ _ _ Hf _ _ El) as [?|Hi]; [congruence|].
    destruct (Hv _ Hi) as (w & Hw' & Et). exists l, w. by rewrite Et.
Qed.
End Within.

(** ** The repository's operations *)

Section Operations.
Context `{GoStd} `{Codec} `{MapRangeLaws} (ws : uuid).
#[local] Abbreviation safe_at := (relates_at db_tables (safely ws)).

Lemma CreateTemplate_safe tpl s : tpl_WorkspaceID tpl = Some ws -> safe_at (TemplateRepo_CreateTemplate tpl) s.
Proof.
  intros Hw. apply safely_intro; [apply CreateTemplate_keeps|]. intros _.
  assert (Hr : relates db_tables (within ws) (TemplateRepo_CreateTemplate tpl)); [|apply Hr].
  related relates_write. intros now t a t'.
  destruct (insert_template_cases now tpl t) as [ [e ->]|(-> & Hn & _)]; [done|]. intros [= _ <-].
  apply within_template; [by rewrite Hn|done].
Qed.

Lemma SetDisabled_safe id d s : safe_at (SetDisabled id (Some ws) d) s.
Proof.
  apply safely_intro; [apply SetDisabled_keeps|]. intros _.
  assert (Hr : relates db_tables (within ws) (SetDisabled id (Some ws) d)); [|apply Hr].
  related relates_update. intros now r t (Hr & _ & Hw)%owned_template_Some. apply within_template; [|done].
  rewrite Hr. by intros ? [= <-].
Qed.

Lemma CreateVersion_safe v s : owned ws (db_tables s) (ver_TemplateID v) -> safe_at (TemplateRepo_CreateVersion v) s.
Proof.
  intros Ho. apply safely_intro; [apply CreateVersion_keeps|]. intros _.
  destruct (TemplateRepo_CreateVersion v s) as [r s'] eqn:E. simpl.
  apply in_tx_cases in E as [ [_ ->]|(s1 & a & s2 & Es & E & -> & _)]; [done|]. rewrite <- Es in *. clear Es.
  apply bind_Ok in E as ([] & s3 & (_ & E3 & _)%query_did & E). apply bind_Ok in E as (n & s4 & (_ & E4 & _)%query_did & E).
  apply write_did in E as [E _]. rewrite E4, E3 in E.
  match type of E with context [insert_version ?row ?t] => destruct (insert_version_cases row t) as [ [e Ee]|(Ei & Hn & _)] end;
    rewrite ?Ee, ?Ei in E; [done|]. injection E as _ <-. apply within_new_version; [done|]. simpl in Hn. simpl. by rewrite Hn.
Qed.

Lemma UpdateVersion_safe v s : (library_ok (db_tables s) -> forall w, tp_versions (db_tables s) !! ver_ID v = Some w -> owned ws (db_tables s) (ver_TemplateID w)) ->
  safe_at (TemplateRepo_UpdateVersion v) s.
Proof.
  intros Ho. apply safely_intro; [apply UpdateVersion_keeps|]. intros Hok. specialize (Ho Hok).
  destruct (TemplateRepo_UpdateVersion v s) as [r s'] eqn:E. simpl. unfold TemplateRepo_UpdateVersion, update_stmt in E.
  apply exec_cases in E as [ [_ ->]|(r' & t' & E & -> & _)]; [done|].
  destruct (draft_version _ _) as [w|] eqn:Ed; injection E as _ <-; [|done].
  apply draft_version_Some in Ed as [Hw _]. apply within_new_version; [by apply (Ho w)|]. rewrite Hw. by intros ? [= <-].
Qed.

Lemma CloneVersion_safe tid src by_ s : owned ws (db_tables s) tid -> safe_at (TemplateRepo_CloneVersion tid src by_) s.
Proof.
  intros Ho. apply safely_intro; [apply CloneVersion_keeps|]. intros Hok.
  destruct (TemplateRepo_CloneVersion tid src by_ s) as [r s'] eqn:E. simpl.
  apply clone_body in E as [ [_ ->]|(v & c & _ & _ & _ & Et & _ & _ & _ & _ & _ & Hc & _)]; [done| |done].
  eapply within_cloned; [done|by rewrite Et|done|]. apply grown, (cloned_kept _ _ _ _ Hc).
Qed.

Lemma ForkTemplate_safe src by_ s : safe_at (TemplateRepo_ForkTemplate src ws by_) s.
Proof.
  apply safely_intro; [apply ForkTemplate_keeps|]. intros Hok.
  destruct (TemplateRepo_ForkTemplate src ws by_ s) as [r s'] eqn:E. simpl.
  apply fork_body in E as [ [_ ->]|(source & f & pairs & _ & Hf & _)]; [done| |done]. by eapply within_forked.
Qed.
End Operations.

(** ** The handlers *)

Section Handlers.
Context `{GoStd} `{Codec} `{Parsers} `{MapRangeLaws} `{JSON (option fields_map)}.
Context `{Binder CreateTemplateRequest} `{Binder CreateVersionRequest} `{Binder SetLocaleRequest}.
Context (ilike : string -> string -> bool) (templateInvalidator : option (Invalidator Tpl)).

(** The invalidation of a cache does not write to the database. *)
Definition invalidates_only : Prop := forall inv, templateInvalidator = Some inv ->
  preserves db_tables (InvalidateAllResolvedTemplates inv) /\
  forall id, preserves db_tables (InvalidateResolvedTemplates inv id).
Hypothesis invalidator_frame : invalidates_only.

#[local] Abbreviation ts := (LibTenants ilike).
#[local] Abbreviation wss := (LibWorkspaces ilike).
#[local] Abbreviation frame := (preserves (on_world db_tables)).

(** *** What only reads *)

Lemma of_directory_frame {A} (m : M Dir A) : preserves db_tables m -> preserves db_tables (of_directory m).
Proof. apply focus_frame. by intros []. Qed.

Lemma resolveSystemWorkspace_frame ws : preserves db_tables (resolveSystemWorkspace wss ws).
Proof.
  unfold resolveSystemWorkspace. destruct (ws_IsSystem ws); [apply preserves_ret|]. apply preserves_try.
  - apply of_directory_frame, query_frame.
  - intros [sys|e]; [apply preserves_ret|]. destruct (_ || _); [apply preserves_ret|apply preserves_fail].
Qed.

Lemma resolveWorkspace_frame : frame (resolveWorkspace ts wss).
Proof.
  unfold resolveWorkspace. apply preserves_bind; [apply conn_frame|]. intros c.
  apply preserves_bind; [|intros ten]; apply preserves_up, of_directory_frame, query_frame.
Qed.

Lemma GetTemplateByID_frame id : preserves db_tables (GetTemplateByID id).
Proof. apply query_frame. Qed.
Lemma GetVersionByID_frame id : preserves db_tables (GetVersionByID id).
Proof. apply query_frame. Qed.

Lemma access_frame ws id : preserves db_tables (loadWorkspaceTemplateAccess wss ws id).
Proof.
  unfold loadWorkspaceTemplateAccess. apply preserves_bind; [apply resolveSystemWorkspace_frame|]. intros sys.
  apply preserves_bind; [apply GetTemplateByID_frame|]. intros tpl.
  destruct (negb _); [apply preserves_fail|apply preserves_ret].
Qed.

Lemma mutable_frame ws id : preserves db_tables (requireMutableWorkspaceTemplate wss ws id).
Proof.
  unfold requireMutableWorkspaceTemplate. apply preserves_bind; [apply access_frame|]. intros [ [tpl sys] pol].
  repeat case_match; (apply preserves_fail || apply preserves_ret).
Qed.

Lemma mapTemplateError_frame e : frame (mapTemplateError e).
Proof. unfold mapTemplateError. repeat case_match; auto with senda. Qed.

(** The template of the path is owned when the prologue lets a request on. *)
Lemma mutable_owned ws id s tpl s' : requireMutableWorkspaceTemplate wss ws id s = (Ok tpl, s') ->
  owned (ws_ID ws) (db_tables s) id.
Proof.
  intros ([ [t0 sys] pol] & s1 & E & E1)%bind_Ok.
  apply bind_Ok in E as (sys' & s2 & E2 & E). pose proof (resolveSystemWorkspace_frame ws s) as Hf. rewrite E2 in Hf. simpl in Hf.
  apply bind_Ok in E as (t1 & s3 & (Eq & _)%query_did & E). rewrite Hf in Eq.
  destruct (live_template id _) as [t2|] eqn:El; [|done]. injection Eq as ->. apply live_template_Some in El as [El _].
  destruct (negb _) eqn:Ev in E; [done|]. injection E as <- _ _ _. simpl in E1.
  unfold isOwnedByCurrentWorkspace in E1. destruct (bool_decide _) eqn:Eo in E1; [|done].
  apply bool_decide_eq_true in Eo. by exists t1.
Qed.

(** *** The workspace a request addresses *)

Definition addressed (c : Conn) (t : Library) (ws : Workspace) : Prop :=
  exists ten, tenant_at (tp_dir t) (Param "tenant_code" c) = Ok ten /\
    workspace_at (tp_dir t) (ten_ID ten) (Param "workspace_code" c) (requestEnvironment c) = Ok ws.

Lemma resolveWorkspace_addressed s c ws x : resolveWorkspace ts wss (s, c) = (Ok ws, x) ->
  addressed c (db_tables s) ws /\ x.2 = c /\ db_tables x.1 = db_tables s.
Proof.
  intros E. pose proof (resolveWorkspace_frame (s, c)) as Hf. rewrite E in Hf. unfold on_world in Hf. simpl in Hf.
  split; [|split; [|done] ].
  - apply bind_Ok in E as (c' & x1 & E1 & E). injection E1 as <- <-.
    apply bind_Ok in E as (ten & [s2 c2] & E1 & E). unfold up in E1. simpl in E1.
    destruct (of_directory _ s) as [r u] eqn:Ed. injection E1 as -> -> <-.
    pose proof (of_directory_frame (TenantRepo_GetByCode (Param "tenant_code" c)) (query_frame _ _) s) as Hd.
    rewrite Ed in Hd. simpl in Hd.
    apply focus_Ok in Ed as (d1 & d2 & Ed1 & [Et _]%query_Ok). rewrite Ed1 in Et.
    unfold up in E. simpl in E. destruct (of_directory _ s2) as [r u] eqn:Ew. injection E as -> _.
    apply focus_Ok in Ew as (d3 & d4 & Ed3 & [Ew _]%query_Ok). rewrite Ed3, Hd in Ew. exists ten. done.
  - apply bind_Ok in E as (c' & x1 & E1 & E). injection E1 as <- <-.
    apply bind_Ok in E as (ten & [s2 c2] & E1 & E). unfold up in E1, E. simpl in E1, E.
    destruct (of_directory _ s) as [r u]. injection E1 as _ _ <-. destruct (of_directory _ s2) as [r' u']. by injection E as _ <-.
Qed.

(** *** One request *)

(** What a request left is the library it found, or one within the workspace it
    addresses. *)
Definition confined_at (h : HandlerFunc Tpl) (x : Tpl * Conn) : Prop :=
  library_ok (db_tables x.1) -> library_ok (db_tables (h x).2.1) /\
  (db_tables (h x).2.1 = db_tables x.1 \/
   exists ws, addressed x.2 (db_tables x.1) ws /\ within (ws_ID ws) (db_tables x.1) (db_tables (h x).2.1)).

#[local] Abbreviation safe_at ws := (relates_at (on_world db_tables) (safely ws)).

Lemma frame_safe {A} ws (m : M (Tpl * Conn) A) x : frame m -> safe_at ws m x.
Proof. intros Hf. related relates_preserves. done. Qed.

Lemma frame_confined h x : frame h -> confined_at h x.
Proof. intros Hf Hok. specialize (Hf x). unfold on_world in Hf. rewrite Hf. auto. Qed.

Lemma with_workspace_confined k x :
  (forall ws x', db_tables x'.1 = db_tables x.1 -> safe_at (ws_ID ws) (k ws) x') -> confined_at (with_workspace ts wss k) x.
Proof.
  intros Hk Hok. unfold with_workspace, stored, try. destruct x as [s c]. simpl in *.
  pose proof (resolveWorkspace_frame (s, c)) as Hf. unfold on_world in Hf. simpl in Hf.
  destruct (resolveWorkspace ts wss (s, c)) as [ [ws|e] x1] eqn:E; simpl in *.
  - apply resolveWorkspace_addressed in E as (Ha & _ & Ht). specialize (Hk ws x1 Ht). unfold relates_at, safely, on_world in Hk.
    rewrite Ht in Hk. destruct (Hk Hok) as [? ?]. split; [done|]. right. eauto.
  - pose proof (mapStoreError_frame db_tables e x1) as He. unfold on_world in He. rewrite He, Hf. auto.
Qed.

Lemma checked_safe {A} ws (m : M Tpl A) k x :
  relates_at db_tables (safely ws) m x.1 ->
  (forall a x', (m x.1) = (Ok a, x'.1) -> x'.2 = x.2 -> safe_at ws (k a) x') -> safe_at ws (checked m k) x.
Proof.
  intros Hm Hk. related relates_at_try; [by apply relates_at_up|]. intros [a|e] x' E.
  - apply Hk; destruct x as [s c], x' as [s' c']; unfold up in E; simpl in *; destruct (m s); by simplify_eq.
  - apply frame_safe, mapTemplateError_frame.
Qed.

(** A check that only reads. *)
Lemma checked_read {A} ws (m : M Tpl A) k x : preserves db_tables m ->
  (forall a x', (m x.1) = (Ok a, x'.1) -> db_tables x'.1 = db_tables x.1 -> safe_at ws (k a) x') -> safe_at ws (checked m k) x.
Proof.
  intros Hm Hk. apply checked_safe; [related relates_preserves; done|]. intros a x' E _. apply Hk; [done|].
  specialize (Hm x.1). by rewrite E in Hm.
Qed.

Lemma path_id_safe ws name msg k x : (forall id, safe_at ws (k id) x) -> safe_at ws (path_id name msg k) x.
Proof.
  intros Hk. related relates_at_bind; [apply frame_safe; by intros []|]. intros c x' [= <- <-].
  destruct (uuid_Parse _); [apply Hk|apply frame_safe, WriteError_frame].
Qed.

Lemma bound_safe `{Binder A} ws (k : A -> HandlerFunc Tpl) x : (forall req, safe_at ws (k req) x) -> safe_at ws (bound k) x.
Proof.
  intros Hk. related relates_at_bind; [apply frame_safe; by intros []|]. intros c x' [= <- <-].
  destruct (Bind _); [apply Hk|apply frame_safe, WriteError_frame].
Qed.

Lemma answer_safe ws st v x : safe_at ws (JSON_reply st v) x.
Proof. apply frame_safe, write_frame. Qed.

(** The prologue of the version handlers. *)
Lemma mutable_template_confined k x :
  (forall ws id x', owned (ws_ID ws) (db_tables x'.1) id -> safe_at (ws_ID ws) (k ws id) x') ->
  confined_at (mutable_template ts wss k) x.
Proof.
  intros Hk. apply with_workspace_confined. intros ws x1 _. apply path_id_safe. intros id.
  apply checked_read; [apply mutable_frame|]. intros tpl x2 E Et. apply Hk. rewrite Et. by eapply mutable_owned.
Qed.

Lemma invalidate_safe ws o x : safe_at ws (invalidateResolvedTemplates templateInvalidator o) x.
Proof.
  apply frame_safe. unfold invalidateResolvedTemplates, invalidates_only in *.
  destruct templateInvalidator as [inv|]; [|apply preserves_ret]. destruct (invalidator_frame inv eq_refl) as [Ha Hi].
  apply preserves_ignore, preserves_up. by destruct o.
Qed.

Lemma createTemplate_safe ws x : safe_at ws (createTemplate (Some ws)) x.
Proof.
  apply bound_safe. intros req. repeat case_match; [apply frame_safe; apply WriteErrorDetails_frame|
    |apply frame_safe; apply WriteErrorDetails_frame].
  apply checked_safe; [|intros; apply answer_safe].
  related relates_at_bind; [related relates_preserves; apply db_now_frame|]. intros now s1 _.
  related relates_at_bind; [related relates_preserves; apply db_id_frame|]. intros id s2 _. by apply CreateTemplate_safe.
Qed.

Lemma Templates_CreateTemplate_confined x : confined_at (Templates_CreateTemplate ts wss) x.
Proof.
  apply with_workspace_confined. intros ws x1 _. destruct (ws_IsSystem ws); [apply createTemplate_safe|].
  related relates_at_stored; [apply frame_safe, preserves_up, resolveSystemWorkspace_frame|]. intros sys x2 _.
  destruct (negb _); [apply frame_safe, WriteError_frame|apply createTemplate_safe].
Qed.

Lemma policy_gate_safe ws tpl pol k x : safe_at ws k x -> safe_at ws (policy_gate tpl pol k) x.
Proof. intros Hk. unfold policy_gate. repeat case_match; try done; apply frame_safe, WriteError_frame. Qed.

Lemma setTemplateDisabled_confined d x :
  confined_at (with_workspace ts wss (fun ws => setTemplateDisabled wss templateInvalidator (Some ws) d)) x.
Proof.
  apply with_workspace_confined. intros ws x1 _. apply path_id_safe. intros id.
  apply checked_read; [apply access_frame|]. intros [ [tpl sys] pol] x2 _ _. apply policy_gate_safe.
  apply checked_safe; [destruct d; apply SetDisabled_safe|]. intros [] x3 _ _.
  related relates_at_bind; [apply invalidate_safe|]. intros _ x4 _. apply frame_safe, write_frame.
Qed.

Lemma Templates_ForkTemplate_confined x : confined_at (Templates_ForkTemplate ts wss templateInvalidator) x.
Proof.
  apply with_workspace_confined. intros ws x1 _. apply path_id_safe. intros id.
  apply checked_read; [apply access_frame|]. intros [ [tpl sys] pol] x2 _ _.
  repeat case_match; [apply frame_safe, WriteError_frame..|].
  apply checked_safe; [apply ForkTemplate_safe|]. intros f x3 _ _.
  related relates_at_bind; [apply invalidate_safe|]. intros _ x4 _. apply answer_safe.
Qed.

Lemma Templates_CreateVersion_confined x : confined_at (Templates_CreateVersion ts wss) x.
Proof.
  apply mutable_template_confined. intros ws id x1 Ho. apply bound_safe. intros req. cbv zeta.
  repeat case_match; [|apply frame_safe; apply WriteErrorDetails_frame..].
  apply checked_safe; [|intros; apply answer_safe].
  related relates_at_bind; [related relates_preserves; apply db_now_frame|]. intros now s1 E1. injection E1 as <- <-.
  related relates_at_bind; [related relates_preserves; apply db_id_frame|]. intros vid s2 E2. injection E2 as <- <-.
  by apply CreateVersion_safe.
Qed.

Lemma Templates_UpdateVersion_confined x : confined_at (Templates_UpdateVersion ts wss) x.
Proof.
  apply mutable_template_confined. intros ws id x1 Ho. apply path_id_safe. intros vid. apply bound_safe. intros req.
  apply checked_read; [apply GetVersionByID_frame|]. intros ver x2 (Ev & _)%query_did Et.
  destruct (tp_versions _ !! vid) as [v|] eqn:Hv; [|done]. injection Ev as ->.
  destruct (negb (is_draft ver)); [apply frame_safe, WriteError_frame|].
  destruct (bool_decide _) eqn:Hid; [apply bool_decide_eq_true in Hid|apply frame_safe, WriteError_frame]. simpl.
  match goal with |- context [match ?e with Ok _ => _ | Err _ => _ end] => destruct e end;
    [|apply frame_safe; apply WriteErrorDetails_frame].
  apply checked_safe; [apply UpdateVersion_safe|].
  - intros Hok w Hw. rewrite Et in Hok, Hw |- *. simpl in Hw. rewrite (versions_keyed _ Hok _ _ Hv), Hv in Hw.
    injection Hw as <-. by rewrite Hid.
  - intros [] x3 _ _. apply checked_read; [apply GetVersionByID_frame|]. intros updated x4 _ _. apply answer_safe.
Qed.

Lemma Templates_CloneVersion_confined x : confined_at (Templates_CloneVersion ts wss) x.
Proof.
  apply with_workspace_confined. intros ws x1 _. apply path_id_safe. intros id. apply path_id_safe. intros vid. cbv zeta.
  apply checked_read; [apply mutable_frame|]. intros tpl x2 E Et.
  assert (Ho : owned (ws_ID ws) (db_tables x2.1) id) by (rewrite Et; by eapply mutable_owned).
  apply checked_safe; [|intros; apply answer_safe]. unfold Template_CloneVersion.
  related relates_at_bind; [related relates_preserves; apply GetTemplateByID_frame|]. intros t s1 (_ & E1 & _)%query_did.
  destruct (negb _); [related relates_preserves; apply preserves_fail|].
  related relates_at_bind; [related relates_preserves; apply GetVersionByID_frame|]. intros v s2 (_ & E2 & _)%query_did.
  destruct (negb _); [related relates_preserves; apply preserves_fail|].
  apply CloneVersion_safe. by rewrite E2, E1.
Qed.

(** *** The reading handlers *)

Lemma checked_frame {A} (m : M Tpl A) k : preserves db_tables m -> (forall a, frame (k a)) -> frame (checked m k).
Proof.
  intros Hm Hk. apply preserves_try; [by apply preserves_up|]. intros [a|e]; [apply Hk|apply mapTemplateError_frame].
Qed.

Lemma path_id_frame name msg (k : uuid -> HandlerFunc Tpl) : (forall id, frame (k id)) -> frame (path_id name msg k).
Proof. intros Hk. apply preserves_bind; [apply conn_frame|]. intros c. destruct (uuid_Parse _); [apply Hk|apply WriteError_frame]. Qed.

Lemma locale_param_frame k : (forall l, frame (k l)) -> frame (locale_param k).
Proof. intros Hk. apply preserves_bind; [apply conn_frame|]. intros c. cbv zeta. case_match; [apply WriteError_frame|apply Hk]. Qed.

Lemma chain_frame ws : preserves db_tables (workspaceResolutionChain wss ws).
Proof.
  unfold workspaceResolutionChain. apply preserves_bind; [apply resolveSystemWorkspace_frame|]. intros sys.
  repeat case_match; apply preserves_ret.
Qed.
Lemma reads_frame h :
  h ∈ [Templates_GetVersion; Templates_ListVersions; Templates_GetLocale; Templates_ListLocales;
       ListByTemplateType ts wss] -> frame h.
Proof.
  rewrite !elem_of_cons. intros [->|[->|[->|[->|[->|Hin] ] ] ] ]; [..|by apply not_elem_of_nil in Hin].
  - apply path_id_frame. intros id. apply checked_frame; [apply query_frame|]. intros v. apply write_frame.
  - apply path_id_frame. intros id. apply checked_frame; [apply query_frame|]. intros v. apply write_frame.
  - apply path_id_frame. intros id. apply locale_param_frame. intros l. apply checked_frame; [apply query_frame|].
    intros v. apply write_frame.
  - apply path_id_frame. intros id. apply checked_frame; [apply query_frame|]. intros v. apply write_frame.
  - apply stored_frame; [apply resolveWorkspace_frame|]. intros ws. apply preserves_bind; [apply conn_frame|]. intros c.
    apply stored_frame; [apply preserves_up, chain_frame|]. intros [chain sys].
    apply stored_frame; [apply preserves_up|]; [unfold TemplateRepo_GetTypeBySlug; case_match; apply query_frame|]. intros ty.
    apply preserves_try; [apply preserves_up; unfold TemplateRepo_ResolveTemplate; case_match; apply query_frame|].
    intros [tpl|e]; [apply write_frame|]. case_match; [apply write_frame|apply mapStoreError_frame].
Qed.

(** The routes that read, and those whose writes check the template. *)
Definition confined_handlers : list (HandlerFunc Tpl) :=
  [Templates_CreateTemplate ts wss; Templates_DisableTemplate ts wss templateInvalidator;
   Templates_EnableTemplate ts wss templateInvalidator; Templates_ForkTemplate ts wss templateInvalidator;
   Templates_CreateVersion ts wss; Templates_UpdateVersion ts wss; Templates_CloneVersion ts wss]
  ++ [Templates_GetVersion; Templates_ListVersions; Templates_GetLocale; Templates_ListLocales; ListByTemplateType ts wss].

(** C12: whatever a request asks of the routes that create, disable, fork and
    edit templates, add and edit and clone versions, or read, the library stays
    well typed, and the only rows that change are of templates owned by the
    workspace the path names, of their versions and of their overrides. *)
Theorem template_writes_confined h x : h ∈ confined_handlers -> confined_at h x.
Proof.
  unfold confined_handlers. rewrite elem_of_app. intros [Hin|Hin]; [|by apply frame_confined, reads_frame].
  rewrite !elem_of_cons in Hin. destruct Hin as [->|[->|[->|[->|[->|[->|[->|Hin] ] ] ] ] ] ].
  - apply Templates_CreateTemplate_confined.
  - apply (setTemplateDisabled_confined true).
  - apply (setTemplateDisabled_confined false).
  - apply Templates_ForkTemplate_confined.
  - apply Templates_CreateVersion_confined.
  - apply Templates_UpdateVersion_confined.
  - apply Templates_CloneVersion_confined.
  - by apply not_elem_of_nil in Hin.
Qed.
End Handlers.
