(* ===== verification/TemplateRuns.v ===== *)
(** * Runs of the template library

    A library of two workspaces and the system workspace of their tenant: the
    theorems about templates at concrete calls and requests, what the handlers
    let through, and the resolver over the library and the PostgreSQL cache. *)
From stdpp Require Import base gmap strings list sorting.
From Stdlib Require Import ZArith NArith Ascii String Lia.
From S2P Require Import Prelude GoMonad Domain Ports Token Config Http.
From S2P Require Import Suppression Postgres Database Directory Auth Members Surface Templates.
From S2P Require Import Versions Publication Copies Inheritance TemplateHandlers TemplateSafety ControlRuns Cache Resolution.

#[local] Instance library_std : GoStd := ascii_std.
#[local] Instance library_codec : Codec := sample_codec.
#[local] Instance library_parsers : Parsers := {|
  uuid_Parse := fun s => match Atoi s with Some n => Ok (Z.to_N n) | None => Err (EMsg "invalid UUID") end;
  ParseAddress := fun s => Ok s;
|}.
#[local] Instance library_json : JSON (option fields_map) := {|
  Marshal := fun _ => Ok "{}";
  Unmarshal := fun s => if bool_decide (s = "{}") then Ok (Some ∅) else Err (EMsg "invalid character");
|}.
#[local] Instance library_range : MapRange := {| map_range := fun m => map_to_list m |}.
#[local] Instance library_range_laws : MapRangeLaws.
Proof. by split. Qed.
#[local] Instance bind_template : Binder CreateTemplateRequest := {| Bind := fun c => Ok (mkCreateTemplate (cn_RawBody c)) |}.
#[local] Instance bind_version : Binder CreateVersionRequest :=
  {| Bind := fun c => Ok (mkCreateVersion (cn_RawBody c) "" "" None "" "" "") |}.
#[local] Instance bind_locale : Binder SetLocaleRequest :=
  {| Bind := fun c => Ok (mkSetLocale (Some (cn_RawBody c)) None None None "") |}.

(** ** The library *)

Definition system : Workspace := {|
  ws_ID := 6; ws_LogicalWorkspaceID := 6; ws_TenantID := 1; ws_Code := "_system"; ws_Name := "System";
  ws_Environment := EnvironmentProd; ws_IsSystem := true; ws_IsActive := true; ws_OpenTrackingEnabled := false;
  ws_DefaultLocale := None; ws_TestRecipientMode := TestRecipientModeReplace; ws_TestRecipientAddresses := [];
  ws_AllowWorkspaceLocalTemplates := true; ws_AllowWorkspaceInheritedTemplateForks := true;
  ws_AllowWorkspaceLocalInjectors := true; ws_WorkspacePoliciesInitialized := true;
  ws_CreatedAt := 0; ws_UpdatedAt := 0; ws_DeletedAt := None |}.
Definition mart : Workspace := {|
  ws_ID := 7; ws_LogicalWorkspaceID := 7; ws_TenantID := 1; ws_Code := "mart"; ws_Name := "Mart";
  ws_Environment := EnvironmentProd; ws_IsSystem := false; ws_IsActive := true; ws_OpenTrackingEnabled := false;
  ws_DefaultLocale := None; ws_TestRecipientMode := TestRecipientModeReplace; ws_TestRecipientAddresses := [];
  ws_AllowWorkspaceLocalTemplates := true; ws_AllowWorkspaceInheritedTemplateForks := true;
  ws_AllowWorkspaceLocalInjectors := true; ws_WorkspacePoliciesInitialized := true;
  ws_CreatedAt := 0; ws_UpdatedAt := 0; ws_DeletedAt := None |}.

Definition welcome : TemplateType := {|
  tt_ID := 20; tt_WorkspaceID := Some 6%N; tt_Slug := "welcome"; tt_Name := "Welcome"; tt_Description := None;
  tt_AdapterID := None; tt_SenderIdentityID := None; tt_VariableSchema := Some ∅; tt_TestRecipientMode := None;
  tt_TestRecipientAddresses := []; tt_OwnerScope := ""; tt_InheritedFromSystem := false; tt_IsBulk := false;
  tt_CreatedAt := 0; tt_UpdatedAt := 0; tt_DeletedAt := None |}.
Definition template (id ws : uuid) : Template := mkTemplate id 20 (Some ws) false false None "" false 0 0 None.
Definition words (subject : string) : Content := mkContent subject "" "Acme" None "<mjml/>" "en" (Some ∅).
Definition version (id templateID : uuid) (n : Z) (status : VersionStatus) : TemplateVersion :=
  mk_version id templateID n status (words "Hi") None (if decide (status = VersionStatusDraft) then None else Some 1%Z) None 0 0.

(** The system workspace's template 30 has a published version with an
    override; the templates of the two workspaces have one draft each. *)
Definition library : Library := {|
  tp_dir := set_workspaces (fun _ => {[5%N := shop; 6%N := system; 7%N := mart]}) small_tables;
  tp_adapters := ∅; tp_identities := ∅;
  tp_types := {[20%N := welcome]};
  tp_templates := {[30%N := template 30 6; 31%N := template 31 5; 32%N := template 32 7]};
  tp_versions := {[40%N := version 40 30 1 VersionStatusPublished; 41%N := version 41 31 1 VersionStatusDraft;
                   42%N := version 42 32 1 VersionStatusDraft]};
  tp_locales := {[50%N := mkTemplateVersionLocale 50 40 "es" (Some "Hola") None None None None 0 0]};
|}.
Definition library_db : Tpl := mkDB library 100 60 [] [].

(** The invariant is decidable on a concrete library. *)
Lemma every_row {A} (P : uuid -> A -> Prop) `{forall i x, Decision (P i x)} (m : gmap uuid A) :
  bool_decide (map_Forall P m) = true -> forall id r, m !! id = Some r -> P id r.
Proof. intros Hp%bool_decide_eq_true id r. apply Hp. Qed.

Lemma every_pair {A} (same : A -> A -> bool) (m : gmap uuid A) :
  bool_decide (map_Forall (fun i x => map_Forall (fun j y => same x y = true -> i = j) m) m) = true -> unique_by same m.
Proof. intros Hp%bool_decide_eq_true i j x y Hx Hy. exact (Hp i x Hx j y Hy). Qed.

Lemma library_fine : library_ok library.
Proof.
  split; first [apply every_pair; vm_compute; reflexivity
               |unfold keyed; eapply every_row; vm_compute; reflexivity ].
Qed.

(** ** Calls *)

(** A version is published, its successor is published, both are attacked. *)
Lemma template_history_witness :
  let ops := [OpCloneVersion 31 41 None; OpPublish 41; OpPublish 60; OpDeleteDraftVersion 41;
              OpUpdateVersion (version 40 30 1 VersionStatusDraft); OpForkTemplate 30 5 None; OpSoftDeleteTemplate 30] in
  let after := db_tables (template_calls ops library_db).2 in
  ver_Status <$> tp_versions after !! 41%N = Some VersionStatusArchived /\
  ver_Status <$> tp_versions after !! 60%N = Some VersionStatusPublished /\
  library_ok after /\ exists v, tp_versions after !! 40%N = Some v /\ content v = words "Hi".
Proof.
  intros ops after. split; [vm_compute; reflexivity|]. split; [vm_compute; reflexivity|].
  destruct (template_history ops library_db library_fine) as [Hok Hv]. split; [exact Hok|].
  destruct (Hv 40%N (version 40 30 1 VersionStatusPublished)) as (v & E & Hc & _); [reflexivity|discriminate|].
  exists v. split; [exact E|exact Hc].
Defined.

(** The second version of a template archives the first. *)
Definition two_versions : Tpl :=
  mkDB (set_versions (<[43%N := version 43 30 2 VersionStatusDraft]>) library) 100 60 [] [].
Lemma two_versions_fine : library_ok (db_tables two_versions).
Proof.
  split; first [apply every_pair; vm_compute; reflexivity
               |unfold keyed; eapply every_row; vm_compute; reflexivity].
Qed.

Lemma Publish_exact_witness :
  let run := Publish 43 two_versions in
  run.1 = Ok tt /\ ver_Status <$> tp_versions (db_tables run.2) !! 40%N = Some VersionStatusArchived /\
  rows (fun w => of_template 30 w && published w) (tp_versions (db_tables run.2)) = [published_at 100 (version 43 30 2 VersionStatusDraft)].
Proof.
  intros run. split; [vm_compute; reflexivity|]. split; [vm_compute; reflexivity|].
  destruct (Publish_exact 43 two_versions run.1 run.2 two_versions_fine (surjective_pairing run)) as
    [ [ [Hf _]|(v & now & Hd & _ & Hr & _)] _]; [vm_compute in Hf; discriminate|].
  assert (Hv : v = version 43 30 2 VersionStatusDraft) by (vm_compute in Hd; injection Hd as <-; reflexivity).
  subst v. change (ver_TemplateID (version 43 30 2 VersionStatusDraft)) with 30%N in Hr. rewrite Hr.
  vm_compute in Hr. injection Hr as <-. reflexivity.
Defined.

Lemma CloneVersion_exact_witness :
  let run := TemplateRepo_CloneVersion 30 40 None library_db in
  is_ok run.1 = true /\
  exists c, run.1 = Ok c /\ content c = words "Hi" /\ ver_VersionNumber c = 2%Z /\ overrides (ver_ID c) (db_tables run.2) <> [].
Proof.
  intros run. split; [vm_compute; reflexivity|].
  destruct (CloneVersion_exact 30 40 None library_db run.1 run.2 library_fine (surjective_pairing run)) as
    [ [Hf _]|(v & c & Hv & _ & Hc & _ & _ & _ & _ & [Hr|Hr])]; [vm_compute in Hf; discriminate| |vm_compute in Hr; discriminate].
  exists c. split; [exact Hr|]. split; [rewrite Hc; injection Hv as <-; reflexivity|].
  vm_compute in Hr. injection Hr as <-. split; [reflexivity|vm_compute; discriminate].
Defined.

Lemma ForkTemplate_exact_witness :
  let run := TemplateRepo_ForkTemplate 30 7 None
               (mkDB (set_templates (delete 32%N) (set_versions (delete 42%N) library)) 100 60 [] []) in
  is_ok run.1 = true /\
  exists f, run.1 = Ok f /\ tpl_WorkspaceID f = Some 7%N /\ tpl_OriginTemplateID f = Some 30%N /\
    tp_templates (db_tables run.2) !! 31%N = Some (template 31 5).
Proof.
  intros run. split; [vm_compute; reflexivity|].
  assert (Hok : library_ok (set_templates (delete 32%N) (set_versions (delete 42%N) library))).
  { split; first [apply every_pair; vm_compute; reflexivity
                 |unfold keyed; eapply every_row; vm_compute; reflexivity]. }
  destruct (ForkTemplate_exact 30 7 None
              (mkDB (set_templates (delete 32%N) (set_versions (delete 42%N) library)) 100 60 [] []) run.1 run.2 Hok (surjective_pairing run)) as
    [ [Hf _]|(source & f & pairs & Hs & Hf & _ & [Hr|Hr])]; [vm_compute in Hf; discriminate| |vm_compute in Hr; discriminate].
  exists f. split; [exact Hr|]. destruct (forked_template _ _ _ _ _ _ _ Hf) as (_ & Hw & _ & _ & Ho & _).
  split; [exact Hw|]. injection Hs as <-. split; [exact Ho|].
  rewrite (forked_templates _ _ _ _ _ _ _ Hf). vm_compute in Hr. injection Hr as <-. reflexivity.
Defined.

(** ** Requests *)

Definition lib_tenants : TenantStore.t Tpl := LibTenants (fun _ _ => true).
Definition lib_workspaces : WorkspaceStore.t Tpl := LibWorkspaces (fun _ _ => true).

(** A request about the template, version and locale of a workspace's path. *)
Definition library_request (workspace templateID versionID body : string) : Conn :=
  request "POST" [("tenant_code", "acme"); ("workspace_code", workspace); ("template_id", templateID);
                  ("version_id", versionID); ("locale", "es")] "" body.

(** The draft of the workspace's own template is edited. *)
Lemma template_writes_confined_witness :
  let h := Templates_UpdateVersion lib_tenants lib_workspaces in
  let run := h (library_db, library_request "shop" "31" "41" "Hello") in
  ver_Subject <$> tp_versions (db_tables run.2.1) !! 41%N = Some "Hello" /\
  library_ok (db_tables run.2.1) /\ within 5 library (db_tables run.2.1).
Proof.
  intros h run. split; [vm_compute; reflexivity|].
  assert (Hin : h ∈ confined_handlers (fun _ _ => true) None) by (apply (list_elem_of_lookup_2 _ 5); reflexivity).
  assert (Hinv : invalidates_only None) by discriminate.
  destruct (template_writes_confined (fun _ _ => true) None Hinv h (library_db, library_request "shop" "31" "41" "Hello")
              Hin library_fine) as [Hok [E|(ws & (ten & Ht & Hw) & Hc)] ].
  - exfalso. apply (f_equal (fun t => ver_Subject <$> tp_versions t !! 41%N)) in E. vm_compute in E. discriminate.
  - split; [exact Hok|]. vm_compute in Ht. injection Ht as <-. vm_compute in Hw. injection Hw as <-. exact Hc.
Defined.

(** ** What the handlers let through

    The routes of one workspace's template, with the version of another's. *)
Definition status_of (c : Conn) : list Z := rp_Status <$> cn_Replies c.

Lemma foreign_publish :
  let run := Templates_PublishVersion lib_tenants lib_workspaces (library_db, library_request "shop" "31" "42" "") in
  status_of run.2.2 = [204%Z] /\
  ver_Status <$> tp_versions (db_tables run.2.1) !! 42%N = Some VersionStatusPublished.
Proof. vm_compute. auto. Qed.

Lemma foreign_delete :
  let run := Templates_DeleteVersion lib_tenants lib_workspaces (library_db, library_request "shop" "31" "42" "") in
  status_of run.2.2 = [204%Z] /\ tp_versions (db_tables run.2.1) !! 42%N = None.
Proof. vm_compute. auto. Qed.

(** A published version of the system workspace gets another text. *)
Lemma foreign_locale :
  let run := Templates_UpdateLocale lib_tenants lib_workspaces (library_db, library_request "shop" "31" "40" "Buh") in
  status_of run.2.2 = [200%Z] /\
  loc_Subject <$> tp_locales (db_tables run.2.1) !! 50%N = Some (Some "Buh").
Proof. vm_compute. auto. Qed.

(** A template of the system workspace without a published version is deleted
    through a workspace that only inherits it. *)
Definition unpublished : Tpl :=
  mkDB (set_versions (fun _ => ∅) (set_locales (fun _ => ∅) library)) 100 60 [] [].
Lemma inherited_deleted :
  let run := Templates_DeleteTemplate lib_tenants lib_workspaces (unpublished, library_request "shop" "30" "" "") in
  status_of run.2.2 = [204%Z] /\
  (tpl_DeletedAt <$> tp_templates (db_tables run.2.1) !! 30%N) = Some (Some 100%Z).
Proof. vm_compute. auto. Qed.

(** One failed query, and a template with a published version is deleted. *)
Lemma published_deleted :
  let run := DeleteTemplate 30 (mkDB library 100 60 [] [FaultBefore "connection reset"]) in
  run.1 = Ok tt /\ (tpl_DeletedAt <$> tp_templates (db_tables run.2) !! 30%N) = Some (Some 100%Z).
Proof. vm_compute. auto. Qed.

(** The slot of a deleted template stays taken. *)
Lemma slot_lost :
  let deleted := (DeleteTemplate 31 library_db).2 in
  let run := Templates_CreateTemplate lib_tenants lib_workspaces (deleted, library_request "shop" "" "" "20") in
  (tpl_DeletedAt <$> tp_templates (db_tables deleted) !! 31%N) = Some (Some 100%Z) /\
  status_of run.2.2 = [409%Z] /\ db_tables run.2.1 = db_tables deleted.
Proof. vm_compute. auto. Qed.

(** The routes of the global templates address no workspace. *)
Lemma global_version_routes_dead body :
  let c := request "POST" [("template_id", "31"); ("version_id", "41")] "" body in
  status_of (Templates_PublishVersion lib_tenants lib_workspaces (library_db, c)).2.2 = [404%Z].
Proof. reflexivity. Qed.

(** ** The resolver over the library

    The world has the cache's tables and the library's. *)

Definition Shelf : Type := Sys * Tpl.

Definition ShelfCache : Cache Shelf := {|
  cache_Get := fun key => up (PGCache_Get key);
  cache_Set := fun key v ttl => up (PGCache_Set key v ttl);
  cache_Delete := fun key => up (PGCache_Delete key);
  cache_DeletePattern := fun p => up (PGCache_DeletePattern p);
  cache_ScopeCache := None;
|}.
Definition ShelfWorkspaces : WorkspaceStore.t Shelf := {|
  WorkspaceStore.GetByID := fun id => down (WorkspaceStore.GetByID lib_workspaces id);
  WorkspaceStore.GetByTenantAndCode := fun t code env => down (WorkspaceStore.GetByTenantAndCode lib_workspaces t code env);
  WorkspaceStore.GetSystemWorkspace := fun t env => down (WorkspaceStore.GetSystemWorkspace lib_workspaces t env);
  WorkspaceStore.ListByTenant := fun t env limit cursor => down (WorkspaceStore.ListByTenant lib_workspaces t env limit cursor);
|}.
Definition ShelfTemplates : TemplateStore.t Shelf := {|
  TemplateStore.GetTypeBySlug := fun slug chain => down (TemplateRepo_GetTypeBySlug slug chain);
  TemplateStore.ResolveTemplate := fun ty chain => down (TemplateRepo_ResolveTemplate ty chain);
  TemplateStore.GetPublishedVersion := fun id => down (TemplateRepo_GetPublishedVersion id);
  TemplateStore.GetLocale := fun id l => down (TemplateRepo_GetLocale id l);
|}.

Definition shelf_cells : Shelf -> gmap string string := on_world pg_cells.
Definition shelf_data (x : Shelf) : Library := db_tables x.2.
Definition shelf_ready (x : Shelf) : Prop := db_faults x.2 = [].

#[local] Instance ShelfCache_laws : CacheLaws ShelfCache shelf_cells.
Proof.
  split; unfold shelf_cells, on_world; simpl; intros key.
  - intros [s t] d [s' t']. unfold up. destruct (PGCache_Get key s) as [r s1] eqn:E. intros [= -> -> ->].
    exact (cache_Get_hit (cache := PGCache) key s d s' E).
  - intros [s t] k d. unfold up. pose proof (cache_Get_cells (cache := PGCache) key s k d) as Hc. simpl in *.
    by destruct (PGCache_Get key s).
  - intros v ttl [s t] k d. unfold up. pose proof (cache_Set_cells (cache := PGCache) key v ttl s k d) as Hc. simpl in *.
    by destruct (PGCache_Set key v ttl s).
Qed.

Lemma up_undisturbed {A} (m : M Sys A) : undisturbed shelf_data shelf_ready (up m).
Proof. intros [s t]. unfold shelf_data, shelf_ready, up. simpl. by destruct (m s). Qed.

Lemma query_stable {A} wrap (f : Library -> Res A) : stable shelf_cells shelf_data shelf_ready (down (query wrap f)).
Proof.
  assert (E : forall (s : Sys) t, db_faults t = [] -> down (query wrap f) (s, t) = (f (db_tables t), (s, t))).
  { intros s t Ht. unfold down, query, exec, apply_stmt. rewrite Ht. simpl. by destruct t. }
  split; unfold shelf_ready, shelf_data, shelf_cells, on_world.
  - intros [s t] [s' t'] Ht Ht'. simpl in *. rewrite !E by done. simpl. by intros ->.
  - intros [s t] Ht. by rewrite E.
  - intros [s t] Ht. by rewrite E.
  - intros [s t] Ht. by rewrite E.
Qed.

Lemma directory_stable {A} wrap (f : Tables -> Res A) :
  stable shelf_cells shelf_data shelf_ready (down (of_directory (query wrap f))).
Proof.
  destruct (query_stable wrap (fun l => f (tp_dir l))) as [Hs Hc Hd Hr].
  assert (E : forall x, shelf_ready x -> down (of_directory (query wrap f)) x = down (query wrap (fun l => f (tp_dir l))) x).
  { intros [s t] Ht. unfold shelf_ready in Ht. simpl in Ht. unfold down, of_directory, query, exec, apply_stmt. simpl.
    rewrite Ht. simpl. destruct t as [ []]. simpl in *. by subst. }
  split; intros; rewrite !E by done; auto.
Qed.

Lemma type_stable slug chain : stable shelf_cells shelf_data shelf_ready (down (TemplateRepo_GetTypeBySlug slug chain)).
Proof. unfold TemplateRepo_GetTypeBySlug. destruct (splitChain chain). apply query_stable. Qed.
Lemma template_stable id chain : stable shelf_cells shelf_data shelf_ready (down (TemplateRepo_ResolveTemplate id chain)).
Proof. unfold TemplateRepo_ResolveTemplate. destruct (splitChain chain). apply query_stable. Qed.

(** *** The codecs of the cached values *)

Fixpoint any_eq (a b : any) {struct a} : {a = b} + {a <> b}.
Proof.
  assert (Hpair : forall (A B : Type) (x x' : A) (y y' : B), {x = x'} + {x <> x'} -> {y = y'} + {y <> y'} ->
    {(x, y) = (x', y')} + {(x, y) <> (x', y')}) by (intros ?????? [] []; first [left; congruence|right; congruence]).
  assert (Hcons : forall (A : Type) (x x' : A) (l l' : list A), {x = x'} + {x <> x'} -> {l = l'} + {l <> l'} ->
    {x :: l = x' :: l'} + {x :: l <> x' :: l'}) by (intros ????? [] []; first [left; congruence|right; congruence]).
  destruct a as [|x|x|x|x|l|m], b as [|y|y|y|y|l'|m']; try (right; discriminate); [by left|..].
  - destruct (decide (x = y)); [left|right]; congruence.
  - destruct (decide (x = y)); [left|right]; congruence.
  - destruct (decide (x = y)); [left|right]; congruence.
  - destruct (decide (x = y)); [left|right]; congruence.
  - assert (D : {l = l'} + {l <> l'}); [|destruct D; [left|right]; congruence].
    revert l'. induction l as [|x l IH]; intros [|y l']; [by left|by right..|]. apply Hcons; [apply any_eq|apply IH].
  - assert (D : {m = m'} + {m <> m'}); [|destruct D; [left|right]; congruence].
    revert m'. induction m as [|[k x] m IH]; intros [|[k' y] m']; [by left|by right..|].
    apply Hcons; [apply Hpair; [apply (decide (k = k'))|apply any_eq]|apply IH].
Defined.
#[local] Instance any_decision : EqDecision any := any_eq.
#[local] Instance mode_eq : EqDecision TestRecipientMode.
Proof. solve_decision. Defined.
#[local] Instance type_eq : EqDecision TemplateType.
Proof. solve_decision. Defined.
#[local] Instance template_eq : EqDecision Template.
Proof. solve_decision. Defined.
#[local] Instance version_eq : EqDecision TemplateVersion.
Proof. solve_decision. Defined.
#[local] Instance locale_eq : EqDecision TemplateVersionLocale.
Proof. solve_decision. Defined.
#[local] Instance chain_eq : EqDecision ResolutionChain.
Proof. solve_decision. Defined.
#[local] Instance resolved_eq : EqDecision ResolvedTemplate.
Proof. solve_decision. Defined.

(** The shop's own template is gone: the system workspace's is resolved. *)
Definition shelf : Shelf :=
  (empty_sys, mkDB (set_templates (delete 31%N) (set_versions (delete 41%N) library)) 100 60 [] []).

Definition shop_chain : ResolutionChain := mkResolutionChain 5 6 1 [Some 5%N; Some 6%N].
Definition in_language (l : option TemplateVersionLocale) : ResolvedTemplate :=
  mkResolvedTemplate (template 30 6) (version 40 30 1 VersionStatusPublished) l welcome.
Definition spanish : TemplateVersionLocale := mkTemplateVersionLocale 50 40 "es" (Some "Hola") None None None None 0 0.

(** The values of these runs. *)
#[local] Instance run_chain_json : JSON ResolutionChain := {|
  Marshal := fun c => if bool_decide (c = shop_chain) then Ok "chain" else Err (EMsg "json: unsupported value");
  Unmarshal := fun d => if bool_decide (d = "chain") then Ok shop_chain else Err (EMsg "unexpected end of JSON input");
|}.
#[local] Instance run_chain_laws : JSONLaws ResolutionChain.
Proof. split. intros c d. simpl. case_bool_decide as Ec; [|done]. intros [= <-]. by subst c. Qed.
#[local] Instance run_template_json : JSON ResolvedTemplate := {|
  Marshal := fun t => if bool_decide (t = in_language None) then Ok "own"
                      else if bool_decide (t = in_language (Some spanish)) then Ok "es" else Err (EMsg "json: unsupported value");
  Unmarshal := fun d => if bool_decide (d = "own") then Ok (in_language None)
                        else if bool_decide (d = "es") then Ok (in_language (Some spanish)) else Err (EMsg "unexpected end of JSON input");
|}.
#[local] Instance run_template_laws : JSONLaws ResolvedTemplate.
Proof.
  split. intros t d. simpl. case_bool_decide as E1; [intros [= <-]; by subst t|].
  case_bool_decide as E2; [intros [= <-]; by subst t|done].
Qed.

(** *** Resolutions *)

Definition resolve (slug : string) (locale : option string) : M Shelf ResolvedTemplate :=
  TemplateResolver_Resolve ShelfCache ShelfWorkspaces ShelfTemplates 5 slug locale.
Definition from_database (slug : string) (locale : option string) : M Shelf ResolvedTemplate :=
  fresh_template ShelfWorkspaces ShelfTemplates 5 slug locale.
Definition cached (slug : string) (locale : option string) (x : Shelf) : Res string :=
  (cache_Get ShelfCache (resolvedTemplateCacheKey 5 slug locale) x).1.

Lemma shelf_coherent : coherent shelf_cells ShelfWorkspaces ShelfTemplates shelf_ready shelf.
Proof. by split. Qed.

(** The first resolution fills both caches; the second is answered by the
    template cache with what the database has. *)
Lemma TemplateResolver_transparent_witness :
  let x1 := (resolve "welcome" (Some "es-CL") shelf).2 in
  (resolve "welcome" (Some "es-CL") shelf).1 = Ok (in_language (Some spanish)) /\
  cached "welcome" (Some "es-CL") x1 = Ok "es" /\
  (resolve "welcome" (Some "es-CL") x1).1 = (from_database "welcome" (Some "es-CL") x1).1.
Proof.
  intros x1. split; [vm_compute; reflexivity|]. split; [vm_compute; reflexivity|]. pose proof ascii_std_uuid as HU.
  assert (Hq : wf_query "welcome" (Some "es-CL")) by (split; [reflexivity|discriminate]).
  pose proof (TemplateResolver_transparent ShelfCache shelf_cells ShelfWorkspaces ShelfTemplates shelf_data shelf_ready
    (fun _ => up_undisturbed _) (fun _ _ _ => up_undisturbed _) (fun _ => directory_stable _ _) (fun _ _ => directory_stable _ _)
    type_stable template_stable (fun _ => query_stable _ _) (fun _ _ => query_stable _ _) 5 "welcome" (Some "es-CL")) as Ht.
  destruct (Ht shelf shelf_coherent Hq) as (_ & Hc & _).
  exact (proj1 (Ht x1 Hc Hq)).
Defined.

(** A type the database does not have is answered from the cache, after a
    resolution whose key collides with its. *)
Lemma unknown_type_resolved :
  let x1 := (resolve "welcome" (Some "es:_default") shelf).2 in
  ParseRef "acme:shop:welcome:es" = Ok (mkTemplateRef "acme" "shop" "welcome:es") /\
  (from_database "welcome:es" None x1).1 = Err (EWrap "" (ESent ErrTemplateTypeNotFound) ": welcome:es") /\
  (resolve "welcome:es" None x1).1 = Ok (in_language None).
Proof. split_and!; vm_compute; reflexivity. Qed.
