(* ===== verification/FleetRuns.v ===== *)
(** * Runs of the control plane over the fleet

    Tenants, workspaces and keys at concrete requests: a workspace of one tenant,
    its twin in the test environment and an SES adapter. *)
From stdpp Require Import base gmap strings list sorting.
From Stdlib Require Import ZArith NArith Ascii String Lia.
From S2P Require Import Prelude GoMonad Domain Ports Token Config Http Suppression Postgres Database Directory.
From S2P Require Import Auth Members Roles Gates Surface Authority Keys Listings ControlRuns Inheritance Hosted Templates Versions TemplateRuns.
From S2P Require Import Fleet TemplateHandlers TenantHandlers TenantSafety TenantGuard.

#[local] Instance fleet_std : GoStd := ascii_std.
#[local] Instance fleet_codec : Codec := sample_codec.
#[local] Instance fleet_sha : Sha256 := {| sha256 := fun m => "s" +:+ m |}.
#[local] Instance fleet_parsers : Parsers := {|
  uuid_Parse := fun s => match Atoi s with Some n => Ok (Z.to_N n) | None => Err (EMsg "invalid UUID") end;
  ParseAddress := fun s => Ok s;
|}.
#[local] Instance bind_new_tenant : Binder CreateTenantRequest := {| Bind := fun c => Ok (mkCreateTenant (cn_RawBody c) "New") |}.
#[local] Instance bind_tenant : Binder UpdateTenantRequest := {| Bind := fun c => Ok (mkUpdateTenant (Some (cn_RawBody c)) None) |}.
#[local] Instance bind_new_workspace : Binder CreateWorkspaceRequest :=
  {| Bind := fun c => Ok (mkCreateWorkspace (cn_RawBody c) "New" None) |}.
#[local] Instance bind_workspace : Binder UpdateWorkspaceRequest :=
  {| Bind := fun c => Ok (mkUpdateWorkspace None (Some (cn_RawBody c)) None None None (Some "nowhere") None) |}.
#[local] Instance bind_policy : Binder UpdateWorkspacePolicyRequest :=
  {| Bind := fun _ => Ok (mkUpdatePolicy (Some false) None None) |}.
#[local] Instance bind_key : Binder CreateAPIKeyRequest := {| Bind := fun c => Ok (mkCreateAPIKey (cn_RawBody c)) |}.

(** ** The fleet *)

Definition shop_test : Workspace := {|
  ws_ID := 8; ws_LogicalWorkspaceID := 5; ws_TenantID := 1; ws_Code := "shop"; ws_Name := "Shop";
  ws_Environment := EnvironmentTest; ws_IsSystem := false; ws_IsActive := true; ws_OpenTrackingEnabled := false;
  ws_DefaultLocale := None; ws_TestRecipientMode := TestRecipientModeReplace; ws_TestRecipientAddresses := [];
  ws_AllowWorkspaceLocalTemplates := true; ws_AllowWorkspaceInheritedTemplateForks := true;
  ws_AllowWorkspaceLocalInjectors := true; ws_WorkspacePoliciesInitialized := true;
  ws_CreatedAt := 0; ws_UpdatedAt := 0; ws_DeletedAt := None |}.
Definition ses_or_smtp (id ws : uuid) (kind : AdapterType) : Adapter :=
  mkAdapter id (Some ws) "mail" kind "" true 10 ∅ 0 0 None.
Definition fleet (adapters : gmap uuid Adapter) : Fleet :=
  mkFleet (set_workspaces (fun _ => {[5%N := shop; 6%N := system; 8%N := shop_test]}) small_tables) adapters ∅ ∅ ∅ ∅ [] ∅.
(** The twin's adapter is an SES one; the shop's is not. *)
Definition guarded : Fleet := fleet {[60%N := ses_or_smtp 60 5 AdapterTypeSMTP; 61%N := ses_or_smtp 61 8 AdapterTypeSES]}.
Definition unguarded : Fleet := fleet {[60%N := ses_or_smtp 60 5 AdapterTypeSMTP]}.
Definition fleet_db (t : Fleet) : Flt := mkDB t 100 70 ["0123456789abcdef"] [].

Lemma fleet_directory ads : keyed_directory (fl_dir (fleet ads)).
Proof.
  split; [|by intros id k]. unfold keyed. apply (every_row (fun id w => ws_ID w = id) (H := fun id w => N.eq_dec _ _)). vm_compute. reflexivity.
Qed.

Lemma fleet_roles ads id a : tb_roles (fl_dir (fleet ads)) !! id = Some a -> role_scope_check a = true.
Proof.
  revert id a. apply (every_row (fun _ a => role_scope_check a = true) (H := fun _ a => bool_eq_dec _ _)). vm_compute. reflexivity.
Qed.

Lemma fleet_fine ads : table_ok ad_ID ads -> fleet_ok (fleet ads).
Proof.
  intros Hads. split; [| | |exact Hads|].
  - intros id t. simpl. rewrite lookup_singleton_Some. by intros [<- <-].
  - unfold table_ok. apply (every_row (fun id w => ws_ID w = id /\ wf_uuid id) (H := fun id w => and_dec (N.eq_dec _ _) (N.lt_dec _ _))).
    vm_compute. reflexivity.
  - apply (every_row (fun _ w => Environment_Valid (ws_Environment w) = true) (H := fun _ w => bool_eq_dec _ _)). vm_compute. reflexivity.
  - intros i j w w' Hi Hj Hb. pose proof (every_pair both_system (tb_workspaces (fl_dir (fleet ads))) ltac:(vm_compute; reflexivity)) as Hu.
    by eapply Hu.
Qed.

(** ** Requests *)

Definition fleet_idp (token : string) : M Flt OIDCClaims :=
  if bool_decide (token = "jwt") then ret (mkClaims "adm" "admin@x.io" "idp") else fail (EMsg "invalid signature").
Lemma fleet_idp_frame token : preserves db_tables (fleet_idp token).
Proof. unfold fleet_idp. by case_bool_decide. Qed.

Definition purge (_ : uuid) : M Flt unit := ret tt.
Lemma purge_tables id : preserves db_tables (purge id).
Proof. done. Qed.
Definition fleet_adapters := Some Adapters_ListByWorkspace.
Definition policy_request : Conn := request "PUT" [("tenant_code", "acme"); ("workspace_code", "_system")] "jwt" "".
Definition shop_request (body : string) : Conn := request "PUT" [("tenant_code", "acme"); ("workspace_code", "shop")] "jwt" body.
Definition policy_route : Route Flt :=
  mkRoute "PUT" "/tenants/:tenant_code/workspaces/:workspace_code/policies" RoleTenantAdmin (Policies_Update (fun _ _ => true)).

(** The tenant's admin closes the local templates of the tenant's workspaces;
    a request for an ordinary workspace is refused. *)
Lemma control_plane_confined_witness :
  let ask c := handle_hosted (fun _ _ => true) fleet_idp "pepper" policy_route (fleet_db guarded, c) in
  let run := ask policy_request in let refused := ask (shop_request "") in
  ws_AllowWorkspaceLocalTemplates <$> tb_workspaces (fl_dir (db_tables run.2.1)) !! 6%N = Some false /\
  db_tables refused.2.1 = guarded /\
  exists reach, granted fleet_idp policy_request (fl_dir guarded) reach /\ confined reach (fl_dir guarded) (fl_dir (db_tables run.2.1)).
Proof.
  intros ask run refused.
  assert (Hd : ws_AllowWorkspaceLocalTemplates <$> tb_workspaces (fl_dir (db_tables run.2.1)) !! 6%N = Some false) by (vm_compute; reflexivity).
  split; [exact Hd|]. split; [vm_compute; reflexivity|].
  pose proof (control_plane_confined (fun _ _ => true) 4 purge "pepper" purge_tables fleet_idp fleet_idp_frame
    (fleet_db guarded) policy_request run.1 run.2) as Hall.
  specialize (Hall eq_refl). specialize (Hall (fleet_directory _)). specialize (Hall (fleet_roles _)). specialize (Hall policy_route).
  assert (Hin : policy_route ∈ control_routes (fun _ _ => true) fleet_adapters 4 purge (FleetKeys "pepper"))
    by (apply (list_elem_of_lookup_2 _ 15); reflexivity).
  specialize (Hall Hin). specialize (Hall (surjective_pairing run)). clearbody run. destruct Hall as [E|(reach & Hg & _ & Hc)].
  - exfalso. rewrite E in Hd. vm_compute in Hd. discriminate.
  - exists reach. split; [exact Hg|exact Hc].
Defined.

(** The adapter of the test twin holds the tenant back. *)
Lemma SoftDelete_guarded_witness :
  let delete t := Tenants_SoftDelete (fun _ _ => true) fleet_adapters 4 (fleet_db t, shop_request "") in
  status_of (delete guarded).2.2 = [409%Z] /\ status_of (delete unguarded).2.2 = [204%Z] /\
  (exists ws a, blocking guarded 1 ws a) /\ (exists ten', ten_DeletedAt ten' <> None /\ tb_tenants (fl_dir (db_tables (delete unguarded).2.1)) !! 1%N = Some ten').
Proof.
  intros delete. assert (Eg : status_of (delete guarded).2.2 = [409%Z]) by (vm_compute; reflexivity).
  assert (Eu : status_of (delete unguarded).2.2 = [204%Z]) by (vm_compute; reflexivity). split; [exact Eg|]. split; [exact Eu|].
  assert (Hads : table_ok ad_ID (fl_adapters guarded) /\ table_ok ad_ID (fl_adapters unguarded)).
  { split; unfold table_ok; apply (every_row (fun id a => ad_ID a = id /\ wf_uuid id) (H := fun id a => and_dec (N.eq_dec _ _) (N.lt_dec _ _)));
      vm_compute; reflexivity. }
  assert (Hsize : forall t, t = guarded \/ t = unguarded -> (size (tb_workspaces (fl_dir t)) < 4)%nat /\ (size (fl_adapters t) < 4)%nat).
  { intros t [->| ->]; (split; vm_compute; lia). }
  destruct Hads as [Hg Hu]. split.
  - destruct (SoftDelete_guarded (H1 := sample_codec_laws) (fun _ _ => true) 4 (fleet_db guarded) (shop_request "") acme eq_refl eq_refl
      (fleet_fine _ Hg) eq_refl (proj1 (Hsize _ (or_introl eq_refl))) (proj2 (Hsize _ (or_introl eq_refl)))) as (s' & rp & E & [ [Hb _]|(_ & Hs & _)]);
      [exact Hb|exfalso].
    change (delete guarded = (Ok tt, (s', set_replies (fun l => l ++ [rp]) (shop_request "")))) in E. rewrite E in Eg. injection Eg as Eg. congruence.
  - destruct (SoftDelete_guarded (H1 := sample_codec_laws) (fun _ _ => true) 4 (fleet_db unguarded) (shop_request "") acme eq_refl eq_refl
      (fleet_fine _ Hu) eq_refl (proj1 (Hsize _ (or_intror eq_refl))) (proj2 (Hsize _ (or_intror eq_refl)))) as (s' & rp & E & [(_ & _ & Hs)|(_ & Hs & ten' & Hd & Et)]).
    + exfalso. change (delete unguarded = (Ok tt, (s', set_replies (fun l => l ++ [rp]) (shop_request "")))) in E. rewrite E in Eu. injection Eu as Eu. congruence.
    + exists ten'. split; [exact Hd|]. change (delete unguarded = (Ok tt, (s', set_replies (fun l => l ++ [rp]) (shop_request "")))) in E. rewrite E.
      change ((Ok tt, (s', set_replies (fun l => l ++ [rp]) (shop_request ""))).2.1) with s'.
      rewrite Et. apply lookup_insert_eq.
Defined.

(** ** What the handlers let through *)

(** The name is changed in both environments although the rest of the request
    is refused. *)
Lemma rename_then_refuse :
  let run := Workspaces_Update (fun _ _ => true) (fleet_db guarded,
    request "PUT" [("environment", "prod"); ("tenant_code", "acme"); ("workspace_code", "shop")] "jwt" "Boutique") in
  status_of run.2.2 = [422%Z] /\
  ws_Name <$> tb_workspaces (fl_dir (db_tables run.2.1)) !! 5%N = Some "Boutique" /\
  ws_Name <$> tb_workspaces (fl_dir (db_tables run.2.1)) !! 8%N = Some "Boutique".
Proof. vm_compute. auto. Qed.

(** A tenant whose system workspaces could not be created stays, without them. *)
Lemma tenant_without_system :
  let faulty := mkDB guarded 100 70 ["k"] [FaultNone; FaultBefore "connection reset"] in
  let run := Tenants_Create (fun _ _ => true) (faulty, request "POST" [] "jwt" "beta") in
  status_of run.2.2 = [500%Z] /\ ten_Code <$> tb_tenants (fl_dir (db_tables run.2.1)) !! 70%N = Some "beta" /\
  tb_workspaces (fl_dir (db_tables run.2.1)) = tb_workspaces (fl_dir guarded).
Proof. vm_compute. auto. Qed.

(** The audit log's column has no action for bulk sends. *)
Lemma bulk_send_unaudited l s : al_Action l = "bulk_send" ->
  is_ok (Audit_Append l s).1 = false /\ db_tables (Audit_Append l s).2 = db_tables s.
Proof.
  intros Hl. destruct (Audit_Append l s) as [r s'] eqn:E. unfold Audit_Append in E.
  apply exec_cases in E as [ [? ?]|(r' & t' & E & <- & Hr)]; [done|]. cbv beta in E. rewrite Hl in E.
  replace (bool_decide ("bulk_send" ∈ audit_actions)) with false in E by (vm_compute; reflexivity).
  cbn in E. injection E as <- E. by destruct Hr as [->|?].
Qed.
