(* ===== verification/Provisioning.v ===== *)
(** * Tracking resources of SES adapters ([adapter/ses/tracking_provisioner.go])

    The resumable creation of a configuration set, a topic, an event destination
    and a subscription for an adapter, their deletion, and the table of steps
    that remembers what is done ([adapter/postgres/provisioning_step_repo.go]). *)
From stdpp Require Import base gmap strings list sorting.
From Stdlib Require Import ZArith NArith Ascii String Lia.
From S2P Require Import Prelude GoMonad Domain Ports Token Config Http.
From S2P Require Import Suppression Postgres Database Directory Auth Members Inheritance Hosted Templates Fleet.

(** ** The steps ([domain/provisioning.go]) *)

Definition StepCreateConfigurationSet : string := "create_configuration_set".
Definition StepCreateSNSTopic : string := "create_sns_topic".
Definition StepCreateEventDestination : string := "create_event_destination".
Definition StepSubscribeWebhook : string := "subscribe_webhook".
Definition StepSaveConfiguration : string := "save_configuration".
Definition StepVerifySubscription : string := "verify_subscription".
Definition StepDeprovUnsubscribeWebhook : string := "deprov_unsubscribe_webhook".
Definition StepDeprovDeleteEventDestination : string := "deprov_delete_event_destination".
Definition StepDeprovDeleteSNSTopic : string := "deprov_delete_sns_topic".
Definition StepDeprovDeleteConfigurationSet : string := "deprov_delete_configuration_set".

Definition ProvisionStepDefs : list (string * Z) :=
  [(StepCreateConfigurationSet, 1%Z); (StepCreateSNSTopic, 2%Z); (StepCreateEventDestination, 3%Z);
   (StepSubscribeWebhook, 4%Z); (StepSaveConfiguration, 5%Z); (StepVerifySubscription, 6%Z)].
Definition DeprovisionStepDefs : list (string * Z) :=
  [(StepDeprovUnsubscribeWebhook, 10%Z); (StepDeprovDeleteEventDestination, 11%Z);
   (StepDeprovDeleteSNSTopic, 12%Z); (StepDeprovDeleteConfigurationSet, 13%Z)].

(** [port.ProvisioningStepStore]. *)
Record ProvisioningStepStore (W : Type) := mkStepStore {
  InitSteps : uuid -> M W unit;
  InitDeprovisionSteps : uuid -> M W unit;
  ListSteps : uuid -> M W (list AdapterProvisioningStep);
  MarkCompleted : uuid -> option string -> option string -> M W unit;
  MarkFailed : uuid -> string -> M W unit;
  ResetFailed : uuid -> M W unit;
  DeleteSteps : uuid -> M W unit;
}.
Arguments mkStepStore {W}. Arguments InitSteps {W}. Arguments InitDeprovisionSteps {W}. Arguments ListSteps {W}.
Arguments MarkCompleted {W}. Arguments MarkFailed {W}. Arguments ResetFailed {W}. Arguments DeleteSteps {W}.

(** ** The table ([provisioning_step_repo.go]) *)

Section StepRepo.
Context `{GoStd}.

Definition step_row (id : uuid) (now : gotime) (adapterID : uuid) (def : string * Z) : AdapterProvisioningStep :=
  mkProvisioningStep id adapterID def.1 def.2 ProvisionStepPending None None None None None now now.

Definition is_step (adapterID : uuid) (name : string) (s : AdapterProvisioningStep) : bool :=
  bool_decide (st_AdapterID s = adapterID) && bool_decide (st_StepName s = name).

(** [ON CONFLICT (adapter_id, step_name) DO NOTHING]; [gen_random_uuid()] is some
    identifier no row has. *)
Fixpoint insert_steps (now : gotime) (adapterID : uuid) (defs : list (string * Z)) (m : gmap uuid AdapterProvisioningStep)
  : gmap uuid AdapterProvisioningStep :=
  match defs with
  | [] => m
  | def :: r =>
      let id := base.fresh (dom m) in
      insert_steps now adapterID r
        (if bool_decide (rows (is_step adapterID def.1) m = []) then <[id := step_row id now adapterID def]> m else m)
  end.

(** The batch is one implicit transaction. *)
Definition initStepDefs (defs : list (string * Z)) (adapterID : uuid) : M Flt unit :=
  write_stmt "init provisioning steps" (fun now t =>
    if bool_decide (is_Some (fl_adapters t !! adapterID)) then inr (tt, set_steps (insert_steps now adapterID defs) t)
    else inl (dangling "adapters")).

Definition step_missing (stepID : uuid) : error := NotFound ("provisioning step " +:+ uuid_String stepID +:+ " not found").

Definition with_status (status : ProvisioningStepStatus) (name arn message : option string) (started completed : option gotime)
    (now : gotime) (s : AdapterProvisioningStep) : AdapterProvisioningStep :=
  mkProvisioningStep (st_ID s) (st_AdapterID s) (st_StepName s) (st_StepOrder s) status name arn message started completed
    (st_CreatedAt s) now.

Definition StepRepo_MarkCompleted (stepID : uuid) (name arn : option string) : M Flt unit :=
  update_stmt "marking step completed" (step_missing stepID) (fun t => fl_steps t !! stepID) (fun now s =>
    set_steps <[stepID := with_status ProvisionStepCompleted name arn None (st_StartedAt s) (Some now) now s]>).

Definition StepRepo_MarkFailed (stepID : uuid) (message : string) : M Flt unit :=
  update_stmt "marking step failed" (step_missing stepID) (fun t => fl_steps t !! stepID) (fun now s =>
    set_steps <[stepID := with_status ProvisionStepFailed (st_ResourceName s) (st_ResourceARN s) (Some message)
                            (st_StartedAt s) None now s]>).

Definition reset_failed (now : gotime) (adapterID : uuid) (s : AdapterProvisioningStep) : AdapterProvisioningStep :=
  if bool_decide (st_AdapterID s = adapterID) && bool_decide (st_Status s = ProvisionStepFailed)
  then with_status ProvisionStepPending (st_ResourceName s) (st_ResourceARN s) None None None now s else s.
Definition StepRepo_ResetFailed (adapterID : uuid) : M Flt unit :=
  exec (wrapping "resetting failed steps") (fun now t => (Ok tt, set_steps (fmap (reset_failed now adapterID)) t)).

Definition StepRepo_DeleteByAdapter (adapterID : uuid) : M Flt unit :=
  exec (wrapping "deleting provisioning steps") (fun _ t =>
    (Ok tt, set_steps (filter (fun kv => st_AdapterID kv.2 <> adapterID)) t)).

Definition step_before (a b : AdapterProvisioningStep) : Prop := (st_StepOrder a <= st_StepOrder b)%Z.
#[local] Instance step_before_dec : RelDecision step_before.
Proof. intros a b. unfold step_before. apply _. Defined.
Definition StepRepo_ListByAdapter (adapterID : uuid) : M Flt (list AdapterProvisioningStep) :=
  query (wrapping "listing provisioning steps") (fun t =>
    Ok (merge_sort step_before (rows (fun s => bool_decide (st_AdapterID s = adapterID)) (fl_steps t)))).

Definition ProvisioningStepRepo : ProvisioningStepStore Flt := {|
  InitSteps := initStepDefs ProvisionStepDefs;
  InitDeprovisionSteps := initStepDefs DeprovisionStepDefs;
  ListSteps := StepRepo_ListByAdapter;
  MarkCompleted := StepRepo_MarkCompleted;
  MarkFailed := StepRepo_MarkFailed;
  ResetFailed := StepRepo_ResetFailed;
  DeleteSteps := StepRepo_DeleteByAdapter;
|}.
End StepRepo.

(** ** The provider's interfaces ([ses/adapter.go], [ses/sns_client.go]) *)

Record SESConfig := mkSESConfig {
  sc_Region : string;
  sc_AccessKeyID : string;
  sc_SecretAccessKey : string;
  sc_EndpointURL : string;
  sc_ConfigurationSetName : string;
}.

(** A topic's subscriptions are pairs of an endpoint and an ARN. *)
Record SESAPI (W : Type) := mkSESAPI {
  CreateConfigurationSet : string -> M W unit;
  CreateConfigurationSetEventDestination : string -> string -> M W unit;
  DeleteConfigurationSet : string -> M W unit;
  DeleteConfigurationSetEventDestination : string -> M W unit;
}.
Record SNSAPI (W : Type) := mkSNSAPI {
  CreateTopic : string -> M W string;
  Subscribe : string -> string -> M W string;
  ListSubscriptionsByTopic : string -> M W (list (string * string));
  Unsubscribe : string -> M W unit;
  DeleteTopic : string -> M W unit;
}.
Arguments CreateConfigurationSet {W}. Arguments CreateConfigurationSetEventDestination {W}.
Arguments DeleteConfigurationSet {W}. Arguments DeleteConfigurationSetEventDestination {W}.
Arguments CreateTopic {W}. Arguments Subscribe {W}. Arguments ListSubscriptionsByTopic {W}.
Arguments Unsubscribe {W}. Arguments DeleteTopic {W}.

(** [errors.As(err, &smithy.APIError)] and its [ErrorCode()]. *)
Class AwsErrors := { ErrorCode : error -> option string }.

Definition has_code `{AwsErrors} (codes : list string) (e : error) : bool :=
  match ErrorCode e with Some c => bool_decide (c ∈ codes) | None => false end.
Definition isAlreadyExists `{AwsErrors} : error -> bool :=
  has_code ["AlreadyExistsException"; "ConfigurationSetAlreadyExistsException"; "EventDestinationAlreadyExistsException"].
Definition IsAccessDenied `{AwsErrors} : error -> bool :=
  has_code ["AccessDeniedException"; "AccessDenied"; "UnauthorizedAccess"; "AuthorizationError"].
Definition isNotFound `{AwsErrors} : error -> bool :=
  has_code ["NotFoundException"; "ResourceNotFoundException"; "InvalidParameterException"].

(** ** The provisioner *)

Definition StepStatusCreated : string := "created".
Definition StepStatusAlreadyExists : string := "already_exists".
Definition StepStatusAlreadyCompleted : string := "already_completed".
Definition StepStatusFailed : string := "failed".
Definition StepStatusPendingConfirmation : string := "pending_confirmation".

Record ProvisionStep := mkProvisionStep {
  pv_Name : string;
  pv_Status : string;
  pv_Detail : string;
  pv_ResourceName : option string;
  pv_ResourceARN : option string;
}.
Record ProvisionResult := mkProvisionResult {
  pr_ConfigSetName : string;
  pr_TopicARN : string;
  pr_SubscriptionARN : string;
  pr_WebhookURL : string;
  pr_Steps : list ProvisionStep;
}.

(** The constructors of the AWS configuration and clients are the SDK's. *)
Record TrackingProvisioner (Aws W : Type) := mkProvisioner {
  tkp_GetByID : uuid -> M W Adapter;
  tkp_Update : Adapter -> M W unit;
  tkp_Encrypt : string -> M W string;
  tkp_Decrypt : string -> M W string;
  tkp_webhookBaseURL : string;
  tkp_LoadDefaultConfig : string -> option (string * string) -> M W Aws;
  tkp_clientFactory : Aws -> string -> SESAPI W * SNSAPI W;
  tkp_stepStore : option (ProvisioningStepStore W);
  tkp_bindingRegistrar : option (string -> W -> W);
}.
Arguments mkProvisioner {Aws W}. Arguments tkp_GetByID {Aws W}. Arguments tkp_Update {Aws W}. Arguments tkp_Encrypt {Aws W}.
Arguments tkp_Decrypt {Aws W}. Arguments tkp_webhookBaseURL {Aws W}. Arguments tkp_LoadDefaultConfig {Aws W}.
Arguments tkp_clientFactory {Aws W}. Arguments tkp_stepStore {Aws W}. Arguments tkp_bindingRegistrar {Aws W}.

Section Provisioner.
Context `{GoStd} `{AwsErrors} `{JSON SESConfig} `{JSON (option fields_map)} {Aws W : Type} (p : TrackingProvisioner Aws W).

Definition LoadAWSConfig (cfg : SESConfig) : M W Aws :=
  tkp_LoadDefaultConfig p (sc_Region cfg)
    (if negb (bool_decide (sc_AccessKeyID cfg = "")) || negb (bool_decide (sc_SecretAccessKey cfg = ""))
     then Some (sc_AccessKeyID cfg, sc_SecretAccessKey cfg) else None).

Definition loadAdapterClients (adapterID : uuid) : M W (Adapter * (SESAPI W * SNSAPI W)) :=
  let! adapter := tkp_GetByID p adapterID in
  if negb (bool_decide (ad_AdapterType adapter = AdapterTypeSES))
  then fail (EWrap "" (ESent ErrValidation) ": operation only supported for SES adapters")
  else
    let! decrypted := wrap_err (wrapping "decrypt adapter config") (tkp_Decrypt p (ad_ConfigEncrypted adapter)) in
    let! cfg := wrap_err (wrapping "unmarshal adapter config") (lift_res (Unmarshal (A:=SESConfig) decrypted)) in
    let! awsCfg := wrap_err (wrapping "load aws config") (LoadAWSConfig cfg) in
    ret (adapter, tkp_clientFactory p awsCfg (sc_EndpointURL cfg)).

Definition shortID (id : uuid) : string := String.substring 0 8 (uuid_String id).
Definition configSetNameOf (id : uuid) : string := "senda-" +:+ shortID id.
Definition topicNameOf (id : uuid) : string := "senda-ses-events-" +:+ shortID id.
Definition webhookURL : string := tkp_webhookBaseURL p +:+ "/api/v1/webhooks/ses/inbound".

(** The steps by name; a later one replaces an earlier one. *)
Abbreviation step_map := (gmap string AdapterProvisioningStep).
Definition by_step (steps : list AdapterProvisioningStep) : step_map :=
  List.fold_left (fun m s => <[st_StepName s := s]> m) steps ∅.

Definition persisted (stepMap : step_map) (name : string) (f : ProvisioningStepStore W -> uuid -> M W unit) : M W unit :=
  match tkp_stepStore p, stepMap !! name with
  | Some store, Some ps => ignore (f store (st_ID ps))
  | _, _ => ret tt
  end.
Definition persistStepSuccess (stepMap : step_map) (name : string) (resourceName resourceARN : option string) : M W unit :=
  persisted stepMap name (fun store id => MarkCompleted store id resourceName resourceARN).
Definition persistStepFailure (stepMap : step_map) (name message : string) : M W unit :=
  persisted stepMap name (fun store id => MarkFailed store id message).

Definition registerSNSBinding (topicARN : string) : M W unit :=
  match tkp_bindingRegistrar p with
  | Some register => if bool_decide (topicARN = "") then ret tt else fun w => (Ok tt, register topicARN w)
  | None => ret tt
  end.

Definition step_outcome (name status detail : string) : ProvisionStep := mkProvisionStep name status detail None None.

Definition createConfigurationSet (client : SESAPI W) (name : string) : M W (ProvisionStep * string) :=
  try! r := CreateConfigurationSet client name in
  ret (match r with
       | Ok _ => step_outcome StepCreateConfigurationSet StepStatusCreated name
       | Err e => if isAlreadyExists e then step_outcome StepCreateConfigurationSet StepStatusAlreadyExists name
                  else step_outcome StepCreateConfigurationSet StepStatusFailed (error_string e)
       end, "").

Definition createSNSTopic (client : SNSAPI W) (name : string) : M W (ProvisionStep * string) :=
  try! r := CreateTopic client name in
  ret match r with
      | Ok arn => (step_outcome StepCreateSNSTopic StepStatusCreated arn, arn)
      | Err e => (step_outcome StepCreateSNSTopic StepStatusFailed (error_string e), "")
      end.

Definition createEventDestination (client : SESAPI W) (configSetName topicARN : string) : M W (ProvisionStep * string) :=
  try! r := CreateConfigurationSetEventDestination client configSetName topicARN in
  ret (match r with
       | Ok _ => step_outcome StepCreateEventDestination StepStatusCreated ""
       | Err e => if isAlreadyExists e then step_outcome StepCreateEventDestination StepStatusAlreadyExists ""
                  else step_outcome StepCreateEventDestination StepStatusFailed (error_string e)
       end, "").

Definition subscribeTopic (client : SNSAPI W) (topicARN endpoint : string) : M W (ProvisionStep * string) :=
  try! r := Subscribe client topicARN endpoint in
  ret match r with
      | Ok arn => (step_outcome StepSubscribeWebhook StepStatusCreated arn, arn)
      | Err e => (step_outcome StepSubscribeWebhook StepStatusFailed (error_string e), "")
      end.

Definition with_encrypted (config : string) (a : Adapter) : Adapter :=
  mkAdapter (ad_ID a) (ad_WorkspaceID a) (ad_Name a) (ad_AdapterType a) config (ad_IsDefault a) (ad_RateLimitPerSecond a)
    (ad_ConfigMeta a) (ad_CreatedAt a) (ad_UpdatedAt a) (ad_DeletedAt a).

(** Writing to a nil map panics: the step then neither succeeds nor fails. *)
Definition nil_map_write : error := EMsg "assignment to entry in nil map".

Definition read_config (adapter : Adapter) : M W (option fields_map) :=
  let! decrypted := tkp_Decrypt p (ad_ConfigEncrypted adapter) in
  lift_res (Unmarshal (A:=option fields_map) decrypted).
Definition save_config (adapter : Adapter) (cfgMap : fields_map) : M W unit :=
  let! updated := lift_res (Marshal (Some cfgMap)) in
  let! encrypted := tkp_Encrypt p updated in
  tkp_Update p (with_encrypted encrypted adapter).
Definition step_saved (r : Res unit) : ProvisionStep :=
  match r with
  | Ok _ => step_outcome StepSaveConfiguration StepStatusCreated ""
  | Err e => step_outcome StepSaveConfiguration StepStatusFailed (error_string e)
  end.
Definition saveConfigSetName (adapter : Adapter) (configSetName : string) : M W (ProvisionStep * string) :=
  try! read := read_config adapter in
  match read with
  | Err e => ret (step_saved (Err e), "")
  | Ok None => fail nil_map_write
  | Ok (Some cfgMap) =>
      try! r := save_config adapter (<["configuration_set_name" := AStr configSetName]> cfgMap) in
      ret (step_saved r, "")
  end.

(** The first subscription of the endpoint decides. *)
Definition verifySubscription (client : SNSAPI W) (topicARN endpoint : string) : M W ProvisionStep :=
  try! r := ListSubscriptionsByTopic client topicARN in
  ret match r with
      | Err e =>
          if IsAccessDenied e
          then step_outcome StepVerifySubscription StepStatusPendingConfirmation
                 "cannot verify (insufficient permissions) — subscription will be auto-confirmed by webhook"
          else step_outcome StepVerifySubscription StepStatusFailed ("list subscriptions: " +:+ error_string e)
      | Ok subs =>
          match List.find (fun sub => bool_decide (sub.1 = endpoint)) subs with
          | Some (_, arn) =>
              if negb (bool_decide (arn = "")) && negb (bool_decide (arn = "PendingConfirmation"))
              then step_outcome StepVerifySubscription StepStatusCreated arn
              else step_outcome StepVerifySubscription StepStatusPendingConfirmation
                     "awaiting SNS confirmation — will be auto-confirmed by webhook"
          | None => step_outcome StepVerifySubscription StepStatusFailed "subscription not found in topic"
          end
      end.

(** *** Provisioning *)

Definition add_step (s : ProvisionStep) (r : ProvisionResult) : ProvisionResult :=
  mkProvisionResult (pr_ConfigSetName r) (pr_TopicARN r) (pr_SubscriptionARN r) (pr_WebhookURL r) (pr_Steps r ++ [s]).
Definition with_topic (arn : string) (r : ProvisionResult) : ProvisionResult :=
  mkProvisionResult (pr_ConfigSetName r) arn (pr_SubscriptionARN r) (pr_WebhookURL r) (pr_Steps r).
Definition with_subscription (arn : string) (r : ProvisionResult) : ProvisionResult :=
  mkProvisionResult (pr_ConfigSetName r) (pr_TopicARN r) arn (pr_WebhookURL r) (pr_Steps r).

(** What [Provision] returns: the result, partial when there is an error. *)
Abbreviation outcome := (option ProvisionResult * option error)%type.

Definition step_done (stepMap : step_map) (name : string) : option AdapterProvisioningStep :=
  match stepMap !! name with
  | Some ps => if bool_decide (st_Status ps = ProvisionStepCompleted) then Some ps else None
  | None => None
  end.
Definition is_failed (s : ProvisionStep) : bool := bool_decide (pv_Status s = StepStatusFailed).

Definition already (name : string) (detail : AdapterProvisioningStep -> string) (ps : AdapterProvisioningStep) : ProvisionStep :=
  mkProvisionStep name StepStatusAlreadyCompleted (detail ps) (st_ResourceName ps) (st_ResourceARN ps).
Definition recorded_arn (ps : AdapterProvisioningStep) : string := default "" (st_ResourceARN ps).

(** The shape of the first five steps: a completed one is only reported, with the
    ARN recorded for it; another is carried out, reported and recorded, and a
    failure ends the run. *)
Definition stage (name what : string) (report : AdapterProvisioningStep -> ProvisionStep) (stored : AdapterProvisioningStep -> string)
    (seen : string -> ProvisionResult -> ProvisionResult) (learn : string -> M W unit) (act : M W (ProvisionStep * string))
    (resource : string -> option string * option string) (stepMap : step_map) (result : ProvisionResult)
    (k : ProvisionResult -> string -> M W outcome) : M W outcome :=
  match step_done stepMap name with
  | Some ps => learn (stored ps) ;;; k (add_step (report ps) (seen (stored ps) result)) (stored ps)
  | None =>
      let! (step, arn) := act in
      let result := seen arn (add_step step result) in
      if is_failed step
      then persistStepFailure stepMap name (pv_Detail step) ;;;
           ret (Some result, Some (EMsg (what +:+ ": " +:+ pv_Detail step)))
      else learn arn ;;;
           persistStepSuccess stepMap name (resource arn).1 (resource arn).2 ;;;
           k result arn
  end.

(** The last step: its failure does not fail the run. *)
Definition verify_stage (client : SNSAPI W) (topicARN subscriptionARN : string) (stepMap : step_map) (result : ProvisionResult)
  : M W outcome :=
  match step_done stepMap StepVerifySubscription with
  | Some ps =>
      ret (Some (add_step (mkProvisionStep StepVerifySubscription StepStatusAlreadyCompleted subscriptionARN None
                             (st_ResourceARN ps)) result), None)
  | None =>
      let! step := verifySubscription client topicARN webhookURL in
      (if bool_decide (pv_Status step = StepStatusCreated) || bool_decide (pv_Status step = StepStatusPendingConfirmation)
       then persistStepSuccess stepMap StepVerifySubscription None (Some subscriptionARN)
       else persistStepFailure stepMap StepVerifySubscription (pv_Detail step)) ;;;
      ret (Some (add_step step result), None)
  end.

Definition load_steps (adapterID : uuid) : M W step_map :=
  match tkp_stepStore p with
  | None => ret ∅
  | Some store =>
      wrap_err (wrapping "init provisioning steps") (InitSteps store adapterID) ;;;
      wrap_err (wrapping "reset failed steps") (ResetFailed store adapterID) ;;;
      let! steps := wrap_err (wrapping "load provisioning steps") (ListSteps store adapterID) in
      ret (by_step steps)
  end.

Definition unseen (_ : string) (r : ProvisionResult) : ProvisionResult := r.
Definition unlearned (_ : string) : M W unit := ret tt.

Definition provision_steps (adapter : Adapter) (ses : SESAPI W) (sns : SNSAPI W) (stepMap : step_map) : M W outcome :=
  let configSetName := configSetNameOf (ad_ID adapter) in
  let topicName := topicNameOf (ad_ID adapter) in
  stage StepCreateConfigurationSet "create configuration set" (already StepCreateConfigurationSet (fun _ => configSetName))
    (fun _ => "") unseen unlearned (createConfigurationSet ses configSetName) (fun _ => (Some configSetName, None)) stepMap
    (mkProvisionResult configSetName "" "" webhookURL []) (fun result _ =>
  stage StepCreateSNSTopic "create sns topic" (already StepCreateSNSTopic recorded_arn)
    recorded_arn with_topic registerSNSBinding (createSNSTopic sns topicName) (fun arn => (Some topicName, Some arn)) stepMap
    result (fun result topicARN =>
  stage StepCreateEventDestination "create event destination" (already StepCreateEventDestination (fun _ => ""))
    (fun _ => "") unseen unlearned (createEventDestination ses configSetName topicARN) (fun _ => (Some "senda-events", None)) stepMap
    result (fun result _ =>
  stage StepSubscribeWebhook "subscribe topic" (already StepSubscribeWebhook recorded_arn)
    recorded_arn with_subscription unlearned (subscribeTopic sns topicARN webhookURL) (fun arn => (Some webhookURL, Some arn)) stepMap
    result (fun result subscriptionARN =>
  stage StepSaveConfiguration "save config"
    (fun ps => mkProvisionStep StepSaveConfiguration StepStatusAlreadyCompleted "" (st_ResourceName ps) None)
    (fun _ => "") unseen unlearned (saveConfigSetName adapter configSetName) (fun _ => (Some configSetName, None)) stepMap
    result (fun result _ =>
  verify_stage sns topicARN subscriptionARN stepMap result))))).

Definition Provision (adapterID : uuid) : M W outcome :=
  try! loaded := loadAdapterClients adapterID in
  match loaded with
  | Err e => ret (None, Some e)
  | Ok (adapter, (ses, sns)) =>
      try! steps := load_steps adapterID in
      match steps with
      | Err e => ret (None, Some e)
      | Ok stepMap => provision_steps adapter ses sns stepMap
      end
  end.

(** *** Deprovisioning *)

Definition load_deprov_steps (adapterID : uuid) : M W (list AdapterProvisioningStep) :=
  match tkp_stepStore p with
  | None => ret []
  | Some store =>
      wrap_err (wrapping "init deprovision steps") (InitDeprovisionSteps store adapterID) ;;;
      wrap_err (wrapping "load steps") (ListSteps store adapterID)
  end.

(** The resource a loaded step names; a later step replaces an earlier one. *)
Definition recorded (name : string) (f : AdapterProvisioningStep -> option string) (steps : list AdapterProvisioningStep)
    (init : string) : string :=
  List.fold_left (fun acc s => if bool_decide (st_StepName s = name) then default acc (f s) else acc) steps init.

(** [errors.Join(deprovErr, fmt.Errorf("%s: %w", step.name, err))]. *)
Definition newline : string := bytes [10].
Definition join_error (acc : option error) (e : error) : option error :=
  Some match acc with Some e0 => EWrap2 "" e0 newline e "" | None => EWrap "" e "" end.

Fixpoint deprov_loop (stepMap : step_map) (calls : list (string * M W unit)) (failed : option error) : M W (option error) :=
  match calls with
  | [] => ret failed
  | (name, call) :: r =>
      try! res := call in
      match res with
      | Err e =>
          if isNotFound e then persistStepSuccess stepMap name None None ;;; deprov_loop stepMap r failed
          else persistStepFailure stepMap name (error_string e) ;;;
               deprov_loop stepMap r (join_error failed (wrapping name e))
      | Ok _ => persistStepSuccess stepMap name None None ;;; deprov_loop stepMap r failed
      end
  end.

Definition deprov_calls (ses : SESAPI W) (sns : SNSAPI W) (configSetName topicARN subscriptionARN : string)
  : list (string * M W unit) :=
  [(StepDeprovUnsubscribeWebhook,
    if bool_decide (subscriptionARN = "") || bool_decide (subscriptionARN = "PendingConfirmation") then ret tt
    else Unsubscribe sns subscriptionARN);
   (StepDeprovDeleteEventDestination, DeleteConfigurationSetEventDestination ses configSetName);
   (StepDeprovDeleteSNSTopic, if bool_decide (topicARN = "") then ret tt else DeleteTopic sns topicARN);
   (StepDeprovDeleteConfigurationSet, DeleteConfigurationSet ses configSetName)].

Definition Deprovision (adapterID : uuid) : M W unit :=
  let! (adapter, (ses, sns)) := loadAdapterClients adapterID in
  let! steps := load_deprov_steps adapterID in
  let configSetName := recorded StepCreateConfigurationSet st_ResourceName steps (configSetNameOf (ad_ID adapter)) in
  let topicARN := recorded StepCreateSNSTopic st_ResourceARN steps "" in
  let subscriptionARN := recorded StepSubscribeWebhook st_ResourceARN steps "" in
  let! failed := deprov_loop (by_step steps) (deprov_calls ses sns configSetName topicARN subscriptionARN) None in
  match failed with
  | Some e => fail e
  | None => match tkp_stepStore p with
            | Some store => ignore (DeleteSteps store adapterID)
            | None => ret tt
            end
  end.
End Provisioner.
