(* ===== verification/Tracking.v ===== *)
(** * Provisioning is resumable

    What a run of [Provision] may ask of the provider, given the steps recorded
    before it, and what [Deprovision] deletes and forgets. *)
From stdpp Require Import base gmap strings list sorting.
From Stdlib Require Import ZArith NArith Ascii String Lia.
From S2P Require Import Prelude GoMonad Domain Ports Token Config Http.
From S2P Require Import Suppression Postgres Database Directory Auth Members Inheritance Hosted Templates Fleet Provisioning.

(** The calls to the provider, with their answers, in order. *)
Inductive AwsCall :=
| CallCreateConfigurationSet (set : string)
| CallCreateTopic (topic : string)
| CallCreateEventDestination (set topicARN : string)
| CallSubscribe (topicARN endpoint : string)
| CallListSubscriptions (topicARN : string)
| CallUnsubscribe (arn : string)
| CallDeleteEventDestination (set : string)
| CallDeleteTopic (topicARN : string)
| CallDeleteConfigurationSet (set : string).
Abbreviation call_answer := (AwsCall * Res string)%type.
Abbreviation calls_log := (list call_answer).

(** What the log keeps of an answer: the resource it names, or its error. *)
Class Answer (A : Type) := names_resource : A -> string.
#[export] Instance answer_unit : Answer unit := fun _ => "".
#[export] Instance answer_arn : Answer string := fun arn => arn.
#[export] Instance answer_list {A} : Answer (list A) := fun _ => "".
Definition answered_as `{Answer A} (r : Res A) : Res string := match r with Ok a => Ok (names_resource a) | Err e => Err e end.

(** The step of [Provision] a call carries out. *)
Definition step_of (c : AwsCall) : string :=
  match c with
  | CallCreateConfigurationSet _ => StepCreateConfigurationSet
  | CallCreateTopic _ => StepCreateSNSTopic
  | CallCreateEventDestination _ _ => StepCreateEventDestination
  | CallSubscribe _ _ => StepSubscribeWebhook
  | CallListSubscriptions _ => StepVerifySubscription
  | CallUnsubscribe _ => StepDeprovUnsubscribeWebhook
  | CallDeleteEventDestination _ => StepDeprovDeleteEventDestination
  | CallDeleteTopic _ => StepDeprovDeleteSNSTopic
  | CallDeleteConfigurationSet _ => StepDeprovDeleteConfigurationSet
  end.

Abbreviation step_table := (gmap uuid AdapterProvisioningStep).

(** The primary key and [aps_unique_step]. *)
Record steps_ok (m : step_table) : Prop := {
  so_keyed : keyed st_ID m;
  so_unique i j a b : m !! i = Some a -> m !! j = Some b -> st_AdapterID a = st_AdapterID b -> st_StepName a = st_StepName b -> i = j;
}.

(** A completed step stays as it is. *)
Definition kept (m m' : step_table) : Prop :=
  forall i s, m !! i = Some s -> st_Status s = ProvisionStepCompleted -> m' !! i = Some s.
Definition grown (m m' : step_table) : Prop := forall i s, m !! i = Some s -> m' !! i = Some s.
(** An update of one row. *)
Definition but_for (id : uuid) (m m' : step_table) : Prop :=
  forall j, (j <> id -> m' !! j = m !! j) /\ (is_Some (m !! j) -> is_Some (m' !! j)).

(** What the provisioner assumes of the provider and of its stores. *)
Section Laws.
Context {Aws W : Type} (log : W -> calls_log) (steps : W -> step_table).
Definition quiet (w : W) : calls_log * step_table := (log w, steps w).
Definition logs `{Answer A} (c : AwsCall) (m : M W A) : Prop :=
  forall w, log (m w).2 = log w ++ [(c, answered_as (m w).1)] /\ steps (m w).2 = steps w.

Record SESLaws (ses : SESAPI W) : Prop := {
  ses_create set : logs (CallCreateConfigurationSet set) (CreateConfigurationSet ses set);
  ses_destination set topic : logs (CallCreateEventDestination set topic) (CreateConfigurationSetEventDestination ses set topic);
  ses_delete set : logs (CallDeleteConfigurationSet set) (DeleteConfigurationSet ses set);
  ses_delete_destination set : logs (CallDeleteEventDestination set) (DeleteConfigurationSetEventDestination ses set);
}.
Record SNSLaws (sns : SNSAPI W) : Prop := {
  sns_create topic : logs (CallCreateTopic topic) (CreateTopic sns topic);
  sns_subscribe topic endpoint : logs (CallSubscribe topic endpoint) (Subscribe sns topic endpoint);
  sns_list topic : logs (CallListSubscriptions topic) (ListSubscriptionsByTopic sns topic);
  sns_unsubscribe arn : logs (CallUnsubscribe arn) (Unsubscribe sns arn);
  sns_delete topic : logs (CallDeleteTopic topic) (DeleteTopic sns topic);
}.

Class StepStoreLaws (st : ProvisioningStepStore W) : Prop := {
  step_log id : preserves log (InitSteps st id) /\ preserves log (InitDeprovisionSteps st id) /\ preserves log (ResetFailed st id)
    /\ preserves log (ListSteps st id) /\ preserves log (DeleteSteps st id);
  mark_log id : (forall rn ra, preserves log (MarkCompleted st id rn ra)) /\ (forall msg, preserves log (MarkFailed st id msg));
  init_steps id : relates steps (fun m m' => grown m m' /\ (steps_ok m -> steps_ok m')) (InitSteps st id);
  init_deprov id : relates steps (fun m m' => grown m m' /\ (steps_ok m -> steps_ok m')) (InitDeprovisionSteps st id);
  reset_steps id : relates steps (fun m m' => kept m m' /\ (steps_ok m -> steps_ok m')) (ResetFailed st id);
  list_steps id : preserves steps (ListSteps st id);
  listed_steps id w l w' : ListSteps st id w = (Ok l, w') -> steps_ok (steps w) ->
    forall s, s ∈ l <-> steps w !! st_ID s = Some s /\ st_AdapterID s = id;
  mark_completed id rn ra : relates steps (but_for id) (MarkCompleted st id rn ra);
  mark_failed id msg : relates steps (but_for id) (MarkFailed st id msg);
  delete_others id w i s : steps w !! i = Some s -> st_AdapterID s <> id -> steps (DeleteSteps st id w).2 !! i = Some s;
}.

Class ProvisionerLaws (p : TrackingProvisioner Aws W) (st : ProvisioningStepStore W) : Prop := {
  law_store : tkp_stepStore p = Some st;
  law_steps : StepStoreLaws st;
  law_clients aws url : SESLaws (tkp_clientFactory p aws url).1 /\ SNSLaws (tkp_clientFactory p aws url).2;
  law_adapter id : preserves quiet (tkp_GetByID p id);
  law_update a : preserves quiet (tkp_Update p a);
  law_encrypt s : preserves quiet (tkp_Encrypt p s);
  law_decrypt s : preserves quiet (tkp_Decrypt p s);
  law_config region keys : preserves quiet (tkp_LoadDefaultConfig p region keys);
  law_register f topic w : tkp_bindingRegistrar p = Some f -> quiet (f topic w) = quiet w;
}.
End Laws.

Definition done_at (t : step_table) (id : uuid) (name : string) : Prop :=
  exists i s, t !! i = Some s /\ st_AdapterID s = id /\ st_StepName s = name /\ st_Status s = ProvisionStepCompleted.

(** How a run that starts with [result] reports the steps [names]: all of them,
    or those up to the first failure; the failure of the verification is reported
    and goes on. *)
Definition shape (names : list string) (result : ProvisionResult) (o : option ProvisionResult * option error) : Prop :=
  match o with
  | (Some res, None) => exists added, pr_Steps res = pr_Steps result ++ added /\ pv_Name <$> added = names /\
      Forall (fun s => is_failed s = true -> pv_Name s = StepVerifySubscription) added
  | (Some res, Some _) => exists good last, pr_Steps res = pr_Steps result ++ good ++ [last] /\ is_failed last = true /\
      Forall (fun s => is_failed s = false) good /\ (pv_Name <$> (good ++ [last])) `prefix_of` names
  | (None, _) => False
  end.

Lemma shape_step name names step result result' o : pv_Name step = name -> is_failed step = false ->
  pr_Steps result' = pr_Steps result ++ [step] -> shape names result' o -> shape (name :: names) result o.
Proof.
  intros Hn Hf Hr. destruct o as [ [res|] [e|] ]; [| |done..]; simpl; rewrite Hr.
  - intros (good & last & -> & Hl & Hg & [rest Hp]). exists (step :: good), last. rewrite <- app_assoc. split_and!; try done.
    + by constructor.
    + exists rest. simpl. rewrite Hn. f_equal. exact Hp.
  - intros (added & -> & Ha & Hg). exists (step :: added). rewrite <- app_assoc. split_and!; [done| |].
    + rewrite fmap_cons, Hn, Ha. done.
    + constructor; [congruence|done].
Qed.

(** A run reports its steps or panics: the configuration of the adapter is the
    JSON null. *)
Definition reported (names : list string) (result : ProvisionResult) (r : Res (option ProvisionResult * option error)) : Prop :=
  match r with Ok o => shape names result o | Err e => e = nil_map_write end.

Lemma reported_step name names step result result' r : pv_Name step = name -> is_failed step = false ->
  pr_Steps result' = pr_Steps result ++ [step] -> reported names result' r -> reported (name :: names) result r.
Proof. destruct r; [by apply shape_step|done]. Qed.

Definition provision_names : list string := ProvisionStepDefs.*1.

Section Resume.
Context `{GoStd} `{AwsErrors} `{JSON SESConfig} `{JSON (option fields_map)} {Aws W : Type}.
Context (p : TrackingProvisioner Aws W) (st : ProvisioningStepStore W) (log : W -> calls_log) (steps : W -> step_table).
Context `{!ProvisionerLaws log steps p st}.
#[local] Existing Instance law_steps.
#[local] Abbreviation quiet := (quiet log steps).

Lemma quiet_parts {A} (m : M W A) w : preserves quiet m -> log (m w).2 = log w /\ steps (m w).2 = steps w.
Proof. intros Hm. specialize (Hm w). unfold Tracking.quiet in Hm. injection Hm as <- <-. done. Qed.

Lemma clients_quiet id : preserves quiet (loadAdapterClients p id).
Proof.
  unfold loadAdapterClients, LoadAWSConfig. apply preserves_bind; [apply (law_adapter log steps (st := st))|]. intros a. case_match; [done|].
  apply preserves_bind; [apply preserves_wrap, (law_decrypt log steps (st := st))|intros d].
  apply preserves_bind; [apply preserves_wrap, preserves_lift|intros cfg].
  apply preserves_bind; [apply preserves_wrap, (law_config log steps (st := st))|done].
Qed.

(** The row the adapter is read from carries its identifier. *)
Definition own_row (id : uuid) (w : W) : Prop := forall a w1, tkp_GetByID p id w = (Ok a, w1) -> ad_ID a = id.

Lemma loaded_id id w a c w' : own_row id w -> loadAdapterClients p id w = (Ok (a, c), w') ->
  ad_ID a = id /\ exists aws url, c = tkp_clientFactory p aws url.
Proof.
  unfold loadAdapterClients. intros Hrow (a' & w1 & E1 & E)%bind_Ok. apply Hrow in E1. case_match; [done|].
  apply bind_Ok in E as (d & w2 & _ & (cfg & w3 & _ & (aws & w4 & _ & E)%bind_Ok)%bind_Ok). injection E as <- <- _. eauto.
Qed.

Lemma learn_quiet arn w : exists w1, registerSNSBinding p arn w = (Ok tt, w1) /\ quiet w1 = quiet w.
Proof.
  unfold registerSNSBinding. destruct (tkp_bindingRegistrar p) as [f|] eqn:Ef; [|by exists w]. case_bool_decide; [by exists w|].
  eexists. split; [done|]. by apply (law_register log steps (st := st)).
Qed.

(** *** One run, given the steps loaded *)

(** The calls that follow the creation of the topic, and all of a run: they name
    the resources of the adapter and the topic. *)
Definition after_topic (id : uuid) (topic : string) (c : AwsCall) : Prop :=
  c = CallCreateEventDestination (configSetNameOf id) topic \/ c = CallSubscribe topic (webhookURL p) \/
  c = CallListSubscriptions topic.
Definition about (id : uuid) (topic : string) (c : AwsCall) : Prop :=
  c = CallCreateConfigurationSet (configSetNameOf id) \/ c = CallCreateTopic (topicNameOf id) \/ after_topic id topic c.

Section Run.
Context (id : uuid) (t0 : step_table) (stepMap : gmap string AdapterProvisioningStep).
Hypothesis loaded_done : forall name, done_at t0 id name -> is_Some (step_done stepMap name).
Hypothesis loaded_open : forall name ps s, stepMap !! name = Some ps -> step_done stepMap name = None ->
  t0 !! st_ID ps = Some s -> st_Status s <> ProvisionStepCompleted.

Definition fresh (l : calls_log) : Prop := Forall (fun c => ~ done_at t0 id (step_of c.1)) l.

Definition resumes (names : list string) (P : calls_log -> Prop) (result : ProvisionResult) (w : W)
    (x : Res (option ProvisionResult * option error) * W) : Prop :=
  exists l, log x.2 = log w ++ l /\ sublist (step_of <$> l.*1) names /\ fresh l /\ P l /\
    (kept t0 (steps w) -> kept t0 (steps x.2)) /\ reported names result x.1.

(** An action reports its step, with calls [A] allows for the ARN it answers, or
    panics. *)
Definition acts (name : string) (A : string -> calls_log -> Prop) (m : M W (ProvisionStep * string)) : Prop :=
  forall w, exists r l w1, m w = (r, w1) /\ log w1 = log w ++ l /\ sublist (step_of <$> l.*1) [name] /\ steps w1 = steps w /\
    match r with Ok (step, arn) => pv_Name step = name /\ A arn l | Err e => e = nil_map_write /\ l = [] end.

Lemma marked name (f : ProvisioningStepStore W -> uuid -> M W unit) w : step_done stepMap name = None ->
  (forall i, preserves log (f st i) /\ relates steps (but_for i) (f st i)) ->
  exists w1, persisted p stepMap name f w = (Ok tt, w1) /\ log w1 = log w /\ (kept t0 (steps w) -> kept t0 (steps w1)).
Proof.
  intros Hn Hf. unfold persisted. rewrite (law_store log steps). destruct (stepMap !! name) as [ps|] eqn:Eps; [|by exists w].
  destruct (Hf (st_ID ps)) as [Hl Hs]. specialize (Hl w). specialize (Hs w). unfold relates_at in Hs.
  exists (f st (st_ID ps) w).2. split_and!; [by unfold ignore; destruct (f st _ w)|done|].
  intros Hk i s Hi Hc. destruct (decide (i = st_ID ps)) as [->|Hne]; [|rewrite (proj1 (Hs i)) by done; by apply Hk].
  exfalso. by eapply loaded_open.
Qed.

Lemma success_marked name rn ra w : step_done stepMap name = None ->
  exists w1, persistStepSuccess p stepMap name rn ra w = (Ok tt, w1) /\ log w1 = log w /\ (kept t0 (steps w) -> kept t0 (steps w1)).
Proof. intros Hn. apply marked; [done|]. intros i. split; [apply (mark_log log steps i)|apply (mark_completed log steps)]. Qed.
Lemma failure_marked name msg w : step_done stepMap name = None ->
  exists w1, persistStepFailure p stepMap name msg w = (Ok tt, w1) /\ log w1 = log w /\ (kept t0 (steps w) -> kept t0 (steps w1)).
Proof. intros Hn. apply marked; [done|]. intros i. split; [apply (mark_log log steps i)|apply (mark_failed log steps)]. Qed.

Lemma not_done name : step_done stepMap name = None -> ~ done_at t0 id name.
Proof. intros Hn Hd. apply loaded_done in Hd. rewrite Hn in Hd. by destruct Hd. Qed.

Lemma acted_fresh name (l : calls_log) : step_done stepMap name = None -> sublist (step_of <$> l.*1) [name] -> fresh l.
Proof.
  intros Hn Hs. apply Forall_forall. intros c Hc.
  assert (Hin : step_of c.1 ∈ [name]).
  { eapply elem_of_sublist; [|exact Hs]. by do 2 apply list_elem_of_fmap_2. }
  apply list_elem_of_singleton in Hin as ->. by apply not_done.
Qed.

(** One stage, then the rest, which knows the ARN of the stage: the recorded one
    or the one answered. *)
Lemma stage_resumes name what report stored seen learn act resource names A Pk (P : calls_log -> Prop) result k w :
  acts name A act -> (forall arn w, exists w1, learn arn w = (Ok tt, w1) /\ quiet w1 = quiet w) ->
  (forall ps, pv_Name (report ps) = name /\ is_failed (report ps) = false) ->
  (forall arn r, pr_Steps (seen arn r) = pr_Steps r) ->
  P [] -> (forall arn, Pk arn []) ->
  (forall ps l, step_done stepMap name = Some ps -> Pk (stored ps) l -> P l) ->
  (forall arn l1 l, step_done stepMap name = None -> A arn l1 -> Pk arn l -> P (l1 ++ l)) ->
  (forall arn result w, resumes names (Pk arn) result w (k result arn w)) ->
  resumes (name :: names) P result w (stage p name what report stored seen learn act resource stepMap result k w).
Proof.
  intros Hact Hlearn Hrep Hseen Hnil Hknil Hdone Hrun Hk. unfold stage. destruct (step_done stepMap name) as [ps|] eqn:Ed.
  - destruct (Hlearn (stored ps) w) as (w1 & E1 & [= El Es]). unfold bind at 1. rewrite E1.
    destruct (Hk (stored ps) (add_step (report ps) (seen (stored ps) result)) w1) as (l & Hl & Hsub & Hf & Hp & Hkept & Hsh).
    exists l. rewrite <- El, <- Es. split_and!; try done.
    + by apply sublist_cons.
    + by eapply Hdone.
    + eapply (reported_step name names (report ps)); [apply Hrep..| |exact Hsh]. simpl. by rewrite Hseen.
  - destruct (Hact w) as (r & l1 & w1 & E1 & Hl1 & Hsub1 & Hs1 & Hr). unfold bind at 1. rewrite E1.
    pose proof (acted_fresh _ _ Ed Hsub1) as Hw1.
    assert (Hsub1' : sublist (step_of <$> l1.*1) (name :: names)) by (etrans; [exact Hsub1|]; apply sublist_skip, sublist_nil_l).
    destruct r as [ [step arn]|e]; [destruct Hr as [Hn HA]|].
    2: { destruct Hr as [-> ->]. exists []. simpl. rewrite Hl1, Hs1. by split_and!. }
    destruct (is_failed step) eqn:Ef.
    + destruct (failure_marked name (pv_Detail step) w1 Ed) as (w2 & E2 & Hl2 & Hk2). unfold bind. rewrite E2.
      exists l1. simpl. rewrite Hl2, Hl1, <- Hs1. split_and!; try done.
      * rewrite <- (app_nil_r l1). by eapply Hrun.
      * exists [], step. rewrite Hseen. simpl. split_and!; try done. rewrite Hn. by exists names.
    + destruct (Hlearn arn w1) as (w2 & E2 & [= El Es]). unfold bind at 1. rewrite E2.
      destruct (success_marked name (resource arn).1 (resource arn).2 w2 Ed) as (w3 & E3 & Hl3 & Hk3). unfold bind at 1. rewrite E3.
      destruct (Hk arn (seen arn (add_step step result)) w3) as (l & Hl & Hsub & Hf & Hp & Hkept & Hsh).
      exists (l1 ++ l). rewrite Hl, Hl3, El, Hl1, <- app_assoc. split_and!; try done.
      * rewrite !fmap_app. change (name :: names) with ([name] ++ names). by apply sublist_app.
      * by apply Forall_app.
      * by eapply Hrun.
      * intros Hk0. apply Hkept, Hk3. by rewrite Es, Hs1.
      * eapply (reported_step name names step); [done..| |exact Hsh]. by rewrite Hseen.
Qed.

(** A stage after the topic. *)
Definition each (Q : AwsCall -> Prop) (l : calls_log) : Prop := Forall (fun c => Q c.1) l.
Lemma then_about name what report stored seen learn act resource names Q Q' result k w :
  acts name (fun _ => each Q) act -> (forall arn w, exists w1, learn arn w = (Ok tt, w1) /\ quiet w1 = quiet w) ->
  (forall ps, pv_Name (report ps) = name /\ is_failed (report ps) = false) ->
  (forall arn r, pr_Steps (seen arn r) = pr_Steps r) -> (forall c, Q c -> Q' c) ->
  (forall arn result w, resumes names (each Q') result w (k result arn w)) ->
  resumes (name :: names) (each Q') result w (stage p name what report stored seen learn act resource stepMap result k w).
Proof.
  intros Ha Hl Hr Hs HQ Hk. eapply (stage_resumes _ _ _ _ _ _ _ _ _ _ (fun _ => each Q')); try done; [constructor|constructor|].
  intros arn l1 l _ Hl1 Hl2. apply Forall_app. split; [|done]. eapply Forall_impl; [exact Hl1|]. intros c. apply HQ.
Qed.

(** The calls the actions make. *)
Lemma acts_call {A} `{Answer A} name c (m : M W A) (f : Res A -> ProvisionStep * string) (Q : string -> calls_log -> Prop) :
  step_of c = name -> logs log steps c m -> (forall r, pv_Name (f r).1 = name /\ Q (f r).2 [(c, answered_as r)]) ->
  acts name Q (try m (fun r => ret (f r))).
Proof.
  intros Hc Hm Hf w. destruct (Hm w) as [Hl Hs]. unfold try. destruct (m w) as [r w1]. simpl in *.
  exists (Ok (f r)), [(c, answered_as r)], w1. split_and!; try done.
  - simpl. by rewrite Hc.
  - specialize (Hf r). by destruct (f r).
Qed.

Lemma createConfigurationSet_acts aws url set :
  acts StepCreateConfigurationSet (fun _ => each (eq (CallCreateConfigurationSet set))) (createConfigurationSet (tkp_clientFactory p aws url).1 set).
Proof.
  eapply (acts_call _ (CallCreateConfigurationSet set)); [done|apply (ses_create log steps), (law_clients log steps (st := st))|].
  intros [?|?]; simpl; [|case_match]; (split; [done|by repeat constructor]).
Qed.
Lemma createSNSTopic_acts aws url topic :
  acts StepCreateSNSTopic (fun arn l => Forall (fun c => c.1 = CallCreateTopic topic /\ forall a, c.2 = Ok a -> arn = a) l)
    (createSNSTopic (tkp_clientFactory p aws url).2 topic).
Proof.
  eapply (acts_call _ (CallCreateTopic topic)); [done|apply (sns_create log steps), (law_clients log steps (st := st))|].
  intros [arn|e]; (split; [done|]); apply Forall_singleton; (split; [done|]); intros a [= E]; exact E.
Qed.
Lemma createEventDestination_acts aws url set topic :
  acts StepCreateEventDestination (fun _ => each (eq (CallCreateEventDestination set topic)))
    (createEventDestination (tkp_clientFactory p aws url).1 set topic).
Proof.
  eapply (acts_call _ (CallCreateEventDestination set topic)); [done|apply (ses_destination log steps), (law_clients log steps (st := st))|].
  intros [?|?]; simpl; [|case_match]; (split; [done|by repeat constructor]).
Qed.
Lemma subscribeTopic_acts aws url topic endpoint :
  acts StepSubscribeWebhook (fun _ => each (eq (CallSubscribe topic endpoint))) (subscribeTopic (tkp_clientFactory p aws url).2 topic endpoint).
Proof.
  eapply (acts_call _ (CallSubscribe topic endpoint)); [done|apply (sns_subscribe log steps), (law_clients log steps (st := st))|].
  intros [?|?]; (split; [done|by repeat constructor]).
Qed.

Lemma read_config_quiet adapter : preserves quiet (read_config p adapter).
Proof. apply preserves_bind; [apply (law_decrypt log steps (st := st))|intros d]. apply preserves_lift. Qed.
Lemma save_config_quiet adapter m : preserves quiet (save_config p adapter m).
Proof.
  apply preserves_bind; [apply preserves_lift|intros u].
  apply preserves_bind; [apply (law_encrypt log steps (st := st))|intros e]. apply (law_update log steps (st := st)).
Qed.
Lemma saveConfigSetName_acts adapter set : acts StepSaveConfiguration (fun _ => each (fun _ => False)) (saveConfigSetName p adapter set).
Proof.
  intros w. unfold saveConfigSetName, try. destruct (quiet_parts _ w (read_config_quiet adapter)) as [Hl1 Hs1].
  destruct (read_config p adapter w) as [ [ [m|]|e] w1]; simpl in Hl1, Hs1.
  - destruct (quiet_parts _ w1 (save_config_quiet adapter (<["configuration_set_name" := AStr set]> m))) as [Hl2 Hs2].
    destruct (save_config p adapter _ w1) as [r w2]. simpl in Hl2, Hs2. eexists _, [], w2. split; [done|]. simpl.
    rewrite app_nil_r, Hl2, Hs2. split_and!; try done; [apply sublist_nil_l|by destruct r|constructor].
  - eexists _, [], w1. split; [done|]. simpl. rewrite app_nil_r. split_and!; try done. apply sublist_nil_l.
  - eexists _, [], w1. split; [done|]. simpl. rewrite app_nil_r. split_and!; try done; [apply sublist_nil_l|constructor].
Qed.

Lemma verify_resumes aws url topic sub result w :
  resumes [StepVerifySubscription] (each (eq (CallListSubscriptions topic))) result w
    (verify_stage p (tkp_clientFactory p aws url).2 topic sub stepMap result w).
Proof.
  unfold verify_stage. destruct (step_done stepMap StepVerifySubscription) as [ps|] eqn:Ed.
  { exists []. rewrite app_nil_r. split_and!; try done; [apply sublist_nil_l|constructor|constructor|]. eexists. split; [done|]. split; [done|].
    by repeat constructor. }
  unfold verifySubscription. destruct (sns_list log steps _ (proj2 (law_clients log steps (st := st) aws url)) topic w) as [Hl Hs].
  unfold bind at 1, try. destruct (ListSubscriptionsByTopic _ topic w) as [r w1]. simpl in Hl, Hs. unfold ret at 1.
  match goal with |- resumes _ _ _ _ (bind ?m _ _) => assert (exists w2, m w1 = (Ok tt, w2) /\ log w2 = log w1
     /\ (kept t0 (steps w1) -> kept t0 (steps w2))) as (w2 & E & Hl2 & Hk) end.
  { case_match; [by apply success_marked|by apply failure_marked]. }
  unfold bind. rewrite E. exists [(CallListSubscriptions topic, answered_as r)]. simpl. rewrite Hl2, Hl, <- Hs.
  split_and!; try done.
  - apply Forall_singleton. by apply not_done.
  - by repeat constructor.
  - eexists. split; [done|]. assert (Hn : forall step : ProvisionStep, pv_Name step = StepVerifySubscription -> [pv_Name step] = [StepVerifySubscription]
      /\ Forall (fun s => is_failed s = true -> pv_Name s = StepVerifySubscription) [step]).
    { intros step E2. rewrite E2. split; [done|]. by repeat constructor. }
    apply Hn. destruct r as [subs|e]; [|by destruct (IsAccessDenied e)]. destruct (List.find _ subs) as [ [? arn]|]; [by destruct (_ && _)|done].
Qed.

Lemma unlearned_quiet arn w : exists w1, unlearned (W:=W) arn w = (Ok tt, w1) /\ quiet w1 = quiet w.
Proof. by exists w. Qed.

(** The topic of a run: the recorded one, or the one the provider answered. *)
Definition topic_loaded (topic : string) (l : calls_log) : Prop :=
  (forall ps, step_done stepMap StepCreateSNSTopic = Some ps -> topic = recorded_arn ps) /\
  (forall name arn, (CallCreateTopic name, Ok arn) ∈ l -> topic = arn).
Definition topic_calls (l : calls_log) : Prop := exists topic, each (about id topic) l /\ topic_loaded topic l.

Lemma topic_calls_nil : topic_calls [].
Proof.
  exists (match step_done stepMap StepCreateSNSTopic with Some ps => recorded_arn ps | None => "" end).
  split; [constructor|]. split; [by intros ps ->|]. by intros name arn ?%not_elem_of_nil.
Qed.

Lemma topic_calls_more l1 l : each (eq (CallCreateConfigurationSet (configSetNameOf id))) l1 -> topic_calls l -> topic_calls (l1 ++ l).
Proof.
  intros Hl1 (topic & Ha & Hd & Hc). exists topic. split.
  - apply Forall_app. split; [|done]. eapply Forall_impl; [exact Hl1|]. intros c Hc1. left. by rewrite <- Hc1.
  - split; [done|]. intros name arn [Hin|Hin]%elem_of_app; [|by eapply Hc]. eapply Forall_forall in Hl1; [|exact Hin]. done.
Qed.

Lemma topic_calls_after topic l1 l :
  (forall ps, step_done stepMap StepCreateSNSTopic = Some ps -> topic = recorded_arn ps) ->
  Forall (fun c => c.1 = CallCreateTopic (topicNameOf id) /\ forall a, c.2 = Ok a -> topic = a) l1 ->
  each (after_topic id topic) l -> topic_calls (l1 ++ l).
Proof.
  intros Hd Hl1 Hl2. exists topic. split; [apply Forall_app; split|split; [done|] ].
  - eapply Forall_impl; [exact Hl1|]. intros c [-> _]. right. by left.
  - eapply Forall_impl; [exact Hl2|]. intros c ?. right. by right.
  - intros name arn [Hin|Hin]%elem_of_app.
    + eapply Forall_forall in Hl1 as [_ Ha]; [|exact Hin]. by apply Ha.
    + eapply Forall_forall in Hl2; [|exact Hin]. by destruct Hl2 as [?|[?|?] ].
Qed.

Lemma provision_resumes adapter aws url w : ad_ID adapter = id ->
  resumes provision_names topic_calls (mkProvisionResult (configSetNameOf id) "" "" (webhookURL p) []) w
    (provision_steps p adapter (tkp_clientFactory p aws url).1 (tkp_clientFactory p aws url).2 stepMap w).
Proof.
  intros Hid. unfold provision_steps. rewrite Hid.
  eapply (stage_resumes _ _ _ _ _ _ _ _ _ _ (fun _ => topic_calls));
    [apply createConfigurationSet_acts|apply unlearned_quiet|done|done|apply topic_calls_nil|intros; apply topic_calls_nil|done
    |intros arn l1 l _; apply topic_calls_more|intros arn1 r1 w1].
  eapply (stage_resumes _ _ _ _ _ _ _ _ _ _ (fun topic => each (after_topic id topic)));
    [apply createSNSTopic_acts|apply learn_quiet|done|done|apply topic_calls_nil|intros; constructor| | |intros topic r2 w2].
  { intros ps l Hps Hl. apply (topic_calls_after (recorded_arn ps) []); [|constructor|done]. intros ps' Hps'.
    by pose proof (eq_trans (eq_sym Hps) Hps') as [= ->]. }
  { intros topic l1 l Hn. apply topic_calls_after. intros ps Hps. by pose proof (eq_trans (eq_sym Hn) Hps). }
  eapply (then_about StepCreateEventDestination);
    [apply createEventDestination_acts|apply unlearned_quiet|done|done|unfold after_topic; intros ? <-; tauto|intros _ r3 w3].
  eapply (then_about StepSubscribeWebhook);
    [apply subscribeTopic_acts|apply unlearned_quiet|done|done|unfold after_topic; intros ? <-; tauto|intros sub r4 w4].
  eapply (then_about StepSaveConfiguration); [apply saveConfigSetName_acts|apply unlearned_quiet|done|done|done|intros _ r5 w5].
  destruct (verify_resumes aws url topic sub r5 w5) as (l & Hl & Hs & Hf & Hp & Hk & Hr). exists l. split_and!; try done.
  eapply Forall_impl; [exact Hp|]. unfold after_topic. intros c <-. tauto.
Qed.
End Run.

(** *** Loading *)

Lemma by_step_Some l name s : by_step l !! name = Some s -> s ∈ l /\ st_StepName s = name.
Proof.
  unfold by_step. assert (Hgen : forall (m : gmap string AdapterProvisioningStep),
    List.fold_left (fun m s => <[st_StepName s := s]> m) l m !! name = Some s -> (s ∈ l /\ st_StepName s = name) \/ m !! name = Some s).
  { induction l as [|a l IH]; intros m E; [by right|]. simpl in E. apply IH in E as [ [? ?]|E]; [left; split; [by right|done]|].
    apply lookup_insert_Some in E as [ [<- <-]|[_ E] ]; [left; split; [left|done]|by right]. }
  intros [?|E]%Hgen; done.
Qed.

Lemma by_step_in l s : s ∈ l -> is_Some (by_step l !! st_StepName s).
Proof.
  unfold by_step. assert (Hgen : forall (m : gmap string AdapterProvisioningStep), s ∈ l \/ is_Some (m !! st_StepName s) ->
    is_Some (List.fold_left (fun m s => <[st_StepName s := s]> m) l m !! st_StepName s)).
  { induction l as [|a l IH]; intros m [Hin|Hm]; [by apply not_elem_of_nil in Hin|done|..]; simpl; apply IH.
    - apply elem_of_cons in Hin as [->|Hin]; [right|by left]. rewrite lookup_insert_eq. by eexists.
    - right. destruct (decide (st_StepName a = st_StepName s)) as [->|Hne]; [rewrite lookup_insert_eq; by eexists|by rewrite lookup_insert_ne]. }
  intros Hin. apply Hgen. by left.
Qed.

Lemma load_steps_loads id w r w' : load_steps p id w = (r, w') ->
  log w' = log w /\ kept (steps w) (steps w') /\
  (forall stepMap, r = Ok stepMap -> steps_ok (steps w) ->
     (forall i s, steps w !! i = Some s -> st_AdapterID s = id -> st_Status s = ProvisionStepCompleted ->
        step_done stepMap (st_StepName s) = Some s) /\
     (forall name ps s, stepMap !! name = Some ps -> step_done stepMap name = None -> steps w !! st_ID ps = Some s ->
        st_Status s <> ProvisionStepCompleted)).
Proof.
  unfold load_steps. rewrite (law_store log steps (p := p)).
  destruct (step_log log steps (st := st) id) as (Hl1 & _ & Hl2 & Hl3 & _). specialize (Hl1 w).
  pose proof (init_steps log steps (st := st) id w) as [Hg Hok1]. unfold bind, wrap_err.
  assert (Hk1 : kept (steps w) (steps (InitSteps st id w).2)) by (intros i s Hi _; by apply Hg).
  destruct (InitSteps st id w) as [ [[]|e] w1]; simpl in *; [|by intros [= <- <-] ].
  pose proof (reset_steps log steps (st := st) id w1) as [Hk2 Hok2]. specialize (Hl2 w1).
  destruct (ResetFailed st id w1) as [ [[]|e] w2]; simpl in *;
    (assert (Hk : kept (steps w) (steps w2)) by (intros i s Hi Hc; apply Hk2; [by apply Hk1|done])); [|by intros [= <- <-]; rewrite Hl2].
  pose proof (list_steps log steps (st := st) id w2) as Hs3. specialize (Hl3 w2).
  pose proof (listed_steps log steps (st := st) id w2) as Hlist.
  destruct (ListSteps st id w2) as [ [l|e] w3]; simpl in *; intros [= <- <-]; (split; [congruence|]); rewrite Hs3; (split; [done|]); [|done].
  intros stepMap [= <-] Hok. specialize (Hlist l w3 eq_refl (Hok2 (Hok1 Hok))). destruct (Hok2 (Hok1 Hok)) as [Hkey Huniq]. split.
  - intros i s Hi Hid Hc. pose proof (Hk _ _ Hi Hc) as Hi2.
    assert (Hin : s ∈ l) by (apply Hlist; rewrite (Hkey _ _ Hi2); done).
    apply by_step_in in Hin as [s' Hs']. unfold step_done. rewrite Hs'.
    apply by_step_Some in Hs' as [Hin' Hn']. apply Hlist in Hin' as [Hi' Hid'].
    assert (s' = s) as ->. { assert (st_ID s' = i) by (eapply Huniq; [done..|congruence|congruence]). congruence. }
    by rewrite bool_decide_eq_true_2.
  - intros name ps s Hps Hd Hi Hc. pose proof (Hk _ _ Hi Hc) as Hi2. unfold step_done in Hd. rewrite Hps in Hd.
    apply by_step_Some in Hps as [Hin _]. apply Hlist in Hin as [Hps _]. rewrite Hi2 in Hps. injection Hps as ->.
    by rewrite bool_decide_eq_true_2 in Hd.
Qed.

(** What a run that fails before its first step returns. *)
Definition unstarted (r : Res (option ProvisionResult * option error)) : Prop := exists e, r = Ok (None, Some e).

(** The topic of a run that makes the calls [l] on the recorded steps [t]. *)
Definition topic_of (t : step_table) (id : uuid) (topic : string) (l : calls_log) : Prop :=
  (forall i s, t !! i = Some s -> st_AdapterID s = id -> st_StepName s = StepCreateSNSTopic ->
     st_Status s = ProvisionStepCompleted -> topic = default "" (st_ResourceARN s)) /\
  (forall name arn, (CallCreateTopic name, Ok arn) ∈ l -> topic = arn).

(** C18: a run of [Provision] never repeats what is recorded as done: a completed
    step stays as it is and makes no call; the calls of the run are a
    subsequence of the six steps in their order, each at most once. They name
    the configuration set and the topic named after the adapter, and the ARN of
    the one topic: the recorded ARN when its creation is recorded as done, and
    otherwise the ARN the provider answered in this run. A run that fails before
    its first step calls nothing; any other reports the steps in order, up to
    the first that failed when there is an error, and otherwise all of them,
    the verification being the only one that may have failed; or it panics, the
    configuration of the adapter being the JSON null. *)
Theorem Provision_resumes id w r w' : steps_ok (steps w) -> own_row id w -> Provision p id w = (r, w') ->
  exists l, log w' = log w ++ l /\ kept (steps w) (steps w') /\
    sublist (step_of <$> l.*1) provision_names /\ Forall (fun c => ~ done_at (steps w) id (step_of c.1)) l /\
    (unstarted r /\ l = [] \/
     reported provision_names (mkProvisionResult (configSetNameOf id) "" "" (webhookURL p) []) r /\
     exists topic, Forall (fun c => about id topic c.1) l /\ topic_of (steps w) id topic l).
Proof.
  intros Hok Hrow E. unfold Provision, try in E.
  assert (Hnone : forall e w1, log w1 = log w -> kept (steps w) (steps w1) -> exists l, log w1 = log w ++ l /\
    kept (steps w) (steps w1) /\ sublist (step_of <$> l.*1) provision_names /\
    Forall (fun c => ~ done_at (steps w) id (step_of c.1)) l /\
    (unstarted (Ok (None, Some e)) /\ l = [] \/
     reported provision_names (mkProvisionResult (configSetNameOf id) "" "" (webhookURL p) []) (Ok (None, Some e)) /\
     exists topic, Forall (fun c => about id topic c.1) l /\ topic_of (steps w) id topic l)).
  { intros e w1 Hl Hk. exists []. rewrite Hl, app_nil_r. split_and!; [done|exact Hk|apply sublist_nil_l|constructor|].
    left. split; [by exists e|done]. }
  pose proof (quiet_parts _ w (clients_quiet id)) as [Hl1 Hs1].
  destruct (loadAdapterClients p id w) as [ [ [adapter [ses sns] ]|e] w1] eqn:E1; simpl in Hl1, Hs1.
  2: { injection E as <- <-. apply Hnone; [done|]. rewrite Hs1. by intros i s Hi _. }
  apply loaded_id in E1 as (Hid & aws & url & Ec); [|done].
  destruct (load_steps p id w1) as [rs w2] eqn:E2. apply load_steps_loads in E2 as (Hl2 & Hk2 & Hload). rewrite Hl1, Hs1 in *.
  destruct rs as [stepMap|e]; [|by injection E as <- <-; apply Hnone].
  destruct (Hload _ eq_refl Hok) as [Hdone Hopen].
  destruct (provision_resumes id (steps w) stepMap) with (adapter := adapter) (aws := aws) (url := url) (w := w2)
    as (l & Hl & Hsub & Hf & (topic & Hab & Ht1 & Ht2) & Hk & Hsh); [|exact Hopen|done|].
  { intros name (i & s & Hi & Ha & <- & Hc). by rewrite (Hdone i s). }
  rewrite <- Ec in *. simpl in *. rewrite E in *. simpl in *. exists l. rewrite Hl, Hl2. split_and!; try done; [by apply Hk|right].
  split; [done|]. exists topic. split; [done|]. split; [|done].
  intros i s Hi Ha Hn Hc. rewrite (Ht1 s); [done|]. rewrite <- Hn. by eapply Hdone.
Qed.

(** *** Deprovisioning *)

(** The resource is gone: the call succeeded, or found nothing. *)
Definition gone (c : call_answer) : Prop := match c.2 with Err e => isNotFound e = true | Ok _ => True end.

Definition emits (c : option AwsCall) (m : M W unit) : Prop :=
  match c with Some c => logs log steps c m | None => m = ret tt end.

(** What the loop leaves of the table: every row, and those of other adapters as
    they were. *)
Definition only_of (id : uuid) (m m' : step_table) : Prop :=
  (forall i, is_Some (m !! i) -> is_Some (m' !! i)) /\ (forall i s, m !! i = Some s -> st_AdapterID s <> id -> m' !! i = Some s).
#[local] Instance only_of_preorder id : PreOrder (only_of id).
Proof. split; [by intros m|]. intros m1 m2 m3 [? ?] [? ?]. split; auto. Qed.

Section Loop.
Context (id : uuid) (stepMap : gmap string AdapterProvisioningStep) (t : step_table).
Hypothesis loaded : forall name ps, stepMap !! name = Some ps -> t !! st_ID ps = Some ps /\ st_AdapterID ps = id.

Lemma persisted_only name (f : ProvisioningStepStore W -> uuid -> M W unit) w :
  (forall i, preserves log (f st i) /\ relates steps (but_for i) (f st i)) -> only_of id t (steps w) ->
  exists w1, persisted p stepMap name f w = (Ok tt, w1) /\ log w1 = log w /\ only_of id t (steps w1).
Proof.
  intros Hf [Ht Ho]. unfold persisted. rewrite (law_store log steps (p := p)). destruct (stepMap !! name) as [ps|] eqn:Eps; [|by exists w].
  destruct (Hf (st_ID ps)) as [Hl Hs]. specialize (Hl w). specialize (Hs w). unfold relates_at in Hs.
  exists (f st (st_ID ps) w).2. split_and!; [by unfold ignore; destruct (f st _ w)|done|]. split.
  - intros i Hi. by apply Hs, Ht.
  - intros i s Hi Hne. rewrite (proj1 (Hs i)); [by apply Ho|]. intros ->. apply loaded in Eps as [E Ea]. congruence.
Qed.

Lemma deprov_loop_runs calls emitted failed w : Forall2 (fun c e => emits e c.2) calls emitted -> only_of id t (steps w) ->
  exists failed' l w1, deprov_loop p stepMap calls failed w = (Ok failed', w1) /\ log w1 = log w ++ l /\
    l.*1 = omap (fun e => e) emitted /\ (failed' = None <-> failed = None /\ Forall gone l) /\ only_of id t (steps w1).
Proof.
  intros Hc. revert failed w. induction Hc as [|[name call] e calls emitted He Hc IH]; intros failed w Ht.
  { exists failed, [], w. simpl. rewrite app_nil_r. split_and!; try done. by split; [|intros [? _] ]. }
  assert (Hcall : exists l1 r w1, call w = (r, w1) /\ log w1 = log w ++ l1 /\ l1.*1 = omap (fun e => e) [e] /\ steps w1 = steps w /\
     (Forall gone l1 <-> match r with Ok _ => True | Err e => isNotFound e = true end)).
  { destruct e as [c|]; simpl in He.
    - destruct (He w) as [Hl Hs]. destruct (call w) as [r w1]. exists [(c, answered_as r)], r, w1. split_and!; try done.
      rewrite Forall_singleton. unfold gone. by destruct r.
    - rewrite He. exists [], (Ok tt), w. rewrite app_nil_r. split_and!; done. }
  destruct Hcall as (l1 & r & w1 & E1 & Hl1 & Hn1 & Hs1 & Hg1). simpl. unfold try. rewrite E1. rewrite <- Hs1 in Ht.
  assert (Hnext : forall name f, (forall i, preserves log (f st i) /\ relates steps (but_for i) (f st i)) -> forall failed0,
     exists failed' l w3, (persisted p stepMap name f ;;; deprov_loop p stepMap calls failed0) w1 = (Ok failed', w3) /\ log w3 = log w ++ l1 ++ l /\
       (l1 ++ l).*1 = omap (fun e => e) (e :: emitted) /\ (failed' = None <-> failed0 = None /\ Forall gone l) /\ only_of id t (steps w3)).
  { intros name' f Hf failed0. destruct (persisted_only name' f w1 Hf Ht) as (w2 & E2 & Hl2 & Ht2).
    destruct (IH failed0 w2 Ht2) as (failed' & l & w3 & E3 & Hl3 & Hn3 & Hi3 & Ht3). exists failed', l, w3. unfold bind. rewrite E2.
    split_and!; try done.
    - by rewrite Hl3, Hl2, Hl1, app_assoc.
    - rewrite fmap_app, Hn1, Hn3. by destruct e. }
  destruct (Hnext name (fun store id => MarkCompleted store id None None)
    ltac:(intros i; split; [apply (mark_log log steps i)|apply (mark_completed log steps)]) failed) as (f1 & l & w3 & E & Hl & Hn & Hi & Ht3).
  assert (Hfine : Forall gone l1 -> exists failed' l w1', (persistStepSuccess p stepMap name None None ;;; deprov_loop p stepMap calls failed) w1 = (Ok failed', w1') /\
     log w1' = log w ++ l /\ l.*1 = omap (fun e => e) (e :: emitted) /\ (failed' = None <-> failed = None /\ Forall gone l) /\ only_of id t (steps w1')).
  { intros Hg. exists f1, (l1 ++ l), w3. split_and!; try done. rewrite Forall_app. tauto. }
  destruct r as [u|err]; [by apply Hfine, Hg1|]. destruct (isNotFound err) eqn:En; [by apply Hfine, Hg1|].
  destruct (Hnext name (fun store id => MarkFailed store id (error_string err))
    ltac:(intros i; split; [apply (mark_log log steps i)|apply (mark_failed log steps)]) (join_error failed (wrapping name err)))
    as (f2 & l' & w4 & E' & Hl' & Hn' & Hi' & Ht4).
  exists f2, (l1 ++ l'), w4. split_and!; try done. rewrite Forall_app. split; [|by intros (_ & ?%Hg1 & _)].
  intros [? _]%Hi'. by destruct failed.
Qed.
End Loop.

Lemma load_deprov_loads id w r w' : load_deprov_steps p id w = (r, w') ->
  log w' = log w /\ grown (steps w) (steps w') /\
  (forall l, r = Ok l -> steps_ok (steps w) -> steps_ok (steps w') /\
     forall s, s ∈ l <-> steps w' !! st_ID s = Some s /\ st_AdapterID s = id).
Proof.
  unfold load_deprov_steps. rewrite (law_store log steps (p := p)).
  destruct (step_log log steps (st := st) id) as (_ & Hl1 & _ & Hl3 & _). specialize (Hl1 w).
  pose proof (init_deprov log steps (st := st) id w) as [Hg Hok1]. unfold bind, wrap_err.
  destruct (InitDeprovisionSteps st id w) as [ [[]|e] w1]; simpl in *; [|by intros [= <- <-] ].
  pose proof (list_steps log steps (st := st) id w1) as Hs3. specialize (Hl3 w1).
  pose proof (listed_steps log steps (st := st) id w1) as Hlist.
  destruct (ListSteps st id w1) as [ [l|e] w3]; simpl in *; intros [= <- <-]; (split; [congruence|]); rewrite Hs3; (split; [done|]); [|done].
  intros l' [= <-] Hok. split; [by apply Hok1|]. by apply (Hlist l w3 eq_refl), Hok1.
Qed.

(** The last step of a name decides; there is one. *)
Lemma recorded_row name f l init s : (forall a b, a ∈ l -> b ∈ l -> st_StepName a = name -> st_StepName b = name -> a = b) ->
  s ∈ l -> st_StepName s = name -> recorded name f l init = default init (f s).
Proof.
  intros Hu Hin Hn. unfold recorded.
  assert (Hgen : forall acc, (s ∈ l \/ acc = default init (f s)) -> (acc = init \/ acc = default init (f s)) ->
    List.fold_left (fun acc s => if bool_decide (st_StepName s = name) then default acc (f s) else acc) l acc = default init (f s)).
  { assert (Hl : forall a, a ∈ l -> st_StepName a = name -> a = s) by (intros a Ha Hna; by apply Hu). clear Hin Hu.
    induction l as [|a l IH]; intros acc Hs Hacc; [by destruct Hs as [?%not_elem_of_nil|?]|]. simpl.
    assert (IH' := IH (fun b Hb => Hl b (list_elem_of_further _ _ _ Hb))). clear IH. case_bool_decide as Ha.
    - rewrite (Hl a) by (done || left). apply IH'; right; destruct (f s); simpl in *; naive_solver.
    - apply IH'; [|done]. destruct Hs as [ [->|Hs]%elem_of_cons|?]; [done|by left|by right]. }
  apply Hgen; [by left|by left].
Qed.

(** The calls of a deprovisioning. *)
Definition deprov_plan (set topic sub : string) : list AwsCall :=
  (if bool_decide (sub = "") || bool_decide (sub = "PendingConfirmation") then [] else [CallUnsubscribe sub])
  ++ [CallDeleteEventDestination set] ++ (if bool_decide (topic = "") then [] else [CallDeleteTopic topic])
  ++ [CallDeleteConfigurationSet set].

(** C19: [Deprovision] either fails before it calls the provider, or tries to
    delete every resource recorded for the adapter, in the reverse order of
    their creation, whichever deletions fail. It succeeds exactly when each
    resource is gone - deleted or not found -, only then are the adapter's steps
    forgotten, and the steps of other adapters stay. *)
Theorem Deprovision_exact id w r w' : steps_ok (steps w) -> own_row id w -> Deprovision p id w = (r, w') ->
  log w' = log w /\ is_ok r = false \/
  exists set topic sub l, log w' = log w ++ l /\ l.*1 = deprov_plan set topic sub /\
    (is_ok r = true <-> Forall gone l) /\
    (forall i s, steps w !! i = Some s -> st_AdapterID s = id ->
       (st_StepName s = StepCreateConfigurationSet -> set = default (configSetNameOf id) (st_ResourceName s)) /\
       (st_StepName s = StepCreateSNSTopic -> topic = default "" (st_ResourceARN s)) /\
       (st_StepName s = StepSubscribeWebhook -> sub = default "" (st_ResourceARN s))) /\
    (forall i s, steps w !! i = Some s -> is_Some (steps w' !! i) \/ st_AdapterID s = id /\ is_ok r = true) /\
    (forall i s, steps w !! i = Some s -> st_AdapterID s <> id -> steps w' !! i = Some s).
Proof.
  intros Hok Hrow E. unfold Deprovision, bind at 1 in E. pose proof (quiet_parts _ w (clients_quiet id)) as [Hl1 Hs1].
  destruct (loadAdapterClients p id w) as [ [ [adapter [ses sns] ]|e] w1] eqn:E1; simpl in Hl1, Hs1; [|injection E as <- <-; by left].
  apply loaded_id in E1 as (Hid & aws & url & Ec); [|done]. unfold bind at 1 in E.
  destruct (load_deprov_steps p id w1) as [ [lst|e] w2] eqn:E2; apply load_deprov_loads in E2 as (Hl2 & Hg2 & Hload);
    rewrite Hl1, Hs1 in *; [|injection E as <- <-; by left]. right.
  destruct (Hload _ eq_refl Hok) as [Hok2 Hlist]. rewrite Hid in E. cbv zeta in E.
  set (set := recorded StepCreateConfigurationSet _ _ _) in *. set (topic := recorded StepCreateSNSTopic _ _ _) in *.
  set (sub := recorded StepSubscribeWebhook _ _ _) in *. exists set, topic, sub.
  assert (Hrec : forall i s, steps w !! i = Some s -> st_AdapterID s = id -> forall f init, recorded (st_StepName s) f lst init = default init (f s)).
  { intros i s Hi Ha f init. pose proof (Hg2 _ _ Hi) as Hi2. destruct Hok2 as [Hkey Huniq].
    apply recorded_row; [|apply Hlist; by rewrite (Hkey _ _ Hi2)|done]. intros a b Hina Hinb Hna Hnb.
    apply Hlist in Hina as [Ha1 Ha2], Hinb as [Hb1 Hb2].
    assert (st_ID a = st_ID b) by (eapply Huniq; [done..|congruence|congruence]). congruence. }
  destruct (deprov_loop_runs id (by_step lst) (steps w2)
      ltac:(intros name ps Hps; apply by_step_Some in Hps as [Hin _]; by apply Hlist)
      (deprov_calls ses sns set topic sub)
      [if bool_decide (sub = "") || bool_decide (sub = "PendingConfirmation") then None else Some (CallUnsubscribe sub);
       Some (CallDeleteEventDestination set); if bool_decide (topic = "") then None else Some (CallDeleteTopic topic);
       Some (CallDeleteConfigurationSet set)] None w2) as (failed & l & w3 & E3 & Hl3 & Hn3 & Hi3 & Hd3 & Ho3); [|done|].
  { destruct (law_clients log steps (st := st) (p := p) aws url) as [Hses Hsns]. rewrite <- Ec in *. simpl in *.
    unfold deprov_calls. constructor; [|constructor; [|constructor; [|constructor; [|constructor] ] ] ]; simpl.
    - destruct (_ || _); [done|apply Hsns].
    - apply Hses.
    - destruct (bool_decide (topic = "")); [done|apply Hsns].
    - apply Hses. }
  exists l. unfold bind at 1 in E. rewrite E3 in E. 
  assert (Hend : log w' = log w3 /\ (is_ok r = true <-> failed = None) /\
    (forall i s, steps w3 !! i = Some s -> steps w' !! i = Some s \/ st_AdapterID s = id /\ is_ok r = true)).
  { destruct failed as [e|]; [by injection E as <- <-; split_and!; [done|split|left]|]. rewrite (law_store log steps (p := p)) in E.
    destruct (step_log log steps (st := st) id) as (_ & _ & _ & _ & Hl5). specialize (Hl5 w3).
    pose proof (delete_others log steps (st := st) id w3) as Hdel. unfold ignore in E.
    destruct (DeleteSteps st id w3) as [rd w4]. simpl in *. injection E as <- <-. split_and!; [done|done|].
    intros i s Hi. destruct (decide (st_AdapterID s = id)); [by right|left; by apply Hdel]. }
  destruct Hend as (Hle & Hre & Hse). split_and!.
  - by rewrite Hle, Hl3, Hl2.
  - rewrite Hn3. unfold deprov_plan. by repeat case_bool_decide.
  - rewrite Hre, Hi3. tauto.
  - intros i s Hi Ha. split_and!; intros Hn; unfold set, topic, sub; rewrite <- Hn; by eapply Hrec.
  - intros i s Hi. pose proof (Hg2 _ _ Hi) as Hi2. destruct (decide (st_AdapterID s = id)) as [Ha|Ha].
    + destruct (Hd3 i ltac:(by eexists)) as [s3 Hs3]. destruct (Hse _ _ Hs3) as [?|[_ ?] ]; [left; by eexists|by right].
    + left. destruct (Hse _ _ (Ho3 _ _ Hi2 Ha)) as [?|[? _] ]; [by eexists|done].
  - intros i s Hi Ha. destruct (Hse _ _ (Ho3 _ _ (Hg2 _ _ Hi) Ha)) as [?|[? _] ]; done.
Qed.
End Resume.
