(* ===== verification/TrackingRuns.v ===== *)
(** * Runs of the provisioner

    The table of steps keeps its promises, and the theorems about provisioning at
    a provider that refuses the first subscription. *)
From stdpp Require Import base gmap strings list sorting.
From Stdlib Require Import ZArith NArith Ascii String Lia.
From S2P Require Import Prelude GoMonad Domain Ports Token Config Http.
From S2P Require Import Suppression Postgres Database Directory Auth Members Inheritance Hosted Templates.
From S2P Require Import ControlRuns TemplateRuns Fleet FleetRuns Provisioning Tracking.

(** ** The repository's laws *)

Definition lifted {W S} (st : ProvisioningStepStore W) : ProvisioningStepStore (W * S) := {|
  InitSteps := fun id => up (InitSteps st id);
  InitDeprovisionSteps := fun id => up (InitDeprovisionSteps st id);
  ListSteps := fun id => up (ListSteps st id);
  MarkCompleted := fun id rn ra => up (MarkCompleted st id rn ra);
  MarkFailed := fun id msg => up (MarkFailed st id msg);
  ResetFailed := fun id => up (ResetFailed st id);
  DeleteSteps := fun id => up (DeleteSteps st id);
|}.

Lemma insert_step_ok now id adapterID name order m : steps_ok m -> m !! id = None -> rows (is_step adapterID name) m = [] ->
  steps_ok (<[id := step_row id now adapterID (name, order)]> m).
Proof.
  intros [Hk Hu] Hid Hr.
  assert (Hnone : forall j b, m !! j = Some b -> st_AdapterID b = adapterID -> st_StepName b = name -> False).
  { intros j b Hj Ha Hn. assert (Hin : b ∈ rows (is_step adapterID name) m).
    { apply elem_of_rows. split; [by eexists|]. unfold is_step. by rewrite !bool_decide_eq_true_2. }
    rewrite Hr in Hin. by apply not_elem_of_nil in Hin. }
  split.
  - by apply (keyed_insert st_ID m (step_row id now adapterID (name, order))).
  - intros i j a b [ [<- <-]|[? Ha] ]%lookup_insert_Some [ [<- <-]|[? Hb] ]%lookup_insert_Some; [done|..|by eapply Hu].
    + simpl. intros Ea En. exfalso. by eapply Hnone.
    + simpl. intros Ea En. exfalso. by eapply Hnone.
Qed.

Lemma insert_steps_grows now adapterID defs m :
  grown m (insert_steps now adapterID defs m) /\ (steps_ok m -> steps_ok (insert_steps now adapterID defs m)).
Proof.
  revert m. induction defs as [|[name order] defs IH]; intros m; [split; [by intros i s|done]|]. simpl. set (id := base.fresh (dom m)).
  assert (Hid : m !! id = None) by (apply not_elem_of_dom; unfold id; apply is_fresh).
  case_bool_decide as Hr; [|apply IH]. destruct (IH (<[id := step_row id now adapterID (name, order)]> m)) as [Hg Hok]. split.
  - intros i s Hi. apply Hg. rewrite lookup_insert_ne; [done|]. intros ->. congruence.
  - intros Hm. by apply Hok, insert_step_ok.
Qed.

Section RepoLaws.
Context `{GoStd} {C : Type} (log : C -> calls_log).
Definition db_log (x : Flt * C) : calls_log := log x.2.
Definition db_steps (x : Flt * C) : step_table := fl_steps (db_tables x.1).

Lemma up_log {A} (m : M Flt A) : preserves db_log (up m).
Proof. intros [s c]. unfold up, db_log. simpl. by destruct (m s). Qed.

Lemma exec_steps {A} wrap (f : gotime -> Fleet -> Res A * Fleet) (R : step_table -> step_table -> Prop) : (forall m, R m m) ->
  (forall now t, R (fl_steps t) (fl_steps (f now t).2)) -> relates db_steps R (up (exec wrap f)).
Proof.
  intros Hrefl Hf [s c]. unfold relates_at, up, db_steps. simpl. destruct (exec wrap f s) as [r s'] eqn:E. simpl.
  apply exec_cases in E as [ [_ ->]|(r' & t' & E & -> & _)]; [done|]. specialize (Hf (db_clock s) (db_tables s)). by rewrite E in Hf.
Qed.

Lemma init_grows defs id : relates db_steps (fun m m' => grown m m' /\ (steps_ok m -> steps_ok m')) (up (S:=C) (initStepDefs defs id)).
Proof.
  apply exec_steps; [intros m; split; [by intros i s|done]|]. intros now t. case_bool_decide; simpl; [apply insert_steps_grows|split; [by intros i s|done] ].
Qed.

Lemma marks_one id msg missing status name arn message started completed :
  relates db_steps (but_for id) (up (S:=C) (update_stmt msg missing (fun t => fl_steps t !! id) (fun now s =>
    set_steps <[id := with_status status (name s) (arn s) message (started s) (completed now) now s]>))).
Proof.
  apply exec_steps; [done|]. intros now t. destruct (fl_steps t !! id) as [s|] eqn:Es; [|done]. intros j. simpl. split.
  - intros Hne. by rewrite lookup_insert_ne.
  - intros Hj. apply lookup_insert_is_Some'. by right.
Qed.

#[export] Instance repo_laws : StepStoreLaws db_log db_steps (lifted ProvisioningStepRepo).
Proof.
  split.
  - intros id. split_and!; apply up_log.
  - intros id. split; intros; apply up_log.
  - intros id. apply init_grows.
  - intros id. apply init_grows.
  - intros id. apply exec_steps; [intros m; split; [by intros i s|done]|]. intros now t. simpl. split.
    + intros i s Hi Hc. rewrite lookup_fmap, Hi. simpl. unfold reset_failed. rewrite Hc.
      by rewrite (bool_decide_eq_false_2 (ProvisionStepCompleted = _)), andb_false_r.
    + assert (Hsame : forall s, st_ID (reset_failed now id s) = st_ID s /\ st_AdapterID (reset_failed now id s) = st_AdapterID s
                /\ st_StepName (reset_failed now id s) = st_StepName s) by (intros s; unfold reset_failed; by case_match).
      intros [Hk Hu]. split.
      * intros i b. rewrite lookup_fmap. intros (s & Hi & ->)%fmap_Some. by rewrite (proj1 (Hsame s)), (Hk _ _ Hi).
      * intros i j a b. rewrite !lookup_fmap. intros (sa & Ha & ->)%fmap_Some (sb & Hb & ->)%fmap_Some.
        destruct (Hsame sa) as (_ & -> & ->), (Hsame sb) as (_ & -> & ->). by eapply Hu.
  - intros id [s c]. unfold db_steps. simpl. unfold up. assert (Hq : preserves db_tables (StepRepo_ListByAdapter id)) by apply query_frame.
    specialize (Hq s). destruct (StepRepo_ListByAdapter id s). simpl in *. by rewrite Hq.
  - intros id [s c] l [s' c'] E [Hk _] x. simpl in E. unfold up in E. destruct (StepRepo_ListByAdapter id s) as [r s1] eqn:E1.
    injection E as -> <- <-. unfold StepRepo_ListByAdapter in E1. apply query_Ok in E1 as [E1 _]. injection E1 as <-.
    rewrite merge_sort_Permutation, elem_of_rows, bool_decide_eq_true. unfold db_steps in *. simpl in *. split.
    + intros [ [i Hi] Ha]. by rewrite (Hk _ _ Hi).
    + intros [? ?]. split; [by eexists|done].
  - intros id rn ra. apply (marks_one id _ _ _ (fun _ => rn) (fun _ => ra) _ st_StartedAt (fun now => Some now)).
  - intros id msg. apply (marks_one id _ _ _ st_ResourceName st_ResourceARN (Some msg) st_StartedAt (fun _ => None)).
  - intros id [s c] i row Hi Hne. simpl. unfold db_steps, up in *. simpl in *. destruct (StepRepo_DeleteByAdapter id s) as [r s'] eqn:E. simpl.
    unfold StepRepo_DeleteByAdapter in E. apply exec_cases in E as [ [_ ->]|(r' & t' & E & -> & _)]; [done|]. injection E as _ <-. simpl.
    by apply map_lookup_filter_Some.
Qed.
End RepoLaws.

(** ** A provider that logs *)

#[local] Instance tracking_std : GoStd := ascii_std.
#[local] Instance tracking_codec : Codec := sample_codec.
#[local] Instance tracking_aws : AwsErrors := {| ErrorCode := fun e => match e with EMsg m => Some m | _ => None end |}.
#[local] Instance tracking_config : JSON SESConfig := {| Marshal := fun _ => Ok ""; Unmarshal := fun s => Ok (mkSESConfig "us" "" "" s "") |}.
#[local] Instance tracking_object : JSON (option fields_map) := {| Marshal := fun _ => Ok "saved"; Unmarshal := fun _ => Ok (Some ∅) |}.

Abbreviation Aws_world := (Flt * calls_log)%type.
Definition answer `{Answer A} (c : AwsCall) (r : Res A) : M Aws_world A := fun x => (r, (x.1, x.2 ++ [(c, answered_as r)])).

(** With the endpoint "closed" a topic refuses subscriptions. *)
Definition sample_ses : SESAPI Aws_world := {|
  CreateConfigurationSet := fun set => answer (CallCreateConfigurationSet set) (Ok tt);
  CreateConfigurationSetEventDestination := fun set topic => answer (CallCreateEventDestination set topic) (Err (EMsg "AlreadyExistsException"));
  DeleteConfigurationSet := fun set => answer (CallDeleteConfigurationSet set) (Err (EMsg "NotFoundException"));
  DeleteConfigurationSetEventDestination := fun set => answer (CallDeleteEventDestination set) (Ok tt);
|}.
Definition sample_sns (endpoint : string) : SNSAPI Aws_world := {|
  CreateTopic := fun topic => answer (CallCreateTopic topic) (Ok ("arn:" +:+ topic));
  Subscribe := fun topic hook => answer (CallSubscribe topic hook)
    (if bool_decide (endpoint = "closed") then Err (EMsg "AccessDenied") else Ok "PendingConfirmation");
  ListSubscriptionsByTopic := fun topic => answer (CallListSubscriptions topic) (Ok [("/api/v1/webhooks/ses/inbound", "PendingConfirmation")]);
  Unsubscribe := fun arn => answer (CallUnsubscribe arn) (Ok tt);
  DeleteTopic := fun topic => answer (CallDeleteTopic topic) (Ok tt);
|}.

Definition sample_provisioner : TrackingProvisioner unit Aws_world := {|
  tkp_GetByID := fun id => up (AdapterRepo_GetByID id);
  tkp_Update := fun a => up (ignore (AdapterRepo_Update a));
  tkp_Encrypt := fun s => ret s; tkp_Decrypt := fun s => ret s; tkp_webhookBaseURL := "";
  tkp_LoadDefaultConfig := fun _ _ => ret tt;
  tkp_clientFactory := fun _ endpoint => (sample_ses, sample_sns endpoint);
  tkp_stepStore := Some (lifted ProvisioningStepRepo); tkp_bindingRegistrar := None;
|}.

Lemma up_quiet {A} (m : M Flt A) : preserves (fun s => fl_steps (db_tables s)) m -> preserves (quiet (db_log id) db_steps) (up m).
Proof. intros Hm [s c]. specialize (Hm s). unfold quiet, db_log, db_steps, up in *. simpl. destruct (m s). simpl in *. by rewrite Hm. Qed.

Lemma update_quiet a : preserves (fun s => fl_steps (db_tables s)) (AdapterRepo_Update a).
Proof.
  intros s. destruct (AdapterRepo_Update a s) as [r s'] eqn:E. unfold AdapterRepo_Update in E. simpl.
  apply exec_cases in E as [ [_ ->]|(r' & t' & E & -> & _)]; [done|]. repeat case_match; by injection E as _ <-.
Qed.

Lemma read_adapter_id id s a s' : AdapterRepo_GetByID id s = (Ok a, s') -> fl_adapters (db_tables s) !! id = Some a.
Proof.
  unfold AdapterRepo_GetByID. intros [E _]%query_Ok. unfold live_adapter in E. repeat case_match; try done. congruence.
Qed.

(** Adapters keyed by their identifiers. *)
Definition closed_adapter : Adapter := mkAdapter 60 (Some 5%N) "mail" AdapterTypeSES "closed" false 10 ∅ 0 0 None.
Definition open_adapter : Adapter := mkAdapter 60 (Some 5%N) "mail" AdapterTypeSES "open" false 10 ∅ 0 0 None.
Definition aws_world : Aws_world := (fleet_db (fleet {[60%N := closed_adapter]}), []).
Definition first_run : Res (option ProvisionResult * option error) * Aws_world := Provision sample_provisioner 60 aws_world.
(** The operator corrects the adapter's configuration. *)
Definition corrected : Aws_world := ((AdapterRepo_Update open_adapter first_run.2.1).2, first_run.2.2).

#[local] Instance sample_laws : ProvisionerLaws (db_log id) db_steps sample_provisioner (lifted ProvisioningStepRepo).
Proof.
  split; try done.
  - apply _.
  - intros id. apply up_quiet. intros s. unfold AdapterRepo_GetByID. by rewrite query_frame.
  - intros a. apply up_quiet. intros s. pose proof (update_quiet a s) as Hq. unfold ignore. by destruct (AdapterRepo_Update a s).
Qed.

Definition same_name (a b : AdapterProvisioningStep) : bool :=
  bool_decide (st_AdapterID a = st_AdapterID b) && bool_decide (st_StepName a = st_StepName b).
Lemma decide_steps_ok (m : step_table) : bool_decide (map_Forall (fun i s => st_ID s = i) m) = true ->
  bool_decide (map_Forall (fun i x => map_Forall (fun j y => same_name x y = true -> i = j) m) m) = true -> steps_ok m.
Proof.
  intros Hk Hu. split; [unfold keyed; by apply (every_row (fun i s => st_ID s = i) (H := fun i s => N.eq_dec _ _))|].
  intros i j a b Ha Hb Ea En. apply (every_pair same_name m Hu i j a b Ha Hb). unfold same_name. by rewrite !bool_decide_eq_true_2.
Qed.

(** The first run stops at the subscription; the second makes the two calls that
    were left. *)
Lemma Provision_resumes_witness :
  let run := Provision sample_provisioner 60 corrected in
  (exists res, first_run.1 = Ok (res, Some (EMsg "subscribe topic: AccessDenied"))) /\
  (exists topic l, run.2.2 = first_run.2.2 ++ l /\ l.*1 = [CallSubscribe topic "/api/v1/webhooks/ses/inbound"; CallListSubscriptions topic]
     /\ Forall (fun c => ~ done_at (db_steps corrected) 60 (step_of c.1)) l /\ topic_of (db_steps corrected) 60 topic l) /\
  kept (db_steps corrected) (db_steps run.2).
Proof.
  intros run. split; [eexists; vm_compute; reflexivity|].
  assert (Hok : steps_ok (db_steps corrected)) by (apply decide_steps_ok; vm_compute; reflexivity).
  assert (Hrow : own_row sample_provisioner 60 corrected).
  { intros a w1 E. apply (f_equal fst) in E. vm_compute in E. by injection E as <-. }
  assert (Hlog : exists topic l, run.2.2 = first_run.2.2 ++ l /\
    l.*1 = [CallSubscribe topic "/api/v1/webhooks/ses/inbound"; CallListSubscriptions topic]).
  { eexists _, _. split; [vm_compute; reflexivity|]. reflexivity. }
  pose proof (Provision_resumes sample_provisioner (lifted ProvisioningStepRepo) (db_log id) db_steps 60 corrected run.1 run.2) as Hall.
  specialize (Hall Hok). specialize (Hall Hrow). specialize (Hall (surjective_pairing run)).
  clearbody run. destruct Hlog as (topic & l & Hl & Hc), Hall as (l' & Hl' & Hk & _ & Hf & Hrest). split; [|exact Hk].
  assert (l' = l) as ->. { unfold db_log, id in Hl'. rewrite Hl in Hl'. by apply app_inv_head in Hl'. }
  destruct Hrest as [ [_ ->]|(_ & topic' & Ha & Ht)]; [discriminate Hc|].
  exists topic, l. split; [exact Hl|]. split; [exact Hc|]. split; [exact Hf|].
  destruct l as [| [c1 a1] l]; [discriminate Hc|]. injection Hc as -> _.
  apply Forall_cons in Ha as [ [E|[E|[E|[E|E] ] ] ] _]; try discriminate E. by injection E as ->.
Defined.

(** Every resource recorded is deleted, and the steps are forgotten. *)
Lemma Deprovision_exact_witness :
  let before := (Provision sample_provisioner 60 corrected).2 in
  let run := Deprovision sample_provisioner 60 before in
  run.1 = Ok tt /\ db_steps run.2 = ∅ /\
  exists set topic sub l, run.2.2 = before.2 ++ l /\ l.*1 = deprov_plan set topic sub /\ Forall gone l.
Proof.
  intros before run. assert (Hr : run.1 = Ok tt) by (vm_compute; reflexivity).
  split; [exact Hr|]. split; [vm_compute; reflexivity|].
  assert (Hok : steps_ok (db_steps before)) by (apply decide_steps_ok; vm_compute; reflexivity).
  assert (Hrow : own_row sample_provisioner 60 before).
  { intros a w1 E. apply (f_equal fst) in E. vm_compute in E. by injection E as <-. }
  assert (Hlen : List.length run.2.2 <> List.length before.2) by (vm_compute; discriminate).
  pose proof (Deprovision_exact sample_provisioner (lifted ProvisioningStepRepo) (db_log id) db_steps 60 before run.1 run.2) as Hall.
  specialize (Hall Hok). specialize (Hall Hrow). specialize (Hall (surjective_pairing run)).
  clearbody run. destruct Hall as [ [Hl _]|(set & topic & sub & l & Hl & Hc & Hg & _)].
  - exfalso. apply Hlen. unfold db_log, id in Hl. by rewrite Hl.
  - exists set, topic, sub, l. split; [exact Hl|]. split; [exact Hc|]. apply Hg. by rewrite Hr.
Defined.

(** ** What the names share *)

(** Two adapters whose identifiers begin alike share a configuration set and a
    topic: deleting the tracking of one deletes that of the other. *)
Lemma tracking_shared :
  let ses id := mkAdapter id (Some 5%N) "mail" AdapterTypeSES "open" false 10 ∅ 0 0 None in
  let world : Aws_world := (fleet_db (fleet {[511%N := ses 511%N; 767%N := ses 767%N]}), []) in
  let both := (Provision sample_provisioner 767 (Provision sample_provisioner 511 world).2).2 in
  let run := Deprovision sample_provisioner 511 both in
  run.1 = Ok tt /\
  exists topic, CallDeleteTopic topic ∈ run.2.2.*1 /\
    List.existsb (fun s => bool_decide (st_AdapterID s = 767%N) && bool_decide (st_ResourceARN s = Some topic)
                           && bool_decide (st_Status s = ProvisionStepCompleted)) (map_to_list (db_steps run.2)).*2 = true.
Proof.
  split; [vm_compute; reflexivity|]. exists "arn:senda-ses-events-oooooooo". split; [|vm_compute; reflexivity].
  eapply (list_elem_of_lookup_2 _ 11). vm_compute. reflexivity.
Qed.
