(* ===== verification/ConfigStore.v ===== *)
(** * The global configuration ([adapter/postgres/global_config_repo.go], [http/handler/config.go])

    The configuration is a table of JSON values under fixed keys, which the
    repository reads and writes key by key; the handlers of its management
    routes. *)
From stdpp Require Import base gmap strings list fin_maps.
From Stdlib Require Import ZArith Ascii String Lia.
From S2P Require Import Prelude GoMonad Domain Ports Token Config Http.
From S2P Require Import Suppression Postgres Database Members.

(** A float64, as its bits. *)
Record float64 := mkFloat { float_bits : Z }.

(** [port.GlobalConfigStore]. *)
Module GlobalConfigStore.
Record t (W : Type) := mk {
  Get : M W GlobalConfig;
  Upsert : GlobalConfig -> M W unit;
}.
Arguments Get {W}. Arguments Upsert {W}.
End GlobalConfigStore.

(** The rows of [global_config] by key: the value and the time of its update. *)
Abbreviation ConfigTable := (gmap string (string * gotime)).
Abbreviation Cfg := (DB ConfigTable).

(** [SELECT ... FROM global_config], in the order the database returns. *)
Class RowOrder := { row_order : ConfigTable -> list (string * (string * gotime)) }.
Class RowOrderLaws `{RowOrder} : Prop := { row_order_perm t : row_order t ≡ₚ map_to_list t }.

(** [&domain.GlobalConfig{}]. *)
Definition zero_config : GlobalConfig := {|
  gc_DefaultRetryCount := 0; gc_RetryBackoffBaseSeconds := 0; gc_LogRetentionDays := 0;
  gc_BounceAlertThresholdPercent := 0; gc_ComplaintAlertThresholdPercent := 0; gc_DomainRecheckIntervalHours := 0;
  gc_OnboardingCompleted := false; gc_ExternalIntegrations := []; gc_UpdatedAt := time_zero |}.

Definition with_retry_count v c := mkGlobalConfig v (gc_RetryBackoffBaseSeconds c) (gc_LogRetentionDays c)
  (gc_BounceAlertThresholdPercent c) (gc_ComplaintAlertThresholdPercent c) (gc_DomainRecheckIntervalHours c)
  (gc_OnboardingCompleted c) (gc_ExternalIntegrations c) (gc_UpdatedAt c).
Definition with_backoff v c := mkGlobalConfig (gc_DefaultRetryCount c) v (gc_LogRetentionDays c)
  (gc_BounceAlertThresholdPercent c) (gc_ComplaintAlertThresholdPercent c) (gc_DomainRecheckIntervalHours c)
  (gc_OnboardingCompleted c) (gc_ExternalIntegrations c) (gc_UpdatedAt c).
Definition with_retention v c := mkGlobalConfig (gc_DefaultRetryCount c) (gc_RetryBackoffBaseSeconds c) v
  (gc_BounceAlertThresholdPercent c) (gc_ComplaintAlertThresholdPercent c) (gc_DomainRecheckIntervalHours c)
  (gc_OnboardingCompleted c) (gc_ExternalIntegrations c) (gc_UpdatedAt c).
Definition with_bounce v c := mkGlobalConfig (gc_DefaultRetryCount c) (gc_RetryBackoffBaseSeconds c) (gc_LogRetentionDays c)
  v (gc_ComplaintAlertThresholdPercent c) (gc_DomainRecheckIntervalHours c)
  (gc_OnboardingCompleted c) (gc_ExternalIntegrations c) (gc_UpdatedAt c).
Definition with_complaint v c := mkGlobalConfig (gc_DefaultRetryCount c) (gc_RetryBackoffBaseSeconds c) (gc_LogRetentionDays c)
  (gc_BounceAlertThresholdPercent c) v (gc_DomainRecheckIntervalHours c)
  (gc_OnboardingCompleted c) (gc_ExternalIntegrations c) (gc_UpdatedAt c).
Definition with_recheck v c := mkGlobalConfig (gc_DefaultRetryCount c) (gc_RetryBackoffBaseSeconds c) (gc_LogRetentionDays c)
  (gc_BounceAlertThresholdPercent c) (gc_ComplaintAlertThresholdPercent c) v
  (gc_OnboardingCompleted c) (gc_ExternalIntegrations c) (gc_UpdatedAt c).
Definition with_onboarding v c := mkGlobalConfig (gc_DefaultRetryCount c) (gc_RetryBackoffBaseSeconds c) (gc_LogRetentionDays c)
  (gc_BounceAlertThresholdPercent c) (gc_ComplaintAlertThresholdPercent c) (gc_DomainRecheckIntervalHours c)
  v (gc_ExternalIntegrations c) (gc_UpdatedAt c).
Definition with_integrations v c := mkGlobalConfig (gc_DefaultRetryCount c) (gc_RetryBackoffBaseSeconds c) (gc_LogRetentionDays c)
  (gc_BounceAlertThresholdPercent c) (gc_ComplaintAlertThresholdPercent c) (gc_DomainRecheckIntervalHours c)
  (gc_OnboardingCompleted c) v (gc_UpdatedAt c).
Definition with_config_time v c := mkGlobalConfig (gc_DefaultRetryCount c) (gc_RetryBackoffBaseSeconds c) (gc_LogRetentionDays c)
  (gc_BounceAlertThresholdPercent c) (gc_ComplaintAlertThresholdPercent c) (gc_DomainRecheckIntervalHours c)
  (gc_OnboardingCompleted c) (gc_ExternalIntegrations c) v.

Section Repo.
Context `{GoStd} `{JSON Z} `{JSON float64} `{JSON bool} `{JSON (list ExternalIntegrationProfile)} `{RowOrder}.

Definition decode {A} `{JSON A} (value : string) (set : A -> GlobalConfig) : Res GlobalConfig :=
  match Unmarshal value with Ok v => Ok (set v) | Err e => Err e end.

(** Unknown keys are ignored. *)
Definition mapConfigValue (cfg : GlobalConfig) (key value : string) : Res GlobalConfig :=
  if bool_decide (key = "email.default_retry_count") then decode value (fun v => with_retry_count v cfg)
  else if bool_decide (key = "email.retry_backoff_base_seconds") then decode value (fun v => with_backoff v cfg)
  else if bool_decide (key = "email.log_retention_days") then decode value (fun v => with_retention v cfg)
  else if bool_decide (key = "bounce.alert_threshold_percent") then decode value (fun v => with_bounce (float_bits v) cfg)
  else if bool_decide (key = "complaint.alert_threshold_percent") then decode value (fun v => with_complaint (float_bits v) cfg)
  else if bool_decide (key = "domain.recheck_interval_hours") then decode value (fun v => with_recheck v cfg)
  else if bool_decide (key = "onboarding.completed") then decode value (fun v => with_onboarding v cfg)
  else if bool_decide (key = "external.integrations") then decode value (fun v => with_integrations v cfg)
  else Ok cfg.

(** The loop over the rows, with the latest update seen. *)
Fixpoint read_rows (cfg : GlobalConfig) (latest : gotime) (rows : list (string * (string * gotime))) : Res GlobalConfig :=
  match rows with
  | [] => Ok (with_config_time latest cfg)
  | (key, (value, updatedAt)) :: r =>
      match mapConfigValue cfg key value with
      | Err e => Err (EWrap ("mapping config key " +:+ Quote key +:+ ": ") e "")
      | Ok cfg => read_rows cfg (if (latest <? updatedAt)%Z then updatedAt else latest) r
      end
  end.

Definition GlobalConfigRepo_Get : M Cfg GlobalConfig :=
  query (wrapping "querying global_config") (fun t => read_rows zero_config time_zero (row_order t)).

Definition config_entries (cfg : GlobalConfig) : list (string * Res string) :=
  [("email.default_retry_count", Marshal (gc_DefaultRetryCount cfg));
   ("email.retry_backoff_base_seconds", Marshal (gc_RetryBackoffBaseSeconds cfg));
   ("email.log_retention_days", Marshal (gc_LogRetentionDays cfg));
   ("bounce.alert_threshold_percent", Marshal (mkFloat (gc_BounceAlertThresholdPercent cfg)));
   ("complaint.alert_threshold_percent", Marshal (mkFloat (gc_ComplaintAlertThresholdPercent cfg)));
   ("domain.recheck_interval_hours", Marshal (gc_DomainRecheckIntervalHours cfg));
   ("onboarding.completed", Marshal (gc_OnboardingCompleted cfg));
   ("external.integrations", Marshal (gc_ExternalIntegrations cfg))].

(** One statement a key, outside a transaction. *)
Definition upsert_entry (entry : string * Res string) : M Cfg unit :=
  let '(key, valueJSON) := entry in
  match valueJSON with
  | Err e => fail (EWrap ("marshaling config key " +:+ Quote key +:+ ": ") e "")
  | Ok value => exec (wrapping ("upserting config key " +:+ Quote key)) (fun now t => (Ok tt, <[key := (value, now)]> t))
  end.

Definition GlobalConfigRepo_Upsert (cfg : GlobalConfig) : M Cfg unit := for_each (config_entries cfg) upsert_entry.

Definition GlobalConfigRepo : GlobalConfigStore.t Cfg := {|
  GlobalConfigStore.Get := GlobalConfigRepo_Get;
  GlobalConfigStore.Upsert := GlobalConfigRepo_Upsert;
|}.
End Repo.

(** ** The handlers *)

Record OIDCInfo := mkOIDCInfo { oi_DiscoveryURL : string; oi_ClientID : string; oi_ClientSecretSet : bool }.

Record EmailDefaultsUpdate := mkEmailDefaults {
  ed_MaxRetries : option Z; ed_BackoffBaseSeconds : option Z; ed_LogRetentionDays : option Z }.
Record AlertsUpdate := mkAlerts { al_BounceThresholdPercent : option Z; al_ComplaintThresholdPercent : option Z }.
Record DomainUpdate := mkDomainUpdate { du_RecheckIntervalHours : option Z }.

(** [request.UpdateConfigRequest]; a profile of the request has the fields of
    the profile of the domain. *)
Record UpdateConfigRequest := mkUpdateConfig {
  uc_EmailDefaults : option EmailDefaultsUpdate;
  uc_Alerts : option AlertsUpdate;
  uc_Domain : option DomainUpdate;
  uc_ExternalIntegrations : option (list ExternalIntegrationProfile);
}.

Section Handlers.
Context `{GoStd} `{UrlParser} {W : Type} (store : GlobalConfigStore.t W) (oidc : OIDCInfo) (time_Now : M W gotime).
Context `{Binder UpdateConfigRequest}.

Definition int_field (name : string) (z : Z) : list (string * any) := field name (AInt z).
(** [append([]string(nil), l...)]: a copy of no strings is nil. *)
Definition strings (name : string) (l : list string) : list (string * any) :=
  field name match l with [] => ANil | _ => AList (AStr <$> l) end.

Definition capabilities_response (c : ExternalIntegrationCapabilities) : any :=
  AMap (flag "list_templates" (cap_ListTemplates c) ++ flag "view_versions" (cap_ViewVersions c)
        ++ flag "edit_versions" (cap_EditVersions c) ++ flag "publish_versions" (cap_PublishVersions c)
        ++ flag "test_send" (cap_TestSend c) ++ flag "builder_access" (cap_BuilderAccess c)
        ++ flag "metadata_access" (cap_MetadataAccess c) ++ flag "locale_access" (cap_LocaleAccess c)).

Definition profile_response (p : ExternalIntegrationProfile) : any :=
  AMap (text "slug" (xp_Slug p) ++ text "name" (xp_Name p) ++ text "description" (xp_Description p)
        ++ flag "enabled" (xp_Enabled p) ++ text "auth_method_name" (xp_AuthMethodName p)
        ++ text "resolver_name" (xp_ResolverName p) ++ strings "allowed_origins" (xp_AllowedOrigins p)
        ++ strings "allowed_headers" (xp_AllowedHeaders p) ++ strings "required_headers" (xp_RequiredHeaders p)
        ++ field "capabilities" (capabilities_response (xp_Capabilities p))).

Definition NewConfigResponse (cfg : GlobalConfig) : any :=
  AMap (field "oidc" (AMap (text "discovery_url" (oi_DiscoveryURL oidc) ++ text "client_id" (oi_ClientID oidc)
                            ++ flag "client_secret_set" (oi_ClientSecretSet oidc)))
        ++ field "email_defaults" (AMap (int_field "max_retries" (gc_DefaultRetryCount cfg)
                                         ++ int_field "backoff_base_seconds" (gc_RetryBackoffBaseSeconds cfg)
                                         ++ int_field "log_retention_days" (gc_LogRetentionDays cfg)))
        ++ field "alerts" (AMap (field "bounce_threshold_percent" (AFloat (gc_BounceAlertThresholdPercent cfg))
                                 ++ field "complaint_threshold_percent" (AFloat (gc_ComplaintAlertThresholdPercent cfg))))
        ++ field "domain" (AMap (int_field "recheck_interval_hours" (gc_DomainRecheckIntervalHours cfg)))
        ++ field "external_integrations" (AMap (field "profiles" (AList (profile_response <$> gc_ExternalIntegrations cfg))))).

Definition Config_Get : HandlerFunc W :=
  stored (up (GlobalConfigStore.Get store)) (fun cfg => JSON_reply 200 (NewConfigResponse cfg)).

(** [if req.X != nil { cfg.X = *req.X }]. *)
Definition patch {A} (set : A -> GlobalConfig -> GlobalConfig) (o : option A) (cfg : GlobalConfig) : GlobalConfig :=
  match o with Some v => set v cfg | None => cfg end.
Definition patch_section {S} (f : S -> GlobalConfig -> GlobalConfig) (o : option S) (cfg : GlobalConfig) : GlobalConfig :=
  match o with Some s => f s cfg | None => cfg end.

Definition apply_config_request (req : UpdateConfigRequest) (cfg : GlobalConfig) : GlobalConfig :=
  let cfg := patch_section (fun d cfg => patch with_retention (ed_LogRetentionDays d)
                              (patch with_backoff (ed_BackoffBaseSeconds d) (patch with_retry_count (ed_MaxRetries d) cfg)))
                           (uc_EmailDefaults req) cfg in
  let cfg := patch_section (fun a cfg => patch with_complaint (al_ComplaintThresholdPercent a)
                              (patch with_bounce (al_BounceThresholdPercent a) cfg)) (uc_Alerts req) cfg in
  let cfg := patch_section (fun d cfg => patch with_recheck (du_RecheckIntervalHours d) cfg) (uc_Domain req) cfg in
  patch (fun l => with_integrations (NormalizeExternalIntegrationProfiles l)) (uc_ExternalIntegrations req) cfg.

Definition Config_Update : HandlerFunc W :=
  stored (up (GlobalConfigStore.Get store)) (fun cfg =>
    let! c := conn in
    match Bind c with
    | Err _ => WriteError 400 "BAD_REQUEST" "invalid request body"
    | Ok req =>
        let cfg := apply_config_request req cfg in
        match GlobalConfig_Validate (Some cfg) with
        | Err e => WriteError 422 "VALIDATION_ERROR" (error_string e)
        | Ok _ =>
            let! now := up time_Now in
            let cfg := with_config_time now cfg in
            stored (up (GlobalConfigStore.Upsert store cfg)) (fun _ => JSON_reply 200 (NewConfigResponse cfg))
        end
    end).
End Handlers.

(** * Theorems *)

(** ** Round trip of the configuration *)

Section RoundTrip.
Context `{GoStd} `{JSON Z} `{JSON float64} `{JSON bool} `{JSON (list ExternalIntegrationProfile)} `{RowOrder}.
Context `{!RowOrderLaws} `{!JSONLaws Z} `{!JSONLaws float64} `{!JSONLaws bool} `{!JSONLaws (list ExternalIntegrationProfile)}.
Implicit Types (cfg : GlobalConfig) (t : ConfigTable).

(** The fields whose keys are among [ks] come from [cfg]. *)
Definition pick {A} (ks : gset string) (key : string) (v z : A) : A := if decide (key ∈ ks) then v else z.
Definition taken (ks : gset string) cfg : GlobalConfig := {|
  gc_DefaultRetryCount := pick ks "email.default_retry_count" (gc_DefaultRetryCount cfg) 0%Z;
  gc_RetryBackoffBaseSeconds := pick ks "email.retry_backoff_base_seconds" (gc_RetryBackoffBaseSeconds cfg) 0%Z;
  gc_LogRetentionDays := pick ks "email.log_retention_days" (gc_LogRetentionDays cfg) 0%Z;
  gc_BounceAlertThresholdPercent := pick ks "bounce.alert_threshold_percent" (gc_BounceAlertThresholdPercent cfg) 0%Z;
  gc_ComplaintAlertThresholdPercent := pick ks "complaint.alert_threshold_percent" (gc_ComplaintAlertThresholdPercent cfg) 0%Z;
  gc_DomainRecheckIntervalHours := pick ks "domain.recheck_interval_hours" (gc_DomainRecheckIntervalHours cfg) 0%Z;
  gc_OnboardingCompleted := pick ks "onboarding.completed" (gc_OnboardingCompleted cfg) false;
  gc_ExternalIntegrations := pick ks "external.integrations" (gc_ExternalIntegrations cfg) [];
  gc_UpdatedAt := time_zero |}.

Lemma pick_same {A} ks key (v z : A) : pick ({[key]} ∪ ks) key v z = v.
Proof. unfold pick. rewrite decide_True; [done|set_solver]. Qed.
Lemma pick_other {A} ks key x (v z : A) : x <> key -> pick ({[x]} ∪ ks) key v z = pick ks key v z.
Proof. intros Hx. unfold pick. destruct (decide (key ∈ ks)); [rewrite decide_True|rewrite decide_False]; set_solver. Qed.

Definition config_keys : list string := (config_entries zero_config).*1.

(** The rows hold the values of [cfg]; other keys are anything. *)
Definition holds cfg t : Prop :=
  forall key v, (key, Ok v) ∈ config_entries cfg -> exists at_, t !! key = Some (v, at_).

Lemma upsert_entries_hold (l : list (string * Res string)) (s s' : Cfg) :
  NoDup l.*1 -> for_each l upsert_entry s = (Ok tt, s') ->
  (forall key v, (key, v) ∈ l -> exists raw at_, v = Ok raw /\ db_tables s' !! key = Some (raw, at_)) /\
  (forall key, key ∉ l.*1 -> db_tables s' !! key = db_tables s !! key).
Proof.
  revert s. induction l as [|[key [value|e] ] l IH]; intros s Hnd E; simpl in E.
  - injection E as <-. split; [set_solver|done].
  - csimpl in *. apply NoDup_cons in Hnd as [Hn Hnd]. apply bind_Ok in E as ([] & s1 & E1 & E).
    apply exec_Ok in E1. injection E1 as E1. destruct (IH s1 Hnd E) as [Hin Hout]. split.
    + intros k v [ [= -> ->]|Hk]%elem_of_cons; [|by apply Hin]. exists value, (db_clock s). split; [done|].
      rewrite Hout by done. rewrite <- E1. apply lookup_insert_eq.
    + intros k Hk. apply not_elem_of_cons in Hk as [Hk1 Hk2]. rewrite Hout by done. rewrite <- E1. apply lookup_insert_ne. congruence.
  - done.
Qed.

Lemma config_keys_distinct cfg : NoDup (config_entries cfg).*1.
Proof. apply (bool_decide_eq_true_1 (NoDup config_keys)). vm_compute. reflexivity. Qed.

(** One row adds its key. *)

(** The row of a known key is the one that was written. *)
Ltac this_entry H :=
  repeat (apply elem_of_cons in H as [H|H]; [try discriminate H|]); [..|by apply not_elem_of_nil in H];
  injection H as H; symmetry in H; apply json_decode_encode in H.

Lemma taken_step ks cfg key value : (key ∈ config_keys -> (key, Ok value) ∈ config_entries cfg) ->
  mapConfigValue (taken ks cfg) key value = Ok (taken ({[key]} ∪ ks) cfg).
Proof.
  intros Hrow. unfold mapConfigValue.
  repeat (let Hk := fresh "Hk" in case_bool_decide as Hk;
    [subst key; specialize (Hrow ltac:(apply (bool_decide_eq_true_1 _); reflexivity)); this_entry Hrow;
     unfold decode; rewrite Hrow; unfold taken; rewrite pick_same, !pick_other by discriminate; reflexivity|]).
  unfold taken. by rewrite !pick_other.
Qed.

Lemma read_rows_taken cfg (rows : list (string * (string * gotime))) ks latest :
  (forall key value at_, (key, (value, at_)) ∈ rows -> key ∈ config_keys -> (key, Ok value) ∈ config_entries cfg) ->
  exists updated, read_rows (taken ks cfg) latest rows = Ok (with_config_time updated (taken (list_to_set rows.*1 ∪ ks) cfg)).
Proof.
  revert ks latest. induction rows as [|[key [value at_] ] rows IH]; intros ks latest Hrows; simpl.
  - exists latest. by rewrite (left_id_L ∅ (∪)).
  - rewrite (taken_step ks cfg key value); [|intros Hk; eapply Hrows; [by left|done] ].
    edestruct (IH ({[key]} ∪ ks)) as [u E]; [intros k v a Hin; eapply Hrows; by right|]. exists u. rewrite E. do 2 f_equal.
    f_equal. set_solver.
Qed.

Lemma taken_all ks cfg : (forall key, key ∈ config_keys -> key ∈ ks) -> with_config_time (gc_UpdatedAt cfg) (taken ks cfg) = cfg.
Proof.
  intros Hall. assert (Hp : forall A key (v z : A), key ∈ config_keys -> pick ks key v z = v).
  { intros A key v z Hk. unfold pick. by rewrite decide_True by auto. }
  unfold with_config_time, taken. simpl.
  rewrite !Hp by (apply (bool_decide_eq_true_1 _); reflexivity). by destruct cfg.
Qed.

(** C23: what is saved is what is read: after an update of the global
    configuration that reports success, reading it - in whatever order the
    database returns the rows - gives the same configuration but for the time of
    the update. *)
Theorem GlobalConfig_roundtrip cfg (s s' : Cfg) :
  GlobalConfigRepo_Upsert cfg s = (Ok tt, s') -> db_faults s' = [] ->
  exists updated, (GlobalConfigRepo_Get s').1 = Ok (with_config_time updated cfg).
Proof.
  intros E Hf. destruct (upsert_entries_hold _ _ _ (config_keys_distinct cfg) E) as [Hin _].
  unfold GlobalConfigRepo_Get. rewrite query_calm by done.
  assert (Hrows : forall key value at_, (key, (value, at_)) ∈ row_order (db_tables s') -> key ∈ config_keys ->
                  (key, Ok value) ∈ config_entries cfg).
  { intros key value at_ Hk Hc. rewrite row_order_perm, elem_of_map_to_list in Hk.
    change config_keys with (config_entries cfg).*1 in Hc. apply list_elem_of_fmap in Hc as ([k v] & -> & Hc).
    destruct (Hin _ _ Hc) as (raw & u & -> & El). simpl in Hk. rewrite El in Hk. by injection Hk as <- <-. }
  destruct (read_rows_taken cfg (row_order (db_tables s')) ∅ time_zero Hrows) as [u Er].
  exists u. change zero_config with (taken ∅ cfg). simpl. rewrite Er. f_equal.
  rewrite <- (taken_all (list_to_set (row_order (db_tables s')).*1 ∪ ∅) cfg) at 2; [done|].
  intros key Hc. apply elem_of_union_l, elem_of_list_to_set. change config_keys with (config_entries cfg).*1 in Hc.
  apply list_elem_of_fmap in Hc as ([k v] & -> & Hc). destruct (Hin _ _ Hc) as (raw & u' & -> & El).
  apply list_elem_of_fmap. exists (k, (raw, u')). split; [done|]. by rewrite row_order_perm, elem_of_map_to_list.
Qed.
End RoundTrip.
