(* ===== verification/External.v ===== *)
(** * The external integration surface ([middleware/external_integration.go], [handler/external_integration.go])

    Embedded builders and portals reach the templates of a workspace through a
    profile: the profile names an auth method and a workspace resolver, code of
    the deployment, and bounds what a request may do. The middleware in front of
    every external route, its CORS policy and the handlers of the surface. *)
From stdpp Require Import base gmap strings list sorting.
From Stdlib Require Import ZArith Ascii String Lia.
From S2P Require Import Prelude GoMonad Domain Ports Token Config Http.
From S2P Require Import Database Directory Members Templates Inheritance TemplateHandlers ConfigStore.

(** ** The code of the deployment

    A request and an auth result are passed by pointer: what the callee leaves
    in them is part of its result. A nil result is [None]. *)

(** [port.WorkspaceExistenceStore], [port.WorkspaceFilter]. *)
Definition WorkspaceExistenceStore (W : Type) : Type := string -> list string -> Environment -> M W (gmap string bool).
Definition WorkspaceFilter (W : Type) : Type := list string -> M W (gmap string bool).

Record ExternalAuthMethod (W : Type) := mkAuthMethod {
  xam_Name : string;
  xam_Description : string;
  Authenticate : ExternalIntegrationRequest -> M W (ExternalIntegrationRequest * option ExternalAuthResult);
}.
Record ExternalWorkspaceResolver (W : Type) := mkResolver {
  xwr_Name : string;
  xwr_Description : string;
  ResolveWorkspace : ExternalIntegrationRequest -> option ExternalAuthResult -> option (WorkspaceFilter W) ->
    M W (ExternalIntegrationRequest * option ExternalAuthResult * option ExternalWorkspaceResolution);
}.
Arguments mkAuthMethod {W}. Arguments xam_Name {W}. Arguments xam_Description {W}. Arguments Authenticate {W}.
Arguments mkResolver {W}. Arguments xwr_Name {W}. Arguments xwr_Description {W}. Arguments ResolveWorkspace {W}.

Inductive ExternalAction :=
| ExternalActionListTemplates | ExternalActionViewVersions | ExternalActionEditVersions | ExternalActionPublishVersions
| ExternalActionTestSend | ExternalActionBuilderAccess | ExternalActionMetadataAccess | ExternalActionLocaleAccess
| ExternalActionOther (raw : string).

Definition ExternalIntegrationEnvironmentHeader : string := "X-Senda-Environment".
Definition ExternalIntegrationTokenHeader : string := "x-senda-external-token".

(** [externalIntegrationRuntimeDependencies] and the handler over them: of the
    methods with one name the last counts. *)
Record ExternalIntegrationHandler (W : Type) := mkExternalHandler {
  eh_store : GlobalConfigStore.t W;
  eh_authMethods : gmap string (ExternalAuthMethod W);
  eh_resolvers : gmap string (ExternalWorkspaceResolver W);
}.
Arguments mkExternalHandler {W}. Arguments eh_store {W}. Arguments eh_authMethods {W}. Arguments eh_resolvers {W}.

Definition by_name {A} (name : A -> string) (l : list (option A)) : gmap string A :=
  fold_left (fun m o => match o with Some a => <[name a := a]> m | None => m end) l ∅.

Definition NewExternalIntegrationHandler {W} (store : GlobalConfigStore.t W) (authMethods : list (option (ExternalAuthMethod W)))
    (resolvers : list (option (ExternalWorkspaceResolver W))) : ExternalIntegrationHandler W :=
  mkExternalHandler store (by_name xam_Name authMethods) (by_name xwr_Name resolvers).

Section External.
Context `{GoStd} {W : Type} (h : ExternalIntegrationHandler W).
#[local] Abbreviation Handler := (HandlerFunc W).
#[local] Abbreviation Middleware := (MiddlewareFunc W).

Definition LoadProfileBySlug (slug : string) : M W ExternalIntegrationProfile :=
  let! cfg := GlobalConfigStore.Get (eh_store h) in
  let slug := TrimSpace (ToLower slug) in
  match List.find (fun p => bool_decide (xp_Slug p = slug)) (gc_ExternalIntegrations cfg) with
  | None => fail (ESent ErrNotFound)
  | Some profile => if negb (xp_Enabled profile) then fail (ESent ErrForbidden) else ret profile
  end.

Definition AuthMethodByName (name : string) : option (ExternalAuthMethod W) := eh_authMethods h !! name.
Definition ResolverByName (name : string) : option (ExternalWorkspaceResolver W) := eh_resolvers h !! name.

(** *** The steps of the middleware

    A step answers the request itself and returns its zero value, with the
    error of the write; the middleware stops on an error or when the response
    is seen to be committed. *)
Definition responseCommitted (c : Conn) : bool := committed c.

Definition step {A} (m : M (W * Conn) A) (k : A -> Handler) : Handler :=
  try! r := m in
  let! c := conn in
  match r with
  | Err e => fail e
  | Ok a => if responseCommitted c then ret tt else k a
  end.

Definition refuse {A} (zero : A) (status : Z) (code message : string) : M (W * Conn) A :=
  WriteError status code message ;;; ret zero.

Definition no_capabilities : ExternalIntegrationCapabilities := mkCapabilities false false false false false false false false.
Definition no_profile : ExternalIntegrationProfile := mkProfile "" "" "" false "" "" [] [] [] no_capabilities.

Definition mapExternalProfileLoadError (e : error) : Handler :=
  if errors_Is e ErrForbidden then WriteError 403 "FORBIDDEN" "external integration profile is disabled"
  else if errors_Is e ErrNotFound then WriteError 404 "NOT_FOUND" "external integration profile not found"
  else WriteError 500 "INTERNAL_ERROR" "failed to load external integration profile".

Definition loadExternalProfileForRequest : M (W * Conn) ExternalIntegrationProfile :=
  let! c := conn in
  let profileSlug := TrimSpace (Param "profile_slug" c) in
  if bool_decide (profileSlug = "") then refuse no_profile 400 "BAD_REQUEST" "missing profile slug"
  else
    try! r := up (LoadProfileBySlug profileSlug) in
    match r with
    | Ok profile => ret profile
    | Err e => mapExternalProfileLoadError e ;;; ret no_profile
    end.

Definition validateExternalEnvironment : Handler :=
  let! c := conn in
  let environmentHeader := Header ExternalIntegrationEnvironmentHeader c in
  if bool_decide (TrimSpace environmentHeader = "")
  then WriteError 400 "BAD_REQUEST" "missing required header X-Senda-Environment"
  else match ParseEnvironment environmentHeader with
       | Err _ => WriteError 400 "BAD_REQUEST" "invalid X-Senda-Environment header"
       | Ok _ => ret tt
       end.

Definition validateExternalRequiredHeaders (profile : ExternalIntegrationProfile) : Handler :=
  let! c := conn in
  match List.find (fun header => bool_decide (Header header c = "")) (xp_RequiredHeaders profile) with
  | Some header => WriteError 401 "UNAUTHORIZED" ("missing required header " +:+ header)
  | None => ret tt
  end.

Definition validateExternalTokenTransport : Handler :=
  let! c := conn in
  if negb (bool_decide (TrimSpace (QueryParam "token" c) = ""))
  then WriteError 401 "UNAUTHORIZED" "external integration token must be provided via x-senda-external-token header"
  else if bool_decide (TrimSpace (Header ExternalIntegrationTokenHeader c) = "")
  then WriteError 401 "UNAUTHORIZED" ("missing required header " +:+ ExternalIntegrationTokenHeader)
  else ret tt.

Definition resolveExternalDependencies (profile : ExternalIntegrationProfile)
  : M (W * Conn) (option (ExternalAuthMethod W) * option (ExternalWorkspaceResolver W)) :=
  match AuthMethodByName (xp_AuthMethodName profile) with
  | None => refuse (None, None) 500 "INTERNAL_ERROR" "external auth method not registered"
  | Some authMethod =>
      match ResolverByName (xp_ResolverName profile) with
      | None => refuse (None, None) 500 "INTERNAL_ERROR" "external workspace resolver not registered"
      | Some resolver => ret (Some authMethod, Some resolver)
      end
  end.

Definition collectAllowedHeaders (headers : gmap string (list string)) (allowed : list string) : gmap string string :=
  fold_left (fun out header =>
    let value := header_get headers header in
    if bool_decide (value = "") then out else <[header := value]> out) allowed ∅.

(** The first value of each query parameter that has one. *)
Definition copyQueryParams (c : Conn) : gmap string string := omap List.head (cn_Query c).

Definition newExternalIntegrationRequest (c : Conn) (profile : ExternalIntegrationProfile) : ExternalIntegrationRequest := {|
  xr_ProfileSlug := xp_Slug profile;
  xr_Environment := match ParseEnvironment (Header ExternalIntegrationEnvironmentHeader c) with
                    | Ok e => e | Err _ => EnvironmentOther "" end;
  xr_TenantCode := Param "tenant_code" c;
  xr_WorkspaceCodes := if bool_decide (Param "workspace_code" c = "") then [] else [Param "workspace_code" c];
  xr_Token := TrimSpace (Header ExternalIntegrationTokenHeader c);
  xr_Headers := collectAllowedHeaders (cn_Headers c) (xp_AllowedHeaders profile);
  xr_QueryParams := copyQueryParams c;
  xr_Path := cn_Path c;
  xr_Method := cn_Method c;
|}.

Definition authenticateExternalRequest (authMethod : option (ExternalAuthMethod W)) (reqCtx : ExternalIntegrationRequest)
  : M (W * Conn) (ExternalIntegrationRequest * option ExternalAuthResult) :=
  match authMethod with
  | None => fail nil_dereference
  | Some authMethod =>
      try! r := up (Authenticate authMethod reqCtx) in
      match r with
      | Err e => if errors_Is e errExternalAuthDenied
                 then refuse (reqCtx, None) 403 "FORBIDDEN" "external integration access denied"
                 else refuse (reqCtx, None) 500 "INTERNAL_ERROR" "external integration auth failed"
      | Ok (reqCtx, Some authResult) => ret (reqCtx, Some authResult)
      | Ok (reqCtx, None) => ret (reqCtx, Some (mkAuthResult no_permissions ∅))
      end
  end.

Definition buildWorkspaceFilter (store : option (WorkspaceExistenceStore W)) (reqCtx : ExternalIntegrationRequest)
  : option (WorkspaceFilter W) :=
  match store with
  | None => None
  | Some exists_active => Some (fun codes =>
      match codes with [] => ret ∅ | _ => exists_active (xr_TenantCode reqCtx) codes (xr_Environment reqCtx) end)
  end.

(** What the resolution leaves: the request and the auth result as the resolver
    left them, the resolution, the effective code and whether it is read-only. *)
Record Resolved := mkResolved {
  rs_request : ExternalIntegrationRequest;
  rs_auth : option ExternalAuthResult;
  rs_resolution : option ExternalWorkspaceResolution;
  rs_code : string;
  rs_readOnly : bool;
}.

Definition resolveExternalWorkspace (resolver : option (ExternalWorkspaceResolver W)) (reqCtx : ExternalIntegrationRequest)
    (authResult : option ExternalAuthResult) (filter : option (WorkspaceFilter W)) : M (W * Conn) Resolved :=
  match resolver with
  | None => fail nil_dereference
  | Some resolver =>
      try! r := up (ResolveWorkspace resolver reqCtx authResult filter) in
      let nothing := mkResolved reqCtx authResult None "" false in
      match r with
      | Err _ | Ok (_, _, None) => refuse nothing 500 "INTERNAL_ERROR" "external workspace resolution failed"
      | Ok (reqCtx, authResult, Some resolution) =>
          let readOnly := wr_ReadOnly resolution in
          let effective := if readOnly then "_system" else wr_WorkspaceCode resolution in
          if bool_decide (TrimSpace effective = "")
          then refuse nothing 403 "FORBIDDEN" "workspace resolution returned no workspace"
          else if bool_decide (effective = "_system") && negb readOnly
          then refuse nothing 403 "FORBIDDEN" "system workspace is read-only for this integration"
          else
            let! c := conn in
            let requested := Param "workspace_code" c in
            if negb readOnly && negb (bool_decide (requested = "")) && negb (bool_decide (requested = effective))
            then refuse nothing 403 "FORBIDDEN" "workspace resolution mismatch"
            else ret (mkResolved reqCtx authResult (Some resolution) effective readOnly)
      end
  end.

Definition combinePermissions (profile : ExternalIntegrationCapabilities) (auth : ExternalPermissions) : ExternalPermissions :=
  mkPermissions (cap_ListTemplates profile && prm_ListTemplates auth) (cap_ViewVersions profile && prm_ViewVersions auth)
    (cap_EditVersions profile && prm_EditVersions auth) (cap_PublishVersions profile && prm_PublishVersions auth)
    (cap_TestSend profile && prm_TestSend auth) (cap_BuilderAccess profile && prm_BuilderAccess auth)
    (cap_MetadataAccess profile && prm_MetadataAccess auth) (cap_LocaleAccess profile && prm_LocaleAccess auth).

Definition patchExternalWorkspaceParam (workspaceCode : string) (params : list (string * string)) : list (string * string) :=
  (fun pv => if bool_decide (pv.1 = "workspace_code") then (pv.1, workspaceCode) else pv) <$> params.

Definition external_values (profile : ExternalIntegrationProfile) (authResult : ExternalAuthResult) (rs : Resolved) (v : Values)
  : Values :=
  mkValues (v_request_id v) (v_auth_type v) (v_member v) (v_roles v) (v_workspace_id v)
    (Some (xr_Environment (rs_request rs))) (xr_TenantCode (rs_request rs)) (rs_code rs)
    (Some profile) (Some authResult) (rs_resolution rs)
    (Some (combinePermissions (xp_Capabilities profile) (ar_Permissions authResult)))
    (rs_readOnly rs) (rs_code rs) (xr_Headers (rs_request rs)).

Definition applyExternalIntegrationContext (profile : ExternalIntegrationProfile) (rs : Resolved) : Handler :=
  match rs_auth rs with
  | None => fail nil_dereference
  | Some authResult =>
      set_value (external_values profile authResult rs) ;;;
      set_state (set_params (patchExternalWorkspaceParam (rs_code rs)))
  end.

Definition ExternalIntegration (store : option (WorkspaceExistenceStore W)) : Middleware := fun next =>
  step loadExternalProfileForRequest (fun profile =>
  step validateExternalEnvironment (fun _ =>
  step (validateExternalRequiredHeaders profile) (fun _ =>
  step validateExternalTokenTransport (fun _ =>
  step (resolveExternalDependencies profile) (fun '(authMethod, resolver) =>
    let! c := conn in
    step (authenticateExternalRequest authMethod (newExternalIntegrationRequest c profile)) (fun '(reqCtx, authResult) =>
    step (resolveExternalWorkspace resolver reqCtx authResult (buildWorkspaceFilter store reqCtx)) (fun rs =>
      applyExternalIntegrationContext profile rs ;;; next))))))).

(** *** Capabilities *)

Definition hasExternalCapability (perms : ExternalPermissions) (action : ExternalAction) : bool :=
  match action with
  | ExternalActionListTemplates => prm_ListTemplates perms
  | ExternalActionViewVersions => prm_ViewVersions perms
  | ExternalActionEditVersions => prm_EditVersions perms
  | ExternalActionPublishVersions => prm_PublishVersions perms
  | ExternalActionTestSend => prm_TestSend perms
  | ExternalActionBuilderAccess => prm_BuilderAccess perms
  | ExternalActionMetadataAccess => prm_MetadataAccess perms
  | ExternalActionLocaleAccess => prm_LocaleAccess perms
  | ExternalActionOther _ => false
  end.

Definition externalPermissions (v : Values) : ExternalPermissions := default no_permissions (v_permissions v).
Definition isExternalReadOnly (v : Values) : bool := v_read_only v.

Definition RequireExternalCapability (action : ExternalAction) : Middleware := fun next =>
  let! v := values in
  if negb (hasExternalCapability (externalPermissions v) action)
  then WriteError 403 "FORBIDDEN" "external capability not enabled" else next.

Definition RequireExternalMutation : Middleware := fun next =>
  let! v := values in
  if isExternalReadOnly v then WriteError 403 "FORBIDDEN" "read-only integration cannot mutate resources" else next.

Definition ExternalAllowedHeaders (c : Conn) : gmap string string := v_allowed_headers (cn_Values c).
(** *** CORS *)

Definition externalProfileSlugFromRequest (c : Conn) : string :=
  let slug := TrimSpace (Param "profile_slug" c) in
  if negb (bool_decide (slug = "")) then slug
  else match strip_prefix "/api/v1/external/" (cn_Path c) with
       | None => ""
       | Some path => TrimSpace match Cut "/" path with Some (slug, _) => slug | None => path end
       end.

Definition originAllowed (origin : string) (allowed : list string) : bool :=
  List.existsb (fun candidate => EqualFold (TrimSpace candidate) origin) allowed.

(** [http.Header.Set], [Add] and [Del] on the response. *)
Definition header_del (name : string) (l : list (string * string)) : list (string * string) :=
  List.filter (fun kv => negb (bool_decide (kv.1 = name))) l.
Definition header_add (name value : string) (l : list (string * string)) : list (string * string) := l ++ [(name, value)].
Definition header_set (name value : string) (l : list (string * string)) : list (string * string) :=
  header_add name value (header_del name l).

Definition externalCORSAllowedHeaders (allowedHeaders : list string) : list string :=
  (uniq (fun header =>
     let normalized := CanonicalHeaderKey (TrimSpace header) in
     if bool_decide (normalized = "") then None else Some (normalized, normalized)) ∅
     (["Content-Type"; "X-Request-ID"; "X-Senda-External-Token"] ++ allowedHeaders)).2.

Definition applyExternalCORSHeaders (origin : string) (allowedHeaders : list string) : Handler :=
  set_state (set_resp_headers (fun l =>
    header_set "Access-Control-Expose-Headers" "X-Request-ID"
      (header_set "Access-Control-Allow-Headers" (Join (externalCORSAllowedHeaders allowedHeaders) ", ")
        (header_set "Access-Control-Allow-Methods" (Join ["GET"; "POST"; "PUT"; "DELETE"; "OPTIONS"] ", ")
          (header_add "Vary" "Origin" (header_set "Access-Control-Allow-Origin" origin l)))))).

Definition ExternalIntegrationCORS : Middleware := fun next =>
  let! c := conn in
  let profileSlug := externalProfileSlugFromRequest c in
  if bool_decide (profileSlug = "") then next
  else
    try! r := up (LoadProfileBySlug profileSlug) in
    match r with
    | Err e => mapExternalProfileLoadError e
    | Ok profile =>
        let origin := TrimSpace (Header "Origin" c) in
        if bool_decide (origin = "") then
          (if bool_decide (cn_Method c = "OPTIONS") then NoContent 204 else next)
        else if negb (originAllowed origin (xp_AllowedOrigins profile))
        then WriteError 403 "FORBIDDEN" "origin not allowed for this external integration profile"
        else
          applyExternalCORSHeaders origin (xp_AllowedHeaders profile) ;;;
          if bool_decide (cn_Method c = "OPTIONS") then NoContent 204 else next
    end.

(** *** The handlers of the surface *)

(** The profile, or the answer already written and the zero profile. *)
Definition loadProfile : M (W * Conn) ExternalIntegrationProfile :=
  let! c := conn in
  try! r := up (LoadProfileBySlug (Param "profile_slug" c)) in
  match r with
  | Ok profile => ret profile
  | Err e =>
      (if errors_Is e ErrForbidden then WriteError 403 "FORBIDDEN" "external integration profile is disabled"
       else if errors_Is e ErrNotFound then WriteError 404 "NOT_FOUND" "external integration profile not found"
       else mapStoreError e) ;;; ret no_profile
  end.

Definition frameAncestorsFromProfile (origins : list string) : list string :=
  match origins with [] => ["'none'"] | _ => "'self'" :: origins end.

Definition applyExternalFrameHeaders (frameAncestors : list string) : Handler :=
  set_state (set_resp_headers (fun l =>
    header_set "Content-Security-Policy" ("frame-ancestors " +:+ Join frameAncestors " ") (header_del "X-Frame-Options" l))).

Definition Bootstrap : Handler :=
  let! profile := loadProfile in
  let frameAncestors := frameAncestorsFromProfile (xp_AllowedOrigins profile) in
  applyExternalFrameHeaders frameAncestors ;;;
  JSON_reply 200 (AMap (field "frame_ancestors" (AList (AStr <$> frameAncestors)))).

Definition permissions_response (p : ExternalPermissions) : any :=
  AMap (flag "list_templates" (prm_ListTemplates p) ++ flag "view_versions" (prm_ViewVersions p)
        ++ flag "edit_versions" (prm_EditVersions p) ++ flag "publish_versions" (prm_PublishVersions p)
        ++ flag "test_send" (prm_TestSend p) ++ flag "builder_access" (prm_BuilderAccess p)
        ++ flag "metadata_access" (prm_MetadataAccess p) ++ flag "locale_access" (prm_LocaleAccess p)).

Definition Session : Handler :=
  let! v := values in
  JSON_reply 200 (AMap (flag "read_only" (v_read_only v)
                        ++ text "effective_workspace_code" (v_effective_workspace_code v)
                        ++ field "permissions" (permissions_response (externalPermissions v)))).
End External.

(** ** The routes ([http/routes_external.go])

    The external routes of templates and template types, with the capability
    each asks for. (Previews, test sends, injectors and policies are not here.) *)
Record ExternalRoute := mkExternalRoute {
  er_Method : string;
  er_Path : string;
  er_Action : ExternalAction;
  er_Mutation : bool;
  er_Handler : HandlerFunc Tpl;
}.

Section Routes.
Context `{GoStd} `{Codec} `{Parsers} `{JSON (option fields_map)}.
Context `{Binder CreateVersionRequest} `{Binder SetLocaleRequest}.
Context (ts : TenantStore.t Tpl) (ws : WorkspaceStore.t Tpl).
Context (h : ExternalIntegrationHandler Tpl) (store : option (WorkspaceExistenceStore Tpl)).

Definition update_version_route : ExternalRoute :=
  mkExternalRoute "PUT" "/templates/:template_id/versions/:version_id" ExternalActionEditVersions true (Templates_UpdateVersion ts ws).

Definition external_routes : list ExternalRoute :=
  [mkExternalRoute "GET" "/session" ExternalActionBuilderAccess false Session;
   mkExternalRoute "GET" "/template-types" ExternalActionListTemplates false (TemplateTypes_List ts ws);
   mkExternalRoute "GET" "/template-types/:slug" ExternalActionListTemplates false (TemplateTypes_Get ts ws);
   mkExternalRoute "GET" "/template-types/:slug/templates" ExternalActionListTemplates false (ListByTemplateType ts ws);
   mkExternalRoute "GET" "/templates/:template_id/versions" ExternalActionViewVersions false Templates_ListVersions;
   mkExternalRoute "GET" "/templates/:template_id/versions/:version_id" ExternalActionViewVersions false Templates_GetVersion;
   update_version_route;
   mkExternalRoute "POST" "/templates/:template_id/versions/:version_id/publish" ExternalActionPublishVersions true
     (Templates_PublishVersion ts ws);
   mkExternalRoute "GET" "/templates/:template_id/versions/:version_id/locales" ExternalActionLocaleAccess false Templates_ListLocales;
   mkExternalRoute "GET" "/templates/:template_id/versions/:version_id/locales/:locale" ExternalActionLocaleAccess false
     Templates_GetLocale;
   mkExternalRoute "POST" "/templates/:template_id/versions/:version_id/locales/:locale" ExternalActionLocaleAccess true
     (Templates_SetLocale ts ws);
   mkExternalRoute "PUT" "/templates/:template_id/versions/:version_id/locales/:locale" ExternalActionLocaleAccess true
     (Templates_UpdateLocale ts ws);
   mkExternalRoute "DELETE" "/templates/:template_id/versions/:version_id/locales/:locale" ExternalActionLocaleAccess true
     (Templates_DeleteLocale ts ws)].

(** The middleware of the server, of the group and of the route, in their order. *)
Definition external (route : ExternalRoute) : HandlerFunc Tpl :=
  ExternalIntegrationCORS h (RequestID (NewV7 db_runtime) (Scope
    (ExternalIntegration h store (RequireExternalCapability (er_Action route)
       ((if er_Mutation route then RequireExternalMutation else id) (er_Handler route)))))).

Definition handle_external (route : ExternalRoute) : HandlerFunc Tpl := serve (external route).
End Routes.
