(* ===== verification/ExternalSafety.v ===== *)
(** * What the external surface lets through

    A handler of an external route runs only for a request whose profile is
    enabled, whose token the profile's auth method accepted and whose workspace
    the profile's resolver chose; a request changes templates only with the
    capability of the route, granted by both, and never in read-only mode. *)
From stdpp Require Import base gmap strings list sorting.
From Stdlib Require Import ZArith NArith Ascii String Lia.
From S2P Require Import Prelude GoMonad Domain Ports Token Config Http.
From S2P Require Import Suppression Postgres Database Directory Auth Members Gates Surface Templates.
From S2P Require Import Versions Publication Inheritance TemplateHandlers TemplateSafety ConfigStore External.

(** ** Steps *)

Section Steps.
Context `{GoStd} {W V : Type} (v : W -> V).

(** [m] leaves the view alone and, unless it answers or fails, also the
    request; [Q] then relates the world before, the result and the world after. *)
Definition checks {A} (c : Conn) (m : M (W * Conn) A) (Q : W -> A -> W -> Prop) : Prop :=
  forall w, v (m (w, c)).2.1 = v w /\
    forall a x, m (w, c) = (Ok a, x) -> responseCommitted x.2 = true \/ (x.2 = c /\ Q w a x.1).

(** A check that only looks at the request. *)
Definition still {A} (P : A -> Prop) (w : W) (a : A) (w' : W) : Prop := w' = w /\ P a.

Lemma checks_ret {A} c (a : A) (Q : W -> A -> W -> Prop) : (forall w, Q w a w) -> checks c (ret a) Q.
Proof. intros Ha w. split; [done|]. intros a' x [= <- <-]. auto. Qed.

Lemma checks_fail {A} c e (Q : W -> A -> W -> Prop) : checks c (fail e) Q.
Proof. by intros w. Qed.

Lemma checks_refuse {A} c (zero : A) st code msg Q : cn_Unwraps c = true -> checks c (refuse (W:=W) zero st code msg) Q.
Proof.
  intros Hu w. unfold refuse, WriteError, WriteErrorDetails, bind, values, write. simpl.
  destruct (cn_Broken c); simpl; (split; [done|]); [done|]. intros a x [= <- <-]. left.
  unfold responseCommitted, committed. simpl. rewrite Hu, length_app. simpl.
  rewrite bool_decide_eq_false_2; [done|lia].
Qed.

Lemma checks_answer c st code msg Q : cn_Unwraps c = true -> checks c (WriteError (W:=W) st code msg) Q.
Proof.
  intros Hu w. destruct (checks_refuse c tt st code msg Q Hu w) as [Hv Ha].
  unfold refuse, bind in Hv, Ha. destruct (WriteError _ _ _ _) as [ [ []|e] x]; [done|]. by split.
Qed.

Lemma checks_conn {A} c (k : Conn -> M (W * Conn) A) Q : checks c (k c) Q -> checks c (let! c := conn in k c) Q.
Proof. intros Hk. exact Hk. Qed.

Lemma checks_try {A B} c (m : M W A) (k : Res A -> M (W * Conn) B) Q :
  preserves v m -> (forall w a w1, m w = (Ok a, w1) -> checks c (k (Ok a)) (fun w' b w2 => w' = w1 -> Q w b w2)) ->
  (forall e, checks c (k (Err e)) (fun _ _ _ => False)) -> checks c (try! r := up m in k r) Q.
Proof.
  intros Hm Hok He w. specialize (Hm w). unfold try, up. destruct (m w) as [ [a|e] w1] eqn:E; simpl in *.
  - destruct (Hok w a w1 E w1) as [Hv Ha]. split; [congruence|]. intros b x Eb. destruct (Ha b x Eb) as [?|[? ?] ]; auto.
  - destruct (He e w1) as [Hv Ha]. split; [congruence|]. intros b x Eb. destruct (Ha b x Eb) as [?|[? [] ] ]; auto.
Qed.

Lemma step_checks {A} c (m : M (W * Conn) A) k Q w r x' : checks c m Q -> step m k (w, c) = (r, x') ->
  v x'.1 = v w \/ exists a w1, v w1 = v w /\ Q w a w1 /\ k a (w1, c) = (r, x').
Proof.
  intros Hm. destruct (Hm w) as [Hv Ha]. unfold step, try, bind at 1, conn at 1, get_state. 
  destruct (m (w, c)) as [ [a|e] [w1 c1] ] eqn:E; simpl in *.
  - destruct (Ha a (w1, c1) eq_refl) as [Hc|[Hc Hq] ]; simpl in Hc; [rewrite Hc; intros [= <- <-]; by left|subst c1].
    destruct (responseCommitted c); [intros [= <- <-]; by left|]. intros Er. right. eauto.
  - intros [= <- <-]. by left.
Qed.
End Steps.

(** ** The middleware *)

Section Middleware.
Context `{GoStd} {W V : Type} (v : W -> V) (h : ExternalIntegrationHandler W) (store : option (WorkspaceExistenceStore W)).

(** The code of the deployment and the stores it reads leave the view alone. *)
Definition reads_only (f : option (WorkspaceFilter W)) : Prop := forall g, f = Some g -> forall codes, preserves v (g codes).
Record external_frame : Prop := {
  config_frame : preserves v (GlobalConfigStore.Get (eh_store h));
  auth_frame name m req : eh_authMethods h !! name = Some m -> preserves v (Authenticate m req);
  resolver_frame name r req res f : eh_resolvers h !! name = Some r -> reads_only f -> preserves v (ResolveWorkspace r req res f);
  existence_frame e : store = Some e -> forall code codes env, preserves v (e code codes env);
}.
Hypothesis frames : external_frame.

Lemma LoadProfileBySlug_frame slug : preserves v (LoadProfileBySlug h slug).
Proof.
  apply preserves_bind; [apply (config_frame frames)|]. intros cfg. cbv zeta.
  repeat case_match; (apply preserves_ret || apply preserves_fail).
Qed.

Context (c : Conn) (Hunwraps : cn_Unwraps c = true).

Lemma load_checks : checks v c (loadExternalProfileForRequest h)
  (fun w p w1 => LoadProfileBySlug h (TrimSpace (Param "profile_slug" c)) w = (Ok p, w1)).
Proof.
  apply checks_conn. cbv zeta. case_bool_decide; [by apply checks_refuse|].
  apply checks_try; [apply LoadProfileBySlug_frame| |].
  - intros w p w1 E. apply checks_ret. by intros w' ->.
  - intros e. unfold mapExternalProfileLoadError. repeat case_match; by apply checks_refuse.
Qed.

Lemma environment_checks : checks v c validateExternalEnvironment
  (still (fun _ => exists e, ParseEnvironment (Header ExternalIntegrationEnvironmentHeader c) = Ok e)).
Proof.
  apply checks_conn. cbv zeta. case_bool_decide; [by apply checks_answer|].
  destruct (ParseEnvironment _); [|by apply checks_answer]. apply checks_ret. split; [done|]. eauto.
Qed.

Lemma headers_checks p : checks v c (validateExternalRequiredHeaders p)
  (still (fun _ => forall header, header ∈ xp_RequiredHeaders p -> Header header c <> "")).
Proof.
  apply checks_conn. destruct (List.find _ _) as [header|] eqn:E; [by apply checks_answer|].
  apply checks_ret. split; [done|]. intros header Hh. apply list_elem_of_In, (List.find_none _ _ E), bool_decide_eq_false in Hh. done.
Qed.

Lemma token_checks : checks v c validateExternalTokenTransport
  (still (fun _ => TrimSpace (Header ExternalIntegrationTokenHeader c) <> "")).
Proof.
  apply checks_conn. destruct (negb _); [by apply checks_answer|]. case_bool_decide; [by apply checks_answer|].
  by apply checks_ret.
Qed.

Lemma dependencies_checks p : checks v c (resolveExternalDependencies h p)
  (still (fun '(m, r) => m = AuthMethodByName h (xp_AuthMethodName p) /\ r = ResolverByName h (xp_ResolverName p))).
Proof.
  unfold resolveExternalDependencies. destruct (AuthMethodByName _ _); [|by apply checks_refuse].
  destruct (ResolverByName _ _); [|by apply checks_refuse]. by apply checks_ret.
Qed.

(** The auth method the profile names accepts the request, and what it grants. *)
Definition accepts (p : ExternalIntegrationProfile) (w : W) (a : ExternalIntegrationRequest * option ExternalAuthResult) (w1 : W) : Prop :=
  exists m answer, AuthMethodByName h (xp_AuthMethodName p) = Some m /\
    Authenticate m (newExternalIntegrationRequest c p) w = (Ok (a.1, answer), w1) /\
    a.2 = Some (default (mkAuthResult no_permissions ∅) answer).

Lemma authenticate_checks p : checks v c
  (authenticateExternalRequest (AuthMethodByName h (xp_AuthMethodName p)) (newExternalIntegrationRequest c p)) (accepts p).
Proof.
  unfold authenticateExternalRequest. destruct (AuthMethodByName _ _) as [m|] eqn:Em; [|apply checks_fail].
  apply checks_try; [by apply (auth_frame frames (xp_AuthMethodName p))| |].
  - intros w [req [auth|] ] w1 E; apply checks_ret; intros w' ->; exists m; eexists; by rewrite Em.
  - intros e. case_match; by apply checks_refuse.
Qed.

(** What the resolver decides about the workspace, after the auth method. *)
Definition places (p : ExternalIntegrationProfile) req auth (w : W) (rs : Resolved) (w1 : W) : Prop :=
  exists rv res, ResolverByName h (xp_ResolverName p) = Some rv /\
    ResolveWorkspace rv req auth (buildWorkspaceFilter store req) w = (Ok (rs_request rs, rs_auth rs, Some res), w1) /\
    rs_readOnly rs = wr_ReadOnly res /\ rs_code rs = (if wr_ReadOnly res then "_system" else wr_WorkspaceCode res) /\
    (wr_ReadOnly res = false -> wr_WorkspaceCode res <> "_system" /\
       (Param "workspace_code" c <> "" -> wr_WorkspaceCode res = Param "workspace_code" c)).

Lemma filter_reads req : reads_only (buildWorkspaceFilter store req).
Proof.
  unfold buildWorkspaceFilter. intros g. destruct store as [e|] eqn:Es; [|done]. intros [= <-] codes.
  destruct codes; [apply preserves_ret|by apply (existence_frame frames)].
Qed.

Lemma resolve_checks p req auth : checks v c
  (resolveExternalWorkspace (ResolverByName h (xp_ResolverName p)) req auth (buildWorkspaceFilter store req)) (places p req auth).
Proof.
  unfold resolveExternalWorkspace. destruct (ResolverByName _ _) as [rv|] eqn:Er; [|apply checks_fail].
  apply checks_try; [apply (resolver_frame frames (xp_ResolverName p)); [done|apply filter_reads]| |].
  - intros w [ [req' auth'] [res|] ] w1 E; [|by apply checks_refuse]. cbv zeta.
    case_bool_decide as Hb; [by apply checks_refuse|]. destruct (bool_decide _ && _) eqn:Hs; [by apply checks_refuse|].
    apply checks_conn. cbv zeta. destruct (negb _ && _ && _) eqn:Hm; [by apply checks_refuse|]. apply checks_ret.
    intros w' ->. exists rv, res. simpl. split_and!; [by rewrite Er|done..|]. intros Hr. rewrite Hr in Hs, Hm. simpl in Hs, Hm.
    split; [intros Hc; by rewrite Hc in Hs|]. intros Hp. rewrite (bool_decide_eq_false_2 _ Hp) in Hm. simpl in Hm.
    by apply negb_false_iff, bool_decide_eq_true in Hm.
  - intros e. by apply checks_refuse.
Qed.

(** *** The request a handler sees *)

(** The decisions of the middleware, each made in the world the one before it
    left: the profile is loaded, its auth method accepts the request, and its
    resolver chooses the workspace and leaves the result [auth] of the auth
    method. *)
Definition decided (w : W) (p : ExternalIntegrationProfile) (rs : Resolved) (w3 : W) : Prop :=
  exists w1 a w2, LoadProfileBySlug h (TrimSpace (Param "profile_slug" c)) w = (Ok p, w1) /\
    accepts p w1 a w2 /\ places p a.1 a.2 w2 rs w3.

Record admitted (w w3 : W) (c1 : Conn) : Prop := {
  ad_environment : exists e, ParseEnvironment (Header ExternalIntegrationEnvironmentHeader c) = Ok e;
  ad_token : TrimSpace (Header ExternalIntegrationTokenHeader c) <> "";
  ad_profile : exists p rs auth, decided w p rs w3 /\ rs_auth rs = Some auth /\
    (forall header, header ∈ xp_RequiredHeaders p -> Header header c <> "") /\
    cn_Params c1 = patchExternalWorkspaceParam (rs_code rs) (cn_Params c) /\
    cn_Values c1 = external_values p auth rs (cn_Values c);
}.

Lemma ExternalIntegration_gate next w r x' :
  ExternalIntegration h store next (w, c) = (r, x') ->
  v x'.1 = v w \/ exists w1 c1, v w1 = v w /\ admitted w w1 c1 /\ next (w1, c1) = (r, x').
Proof.
  unfold ExternalIntegration. intros E.
  apply (step_checks v c _ _ _ _ _ _ load_checks) in E as [?|(p & w1 & E1 & Hp & E)]; [by left|].
  apply (step_checks v c _ _ _ _ _ _ environment_checks) in E as [?|( [] & w2 & E2 & [-> He] & E)]; [left; congruence|].
  apply (step_checks v c _ _ _ _ _ _ (headers_checks p)) in E as [?|( [] & w3 & E3 & [-> Hh] & E)]; [left; congruence|].
  apply (step_checks v c _ _ _ _ _ _ token_checks) in E as [?|( [] & w4 & E4 & [-> Ht] & E)]; [left; congruence|].
  apply (step_checks v c _ _ _ _ _ _ (dependencies_checks p)) in E as [?|( [m rv] & w5 & E5 & [-> [-> ->] ] & E)]; [left; congruence|].
  unfold bind at 1, conn, get_state in E. simpl in E.
  apply (step_checks v c _ _ _ _ _ _ (authenticate_checks p)) in E as [?|( [req auth] & w6 & E6 & Ha & E)]; [left; congruence|].
  apply (step_checks v c _ _ _ _ _ _ (resolve_checks p req auth)) in E as [?|(rs & w7 & E7 & Hr & E)]; [left; congruence|].
  assert (Ew : v w7 = v w) by congruence. unfold applyExternalIntegrationContext in E.
  destruct (rs_auth rs) as [res|] eqn:Ea; [|injection E as <- <-; by left].
  right. exists w7. eexists. split; [done|]. split; [|exact E]. split; [done|done|]. simpl. exists p, rs, res.
  split; [by exists w1, (req, auth), w6|done].
Qed.
End Middleware.

(** ** The routes *)

(** The same request, whatever was stored or set for the response. *)
Definition same_request (c c' : Conn) : Prop :=
  cn_Method c' = cn_Method c /\ cn_Path c' = cn_Path c /\ cn_Params c' = cn_Params c /\ cn_Headers c' = cn_Headers c /\
  cn_Query c' = cn_Query c /\ cn_Unwraps c' = cn_Unwraps c.

Definition profile_capability (p : ExternalIntegrationProfile) (a : ExternalAction) : bool :=
  hasExternalCapability
    (combinePermissions (xp_Capabilities p) (mkPermissions true true true true true true true true)) a.

Lemma combine_spec p auth a : hasExternalCapability (combinePermissions (xp_Capabilities p) auth) a = true ->
  profile_capability p a = true /\ hasExternalCapability auth a = true.
Proof. unfold profile_capability. destruct a; simpl; rewrite ?andb_true_r; by rewrite ?andb_true_iff. Qed.

Lemma Param_patched name code c c1 : cn_Params c1 = patchExternalWorkspaceParam code (cn_Params c) ->
  name <> "workspace_code" -> Param name c1 = Param name c.
Proof.
  unfold Param. intros -> Hn. induction (cn_Params c) as [|[k x] l IH]; [done|]. simpl.
  destruct (decide (k = "workspace_code")) as [->|Hk].
  - rewrite (bool_decide_eq_true_2 ("workspace_code" = "workspace_code")) by done. simpl. by rewrite bool_decide_eq_false_2 by congruence.
  - rewrite (bool_decide_eq_false_2 (k = "workspace_code")) by done. simpl. by case_bool_decide.
Qed.

Lemma Param_workspace code c c1 : cn_Params c1 = patchExternalWorkspaceParam code (cn_Params c) ->
  Param "workspace_code" c <> "" -> Param "workspace_code" c1 = code.
Proof.
  unfold Param. intros ->. induction (cn_Params c) as [|[k x] l IH]; [done|]. simpl.
  destruct (decide (k = "workspace_code")) as [->|Hk].
  - rewrite (bool_decide_eq_true_2 ("workspace_code" = "workspace_code")) by done. done.
  - rewrite (bool_decide_eq_false_2 (k = "workspace_code")) by done. simpl. rewrite (bool_decide_eq_false_2 (k = _)) by done. apply IH.
Qed.

Section Front.
Context `{GoStd} {W V : Type} (v : W -> V) (h : ExternalIntegrationHandler W) (new_id : M W uuid).
Hypothesis config_frame : preserves v (GlobalConfigStore.Get (eh_store h)).
Hypothesis id_frame : preserves v new_id.

Lemma same_refl c : same_request c c.
Proof. done. Qed.

(** The world in which the checks of the middleware start: the cross-origin rules
    have looked at the profile, and the request has its identifier. *)
Definition after_cors (c : Conn) (w : W) : W :=
  let slug := externalProfileSlugFromRequest c in
  if bool_decide (slug = "") then w else (LoadProfileBySlug h slug w).2.
Definition after_id (c : Conn) (w : W) : W := if isValidRequestID (Header "X-Request-ID" c) then w else (new_id w).2.
Definition arrival (c : Conn) (w : W) : W := after_id c (after_cors c w).

Lemma cors_gate next c w r x' : ExternalIntegrationCORS h next (w, c) = (r, x') ->
  v x'.1 = v w \/ v (after_cors c w) = v w /\ exists c1, same_request c c1 /\ next (after_cors c w, c1) = (r, x').
Proof.
  unfold ExternalIntegrationCORS, after_cors. unfold bind at 1, conn, get_state. cbv zeta. simpl.
  case_bool_decide; [intros E; right; split; [done|by exists c]|].
  unfold try at 1, up. set (slug := externalProfileSlugFromRequest c).
  assert (Ew : v (LoadProfileBySlug h slug w).2 = v w).
  { match goal with |- v (?m w).2 = _ => assert (Hp : preserves v m) end; [|apply Hp].
    apply preserves_bind; [done|]. intros cfg. cbv zeta. repeat case_match; (apply preserves_ret || apply preserves_fail). }
  destruct (LoadProfileBySlug h slug w) as [ [p|e] w1]; simpl in *; intros E.
  - case_bool_decide; [case_bool_decide|]; [|right; split; [done|by exists c]|].
    { apply (gate_answer v) in E; [left; congruence|apply write_frame]. }
    destruct (negb _); [apply (gate_answer v) in E; [left; congruence|apply WriteError_frame]|].
    unfold applyExternalCORSHeaders, set_state, bind in E. case_bool_decide.
    + apply (gate_answer v) in E; [left; congruence|apply write_frame].
    + right. split; [done|]. eexists. split; [|exact E]. done.
  - apply (gate_answer v) in E; [left; congruence|]. unfold mapExternalProfileLoadError.
    repeat case_match; apply WriteError_frame.
Qed.

Lemma request_gate next c w r x' : RequestID new_id (Scope next) (w, c) = (r, x') ->
  v x'.1 = v w \/ v (after_id c w) = v w /\ exists c1, same_request c c1 /\ next (after_id c w, c1) = (r, x').
Proof.
  unfold RequestID, Scope, after_id. unfold bind at 1, conn at 1, get_state. cbv zeta. simpl.
  unfold bind at 1. destruct (isValidRequestID _).
  - simpl. intros E. right. split; [done|]. eexists. split; [|exact E]. done.
  - unfold bind at 1, up. specialize (id_frame w). destruct (new_id w) as [ [id|e] w1]; simpl in *; intros E;
      [|injection E as <- <-; by left].
    right. split; [done|]. eexists. split; [|exact E]. done.
Qed.
End Front.

(** *** What the handler's request has shown *)

Section Reach.
Context `{GoStd} `{Codec} `{Parsers} `{JSON (option fields_map)} `{Binder CreateVersionRequest} `{Binder SetLocaleRequest}.
Context (ilike : string -> string -> bool).
Context (h : ExternalIntegrationHandler Tpl) (store : option (WorkspaceExistenceStore Tpl)).
Hypothesis frames : external_frame db_tables h store.

#[local] Abbreviation ts := (LibTenants ilike).
#[local] Abbreviation wss := (LibWorkspaces ilike).

Lemma request_same c c' p : same_request c c' -> newExternalIntegrationRequest c' p = newExternalIntegrationRequest c p.
Proof.
  intros (Em & Epa & Ep & Eh & Eq & _). unfold newExternalIntegrationRequest, copyQueryParams, Param, Header.
  by rewrite Em, Epa, Ep, Eh, Eq.
Qed.

Lemma decided_same c c' w p rs w3 : same_request c c' -> decided h store c' w p rs w3 -> decided h store c w p rs w3.
Proof.
  intros Hs (w1 & a & w2 & El & (m & answer & Em & Ea & Eo) & Hpl). exists w1, a, w2. rewrite (request_same c c' p Hs) in Ea.
  destruct Hs as (_ & _ & Ep & _). unfold places in *. unfold Param in *. rewrite Ep in El, Hpl. split; [exact El|]. split; [|exact Hpl].
  by exists m, answer.
Qed.

(** The decisions of the middleware on the request [c] that arrives in the world
    [s], and the powers they give it. *)
Record granted (s : Tpl) (c : Conn) (a : ExternalAction) (p : ExternalIntegrationProfile) (rs : Resolved) (auth : ExternalAuthResult)
    (s3 : Tpl) : Prop := {
  gr_decided : decided h store c (arrival h (NewV7 db_runtime) c s) p rs s3;
  gr_token : TrimSpace (Header ExternalIntegrationTokenHeader c) <> "";
  gr_headers header : header ∈ xp_RequiredHeaders p -> Header header c <> "";
  gr_auth : rs_auth rs = Some auth;
  gr_profile : profile_capability p a = true;
  gr_permission : hasExternalCapability (ar_Permissions auth) a = true;
}.

(** The handler of a route runs, on the library as it was. *)
Definition reaches (route : ExternalRoute) (s : Tpl) (c : Conn) (r : Res unit) (x' : Tpl * Conn) : Prop :=
  exists s1 c1 p rs auth, db_tables s1 = db_tables s /\ granted s c (er_Action route) p rs auth s1 /\
    (er_Mutation route = true -> rs_readOnly rs = false) /\
    (Param "workspace_code" c <> "" -> Param "workspace_code" c1 = rs_code rs) /\
    Param "tenant_code" c1 = Param "tenant_code" c /\ er_Handler route (s1, c1) = (r, x').

Lemma external_gate route s c r x' : cn_Unwraps c = true -> external h store route (s, c) = (r, x') ->
  db_tables x'.1 = db_tables s \/ reaches route s c r x'.
Proof.
  intros Hu E. unfold external in E.
  apply (cors_gate db_tables h (config_frame _ _ _ frames)) in E as [?|(E1 & c1 & Hc1 & E)]; [by left|].
  apply (request_gate db_tables (NewV7 db_runtime) db_id_frame) in E as [?|(E2 & c2 & Hc2 & E)]; [left; congruence|].
  assert (Hs : same_request c c2).
  { destruct Hc1 as (? & ? & ? & ? & ? & ?), Hc2 as (? & ? & ? & ? & ? & ?). split_and!; congruence. }
  assert (Ea : after_id (NewV7 db_runtime) c1 (after_cors h c s) = arrival h (NewV7 db_runtime) c s).
  { unfold arrival, after_id, Header. by destruct Hc1 as (_ & _ & _ & -> & _). }
  rewrite Ea in E, E2.
  assert (Hu2 : cn_Unwraps c2 = true) by (destruct Hs as (_ & _ & _ & _ & _ & Eu); by rewrite Eu).
  apply (ExternalIntegration_gate db_tables h store frames c2 Hu2) in E as [?|(s3 & c3 & E3 & Hadm & E)]; [left; congruence|].
  assert (Es : db_tables s3 = db_tables s) by congruence.
  destruct Hadm as [_ Ht (p & rs & auth & Hd & Hauth & Hh & Hparams & Hv)].
  unfold RequireExternalCapability, bind at 1, values in E. simpl in E. rewrite Hv in E. unfold externalPermissions in E. simpl in E.
  destruct (hasExternalCapability _ _) eqn:Hcap in E; simpl in E.
  2:{ left. apply (gate_answer db_tables) in E; [congruence|apply WriteError_frame]. }
  apply combine_spec in Hcap as [Hcp Hca]. apply (decided_same _ _ _ _ _ _ Hs) in Hd.
  destruct Hs as (_ & _ & Epp & Eh & _ & _). unfold Header in Ht, Hh. rewrite Eh in Ht, Hh. rewrite Epp in Hparams.
  assert (Hg : granted s c (er_Action route) p rs auth s3) by done.
  assert (Hw : Param "workspace_code" c <> "" -> Param "workspace_code" c3 = rs_code rs) by by apply Param_workspace.
  assert (Htc : Param "tenant_code" c3 = Param "tenant_code" c) by by eapply Param_patched.
  assert (Hgo : (er_Mutation route = true -> rs_readOnly rs = false) -> er_Handler route (s3, c3) = (r, x') -> reaches route s c r x').
  { intros Hm Eh3. exists s3, c3, p, rs, auth. exact (conj Es (conj Hg (conj Hm (conj Hw (conj Htc Eh3))))). }
  destruct (er_Mutation route); [|right; by apply Hgo].
  unfold RequireExternalMutation, bind at 1, values in E. simpl in E. unfold isExternalReadOnly in E. rewrite Hv in E. simpl in E.
  destruct (rs_readOnly rs) eqn:Hr in E; [|right; by apply Hgo].
  left. apply (gate_answer db_tables) in E; [congruence|apply WriteError_frame].
Qed.

Lemma types_frame : preserves (on_world db_tables) (TemplateTypes_List ts wss) /\
  preserves (on_world db_tables) (TemplateTypes_Get ts wss).
Proof.
  assert (Hl : forall ws opts, preserves (on_world db_tables) (up (S:=Conn) (TemplateType_ListTypes ws opts))).
  { intros ws opts. apply preserves_up. unfold TemplateType_ListTypes, ListTypes.
    destruct (ApplyPagination opts) as [ [limit after]|e]; [apply query_frame|apply preserves_fail]. }
  split.
  - apply stored_frame; [apply resolveWorkspace_frame|]. intros ws. apply preserves_bind; [apply conn_frame|]. intros c. cbv zeta.
    apply stored_frame; [apply preserves_up, resolveSystemWorkspace_frame|]. intros sys.
    apply stored_frame; [apply Hl|]. intros [l cur]. destruct sys as [sys|]; [|apply write_frame]. case_bool_decide; [apply write_frame|].
    apply stored_frame; [apply Hl|]. intros [l' cur']. apply write_frame.
  - apply stored_frame; [apply resolveWorkspace_frame|]. intros _. apply stored_frame; [apply resolveWorkspace_frame|]. intros ws.
    apply preserves_bind; [apply conn_frame|]. intros c. apply stored_frame; [apply preserves_up, chain_frame|]. intros [chain sys].
    apply stored_frame; [apply preserves_up|]; [unfold GetBySlug, TemplateRepo_GetTypeBySlug; case_match; apply query_frame|].
    intros ty. apply write_frame.
Qed.

Lemma read_routes_frame route : route ∈ external_routes ts wss -> er_Mutation route = false ->
  preserves (on_world db_tables) (er_Handler route).
Proof.
  unfold external_routes. rewrite !elem_of_cons. destruct types_frame as [Htl Htg].
  assert (Hr : forall hd, hd ∈ [Templates_GetVersion; Templates_ListVersions; Templates_GetLocale; Templates_ListLocales;
                               ListByTemplateType ts wss] -> preserves (on_world db_tables) hd) by apply reads_frame.
  intros Hin Hm. repeat (destruct Hin as [->|Hin]; [simpl in *; try done|]); [|apply Hr; set_solver..|by apply not_elem_of_nil in Hin].
  apply preserves_bind; [apply values_frame|]. intros vals. apply write_frame.
Qed.
Lemma decided_enabled c w p rs w3 : decided h store c w p rs w3 -> xp_Enabled p = true.
Proof.
  intros (w1 & _ & _ & (cfg & s1 & _ & E)%bind_Ok & _). cbv zeta in E. destruct (List.find _ _) as [q|]; [|done].
  destruct (negb (xp_Enabled q)) eqn:En; [done|]. injection E as <- _. by apply negb_false_iff.
Qed.

(** The library of the workspace a code names, in the tenant of the path. *)
Definition edits_within (c : Conn) (code : string) (t t' : Library) : Prop :=
  exists ten ws env, tenant_at (tp_dir t) (Param "tenant_code" c) = Ok ten /\
    workspace_at (tp_dir t) (ten_ID ten) code env = Ok ws /\ within (ws_ID ws) t t'.

(** C16: an external request that changes the library came through a mutating
    route after the decisions of this very request, each made in the world the
    one before it left: the profile of its slug was loaded and is enabled, with
    the capability of the route and its required headers present; the auth
    method of the profile accepted the request and its token, granting the same
    capability (in its result as the resolver leaves it); and the resolver of
    the profile chose the workspace of the path, which is not the system
    workspace, and not in read-only mode. The edit of a version then changes
    only templates of that workspace. *)
Theorem external_changes_authorised route s c r x' :
  cn_Unwraps c = true -> Param "workspace_code" c <> "" -> route ∈ external_routes ts wss ->
  external h store route (s, c) = (r, x') -> db_tables x'.1 <> db_tables s ->
  er_Mutation route = true /\
  exists p rs auth s3, granted s c (er_Action route) p rs auth s3 /\ xp_Enabled p = true /\ rs_readOnly rs = false /\
    rs_code rs = Param "workspace_code" c /\ rs_code rs <> "_system" /\
    (route = update_version_route ts wss -> library_ok (db_tables s) ->
       library_ok (db_tables x'.1) /\ edits_within c (rs_code rs) (db_tables s) (db_tables x'.1)).
Proof.
  intros Hu Hp Hin E Hne. apply external_gate in E as [?|(s1 & c1 & p & rs & auth & Es & Hg & Hm & Hw & Ht & E)]; [done| |done].
  destruct (er_Mutation route) eqn:Hmut.
  2:{ destruct Hne. pose proof (read_routes_frame route Hin Hmut (s1, c1)) as Hf. rewrite E in Hf. unfold on_world in Hf. simpl in Hf. by rewrite Hf. }
  specialize (Hm eq_refl). split; [done|]. exists p, rs, auth, s1. split; [done|].
  pose proof (gr_decided _ _ _ _ _ _ _ Hg) as Hd. split; [by eapply decided_enabled|]. split; [done|].
  destruct Hd as (_ & _ & _ & _ & _ & rv & res & _ & _ & Ero & Ecode & Hplace). rewrite Ero in Hm. rewrite Hm in Ecode.
  destruct (Hplace Hm) as [Hsys Hpath]. rewrite Ecode in Hw |- *. split; [by apply Hpath|]. split; [exact Hsys|].
  intros -> Hok. pose proof (Templates_UpdateVersion_confined ilike (s1, c1)) as Hc. unfold confined_at in Hc. simpl in E, Hc.
  rewrite E, Es in Hc. simpl in Hc. destruct (Hc Hok) as [Hok' [?|(ws & (ten & Hten & Hws) & Hwi)] ]; [done|].
  split; [done|]. rewrite (Hw Hp) in Hws. rewrite Ht in Hten. by exists ten, ws, (requestEnvironment c1).
Qed.
End Reach.
