(* ===== verification/ExternalRuns.v ===== *)
(** * Runs of the external surface

    A portal profile with one auth method and one resolver over the library of
    [TemplateRuns], and the configuration it is stored in: the theorems at
    concrete requests, and what the surface lets through. *)
From stdpp Require Import base gmap strings list sorting.
From Stdlib Require Import ZArith NArith Ascii String Lia.
From S2P Require Import Prelude GoMonad Domain Ports Token Config Http.
From S2P Require Import Suppression Postgres Database Directory Auth Members Templates.
From S2P Require Import Versions Inheritance TemplateHandlers TemplateSafety ControlRuns TemplateRuns ConfigStore External ExternalSafety.

#[local] Existing Instance library_std.
#[local] Existing Instance library_codec.
#[local] Existing Instance library_parsers.
#[local] Existing Instance library_json.
#[local] Existing Instance bind_version.
#[local] Existing Instance bind_locale.

(** ** The configuration *)

#[local] Instance int_json : JSON Z := {|
  Marshal := fun z => Ok match z with Z0 => "0" | Zpos p => String "p" (bits_of p) | Zneg p => String "n" (bits_of p) end;
  Unmarshal := fun s => match s with
    | String c r => if Ascii.eqb c "p" then match of_bits r with Some p => Ok (Zpos p) | None => Err (EMsg "number") end
                    else if Ascii.eqb c "n" then match of_bits r with Some p => Ok (Zneg p) | None => Err (EMsg "number") end
                    else Ok 0%Z
    | EmptyString => Err (EMsg "end of input")
    end |}.
#[local] Instance int_laws : JSONLaws Z.
Proof. split. intros [|p|p] d [= <-]; simpl; by rewrite ?of_bits_of. Qed.
#[local] Instance float_json : JSON float64 := {|
  Marshal := fun f => Marshal (float_bits f);
  Unmarshal := fun s => match Unmarshal s with Ok z => Ok (mkFloat z) | Err e => Err e end |}.
#[local] Instance float_laws : JSONLaws float64.
Proof. split. intros [z] d E. pose proof (json_decode_encode (A:=Z) z E) as Hd.
  change (match Unmarshal (A:=Z) d with Ok z => Ok (mkFloat z) | Err e => Err e end = Ok (mkFloat z)). by rewrite Hd. Qed.
#[local] Instance bool_json : JSON bool := {|
  Marshal := fun b : bool => Ok (if b then "true" else "false");
  Unmarshal := fun s => if bool_decide (s = "true") then Ok true else if bool_decide (s = "false") then Ok false else Err (EMsg "bool") |}.
#[local] Instance bool_laws : JSONLaws bool.
Proof. by split; intros [] d [= <-]. Qed.

Definition every_capability : ExternalIntegrationCapabilities := mkCapabilities true true true true true true true true.
Definition portal : ExternalIntegrationProfile :=
  mkProfile "portal" "Portal" "" true "tokens" "path" ["https://portal.example"] ["x-portal-user"] ["x-portal-user"] every_capability.

#[local] Instance capabilities_eq : EqDecision ExternalIntegrationCapabilities.
Proof. solve_decision. Defined.
#[local] Instance profile_eq : EqDecision ExternalIntegrationProfile.
Proof. solve_decision. Defined.

(** The lists of profiles of these runs. *)
#[local] Instance profiles_json : JSON (list ExternalIntegrationProfile) := {|
  Marshal := fun l : list ExternalIntegrationProfile => if bool_decide (l = []) then Ok "[]" else if bool_decide (l = [portal]) then Ok "[portal]"
                      else Err (EMsg "profiles");
  Unmarshal := fun s => if bool_decide (s = "[]") then Ok [] else if bool_decide (s = "[portal]") then Ok [portal]
                        else Err (EMsg "profiles") |}.
#[local] Instance profiles_laws : JSONLaws (list ExternalIntegrationProfile).
Proof.
  split. intros l d. simpl. case_bool_decide as El; [intros [= <-]; by subst l|].
  case_bool_decide as Ep; [intros [= <-]; by subst l|done].
Qed.
#[local] Instance table_order : RowOrder := {| row_order := map_to_list |}.
#[local] Instance table_order_laws : RowOrderLaws.
Proof. by split. Qed.

Definition portal_config : GlobalConfig := mkGlobalConfig 3 30 90 5 1 24 true [portal] 0.
Definition empty_config_db : Cfg := mkDB ∅ 100 1 [] [].

Lemma GlobalConfig_roundtrip_witness :
  let run := GlobalConfigRepo_Upsert portal_config empty_config_db in
  run.1 = Ok tt /\ db_faults run.2 = [] /\
  exists updated, (GlobalConfigRepo_Get run.2).1 = Ok (with_config_time updated portal_config).
Proof.
  intros run. split; [vm_compute; reflexivity|]. split; [vm_compute; reflexivity|].
  apply (GlobalConfig_roundtrip portal_config empty_config_db run.2); vm_compute; reflexivity.
Defined.

(** ** The deployment

    One auth method that knows one token, one resolver that takes the workspace
    of the path. *)
Definition all_permissions : ExternalPermissions := mkPermissions true true true true true true true true.
Definition tokens : ExternalAuthMethod Tpl := mkAuthMethod "tokens" "" (fun req =>
  if bool_decide (xr_Token req = "secret") then ret (req, Some (mkAuthResult all_permissions ∅)) else fail (ESent errExternalAuthDenied)).
Definition path : ExternalWorkspaceResolver Tpl := mkResolver "path" "" (fun req auth _ =>
  match xr_WorkspaceCodes req with
  | code :: _ => ret (req, auth, Some (mkResolution code false))
  | [] => fail (EMsg "no workspace")
  end).
Definition portal_store : GlobalConfigStore.t Tpl := {|
  GlobalConfigStore.Get := ret portal_config;
  GlobalConfigStore.Upsert := fun _ => ret tt |}.
Definition deployment : ExternalIntegrationHandler Tpl :=
  NewExternalIntegrationHandler portal_store [Some tokens] [Some path].

Lemma deployment_frame : external_frame db_tables deployment None.
Proof.
  split.
  - intros s. reflexivity.
  - intros name m req Hm. change (({["tokens" := tokens]} : gmap string _) !! name = Some m) in Hm.
    apply lookup_singleton_Some in Hm as [_ <-].
    simpl. case_bool_decide; [apply preserves_ret|apply preserves_fail].
  - intros name r req res f Hm _. change (({["path" := path]} : gmap string _) !! name = Some r) in Hm.
    apply lookup_singleton_Some in Hm as [_ <-].
    simpl. destruct (xr_WorkspaceCodes req); [apply preserves_fail|apply preserves_ret].
  - discriminate.
Qed.

Definition external_request (meth workspace templateID versionID body : string) : Conn :=
  mkConn meth "/api/v1/external/portal"
    [("profile_slug", "portal"); ("tenant_code", "acme"); ("workspace_code", workspace); ("template_id", templateID);
     ("version_id", versionID); ("locale", "es")]
    {["X-Senda-Environment" := ["prod"]; "X-Senda-External-Token" := ["secret"]; "X-Portal-User" := ["u1"]]}
    ∅ body no_values [] [] None true [].

Definition edit_route : ExternalRoute := update_version_route lib_tenants lib_workspaces.

Lemma edited (t : Library) : ver_Subject <$> tp_versions t !! 41%N = Some "Hello" -> t <> library.
Proof. intros E ->. vm_compute in E. discriminate. Qed.

Lemma external_changes_authorised_witness :
  let c := external_request "PUT" "shop" "31" "41" "Hello" in
  let run := external deployment None edit_route (library_db, c) in
  ver_Subject <$> tp_versions (db_tables run.2.1) !! 41%N = Some "Hello" /\
  exists p rs auth s3, granted deployment None library_db c ExternalActionEditVersions p rs auth s3 /\ rs_code rs = "shop" /\
    edits_within c (rs_code rs) library (db_tables run.2.1).
Proof.
  intros c run. assert (E : ver_Subject <$> tp_versions (db_tables run.2.1) !! 41%N = Some "Hello") by (vm_compute; reflexivity).
  split; [exact E|].
  assert (Hne : db_tables run.2.1 <> db_tables library_db).
  { by apply edited. }
  assert (Hin : edit_route ∈ external_routes lib_tenants lib_workspaces) by (apply (list_elem_of_lookup_2 _ 6); reflexivity).
  destruct (external_changes_authorised (fun _ _ => true) deployment None deployment_frame edit_route library_db c run.1 run.2
              eq_refl ltac:(discriminate) Hin (surjective_pairing run) Hne) as (_ & p & rs & auth & s3 & Hg & _ & _ & Hc & _ & He).
  exists p, rs, auth, s3. split; [exact Hg|]. split; [exact Hc|]. exact (proj2 (He eq_refl library_fine)).
Defined.

(** ** What the surface lets through *)

(** The bootstrap of a profile that does not exist is answered twice. *)
Lemma bootstrap_answers_twice :
  let c := set_params (fun _ => [("profile_slug", "unknown")]) (external_request "GET" "" "" "" "") in
  status_of (Bootstrap deployment (library_db, c)).2.2 = [404%Z; 200%Z].
Proof. vm_compute. reflexivity. Qed.

(** A version of another workspace is read. *)
Definition read_version_route : ExternalRoute :=
  mkExternalRoute "GET" "/templates/:template_id/versions/:version_id" ExternalActionViewVersions false Templates_GetVersion.
Lemma external_foreign_read :
  let c := external_request "GET" "shop" "31" "42" "" in
  read_version_route ∈ external_routes lib_tenants lib_workspaces /\
  cn_Replies (external deployment None read_version_route (library_db, c)).2.2 =
    [mkReply 200 (BodyJSON (NewTemplateVersionResponse (version 42 32 1 VersionStatusDraft)))].
Proof. split; [apply (list_elem_of_lookup_2 _ 5); reflexivity|]. vm_compute. reflexivity. Qed.

(** Another workspace's version is published. *)
Definition publish_route : ExternalRoute :=
  mkExternalRoute "POST" "/templates/:template_id/versions/:version_id/publish" ExternalActionPublishVersions true
    (Templates_PublishVersion lib_tenants lib_workspaces).
Lemma external_foreign_publish :
  let run := external deployment None publish_route (library_db, external_request "POST" "shop" "31" "42" "") in
  publish_route ∈ external_routes lib_tenants lib_workspaces /\ status_of run.2.2 = [204%Z] /\
  ver_Status <$> tp_versions (db_tables run.2.1) !! 42%N = Some VersionStatusPublished.
Proof. split; [apply (list_elem_of_lookup_2 _ 7); reflexivity|]. vm_compute. auto. Qed.
