(* ===== verification/Injectors.v ===== *)
(** * Injectors ([port/code_injector.go], [resolution/injector_merger.go])

    The values a template can name: database injectors resolved through the
    scope chain, code injectors run in dependency order, request overrides, and
    their precedence. Go's iteration order over the registered code injectors is
    a parameter; the maps whose iteration order cannot be observed are finite
    maps. *)
From stdpp Require Import base gmap strings list.
From Stdlib Require Import ZArith Ascii String Lia.
From S2P Require Import Prelude GoMonad Domain Ports Suppression Postgres Cache Resolution.

Abbreviation MergedInjectors := injector_map.

Definition defaultCodeInjectorTimeout : duration := (30 * Second)%Z.

(** ** The ports *)

Record InjectorFieldSpec := mkInjectorFieldSpec {
  ifs_Name : string;
  ifs_Type : InjectorFieldType;
  ifs_Description : string;
}.

Record InjectorCatalog := mkInjectorCatalog {
  cat_Code : string;
  cat_Name : string;
  cat_Description : string;
  cat_Static : bool;
  cat_TTL : duration;
  cat_Fields : list InjectorFieldSpec;
}.

Record InjectorContext := mkInjectorContext {
  ic_headers : gmap string string;
  ic_ref : string;
  ic_variables : fields_map;
  ic_requestInjectors : MergedInjectors;
  ic_initData : any;
  ic_tenantID : uuid;
  ic_workspaceID : uuid;
  ic_environment : Environment;
  ic_templateType : string;
  ic_resolved : MergedInjectors;
}.

Definition NewInjectorContext (headers : gmap string string) (ref : string) (variables : fields_map)
    (tenantID workspaceID : uuid) (environment : Environment) (templateType : string) : InjectorContext :=
  {| ic_headers := headers; ic_ref := ref; ic_variables := variables; ic_requestInjectors := ∅;
     ic_initData := ANil; ic_tenantID := tenantID; ic_workspaceID := workspaceID;
     ic_environment := environment; ic_templateType := templateType; ic_resolved := ∅ |}.

Definition Header (c : InjectorContext) (key : string) : string := default "" (ic_headers c !! key).

Definition GetResolved (c : InjectorContext) (code : string) : option fields_map := ic_resolved c !! code.

(** The setters, which run under the context's lock. *)
Definition with_context (req : MergedInjectors) (init : any) (resolved : MergedInjectors)
    (c : InjectorContext) : InjectorContext :=
  {| ic_headers := ic_headers c; ic_ref := ic_ref c; ic_variables := ic_variables c;
     ic_requestInjectors := req; ic_initData := init; ic_tenantID := ic_tenantID c;
     ic_workspaceID := ic_workspaceID c; ic_environment := ic_environment c;
     ic_templateType := ic_templateType c; ic_resolved := resolved |}.

Definition SetInitData (data : any) (c : InjectorContext) : InjectorContext :=
  with_context (ic_requestInjectors c) data (ic_resolved c) c.
Definition SetResolved (code : string) (fields : fields_map) (c : InjectorContext) : InjectorContext :=
  with_context (ic_requestInjectors c) (ic_initData c) (<[code := fields]> (ic_resolved c)) c.
Definition SetRequestInjectors (injectors : MergedInjectors) (c : InjectorContext) : InjectorContext :=
  with_context injectors (ic_initData c) (ic_resolved c) c.
Definition MergeDBInjectors (dbValues : MergedInjectors) (c : InjectorContext) : InjectorContext :=
  with_context (ic_requestInjectors c) (ic_initData c) (dbValues ∪ ic_resolved c) c.

(** A code injector: its function, run with the timeout of its context, and its
    dependencies ([Resolve]), and its optional catalog. *)
Record CodeInjector (W : Type) := mkCodeInjector {
  inj_Code : string;
  inj_Run : duration -> InjectorContext -> M W fields_map;
  inj_Deps : list string;
  inj_IsCritical : bool;
  inj_Timeout : duration;
  inj_Catalog : option InjectorCatalog;
}.
Arguments inj_Code {W}. Arguments inj_Run {W}. Arguments inj_Deps {W}. Arguments inj_IsCritical {W}.
Arguments inj_Timeout {W}. Arguments inj_Catalog {W}.

Record InjectorStore (W : Type) := mkInjectorStore {
  ListDefinitionsInChain : list (option uuid) -> M W (list InjectorDefinition);
  GetAllFieldsByDefinitions : list uuid -> M W (gmap uuid (list InjectorField));
  GetAllValuesByDefinitions : list uuid -> list (option uuid) -> M W (gmap uuid (list InjectorValue));
}.
Arguments ListDefinitionsInChain {W}. Arguments GetAllFieldsByDefinitions {W}.
Arguments GetAllValuesByDefinitions {W}.

Record InjectorMerger (W : Type) := mkInjectorMerger {
  im_store : InjectorStore W;
  (** [chainResolver.Resolve] *)
  im_chain : uuid -> M W ResolutionChain;
  im_cache : option (Cache W);
  im_codeInjectors : list (CodeInjector W);
  im_codeInitFunc : option (InjectorContext -> M W any);
  (** the order in which Go visits the keys of a map *)
  im_order : gset string -> list string;
  im_rt : Runtime W;
}.
Arguments im_store {W}. Arguments im_chain {W}. Arguments im_cache {W}. Arguments im_codeInjectors {W}.
Arguments im_codeInitFunc {W}. Arguments im_order {W}. Arguments im_rt {W}.

Definition HasCodeInjectors {W} (m : InjectorMerger W) : bool :=
  (0 <? List.length (im_codeInjectors m))%nat || bool_decide (is_Some (im_codeInitFunc m)).

(** ** Database injectors *)

Record injectorFieldRule := mkFieldRule { fr_DefaultValue : any; fr_AllowOverwrite : bool }.
Abbreviation field_rules := (gmap string (gmap string injectorFieldRule)).

Definition matchScope (wsID scope : option uuid) : bool :=
  match wsID, scope with
  | None, None => true
  | Some a, Some b => bool_decide (a = b)
  | _, _ => false
  end.

Fixpoint scopeIndex (wsID : option uuid) (scopes : list (option uuid)) : nat :=
  match scopes with
  | [] => 0
  | scope :: r => if matchScope wsID scope then 0 else S (scopeIndex wsID r)
  end.

Definition is_nil (v : any) : bool := match v with ANil => true | _ => false end.

Section DB.
Context `{GoStd}.

(** [json.Unmarshal] into an [any]. *)
Context (json_any : string -> option any).

Definition parseJSONValue (raw : string) : any := default (AStr raw) (json_any raw).

Definition scopeKey (wsID : option uuid) : string :=
  match wsID with None => "" | Some id => uuid_String id end.

Abbreviation valueIndex := (gmap uuid (gmap string (gmap string InjectorValue))).

Definition index_value (idx : gmap string (gmap string InjectorValue)) (v : InjectorValue) :=
  <[val_FieldName v := <[scopeKey (val_WorkspaceID v) := v]> (default ∅ (idx !! val_FieldName v))]> idx.

Definition buildValueIndex (allValues : gmap uuid (list InjectorValue)) : valueIndex :=
  foldl index_value ∅ <$> allValues.

Fixpoint first_scope (scopeValues : gmap string InjectorValue) (scopes : list (option uuid)) : any :=
  match scopes with
  | [] => ANil
  | scope :: r =>
      match scopeValues !! scopeKey scope with
      | Some v => parseJSONValue (val_Value v)
      | None => first_scope scopeValues r
      end
  end.

Definition resolveFieldValueIndexed (fieldName : string) (scopes : list (option uuid))
    (fieldIdx : option (gmap string (gmap string InjectorValue))) : any :=
  match fieldIdx with
  | None => ANil
  | Some idx => match idx !! fieldName with None => ANil | Some scopeValues => first_scope scopeValues scopes end
  end.

(** The definition kept for each name, with the index of its scope. *)
Definition best_step (scopes : list (option uuid)) (best : gmap string (InjectorDefinition * nat))
    (def : InjectorDefinition) : gmap string (InjectorDefinition * nat) :=
  let scopeIdx := scopeIndex (def_WorkspaceID def) scopes in
  match best !! def_Name def with
  | Some (_, index) => if (scopeIdx <? index)%nat then <[def_Name def := (def, scopeIdx)]> best else best
  | None => <[def_Name def := (def, scopeIdx)]> best
  end.

Definition best_by_name (scopes : list (option uuid)) (defs : list InjectorDefinition)
  : gmap string (InjectorDefinition * nat) := foldl (best_step scopes) ∅ defs.

Definition field_value (scopes : list (option uuid)) (fieldIdx : option (gmap string (gmap string InjectorValue)))
    (field : InjectorField) : any :=
  let resolved := resolveFieldValueIndexed (fld_FieldName field) scopes fieldIdx in
  if is_nil resolved then fld_DefaultValue field else resolved.

Definition field_rule (field : InjectorField) : injectorFieldRule :=
  {| fr_DefaultValue := fld_DefaultValue field; fr_AllowOverwrite := fld_AllowOverwrite field |}.

(** The loop over the fields of one definition. *)
Definition by_field {A} (f : InjectorField -> A) (fields : list InjectorField) : gmap string A :=
  foldl (fun m field => <[fld_FieldName field := f field]> m) ∅ fields.

Context {W : Type} (m : InjectorMerger W).

Definition resolveDBForScopes (scopes : list (option uuid)) : M W (MergedInjectors * field_rules) :=
  let! defs := ListDefinitionsInChain (im_store m) scopes in
  let bestByName := best_by_name scopes defs in
  let defIDs := (fun kv => def_ID kv.2.1) <$> map_to_list bestByName in
  let! allFields := GetAllFieldsByDefinitions (im_store m) defIDs in
  let! allValues := GetAllValuesByDefinitions (im_store m) defIDs scopes in
  let valIdx := buildValueIndex allValues in
  let fields_of (entry : InjectorDefinition * nat) := default [] (allFields !! def_ID entry.1) in
  ret ((fun entry => by_field (field_value scopes (valIdx !! def_ID entry.1)) (fields_of entry)) <$> bestByName,
       (fun entry => by_field field_rule (fields_of entry)) <$> bestByName).

Definition resolveDB (workspaceID : uuid) : M W (MergedInjectors * field_rules) :=
  let! chain := im_chain m workspaceID in
  resolveDBForScopes (ch_Scopes chain).
End DB.

(** ** Code injectors *)

Section Code.
Context `{GoStd} (json_any : string -> option any) (uuid_SHA1 : string -> uuid).
Context `{JSON fields_map}.
Context {W : Type} (m : InjectorMerger W).

Definition injectorCatalog (inj : CodeInjector W) : option InjectorCatalog := inj_Catalog inj.

Definition is_static (inj : CodeInjector W) : bool :=
  match injectorCatalog inj with Some meta => cat_Static meta | None => false end.

Definition staticCodeInjectorCacheKey (workspaceID : uuid) (templateType code : string) : string :=
  let templateType := if bool_decide (templateType = "") then "_" else templateType in
  "code_injector_static:" +:+ uuid_String workspaceID +:+ ":" +:+ templateType +:+ ":" +:+ code.

(** The cache a static injector with a TTL goes through, when there is one. *)
Definition static_cache (inj : CodeInjector W) : option (Cache W * duration) :=
  match injectorCatalog inj, im_cache m with
  | Some meta, Some cache => if cat_Static meta && (0 <? cat_TTL meta)%Z then Some (cache, cat_TTL meta) else None
  | _, _ => None
  end.

Definition resolveInjectorFields (timeout : duration) (injCtx : InjectorContext) (inj : CodeInjector W)
  : M W fields_map :=
  match static_cache inj with
  | Some (cache, ttl) =>
      read_through cache (staticCodeInjectorCacheKey (ic_workspaceID injCtx) (ic_templateType injCtx) (inj_Code inj))
        ttl (inj_Run inj timeout injCtx)
  | None => inj_Run inj timeout injCtx
  end.

(** The state of the depth-first walk: the codes visited, the values resolved
    and the context the injectors share. *)
Record Walk := mkWalk { wk_visited : gset string; wk_resolved : MergedInjectors; wk_ctx : InjectorContext }.

Definition by_code (filter : CodeInjector W -> bool) : gmap string (CodeInjector W) :=
  foldl (fun b inj => if filter inj then <[inj_Code inj := inj]> b else b) ∅ (im_codeInjectors m).

Definition effective_timeout (inj : CodeInjector W) : duration :=
  if (inj_Timeout inj =? 0)%Z then defaultCodeInjectorTimeout else inj_Timeout inj.

(** The injector itself, once its dependencies are done. *)
Definition run_injector (code : string) (inj : CodeInjector W) (st : Walk) : M W Walk :=
  try! r := resolveInjectorFields (effective_timeout inj) (wk_ctx st) inj in
  match r with
  | Err e =>
      if inj_IsCritical inj then fail (EWrap ("critical code injector " +:+ Quote code +:+ " failed: ") e "")
      else ret st
  | Ok fields =>
      ret (mkWalk (wk_visited st) (<[code := fields]> (wk_resolved st)) (SetResolved code fields (wk_ctx st)))
  end.

(** [None] when the fuel runs out. *)
Fixpoint resolveOne (byCode : gmap string (CodeInjector W)) (fuel : nat) (code : string) (st : Walk)
  : M W (option Walk) :=
  match fuel with
  | O => ret None
  | S fuel =>
      if bool_decide (code ∈ wk_visited st) then ret (Some st)
      else
        let st := mkWalk ({[code]} ∪ wk_visited st) (wk_resolved st) (wk_ctx st) in
        match byCode !! code with
        | None => ret (Some st)
        | Some inj =>
            let! st' := for_fold (inj_Deps inj) (Some st) (fun acc dep =>
              match acc with Some st => resolveOne byCode fuel dep st | None => ret None end) in
            match st' with
            | None => ret None
            | Some st => let! st := run_injector code inj st in ret (Some st)
            end
        end
  end.

(** The loop over the registered codes. Each nested call visits one more
    registered code, so one unit of fuel more than their number is enough. *)
Definition walk (byCode : gmap string (CodeInjector W)) (codes : list string) (st : Walk) : M W (option Walk) :=
  for_fold codes (Some st) (fun acc code =>
    match acc with Some st => resolveOne byCode (S (size byCode)) code st | None => ret None end).

(** The values and the context after them; [None] cannot happen. *)
Definition resolveCodeInjectors (filter : CodeInjector W -> bool) (injCtx : InjectorContext)
  : M W (option (MergedInjectors * InjectorContext)) :=
  match im_codeInjectors m with
  | [] => ret (Some (∅, injCtx))
  | _ =>
      let byCode := by_code filter in
      if bool_decide (byCode = ∅) then ret (Some (∅, injCtx))
      else
        let! st := walk byCode (im_order m (dom byCode)) (mkWalk ∅ ∅ injCtx) in
        ret (match st with Some st => Some (wk_resolved st, wk_ctx st) | None => None end)
  end.

(** ** Precedence *)

Definition getFieldValue (values : MergedInjectors) (injectorName fieldName : string) : option any :=
  fields ← values !! injectorName; fields !! fieldName.

(** An overwriteable field: request, code, default. *)
Definition overwrite_value (rule : injectorFieldRule) (injectorName fieldName : string)
    (requestValues codeValues : MergedInjectors) : any :=
  match getFieldValue requestValues injectorName fieldName with
  | Some value => value
  | None =>
      match getFieldValue codeValues injectorName fieldName with
      | Some value => value
      | None => fr_DefaultValue rule
      end
  end.

(** [result[injectorName][fieldName] = ...] over the rules of one injector. *)
Definition apply_rules (rules : gmap string injectorFieldRule)
    (value : string -> injectorFieldRule -> option any) (fields : fields_map) : fields_map :=
  map_imap value rules ∪ fields.

Definition apply_field_rules (result : MergedInjectors) (fieldRules : field_rules)
    (value : string -> string -> injectorFieldRule -> option any) : MergedInjectors :=
  map_imap (fun name rules => Some (apply_rules rules (value name) (default ∅ (result !! name)))) fieldRules
  ∪ result.

Definition mergeCodeOnlyFields (result : MergedInjectors) (fieldRules : field_rules)
    (codeValues : MergedInjectors) : MergedInjectors :=
  map_imap (fun name fields =>
    match result !! name with
    | None => Some fields
    | Some current =>
        match fieldRules !! name with
        | None => Some current
        | Some rules => Some (filter (fun kv => rules !! kv.1 = None) fields ∪ current)
        end
    end) codeValues ∪ result.

Definition resolveGlobalFieldValue (requestValues codeValues : MergedInjectors)
    (injectorName fieldName : string) (rule : injectorFieldRule) : option any :=
  Some (if fr_AllowOverwrite rule then overwrite_value rule injectorName fieldName requestValues codeValues
        else fr_DefaultValue rule).

(** The workspace rule: a locked field keeps its resolved value. *)
Definition resolve_workspace_field (requestValues codeValues : MergedInjectors)
    (injectorName fieldName : string) (rule : injectorFieldRule) : option any :=
  if fr_AllowOverwrite rule then Some (overwrite_value rule injectorName fieldName requestValues codeValues)
  else None.

(** The init function, once per send. *)
Definition run_init (injCtx : InjectorContext) : M W InjectorContext :=
  match im_codeInitFunc m with
  | None => ret injCtx
  | Some codeInitFunc =>
      let! initData := wrap_err (fun e => EWrap "code init func: " e "") (codeInitFunc injCtx) in
      ret (SetInitData initData injCtx)
  end.

(** What both entry points share: seed the context, run the init function and
    the code injectors, apply the rules. *)
Definition resolve_with (value : MergedInjectors -> MergedInjectors -> string -> string -> injectorFieldRule -> option any)
    (db : MergedInjectors * field_rules) (injCtx : InjectorContext)
  : M W (option (MergedInjectors * InjectorContext)) :=
  let (defaults, fieldRules) := db in
  let injCtx := MergeDBInjectors defaults injCtx in
  let! injCtx := run_init injCtx in
  let! code := resolveCodeInjectors (fun _ => true) injCtx in
  match code with
  | None => ret None
  | Some (codeValues, injCtx) =>
      let requestValues := ic_requestInjectors injCtx in
      let result := apply_field_rules defaults fieldRules (value requestValues codeValues) in
      let result := mergeCodeOnlyFields result fieldRules codeValues in
      ret (Some (result, MergeDBInjectors result injCtx))
  end.

Definition ResolveWithContext (workspaceID : uuid) (injCtx : InjectorContext)
  : M W (option (MergedInjectors * InjectorContext)) :=
  let! db := resolveDB json_any m workspaceID in
  resolve_with resolve_workspace_field db injCtx.

Definition ResolveGlobalWithContext (injCtx : InjectorContext) : M W (option (MergedInjectors * InjectorContext)) :=
  let! db := resolveDBForScopes json_any m [None] in
  resolve_with resolveGlobalFieldValue db injCtx.

Definition InjectorMerger_Resolve (workspaceID : uuid) : M W MergedInjectors :=
  let! db := resolveDB json_any m workspaceID in ret db.1.

(** ** Previews and the catalog *)

(** The locked fields of an injector that has one. *)
Definition locked_fields (defaults : MergedInjectors) (name : string) (rules : gmap string injectorFieldRule)
  : option fields_map :=
  let locked := map_imap (fun fieldName rule =>
    if fr_AllowOverwrite rule then None else Some (default ANil (getFieldValue defaults name fieldName))) rules in
  if bool_decide (locked = ∅) then None else Some locked.

Definition ResolveStaticPreview (workspaceID : option uuid) (injCtx : InjectorContext)
  : M W (option (MergedInjectors * InjectorContext)) :=
  let! db := match workspaceID with
             | None => resolveDBForScopes json_any m [None]
             | Some ws => resolveDB json_any m ws
             end in
  let! static := resolveCodeInjectors is_static injCtx in
  ret (match static with
       | None => None
       | Some (staticValues, injCtx) =>
           Some (union_with (fun static locked => Some (static ∪ locked)) staticValues
                   (map_imap (locked_fields db.1) db.2), injCtx)
       end).

Definition staticCatalogInjectors : list (CodeInjector W) := List.filter is_static (im_codeInjectors m).

Definition staticCatalogInjectorRef (workspace : option Workspace) (templateType : string) : string :=
  let global := if bool_decide (templateType = "") then "" else "global::" +:+ templateType in
  match workspace with
  | None => global
  | Some ws =>
      if bool_decide (TrimSpace (ws_Code ws) = "") then global
      else "catalog:" +:+ ws_Code ws +:+ ":" +:+ (if bool_decide (templateType = "") then "catalog" else templateType)
  end.

(** [uuid.NewSHA1(uuid.NameSpaceOID, ...)]. *)
Definition syntheticCodeInjectorDefinitionID (code : string) : uuid := uuid_SHA1 ("code-injector:def:" +:+ code).
Definition syntheticCodeInjectorFieldID (code field : string) : uuid :=
  uuid_SHA1 ("code-injector:field:" +:+ code +:+ ":" +:+ field).

Definition optionalString (value : string) : option string :=
  if bool_decide (value = "") then None else Some value.

Definition catalog_definition (now : gotime) (meta : InjectorCatalog) : InjectorDefinition :=
  {| def_ID := syntheticCodeInjectorDefinitionID (cat_Code meta); def_WorkspaceID := None;
     def_Name := cat_Code meta; def_Description := optionalString (cat_Description meta);
     def_Source := "code"; def_Static := true; def_OwnerScope := "global"; def_InheritedFromSystem := false;
     def_CreatedAt := now; def_UpdatedAt := now; def_DeletedAt := None |}.

Definition catalog_field (resolved : option MergedInjectors) (meta : InjectorCatalog) (position : nat)
    (field : InjectorFieldSpec) : InjectorField :=
  {| fld_ID := syntheticCodeInjectorFieldID (cat_Code meta) (ifs_Name field);
     fld_InjectorDefinitionID := syntheticCodeInjectorDefinitionID (cat_Code meta);
     fld_FieldName := ifs_Name field; fld_FieldType := ifs_Type field;
     fld_Description := optionalString (ifs_Description field); fld_Position := Z.of_nat position;
     fld_DefaultValue := match resolved with
                         | Some r => default ANil (getFieldValue r (cat_Code meta) (ifs_Name field))
                         | None => ANil
                         end;
     fld_AllowOverwrite := false |}.

Definition StaticCatalog (workspace : option Workspace) (templateType : string)
  : M W (option (list InjectorDefinition * gmap uuid (list InjectorField))) :=
  match staticCatalogInjectors with
  | [] => ret (Some ([], ∅))
  | statics =>
      let injCtx := NewInjectorContext ∅ (staticCatalogInjectorRef workspace templateType) ∅
        (match workspace with Some ws => ws_TenantID ws | None => uuid_Nil end)
        (match workspace with Some ws => ws_ID ws | None => uuid_Nil end)
        (match workspace with Some ws => ws_Environment ws | None => EnvironmentOther "" end) templateType in
      let! res := resolveCodeInjectors is_static injCtx in
      match res with
      | None => ret None
      | Some (resolved, _) =>
          let! now := Now (im_rt m) in
          let metas := omap injectorCatalog statics in
          let values := match workspace with Some _ => Some resolved | None => None end in
          ret (Some (catalog_definition now <$> metas,
                     foldl (fun f meta => <[syntheticCodeInjectorDefinitionID (cat_Code meta) :=
                                            imap (catalog_field values meta) (cat_Fields meta)]> f) ∅ metas))
      end
  end.
End Code.

(** * Theorems *)

(** ** The walk *)

Section Walk.
Context `{GoStd} `{JSON fields_map} {W : Type} (m : InjectorMerger W).
Context (byCode : gmap string (CodeInjector W)).
Context (Hcodes : forall c inj, byCode !! c = Some inj -> inj_Code inj = c).

(** The registered codes not yet visited. *)
Definition pending_codes (st : Walk) : gset string := dom byCode ∖ wk_visited st.

Definition grows (st : Walk) (st' : option Walk) : Prop :=
  exists st1, st' = Some st1 /\ wk_visited st ⊆ wk_visited st1.

Lemma run_injector_visited code inj st w st' w' :
  run_injector m code inj st w = (Ok st', w') -> wk_visited st' = wk_visited st.
Proof.
  unfold run_injector, try. destruct (resolveInjectorFields _ _ _ _ w) as [[f|e] w1].
  - by intros [= <- _].
  - destruct (inj_IsCritical inj); [done|]. by intros [= <- _].
Qed.

(** The steps of a nested resolution that completes. *)
Lemma resolveOne_grows fuel code st w st' w' :
  size (pending_codes st) < fuel ->
  resolveOne m byCode fuel code st w = (Ok st', w') -> grows st st'.
Proof.
  revert code st w st' w'. induction fuel as [|fuel IH]; intros code st w st' w' Hfuel; [lia|].
  cbn [resolveOne]. case_bool_decide as Hv; [intros [= <- _]; by exists st|].
  set (st1 := mkWalk ({[code]} ∪ wk_visited st) (wk_resolved st) (wk_ctx st)).
  assert (Hst1 : wk_visited st ⊆ wk_visited st1) by (simpl; set_solver).
  destruct (byCode !! code) as [inj|] eqn:Ec; [|intros [= <- _]; by exists st1].
  assert (Hlt : size (pending_codes st1) < fuel).
  { assert (pending_codes st1 ⊂ pending_codes st).
    { unfold pending_codes. simpl. split; [set_solver|]. intros Hsub.
      apply elem_of_dom_2 in Ec. specialize (Hsub code). set_solver. }
    apply subset_size in H1. lia. }
  unfold bind at 1. destruct (for_fold _ _ _ w) as [[acc|e] w1] eqn:Ef; [|done].
  assert (Hg : grows st1 acc).
  { refine (for_fold_ind (fun acc _ => grows st1 acc) _ _ _ _ _ _ Ef _ _); [by exists st1|].
    intros dep acc0 w0 acc1 w2 _ (st2 & -> & Hst2) E2.
    apply IH in E2 as (st3 & -> & Hst3); [exists st3; split; [done|set_solver]|].
    eapply Nat.le_lt_trans; [|exact Hlt]. apply subseteq_size. unfold pending_codes. set_solver. }
  destruct Hg as (st2 & -> & Hst2). unfold bind.
  destruct (run_injector m code inj st2 w1) as [[st3|e] w2] eqn:Er; [|done].
  intros [= <- _]. exists st3. apply run_injector_visited in Er. split; [done|]. set_solver.
Qed.

(** The walk never runs out of fuel. *)
Lemma walk_total codes st w st' w' :
  walk m byCode codes st w = (Ok st', w') -> grows st st'.
Proof.
  intros E. unfold walk in E. refine (for_fold_ind (fun acc _ => grows st acc) _ _ _ _ _ _ E _ _); [by exists st|].
  intros code acc w0 acc1 w1 _ (st1 & -> & Hst1) E1.
  apply resolveOne_grows in E1 as (st2 & -> & Hst2); [exists st2; split; [done|set_solver]|].
  apply Nat.lt_succ_r. transitivity (size (dom byCode)); [|by rewrite size_dom].
  apply subseteq_size. unfold pending_codes. set_solver.
Qed.

(** The log of the injectors' runs, in order. *)
Context (runs : W -> list string).
Context (Hruns : forall c inj t ctx w, byCode !! c = Some inj ->
           runs (resolveInjectorFields m t ctx inj w).2 = runs w ++ [inj_Code inj]).
Context (rank : string -> nat).

(** No registered injector depends, through registered ones, on itself. *)
Definition acyclic : Prop :=
  forall c inj d, byCode !! c = Some inj -> d ∈ inj_Deps inj -> d ∈ dom byCode -> rank d < rank c.

(** [k] was run after the codes of [D]: each after its registered dependencies. *)
Definition topological (D k : list string) : Prop :=
  forall i c inj d, k !! i = Some c -> byCode !! c = Some inj -> d ∈ inj_Deps inj -> d ∈ dom byCode ->
    d ∈ D \/ d ∈ take i k.

(** From the visited codes of [st], [k] was run: fresh registered codes, once each. *)
Definition ran (st : Walk) (w w' : W) (k : list string) : Prop :=
  runs w' = runs w ++ k /\ NoDup k /\ forall c, c ∈ k -> c ∉ wk_visited st /\ c ∈ dom byCode.

(** The registered codes of rank at most [r] that were visited have been run. *)
Definition finished (D : list string) (st : Walk) (r : nat) : Prop :=
  forall v, v ∈ wk_visited st -> v ∈ dom byCode -> rank v <= r -> v ∈ D.

(** What a completed resolution of [codes] from [st] leaves. *)
Definition resolved_codes (codes : list string) (st st' : Walk) (k : list string) : Prop :=
  wk_visited st ⊆ wk_visited st' /\ (forall c, c ∈ codes -> c ∈ wk_visited st') /\
  (forall c, c ∈ k -> c ∈ wk_visited st') /\
  (forall v, v ∈ wk_visited st' -> v ∈ dom byCode -> v ∈ wk_visited st \/ v ∈ k).

Lemma topological_app D k1 k2 :
  topological D k1 -> topological (D ++ k1) k2 -> topological D (k1 ++ k2).
Proof.
  intros H1 H2 i c inj d Hi Hc Hd Hdom. apply lookup_app_Some in Hi as [Hi|[Hle Hi]].
  - destruct (H1 i c inj d Hi Hc Hd Hdom) as [?|Ht]; [by left|right].
    rewrite take_app_le; [done|]. apply lookup_lt_Some in Hi. lia.
  - destruct (H2 _ c inj d Hi Hc Hd Hdom) as [[?|?]%elem_of_app|Ht]; [by left|right..].
    + rewrite take_app_ge by done. set_solver.
    + rewrite take_app_ge by done. set_solver.
Qed.

(** One step after another. *)
Lemma ran_app st st1 w w1 w2 k1 k2 codes :
  ran st w w1 k1 -> resolved_codes codes st st1 k1 -> ran st1 w1 w2 k2 -> ran st w w2 (k1 ++ k2).
Proof.
  intros (E1 & N1 & F1) (Hsub & _ & Hk & _) (E2 & N2 & F2). split; [by rewrite E2, E1, app_assoc|]. split.
  - apply NoDup_app. split; [done|]. split; [|done]. intros c Hc1 Hc2. by apply (F2 c Hc2), Hk.
  - intros c [Hc|Hc]%elem_of_app; [by apply F1|]. specialize (F2 c Hc). set_solver.
Qed.

Lemma resolved_codes_app codes1 codes2 st st1 st2 k1 k2 :
  resolved_codes codes1 st st1 k1 -> resolved_codes codes2 st1 st2 k2 ->
  resolved_codes (codes1 ++ codes2) st st2 (k1 ++ k2).
Proof.
  intros (S1 & C1 & K1 & V1) (S2 & C2 & K2 & V2).
  split; [set_solver|]. split; [set_solver|]. split; [set_solver|].
  intros v Hv Hd. destruct (V2 v Hv Hd) as [Hv1|?]; [|set_solver].
  destruct (V1 v Hv1 Hd); set_solver.
Qed.

Lemma resolved_codes_refl st : resolved_codes [] st st [].
Proof. repeat split; set_solver. Qed.

Lemma ran_refl st w : ran st w w [].
Proof. split; [by rewrite app_nil_r|]. split; [constructor|set_solver]. Qed.

(** The contract of a resolution of [codes] from [st], interrupted or not. *)
Definition outcome (codes : list string) (st : Walk) (w : W) (r : Res (option Walk)) (w' : W) : Prop :=
  match r with
  | Ok (Some st') => exists k, ran st w w' k /\ resolved_codes codes st st' k /\
      (acyclic -> forall D, (forall c, c ∈ codes -> c ∈ dom byCode -> finished D st (rank c)) -> topological D k)
  | Ok None => True
  | Err _ => exists k, ran st w w' k
  end.

Lemma fold_outcome fuel codes st w :
  (forall code st w, let (r, w') := resolveOne m byCode fuel code st w in outcome [code] st w r w') ->
  let (r, w') := for_fold codes (Some st) (fun acc code =>
    match acc with Some st => resolveOne m byCode fuel code st | None => ret None end) w in
  outcome codes st w r w'.
Proof.
  intros Hone. set (body := fun acc code => _).
  assert (Hbase : outcome [] st w (Ok (Some st)) w).
  { exists []. split; [apply ran_refl|split; [apply resolved_codes_refl|]]. intros _ D _ i c inj d Hi; done. }
  assert (Hstep : forall l1 x l2 acc w1, codes = l1 ++ x :: l2 -> outcome l1 st w (Ok acc) w1 ->
    match body acc x w1 with
    | (Ok acc', w') => outcome (l1 ++ [x]) st w (Ok acc') w'
    | (Err _, w') => exists k, ran st w w' k
    end).
  { intros l1 x l2 [st1|] w1 _ HP; [|done]. destruct HP as (k1 & R1 & C1 & T1). specialize (Hone x st1 w1).
    subst body. simpl. destruct (resolveOne m byCode fuel x st1 w1) as [[[st2|]|e2] w2]; simpl in *; [|done|].
    - destruct Hone as (k2 & R2 & C2 & T2). exists (k1 ++ k2). split; [by eapply ran_app|].
      split; [by eapply resolved_codes_app|]. intros Ha D HD. apply topological_app; [apply T1; [done|]; set_solver|].
      apply T2; [done|]. intros c Hc Hdom v Hv Hvd Hr. destruct C1 as (_ & _ & _ & V1).
      apply elem_of_app. destruct (V1 v Hv Hvd) as [Hs|Hk]; [left|by right].
      apply (HD c); [set_solver|done..].
    - destruct Hone as (k2 & R2). exists (k1 ++ k2). by eapply ran_app. }
  pose proof (for_fold_rule (fun l1 acc w1 => outcome l1 st w (Ok acc) w1) (fun w1 => exists k, ran st w w1 k)
    codes (Some st) body w Hbase Hstep) as Hf.
  by destruct (for_fold codes _ _ w) as [[acc|e] w'].
Qed.

Lemma run_injector_runs code inj st w :
  byCode !! code = Some inj -> runs (run_injector m code inj st w).2 = runs w ++ [code].
Proof.
  intros Hc. specialize (Hruns code inj (effective_timeout inj) (wk_ctx st) w Hc). rewrite (Hcodes _ _ Hc) in Hruns.
  unfold run_injector, try. destruct (resolveInjectorFields _ _ _ _ w) as [[f|e] w1]; simpl in *; [done|].
  by destruct (inj_IsCritical inj).
Qed.

Lemma resolveOne_outcome fuel code st w :
  let (r, w') := resolveOne m byCode fuel code st w in outcome [code] st w r w'.
Proof.
  revert code st w. induction fuel as [|fuel IH]; intros code st w; [done|]. cbn [resolveOne].
  case_bool_decide as Hv.
  { exists []. split; [apply ran_refl|]. split; [repeat split; set_solver|]. intros _ D _ i c inj d Hi; done. }
  set (st1 := mkWalk ({[code]} ∪ wk_visited st) (wk_resolved st) (wk_ctx st)).
  assert (Hst1 : wk_visited st1 = {[code]} ∪ wk_visited st) by done.
  destruct (byCode !! code) as [inj|] eqn:Ec.
  2: { exists []. split; [apply ran_refl|].
       split; [|intros _ D _ i c inj d Hi; done]. apply not_elem_of_dom in Ec.
       repeat split; rewrite ?Hst1; set_solver. }
  pose proof (fold_outcome fuel (inj_Deps inj) st1 w IH) as Hd.
  assert (Hran : forall w2 k, ran st1 w w2 k -> ran st w w2 k).
  { intros w2 k (E & N & F). split; [done|]. split; [done|]. intros c Hc. specialize (F c Hc). set_solver. }
  unfold bind at 1. destruct (for_fold _ _ _ w) as [[[st2|]|e] w1]; simpl in Hd |- *; [|done|].
  2: { destruct Hd as [k Hk]. exists k. by apply Hran. }
  destruct Hd as (k & Hk & Hres & Htop).
  pose proof (run_injector_runs code inj st2 w1 Ec) as Hrun.
  assert (Hall : forall w2, runs w2 = runs w1 ++ [code] -> ran st w w2 (k ++ [code])).
  { intros w2 E2. destruct Hk as (E & N & F). split; [by rewrite E2, E, app_assoc|]. split.
    - apply NoDup_app. split; [done|]. split; [|apply NoDup_singleton].
      intros c Hc ->%list_elem_of_singleton. destruct (F code Hc) as [Hn _]. set_solver.
    - intros c [Hc| ->%list_elem_of_singleton]%elem_of_app; [destruct (F c Hc); split; [set_solver|done]|].
      split; [done|]. by apply elem_of_dom_2 in Ec. }
  unfold bind. destruct (run_injector m code inj st2 w1) as [[st3|e] w2] eqn:Er; simpl in Hrun |- *.
  2: { exists (k ++ [code]). by apply Hall. }
  exists (k ++ [code]). split; [by apply Hall|].
  apply run_injector_visited in Er. destruct Hres as (S & C & K & V).
  split.
  - unfold resolved_codes. rewrite Er. split; [set_solver|]. split; [set_solver|]. split; [set_solver|].
    intros v Hv2 Hvd. destruct (V v Hv2 Hvd); set_solver.
  - intros Ha D HD. apply elem_of_dom_2 in Ec as Hdom.
    assert (HDc : finished D st (rank code)) by (apply HD; [set_solver|done]).
    apply topological_app.
    + apply Htop; [done|]. intros d Hd Hdd v Hvs Hvd Hr. specialize (Ha code inj d Ec Hd Hdd).
      rewrite Hst1 in Hvs. apply elem_of_union in Hvs as [Ev%elem_of_singleton|Hvs]; [rewrite Ev in Hr; lia|].
      apply HDc; [done|done|lia].
    + intros i c inj' d Hi Hc Hd Hdd. apply list_lookup_singleton_Some in Hi as [-> <-]. rewrite Ec in Hc. injection Hc as <-.
      specialize (Ha code inj d Ec Hd Hdd). left. apply elem_of_app.
      destruct (V d) as [Hvs|?]; [set_solver|done| |by right].
      rewrite Hst1 in Hvs. apply elem_of_union in Hvs as [Ev%elem_of_singleton|Hvs]; [rewrite Ev in Ha; lia|].
      left. apply HDc; [done|done|lia].
Qed.
End Walk.

Lemma by_code_spec {W} (m : InjectorMerger W) filter c inj :
  by_code m filter !! c = Some inj -> inj_Code inj = c /\ inj ∈ im_codeInjectors m /\ filter inj = true.
Proof.
  unfold by_code. enough (Hgen : forall l (b : gmap string (CodeInjector W)), (forall inj, b !! c = Some inj ->
      inj_Code inj = c /\ inj ∈ im_codeInjectors m /\ filter inj = true) -> (forall x, x ∈ l -> x ∈ im_codeInjectors m) ->
    foldl (fun b inj => if filter inj then <[inj_Code inj := inj]> b else b) b l !! c = Some inj ->
    inj_Code inj = c /\ inj ∈ im_codeInjectors m /\ filter inj = true).
  { apply Hgen; [|done]. intros x E. by rewrite lookup_empty in E. }
  induction l as [|x l IH]; intros b Hb Hl; simpl; [by apply Hb|].
  apply IH; [|set_solver]. intros y. destruct (filter x) eqn:Ef; [|by apply Hb].
  destruct (decide (inj_Code x = c)) as [<-|Hne].
  - rewrite lookup_insert_eq. intros [= <-]. split; [done|]. split; [set_solver|done].
  - rewrite lookup_insert_ne by done. by apply Hb.
Qed.

(** C32: the code injectors of a send are run as their contract says: the walk
    always ends, cycles included; no injector runs twice, even when a critical
    failure interrupts the send; a walk that completes has run every registered
    injector exactly once; and when no injector depends on itself through
    others, each one runs after all its registered dependencies - in whatever
    order Go iterates over the map. *)
Theorem code_injectors_run `{GoStd} `{JSON fields_map} {W} (m : InjectorMerger W) filter injCtx w
    (runs : W -> list string) rank :
  (forall inj t ctx w, inj ∈ im_codeInjectors m ->
     runs (resolveInjectorFields m t ctx inj w).2 = runs w ++ [inj_Code inj]) ->
  (forall X, im_order m X ≡ₚ elements X) ->
  let byCode := by_code m filter in
  match resolveCodeInjectors m filter injCtx w with
  | (Ok None, _) => False
  | (Ok (Some _), w') => exists k, runs w' = runs w ++ k /\ k ≡ₚ elements (dom byCode) /\
      (acyclic byCode rank -> topological byCode [] k)
  | (Err _, w') => exists k, runs w' = runs w ++ k /\ NoDup k /\ forall c, c ∈ k -> c ∈ dom byCode
  end.
Proof.
  intros Hruns Horder byCode.
  assert (Hempty : byCode = ∅ -> exists k, runs w = runs w ++ k /\ k ≡ₚ elements (dom byCode) /\
      (acyclic byCode rank -> topological byCode [] k)).
  { intros ->. exists []. rewrite app_nil_r, dom_empty_L, elements_empty. done. }
  assert (Hcodes : forall c inj, byCode !! c = Some inj -> inj_Code inj = c).
  { intros c inj E. by destruct (by_code_spec _ _ _ _ E). }
  assert (Hruns' : forall c inj t ctx w, byCode !! c = Some inj ->
      runs (resolveInjectorFields m t ctx inj w).2 = runs w ++ [inj_Code inj]).
  { intros c inj t ctx w0 E. apply Hruns. by destruct (by_code_spec _ _ _ _ E) as (_ & ? & _). }
  unfold resolveCodeInjectors. destruct (im_codeInjectors m) as [|i0 il] eqn:Ei.
  { apply Hempty. subst byCode. unfold by_code. by rewrite Ei. }
  clear Ei. fold byCode. case_bool_decide as Hb; [by apply Hempty|].
  unfold bind, walk. set (st0 := mkWalk ∅ ∅ injCtx).
  pose proof (walk_total m byCode Hcodes (im_order m (dom byCode)) st0 w) as Htot. unfold walk in Htot.
  pose proof (fold_outcome m byCode Hcodes runs Hruns' rank (S (size byCode)) (im_order m (dom byCode)) st0 w
    (resolveOne_outcome m byCode Hcodes runs Hruns' rank (S (size byCode)))) as Hout.
  destruct (for_fold _ _ _ w) as [[[st|]|e] w'].
  - destruct Hout as (k & (E & N & F) & (_ & C & _ & V) & T). exists k. split; [done|]. split.
    + apply NoDup_Permutation; [done|apply NoDup_elements|]. intros c. rewrite elem_of_elements. split; [apply F|].
      intros Hc. destruct (V c) as [Hv|?]; [|done| |done].
      * apply C. rewrite Horder. by apply elem_of_elements.
      * simpl in Hv. set_solver.
    + intros Ha. apply T; [done|]. intros c _ _ v Hv. simpl in Hv. set_solver.
  - destruct (Htot _ _ eq_refl) as (? & [=] & _).
  - destruct Hout as (k & E & N & F). exists k. split; [done|]. split; [done|]. apply F.
Qed.

(** ** Database resolution *)

Section Lookups.
Context `{GoStd} (json_any : string -> option any).

(** The last element a loop of insertions met. *)
Lemma by_field_lookup {A} (f : InjectorField -> A) fields name :
  by_field f fields !! name = f <$> last (filter (fun x => fld_FieldName x = name) fields).
Proof.
  unfold by_field. induction fields as [|x l IH] using rev_ind; [done|].
  rewrite foldl_app, filter_app, filter_cons, filter_nil. simpl. case_decide as Hd.
  - rewrite Hd, lookup_insert_eq, last_snoc. done.
  - rewrite lookup_insert_ne, app_nil_r by done. exact IH.
Qed.

Definition value_rows (values : list InjectorValue) (name key : string) : list InjectorValue :=
  filter (fun v => val_FieldName v = name /\ scopeKey (val_WorkspaceID v) = key) values.

Lemma index_lookup values name key :
  (default ∅ (foldl index_value ∅ values !! name) : gmap string InjectorValue) !! key = last (value_rows values name key).
Proof.
  unfold value_rows. induction values as [|v l IH] using rev_ind; [done|].
  rewrite foldl_app, filter_app, filter_cons, filter_nil. simpl. unfold index_value at 1.
  destruct (decide (val_FieldName v = name)) as [En|En].
  - rewrite En, lookup_insert_eq. simpl. destruct (decide (scopeKey (val_WorkspaceID v) = key)) as [Ek|Ek].
    + rewrite Ek, lookup_insert_eq, decide_True by done. by rewrite last_snoc.
    + rewrite lookup_insert_ne by done. rewrite decide_False by tauto. rewrite app_nil_r. exact IH.
  - rewrite lookup_insert_ne by done. rewrite decide_False by tauto. rewrite app_nil_r. exact IH.
Qed.

(** The value stored nearest in the chain: the first scope, from the workspace
    outwards, that has a row for the field. *)
Definition nearest_row (values : list InjectorValue) (name : string) (scopes : list (option uuid))
  : option InjectorValue :=
  head (omap (fun scope => last (value_rows values name (scopeKey scope))) scopes).

Definition effective_value (values : list InjectorValue) (scopes : list (option uuid)) (field : InjectorField) : any :=
  match nearest_row values (fld_FieldName field) scopes with
  | Some row => let v := parseJSONValue json_any (val_Value row) in
                if is_nil v then fld_DefaultValue field else v
  | None => fld_DefaultValue field
  end.

Lemma first_scope_nearest values name scopes scopeValues :
  (forall key, scopeValues !! key = last (value_rows values name key)) ->
  first_scope json_any scopeValues scopes =
  match nearest_row values name scopes with Some row => parseJSONValue json_any (val_Value row) | None => ANil end.
Proof.
  intros Hs. unfold nearest_row. induction scopes as [|s r IH]; simpl; [done|].
  rewrite Hs. by destruct (last (value_rows values name (scopeKey s))).
Qed.

Lemma field_value_effective allValues defID scopes field :
  field_value json_any scopes (buildValueIndex allValues !! defID) field =
  effective_value (default [] (allValues !! defID)) scopes field.
Proof.
  unfold field_value, effective_value, buildValueIndex. rewrite lookup_fmap.
  destruct (allValues !! defID) as [values|]; simpl.
  - pose proof (index_lookup values (fld_FieldName field)) as Hl.
    destruct (foldl index_value ∅ values !! fld_FieldName field) as [sv|] eqn:E.
    + rewrite (first_scope_nearest values (fld_FieldName field)) by (by intros key; rewrite <- Hl).
      by destruct (nearest_row _ _ _).
    + assert (Hn : nearest_row values (fld_FieldName field) scopes = None).
      { unfold nearest_row. induction scopes as [|s r IH]; simpl; [done|].
        rewrite <- (Hl (scopeKey s)). exact IH. }
      by rewrite Hn.
  - assert (Hn : nearest_row [] (fld_FieldName field) scopes = None) by (unfold nearest_row; by induction scopes).
    by rewrite Hn.
Qed.

Lemma best_step_lookup scopes best x name :
  best_step scopes best x !! name =
  if decide (def_Name x = name) then
    match best !! name with
    | Some (d, i) => if (scopeIndex (def_WorkspaceID x) scopes <? i)%nat
                     then Some (x, scopeIndex (def_WorkspaceID x) scopes) else Some (d, i)
    | None => Some (x, scopeIndex (def_WorkspaceID x) scopes)
    end
  else best !! name.
Proof.
  unfold best_step. destruct (decide (def_Name x = name)) as [<-|Hne].
  - destruct (best !! def_Name x) as [[d i]|] eqn:E; [|by rewrite lookup_insert_eq].
    destruct (_ <? i)%nat; [by rewrite lookup_insert_eq|done].
  - destruct (best !! def_Name x) as [[d i]|]; [destruct (_ <? i)%nat|]; by rewrite ?lookup_insert_ne.
Qed.

Lemma best_by_name_None scopes defs name :
  best_by_name scopes defs !! name = None -> forall d, d ∈ defs -> def_Name d <> name.
Proof.
  unfold best_by_name. induction defs as [|x l IH] using rev_ind; [set_solver|].
  rewrite foldl_app. simpl. rewrite best_step_lookup.
  destruct (decide (def_Name x = name)) as [|Hne].
  - by destruct (foldl _ _ _ !! name) as [[d i]|]; [destruct (_ <? i)%nat|].
  - intros E d [Hd| ->%list_elem_of_singleton]%elem_of_app; [by apply IH|done].
Qed.

(** The definition kept for a name: one of that name, in the nearest scope. *)
Lemma best_by_name_spec scopes defs name d i :
  best_by_name scopes defs !! name = Some (d, i) ->
  d ∈ defs /\ def_Name d = name /\ i = scopeIndex (def_WorkspaceID d) scopes /\
  forall d', d' ∈ defs -> def_Name d' = name -> i <= scopeIndex (def_WorkspaceID d') scopes.
Proof.
  unfold best_by_name. revert d i. induction defs as [|x l IH] using rev_ind; intros d i; [done|].
  rewrite foldl_app. simpl. rewrite best_step_lookup.
  destruct (foldl (best_step scopes) ∅ l !! name) as [[d0 i0]|] eqn:E.
  - destruct (IH d0 i0 eq_refl) as (Hd0 & Hn0 & Hi0 & Hmin).
    assert (Hx : forall d' j, d' ∈ l ++ [x] -> def_Name d' = name -> j <= i0 ->
      (def_Name x = name -> j <= scopeIndex (def_WorkspaceID x) scopes) -> j <= scopeIndex (def_WorkspaceID d') scopes).
    { intros d' j [Hd'| ->%list_elem_of_singleton]%elem_of_app Hn' Hj Hxj; [|by apply Hxj].
      specialize (Hmin d' Hd' Hn'). lia. }
    destruct (decide (def_Name x = name)) as [En|En];
      [destruct (scopeIndex (def_WorkspaceID x) scopes <? i0)%nat eqn:Hlt|]; intros [= <- <-];
      rewrite elem_of_app; (split; [set_solver|split; [done|split; [done|] ] ]); intros d' Hd' Hn';
      (apply (Hx d'); [done|done|try lia|try lia; try done]).
    + apply Nat.ltb_lt in Hlt. lia.
    + apply Nat.ltb_ge in Hlt. lia.
  - destruct (decide (def_Name x = name)) as [En|En]; [|done]. intros [= <- <-].
    split; [set_solver|]. split; [done|]. split; [done|].
    intros d' [Hd'| ->%list_elem_of_singleton]%elem_of_app Hn'; [|lia].
    by destruct (best_by_name_None scopes l name E d' Hd').
Qed.
End Lookups.

Definition rule_at (rules : field_rules) (name field : string) : option injectorFieldRule :=
  rs ← rules !! name; rs !! field.

(** the database values of a send come from the nearest scope: for every
    name, the fields are those of the definition nearest in the chain, each with
    its own rule, and the value of a field is the row stored nearest in the
    chain - read as JSON - or the field's default when no scope has a row or the
    row holds null. *)
Theorem resolveDBForScopes_spec `{GoStd} json_any {W} (m : InjectorMerger W) scopes w db rules w' :
  resolveDBForScopes json_any m scopes w = (Ok (db, rules), w') ->
  exists defs ids allFields allValues w1 w2,
    ListDefinitionsInChain (im_store m) scopes w = (Ok defs, w1) /\
    GetAllFieldsByDefinitions (im_store m) ids w1 = (Ok allFields, w2) /\
    GetAllValuesByDefinitions (im_store m) ids scopes w2 = (Ok allValues, w') /\
    forall name,
    match db !! name with
    | None => rules !! name = None /\ forall d, d ∈ defs -> def_Name d <> name
    | Some fields => exists d, d ∈ defs /\ def_Name d = name /\ def_ID d ∈ ids /\
        (forall d', d' ∈ defs -> def_Name d' = name ->
           scopeIndex (def_WorkspaceID d) scopes <= scopeIndex (def_WorkspaceID d') scopes) /\
        forall f,
        match last (filter (fun x => fld_FieldName x = f) (default [] (allFields !! def_ID d))) with
        | None => fields !! f = None /\ rule_at rules name f = None
        | Some field => rule_at rules name f = Some (field_rule field) /\
            fields !! f = Some (effective_value json_any (default [] (allValues !! def_ID d)) scopes field)
        end
    end.
Proof.
  unfold resolveDBForScopes, bind.
  destruct (ListDefinitionsInChain _ _ w) as [[defs|] w1]; [|done].
  set (best := best_by_name scopes defs). set (ids := _ <$> map_to_list best).
  destruct (GetAllFieldsByDefinitions _ ids w1) as [[allFields|] w2] eqn:E2; [|done].
  destruct (GetAllValuesByDefinitions _ ids scopes w2) as [[allValues|] w3] eqn:E3; [|done].
  intros [= <- <- <-]. exists defs, ids, allFields, allValues, w1, w2.
  split; [done|]. split; [done|]. split; [done|]. intros name. rewrite lookup_fmap.
  unfold rule_at. rewrite lookup_fmap. destruct (best !! name) as [[d i]|] eqn:Eb; simpl.
  - exists d. pose proof Eb as Hid. apply elem_of_map_to_list in Hid.
    apply best_by_name_spec in Eb as (Hd & Hn & -> & Hmin).
    split; [done|]. split; [done|]. split; [by apply (list_elem_of_fmap_2 (fun kv => def_ID kv.2.1)) in Hid|].
    split; [done|]. intros f. rewrite !by_field_lookup.
    destruct (last _) as [field|]; simpl; [|done]. by rewrite field_value_effective.
  - split; [done|]. by eapply best_by_name_None.
Qed.

(** What the two maps share: a field has a value exactly when it has a rule. *)
Definition aligned (db : MergedInjectors) (rules : field_rules) : Prop :=
  forall name, (db !! name = None <-> rules !! name = None) /\
    forall f, getFieldValue db name f = None <-> rule_at rules name f = None.

Lemma resolveDB_aligned `{GoStd} json_any {W} (m : InjectorMerger W) scopes w db rules w' :
  resolveDBForScopes json_any m scopes w = (Ok (db, rules), w') -> aligned db rules.
Proof.
  unfold resolveDBForScopes, bind.
  destruct (ListDefinitionsInChain _ _ w) as [[defs|] w1]; [|done].
  destruct (GetAllFieldsByDefinitions _ _ w1) as [[allFields|] w2]; [|done].
  destruct (GetAllValuesByDefinitions _ _ _ w2) as [[allValues|] w3]; [|done].
  intros [= <- <- _] name. unfold getFieldValue, rule_at. rewrite !lookup_fmap.
  destruct (best_by_name scopes defs !! name); simpl; [|done]. split; [done|].
  intros f. rewrite !by_field_lookup. by destruct (last _).
Qed.

(** ** Precedence *)

Section Precedence.
Context (value : string -> string -> injectorFieldRule -> option any).

Lemma apply_field_rules_lookup result rules name f :
  getFieldValue (apply_field_rules result rules value) name f =
  match rule_at rules name f with
  | Some rule => match value name f rule with Some v => Some v | None => getFieldValue result name f end
  | None => getFieldValue result name f
  end.
Proof.
  unfold apply_field_rules, apply_rules, getFieldValue, rule_at. rewrite lookup_union, map_lookup_imap.
  destruct (rules !! name) as [rs|] eqn:E; simpl.
  - rewrite union_Some_l. simpl. rewrite lookup_union, map_lookup_imap.
    destruct (rs !! f) as [rule|]; simpl.
    + destruct (value name f rule); simpl; [by rewrite union_Some_l|].
      rewrite (left_id None _). by destruct (result !! name).
    + rewrite (left_id None _). by destruct (result !! name).
  - by rewrite (left_id None _).
Qed.

Lemma apply_field_rules_name result rules name :
  (result !! name = None <-> rules !! name = None) ->
  apply_field_rules result rules value !! name = None <-> rules !! name = None.
Proof.
  intros Ha. unfold apply_field_rules. rewrite lookup_union, map_lookup_imap.
  destruct (rules !! name); simpl; [by rewrite union_Some_l|]. rewrite (left_id None _). tauto.
Qed.
End Precedence.

Lemma mergeCodeOnlyFields_lookup result rules code name f :
  (result !! name = None <-> rules !! name = None) ->
  getFieldValue (mergeCodeOnlyFields result rules code) name f =
  match rule_at rules name f with
  | Some _ => getFieldValue result name f
  | None => match getFieldValue code name f with Some v => Some v | None => getFieldValue result name f end
  end.
Proof.
  intros Ha. unfold mergeCodeOnlyFields, getFieldValue, rule_at. rewrite lookup_union, map_lookup_imap.
  destruct (code !! name) as [fields|]; simpl.
  - destruct (result !! name) as [cur|] eqn:Er, (rules !! name) as [rs|] eqn:Eu; simpl; try naive_solver.
    + rewrite lookup_union.
      assert (Hfl : filter (fun kv => rs !! kv.1 = None) fields !! f =
                    match rs !! f with None => fields !! f | Some _ => None end).
      { apply option_eq. intros v. rewrite map_lookup_filter_Some. simpl. destruct (rs !! f); naive_solver. }
      rewrite Hfl. destruct (rs !! f); [by rewrite (left_id None _)|].
      destruct (fields !! f); [by rewrite union_Some_l|by rewrite (left_id None _)].
    + by destruct (fields !! f).
  - rewrite (left_id None _). destruct (rules !! name) as [rs|]; simpl; [|done]. by destruct (rs !! f).
Qed.

Section Requests.
Context `{GoStd} `{JSON fields_map} {W : Type} (m : InjectorMerger W).

(** The injectors cannot change what the request asked for. *)
Definition same_request (injCtx : InjectorContext) (st : option Walk) : Prop :=
  forall st', st = Some st' -> ic_requestInjectors (wk_ctx st') = ic_requestInjectors injCtx.

Lemma resolveOne_request injCtx byCode fuel code st w st' w' :
  ic_requestInjectors (wk_ctx st) = ic_requestInjectors injCtx ->
  resolveOne m byCode fuel code st w = (Ok st', w') -> same_request injCtx st'.
Proof.
  revert code st w st' w'. induction fuel as [|fuel IH]; intros code st w st' w' Hst; [by intros [= <- _]|].
  cbn [resolveOne]. case_bool_decide; [by intros [= <- _] ? [= <-]|].
  destruct (byCode !! code) as [inj|]; [|by intros [= <- _] ? [= <-]].
  unfold bind at 1. destruct (for_fold _ _ _ w) as [[acc|e] w1] eqn:Ef; [|done].
  assert (Hg : same_request injCtx acc).
  { refine (for_fold_ind (fun acc _ => same_request injCtx acc) _ _ _ _ _ _ Ef _ _); [by intros ? [= <-]|].
    intros dep [st2|] w0 acc1 w2 _ Hacc E2; [|by injection E2 as <- _]. eapply IH; [|exact E2]. by apply Hacc. }
  destruct acc as [st2|]; [|by intros [= <- _]]. unfold bind, run_injector, try.
  specialize (Hg st2 eq_refl).
  destruct (resolveInjectorFields _ _ _ _ w1) as [[f|e] w2]; [by intros [= <- _] ? [= <-]|].
  destruct (inj_IsCritical inj); [done|]. by intros [= <- _] ? [= <-].
Qed.

Lemma resolveCodeInjectors_request filter injCtx w code injCtx' w' :
  resolveCodeInjectors m filter injCtx w = (Ok (Some (code, injCtx')), w') ->
  ic_requestInjectors injCtx' = ic_requestInjectors injCtx.
Proof.
  unfold resolveCodeInjectors. destruct (im_codeInjectors m); [by intros [= _ <- _]|].
  case_bool_decide; [by intros [= _ <- _]|]. unfold bind, walk.
  destruct (for_fold _ _ _ w) as [[acc|e] w1] eqn:Ef; [|done].
  assert (Hg : same_request injCtx acc).
  { refine (for_fold_ind (fun acc _ => same_request injCtx acc) _ _ _ _ _ _ Ef _ _); [by intros ? [= <-]|].
    intros dep [st2|] w0 acc1 w2 _ Hacc E2; [|by injection E2 as <- _].
    eapply resolveOne_request; [|exact E2]. by apply Hacc. }
  destruct acc as [st2|]; [|done]. intros [= _ <- _]. by apply Hg.
Qed.

(** What either entry point gives for one field. *)
Lemma resolve_with_lookup value db rules injCtx w res injCtx' w' :
  aligned db rules ->
  resolve_with m value (db, rules) injCtx w = (Ok (Some (res, injCtx')), w') ->
  exists codes ctx1 ctx2 w1 w2, resolveCodeInjectors m (fun _ => true) ctx1 w1 = (Ok (Some (codes, ctx2)), w2) /\
  forall name f, getFieldValue res name f =
    match rule_at rules name f with
    | Some rule => match value (ic_requestInjectors injCtx) codes name f rule with
                   | Some v => Some v
                   | None => getFieldValue db name f
                   end
    | None => getFieldValue codes name f
    end.
Proof.
  intros Ha. unfold resolve_with. set (ctx0 := MergeDBInjectors db injCtx). unfold bind at 1.
  assert (Hinit : forall ctx1 w1, run_init m ctx0 w = (Ok ctx1, w1) ->
            ic_requestInjectors ctx1 = ic_requestInjectors injCtx).
  { intros ctx1 w1. unfold run_init. destruct (im_codeInitFunc m) as [f|]; [|by intros [= <- _]].
    unfold bind, wrap_err. destruct (f ctx0 w) as [[d|] w0]; [|done]. by intros [= <- _]. }
  destruct (run_init m ctx0 w) as [[ctx1|e] w1]; [|done].
  specialize (Hinit ctx1 w1 eq_refl). unfold bind.
  destruct (resolveCodeInjectors m (fun _ => true) ctx1 w1) as [[[[codes ctx2]|]|e] w2] eqn:Ec; [|done..].
  apply resolveCodeInjectors_request in Ec as Hreq. rewrite Hinit in Hreq. intros [= <- _ _].
  exists codes, ctx1, ctx2, w1, w2. split; [done|]. intros name f. destruct (Ha name) as [Hn Hf].
  rewrite mergeCodeOnlyFields_lookup by (by apply apply_field_rules_name).
  rewrite apply_field_rules_lookup, Hreq.
  destruct (rule_at rules name f) as [rule|] eqn:Er; [done|].
  specialize (Hf f). rewrite Er in Hf. rewrite (proj2 Hf eq_refl). by destruct (getFieldValue codes name f).
Qed.
End Requests.

(** C29: precedence at send time: a field with a rule that allows overwriting
    takes the request's value, else the code injector's, else its default; a
    locked field keeps exactly its database value, whatever the request and the
    injectors say; a field without a rule exists only when a code injector gives
    it. *)
Theorem ResolveWithContext_precedence `{GoStd} `{JSON fields_map} json_any {W} (m : InjectorMerger W)
    workspaceID injCtx w res injCtx' w' :
  ResolveWithContext json_any m workspaceID injCtx w = (Ok (Some (res, injCtx')), w') ->
  exists db rules codes ctx1 ctx2 w1 w2 w3,
    resolveDB json_any m workspaceID w = (Ok (db, rules), w1) /\
    resolveCodeInjectors m (fun _ => true) ctx1 w2 = (Ok (Some (codes, ctx2)), w3) /\
    forall name f, getFieldValue res name f =
      match rule_at rules name f with
      | Some rule =>
          if fr_AllowOverwrite rule then
            Some (default (default (fr_DefaultValue rule) (getFieldValue codes name f))
                          (getFieldValue (ic_requestInjectors injCtx) name f))
          else getFieldValue db name f
      | None => getFieldValue codes name f
      end.
Proof.
  unfold ResolveWithContext, bind at 1. destruct (resolveDB json_any m workspaceID w) as [[[db rules]|] w1] eqn:Ed; [|done].
  assert (Ha : aligned db rules).
  { unfold resolveDB, bind in Ed. destruct (im_chain m workspaceID w) as [[chain|] w0]; [|done].
    by eapply resolveDB_aligned. }
  intros (codes & ctx1 & ctx2 & w2 & w3 & Ec & Hl)%resolve_with_lookup; [|done].
  exists db, rules, codes, ctx1, ctx2, w1, w2, w3. split; [done|]. split; [done|]. intros name f. rewrite Hl.
  destruct (rule_at rules name f) as [rule|]; [|done].
  unfold resolve_workspace_field, overwrite_value. destruct (fr_AllowOverwrite rule); [|done].
  destruct (getFieldValue (ic_requestInjectors injCtx) name f); simpl; [done|].
  by destruct (getFieldValue codes name f).
Qed.

(** ** Witnesses *)

#[local] Instance sample_fields_json : JSON fields_map := {|
  Marshal := fun _ => Err (EMsg "json: unsupported value");
  Unmarshal := fun _ => Err (EMsg "unexpected end of JSON input");
|}.

(** An injector that logs its run. *)
Definition sample_injector (code : string) (deps : list string) (fields : fields_map) : CodeInjector (list string) :=
  {| inj_Code := code; inj_Run := fun _ _ w => (Ok fields, w ++ [code]); inj_Deps := deps;
     inj_IsCritical := true; inj_Timeout := 0; inj_Catalog := None |}.

Definition sample_definition (id ws : uuid) : InjectorDefinition :=
  {| def_ID := id; def_WorkspaceID := Some ws; def_Name := "brand"; def_Description := None; def_Source := "";
     def_Static := false; def_OwnerScope := ""; def_InheritedFromSystem := false; def_CreatedAt := 0;
     def_UpdatedAt := 0; def_DeletedAt := None |}.

Definition sample_field (name : string) (overwrite : bool) : InjectorField :=
  {| fld_ID := 51; fld_InjectorDefinitionID := 50; fld_FieldName := name; fld_FieldType := FieldTypeText;
     fld_Description := None; fld_Position := 0; fld_DefaultValue := AStr "default";
     fld_AllowOverwrite := overwrite |}.

Definition sample_value : InjectorValue :=
  {| val_ID := 52; val_InjectorDefinitionID := 50; val_FieldName := "logo"; val_WorkspaceID := Some 8%N;
     val_Value := "acme.png"; val_UpdatedAt := 0 |}.

(** Workspace 7 inherits the injector [brand] of the system workspace 8; two
    code injectors are registered, [quote] needing [rates]. *)
Definition sample_merger : InjectorMerger (list string) := {|
  im_store := {|
    ListDefinitionsInChain := fun _ => ret [sample_definition 50 8];
    GetAllFieldsByDefinitions := fun _ => ret {[50%N := [sample_field "logo" false; sample_field "color" true]]};
    GetAllValuesByDefinitions := fun _ _ => ret {[50%N := [sample_value]]};
  |};
  im_chain := fun ws => ret {| ch_WorkspaceID := ws; ch_SystemWorkspaceID := 8; ch_TenantID := 3;
                               ch_Scopes := [Some ws; Some 8%N] |};
  im_cache := None;
  im_codeInjectors := [sample_injector "quote" ["rates"] {["total" := AStr "12"]};
                       sample_injector "rates" [] {["eur" := AStr "1.1"]}];
  im_codeInitFunc := None;
  im_order := elements;
  im_rt := {| rt_NewV7 := fun w => (1%N, w); rt_Now := fun w => (0%Z, w) |};
|}.

Definition sample_context : InjectorContext :=
  SetRequestInjectors {["brand" := {["logo" := AStr "evil.png"; "color" := AStr "red"]}]}
    (NewInjectorContext ∅ "acme:crm:welcome" ∅ 3 7 EnvironmentProd "welcome").

Lemma sample_runs_log `{GoStd} inj t ctx w :
  inj ∈ im_codeInjectors sample_merger ->
  (resolveInjectorFields sample_merger t ctx inj w).2 = w ++ [inj_Code inj].
Proof. intros Hi. simpl in Hi. repeat (apply elem_of_cons in Hi as [->|Hi]; [done|]). by apply elem_of_nil in Hi. Qed.

Definition is_complete {A} (r : Res (option A)) : bool := match r with Ok (Some _) => true | _ => false end.

Lemma code_injectors_run_witness :
  let G := ascii_std in
  exists k, (resolveCodeInjectors sample_merger (fun _ => true) sample_context []).2 = k /\
    k ≡ₚ ["quote"; "rates"] /\ topological (by_code sample_merger (fun _ => true)) [] k.
Proof.
  intros G.
  pose proof (code_injectors_run sample_merger (fun _ => true) sample_context [] id
    (fun c => if bool_decide (c = "quote") then 1 else 0) sample_runs_log (fun _ => reflexivity _)) as Hp.
  assert (E : is_complete (resolveCodeInjectors sample_merger (fun _ => true) sample_context []).1 = true)
    by (vm_compute; reflexivity).
  destruct (resolveCodeInjectors sample_merger (fun _ => true) sample_context []) as [[[x|]|e] w'];
    [clear E|discriminate E..].
  destruct Hp as (k & Hk & Hperm & Ht). exists k. split; [exact Hk|]. split.
  - rewrite Hperm. vm_compute. apply perm_swap || reflexivity.
  - apply Ht. intros c inj d Hc Hd _. destruct (by_code_spec _ _ _ _ Hc) as (<- & Hi & _). simpl in Hi.
    apply elem_of_cons in Hi as [->|Hi].
    + apply list_elem_of_singleton in Hd as ->. vm_compute. lia.
    + apply list_elem_of_singleton in Hi as ->. by apply elem_of_nil in Hd.
Defined.

Lemma resolveDBForScopes_spec_witness :
  let G := ascii_std in
  exists db rules, resolveDBForScopes (fun _ => None) sample_merger [Some 7%N; Some 8%N] [] = (Ok (db, rules), []) /\
    getFieldValue db "brand" "logo" = Some (AStr "acme.png") /\
    exists defs, (ListDefinitionsInChain (im_store sample_merger) [Some 7%N; Some 8%N] []).1 = Ok defs.
Proof.
  intros G. eexists _, _. split; [reflexivity|]. split; [vm_compute; reflexivity|].
  edestruct (resolveDBForScopes_spec (fun _ => None) sample_merger [Some 7%N; Some 8%N] []) as (defs & ids & af & av & w1 & w2 & E & _).
  - reflexivity.
  - exists defs. by rewrite E.
Defined.

(** The caller cannot replace the locked logo, but chooses the colour. *)
Lemma ResolveWithContext_precedence_witness :
  let G := ascii_std in
  exists res ctx w', ResolveWithContext (fun _ => None) sample_merger 7 sample_context [] = (Ok (Some (res, ctx)), w') /\
    getFieldValue res "brand" "logo" = Some (AStr "acme.png") /\
    getFieldValue res "brand" "color" = Some (AStr "red").
Proof.
  intros G.
  assert (E : is_complete (ResolveWithContext (fun _ => None) sample_merger 7 sample_context []).1 = true)
    by (vm_compute; reflexivity).
  pose proof (ResolveWithContext_precedence (fun _ => None) sample_merger 7 sample_context []) as Hp.
  destruct (ResolveWithContext (fun _ => None) sample_merger 7 sample_context []) as [[[[res ctx]|]|e] w'];
    [clear E|discriminate E..].
  exists res, ctx, w'. split; [done|].
  destruct (Hp res ctx w' eq_refl) as (db & rules & codes & c1 & c2 & w1 & w2 & w3 & Edb & _ & Hl).
  assert (Hr : rule_at rules "brand" "logo" = Some (mkFieldRule (AStr "default") false) /\
    rule_at rules "brand" "color" = Some (mkFieldRule (AStr "default") true) /\
    getFieldValue db "brand" "logo" = Some (AStr "acme.png")).
  { simpl in Edb. injection Edb as <- <- _. vm_compute. repeat split. }
  destruct Hr as (Hr1 & Hr2 & Hdb). rewrite (Hl "brand" "logo"), (Hl "brand" "color"), Hr1, Hr2, Hdb.
  split; [reflexivity|]. vm_compute. reflexivity.
Defined.
