(* ===== verification/InjectorRepo.v ===== *)
(** * Injector definitions ([adapter/postgres/injector_repo.go])

    The tables of injector definitions, of their fields and of the values set for
    a scope, with their constraints, and the repository over them. *)
From stdpp Require Import base gmap strings list sorting.
From Stdlib Require Import ZArith NArith Ascii String Lia.
From S2P Require Import Prelude GoMonad Domain Ports Token.
From S2P Require Import Suppression Postgres Database Directory Templates Resolution Injectors.

(** A field with its JSONB default, and a value with its JSONB column; the
    [DefaultValue] and [Value] of the records are what scanning reads there. *)
Record FieldRow := mkFieldRow { fw_field : InjectorField; fw_default : option string }.
Record ValueRow := mkValueRow { vw_value : InjectorValue; vw_json : string }.

Record Catalogue := mkCatalogue {
  ij_dir : Tables;
  ij_defs : gmap uuid InjectorDefinition;
  ij_fields : gmap uuid FieldRow;
  ij_values : gmap uuid ValueRow;
}.

Abbreviation Inj := (DB Catalogue).

Definition set_defs f t := mkCatalogue (ij_dir t) (f (ij_defs t)) (ij_fields t) (ij_values t).
Definition set_fields f t := mkCatalogue (ij_dir t) (ij_defs t) (f (ij_fields t)) (ij_values t).
Definition set_values f t := mkCatalogue (ij_dir t) (ij_defs t) (ij_fields t) (f (ij_values t)).
Definition set_injector_dir d t := mkCatalogue d (ij_defs t) (ij_fields t) (ij_values t).

Section Repo.
Context `{GoStd} `{JSON any} `{JSON string}.

(** ** Definitions *)

Definition def_live (d : InjectorDefinition) : bool := bool_decide (def_DeletedAt d = None).
Definition definition_not_found : error := NotFound "injector definition not found".

(** A row holds the columns; source, scope and inheritance are annotations. *)
Definition definition_row (id : uuid) (ws : option uuid) (name : string) (description : option string)
    (created updated : gotime) (deleted : option gotime) : InjectorDefinition :=
  mkInjectorDefinition id ws name description "" false "" false created updated deleted.

Definition with_def_times (created updated : gotime) (d : InjectorDefinition) : InjectorDefinition :=
  mkInjectorDefinition (def_ID d) (def_WorkspaceID d) (def_Name d) (def_Description d) (def_Source d) (def_Static d)
    (def_OwnerScope d) (def_InheritedFromSystem d) created updated (def_DeletedAt d).

(** [UNIQUE NULLS NOT DISTINCT (name, workspace_id)]: deleted rows count. *)
Definition same_name (a b : InjectorDefinition) : bool :=
  bool_decide (def_Name a = def_Name b) && bool_decide (def_WorkspaceID a = def_WorkspaceID b).

Definition CreateDefinition (d : InjectorDefinition) : M Inj InjectorDefinition :=
  write_stmt "inserting injector definition" (fun now t =>
    let row := definition_row (def_ID d) (def_WorkspaceID d) (def_Name d) (def_Description d) now now None in
    match violation [(bool_decide (ij_defs t !! def_ID d = None), duplicate "injector_definitions_pkey");
                     (bool_decide (rows (same_name row) (ij_defs t) = []), duplicate "injector_def_unique_per_scope");
                     (refers (tb_workspaces (ij_dir t)) (def_WorkspaceID d), dangling "workspaces")] with
    | Some e => inl e
    | None => inr (with_def_times now now d, set_defs <[def_ID d := row]> t)
    end).

Definition GetDefinitionByID (id : uuid) : M Inj InjectorDefinition :=
  query (wrapping "scanning injector definition") (fun t =>
    scan_row definition_not_found
      (match ij_defs t !! id with Some d => if def_live d then Some d else None | None => None end)).

Definition with_def_deleted (now : gotime) (d : InjectorDefinition) : InjectorDefinition :=
  mkInjectorDefinition (def_ID d) (def_WorkspaceID d) (def_Name d) (def_Description d) (def_Source d) (def_Static d)
    (def_OwnerScope d) (def_InheritedFromSystem d) (def_CreatedAt d) (def_UpdatedAt d) (Some now).

Definition SoftDeleteDefinition (id : uuid) : M Inj unit :=
  update_stmt "soft-deleting injector" (NotFound ("injector " +:+ uuid_String id +:+ " not found"))
    (fun t => match ij_defs t !! id with Some d => if def_live d then Some d else None | None => None end)
    (fun now d => set_defs <[id := with_def_deleted now d]>).

(** [findDefinitionByNameTx], on the pool or in a transaction. *)
Definition FindDefinitionByName (name : string) (workspaceID : option uuid) : M Inj InjectorDefinition :=
  query (wrapping "scanning injector definition") (fun t =>
    first_row definition_not_found
      (rows (fun d => bool_decide (def_Name d = name) && bool_decide (def_WorkspaceID d = workspaceID) && def_live d)
            (ij_defs t))).

Definition ListDefinitions (chain : list (option uuid)) : M Inj (list InjectorDefinition) :=
  let '(scopes, includeGlobal) := splitChain chain in
  query (wrapping "listing injector definitions in chain") (fun t =>
    Ok (newest_first def_ID
          (rows (fun d => in_chain scopes includeGlobal (def_WorkspaceID d) && def_live d) (ij_defs t)))).

(** ** Fields *)

(** [json.Marshal] of a default, none for a nil. *)
Definition default_json (msg : string) (v : any) : Res (option string) :=
  match v with
  | ANil => Ok None
  | _ => match Marshal v with Ok s => Ok (Some s) | Err e => Err (wrapping msg e) end
  end.

Definition with_default (v : any) (f : InjectorField) : InjectorField :=
  mkInjectorField (fld_ID f) (fld_InjectorDefinitionID f) (fld_FieldName f) (fld_FieldType f) (fld_Description f)
    (fld_Position f) v (fld_AllowOverwrite f).

Definition same_field (a b : FieldRow) : bool :=
  bool_decide (fld_InjectorDefinitionID (fw_field a) = fld_InjectorDefinitionID (fw_field b))
  && bool_decide (fld_FieldName (fw_field a) = fld_FieldName (fw_field b)).

Definition insert_field (f : InjectorField) (json : option string) (t : Catalogue) : PgError + (unit * Catalogue) :=
  let row := mkFieldRow (with_default ANil f) json in
  match violation [(bool_decide (ij_fields t !! fld_ID f = None), duplicate "injector_fields_pkey");
                   (bool_decide (rows (same_field row) (ij_fields t) = []), duplicate "injector_field_unique");
                   (bool_decide (is_Some (ij_defs t !! fld_InjectorDefinitionID f)), dangling "injector_definitions")] with
  | Some e => inl e
  | None => inr (tt, set_fields <[fld_ID f := row]> t)
  end.

(** [createFieldTx], on the pool or in a transaction. *)
Definition CreateField (f : InjectorField) : M Inj unit :=
  let! json := lift_res (default_json "marshaling injector field default value" (fld_DefaultValue f)) in
  write_stmt "inserting injector field" (fun _ => insert_field f json).

Definition with_field_settings (f : InjectorField) (json : option string) (row : FieldRow) : FieldRow :=
  let r := fw_field row in
  mkFieldRow (mkInjectorField (fld_ID r) (fld_InjectorDefinitionID r) (fld_FieldName r) (fld_FieldType r)
                (fld_Description r) (fld_Position r) ANil (fld_AllowOverwrite f)) json.

Definition InjectorRepo_UpdateField (f : InjectorField) : M Inj unit :=
  let! json := lift_res (default_json "marshaling injector field default value" (fld_DefaultValue f)) in
  update_stmt "updating injector field" (NotFound ("injector field " +:+ uuid_String (fld_ID f) +:+ " not found"))
    (fun t => ij_fields t !! fld_ID f)
    (fun _ row => set_fields <[fld_ID f := with_field_settings f json row]>).

Definition scanInjectorField (row : FieldRow) : Res InjectorField :=
  match fw_default row with
  | None => Ok (fw_field row)
  | Some json =>
      if bool_decide (json = "") then Ok (fw_field row)
      else match Unmarshal json with
           | Ok v => Ok (with_default v (fw_field row))
           | Err e => Err (wrapping "unmarshaling injector field default value" e)
           end
  end.

(** [pgx.CollectRows]. *)
Fixpoint collect {A B} (msg : string) (scan : A -> Res B) (l : list A) : Res (list B) :=
  match l with
  | [] => Ok []
  | a :: l => match scan a with
              | Err e => Err (wrapping msg e)
              | Ok b => match collect msg scan l with Ok bs => Ok (b :: bs) | Err e => Err e end
              end
  end.

(** [ORDER BY position]; PostgreSQL leaves the order of equal positions open. *)
Definition positioned (a b : FieldRow) : Prop := (fld_Position (fw_field a) <= fld_Position (fw_field b))%Z.
#[local] Instance positioned_dec : RelDecision positioned.
Proof. intros a b. unfold positioned. apply _. Defined.

Definition field_rows (p : FieldRow -> bool) (t : Catalogue) : list FieldRow := merge_sort positioned (rows p (ij_fields t)).

Definition GetFieldsByDefinition (defID : uuid) : M Inj (list InjectorField) :=
  query (wrapping "querying injector fields") (fun t =>
    collect "collecting injector fields" scanInjectorField
      (field_rows (fun r => bool_decide (fld_InjectorDefinitionID (fw_field r) = defID)) t)).

(** [result[id] = append(result[id], x)]. *)
Definition group_by {A} (key : A -> uuid) (l : list A) : gmap uuid (list A) :=
  foldl (fun m a => <[key a := default [] (m !! key a) ++ [a]]> m) ∅ l.

(** The rows of a definition come together and in order: the order of the
    definitions does not show in the map. *)
Definition AllFieldsByDefinitions (defIDs : list uuid) : M Inj (gmap uuid (list InjectorField)) :=
  if bool_decide (defIDs = []) then ret ∅
  else
    let! fields := query (wrapping "batch querying injector fields") (fun t =>
      collect "collecting batch injector fields" scanInjectorField
        (field_rows (fun r => bool_decide (fld_InjectorDefinitionID (fw_field r) ∈ defIDs)) t)) in
    ret (group_by fld_InjectorDefinitionID fields).

(** ** Values *)

Definition scanInjectorValue (row : ValueRow) : Res InjectorValue :=
  let v := vw_value row in
  match Unmarshal (vw_json row) with
  | Ok s => Ok (mkInjectorValue (val_ID v) (val_InjectorDefinitionID v) (val_FieldName v) (val_WorkspaceID v) s (val_UpdatedAt v))
  | Err e => Err (wrapping "unmarshaling injector value" e)
  end.

(** [UNIQUE NULLS NOT DISTINCT (injector_definition_id, field_name, workspace_id)]. *)
Definition same_value (a b : ValueRow) : bool :=
  bool_decide (val_InjectorDefinitionID (vw_value a) = val_InjectorDefinitionID (vw_value b))
  && bool_decide (val_FieldName (vw_value a) = val_FieldName (vw_value b))
  && bool_decide (val_WorkspaceID (vw_value a) = val_WorkspaceID (vw_value b)).

Definition value_row (id : uuid) (now : gotime) (v : InjectorValue) (json : string) : ValueRow :=
  mkValueRow (mkInjectorValue id (val_InjectorDefinitionID v) (val_FieldName v) (val_WorkspaceID v) "" now) json.

(** The violations of this statement are not classified. *)
Definition SetValue (v : InjectorValue) : M Inj InjectorValue :=
  let! json := lift_res (match Marshal (val_Value v) with
                         | Ok s => Ok s
                         | Err e => Err (wrapping "marshaling injector value" e)
                         end) in
  exec (wrapping "upserting injector value") (fun now t =>
    let stored id := (Ok (mkInjectorValue id (val_InjectorDefinitionID v) (val_FieldName v) (val_WorkspaceID v) (val_Value v) now),
                      set_values <[id := value_row id now v json]> t) in
    let failed msg := (Err (wrapping "upserting injector value" (EMsg msg)), t) in
    match rows (same_value (value_row (val_ID v) now v json)) (ij_values t) with
    | row :: _ => stored (val_ID (vw_value row))
    | [] =>
        if negb (bool_decide (ij_values t !! val_ID v = None)) then failed "duplicate key value"
        else if negb (bool_decide (is_Some (ij_defs t !! val_InjectorDefinitionID v)))
                || negb (refers (tb_workspaces (ij_dir t)) (val_WorkspaceID v)) then failed "foreign key violation"
        else stored (val_ID v)
    end).

Definition InjectorRepo_GetValues (defID : uuid) (chain : list (option uuid)) : M Inj (list InjectorValue) :=
  let '(scopes, includeGlobal) := splitChain chain in
  query (wrapping "querying injector values") (fun t =>
    collect "collecting injector values" scanInjectorValue
      (rows (fun r => bool_decide (val_InjectorDefinitionID (vw_value r) = defID)
                      && in_chain scopes includeGlobal (val_WorkspaceID (vw_value r))) (ij_values t))).

Definition AllValuesByDefinitions (defIDs : list uuid) (chain : list (option uuid))
  : M Inj (gmap uuid (list InjectorValue)) :=
  if bool_decide (defIDs = []) then ret ∅
  else
    let '(scopes, includeGlobal) := splitChain chain in
    let! vals := query (wrapping "batch querying injector values") (fun t =>
      collect "collecting batch injector values" scanInjectorValue
        (rows (fun r => bool_decide (val_InjectorDefinitionID (vw_value r) ∈ defIDs)
                        && in_chain scopes includeGlobal (val_WorkspaceID (vw_value r))) (ij_values t))) in
    ret (group_by val_InjectorDefinitionID vals).

(** The store the merger reads. *)
Definition InjectorRepo : InjectorStore Inj := {|
  ListDefinitionsInChain := ListDefinitions;
  GetAllFieldsByDefinitions := AllFieldsByDefinitions;
  GetAllValuesByDefinitions := AllValuesByDefinitions;
|}.

(** ** Replacing a schema *)

Definition with_schema (now : gotime) (name : string) (description : option string) (r : InjectorDefinition) : InjectorDefinition :=
  definition_row (def_ID r) (def_WorkspaceID r) name description (def_CreatedAt r) now (def_DeletedAt r).

Definition update_definition (id : uuid) (d : InjectorDefinition) : M Inj (gotime * gotime) :=
  write_stmt "updating injector definition" (fun now t =>
    match ij_defs t !! id with
    | None => inl (PgOther "no rows in result set")
    | Some r =>
        let row := with_schema now (def_Name d) (def_Description d) r in
        if bool_decide (rows (same_name row) (delete id (ij_defs t)) = [])
        then inr ((def_CreatedAt r, now), set_defs <[id := row]> t)
        else inl (duplicate "injector_def_unique_per_scope")
    end).

Definition delete_values (defID : uuid) : M Inj unit :=
  exec (wrapping "deleting injector values") (fun _ t =>
    (Ok tt, set_values (filter (fun kv => val_InjectorDefinitionID (vw_value kv.2) <> defID)) t)).
Definition delete_fields (defID : uuid) : M Inj unit :=
  exec (wrapping "deleting injector fields") (fun _ t =>
    (Ok tt, set_fields (filter (fun kv => fld_InjectorDefinitionID (fw_field kv.2) <> defID)) t)).

Definition of_definition (defID : uuid) (f : InjectorField) : InjectorField :=
  mkInjectorField (fld_ID f) defID (fld_FieldName f) (fld_FieldType f) (fld_Description f) (fld_Position f)
    (fld_DefaultValue f) (fld_AllowOverwrite f).

(** The definition and the fields as the call leaves them. *)
Definition UpdateDefinitionSchema (currentName : string) (workspaceID : option uuid) (d : InjectorDefinition)
    (fields : list InjectorField) : M Inj (InjectorDefinition * list InjectorField) :=
  in_tx "begin injector schema update transaction" "commit injector schema update transaction" (
    let! existing := FindDefinitionByName currentName workspaceID in
    let! (created, updated) := update_definition (def_ID existing) d in
    delete_values (def_ID existing) ;;;
    delete_fields (def_ID existing) ;;;
    for_each (of_definition (def_ID existing) <$> fields) CreateField ;;;
    ret (mkInjectorDefinition (def_ID existing) (def_WorkspaceID existing) (def_Name d) (def_Description d) (def_Source d)
           (def_Static d) (def_OwnerScope d) (def_InheritedFromSystem d) created updated (def_DeletedAt d),
         of_definition (def_ID existing) <$> fields)).
End Repo.

(** * Theorems *)

(** ** The constraints hold *)

Record catalogue_ok (t : Catalogue) : Prop := {
  cok_defs : keyed def_ID (ij_defs t);
  cok_names : unique_by same_name (ij_defs t);
  cok_fields : keyed (fun r => fld_ID (fw_field r)) (ij_fields t);
  cok_field_names : unique_by same_field (ij_fields t);
  cok_field_defs id r : ij_fields t !! id = Some r -> is_Some (ij_defs t !! fld_InjectorDefinitionID (fw_field r));
  cok_values : keyed (fun r => val_ID (vw_value r)) (ij_values t);
  cok_value_slots : unique_by same_value (ij_values t);
  cok_value_defs id r : ij_values t !! id = Some r -> is_Some (ij_defs t !! val_InjectorDefinitionID (vw_value r));
}.
