(* ===== verification/InjectorHandlers.v ===== *)
(** * Managing injectors ([handler/injector.go])

    The handlers of injector definitions, fields and values, of a workspace and
    global, with [request/injector.go] and [response/injector.go]. *)
From stdpp Require Import base gmap strings list.
From Stdlib Require Import ZArith NArith Ascii String Lia.
From S2P Require Import Prelude GoMonad Domain Ports Token Config Http Suppression Postgres Database Directory.
From S2P Require Import Auth Members Surface Inheritance Hosted Templates TemplateHandlers Resolution Injectors InjectorRepo.

(** The catalogue hosts the directory. *)
#[export] Instance catalogue_hosted : Hosted Catalogue := {| directory := ij_dir; set_directory := set_injector_dir |}.
#[export] Instance catalogue_hosted_laws : HostedLaws Catalogue.
Proof. split. by intros []. Qed.

(** ** Requests and responses *)

Record CreateInjectorField := mkCreateInjectorField {
  cif_FieldName : string;
  cif_FieldType : string;
  cif_Description : option string;
  cif_Position : Z;
  cif_DefaultValue : any;
  cif_AllowOverwrite : option bool;
}.
(** [UpdateInjectorRequest] is the same type. *)
Record CreateInjectorRequest := mkCreateInjector {
  cir_Name : string;
  cir_Description : option string;
  cir_Fields : list CreateInjectorField;
}.
Record InjectorFieldValue := mkInjectorFieldValue { ifv_FieldName : string; ifv_Value : string }.
Record SetInjectorValuesRequest := mkSetInjectorValues { siv_Values : list InjectorFieldValue }.
Record UpdateInjectorFieldRequest := mkUpdateInjectorField { uif_DefaultValue : any; uif_AllowOverwrite : option bool }.

Definition InjectorFieldType_String (t : InjectorFieldType) : string :=
  match t with
  | FieldTypeText => "text" | FieldTypeNumber => "number" | FieldTypeBool => "bool"
  | FieldTypeImg => "img" | FieldTypeURL => "url" | FieldTypeHTML => "html"
  end.
(** The type a string names. *)
Definition field_type (s : string) : option InjectorFieldType :=
  List.find (fun t => bool_decide (InjectorFieldType_String t = s))
    [FieldTypeText; FieldTypeNumber; FieldTypeBool; FieldTypeImg; FieldTypeURL; FieldTypeHTML].
Definition isValidFieldType (ft : string) : bool := bool_decide (is_Some (field_type ft)).

Section Responses.
Context `{GoStd}.

(** [omitempty] on an interface. *)
Definition given_value (name : string) (v : any) : list (string * any) :=
  match v with ANil => [] | _ => field name v end.

Definition definition_fields (d : InjectorDefinition) : list (string * any) :=
  text "id" (uuid_String (def_ID d)) ++ optional "workspace_id" (uuid_String <$> def_WorkspaceID d)
  ++ text "name" (def_Name d) ++ text "source" (if bool_decide (def_Source d = "") then "database" else def_Source d)
  ++ flag "static" (def_Static d) ++ optional "description" (def_Description d)
  ++ filled "owner_scope" (def_OwnerScope d) ++ flag "inherited_from_system" (def_InheritedFromSystem d)
  ++ text "created_at" (rfc3339 (def_CreatedAt d)) ++ text "updated_at" (rfc3339 (def_UpdatedAt d)).

Definition NewInjectorFieldResponse (f : InjectorField) : any :=
  AMap (text "id" (uuid_String (fld_ID f)) ++ text "field_name" (fld_FieldName f)
        ++ text "field_type" (InjectorFieldType_String (fld_FieldType f)) ++ optional "description" (fld_Description f)
        ++ field "position" (AInt (fld_Position f)) ++ given_value "default_value" (fld_DefaultValue f)
        ++ flag "allow_overwrite" (fld_AllowOverwrite f)).

Definition NewInjectorValueResponse (v : InjectorValue) : any :=
  AMap (text "id" (uuid_String (val_ID v)) ++ text "field_name" (val_FieldName v)
        ++ optional "workspace_id" (uuid_String <$> val_WorkspaceID v) ++ text "value" (val_Value v)
        ++ text "updated_at" (rfc3339 (val_UpdatedAt v))).

Definition NewInjectorCreateResponse (d : InjectorDefinition) (fields : list InjectorField) : any :=
  AMap (definition_fields d ++ field "fields" (AList (NewInjectorFieldResponse <$> fields))).

Definition NewInjectorDetailResponse (d : InjectorDefinition) (fields : list InjectorField) (values : list InjectorValue) : any :=
  AMap (definition_fields d ++ field "fields" (AList (NewInjectorFieldResponse <$> fields))
        ++ (if bool_decide (values = []) then [] else field "values" (AList (NewInjectorValueResponse <$> values)))).

Definition NewInjectorListResponse (defs : list InjectorDefinition) (fieldsByDefinition : gmap uuid (list InjectorField)) : any :=
  AMap (field "items" (AList ((fun d => NewInjectorCreateResponse d (default [] (fieldsByDefinition !! def_ID d))) <$> defs))).
End Responses.

(** ** Validation *)

Definition isEmptyDefault (v : any) : bool :=
  match v with ANil => true | AStr s => bool_decide (TrimSpace s = "") | _ => false end.

Definition validateFieldDefault (fieldType : string) (defaultValue : any) (allowOverwrite : bool) : Res unit :=
  if negb allowOverwrite && isEmptyDefault defaultValue
  then Err (EMsg "default_value is required when allow_overwrite is false")
  else
    match defaultValue, field_type fieldType with
    | ANil, _ | _, None => Ok tt
    | _, Some FieldTypeNumber =>
        match defaultValue with
        | AInt _ | AFloat _ => Ok tt
        | _ => Err (EMsg "default_value must be a number for field type number")
        end
    | _, Some FieldTypeBool =>
        match defaultValue with
        | ABool _ => Ok tt
        | _ => Err (EMsg "default_value must be a boolean for field type bool")
        end
    | _, Some _ =>
        match defaultValue with
        | AStr _ => Ok tt
        | _ => Err (EMsg ("default_value must be a string for field type " +:+ fieldType))
        end
    end.

Definition allow_overwrite (f : CreateInjectorField) : bool := default true (cif_AllowOverwrite f).

Section Validation.
Context `{GoStd}.

(** The loop over the fields, with the names seen. *)
Fixpoint field_errors (i : nat) (seen : gset string) (fields : list CreateInjectorField) : list FieldError :=
  match fields with
  | [] => []
  | f :: r =>
      let at_index msg := mkFieldError "fields" (msg +:+ " at index " +:+ Itoa (Z.of_nat i)) in
      let name := TrimSpace (cif_FieldName f) in
      (if bool_decide (name = "") then [at_index "field_name is required"]
       else if bool_decide (name ∈ seen) then [at_index "duplicate field_name"] else [])
      ++ (if isValidFieldType (cif_FieldType f) then [] else [at_index "invalid field_type"])
      ++ (match validateFieldDefault (cif_FieldType f) (cif_DefaultValue f) (allow_overwrite f) with
          | Ok _ => []
          | Err e => [at_index (error_string e)]
          end)
      ++ field_errors (S i) (if bool_decide (name = "") then seen else {[name]} ∪ seen) r
  end.

Definition validateInjectorSchemaRequest (req : CreateInjectorRequest) : list FieldError :=
  (if bool_decide (TrimSpace (cir_Name req) = "") then [mkFieldError "name" "is required"] else [])
  ++ (if bool_decide (cir_Fields req = []) then [mkFieldError "fields" "at least one field is required"] else [])
  ++ field_errors 0 ∅ (cir_Fields req).
End Validation.

(** ** Lists of definitions *)

Definition annotateInjectorScope (current system : option Workspace) (d : InjectorDefinition) : InjectorDefinition :=
  mkInjectorDefinition (def_ID d) (def_WorkspaceID d) (def_Name d) (def_Description d) (def_Source d) (def_Static d)
    (match current, def_WorkspaceID d with
     | Some ws, _ => resourceOwnerScope (def_WorkspaceID d) ws system
     | None, None => "global"
     | None, Some id => match system with
                        | Some sys => if bool_decide (id = ws_ID sys) then "system" else "workspace"
                        | None => "workspace"
                        end
     end)
    (match current with Some ws => inheritedFromSystem (def_WorkspaceID d) ws system | None => false end)
    (def_CreatedAt d) (def_UpdatedAt d) (def_DeletedAt d).

Definition handlerScopeIndex (workspaceID : option uuid) (chain : list (option uuid)) : nat := scopeIndex workspaceID chain.

(** The best definition of each name: the first of the nearest scope. *)
Definition best_definition (chain : list (option uuid)) (best : gmap string (nat * InjectorDefinition)) (d : InjectorDefinition) :=
  let scopeIdx := handlerScopeIndex (def_WorkspaceID d) chain in
  match best !! def_Name d with
  | Some (index, _) => if (scopeIdx <? index)%nat then <[def_Name d := (scopeIdx, d)]> best else best
  | None => <[def_Name d := (scopeIdx, d)]> best
  end.

(** The pointers compared are those of rows with distinct identifiers; each name
    has one best definition, so [seen] never filters. *)
Definition dedupeDefinitionsByPriority (defs : list InjectorDefinition) (chain : list (option uuid)) : list InjectorDefinition :=
  let bestByName := foldl (best_definition chain) ∅ defs in
  List.filter (fun d => match bestByName !! def_Name d with
                        | Some (_, best) => bool_decide (def_ID best = def_ID d)
                        | None => false
                        end) defs.

Definition mergeStaticCatalog (defs : list InjectorDefinition) (fieldsByDefinition : gmap uuid (list InjectorField))
    (staticDefs : list InjectorDefinition) (staticFields : gmap uuid (list InjectorField))
  : list InjectorDefinition * gmap uuid (list InjectorField) :=
  let added := List.filter (fun d => negb (bool_decide (def_Name d ∈ def_Name <$> defs))) staticDefs in
  (defs ++ added,
   foldl (fun m d => <[def_ID d := default [] (staticFields !! def_ID d)]> m) fieldsByDefinition added).

Definition findField (fields : list InjectorField) (name : string) : option InjectorField :=
  List.find (fun f => bool_decide (fld_FieldName f = name)) fields.

(** ** The handlers *)

Section InjectorHandler.
Context `{GoStd} `{JSON any} `{JSON string} `{JSON fields_map}.
Context `{Binder CreateInjectorRequest} `{Binder SetInjectorValuesRequest} `{Binder UpdateInjectorFieldRequest}.
Context (uuid_SHA1 : string -> uuid).
Context (tsStore : TenantStore.t Inj) (wsStore : WorkspaceStore.t Inj) (injectorMerger : option (InjectorMerger Inj)).
#[local] Abbreviation Handler := (HandlerFunc Inj).

Definition local_injectors_disabled : Handler :=
  writePolicyForbidden "WORKSPACE_LOCAL_INJECTORS_DISABLED" "workspace local injectors are disabled by tenant policy".
Definition read_only_inherited : Handler :=
  writePolicyForbidden "READ_ONLY_INHERITED_INJECTOR" "inherited injectors are read-only in workspace scope".

Definition with_workspace (k : Workspace -> Handler) : Handler := stored (resolveWorkspace tsStore wsStore) k.

(** [resolveSystemWorkspace] of a workspace that may be nil. *)
Definition system_of (workspace : option Workspace) : M Inj (option Workspace) :=
  match workspace with Some ws => resolveSystemWorkspace wsStore ws | None => ret None end.

(** The field a request describes. *)
Definition requested_field (id defID : uuid) (f : CreateInjectorField) : InjectorField :=
  mkInjectorField id defID (cif_FieldName f) (default FieldTypeText (field_type (cif_FieldType f))) (cif_Description f)
    (cif_Position f) (cif_DefaultValue f) (allow_overwrite f).

Fixpoint create_fields (defID : uuid) (fields : list CreateInjectorField) (made : list InjectorField)
    (k : list InjectorField -> Handler) : Handler :=
  match fields with
  | [] => k made
  | f :: r =>
      let! id := up (NewV7 db_runtime) in
      let field := requested_field id defID f in
      stored (up (CreateField field)) (fun _ => create_fields defID r (made ++ [field]) k)
  end.

Definition create (workspaceID : option uuid) : Handler :=
  bound (fun req : CreateInjectorRequest =>
    let errors := validateInjectorSchemaRequest req in
    if negb (bool_decide (errors = [])) then validation_failed errors
    else
      let! now := up (Now db_runtime) in
      let! id := up (NewV7 db_runtime) in
      let def := definition_row id workspaceID (cir_Name req) (cir_Description req) now now None in
      stored (up (CreateDefinition def)) (fun def =>
        create_fields (def_ID def) (cir_Fields req) [] (fun fields =>
          JSON_reply 201 (NewInjectorCreateResponse def fields)))).

Definition Injectors_Create : Handler :=
  with_workspace (fun ws =>
    if ws_IsSystem ws then create (Some (ws_ID ws))
    else stored (up (resolveSystemWorkspace wsStore ws)) (fun systemWorkspace =>
      if negb (AllowWorkspaceLocalInjectors (effectiveWorkspacePolicies systemWorkspace)) then local_injectors_disabled
      else create (Some (ws_ID ws)))).
Definition Injectors_CreateGlobal : Handler := create None.

(** The definition of a name a workspace sees: its own, else the system
    workspace's. *)
Definition find_visible (name : string) (workspaceID : uuid) : M Inj (option InjectorDefinition) :=
  try! r := FindDefinitionByName name (Some workspaceID) in
  match r with
  | Ok d => ret (Some d)
  | Err e => if negb (IsNotFound e) && negb (errors_Is e ErrNotFound) then fail e else ret None
  end.

Definition loadWorkspaceDefinitionAccess (workspace : Workspace) (name : string)
  : M Inj (InjectorDefinition * option Workspace * workspacePolicies) :=
  let! systemWorkspace := resolveSystemWorkspace wsStore workspace in
  let! own := find_visible name (ws_ID workspace) in
  let! d := match own, systemWorkspace with
            | None, Some sys => if bool_decide (ws_ID sys = ws_ID workspace) then ret None else find_visible name (ws_ID sys)
            | _, _ => ret own
            end in
  match d with
  | None => fail (NotFound "injector not found in workspace scope")
  | Some d => ret (annotateInjectorScope (Some workspace) systemWorkspace d, systemWorkspace,
                   effectiveWorkspacePolicies systemWorkspace)
  end.

(** The checks before a definition of a workspace is changed. *)
Definition mutable_definition (workspace : option Workspace) (name : string) (k : Handler) : Handler :=
  match workspace with
  | None => k
  | Some ws =>
      stored (up (loadWorkspaceDefinitionAccess ws name)) (fun '(d, _, policies) =>
        if negb (isOwnedByCurrentWorkspace (def_WorkspaceID d) ws) then read_only_inherited
        else if negb (ws_IsSystem ws) && negb (AllowWorkspaceLocalInjectors policies) then local_injectors_disabled
        else k)
  end.

Definition scope_of (workspace : option Workspace) : option uuid := ws_ID <$> workspace.

(** The fields of a request, each with a fresh identifier. *)
Fixpoint requested_fields (fields : list CreateInjectorField) : M Inj (list InjectorField) :=
  match fields with
  | [] => ret []
  | f :: r => let! id := NewV7 db_runtime in let! l := requested_fields r in ret (requested_field id uuid_Nil f :: l)
  end.

Definition update (workspace : option Workspace) : Handler :=
  let! c := conn in
  let currentName := Param "name" c in
  mutable_definition workspace currentName (
    bound (fun req : CreateInjectorRequest =>
      let errors := validateInjectorSchemaRequest req in
      if negb (bool_decide (errors = [])) then validation_failed errors
      else
        let! now := up (Now db_runtime) in
        let! fields := up (requested_fields (cir_Fields req)) in
        let def := definition_row uuid_Nil None (cir_Name req) (cir_Description req) time_zero now None in
        stored (up (UpdateDefinitionSchema currentName (scope_of workspace) def fields)) (fun '(def, fields) =>
          JSON_reply 200 (NewInjectorCreateResponse def fields)))).

Definition Injectors_Update : Handler := with_workspace (fun ws => update (Some ws)).
Definition Injectors_UpdateGlobal : Handler := update None.

(** *** Reading *)

Definition includeInheritedInjectors (c : Conn) : bool := fold_utf8 (QueryParam "include_inherited" c) "true".

Definition listChain (workspace : option Workspace) (includeInherited : bool) : M Inj (list (option uuid)) :=
  match workspace with
  | None => ret [None]
  | Some ws =>
      let chain := [Some (ws_ID ws)] in
      if negb includeInherited then ret chain
      else
        try! r := WorkspaceStore.GetSystemWorkspace wsStore (ws_TenantID ws) (ws_Environment ws) in
        match r with
        | Err e => if IsNotFound e || errors_Is e ErrNotFound then ret chain else fail e
        | Ok sys => ret (if bool_decide (ws_ID sys = ws_ID ws) then chain else chain ++ [Some (ws_ID sys)])
        end
  end.

(** The walk over the code injectors is never cut short (see
    [code_injectors_run]). *)
Definition staticCatalog (workspace : option Workspace) : M Inj (list InjectorDefinition * gmap uuid (list InjectorField)) :=
  match injectorMerger with
  | None => ret ([], ∅)
  | Some m =>
      let! r := StaticCatalog uuid_SHA1 m workspace "" in
      match r with Some catalog => ret catalog | None => fail (EMsg "unreachable") end
  end.

Definition tryStaticDefinition (workspace : option Workspace) (name : string)
  : M Inj (option (InjectorDefinition * list InjectorField)) :=
  try! r := staticCatalog workspace in
  match r with
  | Err _ => ret None
  | Ok (defs, fieldsByDefinition) =>
      ret ((fun d => (d, default [] (fieldsByDefinition !! def_ID d))) <$> List.find (fun d => bool_decide (def_Name d = name)) defs)
  end.

Definition list_definitions (workspace : option Workspace) : Handler :=
  let! c := conn in
  stored (up (system_of workspace)) (fun systemWorkspace =>
    stored (up (listChain workspace (includeInheritedInjectors c))) (fun chain =>
      stored (up (ListDefinitions chain)) (fun defs =>
        let defs := dedupeDefinitionsByPriority defs chain in
        stored (up (AllFieldsByDefinitions (def_ID <$> defs))) (fun fieldsByDefinition =>
          let defs := annotateInjectorScope workspace systemWorkspace <$> defs in
          stored (up (staticCatalog workspace)) (fun '(staticDefs, staticFields) =>
            let '(defs, fieldsByDefinition) := mergeStaticCatalog defs fieldsByDefinition staticDefs staticFields in
            JSON_reply 200 (NewInjectorListResponse defs fieldsByDefinition)))))).

Definition Injectors_List : Handler := with_workspace (fun ws => list_definitions (Some ws)).
Definition Injectors_ListGlobal : Handler := list_definitions None.

(** What [get] looks up: the definition, the system workspace and the chain of
    the values. *)
Definition lookup_definition (workspace : option Workspace) (name : string)
  : M Inj (InjectorDefinition * option Workspace * list (option uuid)) :=
  match workspace with
  | None => let! d := FindDefinitionByName name None in ret (d, None, [None])
  | Some ws =>
      let! (d, systemWorkspace, _) := loadWorkspaceDefinitionAccess ws name in
      let! (chain, _) := workspaceResolutionChain wsStore ws in
      ret (d, systemWorkspace, chain)
  end.

Definition get_definition (workspace : option Workspace) : Handler :=
  let! c := conn in
  let name := Param "name" c in
  try! r := up (lookup_definition workspace name) in
  match r with
  | Err e =>
      let! static := up (tryStaticDefinition workspace name) in
      match static with
      | Some (d, fields) => JSON_reply 200 (NewInjectorCreateResponse d fields)
      | None => mapStoreError e
      end
  | Ok (d, systemWorkspace, chain) =>
      let d := annotateInjectorScope workspace systemWorkspace d in
      stored (up (GetFieldsByDefinition (def_ID d))) (fun fields =>
        stored (up (InjectorRepo_GetValues (def_ID d) chain)) (fun values =>
          JSON_reply 200 (NewInjectorDetailResponse d fields values)))
  end.

Definition Injectors_Get : Handler := with_workspace (fun ws => get_definition (Some ws)).
Definition Injectors_GetGlobal : Handler := get_definition None.

(** *** Changing *)

Definition deleteInjector (workspace : option Workspace) : Handler :=
  let! c := conn in
  let name := Param "name" c in
  let remove d := stored (up (SoftDeleteDefinition (def_ID d))) (fun _ => NoContent 204) in
  match workspace with
  | None => stored (up (FindDefinitionByName name None)) remove
  | Some ws =>
      stored (up (loadWorkspaceDefinitionAccess ws name)) (fun '(d, _, policies) =>
        if negb (isOwnedByCurrentWorkspace (def_WorkspaceID d) ws) then read_only_inherited
        else if negb (ws_IsSystem ws) && negb (AllowWorkspaceLocalInjectors policies) then local_injectors_disabled
        else remove d)
  end.

Definition Injectors_Delete : Handler := with_workspace (fun ws => deleteInjector (Some ws)).
Definition Injectors_DeleteGlobal : Handler := deleteInjector None.

Definition updateField (workspace : option Workspace) : Handler :=
  let! c := conn in
  let name := Param "name" c in
  let fieldName := Param "field_name" c in
  mutable_definition workspace name (
    stored (up (FindDefinitionByName name (scope_of workspace))) (fun d =>
      stored (up (GetFieldsByDefinition (def_ID d))) (fun fields =>
        match findField fields fieldName with
        | None => WriteError 404 "NOT_FOUND" "resource not found"
        | Some f =>
            bound (fun req : UpdateInjectorFieldRequest =>
              let allowOverwrite := default (fld_AllowOverwrite f) (uif_AllowOverwrite req) in
              let defaultValue := match uif_DefaultValue req with ANil => fld_DefaultValue f | v => v end in
              match validateFieldDefault (InjectorFieldType_String (fld_FieldType f)) defaultValue allowOverwrite with
              | Err e => validation_failed [mkFieldError "default_value" (error_string e)]
              | Ok _ =>
                  let f := mkInjectorField (fld_ID f) (fld_InjectorDefinitionID f) (fld_FieldName f) (fld_FieldType f)
                             (fld_Description f) (fld_Position f) defaultValue allowOverwrite in
                  stored (up (InjectorRepo_UpdateField f)) (fun _ => JSON_reply 200 (NewInjectorFieldResponse f))
              end)
        end))).

Definition Injectors_UpdateField : Handler := with_workspace (fun ws => updateField (Some ws)).
Definition Injectors_UpdateFieldGlobal : Handler := updateField None.

(** Only reached with a workspace, which is resolved again. *)
Definition setValues (workspaceID : uuid) : Handler :=
  let! c := conn in
  let name := Param "name" c in
  with_workspace (fun workspace =>
    mutable_definition (Some workspace) name (
      stored (up (FindDefinitionByName name (Some workspaceID))) (fun d =>
        bound (fun req : SetInjectorValuesRequest =>
          if bool_decide (siv_Values req = []) then validation_failed [mkFieldError "values" "at least one value is required"]
          else
            let! now := up (Now db_runtime) in
            stored (up (for_each (siv_Values req) (fun fv =>
              let! id := NewV7 db_runtime in
              let! _ := SetValue (mkInjectorValue id (def_ID d) (ifv_FieldName fv) (Some workspaceID) (ifv_Value fv) now) in
              ret tt))) (fun _ => NoContent 204))))).

Definition Injectors_SetValues : Handler := with_workspace (fun ws => setValues (ws_ID ws)).

(** ** The routes *)

(** Registered twice, with and without an environment in the path. *)
Definition workspace_injector_routes (group : string) : list (Route Inj) :=
  [mkRoute "POST" (group +:+ "/injectors") RoleWorkspaceAdmin Injectors_Create;
   mkRoute "GET" (group +:+ "/injectors") RoleWorkspaceViewer Injectors_List;
   mkRoute "GET" (group +:+ "/injectors/:name") RoleWorkspaceViewer Injectors_Get;
   mkRoute "PUT" (group +:+ "/injectors/:name") RoleWorkspaceAdmin Injectors_Update;
   mkRoute "PUT" (group +:+ "/injectors/:name/fields/:field_name") RoleWorkspaceEditor Injectors_UpdateField;
   mkRoute "PUT" (group +:+ "/injectors/:name/values") RoleWorkspaceEditor Injectors_SetValues;
   mkRoute "DELETE" (group +:+ "/injectors/:name") RoleWorkspaceAdmin Injectors_Delete].

Definition global_injector_routes : list (Route Inj) :=
  [mkRoute "POST" "/global/injectors" RoleSuperadmin Injectors_CreateGlobal;
   mkRoute "GET" "/global/injectors" RoleSuperadmin Injectors_ListGlobal;
   mkRoute "GET" "/global/injectors/:name" RoleSuperadmin Injectors_GetGlobal;
   mkRoute "PUT" "/global/injectors/:name" RoleSuperadmin Injectors_UpdateGlobal;
   mkRoute "PUT" "/global/injectors/:name/fields/:field_name" RoleSuperadmin Injectors_UpdateFieldGlobal;
   mkRoute "DELETE" "/global/injectors/:name" RoleSuperadmin Injectors_DeleteGlobal].

Definition injector_routes : list (Route Inj) :=
  workspace_injector_routes "/tenants/:tenant_code/workspaces/:workspace_code"
  ++ workspace_injector_routes "/environments/:environment/tenants/:tenant_code/workspaces/:workspace_code"
  ++ global_injector_routes.
End InjectorHandler.
