(* ===== verification/InjectorSafety.v ===== *)
(** * What a request to the injector routes may change

    The constraints of the catalogue hold through every handler, and a request
    changes only definitions of the scope its path names, with their fields and
    values, for a caller with the route's role there. *)
From stdpp Require Import base gmap strings list sorting.
From Stdlib Require Import ZArith NArith Ascii String Lia.
From S2P Require Import Prelude GoMonad Domain Ports Token Config Http Suppression Postgres Database Directory.
From S2P Require Import Auth Members Roles Gates Surface Authority Inheritance Hosted Templates Versions Cache Resolution Injectors.
From S2P Require Import InjectorRepo InjectorHandlers.

(** ** Within a scope *)

(** Rows of a definition of another scope. *)
Definition foreign (scope : option uuid) (t : Catalogue) (defID : uuid) : Prop :=
  exists d, ij_defs t !! defID = Some d /\ def_WorkspaceID d <> scope.
Definition owned (scope : option uuid) (t : Catalogue) (defID : uuid) : Prop :=
  exists d, ij_defs t !! defID = Some d /\ def_WorkspaceID d = scope.

Record within (scope : option uuid) (t t' : Catalogue) : Prop := {
  wi_dir : ij_dir t' = ij_dir t;
  wi_defs id d : def_WorkspaceID d <> scope -> ij_defs t !! id = Some d <-> ij_defs t' !! id = Some d;
  wi_fields id r : foreign scope t (fld_InjectorDefinitionID (fw_field r)) ->
    ij_fields t !! id = Some r <-> ij_fields t' !! id = Some r;
  wi_values id r : foreign scope t (val_InjectorDefinitionID (vw_value r)) ->
    ij_values t !! id = Some r <-> ij_values t' !! id = Some r;
}.

Lemma injector_within_foreign scope t t' id : within scope t t' -> foreign scope t id -> foreign scope t' id.
Proof. intros Hw (d & Hd & Hne). exists d. split; [by apply (wi_defs _ _ _ Hw)|done]. Qed.

#[export] Instance within_preorder scope : PreOrder (within scope).
Proof.
  split; [by split|]. intros t1 t2 t3 H12 H23. split.
  - by rewrite (wi_dir _ _ _ H23), (wi_dir _ _ _ H12).
  - intros id d Hd. rewrite (wi_defs _ _ _ H12 id d Hd). by apply (wi_defs _ _ _ H23).
  - intros id r Hr. rewrite (wi_fields _ _ _ H12 id r Hr). apply (wi_fields _ _ _ H23). by eapply injector_within_foreign.
  - intros id r Hr. rewrite (wi_values _ _ _ H12 id r Hr). apply (wi_values _ _ _ H23). by eapply injector_within_foreign.
Qed.

(** The constraints, and the scope. *)
Definition safely (scope : option uuid) (t t' : Catalogue) : Prop :=
  catalogue_ok t -> catalogue_ok t' /\ within scope t t'.

#[export] Instance safely_preorder scope : PreOrder (safely scope).
Proof.
  split; [by intros t|]. intros t1 t2 t3 H12 H23 Hok.
  destruct (H12 Hok) as [Hok2 Hc2], (H23 Hok2) as [Hok3 Hc3]. split; [done|by etrans].
Qed.

Lemma owned_not_foreign scope t id : owned scope t id -> ~ foreign scope t id.
Proof. intros (d & Hd & <-) (d' & Hd' & Hne). rewrite Hd in Hd'. by injection Hd' as <-. Qed.

(** ** Steps *)

Lemma same_name_sym a b : same_name a b = same_name b a.
Proof. unfold same_name. f_equal; apply bool_decide_ext; split; done. Qed.
Lemma same_field_sym a b : same_field a b = same_field b a.
Proof. unfold same_field. f_equal; apply bool_decide_ext; split; done. Qed.
Lemma same_value_sym a b : same_value a b = same_value b a.
Proof. unfold same_value. f_equal; [f_equal|]; apply bool_decide_ext; split; done. Qed.

(** No row of a table is the same as the new one, but the one it replaces. *)
Lemma rows_none {A} (p : A -> bool) (m : gmap uuid A) id : rows p (delete id m) = [] ->
  forall j b, j <> id -> m !! j = Some b -> p b = false.
Proof.
  intros E j b Hj Hb. apply not_true_is_false. intros Hp.
  assert (Hin : b ∈ rows p (delete id m)).
  { apply elem_of_rows. split; [|done]. exists j. rewrite lookup_delete_ne by done. done. }
  rewrite E in Hin. by apply not_elem_of_nil in Hin.
Qed.
Lemma rows_none_new {A} (p : A -> bool) (m : gmap uuid A) id : rows p m = [] -> m !! id = None ->
  forall j b, j <> id -> m !! j = Some b -> p b = false.
Proof. intros E Hid. apply rows_none. by rewrite delete_id. Qed.

Section Steps.
Context (scope : option uuid) (t : Catalogue).

(** A definition of the scope is written, under a name no other has. *)
Lemma safely_def d : def_WorkspaceID d = scope -> (forall d0, ij_defs t !! def_ID d = Some d0 -> def_WorkspaceID d0 = scope) ->
  (forall j b, j <> def_ID d -> ij_defs t !! j = Some b -> same_name d b = false) ->
  safely scope t (set_defs <[def_ID d := d]> t).
Proof.
  intros Hs H0 Hn Hok. destruct Hok as [Hk Hu Hfk Hfu Hfd Hvk Hvu Hvd]. split.
  - split; simpl; [by apply keyed_insert|apply unique_insert; [apply same_name_sym|done..]|done..| |done|done|].
    all: intros id r Hr; apply lookup_insert_is_Some'; right; eauto.
  - split; simpl; [done| |done..]. intros id d' Hd'. destruct (decide (def_ID d = id)) as [<-|Hne]; [|by rewrite lookup_insert_ne].
    rewrite lookup_insert_eq. split; [intros E; by apply H0 in E|intros [= <-]; done].
Qed.

Lemma safely_field r : fld_ID (fw_field r) ∉ dom (ij_fields t) \/
    (exists r0, ij_fields t !! fld_ID (fw_field r) = Some r0 /\ owned scope t (fld_InjectorDefinitionID (fw_field r0))) ->
  owned scope t (fld_InjectorDefinitionID (fw_field r)) ->
  (forall j b, j <> fld_ID (fw_field r) -> ij_fields t !! j = Some b -> same_field r b = false) ->
  safely scope t (set_fields <[fld_ID (fw_field r) := r]> t).
Proof.
  intros H0 Ho Hn Hok. destruct Hok as [Hk Hu Hfk Hfu Hfd Hvk Hvu Hvd]. split.
  - split; simpl; [done|done|by apply (keyed_insert (fun r => fld_ID (fw_field r)))|apply unique_insert; [apply same_field_sym|done..]| |done..].
    intros id r' [ [<- <-]|[_ Hr] ]%lookup_insert_Some; [|by eapply Hfd]. destruct Ho as (d & -> & _). done.
  - split; simpl; [done|done| |done]. intros id r' Hf. destruct (decide (fld_ID (fw_field r) = id)) as [<-|Hne]; [|by rewrite lookup_insert_ne].
    rewrite lookup_insert_eq. split.
    + intros E. exfalso. destruct H0 as [Hd|(r0 & E0 & Ho0)]; [apply Hd, elem_of_dom; by rewrite E|].
      rewrite E in E0. injection E0 as ->. exact (owned_not_foreign _ _ _ Ho0 Hf).
    + intros [= <-]. destruct (owned_not_foreign _ _ _ Ho Hf).
Qed.

Lemma safely_value r : (forall r0, ij_values t !! val_ID (vw_value r) = Some r0 -> owned scope t (val_InjectorDefinitionID (vw_value r0))) ->
  owned scope t (val_InjectorDefinitionID (vw_value r)) ->
  (forall j b, j <> val_ID (vw_value r) -> ij_values t !! j = Some b -> same_value r b = false) ->
  safely scope t (set_values <[val_ID (vw_value r) := r]> t).
Proof.
  intros H0 Ho Hn Hok. destruct Hok as [Hk Hu Hfk Hfu Hfd Hvk Hvu Hvd]. split.
  - split; simpl; [done..|by apply (keyed_insert (fun r => val_ID (vw_value r)))|apply unique_insert; [apply same_value_sym|done..]|].
    intros id r' [ [<- <-]|[_ Hr] ]%lookup_insert_Some; [|by eapply Hvd]. destruct Ho as (d & -> & _). done.
  - split; simpl; [done..|]. intros id r' Hf. destruct (decide (val_ID (vw_value r) = id)) as [<-|Hne]; [|by rewrite lookup_insert_ne].
    rewrite lookup_insert_eq. split.
    + intros E. exfalso. eapply owned_not_foreign; [|exact Hf]. by apply H0.
    + intros [= <-]. destruct (owned_not_foreign _ _ _ Ho Hf).
Qed.

(** The values and the fields of a definition of the scope are deleted. *)
Lemma safely_no_values defID : owned scope t defID ->
  safely scope t (set_values (filter (fun kv => val_InjectorDefinitionID (vw_value kv.2) <> defID)) t).
Proof.
  intros Ho [Hk Hu Hfk Hfu Hfd Hvk Hvu Hvd]. split.
  - split; simpl; [done..|eapply keyed_sub; [apply map_filter_subseteq|done]|eapply unique_sub; [apply map_filter_subseteq|done]|].
    intros id r [Hr _]%map_lookup_filter_Some. by eapply Hvd.
  - split; simpl; [done..|]. intros id r Hf. rewrite map_lookup_filter_Some. simpl. split; [|by intros [? _] ].
    intros E. split; [done|]. intros Ed. rewrite Ed in Hf. exact (owned_not_foreign _ _ _ Ho Hf).
Qed.

Lemma safely_no_fields defID : owned scope t defID ->
  safely scope t (set_fields (filter (fun kv => fld_InjectorDefinitionID (fw_field kv.2) <> defID)) t).
Proof.
  intros Ho [Hk Hu Hfk Hfu Hfd Hvk Hvu Hvd]. split.
  - split; simpl; [done|done|eapply keyed_sub; [apply map_filter_subseteq|done]|eapply unique_sub; [apply map_filter_subseteq|done]| |done|done|done].
    intros id r [Hr _]%map_lookup_filter_Some. by eapply Hfd.
  - split; simpl; [done|done| |done]. intros id r Hf. rewrite map_lookup_filter_Some. simpl. split; [|by intros [? _] ].
    intros E. split; [done|]. intros Ed. rewrite Ed in Hf. exact (owned_not_foreign _ _ _ Ho Hf).
Qed.
End Steps.

(** ** The operations *)

Section Operations.
Context `{GoStd} `{JSON any} `{JSON string} (scope : option uuid).
#[local] Abbreviation safe_at := (relates_at db_tables (safely scope)).
#[local] Abbreviation defs := (fun s : Inj => ij_defs (db_tables s)).

(** A constraint may be assumed of the state an operation starts from. *)
Lemma assume_ok {W A} (v : W -> Catalogue) (m : M W A) w :
  (catalogue_ok (v w) -> relates_at v (safely scope) m w) -> relates_at v (safely scope) m w.
Proof. intros Hm Hok. by apply Hm. Qed.

Lemma reads_safely {A} (m : M Inj A) s : preserves db_tables m -> safe_at m s.
Proof. intros Hm. apply relates_preserves; [apply _|done]. Qed.

Lemma CreateDefinition_safely d s : def_WorkspaceID d = scope -> safe_at (CreateDefinition d) s.
Proof.
  intros Hs. related relates_at_write. intros now a t' E. cbv zeta in E.
  destruct (violation _) as [e|] eqn:Ev; [done|]. injection E as _ <-. apply violation_None in Ev.
  rewrite !Forall_cons in Ev. destruct Ev as (Hid & Hr & _). simpl in Hid, Hr. apply bool_decide_eq_true in Hid, Hr.
  apply (safely_def scope _ (definition_row (def_ID d) (def_WorkspaceID d) (def_Name d) (def_Description d) now now None)); simpl.
  - done.
  - rewrite Hid. done.
  - by apply rows_none_new.
Qed.

Lemma CreateDefinition_owned d s d' s' : def_WorkspaceID d = scope -> CreateDefinition d s = (Ok d', s') ->
  owned scope (db_tables s') (def_ID d').
Proof.
  intros Hs E. unfold CreateDefinition, write_stmt in E. apply exec_Ok in E. cbv zeta in E.
  destruct (violation _); [done|]. injection E as <- E. rewrite <- E. unfold owned. simpl.
  rewrite lookup_insert_eq. by eexists.
Qed.

Lemma CreateField_safely f s : owned scope (db_tables s) (fld_InjectorDefinitionID f) -> safe_at (CreateField f) s.
Proof.
  intros Ho. unfold CreateField. related relates_at_bind; [apply reads_safely; intros x; by destruct (default_json _ _)|].
  intros json s1 E1. assert (s1 = s) as -> by (destruct (default_json _ _); by inversion E1).
  related relates_at_write. intros now a t' E. unfold insert_field in E.
  destruct (violation _) as [e|] eqn:Ev; [done|]. injection E as _ <-. apply violation_None in Ev.
  rewrite !Forall_cons in Ev. destruct Ev as (Hid & Hr & _). simpl in Hid, Hr. apply bool_decide_eq_true in Hid, Hr.
  apply (safely_field scope _ (mkFieldRow (with_default ANil f) json)); simpl.
  - left. by apply not_elem_of_dom.
  - done.
  - by apply rows_none_new.
Qed.

Lemma CreateField_defs f : preserves defs (CreateField f).
Proof.
  intros s. unfold CreateField, bind, lift_res. destruct (default_json _ _) as [json|e]; [|done].
  destruct (write_stmt _ _ s) as [r s'] eqn:E. simpl. apply exec_cases in E as [ [_ ->]|(r' & t' & E & -> & _)]; [done|].
  unfold insert_field in E. destruct (violation _); by injection E as _ <-.
Qed.

Lemma fields_safely fields s : Forall (fun f => owned scope (db_tables s) (fld_InjectorDefinitionID f)) fields ->
  safe_at (for_each fields CreateField) s.
Proof.
  revert s. induction fields as [|f fields IH]; intros s; simpl; [intros _; by apply reads_safely|].
  intros [Hf Hr]%Forall_cons. related relates_at_bind; [by apply CreateField_safely|]. intros [] s1 E1. apply IH.
  pose proof (CreateField_defs f s) as Ed. rewrite E1 in Ed. simpl in Ed.
  eapply Forall_impl; [exact Hr|]. intros g. unfold owned. by rewrite Ed.
Qed.

(** Finding a definition of a scope by its name. *)
Lemma found_owned name ws s d s' : FindDefinitionByName name ws s = (Ok d, s') ->
  db_tables s' = db_tables s /\
  (catalogue_ok (db_tables s) -> ij_defs (db_tables s) !! def_ID d = Some d) /\ def_WorkspaceID d = ws.
Proof.
  intros [E Es]%query_Ok. split; [done|]. apply first_rows in E as ( [id Hid] & Hp).
  rewrite !andb_true_iff, !bool_decide_eq_true in Hp. split; [|tauto].
  intros Hok. by rewrite (cok_defs _ Hok _ _ Hid).
Qed.

Lemma UpdateDefinitionSchema_safely name d fields s : safe_at (UpdateDefinitionSchema name scope d fields) s.
Proof.
  related relates_at_in_tx. intros s0 Es0.
  related relates_at_bind; [by apply reads_safely, query_frame|]. intros e s1 E1.
  apply found_owned in E1 as (Es1 & Hrow & Hws). rewrite <- Es1 in Hrow. apply assume_ok. intros Hok. specialize (Hrow Hok).
  assert (Ho1 : owned scope (db_tables s1) (def_ID e)) by (by exists e).
  related relates_at_bind.
  { related relates_at_write. intros now a t' E. rewrite Hrow in E. cbv zeta in E. case_bool_decide as Hn; [|done]. injection E as _ <-.
    apply (safely_def scope _ (with_schema now (def_Name d) (def_Description d) e)); simpl; [done|by rewrite Hrow; intros ? [= <-]|].
    by apply rows_none. }
  intros [created updated] s2 E2. unfold update_definition, write_stmt in E2. apply exec_Ok in E2. rewrite Hrow in E2. cbv zeta in E2.
  case_bool_decide; [|done]. injection E2 as _ _ E2.
  assert (Ho2 : owned scope (db_tables s2) (def_ID e)).
  { rewrite <- E2. unfold owned. simpl. rewrite lookup_insert_eq. by eexists. }
  related relates_at_bind; [related relates_at_exec; intros now; by apply safely_no_values|]. intros [] s3 E3.
  apply exec_Ok in E3. injection E3 as E3.
  assert (Ho3 : owned scope (db_tables s3) (def_ID e)) by by rewrite <- E3.
  related relates_at_bind; [related relates_at_exec; intros now; by apply safely_no_fields|]. intros [] s4 E4.
  apply exec_Ok in E4. injection E4 as E4.
  assert (Ho4 : owned scope (db_tables s4) (def_ID e)) by by rewrite <- E4.
  related relates_at_bind; [|intros; by apply reads_safely].
  apply fields_safely, Forall_fmap, Forall_forall. intros f _. exact Ho4.
Qed.

Lemma SoftDeleteDefinition_safely id s : owned scope (db_tables s) id -> safe_at (SoftDeleteDefinition id) s.
Proof.
  intros (d & Hd & Hs). apply assume_ok. intros Hok. pose proof (cok_defs _ Hok _ _ Hd) as <-.
  related relates_at_update. intros now a E. rewrite Hd in E. destruct (def_live d); [|done]. injection E as <-.
  apply (safely_def scope _ (with_def_deleted now d)); simpl; [done|rewrite Hd; by intros ? [= <-]|].
  intros j b Hj Hb. destruct (same_name (with_def_deleted now d) b) eqn:En; [|done].
  destruct Hj. symmetry. by apply (cok_names _ Hok _ _ d b).
Qed.

(** The fields read of a definition are rows of it. *)
Lemma collected {A B} msg (scan : A -> Res B) l bs b : collect msg scan l = Ok bs -> b ∈ bs ->
  exists a, a ∈ l /\ scan a = Ok b.
Proof.
  revert bs. induction l as [|a l IH]; simpl; intros bs; [intros [= <-] Hb; by apply not_elem_of_nil in Hb|].
  destruct (scan a) as [c|e] eqn:E; [|done]. destruct (collect msg scan l) as [cs|e]; [|done]. intros [= <-].
  rewrite elem_of_cons. intros [->|Hb]; [exists a; split; [left|done]|].
  destruct (IH cs eq_refl Hb) as (a' & ? & ?). exists a'. split; [by right|done].
Qed.

Lemma scanned row f : scanInjectorField row = Ok f ->
  fld_ID f = fld_ID (fw_field row) /\ fld_InjectorDefinitionID f = fld_InjectorDefinitionID (fw_field row).
Proof. unfold scanInjectorField. repeat case_match; intros E; by simplify_eq. Qed.

Lemma definition_fields_rows defID s l s' f : GetFieldsByDefinition defID s = (Ok l, s') -> f ∈ l ->
  db_tables s' = db_tables s /\
  (catalogue_ok (db_tables s) -> exists r, ij_fields (db_tables s) !! fld_ID f = Some r /\
     fld_InjectorDefinitionID (fw_field r) = defID).
Proof.
  intros [E Es]%query_Ok Hf. split; [done|]. intros Hok.
  destruct (collected _ _ _ _ _ E Hf) as (row & Hin & [-> _]%scanned). unfold field_rows in Hin.
  rewrite merge_sort_Permutation in Hin. apply elem_of_rows in Hin as ( [id Hid] & Hd). apply bool_decide_eq_true in Hd.
  exists row. by rewrite (cok_fields _ Hok _ _ Hid).
Qed.

Lemma UpdateField_safely f r s : owned scope (db_tables s) (fld_InjectorDefinitionID (fw_field r)) ->
  ij_fields (db_tables s) !! fld_ID f = Some r -> safe_at (InjectorRepo_UpdateField f) s.
Proof.
  intros Ho Hr. apply assume_ok. intros Hok. pose proof (cok_fields _ Hok _ _ Hr) as Hid.
  related relates_at_bind; [apply reads_safely; intros x; by destruct (default_json _ _)|].
  intros json s1 E1. assert (s1 = s) as -> by (destruct (default_json _ _); by inversion E1).
  related relates_at_update. intros now a E. rewrite Hr in E. injection E as <-. rewrite <- Hid.
  simpl in Hid. apply (safely_field scope _ (with_field_settings f json r)); simpl; [right; exists r; by rewrite Hid|done|].
  intros j b Hj Hb. destruct (same_field (with_field_settings f json r) b) eqn:En; [|done].
  destruct Hj. rewrite Hid. symmetry. by apply (cok_field_names _ Hok _ _ r b).
Qed.

Lemma SetValue_safely x s : owned scope (db_tables s) (val_InjectorDefinitionID x) -> safe_at (SetValue x) s.
Proof.
  intros Ho. apply assume_ok. intros Hok.
  related relates_at_bind; [apply reads_safely; intros x'; by destruct (Marshal _)|].
  intros json s1 E1. assert (s1 = s) as -> by (destruct (Marshal _); by inversion E1).
  related relates_at_exec. intros now. cbv zeta.
  destruct (rows _ _) as [|row rest] eqn:Er.
  - destruct (negb (bool_decide (_ = None))) eqn:En; [done|]. destruct (_ || _); [done|]. simpl.
    apply negb_false_iff, bool_decide_eq_true in En.
    apply (safely_value scope _ (value_row (val_ID x) now x json)); simpl; [by rewrite En|done|by apply rows_none_new].
  - assert (Hin : row ∈ rows (same_value (value_row (val_ID x) now x json)) (ij_values (db_tables s))) by (rewrite Er; left).
    apply elem_of_rows in Hin as ( [id Hid] & Hs). pose proof (cok_values _ Hok _ _ Hid) as Eid. simpl. rewrite Eid.
    apply (safely_value scope _ (value_row id now x json)); simpl; [rewrite Hid; intros ? [= <-]|done|].
    + unfold same_value in Hs. simpl in Hs. bools. congruence.
    + intros j b Hj Hb. destruct (same_value (value_row id now x json) b) eqn:En; [|done]. destruct Hj.
      symmetry. apply (cok_value_slots _ Hok _ _ row b); [done..|]. unfold same_value in Hs, En |- *. simpl in Hs, En. bools.
      repeat (apply andb_true_intro; split); apply bool_decide_eq_true; congruence.
Qed.
End Operations.

(** ** What only reads *)

Section Reading.
Context `{GoStd} `{Codec} `{JSON any} `{JSON string} `{JSON fields_map} (uuid_SHA1 : string -> uuid) (ilike : string -> string -> bool).
#[local] Abbreviation wss := (HostedWorkspaces (T:=Catalogue) ilike).

(** The code a deployment registers, and its cache, leave the tables alone. *)
Record merger_frame (m : InjectorMerger Inj) : Prop := {
  run_frame i t ctx : i ∈ im_codeInjectors m -> preserves db_tables (inj_Run i t ctx);
  cache_frame c key v ttl : im_cache m = Some c -> preserves db_tables (cache_Get c key) /\ preserves db_tables (cache_Set c key v ttl);
  clock_frame : preserves db_tables (Now (im_rt m));
}.

Section Merger.
Context (m : InjectorMerger Inj) (Hm : merger_frame m).

Lemma fields_frame t ctx i : i ∈ im_codeInjectors m -> preserves db_tables (resolveInjectorFields m t ctx i).
Proof.
  intros Hi. unfold resolveInjectorFields. destruct (static_cache m i) as [ [c ttl]|] eqn:E; [|by apply (run_frame _ Hm)].
  assert (Hc : im_cache m = Some c) by (unfold static_cache in E; repeat case_match; by simplify_eq).
  unfold read_through, cache_read, cache_write. apply preserves_bind.
  - apply preserves_try; [exact (proj1 (cache_frame _ Hm c _ "" 0%Z Hc))|]. intros. repeat case_match; apply preserves_ret.
  - intros [a|]; [apply preserves_ret|]. apply preserves_bind; [by apply (run_frame _ Hm)|]. intros a.
    apply preserves_bind; [|intros; apply preserves_ret].
    repeat case_match; try apply preserves_ret; apply preserves_ignore; exact (proj2 (cache_frame _ Hm c _ _ _ Hc)).
Qed.

Lemma resolveOne_frame byCode fuel code st : (forall c i, byCode !! c = Some i -> i ∈ im_codeInjectors m) ->
  preserves db_tables (resolveOne m byCode fuel code st).
Proof.
  intros Hb. revert code st. induction fuel as [|fuel IH]; intros code st; simpl; [apply preserves_ret|].
  case_bool_decide; [apply preserves_ret|]. destruct (byCode !! code) as [i|] eqn:Ei; [|apply preserves_ret].
  apply preserves_bind.
  - apply preserves_for_fold. intros [s|] d; [apply IH|apply preserves_ret].
  - intros [s|]; [|apply preserves_ret]. apply preserves_bind; [|intros; apply preserves_ret].
    apply preserves_try; [by apply fields_frame, (Hb code)|]. intros [f|e]; [apply preserves_ret|].
    destruct (inj_IsCritical i); [apply preserves_fail|apply preserves_ret].
Qed.

Lemma resolveCodeInjectors_frame filter ctx : preserves db_tables (resolveCodeInjectors m filter ctx).
Proof.
  unfold resolveCodeInjectors. destruct (im_codeInjectors m); [apply preserves_ret|]. cbv zeta.
  case_bool_decide; [apply preserves_ret|]. apply preserves_bind; [|intros; apply preserves_ret].
  apply preserves_for_fold. intros [s|] code; [|apply preserves_ret]. apply resolveOne_frame.
  intros c0 i Hc. by destruct (by_code_spec _ _ _ _ Hc) as (_ & ? & _).
Qed.
End Merger.

Context (injectorMerger : option (InjectorMerger Inj)) (Hmerger : forall m, injectorMerger = Some m -> merger_frame m).

Lemma staticCatalog_frame ws : preserves db_tables (staticCatalog uuid_SHA1 injectorMerger ws).
Proof.
  unfold staticCatalog. destruct injectorMerger as [m|]; [|apply preserves_ret]. specialize (Hmerger m eq_refl).
  apply preserves_bind; [|intros [?|]; [apply preserves_ret|apply preserves_fail] ].
  unfold StaticCatalog. destruct (staticCatalogInjectors m); [apply preserves_ret|]. cbv zeta.
  apply preserves_bind; [by apply resolveCodeInjectors_frame|]. intros [ [? ?]|]; [|apply preserves_ret].
  apply preserves_bind; [by apply (clock_frame _ Hmerger)|intros; apply preserves_ret].
Qed.

Lemma find_visible_frame name id : preserves db_tables (find_visible name id).
Proof.
  apply preserves_try; [apply query_frame|]. intros [d|e]; [apply preserves_ret|].
  case_match; [apply preserves_fail|apply preserves_ret].
Qed.

Lemma injector_access_frame ws name : preserves db_tables (loadWorkspaceDefinitionAccess wss ws name).
Proof.
  unfold loadWorkspaceDefinitionAccess. apply preserves_bind; [apply resolveSystemWorkspace_hosted_frame|]. intros sys.
  apply preserves_bind; [apply find_visible_frame|]. intros own. apply preserves_bind.
  - repeat case_match; try apply preserves_ret; apply find_visible_frame.
  - intros [d|]; [apply preserves_ret|apply preserves_fail].
Qed.

Lemma listChain_frame ws inherited : preserves db_tables (listChain wss ws inherited).
Proof.
  unfold listChain. destruct ws as [ws|]; [|apply preserves_ret]. cbv zeta. destruct (negb inherited); [apply preserves_ret|].
  apply preserves_try; [apply hosted_frame, query_frame|]. intros [sys|e]; [apply preserves_ret|].
  case_match; [apply preserves_ret|apply preserves_fail].
Qed.

Lemma AllFields_frame ids : preserves db_tables (AllFieldsByDefinitions ids).
Proof.
  unfold AllFieldsByDefinitions. case_bool_decide; [apply preserves_ret|].
  apply preserves_bind; [apply query_frame|intros; apply preserves_ret].
Qed.

Lemma injector_list_frame ws : preserves (on_world db_tables) (list_definitions uuid_SHA1 wss injectorMerger ws).
Proof.
  unfold list_definitions. apply preserves_bind; [apply conn_frame|]. intros c.
  apply stored_frame; [apply preserves_up|intros sys].
  { unfold system_of. destruct ws; [apply resolveSystemWorkspace_hosted_frame|apply preserves_ret]. }
  apply stored_frame; [apply preserves_up, listChain_frame|intros chain].
  apply stored_frame; [apply preserves_up; unfold ListDefinitions; destruct (splitChain chain); apply query_frame|intros defs].
  cbv zeta. apply stored_frame; [apply preserves_up, AllFields_frame|intros fields].
  apply stored_frame; [apply preserves_up, staticCatalog_frame|intros [sd sf] ]. case_match. apply write_frame.
Qed.

Lemma injector_get_frame ws : preserves (on_world db_tables) (get_definition uuid_SHA1 wss injectorMerger ws).
Proof.
  unfold get_definition. apply preserves_bind; [apply conn_frame|]. intros c. cbv zeta.
  apply preserves_try; [apply preserves_up|].
  - unfold lookup_definition. destruct ws as [ws|].
    + apply preserves_bind; [apply injector_access_frame|]. intros [ [d sys] pol].
      apply preserves_bind; [apply workspaceResolutionChain_hosted_frame|]. intros [ch s]. apply preserves_ret.
    + apply preserves_bind; [apply query_frame|intros; apply preserves_ret].
  - intros [ [ [d sys] chain]|e].
    + apply stored_frame; [apply preserves_up, query_frame|intros fields].
      apply stored_frame; [apply preserves_up|intros; apply write_frame].
      unfold InjectorRepo_GetValues. destruct (splitChain chain). apply query_frame.
    + apply preserves_bind; [apply preserves_up|].
      * unfold tryStaticDefinition. apply preserves_try; [apply staticCatalog_frame|]. intros [ [? ?]|?]; apply preserves_ret.
      * intros [ [? ?]|]; [apply write_frame|apply mapStoreError_frame].
Qed.

(** The definition a name stands for in a workspace is a row of the catalogue. *)
Lemma visible_row name id s o s' : find_visible name id s = (Ok o, s') ->
  forall d, o = Some d -> catalogue_ok (db_tables s) -> ij_defs (db_tables s) !! def_ID d = Some d.
Proof.
  unfold find_visible, try. destruct (FindDefinitionByName _ _ s) as [ [d|e] s1] eqn:E.
  - intros [= <- <-] ? [= <-]. by apply found_owned in E as (_ & ? & _).
  - destruct (_ && _); by intros [= <- <-].
Qed.

Lemma access_row ws name s d sys pol s' : loadWorkspaceDefinitionAccess wss ws name s = (Ok (d, sys, pol), s') ->
  catalogue_ok (db_tables s) -> owned (def_WorkspaceID d) (db_tables s) (def_ID d).
Proof.
  intros (sys' & s1 & E1 & (own & s2 & E2 & (o & s3 & E3 & E)%bind_Ok)%bind_Ok)%bind_Ok Hok.
  pose proof (resolveSystemWorkspace_hosted_frame ilike ws s) as F1. rewrite E1 in F1. simpl in F1.
  pose proof (find_visible_frame name (ws_ID ws) s1) as F2. rewrite E2 in F2. simpl in F2.
  rewrite <- F1 in Hok |- *. destruct o as [d'|]; [|done]. injection E as <- _ _ _.
  assert (Hrow : ij_defs (db_tables s1) !! def_ID d' = Some d'); [|by exists d'].
  destruct own as [d0|]; [|destruct sys' as [w|]; [|done] ].
  - injection E3 as <- _. by apply (visible_row _ _ _ _ _ E2).
  - case_bool_decide; [done|]. rewrite <- F2 in Hok |- *. by apply (visible_row _ _ _ _ _ E3).
Qed.
End Reading.

(** ** The handlers *)

Section Handlers.
Context `{GoStd} `{Codec} `{JSON any} `{JSON string} `{JSON fields_map}.
Context `{Binder CreateInjectorRequest} `{Binder SetInjectorValuesRequest} `{Binder UpdateInjectorFieldRequest}.
Context (ilike : string -> string -> bool).
#[local] Abbreviation ts := (HostedTenants (T:=Catalogue) ilike).
#[local] Abbreviation wss := (HostedWorkspaces (T:=Catalogue) ilike).

Section Scope.
Context (scope : option uuid).
#[local] Abbreviation Safe := (relates_at (on_world db_tables) (safely scope)).

Lemma injector_frame_safe {A} (m : M (Inj * Conn) A) x : preserves (on_world db_tables) m -> Safe m x.
Proof. intros Hm. apply relates_preserves; [apply _|done]. Qed.

Lemma conn_safe {A} (k : Conn -> M (Inj * Conn) A) x : Safe (k x.2) x -> Safe (let! c := conn in k c) x.
Proof. by destruct x. Qed.

Lemma injector_bound_safe `{Binder A} (k : A -> HandlerFunc Inj) x : (forall req, Safe (k req) x) -> Safe (bound k) x.
Proof. intros Hk. apply conn_safe. destruct (Bind _); [apply Hk|apply injector_frame_safe, WriteError_frame]. Qed.

Lemma bind_safe {A B} (m : M Inj A) (k : A -> M (Inj * Conn) B) x : preserves db_tables m ->
  (forall a s', m x.1 = (Ok a, s') -> db_tables s' = db_tables x.1 -> Safe (k a) (s', x.2)) -> Safe (let! a := up m in k a) x.
Proof.
  intros Hm Hk. related relates_at_bind; [by apply injector_frame_safe, preserves_up|]. intros a [s' c'] E.
  destruct x as [s c]. unfold up in E. specialize (Hm s). simpl in *. destruct (m s) as [r s1]. injection E as -> -> ->. by apply Hk.
Qed.

Lemma injector_stored_safe {A} (m : M Inj A) (k : A -> HandlerFunc Inj) x : relates_at db_tables (safely scope) m x.1 ->
  (forall a s', m x.1 = (Ok a, s') -> Safe (k a) (s', x.2)) -> Safe (stored (up m) k) x.
Proof.
  intros Hm Hk. related relates_at_stored; [by apply relates_at_up|]. intros a [s' c'] E.
  destruct x as [s c]. unfold up in E. simpl in *. destruct (m s) as [r s1]. injection E as -> -> ->. by apply Hk.
Qed.

Lemma stored_read {A} (m : M Inj A) (k : A -> HandlerFunc Inj) x : preserves db_tables m ->
  (forall a s', m x.1 = (Ok a, s') -> db_tables s' = db_tables x.1 -> Safe (k a) (s', x.2)) -> Safe (stored (up m) k) x.
Proof.
  intros Hm Hk. apply injector_stored_safe; [by apply reads_safely|]. intros a s' E. apply Hk; [done|].
  specialize (Hm x.1). by rewrite E in Hm.
Qed.

Lemma create_fields_safe defID fields made k x : owned scope (db_tables x.1) defID ->
  (forall l, preserves (on_world db_tables) (k l)) -> Safe (create_fields defID fields made k) x.
Proof.
  intros Ho Hk. revert made x Ho. induction fields as [|f fields IH]; intros made x Ho; simpl; [by apply injector_frame_safe|].
  apply bind_safe; [apply db_id_frame|]. intros id s1 _ Es1. cbv zeta.
  apply injector_stored_safe; [apply CreateField_safely; simpl; by rewrite Es1|]. intros [] s2 E2. apply IH. simpl.
  pose proof (CreateField_defs (requested_field id defID f) s1) as Ed. cbn [fst] in E2. rewrite E2 in Ed. simpl in Ed.
  unfold owned in *. rewrite Ed. simpl. by rewrite Es1.
Qed.

Lemma injector_create_safe x : Safe (create scope) x.
Proof.
  apply injector_bound_safe. intros req. cbv zeta. destruct (negb _); [apply injector_frame_safe, WriteErrorDetails_frame|].
  apply bind_safe; [apply db_now_frame|]. intros now s1 _ _. apply bind_safe; [apply db_id_frame|]. intros id s2 _ _.
  apply injector_stored_safe; [by apply CreateDefinition_safely|]. intros d s3 E. apply create_fields_safe.
  - by apply (CreateDefinition_owned scope) in E.
  - intros l. apply write_frame.
Qed.

Lemma requested_fields_frame fields : preserves db_tables (requested_fields fields).
Proof.
  induction fields as [|f fields IH]; simpl; [apply preserves_ret|]. apply preserves_bind; [apply db_id_frame|]. intros id.
  apply preserves_bind; [exact IH|intros; apply preserves_ret].
Qed.

Lemma mutable_safe ws name k x :
  (forall x', db_tables x'.1 = db_tables x.1 -> Safe k x') -> Safe (mutable_definition wss ws name k) x.
Proof.
  intros Hk. destruct ws as [ws|]; simpl; [|by apply Hk]. apply stored_read; [apply injector_access_frame|].
  intros [ [d sys] pol] s' _ Es. destruct (negb _); [apply injector_frame_safe, WriteError_frame|].
  destruct (_ && _); [apply injector_frame_safe, WriteError_frame|]. by apply Hk.
Qed.
End Scope.

Section Changes.
Context (workspace : option Workspace).
#[local] Abbreviation scope := (scope_of workspace).
#[local] Abbreviation Safe := (relates_at (on_world db_tables) (safely scope)).

Lemma injector_update_safe x : Safe (update wss workspace) x.
Proof.
  apply conn_safe. cbv zeta. apply mutable_safe. intros x1 _. apply injector_bound_safe. intros req. cbv zeta.
  destruct (negb _); [apply injector_frame_safe, WriteErrorDetails_frame|].
  apply bind_safe; [apply db_now_frame|]. intros now s1 _ _.
  apply bind_safe; [apply requested_fields_frame|]. intros fields s2 _ _.
  apply injector_stored_safe; [apply UpdateDefinitionSchema_safely|]. intros [d l] s3 _. apply injector_frame_safe, write_frame.
Qed.

Lemma remove_safe (d : InjectorDefinition) x : owned scope (db_tables x.1) (def_ID d) ->
  Safe (stored (up (SoftDeleteDefinition (def_ID d))) (fun _ => NoContent 204)) x.
Proof.
  intros Ho. apply injector_stored_safe; [by apply SoftDeleteDefinition_safely|]. intros [] s' _. apply injector_frame_safe, write_frame.
Qed.

Lemma found_at name s d s' : FindDefinitionByName name scope s = (Ok d, s') -> catalogue_ok (db_tables s) ->
  owned scope (db_tables s') (def_ID d).
Proof. intros (-> & Hrow & Hws)%found_owned Hok. exists d. auto. Qed.

Lemma deleteInjector_safe x : Safe (deleteInjector wss workspace) x.
Proof.
  apply conn_safe. cbv zeta. apply assume_ok. intros Hok. destruct workspace as [ws|] eqn:Ew; rewrite <- ?Ew in *.
  - apply stored_read; [apply injector_access_frame|]. intros [ [d sys] pol] s' E Es.
    destruct (isOwnedByCurrentWorkspace _ _) eqn:Eo; simpl; [|apply injector_frame_safe, WriteError_frame].
    destruct (_ && _); [apply injector_frame_safe, WriteError_frame|].
    apply access_row in E as Hrow; [|exact Hok]. apply bool_decide_eq_true in Eo. rewrite Eo in Hrow.
    apply remove_safe. simpl. rewrite Es. subst. exact Hrow.
  - apply stored_read; [apply query_frame|]. intros d s' E _. apply remove_safe. eapply found_at; [rewrite Ew; exact E|exact Hok].
Qed.

Lemma updateField_safe x : Safe (updateField wss workspace) x.
Proof.
  apply conn_safe. cbv zeta. apply mutable_safe. intros x1 _. apply assume_ok. intros Hok.
  apply stored_read; [apply query_frame|]. intros d s1 E1 Es1. apply found_at in E1; [|exact Hok].
  apply stored_read; [apply query_frame|]. intros fields s2 E2 Es2.
  destruct (findField fields _) as [f|] eqn:Ef; [|apply injector_frame_safe, WriteError_frame].
  apply List.find_some in Ef as [Hin%list_elem_of_In _]. apply (definition_fields_rows _ _ _ _ _ E2) in Hin as [_ Hrow].
  simpl in Hrow, Es1, Es2. rewrite Es1 in Hrow. destruct (Hrow Hok) as (r & Er & Hd).
  apply injector_bound_safe. intros req. cbv zeta. destruct (validateFieldDefault _ _ _); [|apply injector_frame_safe, WriteErrorDetails_frame].
  apply injector_stored_safe; [|intros [] s3 _; apply injector_frame_safe, write_frame].
  apply (UpdateField_safely _ _ r); simpl; rewrite Es2; [by rewrite Hd|by rewrite Es1].
Qed.
End Changes.

Lemma SetValue_defs x : preserves (fun s : Inj => ij_defs (db_tables s)) (SetValue x).
Proof.
  intros s. unfold SetValue, bind, lift_res. destruct (Marshal _) as [json|e]; [|done].
  destruct (exec _ _ s) as [r s'] eqn:E. simpl. apply exec_cases in E as [ [_ ->]|(r' & t' & E & -> & _)]; [done|].
  cbv zeta in E. by repeat case_match; injection E as _ <-.
Qed.

(** Each value is set in the definition, which stays. *)
Lemma values_safely scope defID (f : InjectorFieldValue -> uuid -> InjectorValue) l s :
  (forall fv id, val_InjectorDefinitionID (f fv id) = defID) -> owned scope (db_tables s) defID ->
  relates_at db_tables (safely scope)
    (for_each l (fun fv => let! id := NewV7 db_runtime in let! _ := SetValue (f fv id) in ret tt)) s.
Proof.
  intros Hf. revert s. induction l as [|fv l IH]; intros s Ho; simpl; [by apply reads_safely|].
  related relates_at_bind.
  - related relates_at_bind; [apply reads_safely, db_id_frame|]. intros id s1 E1.
    assert (Ho1 : owned scope (db_tables s1) defID) by (pose proof (db_id_frame s) as Hd; rewrite E1 in Hd; simpl in Hd; by rewrite Hd).
    related relates_at_bind; [apply SetValue_safely; by rewrite Hf|]. intros v s2 _. by apply reads_safely.
  - intros [] s1 E1. apply IH. apply bind_Ok in E1 as (id & s2 & E2 & (v & s3 & E3 & E1)%bind_Ok). injection E1 as <-.
    pose proof (db_id_frame s) as Hd. rewrite E2 in Hd. simpl in Hd.
    pose proof (SetValue_defs (f fv id) s2) as Hv. rewrite E3 in Hv. simpl in Hv. unfold owned. by rewrite Hv, Hd.
Qed.

Lemma setValues_safe ws x : relates_at (on_world db_tables) (safely (Some ws)) (setValues ts wss ws) x.
Proof.
  apply conn_safe. cbv zeta. unfold with_workspace.
  related relates_at_stored; [apply injector_frame_safe, resolveWorkspace_hosted_frame|]. intros w x1 _.
  apply mutable_safe. intros x2 _. apply assume_ok. intros Hok.
  apply stored_read; [apply query_frame|]. intros d s1 E1 _.
  assert (Ho : owned (Some ws) (db_tables s1) (def_ID d)).
  { apply found_owned in E1 as (-> & Hrow & Hws). exists d. auto. }
  apply injector_bound_safe. intros req. case_bool_decide; [apply injector_frame_safe, WriteErrorDetails_frame|].
  apply bind_safe; [apply db_now_frame|]. intros now s2 _ Es2.
  apply injector_stored_safe; [|intros [] s3 _; apply injector_frame_safe, write_frame].
  apply (values_safely _ (def_ID d)); [done|]. simpl in Es2 |- *. by rewrite Es2.
Qed.
End Handlers.

(** ** Requests *)

Section Requests.
Context `{GoStd} `{Codec} `{Sha256} `{JSON any} `{JSON string} `{JSON fields_map}.
Context `{Binder CreateInjectorRequest} `{Binder SetInjectorValuesRequest} `{Binder UpdateInjectorFieldRequest}.
Context (ilike : string -> string -> bool) (uuid_SHA1 : string -> uuid).
Context (oidcVerifier : string -> M Inj OIDCClaims) (apiKeyPepper : string).
Context (injectorMerger : option (InjectorMerger Inj)).
Hypothesis verifier_frame : forall token, preserves db_tables (oidcVerifier token).
Hypothesis merger_frames : forall m, injectorMerger = Some m -> merger_frame m.

#[local] Abbreviation ts := (HostedTenants (T:=Catalogue) ilike).
#[local] Abbreviation wss := (HostedWorkspaces (T:=Catalogue) ilike).
#[local] Abbreviation in_workspace := (workspace_effect (fun ws => safely (Some (ws_ID ws)))).

Lemma in_workspace_reads (h : Workspace -> HandlerFunc Inj) : (forall ws, preserves (on_world db_tables) (h ws)) -> in_workspace (with_workspace ts wss h).
Proof.
  intros Hh. apply resolved_effect. intros ws x. exact (injector_frame_safe _ _ x (Hh ws)).
Qed.

Lemma workspace_injector_effects group :
  Forall (fun r => in_workspace (route_Handler r)) (workspace_injector_routes uuid_SHA1 ts wss injectorMerger group).
Proof.
  unfold workspace_injector_routes. rewrite !Forall_cons. cbn [route_Handler]. split_and!; [..|constructor].
  - apply resolved_effect. intros ws x. destruct (ws_IsSystem ws); [apply injector_create_safe|].
    apply stored_read; [apply resolveSystemWorkspace_hosted_frame|]. intros sys s1 _ _.
    destruct (negb _); [apply injector_frame_safe, WriteError_frame|apply injector_create_safe].
  - apply in_workspace_reads. intros ws. by apply injector_list_frame.
  - apply in_workspace_reads. intros ws. by apply injector_get_frame.
  - apply resolved_effect. intros ws x. apply (injector_update_safe ilike (Some ws)).
  - apply resolved_effect. intros ws x. apply (updateField_safe ilike (Some ws)).
  - apply resolved_effect. intros ws x. apply setValues_safe.
  - apply resolved_effect. intros ws x. apply (deleteInjector_safe ilike (Some ws)).
Qed.

Lemma global_injector_effects : Forall (fun r => route_Min r = RoleSuperadmin /\
    forall x, relates_at (on_world db_tables) (safely None) (route_Handler r) x)
  (global_injector_routes uuid_SHA1 wss injectorMerger).
Proof.
  unfold global_injector_routes. rewrite !Forall_cons. cbn [route_Handler route_Min]. split_and!; try done; intros x.
  - apply injector_create_safe.
  - by apply injector_frame_safe, injector_list_frame.
  - by apply injector_frame_safe, injector_get_frame.
  - apply (injector_update_safe ilike None).
  - apply (updateField_safe ilike None).
  - apply (deleteInjector_safe ilike None).
Qed.

(** C13: whatever an injector route is asked, the constraints of the catalogue
    hold afterwards, and either nothing changed, or the caller has at least the
    route's role over the workspace the path names and only definitions of that
    workspace changed, with their fields and values, or the caller is a
    superadmin and only global ones did. *)
Theorem injector_changes_confined route s c r x' :
  catalogue_ok (db_tables s) ->
  (forall id a, tb_roles (ij_dir (db_tables s)) !! id = Some a -> role_scope_check a = true) ->
  cn_Values c = no_values -> route ∈ injector_routes uuid_SHA1 ts wss injectorMerger ->
  handle_hosted ilike oidcVerifier apiKeyPepper route (s, c) = (r, x') ->
  let t := db_tables s in let t' := db_tables x'.1 in
  catalogue_ok t' /\
  (t' = t \/
   (exists ws, named c (ij_dir t) ws /\ entitled oidcVerifier (route_Min route) c (ij_dir t) ws /\ within (Some (ws_ID ws)) t t') \/
   (superadmin oidcVerifier c (ij_dir t) /\ within None t t')).
Proof.
  intros Hok Hroles Hv Hin E. cbv zeta. unfold injector_routes in Hin. rewrite !elem_of_app in Hin.
  assert (Hws : in_workspace (route_Handler route) \/ route ∈ global_injector_routes uuid_SHA1 wss injectorMerger).
  { pose proof workspace_injector_effects as Hws. setoid_rewrite Forall_forall in Hws.
    destruct Hin as [Hin|[Hin|Hin] ]; [left; by eapply Hws..|by right]. }
  destruct Hws as [Hh|Hg].
  - apply (workspace_route ilike oidcVerifier apiKeyPepper verifier_frame _ _ _ _ _ _ Hv Hh) in E as [->|(ws & Hn & He & HR)]; [by auto|].
    destruct (HR Hok) as [? ?]. split; [done|]. right. left. by exists ws.
  - pose proof global_injector_effects as Hge. rewrite Forall_forall in Hge. destruct (Hge _ Hg) as [Hmin Hsafe].
    pose proof (superadmin_route ilike oidcVerifier apiKeyPepper verifier_frame route s c r x' Hv Hmin) as Hsr.
    destruct (Hsr Hroles E) as [->|(Ha & s1 & c1 & Es & _ & ->)]; [by auto|].
    specialize (Hsafe (s1, c1)). unfold relates_at, on_world, safely in Hsafe. cbn [fst] in Hsafe. rewrite Es in Hsafe.
    destruct (Hsafe Hok) as [? ?]. auto.
Qed.
End Requests.
