(* ===== verification/InjectorSchema.v ===== *)
(** * Replacing the schema of an injector, all of it or nothing

    [UpdateDefinitionSchema] deletes what a definition had and creates the
    fields of the request one by one: whatever fails on the way, in the database
    or in the request, the catalogue is the one before, or it has exactly the new
    schema. *)
From stdpp Require Import base gmap strings list sorting.
From Stdlib Require Import ZArith NArith Ascii String Lia.
From S2P Require Import Prelude GoMonad Domain Ports Token Config Http Suppression Postgres Database Directory.
From S2P Require Import Gates Templates Injectors InjectorRepo InjectorSafety.

Section Schema.
Context `{GoStd} `{JSON any} `{JSON string}.

(** The row a field is stored as. *)
Inductive stores (f : InjectorField) : FieldRow -> Prop :=
| stores_row msg json : default_json msg (fld_DefaultValue f) = Ok json -> stores f (mkFieldRow (with_default ANil f) json).

Definition has_field (t : Catalogue) (defID : uuid) (row : FieldRow) : Prop :=
  exists id, ij_fields t !! id = Some row /\ fld_InjectorDefinitionID (fw_field row) = defID.

Lemma CreateField_did f s u s' : CreateField f s = (Ok u, s') ->
  exists row, stores f row /\ ij_fields (db_tables s) !! fld_ID f = None /\
    rows (same_field row) (ij_fields (db_tables s)) = [] /\ db_tables s' = set_fields <[fld_ID f := row]> (db_tables s).
Proof.
  intros (json & s1 & E1 & E)%bind_Ok. unfold lift_res in E1. injection E1 as Ej <-.
  unfold write_stmt in E. apply exec_Ok in E. unfold insert_field in E. cbv zeta in E.
  destruct (violation _) eqn:Ev; [done|]. injection E as _ E. apply violation_None in Ev. rewrite !Forall_cons in Ev.
  destruct Ev as (Hid & Hr & _). simpl in Hid, Hr. apply bool_decide_eq_true in Hid, Hr.
  eexists. split; [by econstructor|]. auto.
Qed.

(** The fields of a definition after those of a request are created. *)
Lemma fields_created defID fields s u s' : Forall (fun f => fld_InjectorDefinitionID f = defID) fields ->
  for_each fields CreateField s = (Ok u, s') ->
  (forall row, has_field (db_tables s') defID row <-> has_field (db_tables s) defID row \/ exists f, f ∈ fields /\ stores f row) /\
  NoDup (fld_FieldName <$> fields) /\
  (forall row, has_field (db_tables s) defID row -> fld_FieldName (fw_field row) ∉ fld_FieldName <$> fields) /\
  ij_defs (db_tables s') = ij_defs (db_tables s) /\ ij_values (db_tables s') = ij_values (db_tables s).
Proof.
  revert s. induction fields as [|f fields IH]; intros s; simpl.
  { intros _ [= _ <-]. split_and!; [|constructor|by intros ? ? ?%not_elem_of_nil|done..]. intros row. set_solver. }
  intros [Hf Hl]%Forall_cons (u1 & s1 & E1 & E)%bind_Ok. destruct (IH _ Hl E) as (Hrows & Hnd & Hfresh & -> & ->).
  apply CreateField_did in E1 as (row0 & Hst & Hnone & Hno & Et). pose proof Hst as Hst'. destruct Hst as [msg json Ej].
  assert (Hhas : forall row, has_field (db_tables s1) defID row <-> has_field (db_tables s) defID row \/ stores f row).
  { intros row. unfold has_field. rewrite Et. simpl. split.
    - intros (id & [ [<- <-]|[_ Hid] ]%lookup_insert_Some & Hd); [by right|left; by exists id].
    - intros [ (id & Hid & Hd)|[msg' json' Ej'] ].
      + exists id. split; [|done]. rewrite lookup_insert_ne; [done|]. intros Ei. rewrite <- Ei, Hnone in Hid. done.
      + exists (fld_ID f). split; [|done]. rewrite lookup_insert_eq. repeat f_equal.
        unfold default_json in Ej, Ej'. destruct (fld_DefaultValue f); try destruct (Marshal _); congruence. }
  assert (Hname : forall row, has_field (db_tables s) defID row -> fld_FieldName (fw_field row) <> fld_FieldName f).
  { intros row (id & Hid & Hd) En. eapply not_elem_of_nil. rewrite <- Hno. apply elem_of_rows. split; [by exists id|].
    unfold same_field. simpl. by rewrite !bool_decide_eq_true_2 by congruence. }
  split_and!; [| |..|by rewrite Et|by rewrite Et].
  - intros row. rewrite Hrows, Hhas. set_solver.
  - apply NoDup_cons. split; [|done]. apply (Hfresh (mkFieldRow (with_default ANil f) json)). apply Hhas. by right.
  - intros row Hr. apply not_elem_of_cons. split; [by apply Hname|]. apply Hfresh, Hhas. by left.
Qed.

(** C21: a schema update that reports an error before its commit, whatever failed
    - a database fault, an unknown name, a name already taken, a default that is
    no JSON, two fields of one name - leaves the catalogue as it was; otherwise
    the definition has the new name, exactly the fields of the request and no
    value, and no row of another scope changed. *)
Theorem UpdateDefinitionSchema_exact name scope d fields s r s' :
  catalogue_ok (db_tables s) -> UpdateDefinitionSchema name scope d fields s = (r, s') ->
  let t := db_tables s in let t' := db_tables s' in
  (is_ok r = false /\ t' = t) \/
  (exists d0 now, ij_defs t !! def_ID d0 = Some d0 /\ def_Name d0 = name /\ def_WorkspaceID d0 = scope /\ def_DeletedAt d0 = None /\
     NoDup (fld_FieldName <$> fields) /\
     ij_defs t' = <[def_ID d0 := with_schema now (def_Name d) (def_Description d) d0]> (ij_defs t) /\
     (forall row, has_field t' (def_ID d0) row <-> exists f, f ∈ fields /\ stores (of_definition (def_ID d0) f) row) /\
     (forall id v, ij_values t' !! id = Some v -> val_InjectorDefinitionID (vw_value v) <> def_ID d0) /\
     catalogue_ok t' /\ within scope t t').
Proof.
  intros Hok E. cbv zeta.
  destruct (UpdateDefinitionSchema_safely scope name d fields s Hok) as [Hok' Hw]. rewrite E in Hok', Hw. simpl in Hok', Hw.
  apply in_tx_cases in E as [?|(s1 & a & s2 & Es1 & E & Es2 & _)]; [by left|]. right. rewrite Es2 in *. rewrite <- Es1 in *.
  clear s s' Es1 Es2.
  apply bind_Ok in E as (d0 & s3 & Ef & ([created now0] & s4 & E4 & (u5 & s5 & E5 & (u6 & s6 & E6 & (u7 & s7 & E7 & E)%bind_Ok)%bind_Ok)%bind_Ok)%bind_Ok).
  injection E as _ ->. pose proof Ef as Hrow. apply found_owned in Hrow as (Es3 & Hrow & Hws). specialize (Hrow Hok).
  apply query_Ok in Ef as [Ef _]. apply first_rows in Ef as [_ Hp]. rewrite !andb_true_iff, !bool_decide_eq_true in Hp.
  destruct Hp as [ [Hn _] Hlive]. unfold def_live in Hlive. apply bool_decide_eq_true in Hlive.
  unfold update_definition, write_stmt in E4. apply exec_Ok in E4. rewrite Es3, Hrow in E4. cbv zeta in E4.
  case_bool_decide; [|done]. injection E4 as _ _ E4. apply exec_Ok in E5, E6. injection E5 as _ E5. injection E6 as _ E6.
  apply (fields_created (def_ID d0)) in E7 as (Hf & Hnd & _ & Ed & Ev); [|apply Forall_fmap, Forall_forall; by intros].
  exists d0, (db_clock s3). split_and!; try done.
  - by rewrite <- list_fmap_compose in Hnd.
  - rewrite Ed, <- E6, <- E5, <- E4. done.
  - intros row. rewrite Hf. split.
    + intros [ (id & Hid & Hd)|(f & (g & -> & Hg)%list_elem_of_fmap & Hst)]; [|by exists g].
      exfalso. rewrite <- E6 in Hid. simpl in Hid. apply map_lookup_filter_Some in Hid as [_ Hne]. done.
    + intros (f & Hin & Hst). right. exists (of_definition (def_ID d0) f). split; [by apply list_elem_of_fmap_2|done].
  - intros id v. rewrite Ev, <- E6, <- E5. simpl. by intros [_ ?]%map_lookup_filter_Some.
Qed.
End Schema.
