(* ===== verification/InjectorRuns.v ===== *)
(** * Runs of the injector catalogue

    Injectors of a workspace and of the system workspace it inherits from: the
    theorems at concrete requests, and what the handlers let through. *)
From stdpp Require Import base gmap strings list sorting.
From Stdlib Require Import ZArith NArith Ascii String Lia.
From S2P Require Import Prelude GoMonad Domain Ports Token Config Http Suppression Postgres Database Directory.
From S2P Require Import Auth Members Roles Gates Surface Authority ControlRuns Inheritance Hosted Templates Versions TemplateRuns.
From S2P Require Import Resolution Injectors InjectorRepo InjectorHandlers InjectorSafety InjectorSchema.

#[local] Instance catalogue_std : GoStd := ascii_std.
#[local] Instance catalogue_codec : Codec := sample_codec.
#[local] Instance catalogue_sha : Sha256 := {| sha256 := fun m => "s" +:+ m |}.
(** Strings only: a number has no encoding here. *)
#[local] Instance catalogue_any : JSON any := {|
  Marshal := fun v => match v with AStr s => Ok s | _ => Err (EMsg "json: unsupported type") end;
  Unmarshal := fun s => Ok (AStr s);
|}.
#[local] Instance catalogue_string : JSON string := {| Marshal := fun s => Ok s; Unmarshal := fun s => Ok s |}.
#[local] Instance catalogue_fields : JSON fields_map := {|
  Marshal := fun _ => Err (EMsg "json: unsupported type"); Unmarshal := fun _ => Err (EMsg "invalid character") |}.
Definition color (name : string) : CreateInjectorField := mkCreateInjectorField name "text" None 0 (AStr "red") None.
#[local] Instance bind_injector : Binder CreateInjectorRequest :=
  {| Bind := fun c => Ok (mkCreateInjector (cn_RawBody c) None [color "color"; color " color2"]) |}.
#[local] Instance bind_values : Binder SetInjectorValuesRequest :=
  {| Bind := fun c => Ok (mkSetInjectorValues [mkInjectorFieldValue (cn_RawBody c) "blue"]) |}.
#[local] Instance bind_field : Binder UpdateInjectorFieldRequest :=
  {| Bind := fun c => Ok (mkUpdateInjectorField (AStr (cn_RawBody c)) None) |}.

(** ** The catalogue *)

Definition injector (id ws : uuid) (name : string) : InjectorDefinition := definition_row id (Some ws) name None 1 1 None.
Definition text_field (id def : uuid) (name : string) (v : any) : InjectorField :=
  mkInjectorField id def name FieldTypeText None 0 v true.
Definition catalogue : Catalogue := {|
  ij_dir := set_workspaces (fun _ => {[5%N := shop; 6%N := system]}) small_tables;
  ij_defs := {[70%N := injector 70 5 "brand"; 71%N := injector 71 6 "footer"]};
  ij_fields := {[80%N := mkFieldRow (text_field 80 70 "color" ANil) (Some "red");
                 81%N := mkFieldRow (text_field 81 71 "line" ANil) (Some "--")]};
  ij_values := {[90%N := mkValueRow (mkInjectorValue 90 70 "color" (Some 5%N) "" 1) "green"]};
|}.
Definition catalogue_db : Inj := mkDB catalogue 100 60 [] [].

Lemma catalogue_fine : catalogue_ok catalogue.
Proof.
  split; [unfold keyed; eapply every_row; vm_compute; reflexivity|apply every_pair; vm_compute; reflexivity
    |unfold keyed; eapply every_row; vm_compute; reflexivity|apply every_pair; vm_compute; reflexivity
    |apply (every_row (fun _ r => is_Some (ij_defs catalogue !! fld_InjectorDefinitionID (fw_field r)))); vm_compute; reflexivity
    |unfold keyed; eapply every_row; vm_compute; reflexivity|apply every_pair; vm_compute; reflexivity
    |apply (every_row (fun _ r => is_Some (ij_defs catalogue !! val_InjectorDefinitionID (vw_value r)))); vm_compute; reflexivity].
Qed.

Lemma catalogue_roles id a : tb_roles (ij_dir catalogue) !! id = Some a -> role_scope_check a = true.
Proof.
  revert id a. apply (every_row (fun _ a => role_scope_check a = true) (H := fun _ a => bool_eq_dec _ _)). vm_compute. reflexivity.
Qed.

(** ** Requests *)

Definition inj_idp (token : string) : M Inj OIDCClaims :=
  if bool_decide (token = "jwt") then ret (mkClaims "adm" "admin@x.io" "idp") else fail (EMsg "invalid signature").
Lemma inj_idp_frame token : preserves db_tables (inj_idp token).
Proof. unfold inj_idp. by case_bool_decide. Qed.

Definition sha1_id (s : string) : uuid := N.of_nat (String.length s).
Definition inj_tenants : TenantStore.t Inj := HostedTenants (fun _ _ => true).
Definition inj_workspaces : WorkspaceStore.t Inj := HostedWorkspaces (fun _ _ => true).
Definition inj_routes : list (Route Inj) := injector_routes sha1_id inj_tenants inj_workspaces None.

Definition delete_route : Route Inj :=
  mkRoute "DELETE" "/tenants/:tenant_code/workspaces/:workspace_code/injectors/:name" RoleWorkspaceAdmin
    (Injectors_Delete inj_tenants inj_workspaces).
Definition inj_request (meth name body : string) : Conn :=
  request meth [("tenant_code", "acme"); ("workspace_code", "shop"); ("name", name)] "jwt" body.

(** The tenant's admin deletes the workspace's injector; the inherited one is
    refused. *)
Lemma injector_changes_confined_witness :
  let run := handle_hosted (fun _ _ => true) inj_idp "pepper" delete_route (catalogue_db, inj_request "DELETE" "brand" "") in
  let refused := handle_hosted (fun _ _ => true) inj_idp "pepper" delete_route (catalogue_db, inj_request "DELETE" "footer" "") in
  def_DeletedAt <$> ij_defs (db_tables run.2.1) !! 70%N = Some (Some 100%Z) /\
  status_of refused.2.2 = [403%Z] /\ db_tables refused.2.1 = catalogue /\
  catalogue_ok (db_tables run.2.1) /\
  (exists ws, named (inj_request "DELETE" "brand" "") (ij_dir catalogue) ws /\ within (Some (ws_ID ws)) catalogue (db_tables run.2.1)
   \/ within None catalogue (db_tables run.2.1)).
Proof.
  intros run refused. assert (Hd : def_DeletedAt <$> ij_defs (db_tables run.2.1) !! 70%N = Some (Some 100%Z)) by (vm_compute; reflexivity).
  split; [exact Hd|]. split; [vm_compute; reflexivity|]. split; [vm_compute; reflexivity|].
  assert (Hin : delete_route ∈ inj_routes) by (apply (list_elem_of_lookup_2 _ 6); reflexivity).
  assert (Hm : forall m : InjectorMerger Inj, None = Some m -> merger_frame m) by discriminate.
  pose proof (injector_changes_confined (fun _ _ => true) sha1_id inj_idp "pepper" None inj_idp_frame Hm delete_route catalogue_db
    (inj_request "DELETE" "brand" "") run.1 run.2) as Hall.
  specialize (Hall catalogue_fine). specialize (Hall catalogue_roles). specialize (Hall eq_refl). specialize (Hall Hin).
  specialize (Hall (surjective_pairing run)).
  clearbody run. destruct Hall as [Hok [E|[(ws & Hn & _ & Hc)|[_ Hc] ] ] ].
  - exfalso. rewrite E in Hd. vm_compute in Hd. discriminate.
  - split; [exact Hok|]. exists ws. left. split; [exact Hn|exact Hc].
  - split; [exact Hok|]. exists shop. right. exact Hc.
Defined.

(** A field of the request fails after the old ones are deleted. *)
Lemma UpdateDefinitionSchema_exact_witness :
  let update fields := UpdateDefinitionSchema "brand" (Some 5%N) (injector 0 5 "logo") fields catalogue_db in
  let good := update [text_field 82 0 "url" (AStr "/")] in
  let bad := update [text_field 82 0 "url" (AStr "/"); text_field 83 0 "size" (AInt 3)] in
  is_ok good.1 = true /\ is_ok bad.1 = false /\ db_tables bad.2 = catalogue /\
  (forall row, has_field (db_tables good.2) 70 row <-> exists f, f ∈ [text_field 82 0 "url" (AStr "/")] /\ stores (of_definition 70 f) row).
Proof.
  intros update good bad. assert (Hg : is_ok good.1 = true) by (vm_compute; reflexivity).
  split; [exact Hg|]. split; [vm_compute; reflexivity|]. split; [vm_compute; reflexivity|].
  destruct (UpdateDefinitionSchema_exact "brand" (Some 5%N) (injector 0 5 "logo") [text_field 82 0 "url" (AStr "/")] catalogue_db
    good.1 good.2 catalogue_fine (surjective_pairing good)) as [ [Hf _]|(d0 & now & Hd & Hn & Hs & _ & _ & _ & Hrows & _)].
  - rewrite Hg in Hf. discriminate.
  - assert (Ed : def_ID d0 = 70%N); [|rewrite Ed in Hrows; exact Hrows].
    change (ij_defs (db_tables catalogue_db)) with ({[70%N := injector 70 5 "brand"; 71%N := injector 71 6 "footer"]} : gmap uuid InjectorDefinition) in Hd.
    apply lookup_insert_Some in Hd as [ [Hk _]|[_ Hd] ]; [symmetry; exact Hk|].
    apply lookup_singleton_Some in Hd as [_ <-]. discriminate Hn.
Defined.

(** ** What the handlers let through *)

(** The name of a deleted injector stays taken. *)
Lemma injector_name_lost :
  let deleted := (SoftDeleteDefinition 70 catalogue_db).2 in
  let run := Injectors_Create inj_tenants inj_workspaces (deleted, inj_request "POST" "" "brand") in
  status_of run.2.2 = [409%Z] /\ db_tables run.2.1 = db_tables deleted.
Proof. vm_compute. auto. Qed.

(** A definition whose fields could not be created stays, and blocks the retry. *)
Lemma create_half_done :
  let faulty := mkDB catalogue 100 60 [] [FaultNone; FaultNone; FaultNone; FaultNone; FaultBefore "connection reset"] in
  let run := Injectors_Create inj_tenants inj_workspaces (faulty, inj_request "POST" "" "banner") in
  let retry := Injectors_Create inj_tenants inj_workspaces (run.2.1, inj_request "POST" "" "banner") in
  status_of run.2.2 = [500%Z] /\ def_Name <$> ij_defs (db_tables run.2.1) !! 60%N = Some "banner" /\
  status_of retry.2.2 = [409%Z].
Proof. vm_compute. auto. Qed.

(** A value for a field the injector does not have. *)
Lemma value_without_field :
  let run := Injectors_SetValues inj_tenants inj_workspaces (catalogue_db, inj_request "PUT" "brand" "nope") in
  status_of run.2.2 = [204%Z] /\
  val_FieldName <$> (vw_value <$> ij_values (db_tables run.2.1) !! 60%N) = Some "nope".
Proof. vm_compute. auto. Qed.

(** An update of an injector forgets the values set for it. *)
Lemma values_forgotten :
  let run := Injectors_Update inj_tenants inj_workspaces (catalogue_db, inj_request "PUT" "brand" "brand") in
  status_of run.2.2 = [200%Z] /\ ij_values (db_tables run.2.1) = ∅ /\
  (fld_FieldName ∘ fw_field <$> ij_fields (db_tables run.2.1) !! 61%N) = Some " color2".
Proof. vm_compute. auto. Qed.
