(* ===== verification/Render.v ===== *)
(** * Variable rendering ([internal/service/variable_renderer.go])

    The substitution of [{{ event.X }}], [{{ injector.name.field }}] and
    [{{ system.X }}] in a template, its escaping and the scanner that decides
    whether a placeholder sits in a quoted attribute. *)
From stdpp Require Import base gmap strings list.
From Stdlib Require Import ZArith Ascii String Lia.
From S2P Require Import Prelude GoMonad Domain.

(** ** [variablePattern]

    Two braces, spaces, a letter or underscore followed by letters, digits,
    underscores and dots, spaces, two braces: the classes of the parts are
    disjoint, so a match at a position is unique. *)

Definition is_space_re (c : ascii) : bool :=
  Ascii.eqb c (byte 9) || Ascii.eqb c (byte 10) || Ascii.eqb c (byte 12) || Ascii.eqb c (byte 13)
  || Ascii.eqb c (byte 32).
Definition is_ident_start (c : ascii) : bool := is_lower_ascii c || is_upper_ascii c || Ascii.eqb c "_".
Definition is_ident (c : ascii) : bool := is_ident_start c || is_digit_ascii c || Ascii.eqb c ".".

(** The longest prefix of a class, and the rest. *)
Fixpoint span (p : ascii -> bool) (s : string) : string * string :=
  match s with
  | String c r => if p c then let (a, b) := span p r in (String c a, b) else ("", s)
  | EmptyString => ("", "")
  end.

(** The path, the length of the match and the text after it. *)
Definition match_at (s : string) : option (string * string * string) :=
  match strip_prefix "{{" s with
  | None => None
  | Some s1 =>
      let (sp1, s2) := span is_space_re s1 in
      match s2 with
      | String c _ =>
          if is_ident_start c then
            let (path, s3) := span is_ident s2 in
            let (sp2, s4) := span is_space_re s3 in
            match strip_prefix "}}" s4 with
            | Some rest => Some (path, "{{" +:+ sp1 +:+ path +:+ sp2 +:+ "}}", rest)
            | None => None
            end
          else None
      | EmptyString => None
      end
  end.

(** [FindAllStringSubmatchIndex]: the leftmost matches, each with the text
    before it, its own text and its path; and the text after the last. The fuel
    is the length of the text. *)
Record Placeholder := mkPlaceholder { ph_before : string; ph_raw : string; ph_path : string }.

Fixpoint find_all (fuel : nat) (before : string) (s : string) : list Placeholder * string :=
  match fuel with
  | O => ([], before +:+ s)
  | S fuel =>
      match match_at s with
      | Some (path, raw, rest) =>
          let (l, tail) := find_all fuel "" rest in (mkPlaceholder before raw path :: l, tail)
      | None =>
          match s with
          | EmptyString => ([], before)
          | String c r => find_all fuel (before +:+ String c "") r
          end
      end
  end.

Definition FindAll (template : string) : list Placeholder * string :=
  find_all (S (String.length template)) "" template.

(** ** Values *)

(** [%v] on a JSON-shaped value; a map prints its keys in order. *)
Fixpoint insert_sorted (k v : string) (l : list (string * string)) : list (string * string) :=
  match l with
  | [] => [(k, v)]
  | (k', v') :: r => if String.leb k k' then (k, v) :: l else (k', v') :: insert_sorted k v r
  end.

Fixpoint Sprint `{GoStd} (v : any) : string :=
  match v with
  | ANil => "<nil>"
  | ABool b => if b then "true" else "false"
  | AInt z => Itoa z
  | AFloat bits => fmt_float bits
  | AStr s => s
  | AList l => "[" +:+ Join (map Sprint l) " " +:+ "]"
  | AMap m =>
      let entries := map (fun '(k, v) => (k, Sprint v)) m in
      "map[" +:+ Join (map (fun kv => kv.1 +:+ ":" +:+ kv.2) (foldr (fun kv => insert_sorted kv.1 kv.2) [] entries)) " "
      +:+ "]"
  end.

(** [html.EscapeString]. *)
Fixpoint EscapeString (s : string) : string :=
  match s with
  | EmptyString => EmptyString
  | String c r =>
      (if Ascii.eqb c (byte 38) then "&amp;"
       else if Ascii.eqb c (byte 39) then "&#39;"
       else if Ascii.eqb c (byte 60) then "&lt;"
       else if Ascii.eqb c (byte 62) then "&gt;"
       else if Ascii.eqb c (byte 34) then "&#34;"
       else String c "") +:+ EscapeString r
  end.

(** ** The attribute scanner *)

(** The open quote, if any, and whether a tag is open. *)
Definition scan_step (st : option ascii * bool) (c : ascii) : option ascii * bool :=
  let (quote, tagOpen) := st in
  if Ascii.eqb c (byte 34) || Ascii.eqb c (byte 39) then
    if negb tagOpen then st
    else match quote with
         | None => (Some c, tagOpen)
         | Some q => if Ascii.eqb c q then (None, tagOpen) else st
         end
  else if Ascii.eqb c (byte 60) then (match quote with None => (None, true) | Some _ => st end)
  else if Ascii.eqb c (byte 62) then (match quote with None => (None, false) | Some _ => st end)
  else st.

Fixpoint scan (st : option ascii * bool) (s : string) : option ascii * bool :=
  match s with EmptyString => st | String c r => scan (scan_step st c) r end.

(** On [template[:matchStart]]. *)
Definition isPlaceholderInXMLAttribute (prefix : string) : bool :=
  let (quote, tagOpen) := scan (None, false) prefix in
  tagOpen && bool_decide (is_Some quote).

(** ** The renderer *)

Section Renderer.
Context `{GoStd}.

Definition non_nil (v : option any) : option string :=
  match v with None | Some ANil => None | Some v => Some (Sprint v) end.

Definition resolveEventVar (eventVars : fields_map) (key : string) : option string := non_nil (eventVars !! key).

Definition resolveInjectorVar (injectors : injector_map) (rest : string) : option string :=
  match SplitN rest "."%char 2 with
  | [name; field] => match injectors !! name with Some fields => non_nil (fields !! field) | None => None end
  | _ => None
  end.

Definition resolveSystemVar (systemVars : gmap string string) (key : string) : string :=
  default "" (systemVars !! key).

(** The value of a path, [None] when it is dropped. *)
Definition resolve_path (injectors : injector_map) (eventVars : fields_map) (systemVars : gmap string string)
    (path : string) : option string :=
  match SplitN path "."%char 2 with
  | [prefix; rest] =>
      if bool_decide (prefix = "event") then resolveEventVar eventVars rest
      else if bool_decide (prefix = "injector") then resolveInjectorVar injectors rest
      else if bool_decide (prefix = "system") then Some (resolveSystemVar systemVars rest)
      else None
  | _ => None
  end.

Definition substitute (injectors : injector_map) (eventVars : fields_map) (systemVars : gmap string string)
    (escapeHTML : bool) (prefix path : string) : string :=
  match resolve_path injectors eventVars systemVars path with
  | None => ""
  | Some resolved =>
      if escapeHTML || (negb escapeHTML && isPlaceholderInXMLAttribute prefix) then EscapeString resolved
      else resolved
  end.

(** The loop over the matches; [seen] is the template up to the cursor. *)
Fixpoint render_matches (injectors : injector_map) (eventVars : fields_map) (systemVars : gmap string string)
    (escapeHTML : bool) (seen : string) (matches : list Placeholder) : string :=
  match matches with
  | [] => ""
  | m :: r =>
      let prefix := seen +:+ ph_before m in
      ph_before m +:+ substitute injectors eventVars systemVars escapeHTML prefix (ph_path m)
      +:+ render_matches injectors eventVars systemVars escapeHTML (prefix +:+ ph_raw m) r
  end.

Definition render (template : string) (injectors : injector_map) (eventVars : fields_map)
    (systemVars : gmap string string) (escapeHTML : bool) : Res string :=
  let (matches, tail) := FindAll template in
  if bool_decide (List.length matches = 0) then Ok template
  else Ok (render_matches injectors eventVars systemVars escapeHTML "" matches +:+ tail).

Definition Render (template : string) (injectors : injector_map) (eventVars : fields_map) : Res string :=
  render template injectors eventVars ∅ false.
Definition RenderWithSystem (template : string) (injectors : injector_map) (eventVars : fields_map)
    (systemVars : gmap string string) : Res string :=
  render template injectors eventVars systemVars false.
Definition RenderHTML (template : string) (injectors : injector_map) (eventVars : fields_map) : Res string :=
  render template injectors eventVars ∅ true.
End Renderer.

Example render_demo : let G := ascii_std in
  Render "Hi {{ event.name }}, <a href='{{event.url}}'>{{ x }}</a>" ∅
    {["name" := AStr "A&B"; "url" := AStr "x'y"]}
  = Ok "Hi A&B, <a href='x&#39;y'></a>".
Proof. vm_compute. reflexivity. Qed.

(** * Theorems *)





(** *** The matches *)

Lemma span_app p s : forall a b, span p s = (a, b) -> s = a +:+ b /\ sall p a = true.
Proof.
  induction s as [|c s IH]; intros a b; simpl; [by intros [= <- <-]|].
  destruct (p c) eqn:E; [|by intros [= <- <-]]. destruct (span p s) as [x y]. intros [= <- <-].
  destruct (IH x y eq_refl) as [-> Hx]. simpl. by rewrite E.
Qed.

(** The text of a placeholder: spaces around a path between double braces. *)
Definition placeholder_text (raw path : string) : Prop :=
  exists sp1 sp2, raw = "{{" +:+ sp1 +:+ path +:+ sp2 +:+ "}}" /\ sall is_space_re sp1 = true /\
    sall is_space_re sp2 = true /\ sall is_ident path = true /\ path <> "".

Lemma match_at_Some s path raw rest :
  match_at s = Some (path, raw, rest) -> s = raw +:+ rest /\ placeholder_text raw path.
Proof.
  unfold match_at. destruct (strip_prefix "{{" s) as [s1|] eqn:E1; [|done].
  apply strip_prefix_Some in E1 as ->.
  destruct (span is_space_re s1) as [sp1 s2] eqn:E2. apply span_app in E2 as [-> Hsp1].
  destruct s2 as [|c s2]; [done|]. destruct (is_ident_start c) eqn:Ec; [|done].
  destruct (span is_ident (String c s2)) as [path' s3] eqn:E3.
  destruct (span is_space_re s3) as [sp2 s4] eqn:E4.
  destruct (strip_prefix "}}" s4) as [rest'|] eqn:E5; [|done]. intros [= <- <- <-].
  apply span_app in E4 as [-> Hsp2]. apply strip_prefix_Some in E5 as ->.
  assert (Hne : path' <> "").
  { intros ->. simpl in E3. unfold is_ident in E3. rewrite Ec in E3. simpl in E3.
    by destruct (span (fun c => is_ident_start c || is_digit_ascii c || Ascii.eqb c ".") s2). }
  apply span_app in E3 as [-> Hp]. split; [simpl; by rewrite !app_assoc_s|]. exists sp1, sp2. done.
Qed.



(** The template, put back together. *)
Fixpoint unfind (l : list Placeholder) (tail : string) : string :=
  match l with [] => tail | m :: r => ph_before m +:+ ph_raw m +:+ unfind r tail end.

(** Every suffix of [s ++ k] that starts inside [s] fails to match. *)
Fixpoint no_match (s k : string) : Prop :=
  match s with EmptyString => True | String c r => match_at (String c r +:+ k) = None /\ no_match r k end.

(** The literal parts contain no placeholder. *)
Fixpoint literals_clean (l : list Placeholder) (tail : string) : Prop :=
  match l with
  | [] => no_match tail ""
  | m :: r => no_match (ph_before m) (ph_raw m +:+ unfind r tail) /\ literals_clean r tail
  end.

Lemma no_match_snoc s c k : no_match s (String c k) -> match_at (String c k) = None -> no_match (s +:+ String c "") k.
Proof.
  induction s as [|d s IH]; simpl; [done|]. intros [Hd Hs] Hc. split; [by rewrite app_assoc_s|by apply IH].
Qed.

Lemma find_all_spec fuel before s l tail :
  String.length s < fuel -> no_match before s -> find_all fuel before s = (l, tail) ->
  before +:+ s = unfind l tail /\ Forall (fun m => placeholder_text (ph_raw m) (ph_path m)) l /\
  literals_clean l tail.
Proof.
  revert before s l tail. induction fuel as [|fuel IH]; intros before s l tail Hf Hn; [lia|]. cbn [find_all].
  destruct (match_at s) as [[[path raw] rest]|] eqn:Em.
  - apply match_at_Some in Em as [-> Ht]. destruct (find_all fuel "" rest) as [l' tail'] eqn:E. intros [= <- <-].
    destruct (IH "" rest l' tail') as (Hu & Hall & Hc); [|done|done|].
    { rewrite length_app_s in Hf. destruct Ht as (sp1 & sp2 & -> & _). simpl in Hf. lia. }
    simpl in *. subst rest. split; [done|]. split; [by constructor|]. done.
  - destruct s as [|c r].
    + intros [= <- <-]. rewrite app_nil_r_s. done.
    + intros E. apply IH in E; [|simpl in Hf; lia|by apply no_match_snoc].
      destruct E as (Hu & Hall & Hc). split; [|done]. rewrite <- Hu. by rewrite app_assoc_s.
Qed.

(** the placeholder search is exact: the pieces put back together are the
    template, every piece reported is double braces around a path, and no
    placeholder is left in the text between them. *)
Theorem FindAll_spec template l tail :
  FindAll template = (l, tail) ->
  template = unfind l tail /\ Forall (fun m => placeholder_text (ph_raw m) (ph_path m)) l /\
  literals_clean l tail.
Proof. intros E. by apply find_all_spec in E; [|lia|]. Qed.

(** *** Escaping *)



(** The markup the renderer lets through: that of the text between the
    placeholders, and that of the values it inserts as they are. *)
Section Through.
Context `{GoStd} (injectors : injector_map) (eventVars : fields_map) (systemVars : gmap string string) (escapeHTML : bool).







End Through.


(** ** Witnesses *)

Lemma FindAll_spec_witness :
  let t := "Hi {{ event.name }}, {{{ x }} {{bad path}}" in
  t = unfind (FindAll t).1 (FindAll t).2 /\ literals_clean (FindAll t).1 (FindAll t).2.
Proof.
  intros t. destruct (FindAll_spec t (FindAll t).1 (FindAll t).2) as (H1 & _ & H2); [vm_compute; reflexivity|].
  split; [exact H1|exact H2].
Defined.

