(* ===== verification/Unsubscribe.v ===== *)
(** * The unsubscribe service ([internal/service/unsubscribe.go])

    The public operations behind an unsubscribe token - the landing page, the
    one-click opt-out, the opt-out from everything, the resubscription and the
    preference centre - over the ports the service declares, and their effect
    on the PostgreSQL tables the send path reads. *)
From stdpp Require Import base gmap strings list.
From Stdlib Require Import ZArith Ascii String Lia.
From S2P Require Import Prelude GoMonad Domain Ports Token Suppression Postgres.

Record UnsubscribeContext := mkUnsubscribeContext {
  uc_WorkspaceName : string;
  uc_TemplateTypeSlug : string;
  uc_TemplateTypeName : string;
  uc_Email : string;
  uc_OptedOutOfType : bool;
  uc_OptedOutOfAll : bool;
}.

Record PreferencesEntry := mkPreferencesEntry {
  pf_TemplateTypeSlug : string;
  pf_TemplateTypeName : string;
  pf_Description : option string;
  pf_Subscribed : bool;
  pf_LastReceivedAt : gotime;
}.

Record PreferencesView := mkPreferencesView {
  pv_WorkspaceName : string;
  pv_Email : string;
  pv_OptedOutOfAll : bool;
  pv_Entries : list PreferencesEntry;
}.

Record PreferenceChange := mkPreferenceChange {
  pc_TemplateTypeSlug : string;
  pc_Subscribed : bool;
}.

(** [port.EmailHistoryType]. *)
Record EmailHistoryType := mkEmailHistoryType { eh_Slug : string; eh_LastSentAt : gotime }.

(** The local interfaces of the service; a [*domain.TemplateType] that may be
    nil without an error is an option. *)
Record UnsubscribeService (W : Type) := mkUnsubscribeService {
  us_GetByID : uuid -> M W Workspace;
  us_GetUnsubscribeSigningKey : uuid -> M W string;
  us_FindTypeBySlugInScope : string -> option uuid -> M W (option TemplateType);
  us_GetTypeByID : uuid -> M W (option TemplateType);
  us_AddWorkspace : SuppressionWorkspace -> M W unit;
  us_GetActiveWorkspaceSuppression : uuid -> string -> M W SuppressionWorkspace;
  us_RemoveWorkspaceSuppression : uuid -> string -> string -> M W unit;
  us_Upsert : TemplateTypeSubscription -> M W unit;
  us_GetState : uuid -> uuid -> string -> M W TemplateTypeSubscription;
  us_DistinctTemplateTypesForRecipient : uuid -> string -> gotime -> M W (list EmailHistoryType);
  us_rt : Runtime W;
}.
Arguments us_GetByID {W}. Arguments us_GetUnsubscribeSigningKey {W}.
Arguments us_FindTypeBySlugInScope {W}. Arguments us_GetTypeByID {W}. Arguments us_AddWorkspace {W}.
Arguments us_GetActiveWorkspaceSuppression {W}. Arguments us_RemoveWorkspaceSuppression {W}.
Arguments us_Upsert {W}. Arguments us_GetState {W}. Arguments us_DistinctTemplateTypesForRecipient {W}.
Arguments us_rt {W}.

Section Service.
Context `{GoStd} `{Codec} {W : Type} (svc : UnsubscribeService W).

Definition resolveTemplateType (p : Payload) : M W (option TemplateType) :=
  if negb (bool_decide (tk_TemplateTypeID p = uuid_Nil)) then
    wrap_err (fun e => EWrap ("resolve type by id " +:+ uuid_String (tk_TemplateTypeID p) +:+ ": ") e "")
      (us_GetTypeByID svc (tk_TemplateTypeID p))
  else
    wrap_err (fun e => EWrap ("resolve type " +:+ tk_TemplateTypeSlug p +:+ ": ") e "")
      (us_FindTypeBySlugInScope svc (tk_TemplateTypeSlug p) (Some (tk_WorkspaceID p))).

Definition verify (token : string) : M W Payload :=
  match PeekWorkspaceID token with
  | None => fail (ESent ErrInvalidToken)
  | Some wsID =>
      let! key := wrap_err (fun e => EWrap2 "" (ESent ErrInvalidToken) ": workspace lookup: " e "")
                    (us_GetUnsubscribeSigningKey svc wsID) in
      let! now := Now (us_rt svc) in
      wrap_err (fun e => EWrap2 "" (ESent ErrInvalidToken) ": " e "") (lift_res (Verify token key now))
  end.

(** A lookup whose not-found error means an absent row. *)
Definition found {A} (m : M W A) : M W (option A) :=
  try! r := m in
  match r with
  | Ok a => ret (Some a)
  | Err e => if IsNotFound e then ret None else fail e
  end.

Definition is_unsubscribe (sup : option SuppressionWorkspace) : bool :=
  match sup with Some s => bool_decide (sw_Reason s = SuppressionUnsubscribe) | None => false end.

Definition GetContext (token : string) : M W UnsubscribeContext :=
  let! p := verify token in
  let! ws := wrap_err (fun e => EWrap "workspace name: " e "") (us_GetByID svc (tk_WorkspaceID p)) in
  let! ty := (try! r := resolveTemplateType p in
              match r with
              | Ok ty => ret ty
              | Err e => if IsNotFound e then ret None else fail e
              end) in
  let! optedOutType :=
    match ty with
    | None => ret false
    | Some ty =>
        let! sub := found (us_GetState svc (tk_WorkspaceID p) (tt_ID ty) (tk_Email p)) in
        ret (match sub with Some s => negb (sub_Subscribed s) | None => false end)
    end in
  let! sup := found (us_GetActiveWorkspaceSuppression svc (tk_WorkspaceID p) (tk_Email p)) in
  ret {| uc_WorkspaceName := ws_Name ws; uc_TemplateTypeSlug := tk_TemplateTypeSlug p;
         uc_TemplateTypeName := tk_TemplateTypeName p; uc_Email := tk_Email p;
         uc_OptedOutOfType := optedOutType; uc_OptedOutOfAll := is_unsubscribe sup |}.

(** The rows the recipient's choices write. *)
Definition choice_row (id : uuid) (p : Payload) (ty : TemplateType) (subscribed : bool)
  : TemplateTypeSubscription :=
  {| sub_ID := id; sub_WorkspaceID := tk_WorkspaceID p; sub_TemplateTypeID := tt_ID ty;
     sub_Email := tk_Email p; sub_Subscribed := subscribed;
     sub_Source := if subscribed then SubscriptionSourceRecipientOptin else SubscriptionSourceRecipientOptout;
     sub_SourceEmailID := Some (tk_SourceEmailID p); sub_ActorID := None; sub_Notes := None;
     sub_CreatedAt := time_zero; sub_UpdatedAt := time_zero |}.

Definition suppression_row (id : uuid) (p : Payload) : SuppressionWorkspace :=
  {| sw_ID := id; sw_WorkspaceID := tk_WorkspaceID p; sw_Email := tk_Email p;
     sw_Reason := SuppressionUnsubscribe; sw_SourceEmailID := Some (tk_SourceEmailID p);
     sw_Notes := None; sw_CreatedAt := time_zero; sw_RemovedAt := None; sw_RemovedBy := None;
     sw_RemovalReason := None |}.

Definition type_missing (slug : string) : error :=
  EWrap "" (ESent ErrInvalidToken) (": template type " +:+ slug +:+ " not found").

Definition OneClickOptOut (token : string) : M W unit :=
  let! p := verify token in
  let! ty := resolveTemplateType p in
  match ty with
  | None => fail (type_missing (tk_TemplateTypeSlug p))
  | Some ty =>
      let! id := NewV7 (us_rt svc) in
      us_Upsert svc (choice_row id p ty false)
  end.

Definition OptOutAll (token : string) : M W unit :=
  let! p := verify token in
  let! id := NewV7 (us_rt svc) in
  us_AddWorkspace svc (suppression_row id p).

Definition Resubscribe (token : string) : M W unit :=
  let! p := verify token in
  try! r := us_RemoveWorkspaceSuppression svc (tk_WorkspaceID p) (tk_Email p) "recipient_resubscribe" in
  match r with
  | Ok _ => ret tt
  | Err e => if IsNotFound e then ret tt else fail e
  end.

(** One row of the history: [None] when its type is unknown in the workspace. *)
Definition preference_entry (p : Payload) (h : EmailHistoryType) : M W (option PreferencesEntry) :=
  try! r := us_FindTypeBySlugInScope svc (eh_Slug h) (Some (tk_WorkspaceID p)) in
  match r with
  | Ok (Some ty) =>
      let! sub := found (us_GetState svc (tk_WorkspaceID p) (tt_ID ty) (tk_Email p)) in
      ret (Some {| pf_TemplateTypeSlug := tt_Slug ty; pf_TemplateTypeName := tt_Name ty;
                   pf_Description := tt_Description ty;
                   pf_Subscribed := match sub with Some s => sub_Subscribed s | None => true end;
                   pf_LastReceivedAt := eh_LastSentAt h |})
  | _ => ret None
  end.

Definition GetPreferences (token : string) : M W PreferencesView :=
  let! p := verify token in
  let! ws := us_GetByID svc (tk_WorkspaceID p) in
  let! now := Now (us_rt svc) in
  let! history := us_DistinctTemplateTypesForRecipient svc (tk_WorkspaceID p) (tk_Email p) (AddYears now (-1)) in
  let! sup := found (us_GetActiveWorkspaceSuppression svc (tk_WorkspaceID p) (tk_Email p)) in
  let! entries := for_fold history [] (fun acc h =>
    let! e := preference_entry p h in
    ret (match e with Some e => acc ++ [e] | None => acc end)) in
  ret {| pv_WorkspaceName := ws_Name ws; pv_Email := tk_Email p; pv_OptedOutOfAll := is_unsubscribe sup;
         pv_Entries := entries |}.

Definition apply_change (p : Payload) (c : PreferenceChange) : M W unit :=
  let! ty := wrap_err (fun e => EWrap ("resolve type " +:+ pc_TemplateTypeSlug c +:+ ": ") e "")
               (us_FindTypeBySlugInScope svc (pc_TemplateTypeSlug c) (Some (tk_WorkspaceID p))) in
  match ty with
  | None => fail (type_missing (pc_TemplateTypeSlug c))
  | Some ty =>
      let! id := NewV7 (us_rt svc) in
      us_Upsert svc (choice_row id p ty (pc_Subscribed c))
  end.

Definition UpdatePreferences (token : string) (changes : list PreferenceChange) : M W unit :=
  let! p := verify token in
  for_each changes (apply_change p).
End Service.

(** * The service over PostgreSQL *)

Section PG.
Context `{GoStd} `{Codec} `{!CodecLaws}.

(** The workspaces' keys, the template types and the sending history are
    parameters; the suppression and the subscription tables are the modelled
    ones. *)
Context (GetByID : uuid -> M Sys Workspace) (GetKey : uuid -> M Sys string)
        (FindSlug : string -> option uuid -> M Sys (option TemplateType))
        (GetType_ : uuid -> M Sys (option TemplateType))
        (History : uuid -> string -> gotime -> M Sys (list EmailHistoryType)).

Definition pg_unsubscribe : UnsubscribeService Sys := {|
  us_GetByID := GetByID; us_GetUnsubscribeSigningKey := GetKey;
  us_FindTypeBySlugInScope := FindSlug; us_GetTypeByID := GetType_;
  us_AddWorkspace := AddWorkspace; us_GetActiveWorkspaceSuppression := GetActiveWorkspaceSuppression;
  us_RemoveWorkspaceSuppression := RemoveWorkspaceSuppression; us_Upsert := Upsert; us_GetState := GetState;
  us_DistinctTemplateTypesForRecipient := History; us_rt := sys_runtime;
|}.

(** The token of an email the worker sent: signed when the email left, with the
    key the workspace still has, about a template type that still exists. *)
Record genuine (email : Email) (ty : TemplateType) (issued : gotime) (token : string) : Prop := {
  gen_key : exists key, Generate (unsubscribe_payload email ty issued) key = Ok token /\
              forall s, GetKey (em_WorkspaceID email) s = (Ok key, s);
  gen_utf8 : valid_utf8 (tt_Slug ty) = true /\ valid_utf8 (tt_Name ty) = true /\
             valid_utf8 (CanonicalRecipientAddress (em_RecipientEmail email)) = true;
  gen_ws : em_WorkspaceID email <> uuid_Nil;
  gen_type : tt_ID ty <> uuid_Nil /\ forall s, GetType_ (tt_ID ty) s = (Ok (Some ty), s);
}.

(** What a genuine token verifies to, until a year after it was issued. *)
Lemma verify_genuine email ty issued token s :
  genuine email ty issued token ->
  (sys_clock s <= time_Unix (Unix (AddYears issued 1)))%Z ->
  exists p, verify pg_unsubscribe token s = (Ok p, set_clock Z.succ s) /\
    tk_WorkspaceID p = em_WorkspaceID email /\ tk_TemplateTypeID p = tt_ID ty /\
    tk_Email p = CanonicalRecipientAddress (em_RecipientEmail email).
Proof.
  intros [(key & Hg & Hk) (Hu1 & Hu2 & Hu3) Hw _] Hnow.
  assert (Hv : exists p, Verify token key (sys_clock s) = Ok p /\
    tk_WorkspaceID p = em_WorkspaceID email /\ tk_TemplateTypeID p = tt_ID ty /\
    tk_Email p = CanonicalRecipientAddress (em_RecipientEmail email)).
  { eexists. rewrite (Verify_Generate (unsubscribe_payload email ty issued) key token (sys_clock s) eq_refl Hu1 Hu2 Hu3 Hg).
    rewrite (proj2 (Z.ltb_ge _ _)) by exact Hnow. done. }
  destruct Hv as (p & Hp & Ew & Et & Ee). exists p. split; [|done].
  apply Verify_inv in Hp as Hi. destruct Hi as (_ & _ & _ & _ & Hpeek). rewrite Ew in Hpeek.
  unfold verify. rewrite Hpeek by done. unfold bind, wrap_err. simpl. rewrite Hk.
  unfold Now, total, lift_res. simpl. by rewrite Hp.
Qed.

(** The address an email was sent to is blocked for the type in every batch
    evaluated from [s]. *)
Definition honoured (s : Sys) (wsID ttID : uuid) (address : string) : Prop :=
  forall inputs rs s' i input r,
    EvaluateManyForType SuppressionBatchRepo (Some SubscriptionRepo) wsID ttID inputs s = (Ok rs, s') ->
    inputs !! i = Some input -> rs !! i = Some r ->
    (forall d, d ∈ sev_To r -> CanonicalRecipientAddress (dec_Address d) = address -> dec_Suppressed d = true) /\
    (forall a, CanonicalRecipientAddress a = address -> a ∉ sev_CC r /\ a ∉ sev_BCC r).

(** No row of the suppression tables is about the empty address. *)
Definition no_empty_row (wsID : uuid) (s : Sys) : Prop := suppression_reason s wsID "" = None.

Lemma blocked_honoured s wsID ttID address :
  no_empty_row wsID s -> address <> "" ->
  is_Some (suppression_reason s wsID address) \/ opted_out s wsID ttID address = true ->
  honoured s wsID ttID address.
Proof.
  intros Hn Hne Hb inputs rs s' i input r E Hi Hr.
  pose proof (EvaluateManyForType_ok SuppressionBatchRepo SubscriptionRepo wsID ttID
    (suppression_table wsID) (optout_set wsID ttID) inputs s rs s'
    (SuppressionBatchRepo_table wsID) (SubscriptionRepo_table wsID ttID)) as Hok.
  rewrite suppression_table_lookup in Hok. specialize (Hok Hn E).
  destruct (Forall2_lookup_lr _ _ _ _ _ _ Hok Hi Hr) as (_ & Hto & Hcc).
  assert (Hbl : forall a, CanonicalRecipientAddress a = address ->
            blocked (suppression_table wsID s) (optout_set wsID ttID s) a).
  { intros a Ea. unfold blocked. by rewrite optout_set_spec, suppression_table_lookup, Ea. }
  split.
  - intros d Hd Ea. apply (Hto d Hd); [by rewrite Ea|]. by apply Hbl.
  - intros a Ea. assert (Ha : CanonicalRecipientAddress a <> "") by (by rewrite Ea).
    specialize (Hcc a Ha). specialize (Hbl a Ea). tauto.
Qed.


(** The opt-out of the address [a] leaves the suppression rows alone. *)
Lemma Upsert_blocks s id p ty :
  sys_faults s = [] ->
  exists s', Upsert (choice_row id p ty false) s = (Ok tt, s') /\
    opted_out s' (tk_WorkspaceID p) (tt_ID ty) (tk_Email p) = true /\
    (forall ws a, suppression_reason s' ws a = suppression_reason s ws a).
Proof.
  intros Hf. unfold Upsert. rewrite no_faults_stmt by done. eexists. split; [done|]. split; [|done].
  unfold opted_out. simpl. by rewrite lookup_insert_eq.
Qed.

(** C26: one-click unsubscription is honoured: when the recipient of a bulk email
    posts to the [List-Unsubscribe] link the worker put in it, within a year and
    with the database up, the request succeeds and from then on every batch
    evaluation of that template type marks the address suppressed and drops it
    from CC and BCC, however the address is written. *)
Theorem one_click_honoured email ty issued token s :
  genuine email ty issued token ->
  (sys_clock s <= time_Unix (Unix (AddYears issued 1)))%Z ->
  sys_faults s = [] -> no_empty_row (em_WorkspaceID email) s ->
  CanonicalRecipientAddress (em_RecipientEmail email) <> "" ->
  exists s', OneClickOptOut pg_unsubscribe token s = (Ok tt, s') /\
    honoured s' (em_WorkspaceID email) (tt_ID ty) (CanonicalRecipientAddress (em_RecipientEmail email)).
Proof.
  intros Hgen Hnow Hf Hn Hne. destruct (verify_genuine _ _ _ _ _ Hgen Hnow) as (p & Ev & Ew & Et & Ee).
  destruct Hgen as [_ _ _ [Hnil Hty]]. unfold OneClickOptOut, bind at 1. rewrite Ev.
  unfold resolveTemplateType, bind, wrap_err. rewrite Et, bool_decide_eq_false_2 by done. simpl.
  rewrite Hty. simpl. unfold NewV7, total. simpl.
  match goal with |- context [Upsert (choice_row ?i p ty false) ?s1] =>
    destruct (Upsert_blocks s1 i p ty Hf) as (s' & Es & Ho & Hr) end.
  exists s'. split; [done|]. rewrite Ew, Ee in Ho.
  apply blocked_honoured; [|done|by right]. unfold no_empty_row in *. by rewrite Hr.
Qed.

(** *** What a token can touch *)

(** The rows about one address of one workspace. *)
Definition rows_about (ws ttID : uuid) (a : string) (s : Sys) :=
  (sys_subs s !! (ws, ttID, a), sys_workspace s !! (ws, a)).

Lemma Upsert_rows ws ttID a sub :
  (sub_WorkspaceID sub, sub_Email sub) <> (ws, a) -> preserves (rows_about ws ttID a) (Upsert sub).
Proof.
  intros Hne. apply stmt_frame; [done|]. intros s. unfold rows_about. simpl.
  rewrite lookup_insert_ne; [done|]. congruence.
Qed.

Lemma AddWorkspace_rows ws ttID a sup :
  (sw_WorkspaceID sup, sw_Email sup) <> (ws, a) -> preserves (rows_about ws ttID a) (AddWorkspace sup).
Proof.
  intros Hne. apply stmt_frame; [done|]. intros s. unfold rows_about.
  case_match; simpl; [|done]. by rewrite lookup_insert_ne.
Qed.

Lemma RemoveWorkspace_rows ws ttID a ws' a' r :
  (ws', a') <> (ws, a) -> preserves (rows_about ws ttID a) (RemoveWorkspaceSuppression ws' a' r).
Proof.
  intros Hne. apply stmt_frame; [done|]. intros s. unfold rows_about.
  repeat case_match; simpl; try done. by rewrite lookup_insert_ne.
Qed.

Section Scope.
Context (ws ttID : uuid) (a : string).
Let rows := rows_about ws ttID a.
Context (Hkey : forall id, preserves rows (GetKey id))
        (Hslug : forall s id, preserves rows (FindSlug s id))
        (Htype : forall id, preserves rows (GetType_ id)).

Lemma verify_rows token : preserves rows (verify pg_unsubscribe token).
Proof. unfold verify. preserves_tac; try apply Hkey; intros ?; done. Qed.

Lemma verify_accepts token s p s' :
  verify pg_unsubscribe token s = (Ok p, s') ->
  exists id s0 key s1 now, GetKey id s0 = (Ok key, s1) /\ Verify token key now = Ok p.
Proof.
  unfold verify. destruct (PeekWorkspaceID token) as [id|]; [|done].
  unfold bind, wrap_err, lift_res, Now, total. simpl.
  destruct (GetKey id s) as [[key|] s1] eqn:Ek; [|done]. simpl.
  destruct (Verify token key (sys_clock s1)) eqn:Ev; [|done]. intros [= -> _]. by eauto 8.
Qed.

(** a token speaks for one address of one workspace: whatever the request -
    one click, opt out of everything, resubscribe or a preference form - and
    whatever fails, it changes no row about [a] in [ws] unless the token carries
    a valid signature under a workspace's key for exactly that workspace and
    that address. *)
Theorem token_scope token changes op s :
  op ∈ [OneClickOptOut pg_unsubscribe token; OptOutAll pg_unsubscribe token; Resubscribe pg_unsubscribe token;
        UpdatePreferences pg_unsubscribe token changes] ->
  (forall id s0 key s1 now p, GetKey id s0 = (Ok key, s1) -> Verify token key now = Ok p ->
     (tk_WorkspaceID p, tk_Email p) <> (ws, a)) ->
  rows_about ws ttID a (op s).2 = rows_about ws ttID a s.
Proof.
  intros Hop Hno. revert s. change (preserves rows op).
  assert (Hp : forall p s s', verify pg_unsubscribe token s = (Ok p, s') -> (tk_WorkspaceID p, tk_Email p) <> (ws, a)).
  { intros p s s' (id & s0 & key & s1 & now & Hk & Hv)%verify_accepts. by eapply Hno. }
  assert (Hup : forall p id ty b s s', verify pg_unsubscribe token s = (Ok p, s') ->
            preserves rows (Upsert (choice_row id p ty b))).
  { intros. apply Upsert_rows. by eapply Hp. }
  assert (Hres : forall p, preserves rows (resolveTemplateType pg_unsubscribe p)).
  { intros p. unfold resolveTemplateType. preserves_tac. }
  repeat (apply elem_of_cons in Hop as [->|Hop]; [apply preserves_bind_ok; [apply verify_rows|intros p s0 s1 Hv]|]);
    [| | | |set_solver].
  - preserves_tac; solve [intros ?; done|by eapply Hup].
  - preserves_tac; [intros ?; done|]. apply AddWorkspace_rows. by eapply Hp.
  - preserves_tac. apply RemoveWorkspace_rows. by eapply Hp.
  - apply preserves_for_each. intros c _. unfold apply_change.
    preserves_tac; solve [intros ?; done|by eapply Hup].
Qed.
End Scope.

(** The effect of one row of the workspace table on the suppression check. *)
Lemma suppression_reason_insert s wsID address row ws a :
  suppression_reason (set_workspace <[(wsID, address) := row]> s) ws a =
  if decide ((ws, a) = (wsID, address)) then
    match active_global s address with
    | Some r => Some (SuppressionReason_String (sg_Reason r))
    | None => if bool_decide (sw_RemovedAt row = None) then Some (SuppressionReason_String (sw_Reason row)) else None
    end
  else suppression_reason s ws a.
Proof.
  unfold suppression_reason, active_workspace. simpl. case_decide as Hd.
  - simplify_eq. rewrite lookup_insert_eq.
    change (active_global (set_workspace _ s) address) with (active_global s address).
    destruct (active_global s address); [done|]. by case_bool_decide.
  - by rewrite lookup_insert_ne by congruence.
Qed.

Lemma AddWorkspace_unsubscribe s id p :
  sys_faults s = [] -> suppression_reason s (tk_WorkspaceID p) (tk_Email p) = None ->
  exists row, AddWorkspace (suppression_row id p) s =
      (Ok tt, set_workspace <[(tk_WorkspaceID p, tk_Email p) := row]> s) /\
    sw_RemovedAt row = None /\ sw_Reason row = SuppressionUnsubscribe.
Proof.
  intros Hf Hs. unfold AddWorkspace. rewrite no_faults_stmt by done. simpl.
  unfold suppression_reason, active_workspace in Hs. destruct (active_global _ _); [done|].
  destruct (sys_workspace s !! (tk_WorkspaceID p, tk_Email p)) as [o|] eqn:E; simpl.
  - destruct (bool_decide (sw_RemovedAt o = None)); [done|]. simpl. rewrite orb_true_r. by eexists.
  - by eexists.
Qed.

Lemma RemoveWorkspace_unsubscribe s wsID address row :
  sys_faults s = [] -> active_workspace s wsID address = Some row ->
  sw_Reason row = SuppressionUnsubscribe ->
  exists row', RemoveWorkspaceSuppression wsID address "recipient_resubscribe" s =
      (Ok tt, set_workspace <[(wsID, address) := row']> s) /\ sw_RemovedAt row' <> None.
Proof.
  intros Hf Ha Hr. unfold RemoveWorkspaceSuppression. rewrite no_faults_stmt by done. simpl.
  rewrite Ha, bool_decide_eq_true_2 by done. by eexists.
Qed.

(** C40: opting out of everything and resubscribing: with the database up, an
    address that no row suppresses is suppressed for every type after
    [OptOutAll], the landing page's check sees it, and [Resubscribe] with the
    same token lifts exactly that. *)
Theorem OptOutAll_Resubscribe email ty issued token s :
  genuine email ty issued token ->
  (sys_clock s + 1 <= time_Unix (Unix (AddYears issued 1)))%Z ->
  sys_faults s = [] -> no_empty_row (em_WorkspaceID email) s ->
  let address := CanonicalRecipientAddress (em_RecipientEmail email) in
  address <> "" -> suppression_reason s (em_WorkspaceID email) address = None ->
  exists s1 s2, OptOutAll pg_unsubscribe token s = (Ok tt, s1) /\
    suppression_reason s1 (em_WorkspaceID email) address = Some "unsubscribe" /\
    (forall ttID, honoured s1 (em_WorkspaceID email) ttID address) /\
    Resubscribe pg_unsubscribe token s1 = (Ok tt, s2) /\
    forall ws a, suppression_reason s2 ws a = suppression_reason s ws a.
Proof.
  intros Hgen Hnow Hf Hn address Hne Hfree.
  destruct (verify_genuine _ _ _ _ s Hgen) as (p & Ev & Ew & Et & Ee); [lia|]. fold address in Ee.
  unfold OptOutAll, bind at 1. rewrite Ev. unfold bind, NewV7, total. simpl.
  match goal with |- context [AddWorkspace (suppression_row ?i p) ?s0] =>
    destruct (AddWorkspace_unsubscribe s0 i p Hf) as (row & Es & Hrow) end; [by rewrite Ew, Ee|].
  rewrite Ew, Ee in Es. rewrite Es. set (s1 := set_workspace _ _) in *. exists s1.
  assert (Hr1 : forall ws a, suppression_reason s1 ws a =
    if decide ((ws, a) = (em_WorkspaceID email, address)) then Some "unsubscribe" else suppression_reason s ws a).
  { intros ws a. subst s1. rewrite suppression_reason_insert. case_decide as Hd; [|done].
    destruct Hrow as [-> ->]. 
    unfold suppression_reason in Hfree.
    change (active_global _ address) with (active_global s address). by destruct (active_global s address). }
  destruct (verify_genuine _ _ _ _ s1 Hgen) as (p1 & Ev1 & Ew1 & Et1 & Ee1); [simpl; lia|]. fold address in Ee1.
  destruct (RemoveWorkspace_unsubscribe (set_clock Z.succ s1) (em_WorkspaceID email) address row) as (row' & Es2 & Hrow2).
  { done. }
  { subst s1. unfold active_workspace. simpl. rewrite lookup_insert_eq. destruct Hrow as [-> _].
    by rewrite bool_decide_eq_true_2. }
  { apply Hrow. }
  eexists. split; [done|]. split; [|split; [|split]].
  - rewrite Hr1. by rewrite decide_True.
  - intros ttID. apply blocked_honoured; [|done|left; rewrite Hr1; by rewrite decide_True].
    unfold no_empty_row. rewrite Hr1, decide_False; [done|congruence].
  - unfold Resubscribe, bind at 1. rewrite Ev1. unfold try. simpl. by rewrite Ew1, Ee1, Es2.
  - intros ws a. rewrite suppression_reason_insert. case_decide as Hd.
    + injection Hd as -> ->. rewrite (bool_decide_eq_false_2 _ Hrow2), Hfree.
      unfold suppression_reason in Hfree.
      change (active_global _ address) with (active_global s address). by destruct (active_global s address).
    + change (suppression_reason (set_clock Z.succ s1) ws a) with (suppression_reason s1 ws a).
      rewrite Hr1. by rewrite decide_False.
Qed.
End PG.

(** ** Witnesses *)

#[local] Instance unsubscribe_codec : Codec := sample_codec.
#[local] Instance unsubscribe_std : GoStd := ascii_std.

Definition sample_unsubscribe : UnsubscribeService Sys :=
  pg_unsubscribe (fun _ => fail (ESent ErrNotFound)) (fun _ => ret sample_key)
    (fun _ _ => ret None) (fun _ => ret (Some sample_type)) (fun _ _ _ => ret []).

(** The token of a welcome email to a mixed-case address, signed at time 0. *)
Definition sample_token : string :=
  match Generate (unsubscribe_payload (sample_email StatusSent "User@X.io") sample_type 0) sample_key with
  | Ok t => t
  | Err _ => ""
  end.

Lemma sample_genuine :
  genuine (fun _ => ret sample_key) (fun _ => ret (Some sample_type))
    (sample_email StatusSent "User@X.io") sample_type 0 sample_token.
Proof.
  split.
  - exists sample_key. split; vm_compute; reflexivity.
  - repeat split; vm_compute; reflexivity.
  - discriminate.
  - split; [discriminate|done].
Qed.

Lemma one_click_honoured_witness :
  exists s', OneClickOptOut sample_unsubscribe sample_token empty_sys = (Ok tt, s') /\
    honoured s' 7 20 "user@x.io".
Proof.
  apply (one_click_honoured (H1 := sample_codec_laws) (fun _ => fail (ESent ErrNotFound)) (fun _ => ret sample_key)
    (fun _ _ => ret None) (fun _ => ret (Some sample_type)) (fun _ _ _ => ret [])
    (sample_email StatusSent "User@X.io") sample_type 0 sample_token empty_sys sample_genuine).
  - vm_compute. discriminate.
  - reflexivity.
  - reflexivity.
  - discriminate.
Defined.

Lemma OptOutAll_Resubscribe_witness :
  exists s1 s2, OptOutAll sample_unsubscribe sample_token empty_sys = (Ok tt, s1) /\
    suppression_reason s1 7 "user@x.io" = Some "unsubscribe" /\
    (forall ttID, honoured s1 7 ttID "user@x.io") /\
    Resubscribe sample_unsubscribe sample_token s1 = (Ok tt, s2) /\
    forall ws a, suppression_reason s2 ws a = suppression_reason empty_sys ws a.
Proof.
  apply (OptOutAll_Resubscribe (H1 := sample_codec_laws) (fun _ => fail (ESent ErrNotFound)) (fun _ => ret sample_key)
    (fun _ _ => ret None) (fun _ => ret (Some sample_type)) (fun _ _ _ => ret [])
    (sample_email StatusSent "User@X.io") sample_type 0 sample_token empty_sys sample_genuine).
  - vm_compute. discriminate.
  - reflexivity.
  - reflexivity.
  - discriminate.
  - reflexivity.
Defined.

(** The sample token cannot touch another address. *)
Lemma token_scope_witness :
  rows_about 7 20 "other@x.io" (OptOutAll sample_unsubscribe sample_token empty_sys).2
  = rows_about 7 20 "other@x.io" empty_sys.
Proof.
  apply (token_scope (H0 := sample_codec) (H1 := sample_codec_laws) (fun _ => fail (ESent ErrNotFound)) (fun _ => ret sample_key)
    (fun _ _ => ret None) (fun _ => ret (Some sample_type)) (fun _ _ _ => ret []) 7 20 "other@x.io"
    (fun _ => preserves_ret _ _) (fun _ _ => preserves_ret _ _) (fun _ => preserves_ret _ _) sample_token [] _ empty_sys).
  - apply elem_of_cons. right. apply elem_of_cons. left. reflexivity.
  - intros id s0 key s1 now p [= <- _] Hv. revert Hv.
    rewrite (Verify_Generate (H0 := sample_codec_laws)
      (unsubscribe_payload (sample_email StatusSent "User@X.io") sample_type 0) sample_key sample_token now);
      [|vm_compute; reflexivity..].
    case_match; [done|]. intros [= <-]. vm_compute. discriminate.
Defined.
