(* ===== verification/Webhooks.v ===== *)
(** * Webhooks ([service/webhook.go], [river/webhook_worker.go], [pkg/netutil])

    The dispatch of an event to the subscribed endpoints of a workspace, the
    delivery worker with its guard against requests to internal hosts, and the
    failure counter that disables an endpoint after ten failures in a row. *)
From stdpp Require Import base gmap strings list.
From Stdlib Require Import ZArith Ascii String Lia Btauto.
From S2P Require Import Prelude GoMonad Domain Ports Token Suppression Postgres.

(** ** [pkg/netutil]

    A parsed address is its 128-bit value; an IPv4 address is the IPv4-mapped
    IPv6 address, which [net.IP] treats alike. *)

Definition ip_byte (ip : Z) (i : Z) : Z := ((ip / 2 ^ (8 * (15 - i))) mod 256)%Z.

(** [ip.To4()]: its four bytes are 12 to 15. *)
Definition is_v4 (ip : Z) : bool := (ip / 2 ^ 32 =? 65535)%Z.
Definition v4 (a b c d : Z) : Z := (65535 * 2 ^ 32 + a * 2 ^ 24 + b * 2 ^ 16 + c * 2 ^ 8 + d)%Z.

Definition IsUnspecified (ip : Z) : bool := ((ip =? v4 0 0 0 0) || (ip =? 0))%Z.
Definition IsLoopback (ip : Z) : bool :=
  if is_v4 ip then (ip_byte ip 12 =? 127)%Z else (ip =? 1)%Z.
Definition IsPrivate (ip : Z) : bool :=
  (if is_v4 ip then
    (ip_byte ip 12 =? 10) || ((ip_byte ip 12 =? 172) && (Z.land (ip_byte ip 13) 240 =? 16))
    || ((ip_byte ip 12 =? 192) && (ip_byte ip 13 =? 168))
  else Z.land (ip_byte ip 0) 254 =? 252)%Z.
Definition IsLinkLocalUnicast (ip : Z) : bool :=
  (if is_v4 ip then (ip_byte ip 12 =? 169) && (ip_byte ip 13 =? 254)
   else (ip_byte ip 0 =? 254) && (Z.land (ip_byte ip 1) 192 =? 128))%Z.
Definition IsLinkLocalMulticast (ip : Z) : bool :=
  (if is_v4 ip then (ip_byte ip 12 =? 224) && (ip_byte ip 13 =? 0) && (ip_byte ip 14 =? 0)
   else (ip_byte ip 0 =? 255) && (Z.land (ip_byte ip 1) 15 =? 2))%Z.

(** [169.254.169.254] and [fd00:ec2::254]. *)
Definition aws_metadata_v4 : Z := v4 169 254 169 254.
Definition aws_metadata_v6 : Z := (64768 * 2 ^ 112 + 3778 * 2 ^ 96 + 596)%Z.

(** [cgnat.Contains(ip)]: IPv4 only, the first ten bits of the address. *)
Definition cgnat_contains (ip : Z) : bool :=
  is_v4 ip && ((ip_byte ip 12 =? 100) && (Z.land (ip_byte ip 13) 192 =? 64))%Z.

Definition blocked_ip (ip : Z) : bool :=
  if IsLoopback ip || IsPrivate ip || IsLinkLocalUnicast ip || IsLinkLocalMulticast ip then true
  else if IsUnspecified ip then true
  else if (ip =? aws_metadata_v4)%Z then true
  else if (ip =? aws_metadata_v6)%Z then true
  else cgnat_contains ip.

(** The loop over the addresses; [None] is a string [net.ParseIP] refuses. *)
Fixpoint any_blocked (ips : list (option Z)) : bool :=
  match ips with
  | [] => false
  | None :: r => any_blocked r
  | Some ip :: r => if blocked_ip ip then true else any_blocked r
  end.

(** [ips] is the answer of the resolver, parsed. *)
Definition IsPrivateOrReservedHost (ips : Res (list (option Z))) : bool :=
  match ips with Err _ => true | Ok ips => any_blocked ips end.

(** ** [WebhookService] *)

Record WebhookService (W : Type) := mkWebhookService {
  whs_GetActiveByWorkspace : uuid -> M W (list Webhook);
  whs_EnqueueWebhook : WebhookJob -> M W unit;
}.
Arguments whs_GetActiveByWorkspace {W}. Arguments whs_EnqueueWebhook {W}.

(** [payload] is the outcome of marshalling the event. *)
Definition Dispatch {W} (s : WebhookService W) (workspaceID : uuid) (eventType : string)
    (payload : Res string) : M W unit :=
  try! r := whs_GetActiveByWorkspace s workspaceID in
  match r with
  | Err _ => ret tt
  | Ok webhooks =>
      if bool_decide (webhooks = []) then ret tt
      else match payload with
           | Err _ => ret tt
           | Ok payloadBytes =>
               for_each webhooks (fun wh =>
                 if negb (SubscribesTo wh eventType) then ret tt
                 else ignore (whs_EnqueueWebhook s
                        {| wj_WebhookID := wh_ID wh; wj_EventType := eventType;
                           wj_Payload := payloadBytes; wj_RetryCount := 0 |}))
           end
  end.

(** ** [WebhookWorker] *)

Record WebhookWorker (W : Type) := mkWebhookWorker {
  ww_GetByID : uuid -> M W Webhook;
  ww_ResetFailureCount : uuid -> M W unit;
  ww_IncrementFailureCount : uuid -> M W (Z * bool);
  (** [http.Client.Do]: the status code *)
  ww_Do : string -> string -> gmap string string -> M W Z;
  (** [net.LookupHost] and [net.ParseIP] of each answer *)
  ww_LookupHost : string -> M W (list (option Z));
  (** [url.Parse] with [Hostname] *)
  ww_Hostname : string -> Res string;
  (** [http.NewRequestWithContext] *)
  ww_NewRequest : string -> Res unit;
  ww_rt : Runtime W;
}.
Arguments ww_GetByID {W}. Arguments ww_ResetFailureCount {W}. Arguments ww_IncrementFailureCount {W}.
Arguments ww_Do {W}. Arguments ww_LookupHost {W}. Arguments ww_Hostname {W}. Arguments ww_NewRequest {W}.
Arguments ww_rt {W}.

(** [WebhookJobArgs] are those of the job; [InsertOpts] of the webhook jobs. *)
Definition webhook_MaxAttempts : Z := 6.

Section Worker.
Context `{GoStd} `{Codec} {W : Type} (w : WebhookWorker W).

Definition signPayload (secret timestamp payload : string) : string :=
  "sha256=" +:+ HexEncode (hmac_sha256 secret (timestamp +:+ "." +:+ payload)).

Definition handleFailure (wh : Webhook) (err : error) : M W JobOutcome :=
  ignore (ww_IncrementFailureCount w (wh_ID wh)) ;;;
  fail err.

Definition handlePermanentFailure (wh : Webhook) (err : error) : M W JobOutcome :=
  ignore (ww_IncrementFailureCount w (wh_ID wh)) ;;;
  ret (JobCancel err).

(** 5. the response status. *)
Definition evaluate_response (wh : Webhook) (status : Z) : M W JobOutcome :=
  if (200 <=? status)%Z && (status <? 300)%Z then
    (if (0 <? wh_ConsecutiveFailures wh)%Z then ignore (ww_ResetFailureCount w (wh_ID wh)) else ret tt) ;;;
    ret JobDone
  else if (status =? 429)%Z || (500 <=? status)%Z then
    handleFailure wh (EMsg ("webhook: transient error status=" +:+ Itoa status))
  else
    handlePermanentFailure wh (EMsg ("webhook: permanent error status=" +:+ Itoa status)).

Definition webhook_headers (wh : Webhook) (args : WebhookJob) (timestamp : string) : gmap string string :=
  {["Content-Type" := "application/json"; "X-Senda-Event" := wj_EventType args;
    "X-Senda-Signature" := signPayload (wh_Secret wh) timestamp (wj_Payload args);
    "X-Senda-Timestamp" := timestamp; "User-Agent" := "Senda-Webhook/1.0"]}.

(** 3-5. sign, post and evaluate. *)
Definition post (wh : Webhook) (args : WebhookJob) : M W JobOutcome :=
  let! now := Now (ww_rt w) in
  let timestamp := Itoa (Unix now) in
  match ww_NewRequest w (wh_URL wh) with
  | Err e => ret (JobCancel (EWrap ("webhook: invalid url " +:+ Quote (wh_URL wh) +:+ ": ") e ""))
  | Ok _ =>
      try! resp := ww_Do w (wh_URL wh) (wj_Payload args) (webhook_headers wh args timestamp) in
      match resp with
      | Err e => handleFailure wh (EWrap "webhook: http error: " e "")
      | Ok status => evaluate_response wh status
      end
  end.

Definition WebhookWork (args : WebhookJob) : M W JobOutcome :=
  try! r := ww_GetByID w (wj_WebhookID args) in
  match r with
  | Err e => ret (JobCancel (EWrap ("webhook: not found id=" +:+ uuid_String (wj_WebhookID args) +:+ ": ") e ""))
  | Ok wh =>
      let blocked := ret (JobCancel (EMsg ("webhook URL blocked: " +:+ wh_URL wh))) in
      if negb (wh_IsActive wh) then
        ret (JobCancel (EMsg ("webhook: endpoint " +:+ uuid_String (wj_WebhookID args) +:+ " is disabled")))
      else match ww_Hostname w (wh_URL wh) with
           | Err _ => blocked
           | Ok host =>
               try! ips := ww_LookupHost w host in
               if IsPrivateOrReservedHost ips then blocked else post wh args
           end
  end.

Definition webhook_NextRetry (attempt : Z) : M W gotime :=
  let backoff := wrap64 (wrap64 (30 * shl1 (wrap64 (attempt - 1))) * Second) in
  let! now := Now (ww_rt w) in
  ret (now + backoff)%Z.
End Worker.

(** * Theorems *)

(** ** The guard against internal hosts *)

(** The address ranges a webhook may not point to, as prefixes: loopback,
    RFC 1918, shared address space, link-local, link-local multicast, the
    unspecified addresses and the IPv6 counterparts. *)
Definition reserved_prefixes : list (Z * Z) :=
  [(v4 127 0 0 0, 104); (v4 10 0 0 0, 104); (v4 172 16 0 0, 108); (v4 192 168 0 0, 112);
   (v4 169 254 0 0, 112); (v4 224 0 0 0, 120); (v4 100 64 0 0, 106); (v4 0 0 0 0, 128);
   (0, 128); (1, 128); (252 * 2 ^ 120, 7); (65152 * 2 ^ 112, 10)]%Z
  ++ ((fun k => ((65280 + 16 * Z.of_nat k + 2) * 2 ^ 112, 16)) <$> seq 0 16)%Z.

Definition in_prefix (ip : Z) (p : Z * Z) : bool :=
  (ip / 2 ^ (128 - p.2) =? p.1 / 2 ^ (128 - p.2))%Z.

(** A statement about a byte is checked on the 256 bytes. *)
Lemma byte_cases (p : Z -> bool) b :
  (0 <= b < 256)%Z -> forallb (fun n => p (Z.of_nat n)) (seq 0 256) = true -> p b = true.
Proof.
  intros Hb Hf. rewrite forallb_forall in Hf. rewrite <- (Z2Nat.id b) by lia.
  apply Hf. apply in_seq. lia.
Qed.

Lemma land_240 b : (0 <= b < 256)%Z -> (Z.land b 240 =? 16)%Z = (b / 16 =? 1)%Z.
Proof. intros Hb. apply eqb_prop. by apply (byte_cases (fun b => Bool.eqb (Z.land b 240 =? 16) (b / 16 =? 1))%Z). Qed.
Lemma land_254 b : (0 <= b < 256)%Z -> (Z.land b 254 =? 252)%Z = (b / 2 =? 126)%Z.
Proof. intros Hb. apply eqb_prop. by apply (byte_cases (fun b => Bool.eqb (Z.land b 254 =? 252) (b / 2 =? 126))%Z). Qed.
Lemma land_192 b k : (0 <= b < 256)%Z -> (k = 1 \/ k = 2)%Z -> (Z.land b 192 =? 64 * k)%Z = (b / 64 =? k)%Z.
Proof.
  intros Hb [-> | ->]; apply eqb_prop.
  - by apply (byte_cases (fun b => Bool.eqb (Z.land b 192 =? 64 * 1) (b / 64 =? 1))%Z).
  - by apply (byte_cases (fun b => Bool.eqb (Z.land b 192 =? 64 * 2) (b / 64 =? 2))%Z).
Qed.
Lemma land_15 b : (0 <= b < 256)%Z -> (Z.land b 15 =? 2)%Z = (b mod 16 =? 2)%Z.
Proof. intros Hb. apply eqb_prop. by apply (byte_cases (fun b => Bool.eqb (Z.land b 15 =? 2) (b mod 16 =? 2))%Z). Qed.

Lemma ip_byte_range ip i : (0 <= ip_byte ip i < 256)%Z.
Proof. unfold ip_byte. apply Z.mod_pos_bound. lia. Qed.

(** Boolean comparisons agree when the propositions do. *)
Lemma eqb_iff a b c d : (a = b <-> c = d)%Z -> (a =? b)%Z = (c =? d)%Z.
Proof. intros H. destruct (Z.eqb_spec a b), (Z.eqb_spec c d); tauto. Qed.
Lemma andb_eqb_iff a b c d e f : (a = b /\ c = d <-> e = f)%Z -> (a =? b)%Z && (c =? d)%Z = (e =? f)%Z.
Proof. intros H. destruct (Z.eqb_spec a b), (Z.eqb_spec c d), (Z.eqb_spec e f); simpl; tauto. Qed.

(** The leading bits of an address, by nested divisions. *)
Ltac prefix_test :=
  unfold in_prefix, is_v4, ip_byte; cbn [fst snd];
  repeat match goal with
  | |- context [(2 ^ ?k)%Z] => let v := eval vm_compute in (2 ^ k)%Z in change (2 ^ k)%Z with v
  end;
  apply andb_eqb_iff; Z.to_euclidean_division_equations; lia.

Section Ranges.
Context (ip : Z) (Hip : (0 <= ip < 2 ^ 128)%Z).

Lemma test_v4_8 a : (0 <= a < 256)%Z ->
  is_v4 ip && (ip_byte ip 12 =? a)%Z = in_prefix ip (v4 a 0 0 0, 104)%Z.
Proof. intros Ha. unfold v4. prefix_test. Qed.
Lemma test_v4_16 a b : (0 <= a < 256)%Z -> (0 <= b < 256)%Z ->
  is_v4 ip && ((ip_byte ip 12 =? a)%Z && (ip_byte ip 13 =? b)%Z) = in_prefix ip (v4 a b 0 0, 112)%Z.
Proof.
  intros Ha Hb. rewrite (andb_eqb_iff _ _ _ _ (ip / 2 ^ 16 mod 65536) (a * 256 + b)).
  - unfold v4. prefix_test.
  - unfold ip_byte. cbn. Z.to_euclidean_division_equations. lia.
Qed.
Lemma test_v4_24 a b c : (0 <= a < 256)%Z -> (0 <= b < 256)%Z -> (0 <= c < 256)%Z ->
  is_v4 ip && ((ip_byte ip 12 =? a)%Z && (ip_byte ip 13 =? b)%Z && (ip_byte ip 14 =? c)%Z)
  = in_prefix ip (v4 a b c 0, 120)%Z.
Proof.
  intros Ha Hb Hc.
  rewrite (andb_eqb_iff (ip_byte ip 12) a _ b (ip / 2 ^ 16 mod 65536) (a * 256 + b)),
    (andb_eqb_iff _ _ _ _ (ip / 2 ^ 8 mod 16777216) (a * 65536 + b * 256 + c)).
  - unfold v4. prefix_test.
  - unfold ip_byte. cbn. Z.to_euclidean_division_equations. lia.
  - unfold ip_byte. cbn. Z.to_euclidean_division_equations. lia.
Qed.
Lemma test_v4_12 : is_v4 ip && ((ip_byte ip 12 =? 172)%Z && (Z.land (ip_byte ip 13) 240 =? 16)%Z)
  = in_prefix ip (v4 172 16 0 0, 108)%Z.
Proof.
  rewrite land_240 by apply ip_byte_range.
  rewrite (andb_eqb_iff _ 172 _ _ (ip / 2 ^ 20 mod 4096) (172 * 16 + 1)).
  - unfold v4. prefix_test.
  - unfold ip_byte. cbn. Z.to_euclidean_division_equations. lia.
Qed.
Lemma test_v4_10 : is_v4 ip && ((ip_byte ip 12 =? 100)%Z && (Z.land (ip_byte ip 13) 192 =? 64)%Z)
  = in_prefix ip (v4 100 64 0 0, 106)%Z.
Proof.
  rewrite (land_192 _ 1) by (try apply ip_byte_range; lia).
  rewrite (andb_eqb_iff _ 100 _ _ (ip / 2 ^ 22 mod 1024) (100 * 4 + 1)).
  - unfold v4. prefix_test.
  - unfold ip_byte. cbn. Z.to_euclidean_division_equations. lia.
Qed.

(** The IPv6 ranges start with a non-zero byte, so no IPv4 address is in them. *)
Lemma v6_guard (t : bool) k v : (k = 112 \/ k = 118 \/ k = 121)%Z -> (0 < v)%Z ->
  t = (ip / 2 ^ k =? v)%Z -> negb (is_v4 ip) && t = t.
Proof.
  intros Hk Hv ->. destruct (Z.eqb_spec (ip / 2 ^ k) v) as [E|]; [|by rewrite andb_false_r].
  unfold is_v4. destruct (Z.eqb_spec (ip / 2 ^ 32) 65535) as [E2|]; [exfalso|done].
  assert (Hlt : (ip < 2 ^ 48)%Z) by (revert E2; clear; cbn; Z.to_euclidean_division_equations; lia).
  rewrite Z.div_small in E; [lia|]. split; [lia|].
  destruct Hk as [-> |[-> | ->] ]; lia.
Qed.

Lemma test_v6_7 : negb (is_v4 ip) && (Z.land (ip_byte ip 0) 254 =? 252)%Z
  = in_prefix ip (252 * 2 ^ 120, 7)%Z.
Proof.
  assert (E : (Z.land (ip_byte ip 0) 254 =? 252)%Z = in_prefix ip (252 * 2 ^ 120, 7)%Z).
  { rewrite land_254 by apply ip_byte_range. unfold in_prefix, ip_byte. apply eqb_iff. cbn.
    cbn in Hip. Z.to_euclidean_division_equations. lia. }
  rewrite <- E. eapply (v6_guard _ 121 126); [lia..|]. by rewrite E.
Qed.
Lemma test_v6_10 : negb (is_v4 ip) && ((ip_byte ip 0 =? 254)%Z && (Z.land (ip_byte ip 1) 192 =? 128)%Z)
  = in_prefix ip (65152 * 2 ^ 112, 10)%Z.
Proof.
  assert (E : (ip_byte ip 0 =? 254)%Z && (Z.land (ip_byte ip 1) 192 =? 128)%Z = in_prefix ip (65152 * 2 ^ 112, 10)%Z).
  { rewrite (land_192 _ 2) by (try apply ip_byte_range; lia). unfold in_prefix, ip_byte.
    apply andb_eqb_iff. cbn. cbn in Hip. Z.to_euclidean_division_equations. lia. }
  rewrite <- E. eapply (v6_guard _ 118 1018); [lia..|]. by rewrite E.
Qed.
Lemma test_v6_multicast : negb (is_v4 ip) && ((ip_byte ip 0 =? 255)%Z && (Z.land (ip_byte ip 1) 15 =? 2)%Z)
  = existsb (in_prefix ip) ((fun k => ((65280 + 16 * Z.of_nat k + 2) * 2 ^ 112, 16)) <$> seq 0 16)%Z.
Proof.
  rewrite land_15 by apply ip_byte_range. apply eq_true_iff_eq.
  rewrite existsb_exists, !andb_true_iff, !Z.eqb_eq. split.
  - intros (_ & H0 & H1). exists ((65280 + 16 * (ip_byte ip 1 / 16) + 2) * 2 ^ 112, 16)%Z. split.
    + apply list_elem_of_In, list_elem_of_fmap. exists (Z.to_nat (ip_byte ip 1 / 16)).
      assert (Hk : (0 <= ip_byte ip 1 / 16 < 16)%Z)
        by (pose proof (ip_byte_range ip 1); Z.to_euclidean_division_equations; lia).
      rewrite elem_of_seq, Z2Nat.id by lia. split; [done|lia].
    + unfold in_prefix. cbn [fst snd]. apply Z.eqb_eq. rewrite Z.div_mul by lia.
      revert H0 H1. unfold ip_byte. cbn. cbn in Hip. Z.to_euclidean_division_equations. lia.
  - intros (p & Hp & E). apply list_elem_of_In, list_elem_of_fmap in Hp as (k & -> & Hk%elem_of_seq).
    unfold in_prefix in E. cbn [fst snd] in E. apply Z.eqb_eq in E. rewrite Z.div_mul in E by lia.
    split.
    + rewrite <- (v6_guard true 112 (65280 + 16 * Z.of_nat k + 2)%Z); [by rewrite andb_true_r|lia..|].
      symmetry. by apply Z.eqb_eq.
    + revert E. unfold ip_byte. cbn. cbn in Hip. Z.to_euclidean_division_equations. lia.
Qed.

Lemma test_exact a : (ip =? a)%Z = in_prefix ip (a, 128)%Z.
Proof. unfold in_prefix. cbn. by rewrite !Z.div_1_r. Qed.

Lemma blocked_ip_ranges : blocked_ip ip = existsb (in_prefix ip) reserved_prefixes.
Proof.
  unfold reserved_prefixes. rewrite existsb_app. cbn [existsb].
  rewrite <- !test_v4_8, <- !test_v4_16, <- test_v4_24, <- test_v4_12, <- test_v4_10, <- test_v6_7,
    <- test_v6_10, <- test_v6_multicast, <- !test_exact by lia.
  assert (Hm4 : (ip =? aws_metadata_v4)%Z = true ->
            is_v4 ip && ((ip_byte ip 12 =? 169)%Z && (ip_byte ip 13 =? 254)%Z) = true).
  { intros ->%Z.eqb_eq. reflexivity. }
  assert (Hm6 : (ip =? aws_metadata_v6)%Z = true ->
            negb (is_v4 ip) && (Z.land (ip_byte ip 0) 254 =? 252)%Z = true).
  { intros ->%Z.eqb_eq. reflexivity. }
  assert (H1 : (ip =? 1)%Z = true -> is_v4 ip = false) by (by intros ->%Z.eqb_eq).
  unfold blocked_ip, IsLoopback, IsPrivate, IsLinkLocalUnicast, IsLinkLocalMulticast, IsUnspecified, cgnat_contains.
  destruct (ip =? aws_metadata_v4)%Z, (ip =? aws_metadata_v6)%Z, (ip =? 1)%Z, (is_v4 ip);
    try discriminate (H1 eq_refl); try discriminate (Hm6 eq_refl); try (rewrite (Hm4 eq_refl));
    cbn [andb negb] in *; try (rewrite (Hm4 eq_refl)); try (rewrite (Hm6 eq_refl)); btauto.
Qed.

(** the address test behind webhook delivery is membership in the list of
    reserved ranges: an address is refused exactly when one of the prefixes
    contains it (the two cloud-metadata addresses lie in ranges that are already
    refused). *)
Theorem blocked_ip_spec : blocked_ip ip = existsb (in_prefix ip) reserved_prefixes.
Proof. apply blocked_ip_ranges. Qed.
End Ranges.

Lemma blocked_ip_spec_witness :
  blocked_ip (v4 172 31 255 255) = true /\ blocked_ip (v4 172 32 0 1) = false.
Proof.
  split; rewrite blocked_ip_spec; [vm_compute; reflexivity|split; vm_compute; congruence|
    vm_compute; reflexivity|split; vm_compute; congruence].
Defined.

Lemma any_blocked_spec ips :
  any_blocked ips = false <-> forall ip, Some ip ∈ ips -> blocked_ip ip = false.
Proof.
  induction ips as [|[ip|] r IH]; simpl; [set_solver| |].
  - destruct (blocked_ip ip) eqn:E.
    + split; [done|]. intros Hf. rewrite Hf in E by set_solver. done.
    + rewrite IH. split; [|set_solver]. intros Hf ip' [[= ->]|?]%elem_of_cons; auto.
  - rewrite IH. set_solver.
Qed.

(** ** The worker over PostgreSQL *)

Section PG.
Context `{GoStd} `{Codec}.

(** The endpoint's answer, the resolver's answer and the URL functions are
    parameters; both answers may change with time. *)
Context (respond : Sys -> string -> Res Z) (dns : Sys -> string -> Res (list (option Z)))
        (Hostname : string -> Res string) (NewRequest : string -> Res unit).

Definition pg_webhooks : WebhookWorker Sys := {|
  ww_GetByID := GetWebhookByID; ww_ResetFailureCount := ResetFailureCount;
  ww_IncrementFailureCount := IncrementFailureCount;
  ww_Do := fun url body headers s => (respond s url, set_log (fun l => l ++ [APost url body headers]) s);
  ww_LookupHost := fun host s => (dns s host, s);
  ww_Hostname := Hostname; ww_NewRequest := NewRequest; ww_rt := sys_runtime;
|}.

(** What the worker's own lookup of the host answers in the run from [s]: it is
    made once the row is loaded. *)
Definition looked_up (args : WebhookJob) (s : Sys) (host : string) : Res (list (option Z)) :=
  dns (GetWebhookByID (wj_WebhookID args) s).2 host.

(** What a request that leaves the process must satisfy. *)
Definition legitimate_post (args : WebhookJob) (s : Sys) (a : Action) : Prop :=
  exists wh host ips t,
    sys_webhooks s !! wj_WebhookID args = Some wh /\ wh_IsActive wh = true /\
    Hostname (wh_URL wh) = Ok host /\ looked_up args s host = Ok ips /\
    (forall ip, Some ip ∈ ips -> (0 <= ip < 2 ^ 128)%Z -> existsb (in_prefix ip) reserved_prefixes = false) /\
    let hdrs := webhook_headers wh args t in
    a = APost (wh_URL wh) (wj_Payload args) hdrs /\
    hdrs !! "X-Senda-Timestamp" = Some t /\
    hdrs !! "X-Senda-Signature" =
      Some ("sha256=" +:+ HexEncode (hmac_sha256 (wh_Secret wh) (t +:+ "." +:+ wj_Payload args))).

Lemma failures_log wh : preserves effects (ww_IncrementFailureCount pg_webhooks (wh_ID wh)).
Proof. unfold ww_IncrementFailureCount, pg_webhooks. repo_frame. Qed.
Lemma reset_log wh : preserves effects (ww_ResetFailureCount pg_webhooks (wh_ID wh)).
Proof. unfold ww_ResetFailureCount, pg_webhooks. repo_frame. Qed.

Lemma evaluate_log wh r : preserves effects
  (match r with
   | Err e => handleFailure pg_webhooks wh (EWrap "webhook: http error: " e "")
   | Ok status => evaluate_response pg_webhooks wh status
   end).
Proof.
  unfold evaluate_response, handleFailure, handlePermanentFailure.
  preserves_tac; (apply failures_log || apply reset_log).
Qed.

Lemma hdr_lookup wh args t :
  webhook_headers wh args t !! "X-Senda-Timestamp" = Some t /\
  webhook_headers wh args t !! "X-Senda-Signature" = Some (signPayload (wh_Secret wh) t (wj_Payload args)).
Proof.
  unfold webhook_headers. split.
  - by rewrite !lookup_insert_ne, lookup_insert_eq by done.
  - by rewrite !lookup_insert_ne, lookup_insert_eq by done.
Qed.

(** C28: a delivery makes at most one request, to the URL of the stored webhook,
    only while the webhook is active and only when every address the worker's
    own lookup of the host answered in this run, between loading the webhook and
    the request, lies outside the reserved ranges; the body is the job's and the
    signature header is the MAC of timestamp and body under the webhook's
    secret, whatever fails. (The HTTP client resolves the host once more when it
    connects, and that answer is not checked.) *)
Theorem WebhookWork_posts args s :
  logs_at effects (legitimate_post args s) (WebhookWork pg_webhooks args) s.
Proof.
  unfold WebhookWork. apply logs_try; [unfold ww_GetByID, pg_webhooks; repo_frame|].
  intros [wh|e] s1 E; [|apply logs_preserves, preserves_ret].
  assert (Hs1 : (GetWebhookByID (wj_WebhookID args) s).2 = s1) by (unfold ww_GetByID in E; simpl in E; by rewrite E).
  assert (Hwh : sys_webhooks s !! wj_WebhookID args = Some wh).
  { apply stmt_cases in E as (fs & [E|[(m & [=] & _)|(m & [=] & _)]]). simpl in E.
    destruct (sys_webhooks s !! wj_WebhookID args) eqn:El; [|done]. congruence. }
  destruct (wh_IsActive wh) eqn:Ha; [|apply logs_preserves, preserves_ret]. cbn [negb].
  destruct (ww_Hostname pg_webhooks (wh_URL wh)) as [host|] eqn:Eh; [|apply logs_preserves, preserves_ret].
  apply logs_try; [intros ?; done|]. intros ips s2 Ed.
  destruct ips as [ips|]; [|apply logs_preserves, preserves_ret]. cbn [IsPrivateOrReservedHost].
  destruct (any_blocked ips) eqn:Eb; [apply logs_preserves, preserves_ret|].
  unfold post. apply logs_bind; [intros ?; done|]. intros now s3 En.
  destruct (ww_NewRequest pg_webhooks (wh_URL wh)); [|apply logs_preserves, preserves_ret].
  apply logs_try_then; [|intros r; apply evaluate_log].
  right. eexists. split; [|reflexivity]. injection Ed as Ed <-.
  exists wh, host, ips, (Itoa (Unix now)). split; [done|]. split; [done|]. split; [done|].
  split; [unfold looked_up; rewrite Hs1; exact Ed|].
  split; [|split; [reflexivity|apply hdr_lookup]].
  intros ip Hip Hr. rewrite <- blocked_ip_ranges by done. by apply (proj1 (any_blocked_spec ips)).
Qed.

(** *** The circuit breaker *)

(** A webhook with ten failures in a row is disabled. *)
Definition breaker_ok (wh : Webhook) : Prop :=
  (0 <= wh_ConsecutiveFailures wh)%Z /\
  ((10 <= wh_ConsecutiveFailures wh)%Z -> wh_IsActive wh = false /\ wh_DisabledAt wh <> None).

Definition breakers_ok (s : Sys) : Prop := map_Forall (fun _ wh => breaker_ok wh) (sys_webhooks s).

Lemma increment_ok now wh : breaker_ok wh -> breaker_ok (increment_row now wh).
Proof.
  intros [Hp _]. unfold breaker_ok, increment_row. simpl. split; [lia|]. intros Hn.
  rewrite (proj2 (Z.leb_le _ _)) by done. simpl. split; [done|]. by case_bool_decide.
Qed.

Lemma stmt_breakers {A} wrap (f : Sys -> Res A * Sys) s :
  (forall s, breakers_ok s -> breakers_ok (f s).2) -> breakers_ok s -> breakers_ok (stmt wrap f s).2.
Proof.
  intros Hf Hs. destruct (stmt wrap f s) as [r s'] eqn:E. simpl.
  apply stmt_cases in E as (fs & [E|[(e & _ & ->)|(e & _ & ->)]]); [|done|by apply Hf].
  replace s' with (f (set_faults (fun _ => fs) s)).2 by (by rewrite <- E). by apply Hf.
Qed.

Lemma increment_breakers id s : breakers_ok s -> breakers_ok (IncrementFailureCount id s).2.
Proof.
  apply stmt_breakers. intros s0 Hs. destruct (sys_webhooks s0 !! id) as [wh|] eqn:E; [|done]. simpl.
  apply map_Forall_insert_2; [|done]. apply increment_ok. by eapply Hs.
Qed.
Lemma reset_breakers id s : breakers_ok s -> breakers_ok (ResetFailureCount id s).2.
Proof.
  apply stmt_breakers. intros s0 Hs. destruct (sys_webhooks s0 !! id) as [wh|] eqn:E; [|done]. simpl.
  apply map_Forall_insert_2; [|done]. unfold breaker_ok. simpl. split; [lia|]. lia.
Qed.

(** the failure counter and the switch never disagree: however deliveries
    succeed, fail or are interrupted, every webhook with ten or more failures in
    a row is inactive and has its disabling recorded. *)
Theorem WebhookWork_breaker args s :
  breakers_ok s -> breakers_ok (WebhookWork pg_webhooks args s).2.
Proof.
  intros Hs. unfold WebhookWork, try at 1. destruct (ww_GetByID pg_webhooks (wj_WebhookID args) s) as [r s1] eqn:E1.
  assert (Hs1 : breakers_ok s1).
  { replace s1 with (GetWebhookByID (wj_WebhookID args) s).2 by (by unfold pg_webhooks in E1; simpl in E1; rewrite E1).
    by apply stmt_breakers. }
  destruct r as [wh|]; [|done]. destruct (wh_IsActive wh); [|done]. cbn [negb].
  destruct (ww_Hostname pg_webhooks (wh_URL wh)) as [host|]; [|done]. unfold try. simpl.
  destruct (IsPrivateOrReservedHost (dns s1 host)); [done|].
  unfold post, bind at 1, Now, total. simpl. destruct (NewRequest (wh_URL wh)); [|done].
  unfold try. simpl. destruct (respond _ _) as [status|].
  - unfold evaluate_response, handleFailure, handlePermanentFailure, bind, ignore.
    destruct ((200 <=? status) && (status <? 300))%Z; [destruct (0 <? _)%Z|destruct ((status =? 429) || _)%Z]; simpl;
      first [done|by apply reset_breakers|by apply increment_breakers].
  - unfold handleFailure, bind, ignore. simpl. by apply increment_breakers.
Qed.

(** An endpoint that keeps failing: it answers outside 2xx, or not at all. *)
Definition failing (r : Res Z) : bool :=
  match r with Ok status => negb ((200 <=? status) && (status <? 300))%Z | Err _ => true end.

(** The requests of a run, in order. *)
Definition requests (s : Sys) : nat :=
  List.length (List.filter (fun a => match a with APost _ _ _ => true | _ => false end) (sys_log s)).

(** One failing delivery with the database up. *)
Lemma failing_delivery args s wh host ips :
  sys_faults s = [] -> sys_webhooks s !! wj_WebhookID args = Some wh -> wh_ID wh = wj_WebhookID args ->
  wh_IsActive wh = true -> Hostname (wh_URL wh) = Ok host -> (forall s, dns s host = Ok ips) ->
  any_blocked ips = false -> NewRequest (wh_URL wh) = Ok tt -> (forall s, failing (respond s (wh_URL wh)) = true) ->
  let s' := (WebhookWork pg_webhooks args s).2 in
  sys_faults s' = [] /\ requests s' = S (requests s) /\
  exists now, sys_webhooks s' = <[wj_WebhookID args := increment_row now wh]> (sys_webhooks s).
Proof.
  intros Hf Hw Hid Ha Hh Hd Hb Hn Hr s'. subst s'.
  assert (Hinc : forall s1 hdrs body, sys_faults s1 = [] -> sys_webhooks s1 !! wj_WebhookID args = Some wh ->
    let s2 := (IncrementFailureCount (wh_ID wh) (set_log (fun l => l ++ [APost (wh_URL wh) body hdrs]) s1)).2 in
    sys_faults s2 = [] /\ requests s2 = S (requests s1) /\
    exists now, sys_webhooks s2 = <[wj_WebhookID args := increment_row now wh]> (sys_webhooks s1)).
  { intros s1 hdrs body Hf1 Hw1 s2. subst s2. unfold IncrementFailureCount. rewrite no_faults_stmt by done.
    simpl. rewrite Hid, Hw1. simpl. split; [done|]. split; [|by eexists].
    unfold requests. simpl. rewrite List.filter_app, length_app. simpl. lia. }
  unfold WebhookWork, try, ww_GetByID, pg_webhooks, GetWebhookByID. rewrite no_faults_stmt, Hw by done.
  rewrite Ha. cbn [negb ww_Hostname]. rewrite Hh. cbn [ww_LookupHost]. rewrite Hd. simpl. rewrite Hb.
  unfold post, bind, Now, total, try. simpl. rewrite Hn. cbn [ww_Do].
  specialize (Hr (set_clock Z.succ s)). destruct (respond _ (wh_URL wh)) as [status|]; simpl in Hr.
  - unfold evaluate_response. apply negb_true_iff in Hr. rewrite Hr.
    unfold handleFailure, handlePermanentFailure, bind, ignore. simpl.
    destruct ((status =? 429) || _)%Z; apply (Hinc (set_clock Z.succ s)); done.
  - unfold handleFailure, bind, ignore. simpl. apply (Hinc (set_clock Z.succ s)); done.
Qed.

(** A delivery to a disabled webhook. *)
Lemma disabled_delivery args s wh :
  sys_faults s = [] -> sys_webhooks s !! wj_WebhookID args = Some wh -> wh_IsActive wh = false ->
  (WebhookWork pg_webhooks args s).2 = s.
Proof.
  intros Hf Hw Ha. unfold WebhookWork, try, ww_GetByID, pg_webhooks, GetWebhookByID.
  rewrite no_faults_stmt, Hw by done. by rewrite Ha.
Qed.

(** [n] deliveries to the same endpoint. *)
Definition deliveries (n : nat) (args : WebhookJob) (s : Sys) : Sys :=
  Nat.iter n (fun s => (WebhookWork pg_webhooks args s).2) s.

(** C33: the circuit breaker trips: an endpoint that never answers 2xx, starting
    from a clean counter, receives exactly ten requests however many deliveries
    are run, and is inactive from the tenth failure on. *)
Theorem ten_failures_disable n args s wh host ips :
  sys_faults s = [] -> sys_webhooks s !! wj_WebhookID args = Some wh -> wh_ID wh = wj_WebhookID args ->
  wh_IsActive wh = true -> wh_ConsecutiveFailures wh = 0%Z ->
  Hostname (wh_URL wh) = Ok host -> (forall s, dns s host = Ok ips) -> any_blocked ips = false ->
  NewRequest (wh_URL wh) = Ok tt -> (forall s, failing (respond s (wh_URL wh)) = true) ->
  let s' := deliveries n args s in
  requests s' = (requests s + Nat.min n 10)%nat /\
  exists wh', sys_webhooks s' !! wj_WebhookID args = Some wh' /\
    wh_IsActive wh' = (n <? 10)%nat /\ wh_ConsecutiveFailures wh' = Z.of_nat (Nat.min n 10).
Proof.
  intros Hf Hw Hid Ha H0f Hh Hd Hb Hn Hr s'. subst s'.
  enough (Hall : sys_faults (deliveries n args s) = [] /\
    requests (deliveries n args s) = (requests s + Nat.min n 10)%nat /\
    exists wh', sys_webhooks (deliveries n args s) !! wj_WebhookID args = Some wh' /\
      wh_IsActive wh' = (n <? 10)%nat /\ wh_ConsecutiveFailures wh' = Z.of_nat (Nat.min n 10) /\
      wh_URL wh' = wh_URL wh /\ wh_ID wh' = wj_WebhookID args) by naive_solver.
  induction n as [|n (IHf & IHr & wh' & IHw & IHa & IHc & IHu & IHi)].
  - split; [done|]. split; [simpl; lia|]. exists wh. by rewrite Ha, H0f.
  - change (deliveries (S n) args s) with ((WebhookWork pg_webhooks args (deliveries n args s)).2).
    destruct (n <? 10)%nat eqn:En.
    + apply Nat.ltb_lt in En.
      destruct (failing_delivery args (deliveries n args s) wh' host ips) as (Hf' & Hr' & now & Hw');
        rewrite ?IHu; try done.
      split; [done|]. split; [rewrite Hr', IHr; lia|]. rewrite Hw', lookup_insert_eq.
      eexists. split; [done|]. unfold increment_row. simpl. rewrite IHc, IHa.
      assert (Hc : (Z.of_nat (Nat.min n 10) + 1)%Z = Z.of_nat (Nat.min (S n) 10)) by lia.
      rewrite Hc. split; [|done].
      destruct (S n <? 10)%nat eqn:Es; [apply Nat.ltb_lt in Es|apply Nat.ltb_ge in Es].
      * rewrite (proj2 (Z.leb_gt _ _)); [done|lia].
      * rewrite (proj2 (Z.leb_le _ _)); [done|lia].
    + rewrite (disabled_delivery _ _ wh') by done. apply Nat.ltb_ge in En.
      split; [done|]. split; [rewrite IHr; lia|]. exists wh'. rewrite IHa, IHc.
      split; [done|]. split; [symmetry; apply Nat.ltb_ge; lia|]. split; [lia|done].
Qed.
End PG.

(** ** Dispatch *)

Section Dispatch.
Context `{GoStd}.

Definition pg_dispatch : WebhookService Sys :=
  {| whs_GetActiveByWorkspace := GetActiveByWorkspace; whs_EnqueueWebhook := EnqueueWebhook |}.

(** The endpoints an event is meant for. *)
Definition subscribers (wsID : uuid) (eventType : string) (s : Sys) : list Webhook :=
  List.filter (fun wh => SubscribesTo wh eventType)
    (snd <$> List.filter (fun kv => bool_decide (wh_WorkspaceID kv.2 = wsID) && webhook_active kv.2)
                        (map_to_list (sys_webhooks s))).

Definition webhook_job (eventType payload : string) (wh : Webhook) : Action :=
  AJobWebhook {| wj_WebhookID := wh_ID wh; wj_EventType := eventType; wj_Payload := payload; wj_RetryCount := 0 |}.

(** The loop over the endpoints: each job is inserted or lost on its own. *)
Lemma dispatch_loop eventType payload whs s :
  exists js, (for_each whs (fun wh =>
      if negb (SubscribesTo wh eventType) then ret tt
      else ignore (EnqueueWebhook {| wj_WebhookID := wh_ID wh; wj_EventType := eventType;
                                     wj_Payload := payload; wj_RetryCount := 0 |})) s).1 = Ok tt /\
    effects (for_each whs (fun wh =>
      if negb (SubscribesTo wh eventType) then ret tt
      else ignore (EnqueueWebhook {| wj_WebhookID := wh_ID wh; wj_EventType := eventType;
                                     wj_Payload := payload; wj_RetryCount := 0 |})) s).2 = effects s ++ js /\
    js `sublist_of` (webhook_job eventType payload <$> List.filter (fun wh => SubscribesTo wh eventType) whs) /\
    (sys_faults s = [] -> js = webhook_job eventType payload <$> List.filter (fun wh => SubscribesTo wh eventType) whs).
Proof.
  revert s. induction whs as [|wh whs IH]; intros s; simpl.
  { exists []. by rewrite app_nil_r. }
  unfold bind at 1 2. destruct (SubscribesTo wh eventType) eqn:Es; cbn [negb].
  - unfold ignore at 1 3. set (s1 := (EnqueueWebhook _ s).2).
    assert (H1 : exists j, effects s1 = effects s ++ j /\ j `sublist_of` [webhook_job eventType payload wh] /\
      (sys_faults s = [] -> sys_faults s1 = [] /\ j = [webhook_job eventType payload wh])).
    { subst s1. unfold EnqueueWebhook, stmt. destruct (sys_faults s) as [|[|m|m] fs] eqn:Ef; simpl.
      - eexists. by split.
      - eexists. by split.
      - exists []. rewrite app_nil_r. split; [done|]. split; [apply sublist_nil_l|done].
      - eexists. by split. }
    destruct H1 as (j & Ej & Hj & Hf1). destruct (IH s1) as (js & Hok & El & Hsub & Hall).
    exists (j ++ js). split; [done|]. split; [by rewrite El, Ej, app_assoc|]. split.
    + rewrite fmap_cons. change (?x :: ?l) with ([x] ++ l). by apply sublist_app.
    + intros Hf. destruct (Hf1 Hf) as [Hf' ->]. by rewrite Hall.
  - apply IH.
Qed.

(** dispatch is exact: an event reaches the queue as one job per active
    webhook of the workspace that subscribes to it or to [*], in order, and no
    other; the call always succeeds, a lost insertion costs only its own
    endpoint, and with the database up none is lost. *)
Theorem Dispatch_exact wsID eventType payload s :
  exists js, (Dispatch pg_dispatch wsID eventType (Ok payload) s).1 = Ok tt /\
    effects (Dispatch pg_dispatch wsID eventType (Ok payload) s).2 = effects s ++ js /\
    js `sublist_of` (webhook_job eventType payload <$> subscribers wsID eventType s) /\
    (sys_faults s = [] -> js = webhook_job eventType payload <$> subscribers wsID eventType s).
Proof.
  unfold Dispatch, try. destruct (whs_GetActiveByWorkspace pg_dispatch wsID s) as [r s1] eqn:E.
  assert (He : effects s1 = effects s).
  { assert (Hp : preserves effects (GetActiveByWorkspace wsID)) by repo_frame.
    specialize (Hp s). simpl in E. by rewrite E in Hp. }
  simpl in E. destruct r as [whs|e].
  - assert (Hw : (whs : list Webhook) = snd <$> List.filter (fun kv => bool_decide (wh_WorkspaceID kv.2 = wsID) && webhook_active kv.2)
                        (map_to_list (sys_webhooks s)) /\ (sys_faults s = [] -> sys_faults s1 = [])).
    { unfold GetActiveByWorkspace, stmt in E. destruct (sys_faults s) as [|[|m|m] fs] eqn:Ef; simpl in E;
        try discriminate E; injection E as <- <-; by split. }
    destruct Hw as [Hw Hf]. unfold subscribers. rewrite <- Hw. case_bool_decide as Hn.
    + exists []. rewrite Hn, app_nil_r. by split.
    + destruct (dispatch_loop eventType payload whs s1) as (js & Hok & El & Hsub & Hall).
      exists js. split; [exact Hok|]. split; [rewrite <- He; exact El|]. split; [done|]. auto.
  - exists []. rewrite app_nil_r. split; [done|]. split; [done|]. split; [apply sublist_nil_l|].
    intros Hf. unfold GetActiveByWorkspace in E. by rewrite no_faults_stmt in E.
Qed.
End Dispatch.

(** ** Witnesses *)

Definition sample_webhook : Webhook :=
  {| wh_ID := 30; wh_WorkspaceID := 7; wh_URL := "https://hooks.x.io/in"; wh_Secret := "s3cret";
     wh_Events := ["email.bounced"]; wh_IsActive := true; wh_ConsecutiveFailures := 0;
     wh_LastFailureAt := None; wh_DisabledAt := None; wh_CreatedAt := 0; wh_UpdatedAt := 0 |}.

Definition webhook_sys : Sys := set_webhooks (fun _ => {[30%N := sample_webhook]}) empty_sys.
Definition sample_webhook_job : WebhookJob :=
  {| wj_WebhookID := 30; wj_EventType := "email.bounced"; wj_Payload := "{}"; wj_RetryCount := 0 |}.

(** Its host resolves to [203.0.113.7]. *)
Definition sample_dns (_ : Sys) (_ : string) : Res (list (option Z)) := Ok [Some (v4 203 0 113 7)].

Lemma ten_failures_disable_witness :
  let G := ascii_std in let C := sample_codec in
  let w := pg_webhooks (fun _ _ => Ok 503%Z) sample_dns (fun _ => Ok "hooks.x.io") (fun _ => Ok tt) in
  let s' := deliveries (fun _ _ => Ok 503%Z) sample_dns (fun _ => Ok "hooks.x.io") (fun _ => Ok tt)
              12 sample_webhook_job webhook_sys in
  requests s' = 10%nat.
Proof.
  intros G C w s'.
  destruct (ten_failures_disable (fun _ _ => Ok 503%Z) sample_dns (fun _ => Ok "hooks.x.io") (fun _ => Ok tt)
    12 sample_webhook_job webhook_sys sample_webhook "hooks.x.io" [Some (v4 203 0 113 7)]) as [Hr _].
  1-10: first [reflexivity|intros; reflexivity].
  exact Hr.
Defined.

Lemma WebhookWork_breaker_witness :
  let G := ascii_std in let C := sample_codec in
  breakers_ok (WebhookWork (pg_webhooks (fun _ _ => Ok 503%Z) sample_dns (fun _ => Ok "hooks.x.io") (fun _ => Ok tt))
                 sample_webhook_job webhook_sys).2.
Proof.
  intros G C. apply (WebhookWork_breaker (fun _ _ => Ok 503%Z) sample_dns (fun _ => Ok "hooks.x.io") (fun _ => Ok tt)).
  intros k wh E. unfold webhook_sys in E. simpl in E. apply lookup_singleton_Some in E as [_ <-].
  unfold breaker_ok. simpl. split; [lia|]. lia.
Defined.
