(* ===== verification/Feedback.v ===== *)
(** * The feedback loop, end to end

    The event processor running on the PostgreSQL repositories: what a bounce
    or a complaint of the provider changes for later sends. *)
From stdpp Require Import base gmap strings list.
From Stdlib Require Import ZArith String Lia.
From S2P Require Import Prelude GoMonad Domain Ports Suppression EventProcessor Postgres.

Section Wired.
Context `{GoStd}.

(** The processor as [cmd/server] wires it, without webhooks. *)
Definition pg_processor : EventProcessor Sys := {|
  ep_rt := sys_runtime;
  ep_emails := EmailRepo;
  ep_suppression := SuppressionRepo;
  ep_webhookService := None;
|}.

(** A fault-free run of [Process] on an accepted event: the status is updated
    and the event recorded, then the suppression step runs. *)
Lemma Process_run s event email status :
  sys_faults s = [] ->
  GetByProviderMessageID (pe_ProviderMessageID event) s = (Ok email, s) ->
  sys_emails s !! em_ID email = Some email ->
  mapEventToStatus (pe_Type event) = Some status ->
  isValidTransition (em_Status email) status = true ->
  exists s2, sys_faults s2 = [] /\ sys_global s2 = sys_global s /\ sys_workspace s2 = sys_workspace s /\
    status_of s2 = <[em_ID email := status]> (status_of s) /\
    Process pg_processor event s = (Ok tt, (handleSuppression pg_processor event email s2).2).
Proof.
  intros Hf Hl He Hm Hv. unfold Process. simpl.
  unfold bind at 1. rewrite Hl, Hm, Hv. simpl.
  unfold bind at 1. unfold UpdateStatus. rewrite no_faults_stmt, He by done.
  rewrite bool_decide_eq_true_2 by done. simpl.
  unfold bind at 1. unfold add_event, NewV7, Now, total, bind. simpl.
  unfold AddEvent. rewrite no_faults_stmt by done. simpl.
  eexists. split; [|split; [|split; [|split; [|reflexivity]]]]; try done.
  unfold status_of. simpl. by rewrite fmap_insert.
Qed.

(** The suppression check reads the two tables only. *)
Lemma IsSuppressed_ext s s' wsID a :
  sys_faults s = [] -> sys_faults s' = [] ->
  active_global s' a = active_global s a -> active_workspace s' wsID a = active_workspace s wsID a ->
  (IsSuppressed wsID a s').1 = (IsSuppressed wsID a s).1.
Proof.
  intros Hf Hf' Hg Hw. unfold IsSuppressed. rewrite !no_faults_stmt by done. simpl.
  unfold suppression_reason. by rewrite Hg, Hw.
Qed.
End Wired.

(** a hard bounce stops later mail: when the provider reports a hard bounce
    of an email whose recipient is stored in canonical form, processing the
    event succeeds and afterwards the recipient is globally suppressed: the
    pre-send check of every workspace answers yes with reason [hard_bounce]. *)
Theorem hard_bounce_suppresses `{GoStd} s event email detail wsID :
  sys_faults s = [] ->
  GetByProviderMessageID (pe_ProviderMessageID event) s = (Ok email, s) ->
  sys_emails s !! em_ID email = Some email ->
  pe_Type event = EventBounced -> pe_BounceDetail event = Some detail -> bd_BounceType detail = "hard" ->
  isValidTransition (em_Status email) StatusBounced = true ->
  CanonicalRecipientAddress (em_RecipientEmail email) = em_RecipientEmail email ->
  exists s', Process pg_processor event s = (Ok tt, s') /\
    status_of s' !! em_ID email = Some StatusBounced /\
    (IsSuppressed wsID (CanonicalRecipientAddress (em_RecipientEmail email)) s').1 = Ok (true, "hard_bounce").
Proof.
  intros Hf Hl He Ht Hd Hh Hv Hc.
  destruct (Process_run s event email StatusBounced) as (s2 & Hf2 & Hg & Hw & Hs & ->); try done.
  { by rewrite Ht. }
  eexists. split; [done|]. unfold handleSuppression, NewV7, Now, total, bind.
  rewrite Ht, Hd, (bool_decide_eq_true_2 _ Hh). simpl. unfold AddGlobal.
  rewrite no_faults_stmt by done. simpl.
  change (status_of (set_global _ _)) with (status_of s2). rewrite Hs, lookup_insert_eq. split; [done|].
  unfold IsSuppressed. rewrite no_faults_stmt by done. unfold suppression_reason, active_global. simpl.
  rewrite Hc, lookup_insert_eq. by destruct (sys_global s2 !! em_RecipientEmail email).
Qed.

(** the suppression row of a bounce or a complaint is keyed by the address
    as the sender wrote it, while every check looks up the canonical (lower
    case, trimmed) address: for an email whose recipient is not in canonical
    form no provider event, whatever it says, changes the answer of the
    suppression check for that recipient. *)
Theorem feedback_misses_uncanonical `{GoStd} s event email wsID status :
  sys_faults s = [] ->
  GetByProviderMessageID (pe_ProviderMessageID event) s = (Ok email, s) ->
  sys_emails s !! em_ID email = Some email ->
  mapEventToStatus (pe_Type event) = Some status ->
  isValidTransition (em_Status email) status = true ->
  CanonicalRecipientAddress (em_RecipientEmail email) <> em_RecipientEmail email ->
  exists s', Process pg_processor event s = (Ok tt, s') /\
    (IsSuppressed wsID (CanonicalRecipientAddress (em_RecipientEmail email)) s').1 =
    (IsSuppressed wsID (CanonicalRecipientAddress (em_RecipientEmail email)) s).1.
Proof.
  intros Hf Hl He Hm Hv Hc.
  destruct (Process_run s event email status) as (s2 & Hf2 & Hg & Hw & _ & ->); try done.
  eexists. split; [done|]. set (a := CanonicalRecipientAddress _) in *.
  assert (Hag : active_global s2 a = active_global s a) by (unfold active_global; by rewrite Hg).
  assert (Haw : active_workspace s2 wsID a = active_workspace s wsID a) by (unfold active_workspace; by rewrite Hw).
  unfold handleSuppression, NewV7, Now, total, bind.
  destruct (pe_Type event); simpl; try (by apply IsSuppressed_ext).
  - destruct (pe_BounceDetail event) as [d|]; simpl; [|by apply IsSuppressed_ext].
    destruct (negb _); simpl; [by apply IsSuppressed_ext|].
    unfold AddGlobal. rewrite no_faults_stmt by done. simpl.
    apply IsSuppressed_ext; [done..| |exact Haw].
    rewrite <- Hag. unfold active_global. simpl. by rewrite lookup_insert_ne.
  - unfold AddWorkspace. rewrite no_faults_stmt by done. simpl.
    destruct (workspace_upsert _ _ _); simpl; apply IsSuppressed_ext; try done.
    rewrite <- Haw. unfold active_workspace. simpl. by rewrite lookup_insert_ne by congruence.
Qed.

(** ** Concrete runs *)

Definition sample_sys (e : Email) : Sys := set_emails (fun _ => {[em_ID e := e]}) empty_sys.

Definition sample_event (t : ProviderEventType) (bounce : string) : ProviderEvent :=
  {| pe_Type := t; pe_ProviderMessageID := "ses-1"; pe_Timestamp := 500; pe_RawPayload := "{}";
     pe_BounceDetail := Some {| bd_BounceType := bounce; bd_DiagnosticCode := "550"; bd_Recipients := [] |};
     pe_ComplaintDetail := None |}.

Lemma Process_forward_witness :
  let G := ascii_std in
  let s := sample_sys (sample_email StatusSent "user@x.io") in
  rtc (table_step (fun from to => isValidTransition from to = true)) (status_of s)
      (status_of (Process pg_processor (sample_event EventBounced "hard") s).2).
Proof.
  intros G s. apply (Process_forward pg_processor status_of (sample_event EventBounced "hard"));
    try apply _. discriminate.
Defined.

Lemma ProcessDirect_life_witness :
  let G := ascii_std in
  let s := sample_sys (sample_email StatusSent "user@x.io") in
  rtc (table_step life) (status_of s)
    (status_of (ProcessDirect pg_processor (sample_email StatusSent "user@x.io")
                  (sample_event EventOpened "")  s).2).
Proof.
  intros G s. apply (ProcessDirect_life pg_processor status_of); try apply _. discriminate.
Defined.

Lemma Process_duplicate_witness :
  let G := ascii_std in
  let s := sample_sys (sample_email StatusBounced "user@x.io") in
  Process pg_processor (sample_event EventDelivered "") s = (Ok tt, s).
Proof.
  intros G s.
  apply (Process_duplicate pg_processor (sample_event EventDelivered "") StatusDelivered
           (sample_email StatusBounced "user@x.io") s s).
  - reflexivity.
  - vm_compute. reflexivity.
  - apply rtc_once. by apply life_event.
Defined.

Lemma hard_bounce_suppresses_witness :
  let G := ascii_std in
  let s := sample_sys (sample_email StatusSent "user@x.io") in
  exists s', Process pg_processor (sample_event EventBounced "hard") s = (Ok tt, s') /\
    status_of s' !! 42%N = Some StatusBounced /\
    (IsSuppressed 99 "user@x.io" s').1 = Ok (true, "hard_bounce").
Proof.
  intros G s.
  apply (hard_bounce_suppresses s (sample_event EventBounced "hard") (sample_email StatusSent "user@x.io")
           {| bd_BounceType := "hard"; bd_DiagnosticCode := "550"; bd_Recipients := [] |} 99);
    vm_compute; reflexivity.
Defined.

Lemma feedback_misses_uncanonical_witness :
  let G := ascii_std in
  let s := sample_sys (sample_email StatusSent "User@X.io") in
  exists s', Process pg_processor (sample_event EventBounced "hard") s = (Ok tt, s') /\
    (IsSuppressed 99 "user@x.io" s').1 = (IsSuppressed 99 "user@x.io" s).1.
Proof.
  intros G s.
  apply (feedback_misses_uncanonical s (sample_event EventBounced "hard")
           (sample_email StatusSent "User@X.io") 99 StatusBounced); try (vm_compute; reflexivity).
  vm_compute. discriminate.
Defined.
