(* ===== verification/SendWorker.v ===== *)
(** * The send worker ([adapter/river/send_worker.go])

    The background job that delivers one email: rate limiting with local
    reservations, the claim by compare-and-set, the pre-send suppression
    re-check, the unsubscribe headers, rendering, the provider call and the
    retry policy. The worker's own memory (sender cache, reservations) is a
    component of the state next to the world [W] of the ports. *)
From stdpp Require Import base gmap strings list.
From Stdlib Require Import ZArith Ascii String Lia.
From S2P Require Import Prelude GoMonad Domain Ports Token EventProcessor.

(** ** Job results and machine integers *)

Record SendJobArgs := mkSendJobArgs {
  ja_EmailID : uuid;
  ja_TrackingID : string;
  ja_AdapterID : uuid;
  ja_Priority : Z;
}.

(** [InsertOpts] of the send jobs. *)
Definition send_MaxAttempts : Z := 5.

Definition sendBackoff (attempt : Z) : duration :=
  wrap64 (wrap64 (60 * shl1 (wrap64 (attempt - 1))) * Second)%Z.

Definition senderCacheTTL : duration := (10 * Minute)%Z.
Definition staleProcessingThreshold : duration := (10 * Minute)%Z.

(** [strings.TrimRight(s, "/")]. *)
Fixpoint drop_slashes (s : string) : string :=
  match s with
  | String c r => if Ascii.eqb c "/" then drop_slashes r else s
  | EmptyString => EmptyString
  end.
Definition TrimRightSlash (s : string) : string := srev (drop_slashes (srev s)).

(** ** The worker *)

(** The provider senders ([port.EmailSender] values): a type of handles with
    their methods and the optional error classifier. *)
Record SenderMethods (W S : Type) := mkSenderMethods {
  snd_Send : S -> OutgoingEmail -> M W string;
  snd_IsPermanent : S -> option (error -> bool);
}.
Arguments snd_Send {W S}. Arguments snd_IsPermanent {W S}.

(** [lastTouched] is [None] for the zero [time.Time]. *)
Record rateLimitReservation := mkReservation {
  rl_available : Z;
  rl_lastTouched : option gotime;
}.

Record WorkerState (S : Type) := mkWorkerState {
  wst_senderCache : gmap uuid (S * gotime);
  wst_rateLimits : gmap uuid rateLimitReservation;
  wst_cleanupRunning : bool;
  wst_lastCleanup : option gotime;
}.
Arguments wst_senderCache {S}. Arguments wst_rateLimits {S}.
Arguments wst_cleanupRunning {S}. Arguments wst_lastCleanup {S}.
Arguments mkWorkerState {S}.

Record AdapterRuntime (W S : Type) := mkAdapterRuntime {
  ar_GetByID : uuid -> M W Adapter;
  ar_Decrypt : string -> M W string;
  (** The configured factory or [DefaultAdapterSenderFactory]; [None] is a nil sender. *)
  ar_factory : Adapter -> string -> M W (option S);
}.
Arguments ar_GetByID {W S}. Arguments ar_Decrypt {W S}. Arguments ar_factory {W S}.

Record SendWorker (W S : Type) := mkSendWorker {
  wk_rt : Runtime W;
  wk_emailStore : EmailStore.t W;
  wk_Compile : string -> M W string;
  wk_RenderWithSystem : string -> injector_map -> fields_map -> gmap string string -> Res string;
  wk_AcquireBurst : option (uuid -> Z -> M W Z);
  wk_methods : SenderMethods W S;
  wk_sender : option S;
  wk_adapterRuntime : option (AdapterRuntime W S);
  wk_trackingBaseURL : string;
  wk_burst : Z;
  wk_reservationTTL : duration;
  wk_cleanupInterval : duration;
  wk_GetTypeBySlug : option (string -> list (option uuid) -> M W (option TemplateType));
  wk_GetUnsubscribeSigningKey : option (uuid -> M W string);
  wk_GetWorkspace : uuid -> M W (option Workspace);
  wk_publicBaseURL : string;
  wk_suppressionStore : option (uuid -> string -> M W (bool * string));
}.
Arguments wk_rt {W S}. Arguments wk_emailStore {W S}. Arguments wk_Compile {W S}.
Arguments wk_RenderWithSystem {W S}. Arguments wk_AcquireBurst {W S}. Arguments wk_methods {W S}. Arguments wk_sender {W S}.
Arguments wk_adapterRuntime {W S}. Arguments wk_trackingBaseURL {W S}. Arguments wk_burst {W S}.
Arguments wk_reservationTTL {W S}. Arguments wk_cleanupInterval {W S}. Arguments wk_GetTypeBySlug {W S}.
Arguments wk_GetUnsubscribeSigningKey {W S}. Arguments wk_GetWorkspace {W S}.
Arguments wk_publicBaseURL {W S}. Arguments wk_suppressionStore {W S}.

Section Worker.
Context `{GoStd} `{Codec} {W S : Type} (w : SendWorker W S).

(** The world and the worker's memory. *)
Abbreviation X := (W * WorkerState S)%type.

Definition set_limits (f : gmap uuid rateLimitReservation -> gmap uuid rateLimitReservation)
    (st : WorkerState S) : WorkerState S :=
  mkWorkerState (wst_senderCache st) (f (wst_rateLimits st)) (wst_cleanupRunning st) (wst_lastCleanup st).
Definition set_senders (f : gmap uuid (S * gotime) -> gmap uuid (S * gotime))
    (st : WorkerState S) : WorkerState S :=
  mkWorkerState (f (wst_senderCache st)) (wst_rateLimits st) (wst_cleanupRunning st) (wst_lastCleanup st).

(** *** Rate limiting *)

(** The reservation with the timer started and an expired balance dropped. *)
Definition refresh_reservation (now : gotime) (r : rateLimitReservation) : rateLimitReservation :=
  let last := default now (rl_lastTouched r) in
  if ((0 <? wk_reservationTTL w) && (wk_reservationTTL w <=? now - last))%Z
  then mkReservation 0 (Some last)
  else mkReservation (rl_available r) (Some last).

(** The cleanup goroutine is only announced here; it runs as a step of its own. *)
Definition maybeScheduleRateLimitCleanup (now : gotime) (st : WorkerState S) : WorkerState S :=
  if ((wk_reservationTTL w <=? 0) || (wk_cleanupInterval w <=? 0))%Z then st
  else if match wst_lastCleanup st with
          | Some last => (now - last <? wk_cleanupInterval w)%Z
          | None => false
          end then st
  else if wst_cleanupRunning st then st
  else mkWorkerState (wst_senderCache st) (wst_rateLimits st) true (Some now).

(** The critical section under the reservation's mutex, as one step. *)
Definition acquireRateLimitToken (adapterID : uuid) : M X bool :=
  match wk_AcquireBurst w with
  | None => ret true
  | Some AcquireBurst =>
      let! now := up (Now (wk_rt w)) in
      let! st := get_state in
      let r := refresh_reservation now (default (mkReservation 0 None) (wst_rateLimits st !! adapterID)) in
      if (0 <? rl_available r)%Z then
        set_state (set_limits <[adapterID := mkReservation (rl_available r - 1) (Some now)]>) ;;;
        ret true
      else
        set_state (set_limits <[adapterID := r]>) ;;;
        let! reserved := up (AcquireBurst adapterID (wk_burst w)) in
        if (reserved <? 1)%Z then ret false
        else
          set_state (set_limits <[adapterID := mkReservation (reserved - 1) (Some now)]>) ;;;
          set_state (maybeScheduleRateLimitCleanup now) ;;;
          ret true
  end.

(** The cleanup: every reservation no send holds (none is inside the critical
    section) and untouched for the TTL is deleted. *)
Definition stale_reservation (now : gotime) (r : rateLimitReservation) : bool :=
  match rl_lastTouched r with
  | None => false
  | Some last => ((0 <? wk_reservationTTL w) && (wk_reservationTTL w <=? now - last))%Z
  end.

Definition cleanupExpiredRateLimitReservations (now : gotime) (st : WorkerState S) : WorkerState S :=
  mkWorkerState (wst_senderCache st)
    (filter (fun kv => stale_reservation now kv.2 = false) (wst_rateLimits st)) false (wst_lastCleanup st).

(** *** The sender *)

Definition EValidation (msg : string) : error := EWrap "" (ESent ErrValidation) (": " +:+ msg).

Definition resolveSender (adapterID : uuid) : M X (S) :=
  match wk_sender w with
  | Some sender => ret sender
  | None =>
      if bool_decide (adapterID = uuid_Nil) then fail (EValidation "missing adapter id")
      else
        match wk_adapterRuntime w with
        | None => fail (EValidation "adapter runtime sender is not configured")
        | Some ar =>
            let! st := get_state in
            let build :=
              let! adapter := up (ar_GetByID ar adapterID) in
              try! dec := up (ar_Decrypt ar (ad_ConfigEncrypted adapter)) in
              match dec with
              | Err e => fail (EWrap2 "" (ESent ErrValidation) ": decrypt adapter config: " e "")
              | Ok decryptedConfig =>
                  let! sender := up (ar_factory ar adapter decryptedConfig) in
                  match sender with
                  | None => fail (EValidation ("adapter sender factory returned nil for " +:+
                                               AdapterType_String (ad_AdapterType adapter)))
                  | Some sender =>
                      let! now := up (Now (wk_rt w)) in
                      set_state (set_senders <[adapterID := (sender, now)]>) ;;;
                      ret sender
                  end
              end in
            match wst_senderCache st !! adapterID with
            | Some (sender, createdAt) =>
                let! now := up (Now (wk_rt w)) in
                if (now - createdAt <? senderCacheTTL)%Z then ret sender
                else set_state (set_senders (delete adapterID)) ;;; build
            | None => build
            end
        end
  end.

Definition isPermanentSendError (sender : S) (e : error) : bool :=
  match snd_IsPermanent (wk_methods w) sender with Some f => f e | None => false end.

(** *** Failure paths *)

Definition new_event (email : Email) (t : EmailEventType) (at_ : gotime) (meta : fields_map) : M X unit :=
  let! id := up (NewV7 (wk_rt w)) in
  up (EmailStore.AddEvent (wk_emailStore w)
        {| ev_ID := id; ev_EmailID := em_ID email; ev_EventType := t; ev_OccurredAt := at_;
           ev_Metadata := meta; ev_CreatedAt := at_ |}).

Definition failPermanently (email : Email) (reason : error) : M X JobOutcome :=
  ignore (up (EmailStore.UpdateStatus (wk_emailStore w) (em_ID email) StatusFailed (em_Status email))) ;;;
  let! now := up (Now (wk_rt w)) in
  ignore (new_event email EventTypeFailed now {["error" := AStr (error_string reason)]}) ;;;
  ret (JobCancel reason).

Definition handleSendError (email : Email) (sender : S) (attempt maxAttempts : Z)
    (sendErr : error) : M X JobOutcome :=
  if isPermanentSendError sender sendErr then failPermanently email sendErr
  else if (maxAttempts <=? attempt)%Z then
    failPermanently email
      (EWrap ("send: transient error on final attempt (" +:+ Itoa attempt +:+ "/" +:+ Itoa maxAttempts +:+ "): ")
             sendErr "")
  else
    let! now := up (Now (wk_rt w)) in
    ignore (up (EmailStore.UpdateRetry (wk_emailStore w) (em_ID email) attempt
                  (Some (now + sendBackoff attempt)%Z))) ;;;
    fail sendErr.

(** *** Work, in the order of its numbered comments *)

Definition no_provider_id (email : Email) : bool :=
  match em_ProviderMessageID email with Some m => bool_decide (m = "") | None => true end.

(** 5. the unsubscribe context of a bulk template type: the system variables
    and the extra headers, both empty whenever something is missing. *)
Definition unsubscribe_context (email : Email) : M X (gmap string string * gmap string string) :=
  match wk_GetTypeBySlug w, wk_GetUnsubscribeSigningKey w with
  | Some GetTypeBySlug, Some GetKey =>
      if bool_decide (wk_publicBaseURL w = "") then ret (∅, ∅)
      else
        try! r := up (GetTypeBySlug (em_TemplateTypeSlug email) [Some (em_WorkspaceID email)]) in
        match r with
        | Ok (Some tty) =>
            if negb (tt_IsBulk tty) then ret (∅, ∅)
            else
              try! key := up (GetKey (em_WorkspaceID email)) in
              match key with
              | Err _ => ret (∅, ∅)
              | Ok key =>
                  let! now := up (Now (wk_rt w)) in
                  match Generate (unsubscribe_payload email tty now) key with
                  | Err _ => ret (∅, ∅)
                  | Ok tok =>
                      let base := TrimRightSlash (wk_publicBaseURL w) in
                      try! ws := up (wk_GetWorkspace w (em_WorkspaceID email)) in
                      let wsName := match ws with Ok (Some ws) => ws_Name ws | _ => "" end in
                      ret ({["unsubscribe_url" := base +:+ "/u/" +:+ tok;
                             "preferences_url" := base +:+ "/u/" +:+ tok +:+ "/preferences";
                             "workspace_name" := wsName]},
                           {["List-Unsubscribe" := "<" +:+ base +:+ "/api/v1/u/" +:+ tok +:+ ">";
                             "List-Unsubscribe-Post" := "List-Unsubscribe=One-Click"]})
                  end
              end
        | _ => ret (∅, ∅)
        end
  | _, _ => ret (∅, ∅)
  end.

(** 9. the outgoing message. *)
Definition build_outgoing (email : Email) (bodyHTML : string) (extraHeaders : gmap string string)
  : OutgoingEmail :=
  {| out_From := mkEmailAddress (em_FromName email) (em_FromEmail email);
     out_To := mkEmailAddress "" (em_RecipientEmail email);
     out_CC := mkEmailAddress "" <$> em_CC email;
     out_BCC := mkEmailAddress "" <$> em_BCC email;
     out_ReplyTo := mkEmailAddress "" <$> em_ReplyTo email;
     out_Subject := em_SubjectRendered email;
     out_BodyHTML := bodyHTML;
     out_BodyText := "";
     out_Headers := extraHeaders ∪ {["X-Senda-Tracking-ID" := em_TrackingID email]};
     out_TrackingID := em_TrackingID email |}.

(** 10-12. the provider call and what follows it. *)
Definition deliver (job : SendJobArgs) (attempt maxAttempts : Z) (email : Email)
    (outgoing : OutgoingEmail) : M X JobOutcome :=
  try! sender := resolveSender (em_AdapterID email) in
  match sender with
  | Err e =>
      if errors_Is e ErrValidation || errors_Is e ErrNotFound
      then failPermanently email (EWrap "send: resolve sender: " e "")
      else fail (EWrap "send: resolve sender: " e "")
  | Ok sender =>
      try! sent := up (snd_Send (wk_methods w) sender outgoing) in
      match sent with
      | Err e => handleSendError email sender attempt maxAttempts e
      | Ok providerMsgID =>
          (if bool_decide (providerMsgID = "") then ret tt
           else wrap_err (fun e => EWrap "send: set provider_message_id: " e "")
                  (up (EmailStore.SetProviderMessageID (wk_emailStore w) (em_ID email) providerMsgID))) ;;;
          wrap_err (fun e => EWrap "send: update status to sent: " e "")
            (up (EmailStore.UpdateStatus (wk_emailStore w) (em_ID email) StatusSent StatusProcessing)) ;;;
          let! sentAt := up (Now (wk_rt w)) in
          ignore (new_event email EventTypeSent sentAt {["provider_message_id" := AStr providerMsgID]}) ;;;
          ret JobDone
      end
  end.

(** 6-12. render, compile, track, build and deliver. *)
Definition render_and_deliver (job : SendJobArgs) (attempt maxAttempts : Z) (email : Email)
    (payload : EmailPayload) : M X JobOutcome :=
  let! ctx := unsubscribe_context email in
  let (systemVars, extraHeaders) := ctx in
  match wk_RenderWithSystem w (pl_BodyMJML payload) (pl_InjectorsSnapshot payload)
          (pl_VariablesSnapshot payload) systemVars with
  | Err e => failPermanently email (EWrap "send: render body: " e "")
  | Ok renderedBody =>
      try! html := up (wk_Compile w renderedBody) in
      match html with
      | Err e => failPermanently email (EWrap "send: compile mjml: " e "")
      | Ok bodyHTML =>
          let bodyHTML :=
            if negb (bool_decide (wk_trackingBaseURL w = "")) && em_OpenTrackingEnabled email
            then InjectOpenPixel bodyHTML (wk_trackingBaseURL w) (em_TrackingID email)
            else bodyHTML in
          deliver job attempt maxAttempts email (build_outgoing email bodyHTML extraHeaders)
      end
  end.

(** 4b. the pre-send suppression re-check. *)
Definition recheck_suppression (job : SendJobArgs) (attempt maxAttempts : Z) (email : Email)
    (payload : EmailPayload) : M X JobOutcome :=
  match wk_suppressionStore w with
  | None => render_and_deliver job attempt maxAttempts email payload
  | Some IsSuppressed =>
      let recipient := CanonicalRecipientAddress (em_RecipientEmail email) in
      try! r := up (IsSuppressed (em_WorkspaceID email) recipient) in
      match r with
      | Err _ => render_and_deliver job attempt maxAttempts email payload
      | Ok (false, _) => render_and_deliver job attempt maxAttempts email payload
      | Ok (true, reason) =>
          ignore (up (EmailStore.UpdateStatus (wk_emailStore w) (em_ID email) StatusSuppressed StatusProcessing)) ;;;
          let! suppressedAt := up (Now (wk_rt w)) in
          ignore (new_event email EventTypeSuppressed suppressedAt
                    {["reason" := AStr reason; "detected_at" := AStr "pre_send"]}) ;;;
          ret (JobCancel (EMsg ("send: recipient " +:+ recipient +:+ " suppressed after enqueue (reason="
                                +:+ reason +:+ ")")))
      end
  end.

(** 4-12. from the payload on; [email] carries the in-memory status. *)
Definition process_claimed (job : SendJobArgs) (attempt maxAttempts : Z) (email : Email) : M X JobOutcome :=
  try! payload := up (EmailStore.GetPayload (wk_emailStore w) (em_ID email)) in
  match payload with
  | Err e => failPermanently email (EWrap "send: load email payload: " e "")
  | Ok payload => recheck_suppression job attempt maxAttempts email payload
  end.

(** 2-3. the rate limit and the claim of a queued email. *)
Definition claim_and_process (job : SendJobArgs) (attempt maxAttempts : Z) (email : Email)
    (recovering : bool) : M X JobOutcome :=
  let! allowed :=
    wrap_err (fun e => EWrap "send: rate limiter error: " e "")
             (acquireRateLimitToken (ja_AdapterID job)) in
  if negb allowed then ret (JobSnooze (5 * Second)%Z)
  else
    let! now := up (Now (wk_rt w)) in
    if recovering then process_claimed job attempt maxAttempts email
    else
      try! r := up (EmailStore.UpdateStatus (wk_emailStore w) (em_ID email) StatusProcessing StatusQueued) in
      match r with
      | Err e =>
          if errors_Is e ErrStatusConflict
          then ret (JobCancel (EMsg ("send: email " +:+ uuid_String (em_ID email) +:+
                                     " already claimed (status conflict)")))
          else fail (EWrap "send: update status to processing: " e "")
      | Ok _ =>
          let email := set_em_Status StatusProcessing email in
          ignore (new_event email EventTypeProcessing now ∅) ;;;
          process_claimed job attempt maxAttempts email
      end.

Definition Work (job : SendJobArgs) (attempt maxAttempts : Z) : M X JobOutcome :=
  try! r := up (EmailStore.GetByTrackingID (wk_emailStore w) (ja_TrackingID job)) in
  match r with
  | Err e =>
      ret (JobCancel (EWrap ("send: email not found for tracking_id=" +:+ ja_TrackingID job +:+ ": ") e ""))
  | Ok email =>
      match em_Status email with
      | StatusSent | StatusFailed | StatusSuppressed =>
          ret (JobCancel (EMsg ("email already in terminal state: " +:+ EmailStatus_String (em_Status email))))
      | StatusProcessing =>
          if negb (no_provider_id email) then
            wrap_err (fun e => EWrap "send: recover sent status: " e "")
              (up (EmailStore.UpdateStatus (wk_emailStore w) (em_ID email) StatusSent StatusProcessing)) ;;;
            ret JobDone
          else
            let! now := up (Now (wk_rt w)) in
            if (staleProcessingThreshold <? now - em_UpdatedAt email)%Z then
              failPermanently email (EMsg "send: email stuck in processing, likely crashed during send")
            else claim_and_process job attempt maxAttempts email true
      | _ => claim_and_process job attempt maxAttempts email false
      end
  end.
End Worker.

(** * Theorems *)

(** What the worker's collaborators, the suppression check apart, leave alone: a
    view of the world that only the email store, the check or the provider may
    change. *)
Class WorkerCalls {W S V} (w : SendWorker W S) (v : W -> V) : Prop := {
  wf_rt :: RuntimeFrame (wk_rt w) v;
  wf_Compile b : preserves v (wk_Compile w b);
  wf_AcquireBurst f a n : wk_AcquireBurst w = Some f -> preserves v (f a n);
  wf_runtime ar a : wk_adapterRuntime w = Some ar -> preserves v (ar_GetByID ar a);
  wf_decrypt ar c : wk_adapterRuntime w = Some ar -> preserves v (ar_Decrypt ar c);
  wf_factory ar a c : wk_adapterRuntime w = Some ar -> preserves v (ar_factory ar a c);
  wf_types f s c : wk_GetTypeBySlug w = Some f -> preserves v (f s c);
  wf_key f ws : wk_GetUnsubscribeSigningKey w = Some f -> preserves v (f ws);
  wf_workspace ws : preserves v (wk_GetWorkspace w ws);
}.

(** The suppression check leaves the view alone as well. *)
Class WorkerFrame {W S V} (w : SendWorker W S) (v : W -> V) : Prop := {
  wf_calls :: WorkerCalls w v;
  wf_suppression f ws a : wk_suppressionStore w = Some f -> preserves v (f ws a);
}.

#[export] Hint Resolve wf_Compile wf_AcquireBurst wf_runtime wf_decrypt wf_factory wf_types wf_key
  wf_workspace wf_suppression : senda.

Section Frames.
Context `{GoStd} `{Codec} {W S V : Type} (w : SendWorker W S) (v : W -> V) `{!WorkerCalls w v}.

Lemma acquire_frame a : preserves (on_world v) (acquireRateLimitToken w a).
Proof. unfold acquireRateLimitToken. preserves_tac. Qed.

Lemma resolveSender_frame a : preserves (on_world v) (resolveSender w a).
Proof. unfold resolveSender. preserves_tac. Qed.

Lemma unsubscribe_context_frame email : preserves (on_world v) (unsubscribe_context w email).
Proof. unfold unsubscribe_context. preserves_tac. Qed.

Context (Hev : forall ev, preserves v (EmailStore.AddEvent (wk_emailStore w) ev)).

Lemma new_event_frame email t at_ meta : preserves (on_world v) (new_event w email t at_ meta).
Proof. unfold new_event. preserves_tac. Qed.
End Frames.

#[export] Hint Resolve acquire_frame resolveSender_frame unsubscribe_context_frame new_event_frame : senda.

(** ** The worker and the life of an email *)

Section Life.
Context `{GoStd} `{Codec} {W S : Type} (w : SendWorker W S) (status_of : W -> gmap uuid EmailStatus).
Context `{!EmailStoreLaws (wk_emailStore w) status_of, !WorkerFrame w status_of}.
Context (Hsend : forall s msg, preserves status_of (snd_Send (wk_methods w) s msg)).

Lemma failPermanently_life email reason :
  em_Status email = StatusProcessing -> moves life (on_world status_of) (failPermanently w email reason).
Proof.
  intros Hp. unfold failPermanently. moves_tac.
  apply moves_up, UpdateStatus_moves; [done|]. rewrite Hp. by apply life_event.
Qed.

Lemma deliver_life job a ma email out :
  em_Status email = StatusProcessing -> moves life (on_world status_of) (deliver w job a ma email out).
Proof.
  intros Hp. unfold deliver, handleSendError. moves_tac; try by apply failPermanently_life.
Qed.

Lemma process_claimed_life job a ma email :
  em_Status email = StatusProcessing -> moves life (on_world status_of) (process_claimed w job a ma email).
Proof.
  intros Hp. unfold process_claimed, recheck_suppression, render_and_deliver. moves_tac;
    try by (apply failPermanently_life || apply deliver_life).
Qed.

Lemma claim_life job a ma email recovering :
  (recovering = true -> em_Status email = StatusProcessing) ->
  moves life (on_world status_of) (claim_and_process w job a ma email recovering).
Proof.
  intros Hp. unfold claim_and_process. moves_tac; try (apply process_claimed_life; auto).
Qed.
End Life.

(** The worker moves statuses along the life of an email. *)
Lemma Work_moves `{GoStd} `{Codec} {W S} (w : SendWorker W S) status_of job attempt maxAttempts :
  EmailStoreLaws (wk_emailStore w) status_of -> WorkerFrame w status_of ->
  (forall s msg, preserves status_of (snd_Send (wk_methods w) s msg)) ->
  moves life (on_world status_of) (Work w job attempt maxAttempts).
Proof.
  intros ???. unfold Work. moves_tac; try (apply claim_life; congruence || done);
    try (by apply failPermanently_life).
Qed.

(** C7: the worker keeps the life of an email: whatever the job, the attempt,
    the answers and the failures of its collaborators, a run of [Work] changes
    the status table only along edges of the program's status machine (so,
    with [life_acyclic], never backwards). *)
Theorem Work_life `{GoStd} `{Codec} {W S} (w : SendWorker W S) status_of job attempt maxAttempts :
  EmailStoreLaws (wk_emailStore w) status_of -> WorkerFrame w status_of ->
  (forall s msg, preserves status_of (snd_Send (wk_methods w) s msg)) ->
  moves life (on_world status_of) (Work w job attempt maxAttempts).
Proof. apply Work_moves. Qed.

(** ** At most one mail per run, and only a permitted one *)

(** The message is the one the email row describes. *)
Definition addressed_as (email : Email) (msg : OutgoingEmail) : Prop :=
  out_From msg = mkEmailAddress (em_FromName email) (em_FromEmail email) /\
  out_To msg = mkEmailAddress "" (em_RecipientEmail email) /\
  addr_Address <$> out_CC msg = em_CC email /\ addr_Address <$> out_BCC msg = em_BCC email /\
  out_Subject msg = em_SubjectRendered email /\ out_TrackingID msg = em_TrackingID email.

(** The suppression check answers from a table. *)
Definition answers_from {W} (IsSuppressed : uuid -> string -> M W (bool * string))
    (table : W -> uuid -> string -> option string) : Prop :=
  forall ws a x b reason x', IsSuppressed ws a x = (Ok (b, reason), x') ->
    b = bool_decide (is_Some (table x ws a)).

(** The trace of a run: the suppression checks it made, with their answers
    ([None] when the check failed), and the messages it handed to the provider. *)
Inductive WorkerEvent :=
  | Checked (ws : uuid) (address : string) (answer : option bool)
  | Mailed (msg : OutgoingEmail).

Definition answer_of (r : Res (bool * string)) : option bool :=
  match r with Ok (b, _) => Some b | Err _ => None end.

(** The run from [x] appends a trace that satisfies [P]. *)
Definition traces_at {X A} (v : X -> list WorkerEvent) (P : list WorkerEvent -> Prop) (m : M X A) (x : X) : Prop :=
  exists l, v (m x).2 = v x ++ l /\ P l.

(** Nothing is mailed. *)
Definition no_mail (l : list WorkerEvent) : Prop := forall msg, Mailed msg ∉ l.

(** The trace [l] mails [msg] for [email]: where a suppression store is wired,
    the recipient's canonical address was checked first, in the email's
    workspace, and was not in the table, or that very check failed. *)
Definition mailed_after_check `{GoStd} {W S} (w : SendWorker W S) (t : uuid -> string -> option string) (email : Email)
    (msg : OutgoingEmail) (l : list WorkerEvent) : Prop :=
  match wk_suppressionStore w with
  | None => l = [Mailed msg]
  | Some _ =>
      let ws := em_WorkspaceID email in
      let a := CanonicalRecipientAddress (em_RecipientEmail email) in
      l = [Checked ws a (Some false); Mailed msg] /\ t ws a = None \/ l = [Checked ws a None; Mailed msg]
  end.

Section Traces.
Context {X : Type} (v : X -> list WorkerEvent) (P : list WorkerEvent -> Prop).

Lemma traces_quiet {A} (m : M X A) x : P [] -> preserves v m -> traces_at v P m x.
Proof. intros Hp Hm. exists []. by rewrite Hm, app_nil_r. Qed.

Lemma traces_bind {A B} (m : M X A) (k : A -> M X B) x :
  P [] -> preserves v m -> (forall a x1, m x = (Ok a, x1) -> traces_at v P (k a) x1) -> traces_at v P (bind m k) x.
Proof.
  intros Hp Hm Hk. specialize (Hm x). unfold traces_at, bind. destruct (m x) as [ [a|e] x1] eqn:E; simpl in *.
  - rewrite <- Hm. by apply Hk.
  - exists []. by rewrite app_nil_r.
Qed.

Lemma traces_try {A B} (m : M X A) (k : Res A -> M X B) x :
  preserves v m -> (forall r x1, m x = (r, x1) -> traces_at v P (k r) x1) -> traces_at v P (try m k) x.
Proof.
  intros Hm Hk. specialize (Hm x). unfold traces_at, try. destruct (m x) as [r x1] eqn:E; simpl in *. rewrite <- Hm. by apply Hk.
Qed.

Lemma traces_try_then {A B} (m : M X A) (k : Res A -> M X B) x :
  traces_at v P m x -> (forall r, preserves v (k r)) -> traces_at v P (try m k) x.
Proof. intros Hm Hk. unfold traces_at, try in *. destruct (m x) as [r x1]; simpl in *. by rewrite Hk. Qed.

(** An operation that traces [l], and what follows it. *)
Lemma traces_cons {A B} l (m : M X A) (k : Res A -> M X B) x :
  v (m x).2 = v x ++ l -> (forall r x1, m x = (r, x1) -> traces_at v (fun l' => P (l ++ l')) (k r) x1) ->
  traces_at v P (try m k) x.
Proof.
  intros Hm Hk. unfold traces_at, try in *. destruct (m x) as [r x1] eqn:E; simpl in *.
  destruct (Hk r x1 eq_refl) as (l' & El & Hp). exists (l ++ l'). by rewrite El, Hm, app_assoc.
Qed.

Lemma traces_weaken {A} (Q : list WorkerEvent -> Prop) (m : M X A) x :
  (forall l, P l -> Q l) -> traces_at v P m x -> traces_at v Q m x.
Proof. intros HPQ (l & El & Hp). exists l. auto. Qed.
End Traces.

Lemma no_mail_nil : no_mail [].
Proof. intros msg. apply not_elem_of_nil. Qed.
#[export] Hint Resolve no_mail_nil : senda.

Section Sends.
Context `{GoStd} `{Codec} {W S : Type} (w : SendWorker W S).
Context (trace : W -> list WorkerEvent) (table : W -> uuid -> string -> option string).
Context `{!EmailStoreFrame (wk_emailStore w) trace, !WorkerCalls w trace}.
Context `{!EmailStoreFrame (wk_emailStore w) table, !WorkerFrame w table}.
Context (Hsend : forall s msg x, trace (snd_Send (wk_methods w) s msg x).2 = trace x ++ [Mailed msg]).
Context (Hcheck : forall f ws a x, wk_suppressionStore w = Some f ->
  trace (f ws a x).2 = trace x ++ [Checked ws a (answer_of (f ws a x).1)]).
Context (Htable : forall f, wk_suppressionStore w = Some f -> answers_from f table).

Lemma failPermanently_quiet email reason : preserves (on_world trace) (failPermanently w email reason).
Proof. unfold failPermanently. preserves_tac. Qed.

Lemma handleSendError_quiet email s a ma e : preserves (on_world trace) (handleSendError w email s a ma e).
Proof. unfold handleSendError. preserves_tac; apply failPermanently_quiet. Qed.

(** Nothing, or the message. *)
Definition mails_one (P : OutgoingEmail -> Prop) (l : list WorkerEvent) : Prop :=
  l = [] \/ exists msg, l = [Mailed msg] /\ P msg.

Lemma deliver_traces job a ma email out x :
  traces_at (on_world trace) (mails_one (eq out)) (deliver w job a ma email out) x.
Proof.
  unfold deliver. apply traces_try; [preserves_tac|]. intros [s|e] x1 _.
  - apply traces_try_then.
    + exists [Mailed out]. split; [|right; by eexists]. destruct x1 as [x1 st]. unfold up, on_world.
      specialize (Hsend s out x1). by destruct (snd_Send _ _ _ x1).
    + intros r. preserves_tac. apply handleSendError_quiet.
  - apply traces_quiet; [by left|]. preserves_tac. apply failPermanently_quiet.
Qed.

Lemma render_traces job a ma email payload x :
  traces_at (on_world trace) (mails_one (addressed_as email)) (render_and_deliver w job a ma email payload) x.
Proof.
  assert (Hn : forall P, mails_one P []) by (by left).
  unfold render_and_deliver. apply traces_bind; [done|preserves_tac|]. intros [sys hdr] x1 _.
  destruct (wk_RenderWithSystem w _ _ _ _) as [body|e]; [|apply traces_quiet; [done|apply failPermanently_quiet] ].
  apply traces_try; [preserves_tac|]. intros [html|e] x2 _; [|apply traces_quiet; [done|apply failPermanently_quiet] ].
  eapply traces_weaken; [|apply deliver_traces]. intros l [->|(msg & -> & <-)]; [done|right]. eexists. split; [done|].
  unfold addressed_as, build_outgoing. simpl. repeat split; rewrite <- list_fmap_compose; apply list_fmap_id.
Qed.

(** What a run may append: nothing mailed, or the email's message after its check. *)
Definition clears (t : uuid -> string -> option string) (email : Email) (l : list WorkerEvent) : Prop :=
  no_mail l \/ exists msg, addressed_as email msg /\ mailed_after_check w t email msg l.

Lemma clears_nil t email : clears t email [].
Proof. left. apply no_mail_nil. Qed.
Hint Resolve clears_nil : core.

Lemma recheck_traces job a ma email payload x :
  traces_at (on_world trace) (clears (table x.1) email) (recheck_suppression w job a ma email payload) x.
Proof.
  unfold recheck_suppression, clears, mailed_after_check. destruct (wk_suppressionStore w) as [f|] eqn:Ef.
  2:{ eapply traces_weaken; [|apply render_traces]. intros l [->|(msg & -> & ?)]; [left; apply no_mail_nil|right; eauto]. }
  destruct x as [x st]. set (ws := em_WorkspaceID email). set (addr := CanonicalRecipientAddress _).
  eapply (traces_cons _ _ [Checked ws addr (answer_of (f ws addr x).1)]).
  { unfold up, on_world. simpl. pose proof (Hcheck f ws addr x eq_refl) as Hc. by destruct (f ws addr x). }
  assert (Hn : forall answer, no_mail [Checked ws addr answer]) by (by intros answer msg [=]%list_elem_of_singleton).
  intros r x1 Er. unfold up in Er. simpl. destruct (f ws addr x) as [r' x'] eqn:E. injection Er as -> <-. simpl.
  destruct r as [ [ [] reason]|e].
  - apply traces_quiet; [by left|]. preserves_tac.
  - eapply traces_weaken; [|apply render_traces]. intros l [->|(msg & -> & Hm)]; [by left|right].
    exists msg. split; [done|]. left. split; [done|]. apply (Htable f eq_refl) in E. symmetry in E.
    apply bool_decide_eq_false in E. by apply eq_None_not_Some.
  - eapply traces_weaken; [|apply render_traces]. intros l [->|(msg & -> & Hm)]; [by left|right].
    exists msg. split; [done|]. by right.
Qed.

Lemma claimed_traces job a ma email x :
  traces_at (on_world trace) (clears (table x.1) email) (process_claimed w job a ma email) x.
Proof.
  unfold process_claimed. apply traces_try; [preserves_tac|]. intros r x1 Er.
  assert (Ht : table x1.1 = table x.1).
  { pose proof (preserves_up (S:=WorkerState S) table _ (frame_GetPayload (em_ID email)) x) as Hp.
    rewrite Er in Hp. exact Hp. }
  destruct r as [payload|e]; [|apply traces_quiet; [done|apply failPermanently_quiet] ].
  rewrite <- Ht. apply recheck_traces.
Qed.

Context (status_of : W -> gmap uuid EmailStatus).
Context `{!EmailStoreLaws (wk_emailStore w) status_of, !WorkerFrame w status_of}.

(** A preserved view read after a step is the one before it. *)
Lemma preserved_at {A V} (v : W -> V) (m : M (W * WorkerState S) A) x r x1 :
  preserves (on_world v) m -> m x = (r, x1) -> v x1.1 = v x.1.
Proof. intros Hp E. specialize (Hp x). by rewrite E in Hp. Qed.

Lemma claim_traces job a ma email recovering x :
  traces_at (on_world trace)
    (fun l => no_mail l \/ (recovering = true \/ status_of x.1 !! em_ID email = Some StatusQueued) /\ clears (table x.1) email l)
    (claim_and_process w job a ma email recovering) x.
Proof.
  unfold claim_and_process. apply traces_bind; [left; apply no_mail_nil|preserves_tac|]. intros allowed x1 E1.
  destruct allowed; cbn [negb]; [|apply traces_quiet; [left; apply no_mail_nil|apply preserves_ret] ].
  apply traces_bind; [left; apply no_mail_nil|preserves_tac|]. intros now x2 E2.
  assert (Hv : forall V (v : W -> V), WorkerFrame w v -> v x2.1 = v x.1).
  { intros V v Hw. transitivity (v x1.1).
    - eapply preserved_at; [|exact E2]. preserves_tac.
    - eapply preserved_at; [|exact E1]. preserves_tac. }
  destruct recovering.
  { eapply traces_weaken; [|apply claimed_traces]. intros l. rewrite (Hv _ table) by done. tauto. }
  apply traces_try; [preserves_tac|]. intros r x3 E3. destruct r as [ []|e].
  2:{ apply traces_quiet; [left; apply no_mail_nil|]. preserves_tac. }
  assert (Hq : status_of x2.1 !! em_ID email = Some StatusQueued).
  { destruct x2 as [x2 st2]. unfold up in E3. simpl.
    destruct (EmailStore.UpdateStatus _ _ _ _ x2) as [r' x'] eqn:E. simplify_eq.
    by apply UpdateStatus_ok in E as [? _]. }
  assert (Ht3 : table x3.1 = table x2.1) by (eapply preserved_at; [|exact E3]; preserves_tac).
  apply traces_bind; [left; apply no_mail_nil|preserves_tac|]. intros [] x4 E4.
  assert (Ht4 : table x4.1 = table x3.1) by (eapply preserved_at; [|exact E4]; preserves_tac).
  eapply traces_weaken; [|apply claimed_traces]. intros l Hl. right.
  rewrite (Hv _ status_of) in Hq by done. split; [tauto|].
  rewrite Ht4, Ht3, (Hv _ table) in Hl by done. exact Hl.
Qed.
End Sends.

(** C5: a run of the worker mails at most once, and only what it may: its trace
    mails nothing, or exactly one message, the last thing it does. That message
    is the one the email row describes; the row was still queued (and was
    claimed by this run) or a processing row without a provider id was being
    resumed; and, where a suppression store is wired, this run checked the
    recipient's canonical address in the row's workspace just before, and either
    the suppression tables had no entry for it, or this check of the run failed:
    a failing check lets the message pass, as the code intends. *)
Theorem Work_sends `{GoStd} `{Codec} {W S} (w : SendWorker W S) trace table status_of
    job attempt maxAttempts x :
  EmailStoreFrame (wk_emailStore w) trace -> WorkerCalls w trace ->
  EmailStoreFrame (wk_emailStore w) table -> WorkerFrame w table ->
  EmailStoreLaws (wk_emailStore w) status_of -> WorkerFrame w status_of ->
  (forall s msg y, trace (snd_Send (wk_methods w) s msg y).2 = trace y ++ [Mailed msg]) ->
  (forall f ws a y, wk_suppressionStore w = Some f ->
     trace (f ws a y).2 = trace y ++ [Checked ws a (answer_of (f ws a y).1)]) ->
  (forall f, wk_suppressionStore w = Some f -> answers_from f table) ->
  traces_at (on_world trace)
    (fun l => no_mail l \/
       exists email y msg,
         EmailStore.GetByTrackingID (wk_emailStore w) (ja_TrackingID job) x.1 = (Ok email, y) /\
         (status_of x.1 !! em_ID email = Some StatusQueued \/
          em_Status email = StatusProcessing /\ no_provider_id email = true) /\
         addressed_as email msg /\ mailed_after_check w (table x.1) email msg l)
    (Work w job attempt maxAttempts) x.
Proof.
  intros ??????? Hcheck ?. unfold Work. apply traces_try; [preserves_tac|]. intros r x1 E1.
  assert (Ht : table x1.1 = table x.1) by (eapply preserved_at; [|exact E1]; preserves_tac).
  assert (Hs : status_of x1.1 = status_of x.1) by (eapply preserved_at; [|exact E1]; preserves_tac).
  destruct x as [x st]. unfold up in E1.
  destruct (EmailStore.GetByTrackingID _ _ x) as [r' y] eqn:E. simplify_eq.
  destruct r as [email|e]; [|apply traces_quiet; [left; apply no_mail_nil|apply preserves_ret] ]. simpl in *.
  match goal with |- traces_at _ ?P _ _ => set (Goal := P) end.
  assert (Hnil : Goal []) by (left; apply no_mail_nil).
  assert (Hq : forall recovering z, table z.1 = table y -> status_of z.1 = status_of y ->
    (recovering = true -> em_Status email = StatusProcessing /\ no_provider_id email = true) ->
    traces_at (on_world trace) Goal (claim_and_process w job attempt maxAttempts email recovering) z).
  { intros recovering z Hz1 Hz2 Hr. eapply traces_weaken; [|by eapply claim_traces with (table := table)].
    intros l [?|[Hst [?|(msg & Had & Hl)] ] ]; [by left..|right]. exists email, y, msg.
    rewrite <- Hs, <- Ht, <- Hz1, <- Hz2. split_and!; [done|tauto|done|done]. }
  destruct (em_Status email) eqn:Es; try (by apply Hq); try (by apply traces_quiet; [|apply preserves_ret]).
  destruct (no_provider_id email) eqn:En; cbn [negb]; [|apply traces_quiet; [done|preserves_tac] ].
  apply traces_bind; [done|preserves_tac|]. intros now z Ez.
  destruct (_ <? _)%Z; [by apply traces_quiet; [|apply failPermanently_quiet]|].
  apply Hq; [| |done].
  - eapply (preserved_at table (up (Now (wk_rt w))) (y, st)); [|exact Ez]. preserves_tac.
  - eapply (preserved_at status_of (up (Now (wk_rt w))) (y, st)); [|exact Ez]. preserves_tac.
Qed.
