(* ===== verification/RateLimit.v ===== *)
(** * Rate limiting and retries of the worker

    The local reservations spend no more tokens than the provider's bucket
    granted, whatever the interleaving of sends and cleanups, and the backoff
    stays below the staleness threshold of a resumed send. *)
From stdpp Require Import base gmap strings list.
From Stdlib Require Import ZArith String Lia.
From S2P Require Import Prelude GoMonad Domain Ports Token EventProcessor SendWorker.

(** The critical sections the worker's goroutines run, in any order. *)
Inductive limiter_op := OpAcquire (adapterID : uuid) | OpCleanup (now : gotime).

Section Limiter.
Context {W S : Type} (w : SendWorker W S).

(** Runs a schedule; the adapters a send was allowed for, in order. *)
Fixpoint run_limiter (ops : list limiter_op) (x : W * WorkerState S) : list uuid * (W * WorkerState S) :=
  match ops with
  | [] => ([], x)
  | OpAcquire a :: r =>
      let '(res, x1) := acquireRateLimitToken w a x in
      let '(g, x2) := run_limiter r x1 in
      (match res with Ok true => a :: g | _ => g end, x2)
  | OpCleanup now :: r => run_limiter r (x.1, cleanupExpiredRateLimitReservations w now x.2)
  end.

(** The tokens an adapter has in the local reservation. *)
Definition local_tokens (x : W * WorkerState S) (a : uuid) : Z :=
  match wst_rateLimits x.2 !! a with Some r => rl_available r | None => 0%Z end.

Definition grants (a : uuid) (l : list uuid) : Z := Z.of_nat (List.length (List.filter (N.eqb a) l)).

Definition reservations_ok (st : WorkerState S) : Prop :=
  map_Forall (fun _ r => (0 <= rl_available r)%Z) (wst_rateLimits st).

(** What the limiter gave: [reserved] counts the tokens of an adapter the
    bucket handed out. *)
Context (reserved : W -> uuid -> Z).
Definition counts_reserved (f : uuid -> Z -> M W Z) : Prop :=
  forall a n x r x', f a n x = (r, x') ->
    reserved x' = fun b => (reserved x b + if N.eqb a b then match r with Ok k => Z.max 0 k | Err _ => 0 end else 0)%Z.

Lemma refresh_bounds now r :
  (0 <= rl_available r -> 0 <= rl_available (refresh_reservation w now r) <= rl_available r)%Z.
Proof. unfold refresh_reservation. destruct (_ && _); simpl; lia. Qed.

Context (f : uuid -> Z -> M W Z) (Hf : wk_AcquireBurst w = Some f) (Hcount : counts_reserved f).
Context (Hnow : RuntimeFrame (wk_rt w) reserved).

Lemma acquire_step a x res x' :
  reservations_ok x.2 -> acquireRateLimitToken w a x = (res, x') ->
  reservations_ok x'.2 /\
  forall b, (local_tokens x' b + (match res with Ok true => if N.eqb b a then 1 else 0 | _ => 0 end)
             <= local_tokens x b + (reserved x'.1 b - reserved x.1 b))%Z.
Proof.
  intros Hinv. destruct x as [x st]. unfold acquireRateLimitToken. rewrite Hf.
  unfold bind at 1, up at 1. destruct (Now (wk_rt w) x) as [[now|e] x1] eqn:E1.
  2:{ unfold Now, total in E1. by destruct (rt_Now _ _). }
  assert (Hr1 : reserved x1 = reserved x).
  { pose proof (frame_Now (V:=uuid -> Z) (v:=reserved) x) as Hp. by rewrite E1 in Hp. }
  cbv beta. unfold bind at 1, get_state. simpl.
  set (r0 := default (mkReservation 0 None) (wst_rateLimits st !! a)).
  assert (Hr0 : (0 <= rl_available r0)%Z /\ rl_available r0 = local_tokens (x, st) a).
  { unfold r0, local_tokens. simpl. destruct (wst_rateLimits st !! a) eqn:El; simpl; [|done].
    split; [|done]. by apply (Hinv a). }
  destruct (refresh_bounds now r0) as [Hb1 Hb2]; [tauto|].
  set (r := refresh_reservation w now r0) in *. clearbody r.
  assert (Hins : forall r', (0 <= rl_available r')%Z ->
            map_Forall (fun _ r => (0 <= rl_available r)%Z) (<[a := r']> (wst_rateLimits st))).
  { intros r' Hr'. apply map_Forall_insert_2; done. }
  destruct (Z.ltb_spec 0 (rl_available r)) as [Hpos|Hzero].
  - unfold bind, set_state. intros [= <- <-]. simpl. split; [apply Hins; simpl; lia|].
    intros b. unfold local_tokens. simpl. rewrite Hr1. destruct (N.eqb_spec b a) as [->|Hne].
    + rewrite lookup_insert_eq. simpl. fold (local_tokens (x, st) a). unfold local_tokens in Hr0. simpl in Hr0. lia.
    + rewrite lookup_insert_ne by congruence. lia.
  - unfold bind at 1, set_state. simpl. unfold bind at 1, up. simpl.
    destruct (f a (wk_burst w) x1) as [[n|e] x2] eqn:E2; pose proof (Hcount _ _ _ _ _ E2) as Hr2; simpl.
    + destruct (Z.ltb_spec n 1) as [Hn|Hn].
      * intros [= <- <-]. simpl. split; [apply Hins; lia|].
        intros b. rewrite Hr2, Hr1. unfold local_tokens in *. simpl in *.
        destruct (N.eqb_spec a b) as [->|Hne].
        -- rewrite lookup_insert_eq. lia.
        -- rewrite lookup_insert_ne by congruence. lia.
      * unfold bind. intros [= <- <-]. simpl.
        assert (Hm : forall st', wst_rateLimits (maybeScheduleRateLimitCleanup w now st') = wst_rateLimits st').
        { intros st'. unfold maybeScheduleRateLimitCleanup. by repeat case_match. }
        unfold reservations_ok, local_tokens in *. simpl in *. rewrite Hm. simpl. rewrite insert_insert_eq.
        split; [apply Hins; simpl; lia|]. intros b. rewrite Hr2, Hr1.
        destruct (N.eqb_spec a b) as [->|Hne].
        -- rewrite lookup_insert_eq, N.eqb_refl. simpl. lia.
        -- rewrite lookup_insert_ne by congruence. rewrite (proj2 (N.eqb_neq b a)) by congruence. lia.
    + intros [= <- <-]. simpl. split; [apply Hins; lia|].
      intros b. rewrite Hr2, Hr1. unfold local_tokens in *. simpl in *.
      destruct (N.eqb_spec a b) as [->|Hne].
      * rewrite lookup_insert_eq. lia.
      * rewrite lookup_insert_ne by congruence. lia.
Qed.

Lemma cleanup_step now x :
  reservations_ok x.2 ->
  reservations_ok (cleanupExpiredRateLimitReservations w now x.2) /\
  forall b, (local_tokens (x.1, cleanupExpiredRateLimitReservations w now x.2) b <= local_tokens x b)%Z.
Proof.
  intros Hinv. split.
  - unfold reservations_ok, cleanupExpiredRateLimitReservations. simpl. intros b r Hr.
    apply map_lookup_filter_Some in Hr as [Hr _]. by apply (Hinv b).
  - intros b. unfold local_tokens, cleanupExpiredRateLimitReservations. simpl.
    destruct (filter _ _ !! b) as [r|] eqn:E.
    + apply map_lookup_filter_Some in E as [-> _]. lia.
    + destruct (wst_rateLimits x.2 !! b) eqn:E2; [|lia]. by apply (Hinv b) in E2.
Qed.
End Limiter.

(** C38: the worker never spends a token it was not given: over any schedule of
    rate-limit checks and reservation cleanups, the sends allowed for an adapter
    plus the tokens still held locally are at most the tokens held locally at
    the start (none in a fresh worker) plus those the provider's bucket reserved
    for that adapter meanwhile. *)
Theorem tokens_conserved {W S} (w : SendWorker W S) reserved f ops x g x' :
  wk_AcquireBurst w = Some f -> counts_reserved reserved f -> RuntimeFrame (wk_rt w) reserved ->
  reservations_ok x.2 ->
  run_limiter w ops x = (g, x') ->
  forall a, (grants a g + local_tokens x' a <= local_tokens x a + (reserved x'.1 a - reserved x.1 a))%Z.
Proof.
  intros Hf Hc Hn. revert x g x'. induction ops as [|[b|now] ops IH]; intros x g x' Hinv; simpl.
  - intros [= <- <-] a. unfold grants. simpl. lia.
  - destruct (acquireRateLimitToken w b x) as [res x1] eqn:E1.
    destruct (run_limiter w ops x1) as [g2 x2] eqn:E2. intros [= <- <-] a.
    destruct (acquire_step w reserved f Hf Hc Hn b x res x1 Hinv E1) as [Hinv1 Hstep].
    specialize (IH x1 g2 x2 Hinv1 E2 a). specialize (Hstep a).
    destruct res as [[]|e]; [|lia|lia]. unfold grants in *. cbn [List.filter].
    destruct (N.eqb a b); cbn [List.length]; lia.
  - intros E a. destruct (cleanup_step w now x Hinv) as [Hinv1 Hle].
    specialize (IH (x.1, cleanupExpiredRateLimitReservations w now x.2) _ _ Hinv1 E a). specialize (Hle a). simpl in *. lia.
Qed.

(** A world that only counts tokens, with a bucket that grants every request. *)
Definition counting_worker : SendWorker (uuid -> Z) unit :=
  {| wk_rt := {| rt_NewV7 := fun x => (1%N, x); rt_Now := fun x => (5%Z, x) |};
     wk_emailStore := {| EmailStore.GetByTrackingID := fun _ => fail (EMsg "");
                         EmailStore.GetByProviderMessageID := fun _ => fail (EMsg "");
                         EmailStore.GetPayload := fun _ => fail (EMsg "");
                         EmailStore.UpdateStatus := fun _ _ _ => ret tt;
                         EmailStore.UpdateRetry := fun _ _ _ => ret tt;
                         EmailStore.SetProviderMessageID := fun _ _ => ret tt;
                         EmailStore.AddEvent := fun _ => ret tt |};
     wk_Compile := ret; wk_RenderWithSystem := fun b _ _ _ => Ok b;
     wk_AcquireBurst := Some (fun a n x => (Ok n, fun b => (x b + if N.eqb a b then Z.max 0 n else 0)%Z));
     wk_methods := {| snd_Send := fun _ _ => ret ""; snd_IsPermanent := fun _ => None |};
     wk_sender := Some tt; wk_adapterRuntime := None; wk_trackingBaseURL := ""; wk_burst := 4;
     wk_reservationTTL := (10 * Minute)%Z; wk_cleanupInterval := Minute; wk_GetTypeBySlug := None;
     wk_GetUnsubscribeSigningKey := None; wk_GetWorkspace := fun _ => ret None; wk_publicBaseURL := "";
     wk_suppressionStore := None |}.

Lemma tokens_conserved_witness :
  let r := run_limiter counting_worker
             [OpAcquire 9; OpAcquire 9; OpCleanup 100; OpAcquire 9; OpAcquire 9; OpAcquire 9]
             (fun _ => 0%Z, mkWorkerState ∅ ∅ false None) in
  (grants 9 r.1 + local_tokens r.2 9 <= 0 + (r.2.1 9%N - 0))%Z /\ grants 9 r.1 = 5%Z /\ r.2.1 9%N = 8%Z.
Proof.
  intros r. split; [|vm_compute; done].
  refine (tokens_conserved counting_worker id (fun a n x => (Ok n, fun b => (x b + if N.eqb a b then Z.max 0 n else 0)%Z))
           [OpAcquire 9; OpAcquire 9; OpCleanup 100; OpAcquire 9; OpAcquire 9; OpAcquire 9]
           (fun _ => 0%Z, mkWorkerState ∅ ∅ false None) r.1 r.2 _ _ _ _ _ 9%N).
  - reflexivity.
  - intros a n x res x' [= <- <-]. reflexivity.
  - by split.
  - apply map_Forall_empty.
  - apply surjective_pairing.
Defined.

(** ** Retries *)

(** within the five attempts a send job has, the backoff is exactly
    60 * 2^(attempt-1) seconds with no overflow, it grows, and the wait before
    any retry is shorter than the ten minutes after which a processing email
    counts as stuck: a retry of a failed send resumes it. *)
Theorem sendBackoff_bounds attempt :
  (1 <= attempt < send_MaxAttempts)%Z ->
  sendBackoff attempt = (60 * 2 ^ (attempt - 1) * Second)%Z /\
  (sendBackoff attempt < sendBackoff (attempt + 1))%Z /\
  (sendBackoff attempt < staleProcessingThreshold)%Z.
Proof.
  unfold send_MaxAttempts. intros Ha.
  assert (attempt = 1 \/ attempt = 2 \/ attempt = 3 \/ attempt = 4)%Z as [->|[->|[->| ->] ] ] by lia;
    vm_compute; done.
Qed.

Lemma sendBackoff_bounds_witness : sendBackoff 4 = (480 * Second)%Z.
Proof. destruct (sendBackoff_bounds 4) as [E _]; [unfold send_MaxAttempts; lia|exact E]. Defined.
