(* ===== verification/WorkerRuns.v ===== *)
(** * The worker on the database

    A worker wired to the PostgreSQL repositories: the witnesses of the
    worker's theorems, and what its retry policy and its rate limiting give. *)
From stdpp Require Import base gmap strings list.
From Stdlib Require Import ZArith String Lia.
From S2P Require Import Prelude GoMonad Domain Ports Token Suppression EventProcessor Postgres.
From S2P Require Import Feedback SendWorker.

Section Wiring.
Context `{GoStd}.

(** A provider that accepts every message. *)
Definition accept_all : SenderMethods Sys unit := {|
  snd_Send := fun _ msg s => (Ok "ses-1", set_log (fun l => l ++ [ASent msg]) s);
  snd_IsPermanent := fun _ => None;
|}.

Definition pg_worker : SendWorker Sys unit := {|
  wk_rt := sys_runtime;
  wk_emailStore := EmailRepo;
  wk_Compile := fun b => ret b;
  wk_RenderWithSystem := fun b _ _ _ => Ok b;
  wk_AcquireBurst := None;
  wk_methods := accept_all;
  wk_sender := Some tt;
  wk_adapterRuntime := None;
  wk_trackingBaseURL := "";
  wk_burst := 4;
  wk_reservationTTL := (10 * Minute)%Z;
  wk_cleanupInterval := Minute;
  wk_GetTypeBySlug := None;
  wk_GetUnsubscribeSigningKey := None;
  wk_GetWorkspace := fun _ => ret None;
  wk_publicBaseURL := "";
  wk_suppressionStore := Some IsSuppressed;
|}.

#[export] Instance EmailRepo_reason : EmailStoreFrame EmailRepo suppression_reason.
Proof. split; repo_frame. Qed.

#[export] Instance pg_worker_frame {V} (v : Sys -> V) :
  RuntimeFrame sys_runtime v -> (forall ws a, preserves v (IsSuppressed ws a)) -> WorkerFrame pg_worker v.
Proof. intros Hr Hs. split; [by split|]. simpl. intros f ws a [= <-]. apply Hs. Qed.

#[export] Instance sys_runtime_reason : RuntimeFrame sys_runtime suppression_reason.
Proof. by split. Qed.

Lemma IsSuppressed_answers : answers_from IsSuppressed suppression_reason.
Proof.
  intros ws a s b reason s' (fs & [E|[(m & [=] & _)|(m & [=] & _)]])%stmt_cases.
  change (suppression_reason (set_faults (fun _ => fs) s) ws a) with (suppression_reason s ws a) in E.
  destruct (suppression_reason s ws a); by simplify_eq.
Qed.

(** The same worker over the database and a trace of its run. *)
Abbreviation Traced := (Sys * list WorkerEvent)%type.

Definition lift_store {S} (es : EmailStore.t Sys) : EmailStore.t (Sys * S) := {|
  EmailStore.GetByTrackingID := fun tid => up (EmailStore.GetByTrackingID es tid);
  EmailStore.GetByProviderMessageID := fun m => up (EmailStore.GetByProviderMessageID es m);
  EmailStore.GetPayload := fun id => up (EmailStore.GetPayload es id);
  EmailStore.UpdateStatus := fun id new old => up (EmailStore.UpdateStatus es id new old);
  EmailStore.UpdateRetry := fun id n t => up (EmailStore.UpdateRetry es id n t);
  EmailStore.SetProviderMessageID := fun id m => up (EmailStore.SetProviderMessageID es id m);
  EmailStore.AddEvent := fun ev => up (EmailStore.AddEvent es ev);
|}.

#[export] Instance lift_store_frame {S V} es (v : Sys -> V) :
  EmailStoreFrame es v -> EmailStoreFrame (lift_store (S:=S) es) (on_world v).
Proof. intros Hes. by split; intros; apply preserves_up, Hes. Qed.

Lemma up_step {A S} (m : M Sys A) (x : Sys * S) r x' : up m x = (r, x') -> m x.1 = (r, x'.1).
Proof. destruct x as [x st]. unfold up. destruct (m x) as [r' y] eqn:E. intros [= <- <-]. exact E. Qed.

#[export] Instance lift_store_laws {S} es status :
  EmailStoreLaws es status -> EmailStoreLaws (lift_store (S:=S) es) (on_world status).
Proof.
  intros Hes. split; unfold on_world; simpl.
  - intros id new old w w' E%up_step. by eapply UpdateStatus_ok.
  - intros id new old w e w' E%up_step. by eapply UpdateStatus_err.
  - intros tid. apply preserves_up, Hes.
  - intros m. apply preserves_up, Hes.
  - intros id. apply preserves_up, Hes.
  - intros id n t. apply preserves_up, Hes.
  - intros id m. apply preserves_up, Hes.
  - intros ev. apply preserves_up, Hes.
Qed.

Definition lifted_runtime {S} : Runtime (Sys * S) := {|
  rt_NewV7 := fun x => let '(i, s) := rt_NewV7 sys_runtime x.1 in (i, (s, x.2));
  rt_Now := fun x => let '(t, s) := rt_Now sys_runtime x.1 in (t, (s, x.2));
|}.

Definition traced_check (ws : uuid) (a : string) : M Traced (bool * string) := fun x =>
  let '(r, s) := IsSuppressed ws a x.1 in (r, (s, x.2 ++ [Checked ws a (answer_of r)])).

Definition traced_methods : SenderMethods Traced unit := {|
  snd_Send := fun s msg x => let '(r, s') := snd_Send accept_all s msg x.1 in (r, (s', x.2 ++ [Mailed msg]));
  snd_IsPermanent := fun _ => None;
|}.

Definition traced_worker : SendWorker Traced unit := {|
  wk_rt := lifted_runtime;
  wk_emailStore := lift_store EmailRepo;
  wk_Compile := fun b => ret b;
  wk_RenderWithSystem := fun b _ _ _ => Ok b;
  wk_AcquireBurst := None;
  wk_methods := traced_methods;
  wk_sender := Some tt;
  wk_adapterRuntime := None;
  wk_trackingBaseURL := "";
  wk_burst := 4;
  wk_reservationTTL := (10 * Minute)%Z;
  wk_cleanupInterval := Minute;
  wk_GetTypeBySlug := None;
  wk_GetUnsubscribeSigningKey := None;
  wk_GetWorkspace := fun _ => ret None;
  wk_publicBaseURL := "";
  wk_suppressionStore := Some traced_check;
|}.

Lemma lift_store_trace {S} es : EmailStoreFrame (lift_store (S:=S) es) snd.
Proof. by split; intros; intros [x st]; unfold up; simpl; case_match. Qed.

Lemma traced_calls {V} (v : Traced -> V) : RuntimeFrame lifted_runtime v -> WorkerCalls traced_worker v.
Proof. intros Hr. by split. Qed.

Lemma traced_frame {V} (v : Sys -> V) :
  RuntimeFrame sys_runtime v -> (forall ws a, preserves v (IsSuppressed ws a)) -> WorkerFrame traced_worker (on_world v).
Proof.
  intros [Hn Ht] Hs. split.
  - apply traced_calls. split; intros [x l]; [specialize (Hn x)|specialize (Ht x)]; exact Hn || exact Ht.
  - intros f ws a [= <-] [x l]. specialize (Hs ws a x). unfold traced_check, on_world. simpl. by destruct (IsSuppressed ws a x).
Qed.

Lemma traced_answers : answers_from traced_check (on_world suppression_reason).
Proof.
  intros ws a [x l] b reason x'. unfold traced_check. simpl. destruct (IsSuppressed ws a x) as [r s] eqn:E.
  intros [= -> _]. by apply IsSuppressed_answers in E.
Qed.
End Wiring.

Definition idle : WorkerState unit := mkWorkerState ∅ ∅ false None.
Definition sample_job : SendJobArgs :=
  {| ja_EmailID := 42; ja_TrackingID := "trk_1"; ja_AdapterID := 9; ja_Priority := 1 |}.

Definition queued_sys : Sys :=
  mkSys {[42%N := sample_email StatusQueued "user@x.io"]}
    {[42%N := {| pl_EmailID := 42; pl_EmailCreatedAt := 0; pl_BodyMJML := "hello";
                 pl_VariablesSnapshot := ∅; pl_InjectorsSnapshot := ∅; pl_CreatedAt := 0; pl_UpdatedAt := 0 |}]}
    [] ∅ ∅ ∅ ∅ ∅ 1000 1 [] [].

Lemma Work_life_witness :
  let G := ascii_std in let C := sample_codec in
  rtc (table_step life) (status_of queued_sys)
    (status_of (Work pg_worker sample_job 1 5 (queued_sys, idle)).2.1) /\
  status_of (Work pg_worker sample_job 1 5 (queued_sys, idle)).2.1 !! 42%N = Some StatusSent.
Proof.
  intros G C. split; [|vm_compute; reflexivity].
  refine (Work_life pg_worker status_of sample_job 1 5 _ _ _ (queued_sys, idle)); [apply _| |by intros []].
  apply pg_worker_frame; [apply _|]. intros ws a. repo_frame.
Defined.

Definition bounced : SuppressionGlobal :=
  {| sg_ID := 70; sg_Email := "user@x.io"; sg_Reason := SuppressionHardBounce; sg_SourceEmailID := None; sg_Notes := None;
     sg_CreatedAt := 0; sg_RemovedAt := None; sg_RemovedBy := None; sg_RemovalReason := None |}.

(** A queued email is checked and mailed; a suppressed one is checked and not
    mailed; when the check fails, the message passes. *)
Definition traced_run (s : Sys) : list WorkerEvent :=
  let G := ascii_std in let C := sample_codec in (Work traced_worker sample_job 1 5 ((s, []), idle)).2.1.2.

Lemma Work_sends_witness :
  let G := ascii_std in let C := sample_codec in
  let x := ((queued_sys, []), idle) in
  traces_at (on_world snd)
    (fun l => no_mail l \/
       exists email y msg,
         up (GetByTrackingID "trk_1") x.1 = (Ok email, y) /\
         (status_of queued_sys !! em_ID email = Some StatusQueued \/
          em_Status email = StatusProcessing /\ no_provider_id email = true) /\
         addressed_as email msg /\ mailed_after_check traced_worker (suppression_reason queued_sys) email msg l)
    (Work traced_worker sample_job 1 5) x /\
  (exists msg, traced_run queued_sys = [Checked 7 "user@x.io" (Some false); Mailed msg]) /\
  traced_run (set_global (fun _ => {["user@x.io" := bounced]}) queued_sys) = [Checked 7 "user@x.io" (Some true)] /\
  (exists msg, traced_run (set_faults (fun _ => [FaultNone; FaultNone; FaultNone; FaultNone; FaultBefore "timeout"]) queued_sys) =
     [Checked 7 "user@x.io" None; Mailed msg]).
Proof.
  intros G C x. split; [|split; [|split] ]; [|eexists|idtac|eexists]; [|vm_compute; reflexivity..].
  apply (Work_sends traced_worker snd (on_world suppression_reason) (on_world status_of)); try apply _.
  - apply lift_store_trace.
  - apply traced_calls. by split; intros [x' l].
  - apply traced_frame; [apply _|]. intros ws a. repo_frame.
  - apply traced_frame; [apply _|]. intros ws a. repo_frame.
  - intros [] msg y. done.
  - intros f ws a y [= <-]. simpl. unfold traced_check. by destruct (IsSuppressed ws a y.1).
  - intros f [= <-]. apply traced_answers.
Defined.

(** the last attempt settles the email: when the provider fails on the last
    attempt (or fails for good on any attempt), and the database answers, the
    email ends failed, a failure event is recorded and the job is cancelled -
    it is never left in processing. *)
Theorem final_attempt_settles `{GoStd} {S} (w : SendWorker Sys S) sender s st email row attempt maxAttempts e :
  wk_emailStore w = EmailRepo -> wk_rt w = sys_runtime -> sys_faults s = [] ->
  sys_emails s !! em_ID email = Some row -> em_Status row = StatusProcessing ->
  em_Status email = StatusProcessing ->
  isPermanentSendError w sender e = true \/ (maxAttempts <= attempt)%Z ->
  exists reason s' ev, handleSendError w email sender attempt maxAttempts e (s, st) = (Ok (JobCancel reason), (s', st)) /\
    status_of s' = <[em_ID email := StatusFailed]> (status_of s) /\
    sys_events s' = sys_events s ++ [ev] /\ ev_EmailID ev = em_ID email /\ ev_EventType ev = EventTypeFailed /\
    sys_log s' = sys_log s.
Proof.
  intros Hw Hrt Hf He Hr Hs Hend.
  assert (Hrun : forall reason, exists s' ev,
    failPermanently w email reason (s, st) = (Ok (JobCancel reason), (s', st)) /\
    status_of s' = <[em_ID email := StatusFailed]> (status_of s) /\
    sys_events s' = sys_events s ++ [ev] /\ ev_EmailID ev = em_ID email /\ ev_EventType ev = EventTypeFailed /\
    sys_log s' = sys_log s).
  { intros reason. unfold failPermanently, new_event. rewrite Hw, Hrt.
    unfold ignore, bind, up, Now, NewV7, total. simpl. unfold UpdateStatus.
    rewrite no_faults_stmt, He, Hr, Hs by done. rewrite bool_decide_eq_true_2 by done. simpl.
    unfold AddEvent. rewrite no_faults_stmt by done. simpl.
    do 2 eexists. split; [done|]. split; [|done].
    unfold status_of. simpl. by rewrite fmap_insert. }
  unfold handleSendError. destruct (isPermanentSendError w sender e); [eauto|].
  destruct Hend as [?|Hm]; [done|]. rewrite (proj2 (Z.leb_le _ _) Hm). eauto.
Qed.

Lemma final_attempt_settles_witness :
  let G := ascii_std in
  exists reason s' ev,
    handleSendError pg_worker (sample_email StatusProcessing "user@x.io") tt 5 5 (EMsg "timeout")
      (sample_sys (sample_email StatusProcessing "user@x.io"), idle) = (Ok (JobCancel reason), (s', idle)) /\
    status_of s' = <[42%N := StatusFailed]> (status_of (sample_sys (sample_email StatusProcessing "user@x.io"))) /\
    sys_events s' = [] ++ [ev] /\ ev_EmailID ev = 42%N /\ ev_EventType ev = EventTypeFailed /\ sys_log s' = [].
Proof.
  intros G. apply (final_attempt_settles pg_worker tt (sample_sys (sample_email StatusProcessing "user@x.io")) idle
    (sample_email StatusProcessing "user@x.io") (sample_email StatusProcessing "user@x.io") 5 5 (EMsg "timeout"));
    try reflexivity. right. lia.
Defined.
