(* ===== verification/SNS.v ===== *)
(** * Messages of the provider ([adapter/sns/verifier.go], [adapter/ses/webhook/translator.go],
    [adapter/postgres/sns_replay_repo.go])

    The signature of an SNS message and the cache of signing certificates, its
    translation to an event of the provider, and the table that remembers the
    messages already taken. The HTTP client, the certificates, RSA and the JSON
    codec are parameters. *)
From stdpp Require Import base gmap strings list fin_maps.
From Stdlib Require Import ZArith NArith Ascii String Lia.
From S2P Require Import Prelude GoMonad Domain Ports Config.
From S2P Require Import Suppression Postgres Database.

(** [net/http]: a response, with its body as far as it could be read. *)
Record HttpResponse := mkHttpResponse { hr_Status : Z; hr_Body : Res string }.

(** ** Hosts

    [^sns\.[a-z]{2}(-[a-z]+-\d+)\.amazonaws\.com$], the pattern of both packages. *)
Definition nonempty (s : string) : bool := negb (bool_decide (s = "")).

Definition sns_host (host : string) : bool :=
  match strip_prefix "sns." host with
  | Some (String a (String b (String dash r))) =>
      let '(area, r) := span is_lower_ascii r in
      match r with
      | String dash' r =>
          let '(number, r) := span is_digit_ascii r in
          is_lower_ascii a && is_lower_ascii b && Ascii.eqb dash "-" && nonempty area && Ascii.eqb dash' "-"
          && nonempty number && bool_decide (r = ".amazonaws.com")
      | EmptyString => false
      end
  | _ => false
  end.

(** ** The verifier *)

Inductive crypto_Hash := crypto_SHA1 | crypto_SHA256.

(** [encoding/pem], [crypto/x509], [crypto/rsa], the hash functions and
    [base64.StdEncoding]. *)
Class SnsCrypto := {
  Cert : Type;
  RSAKey : Type;
  pem_Decode : string -> option string;
  ParseCertificate : string -> Res Cert;
  rsa_PublicKey : Cert -> option RSAKey;
  VerifyPKCS1v15 : RSAKey -> crypto_Hash -> string -> string -> bool;
  hash_Sum : crypto_Hash -> string -> string;
  std_b64_decode : string -> Res string;
}.

Record snsMessageFields := mkSnsFields {
  sf_Type : string;
  sf_MessageId : string;
  sf_TopicArn : string;
  sf_Message : string;
  sf_Timestamp : string;
  sf_Subject : string;
  sf_Token : string;
  sf_SubscribeURL : string;
  sf_SignatureVersion : string;
  sf_Signature : string;
  sf_SigningCertURL : string;
}.

Definition ErrInvalidSignatureVersion : string := "sns: unsupported signature version".
Definition ErrInvalidCertURL : string := "sns: signing cert URL is not a valid amazonaws.com endpoint".
Definition ErrCertFetch : string := "sns: failed to fetch signing certificate".
Definition ErrCertParse : string := "sns: failed to parse signing certificate".
Definition ErrSignatureInvalid : string := "sns: signature verification failed".
Definition ErrMalformedMessage : string := "sns: malformed SNS message".

Definition nl : string := bytes [10].
(** One name and value of the string to sign, a line each. *)
Definition line (name value : string) : string := name +:+ nl +:+ value +:+ nl.

Definition buildStringToSign (msg : snsMessageFields) : string :=
  if bool_decide (sf_Type msg = "Notification") then
    line "Message" (sf_Message msg) +:+ line "MessageId" (sf_MessageId msg)
    +:+ (if bool_decide (sf_Subject msg = "") then "" else line "Subject" (sf_Subject msg))
    +:+ line "Timestamp" (sf_Timestamp msg) +:+ line "TopicArn" (sf_TopicArn msg) +:+ line "Type" (sf_Type msg)
  else if bool_decide (sf_Type msg ∈ ["SubscriptionConfirmation"; "UnsubscribeConfirmation"]) then
    line "Message" (sf_Message msg) +:+ line "MessageId" (sf_MessageId msg) +:+ line "SubscribeURL" (sf_SubscribeURL msg)
    +:+ line "Timestamp" (sf_Timestamp msg) +:+ line "Token" (sf_Token msg)
    +:+ line "TopicArn" (sf_TopicArn msg) +:+ line "Type" (sf_Type msg)
  else "".

Definition certCacheMaxSize : Z := 100.
Definition certCacheTTL : duration := Hour.

Record certCacheEntry `{SnsCrypto} := mkCertEntry { ce_cert : Cert; ce_cachedAt : gotime }.

(** The memory of a verifier: the certificates by URL and their count. *)
Record CertCache `{SnsCrypto} := mkCertCache { cc_certs : gmap string certCacheEntry; cc_size : Z }.
Arguments mkCertEntry {_}. Arguments mkCertCache {_}.

Section Verifier.
Context `{GoStd} `{UrlParser} `{SnsCrypto} `{JSON snsMessageFields}.
Context {W : Type} (time_Now : M W gotime) (http_Get : string -> M W HttpResponse).

Definition validateCertURL (certURL : string) : Res unit :=
  match url_Parse certURL with
  | Err e => Err (EMsg (ErrInvalidCertURL +:+ ": " +:+ error_string e))
  | Ok parsed =>
      if negb (bool_decide (url_Scheme parsed = "https")) then Err (EMsg (ErrInvalidCertURL +:+ ": scheme must be https"))
      else if negb (sns_host (url_Host parsed))
      then Err (EMsg (ErrInvalidCertURL +:+ ": host " +:+ Quote (url_Host parsed)
                      +:+ " is not a valid SNS endpoint (expected sns.<region>.amazonaws.com)"))
      else Ok tt
  end.

Definition incrementCacheSize (c : CertCache) : CertCache := mkCertCache (cc_certs c) (cc_size c + 1).
Definition decrementCacheSize (c : CertCache) : CertCache :=
  mkCertCache (cc_certs c) (if (0 <? cc_size c)%Z then cc_size c - 1 else cc_size c).
Definition evictIfNeeded (c : CertCache) : CertCache :=
  if (certCacheMaxSize <=? cc_size c)%Z then mkCertCache ∅ 0 else c.
Definition delete_cert (url : string) (c : CertCache) : CertCache := mkCertCache (delete url (cc_certs c)) (cc_size c).
Definition store_cert (url : string) (entry : certCacheEntry) (c : CertCache) : CertCache :=
  mkCertCache (<[url := entry]> (cc_certs c)) (cc_size c).

(** The certificate a response carries. *)
Definition read_cert (resp : HttpResponse) : Res Cert :=
  if negb (bool_decide (hr_Status resp = 200%Z)) then Err (EMsg (ErrCertFetch +:+ ": HTTP " +:+ Itoa (hr_Status resp)))
  else match hr_Body resp with
       | Err e => Err (EMsg (ErrCertFetch +:+ ": " +:+ error_string e))
       | Ok body =>
           match pem_Decode (limited (2 ^ 20) body) with
           | None => Err (EMsg (ErrCertParse +:+ ": no PEM block found"))
           | Some block =>
               match ParseCertificate block with
               | Err e => Err (EMsg (ErrCertParse +:+ ": " +:+ error_string e))
               | Ok cert => Ok cert
               end
           end
       end.

(** The miss of [fetchCert]. *)
Definition download_cert (certURL : string) : M (W * CertCache) Cert :=
  try! resp := up (http_Get certURL) in
  match resp with
  | Err e => fail (EMsg (ErrCertFetch +:+ ": " +:+ error_string e))
  | Ok resp =>
      let! cert := lift_res (read_cert resp) in
      set_state evictIfNeeded ;;;
      let! now := up time_Now in
      set_state (store_cert certURL (mkCertEntry cert now)) ;;;
      set_state incrementCacheSize ;;;
      ret cert
  end.

Definition fetchCert (certURL : string) : M (W * CertCache) Cert :=
  let! cache := get_state in
  match cc_certs cache !! certURL with
  | None => download_cert certURL
  | Some entry =>
      let! now := up time_Now in
      if (now - ce_cachedAt entry <? certCacheTTL)%Z then ret (ce_cert entry)
      else
        set_state (delete_cert certURL) ;;;
        set_state decrementCacheSize ;;;
        download_cert certURL
  end.

Definition signature_hash (version : string) : Res crypto_Hash :=
  if bool_decide (version = "1") then Ok crypto_SHA1
  else if bool_decide (version = "2") then Ok crypto_SHA256
  else Err (EMsg (ErrInvalidSignatureVersion +:+ ": got " +:+ Quote version)).

(** The check of a message under a certificate. *)
Definition check_signature (hashAlg : crypto_Hash) (cert : Cert) (msg : snsMessageFields) : Res unit :=
  let stringToSign := buildStringToSign msg in
  match std_b64_decode (sf_Signature msg) with
  | Err _ => Err (EMsg (ErrSignatureInvalid +:+ ": invalid base64 signature"))
  | Ok sig =>
      match rsa_PublicKey cert with
      | None => Err (EMsg (ErrCertParse +:+ ": certificate does not contain an RSA public key"))
      | Some rsaKey =>
          if VerifyPKCS1v15 rsaKey hashAlg (hash_Sum hashAlg stringToSign) sig then Ok tt
          else Err (EMsg ErrSignatureInvalid)
      end
  end.

Definition SNS_Verify (message : string) : M (W * CertCache) unit :=
  match Unmarshal message with
  | Err e => fail (EMsg (ErrMalformedMessage +:+ ": " +:+ error_string e))
  | Ok msg =>
      let! hashAlg := lift_res (signature_hash (sf_SignatureVersion msg)) in
      lift_res (validateCertURL (sf_SigningCertURL msg)) ;;;
      let! cert := fetchCert (sf_SigningCertURL msg) in
      lift_res (check_signature hashAlg cert msg)
  end.
End Verifier.

(** ** The translator *)

Inductive Kind := KindNotification | KindSubscriptionConfirmation | KindIgnored.
#[export] Instance Kind_eq_dec : EqDecision Kind.
Proof. solve_decision. Defined.

Record ParsedMessage := mkParsedMessage {
  pm_Kind : Kind;
  pm_MessageID : string;
  pm_TopicArn : string;
  pm_Timestamp : string;
  pm_SubscribeURL : string;
  pm_NotificationType : string;
  pm_Event : option ProviderEvent;
}.

Inductive errorCode := errorCodeBadRequest | errorCodeMalformedNotification.
#[export] Instance errorCode_eq_dec : EqDecision errorCode.
Proof. solve_decision. Defined.
Record TranslateError := mkTranslateError { te_code : errorCode; te_err : error }.

(** [Translate] fails with [*TranslateError]s only. *)
Definition IsBadRequest (e : TranslateError) : bool := bool_decide (te_code e = errorCodeBadRequest).
Definition IsMalformedNotification (e : TranslateError) : bool := bool_decide (te_code e = errorCodeMalformedNotification).

Record snsMessage := mkSnsMessage {
  sm_Type : string;
  sm_MessageID : string;
  sm_TopicArn : string;
  sm_Message : string;
  sm_Timestamp : string;
  sm_SignatureVersion : string;
  sm_Signature : string;
  sm_SigningCertURL : string;
  sm_SubscribeURL : string;
}.

Record sesMail := mkSesMail { ml_MessageID : string }.
Record sesBounce := mkSesBounce { bn_BounceType : string; bn_BouncedRecipients : list string; bn_Timestamp : string }.
Record sesComplaint := mkSesComplaint {
  cp_ComplaintFeedbackType : string; cp_ComplainedRecipients : list string; cp_FeedbackID : string; cp_Timestamp : string }.
Record sesDelivery := mkSesDelivery { dl_Timestamp : string }.
Record sesNotification := mkSesNotification {
  nt_NotificationType : string;
  nt_Mail : sesMail;
  nt_Bounce : option sesBounce;
  nt_Complaint : option sesComplaint;
  nt_Delivery : option sesDelivery;
}.

(** [time.Parse]: the layout, then the text. *)
Class TimeParser := { time_Parse : string -> string -> Res gotime }.
Definition RFC3339 : string := "2006-01-02T15:04:05Z07:00".
Definition RFC3339Nano : string := "2006-01-02T15:04:05.999999999Z07:00".

Section Translator.
Context `{GoStd} `{UrlParser} `{TimeParser} `{JSON snsMessage} `{JSON sesNotification}.
Context {W : Type} (time_Now : M W gotime).

Definition validateSubscribeURL (subscribeURL : string) : Res unit :=
  match url_Parse subscribeURL with
  | Err e => Err (EWrap "invalid URL: " e "")
  | Ok parsed =>
      if negb (bool_decide (url_Scheme parsed = "https"))
      then Err (EMsg ("scheme must be https, got " +:+ Quote (url_Scheme parsed)))
      else if negb (sns_host (url_Host parsed))
      then Err (EMsg ("host " +:+ Quote (url_Host parsed) +:+ " is not a valid SNS endpoint"))
      else Ok tt
  end.

Definition badRequestError (action : string) (e : error) : TranslateError :=
  mkTranslateError errorCodeBadRequest (EWrap (action +:+ ": ") e "").

Definition parseSESTimestamp (ts : string) : gotime :=
  match time_Parse RFC3339 ts with
  | Ok parsed => parsed
  | Err _ => match time_Parse "2006-01-02T15:04:05.000Z" ts with Ok parsed => parsed | Err _ => time_zero end
  end.

(** The event before its time is filled in. *)
Definition ses_event (n : sesNotification) (rawBody : string) : option ProviderEvent :=
  let event ty ts bounce complaint := Some (mkProviderEvent ty (ml_MessageID (nt_Mail n)) ts rawBody bounce complaint) in
  if bool_decide (nt_NotificationType n = "Delivery") then
    event EventDelivered match nt_Delivery n with Some d => parseSESTimestamp (dl_Timestamp d) | None => time_zero end None None
  else if bool_decide (nt_NotificationType n = "Bounce") then
    match nt_Bounce n with
    | None => event EventBounced time_zero None None
    | Some b =>
        let bounceType := if bool_decide (bn_BounceType b = "Permanent") then "hard" else "soft" in
        event EventBounced (parseSESTimestamp (bn_Timestamp b))
          (Some (mkBounceDetail bounceType "" (bn_BouncedRecipients b))) None
    end
  else if bool_decide (nt_NotificationType n = "Complaint") then
    match nt_Complaint n with
    | None => event EventComplained time_zero None None
    | Some c =>
        event EventComplained (parseSESTimestamp (cp_Timestamp c)) None
          (Some (mkComplaintDetail (cp_ComplaintFeedbackType c) (cp_FeedbackID c) (cp_ComplainedRecipients c)))
    end
  else None.

Definition with_event_time (t : gotime) (e : ProviderEvent) : ProviderEvent :=
  mkProviderEvent (pe_Type e) (pe_ProviderMessageID e) t (pe_RawPayload e) (pe_BounceDetail e) (pe_ComplaintDetail e).

Definition mapSESToProviderEvent (n : sesNotification) (rawBody : string) : M W (option ProviderEvent) :=
  match ses_event n rawBody with
  | None => ret None
  | Some event =>
      if bool_decide (pe_Timestamp event = time_zero)
      then let! now := time_Now in ret (Some (with_event_time now event))
      else ret (Some event)
  end.

Definition translateNotification (msg : snsMessage) (rawBody : string) : M W (TranslateError + ParsedMessage) :=
  match Unmarshal (sm_Message msg) with
  | Err e => ret (inl (mkTranslateError errorCodeMalformedNotification (EWrap "parse SES notification: " e "")))
  | Ok notification =>
      let! event := mapSESToProviderEvent notification rawBody in
      ret (inr (mkParsedMessage match event with None => KindIgnored | Some _ => KindNotification end
                  (sm_MessageID msg) (sm_TopicArn msg) (sm_Timestamp msg) "" (nt_NotificationType notification) event))
  end.

Definition Translate (rawBody : string) : M W (TranslateError + ParsedMessage) :=
  match Unmarshal rawBody with
  | Err e => ret (inl (badRequestError "parse SNS message" e))
  | Ok msg =>
      if negb (HasPrefix (sm_TopicArn msg) "arn:aws:sns:")
      then ret (inl (badRequestError "invalid TopicArn"
                       (EMsg ("topic arn " +:+ Quote (sm_TopicArn msg) +:+ " must start with arn:aws:sns"))))
      else if bool_decide (sm_Type msg = "SubscriptionConfirmation") then
        if bool_decide (sm_SubscribeURL msg = "")
        then ret (inl (badRequestError "subscription confirmation missing SubscribeURL" (EMsg "missing SubscribeURL")))
        else match validateSubscribeURL (sm_SubscribeURL msg) with
             | Err e => ret (inl (badRequestError "invalid SubscribeURL" e))
             | Ok _ => ret (inr (mkParsedMessage KindSubscriptionConfirmation (sm_MessageID msg) (sm_TopicArn msg)
                                   (sm_Timestamp msg) (sm_SubscribeURL msg) "" None))
             end
      else if bool_decide (sm_Type msg = "Notification") then translateNotification msg rawBody
      else ret (inr (mkParsedMessage KindIgnored (sm_MessageID msg) (sm_TopicArn msg) (sm_Timestamp msg) "" "" None))
  end.
End Translator.

(** ** The replay table *)

Inductive SNSReplayDecision := SNSReplayDecisionAccepted | SNSReplayDecisionDuplicate | SNSReplayDecisionStale.

(** [port.SNSReplayStore]: topic, message, its time and the window. *)
Definition SNSReplayStore (W : Type) : Type := string -> string -> gotime -> duration -> M W SNSReplayDecision.

Record ReplayRow := mkReplayRow { rr_message_timestamp : gotime; rr_recorded_at : gotime; rr_expires_at : gotime }.
Abbreviation ReplayTable := (gmap (string * string) ReplayRow).

(** A difference of times saturates. *)
Definition time_Sub (t u : gotime) : duration := Z.max (- 2 ^ 63) (Z.min (2 ^ 63 - 1) (t - u)).

Definition SNSReplayRepo_Claim : SNSReplayStore (DB ReplayTable) := fun topicArn messageID messageTimestamp replayWindow =>
  let topicArn := TrimSpace topicArn in
  let messageID := TrimSpace messageID in
  if bool_decide (topicArn = "") then fail (EMsg "topic ARN is required")
  else if bool_decide (messageID = "") then fail (EMsg "message ID is required")
  else if bool_decide (messageTimestamp = time_zero) then fail (EMsg "message timestamp is required")
  else if (replayWindow <=? 0)%Z then fail (EMsg "replay window must be positive")
  else
    let! now := Now db_runtime in
    let age := time_Sub now messageTimestamp in
    if (replayWindow <? age)%Z || (age <? - replayWindow)%Z then ret SNSReplayDecisionStale
    else
      let expiry := (messageTimestamp + replayWindow)%Z in
      if (expiry <? now)%Z then ret SNSReplayDecisionStale
      else
        let! affected := exec (wrapping "claiming SNS replay") (fun _ t =>
          match t !! (topicArn, messageID) with
          | Some _ => (Ok 0%Z, t)
          | None => (Ok 1%Z, <[(topicArn, messageID) := mkReplayRow messageTimestamp now expiry]> t)
          end) in
        if bool_decide (affected = 0%Z) then ret SNSReplayDecisionDuplicate else ret SNSReplayDecisionAccepted.

(** * Theorems *)

(** ** The verifier and its cache *)

Section VerifierSound.
Context `{GoStd} `{UrlParser} `{SnsCrypto} `{JSON snsMessageFields}.
Context {W V : Type} (time_Now : M W gotime) (http_Get : string -> M W HttpResponse).

(** The host of an acceptable address of a certificate once served it. *)
Definition served (certURL : string) (cert : Cert) : Prop :=
  validateCertURL certURL = Ok tt /\
  exists w resp w', http_Get certURL w = (Ok resp, w') /\ read_cert resp = Ok cert.

(** The message carries a signature of its fields under such a certificate. *)
Definition authentic (message : string) : Prop :=
  exists fields alg cert, Unmarshal message = Ok fields /\ signature_hash (sf_SignatureVersion fields) = Ok alg /\
    served (sf_SigningCertURL fields) cert /\ check_signature alg cert fields = Ok tt.

Record cache_ok (c : CertCache) : Prop := {
  cc_counted : cc_size c = Z.of_nat (size (cc_certs c));
  cc_bounded : (cc_size c <= certCacheMaxSize)%Z;
  cc_served url entry : cc_certs c !! url = Some entry -> served url (ce_cert entry);
}.

Lemma cache_empty : cache_ok (mkCertCache ∅ 0).
Proof. split; simpl; [by rewrite map_size_empty|done|]. intros url entry. by rewrite lookup_empty. Qed.

Lemma evict_ok c : cache_ok c -> cache_ok (evictIfNeeded c) /\ (cc_size (evictIfNeeded c) < certCacheMaxSize)%Z /\
  (forall url, cc_certs c !! url = None -> cc_certs (evictIfNeeded c) !! url = None).
Proof.
  intros Hc. unfold evictIfNeeded. destruct (Z.leb_spec certCacheMaxSize (cc_size c)).
  - split; [apply cache_empty|]. split; [done|]. intros url _. simpl. by rewrite lookup_empty.
  - by split.
Qed.

Lemma store_ok c url cert now : cache_ok c -> (cc_size c < certCacheMaxSize)%Z -> cc_certs c !! url = None ->
  served url cert -> cache_ok (incrementCacheSize (store_cert url (mkCertEntry cert now) c)).
Proof.
  intros [Hn Hb Hs] Hlt Hu Hc. split; simpl.
  - rewrite map_size_insert_None by done. lia.
  - lia.
  - intros u e [ [<- <-]|[_ Hu'] ]%lookup_insert_Some; [done|by apply Hs].
Qed.

Lemma expire_ok c url entry : cache_ok c -> cc_certs c !! url = Some entry ->
  cache_ok (decrementCacheSize (delete_cert url c)).
Proof.
  intros [Hn Hb Hs] Hu. pose proof (map_size_ne_0_lookup_2 (cc_certs c) url (mk_is_Some _ _ Hu)) as Hz.
  split; simpl.
  - rewrite map_size_delete, Hu. simpl. destruct (Z.ltb_spec 0 (cc_size c)); lia.
  - destruct (Z.ltb_spec 0 (cc_size c)); lia.
  - intros u e [_ He]%lookup_delete_Some. by apply Hs.
Qed.

Lemma download_sound certURL w c r w' c' : cache_ok c -> cc_certs c !! certURL = None -> validateCertURL certURL = Ok tt ->
  download_cert time_Now http_Get certURL (w, c) = (r, (w', c')) ->
  cache_ok c' /\ forall cert, r = Ok cert -> served certURL cert.
Proof.
  intros Hc Hn Hv. unfold download_cert, try, up. destruct (http_Get certURL w) as [ [resp|e] w1] eqn:Eg; [|by intros [= <- <- <-] ].
  unfold bind at 1, lift_res. destruct (read_cert resp) as [cert|e] eqn:Er; [|by intros [= <- <- <-] ].
  assert (Hs : served certURL cert) by (split; [done|by exists w, resp, w1]).
  apply evict_ok in Hc as (Hc & Hlt & He). unfold bind, set_state. simpl.
  destruct (time_Now w1) as [ [now|e] w2]; intros [= <- <- <-]; [|done].
  split; [apply store_ok; auto|]. by intros ? [= <-].
Qed.

Lemma fetch_sound certURL w c r w' c' : cache_ok c -> validateCertURL certURL = Ok tt ->
  fetchCert time_Now http_Get certURL (w, c) = (r, (w', c')) ->
  cache_ok c' /\ forall cert, r = Ok cert -> served certURL cert.
Proof.
  intros Hc Hv. unfold fetchCert, bind at 1, get_state. simpl. destruct (cc_certs c !! certURL) as [entry|] eqn:El.
  - unfold bind at 1, up. destruct (time_Now w) as [ [now|e] w1]; [|by intros [= <- <- <-] ].
    destruct (_ <? _)%Z; [intros [= <- <- <-]; split; [done|]; intros ? [= <-]; by apply (cc_served _ Hc)|].
    unfold bind at 1 2, set_state. apply download_sound; [by eapply expire_ok| |done]. simpl. apply lookup_delete_eq.
  - by apply download_sound.
Qed.

(** Whatever the message, the cache stays sound; a message that passes is
    authentic. *)
Lemma SNS_Verify_sound message w c r w' c' : cache_ok c -> SNS_Verify time_Now http_Get message (w, c) = (r, (w', c')) ->
  cache_ok c' /\ (r = Ok tt -> authentic message).
Proof.
  intros Hc. unfold SNS_Verify. destruct (Unmarshal message) as [fields|e] eqn:Em; [|by intros [= <- <- <-] ].
  unfold bind at 1, lift_res at 1. destruct (signature_hash _) as [alg|e] eqn:Ea; [|by intros [= <- <- <-] ].
  unfold bind at 1, lift_res at 1. destruct (validateCertURL _) as [ []|e] eqn:Ev; [|by intros [= <- <- <-] ].
  unfold bind at 1. destruct (fetchCert _ _ _ _) as [ [cert|e] [w1 c1] ] eqn:Ef; apply fetch_sound in Ef as [Hc1 Hs]; try done;
    intros [= <- <- <-]; (split; [done|]); [|done]. intros E. exists fields, alg, cert. repeat split; auto; by apply Hs.
Qed.

Lemma SNS_Verify_frame (v : W -> V) message : preserves v time_Now -> (forall url, preserves v (http_Get url)) ->
  preserves (on_world v) (SNS_Verify time_Now http_Get message).
Proof.
  intros Hn Hg. assert (Hd : forall url, preserves (on_world v) (download_cert time_Now http_Get url)).
  { intros url. unfold download_cert. preserves_tac. }
  unfold SNS_Verify, fetchCert. preserves_tac.
Qed.
End VerifierSound.

(** ** The replay table *)

Lemma Claim_outcome (topic id : string) (ts : gotime) (window : duration) (s : DB ReplayTable) r s' : SNSReplayRepo_Claim topic id ts window s = (r, s') ->
  let key := (TrimSpace topic, TrimSpace id) in
  db_tables s ⊆ db_tables s' /\
  (r = Ok SNSReplayDecisionAccepted -> db_tables s !! key = None /\ is_Some (db_tables s' !! key) /\
     (-window <= time_Sub (db_clock s) ts <= window)%Z).
Proof.
  intros E key. unfold SNSReplayRepo_Claim in E. cbv zeta in E.
  repeat (case_bool_decide; [by injection E as <- <-|]). destruct (_ <=? _)%Z; [by injection E as <- <-|].
  unfold bind at 1, Now, total in E. simpl in E. destruct (_ || _) eqn:Hage; [by injection E as <- <-|].
  destruct (ts + window <? db_clock s)%Z; [by injection E as <- <-|]. apply orb_false_iff in Hage as [Ha1%Z.ltb_ge Ha2%Z.ltb_ge].
  unfold bind in E. destruct (exec _ _ _) as [ [n|e] s1] eqn:Ex.
  - apply exec_Ok in Ex. simpl in Ex. fold key in Ex. destruct (db_tables s !! key) as [row|] eqn:Ek.
    + injection Ex as <- Et. injection E as <- <-. by rewrite Et.
    + injection Ex as <- Et. injection E as <- <-. rewrite <- Et. split; [by apply insert_subseteq|].
      intros _. split; [done|]. split; [rewrite lookup_insert_eq; eauto|lia].
  - injection E as <- <-. split; [|done]. apply exec_cases in Ex as [ [_ ->]|(r' & t' & Ef & -> & _)]; [done|].
    simpl in Ef. fold key in Ef. destruct (db_tables s !! key) eqn:Ek; injection Ef as _ <-; [done|by apply insert_subseteq].
Qed.
