(* ===== verification/Inbound.v ===== *)
(** * The webhook of the provider ([http/handler/provider_webhook.go])

    The public endpoint that receives the provider's events as SNS messages:
    signature, translation, destination, replay table, processor - in this
    order -, and its wiring ([app/wiring.go]). What a history of requests
    changes is the work of the processor on authentic messages, each once. *)
From stdpp Require Import base gmap strings list fin_maps.
From Stdlib Require Import ZArith NArith Ascii String Lia.
From S2P Require Import Prelude GoMonad Domain Ports Config Http.
From S2P Require Import Suppression EventProcessor Postgres Database Feedback SNS.

(** [io.ReadAll(io.LimitReader(body, n))]. *)
Class BodyReader := { ReadAll : Conn -> N -> Res string }.

(** ** The handler *)

Record SESWebhookHandler (W : Type) := mkSESWebhook {
  sh_Process : ProviderEvent -> M W unit;
  sh_verifier : option (string -> M W unit);
  sh_confirmer : option (string -> M W unit);
  sh_Translate : string -> M W (TranslateError + ParsedMessage);
  sh_replayStore : option (SNSReplayStore W);
  sh_replayWindow : duration;
  sh_expectedTopicArn : string;
  sh_expectedAccountID : string;
  sh_skipSignatureVerification : bool;
  sh_registeredTopicArns : gset string;
}.
Arguments mkSESWebhook {W}. Arguments sh_Process {W}. Arguments sh_verifier {W}. Arguments sh_confirmer {W}.
Arguments sh_Translate {W}. Arguments sh_replayStore {W}. Arguments sh_replayWindow {W}.
Arguments sh_expectedTopicArn {W}. Arguments sh_expectedAccountID {W}. Arguments sh_skipSignatureVerification {W}.
Arguments sh_registeredTopicArns {W}.

Definition SESWebhookHandlerOption (W : Type) : Type := SESWebhookHandler W -> SESWebhookHandler W.

Section Options.
Context {W : Type}.
Implicit Types (h : SESWebhookHandler W).

Definition WithSkipSignatureVerification (skip : bool) : SESWebhookHandlerOption W := fun h =>
  mkSESWebhook (sh_Process h) (sh_verifier h) (sh_confirmer h) (sh_Translate h) (sh_replayStore h) (sh_replayWindow h)
    (sh_expectedTopicArn h) (sh_expectedAccountID h) skip (sh_registeredTopicArns h).

Definition RegisterSNSBinding (topicArn : string) : SESWebhookHandlerOption W := fun h =>
  let topicArn := TrimSpace topicArn in
  if bool_decide (topicArn = "") then h
  else mkSESWebhook (sh_Process h) (sh_verifier h) (sh_confirmer h) (sh_Translate h) (sh_replayStore h) (sh_replayWindow h)
         (sh_expectedTopicArn h) (sh_expectedAccountID h) (sh_skipSignatureVerification h)
         ({[topicArn]} ∪ sh_registeredTopicArns h).

Definition WithSNSBinding (expectedTopicArn account : string) : SESWebhookHandlerOption W :=
  RegisterSNSBinding expectedTopicArn.

Definition WithExpectedSNSDestination (topicArn accountID : string) : SESWebhookHandlerOption W := fun h =>
  let topicArn := TrimSpace topicArn in
  let h := mkSESWebhook (sh_Process h) (sh_verifier h) (sh_confirmer h) (sh_Translate h) (sh_replayStore h)
             (sh_replayWindow h) topicArn (TrimSpace accountID) (sh_skipSignatureVerification h) (sh_registeredTopicArns h) in
  if bool_decide (topicArn = "") then h else RegisterSNSBinding topicArn h.

Definition WithSNSReplayStore (store : option (SNSReplayStore W)) (replayWindow : duration) : SESWebhookHandlerOption W := fun h =>
  mkSESWebhook (sh_Process h) (sh_verifier h) (sh_confirmer h) (sh_Translate h) store replayWindow
    (sh_expectedTopicArn h) (sh_expectedAccountID h) (sh_skipSignatureVerification h) (sh_registeredTopicArns h).

Definition NewSESWebhookHandler (processor : ProviderEvent -> M W unit) (verifier confirmer : option (string -> M W unit))
    (translate : string -> M W (TranslateError + ParsedMessage)) (opts : list (SESWebhookHandlerOption W))
  : SESWebhookHandler W :=
  fold_left (fun h opt => opt h) opts (mkSESWebhook processor verifier confirmer translate None 0 "" "" false ∅).

(** [HTTPSubscriptionConfirmer.ConfirmSubscription], over the client's [Do]. *)
Definition ConfirmSubscription (http_Get : string -> M W HttpResponse) (subscribeURL : string) : M W unit :=
  let! resp := http_Get subscribeURL in
  if (hr_Status resp <? 200)%Z || (300 <=? hr_Status resp)%Z
  then fail (EMsg ("SNS subscription confirmation failed: HTTP " +:+ Itoa (hr_Status resp))) else ret tt.
End Options.

Definition maxBodySize : N := 262144.

Section Handler.
Context `{GoStd} `{TimeParser} `{BodyReader} {W : Type} (h : SESWebhookHandler W).
#[local] Abbreviation Handler := (HandlerFunc W).

Definition snsAccountIDFromArn (topicArn : string) : Res string :=
  let invalid := Err (EMsg ("invalid SNS TopicArn " +:+ Quote topicArn)) in
  match Split topicArn ":" with
  | arn :: aws :: sns :: _ :: account :: _ :: _ =>
      if negb (bool_decide (arn = "arn")) || negb (bool_decide (aws = "aws")) || negb (bool_decide (sns = "sns")) then invalid
      else if bool_decide (account = "") then invalid else Ok account
  | _ => invalid
  end.

Definition validateExpectedSNSDestination (topicArn : string) : Res unit :=
  let expectedTopicArn := TrimSpace (sh_expectedTopicArn h) in
  if bool_decide (expectedTopicArn = "") then Ok tt
  else if negb (bool_decide (topicArn = expectedTopicArn)) then Err (EMsg ("unexpected SNS TopicArn " +:+ Quote topicArn))
  else
    let accountID := TrimSpace (sh_expectedAccountID h) in
    match (if bool_decide (accountID = "") then snsAccountIDFromArn expectedTopicArn else Ok accountID) with
    | Err e => Err e
    | Ok expectedAccountID =>
        match snsAccountIDFromArn topicArn with
        | Err e => Err e
        | Ok actualAccountID =>
            if negb (bool_decide (actualAccountID = expectedAccountID))
            then Err (EMsg ("unexpected SNS account " +:+ Quote actualAccountID)) else Ok tt
        end
    end.

Definition validateSNSBinding (topicArn : string) : Res unit :=
  if bool_decide (sh_registeredTopicArns h = ∅) then
    if bool_decide (TrimSpace (sh_expectedTopicArn h) = "") then Err (EMsg "SNS binding is not configured") else Ok tt
  else if negb (bool_decide (topicArn ∈ sh_registeredTopicArns h)) then Err (EMsg "unexpected TopicArn") else Ok tt.

Definition parseSNSReplayTimestamp (value : string) : Res gotime :=
  let ts := TrimSpace value in
  if bool_decide (ts = "") then Err (EMsg "missing timestamp")
  else match time_Parse RFC3339Nano ts with Ok parsed => Ok parsed | Err _ => time_Parse RFC3339 ts end.

(** The message may be handled, or the answer has been given. *)
Definition claimSNSReplay (msg : ParsedMessage) : M (W * Conn) bool :=
  let refuse status := NoContent status ;;; ret false in
  match sh_replayStore h with
  | None => refuse 500%Z
  | Some claim =>
      if (sh_replayWindow h <=? 0)%Z then refuse 500%Z
      else if bool_decide (TrimSpace (pm_MessageID msg) = "") then refuse 400%Z
      else match parseSNSReplayTimestamp (pm_Timestamp msg) with
           | Err _ => refuse 400%Z
           | Ok messageTimestamp =>
               try! decision := up (claim (pm_TopicArn msg) (pm_MessageID msg) messageTimestamp (sh_replayWindow h)) in
               match decision with
               | Err _ => refuse 500%Z
               | Ok SNSReplayDecisionAccepted => ret true
               | Ok SNSReplayDecisionDuplicate | Ok SNSReplayDecisionStale => refuse 200%Z
               end
           end
  end.

Definition handleSubscriptionConfirmation (msg : ParsedMessage) : Handler :=
  match sh_confirmer h with
  | None => NoContent 200
  | Some confirm => ignore (up (confirm (pm_SubscribeURL msg))) ;;; NoContent 200
  end.

Definition handleNotification (msg : ParsedMessage) : Handler :=
  match pm_Event msg with
  | None => fail nil_dereference
  | Some event => ignore (up (sh_Process h event)) ;;; NoContent 200
  end.

(** The message once its signature is accepted. *)
Definition handle_message (body : string) : Handler :=
  let! parsed := up (sh_Translate h body) in
  match parsed with
  | inl e => NoContent (if IsBadRequest e then 400%Z else 200%Z)
  | inr parsed =>
      match validateExpectedSNSDestination (pm_TopicArn parsed) with
      | Err _ => NoContent 400
      | Ok _ =>
          match validateSNSBinding (pm_TopicArn parsed) with
          | Err _ => NoContent 403
          | Ok _ =>
              let! ok := claimSNSReplay parsed in
              if negb ok then ret tt
              else match pm_Kind parsed with
                   | KindSubscriptionConfirmation => handleSubscriptionConfirmation parsed
                   | KindNotification => handleNotification parsed
                   | KindIgnored => NoContent 200
                   end
          end
      end
  end.

Definition HandleInbound : Handler :=
  let! c := conn in
  match ReadAll c maxBodySize with
  | Err _ => NoContent 400
  | Ok body =>
      match sh_verifier h with
      | Some verify =>
          if sh_skipSignatureVerification h then handle_message body
          else
            try! verified := up (verify body) in
            match verified with Err _ => NoContent 403 | Ok _ => handle_message body end
      | None => handle_message body
      end
  end.
End Handler.

(** ** The wiring ([buildSESWebhookHandler]) *)

Record SNSConfig := mkSNSConfig {
  sc_SkipSignatureVerification : bool;
  sc_ExpectedTopicArn : string;
  sc_ExpectedAccountID : string;
  sc_ReplayWindow : duration;
}.

Definition isProductionEnvironment `{GoStd} (raw : string) : bool :=
  bool_decide (ToLower (TrimSpace raw) ∈ ["production"; "prod"]).

Definition validateSNSConfig `{GoStd} (cfg : SNSConfig) (environment : string) : list error :=
  (if isProductionEnvironment environment && sc_SkipSignatureVerification cfg
   then [EMsg ("SENDA_SNS_SKIP_SIGNATURE_VERIFICATION cannot be enabled when environment is " +:+ Quote environment)] else [])
  ++ (if (sc_ReplayWindow cfg <=? 0)%Z then [EMsg "sns.replay_window must be greater than zero"] else []).

Section Wiring.
Context `{GoStd} `{UrlParser} `{TimeParser} `{SnsCrypto} `{JSON snsMessageFields} `{JSON snsMessage} `{JSON sesNotification}.
Context {W : Type} (time_Now : M W gotime) (http_Get : string -> M W HttpResponse).

Definition buildSESWebhookHandler (cfg : SNSConfig) (processor : ProviderEvent -> M W unit)
    (replayStore : option (SNSReplayStore W)) : SESWebhookHandler (W * CertCache) :=
  let store : option (SNSReplayStore (W * CertCache)) :=
    match replayStore with Some claim => Some (fun topic id ts window => up (claim topic id ts window)) | None => None end in
  NewSESWebhookHandler (fun event => up (processor event)) (Some (SNS_Verify time_Now http_Get))
    (Some (fun url => up (ConfirmSubscription http_Get url))) (fun body => up (Translate time_Now body))
    ([WithSkipSignatureVerification (sc_SkipSignatureVerification cfg); WithSNSReplayStore store (sc_ReplayWindow cfg)]
     ++ (if bool_decide (sc_ExpectedTopicArn cfg = "") then []
         else [WithExpectedSNSDestination (sc_ExpectedTopicArn cfg) (sc_ExpectedAccountID cfg)])).
End Wiring.

(** The handler on the database: the tables of the mail, and the replay table
    with the process clock. *)
Abbreviation Feed := (Sys * DB ReplayTable)%type.

Section Database.
Context `{GoStd} `{UrlParser} `{TimeParser} `{SnsCrypto} `{JSON snsMessageFields} `{JSON snsMessage} `{JSON sesNotification}.
Context (http_Get : string -> M Feed HttpResponse).

Definition feed_now : M Feed gotime := down (Now db_runtime).

Definition inbound (cfg : SNSConfig) : SESWebhookHandler (Feed * CertCache) :=
  buildSESWebhookHandler feed_now http_Get cfg (fun event => up (Process pg_processor event))
    (Some (fun topic id ts window => down (SNSReplayRepo_Claim topic id ts window))).
End Database.

(** The requests of a history, one after the other. *)
Fixpoint receive {W} (handler : HandlerFunc W) (l : list Conn) (w : W) : W :=
  match l with [] => w | c :: r => receive handler r (handler (w, c)).2.1 end.

(** * Theorems *)

(** ** One request

    [sys] is what the processor works on, [claimed] the keys of the messages
    taken, [inv] an invariant of the rest. *)

Definition replay_key (m : ParsedMessage) : string * string := (TrimSpace (pm_TopicArn m), TrimSpace (pm_MessageID m)).

Section OneRequest.
Context `{GoStd} `{TimeParser} `{BodyReader} {W V R : Type} (h : SESWebhookHandler W).
Context (sys : W -> V) (claimed : W -> gmap (string * string) R) (inv : W -> Prop) (step : ProviderEvent -> V -> V).
Context (accepted : string -> Prop).

(** Leaves the mail alone, keeps the invariant and forgets no key. *)
Definition quiet {A} (m : M W A) : Prop := forall w, inv w ->
  inv (m w).2 /\ sys (m w).2 = sys w /\ claimed w ⊆ claimed (m w).2.

Record inbound_parts : Prop := {
  verify_part verify body : sh_verifier h = Some verify ->
    quiet (verify body) /\ forall w, inv w -> (verify body w).1 = Ok tt -> accepted body;
  confirm_part confirm url : sh_confirmer h = Some confirm -> quiet (confirm url);
  translate_part body : quiet (sh_Translate h body);
  claim_part claim topic id ts window : sh_replayStore h = Some claim ->
    quiet (claim topic id ts window) /\
    forall w, (claim topic id ts window w).1 = Ok SNSReplayDecisionAccepted ->
      claimed w !! (TrimSpace topic, TrimSpace id) = None /\
      is_Some (claimed (claim topic id ts window w).2 !! (TrimSpace topic, TrimSpace id));
  process_part event w : inv w ->
    inv (sh_Process h event w).2 /\ sys (sh_Process h event w).2 = step event (sys w) /\
    claimed (sh_Process h event w).2 = claimed w;
}.
Hypothesis parts : inbound_parts.

(** An event the processor was given, with the message it came in. *)
Record Delivery := mkDelivery { dv_body : string; dv_message : ParsedMessage; dv_event : ProviderEvent }.

Definition genuine (d : Delivery) : Prop :=
  (sh_verifier h = None \/ sh_skipSignatureVerification h = true \/ accepted (dv_body d)) /\
  (exists w w', sh_Translate h (dv_body d) w = (Ok (inr (dv_message d)), w')) /\
  pm_Kind (dv_message d) = KindNotification /\ pm_Event (dv_message d) = Some (dv_event d) /\
  validateExpectedSNSDestination h (pm_TopicArn (dv_message d)) = Ok tt /\
  validateSNSBinding h (pm_TopicArn (dv_message d)) = Ok tt.

Definition key_of (d : Delivery) : string * string := replay_key (dv_message d).

(** What one run may have done. *)
Definition nothing_new (w w' : W) : Prop := inv w' /\ sys w' = sys w /\ claimed w ⊆ claimed w'.
Definition took (d : Delivery) (w w' : W) : Prop :=
  genuine d /\ inv w' /\ sys w' = step (dv_event d) (sys w) /\ claimed w ⊆ claimed w' /\
  claimed w !! key_of d = None /\ is_Some (claimed w' !! key_of d).

Lemma nothing_trans w1 w2 w3 : nothing_new w1 w2 -> nothing_new w2 w3 -> nothing_new w1 w3.
Proof. intros (? & ? & ?) (? & ? & ?). split_and!; [done|congruence|by etrans]. Qed.

Lemma took_after d w1 w2 w3 : nothing_new w1 w2 -> took d w2 w3 -> took d w1 w3.
Proof.
  intros (? & E & ?) (? & ? & ? & ? & Hn & ?). split_and!; try done; [congruence|by etrans|].
  by eapply lookup_weaken_None.
Qed.

Lemma quiet_run {A} (m : M W A) w : quiet m -> inv w -> nothing_new w (m w).2.
Proof. intros Hm Hw. apply Hm, Hw. Qed.

(** A part that runs and is followed by something. *)
Lemma quiet_up {A} (m : M W A) w (c : Conn) : quiet m -> inv w ->
  exists r w1, m w = (r, w1) /\ nothing_new w w1.
Proof. intros Hm Hw. pose proof (quiet_run m w Hm Hw) as Hq. destruct (m w) as [r w1]. by exists r, w1. Qed.

Lemma nothing_refl w : inv w -> nothing_new w w.
Proof. done. Qed.

Definition outcome (body : string) (w w' : W) : Prop := nothing_new w w' \/ exists d, dv_body d = body /\ took d w w'.

Lemma outcome_after body w1 w2 w3 : nothing_new w1 w2 -> outcome body w2 w3 -> outcome body w1 w3.
Proof.
  intros Hn [?|(d & ? & ?)]; [left; by eapply nothing_trans|right; exists d; split; [done|by eapply took_after] ].
Qed.

Lemma confirm_quiet m w c r w' c' : inv w -> handleSubscriptionConfirmation h m (w, c) = (r, (w', c')) -> nothing_new w w'.
Proof.
  intros Hw. unfold handleSubscriptionConfirmation. destruct (sh_confirmer h) as [confirm|] eqn:Ec.
  - destruct (quiet_up (confirm (pm_SubscribeURL m)) w c) as (x & w1 & E & Hn); [by apply (confirm_part parts)|done|].
    unfold bind, ignore, up, NoContent, write. rewrite E. simpl. by intros [= <- <- <-].
  - unfold NoContent, write. by intros [= <- <- <-].
Qed.

Lemma claim_spec msg w c r w' c' : inv w -> claimSNSReplay h msg (w, c) = (r, (w', c')) ->
  nothing_new w w' /\ (r = Ok true -> claimed w !! replay_key msg = None /\ is_Some (claimed w' !! replay_key msg)).
Proof.
  intros Hw. pose proof (nothing_refl w Hw) as Hr.
  assert (Hrefuse : forall st x, (NoContent st ;;; ret false) (x, c) = (r, (w', c')) -> w' = x /\ r <> Ok true).
  { intros st x. unfold bind, NoContent, write. destruct (cn_Broken c); simpl; by intros [= <- <- <-]. }
  unfold claimSNSReplay. cbv zeta.
  destruct (sh_replayStore h) as [claim|] eqn:Ec; [|by intros [-> ?]%Hrefuse].
  destruct (_ <=? _)%Z; [by intros [-> ?]%Hrefuse|]. case_bool_decide; [by intros [-> ?]%Hrefuse|].
  destruct (parseSNSReplayTimestamp _) as [ts|e]; [|by intros [-> ?]%Hrefuse].
  destruct (claim_part parts claim (pm_TopicArn msg) (pm_MessageID msg) ts (sh_replayWindow h) Ec) as [Hq Ha].
  specialize (Ha w). pose proof (quiet_run _ w Hq Hw) as Hn. unfold try, up.
  destruct (claim _ _ _ _ w) as [d w1]. simpl in *.
  destruct d as [ [| |]|e]; [|by intros [-> ?]%Hrefuse..]. intros [= <- <- <-]. split; [done|]. intros _. by apply Ha.
Qed.

Lemma handle_message_outcome body w c r w' c' : inv w ->
  (sh_verifier h = None \/ sh_skipSignatureVerification h = true \/ accepted body) ->
  handle_message h body (w, c) = (r, (w', c')) -> outcome body w w'.
Proof.
  intros Hw Hacc. unfold handle_message. pose proof (quiet_run _ w (translate_part parts body) Hw) as Hn.
  unfold bind at 1, up. destruct (sh_Translate h body w) as [ [ [e|msg]|e] w1] eqn:Et; simpl in Hn;
    [unfold NoContent, write; intros [= <- <- <-]; by left| |intros [= <- <- <-]; by left].
  destruct (validateExpectedSNSDestination _ _) as [ []|e] eqn:Ed; [|unfold NoContent, write; intros [= <- <- <-]; by left].
  destruct (validateSNSBinding _ _) as [ []|e] eqn:Eb; [|unfold NoContent, write; intros [= <- <- <-]; by left].
  assert (Hw1 : inv w1) by apply Hn.
  unfold bind at 1. destruct (claimSNSReplay h msg (w1, c)) as [ [ok|e] [w2 c2] ] eqn:Ecl;
    apply claim_spec in Ecl as [Hn2 Ha]; try done; [|intros [= <- <- <-]; left; by eapply nothing_trans].
  assert (Hn' : nothing_new w w2) by by eapply nothing_trans.
  destruct ok; simpl; [|intros [= <- <- <-]; by left]. specialize (Ha eq_refl) as [Hfresh Hnow].
  assert (Hw2 : inv w2) by apply Hn'.
  destruct (pm_Kind msg) eqn:Ek.
  - unfold handleNotification. destruct (pm_Event msg) as [event|] eqn:Ee; [|intros [= <- <- <-]; by left].
    destruct (process_part parts event w2 Hw2) as (Hi & Hs & Hc). unfold bind, ignore, up, NoContent, write.
    destruct (sh_Process h event w2) as [r3 w3]. simpl in *. intros [= <- <- <-].
    right. exists (mkDelivery body msg event). split; [done|]. destruct Hn' as (_ & Es & Hsub).
    unfold took, genuine, key_of. simpl. rewrite Hc. split_and!; try done; [by exists w, w1|congruence|].
    by eapply lookup_weaken_None; [|apply Hn].
  - intros E. apply confirm_quiet in E; [|done]. left. by eapply nothing_trans.
  - unfold NoContent, write. intros [= <- <- <-]. by left.
Qed.

Lemma HandleInbound_outcome w c r w' c' : inv w -> HandleInbound h (w, c) = (r, (w', c')) ->
  nothing_new w w' \/ exists body, ReadAll c maxBodySize = Ok body /\ outcome body w w'.
Proof.
  intros Hw. unfold HandleInbound, bind at 1, conn, get_state. simpl.
  destruct (ReadAll c maxBodySize) as [body|e] eqn:Er; [|unfold NoContent, write; intros [= <- <- <-]; by left].
  intros E. right. exists body. split; [done|]. revert E.
  destruct (sh_verifier h) as [verify|] eqn:Ev; [|intros E; eapply handle_message_outcome; eauto].
  destruct (sh_skipSignatureVerification h) eqn:Es; [intros E; eapply handle_message_outcome; eauto|].
  destruct (verify_part parts verify body Ev) as [Hq Ha]. specialize (Ha w Hw).
  pose proof (quiet_run _ w Hq Hw) as Hn. unfold try, up. destruct (verify body w) as [ [ []|e] w1]; simpl in *.
  - intros E. apply handle_message_outcome in E; [by eapply outcome_after|apply Hn|auto].
  - unfold NoContent, write. intros [= <- <- <-]. by left.
Qed.

(** *** A history *)

Definition bodies (l : list Conn) : list string := omap (fun c => match ReadAll c maxBodySize with Ok b => Some b | Err _ => None end) l.

Lemma receive_outcome l w : inv w -> let w' := receive (HandleInbound h) l w in
  inv w' /\ claimed w ⊆ claimed w' /\ exists ds : list Delivery,
    sys w' = fold_left (fun s d => step (dv_event d) s) ds (sys w) /\
    sublist (dv_body <$> ds) (bodies l) /\ NoDup (key_of <$> ds) /\
    Forall (fun d => genuine d /\ claimed w !! key_of d = None /\ is_Some (claimed w' !! key_of d)) ds.
Proof.
  revert w. induction l as [|c l IH]; intros w Hw; simpl.
  - split; [done|]. split; [done|]. exists []. simpl. split; [done|]. split; [constructor|]. split; constructor.
  - destruct (HandleInbound h (w, c)) as [r [w1 c1] ] eqn:E. simpl.
    assert (Hcase : nothing_new w w1 \/ exists d, ReadAll c maxBodySize = Ok (dv_body d) /\ took d w w1).
    { apply HandleInbound_outcome in E as [?|(body & Er & [?|(d & <- & ?)])]; eauto. }
    assert (Hw1 : inv w1) by (destruct Hcase as [ [? _]|(d & _ & _ & ? & _)]; done).
    destruct (IH w1 Hw1) as (Hi & Hsub & ds & Hs & Hb & Hd & Hf). set (w2 := receive _ l w1) in *.
    split; [done|]. destruct Hcase as [(_ & Es & Hsub1)|(d & Er & Hg & _ & Es & Hsub1 & Hn & Hk)].
    + split; [by etrans|]. exists ds. rewrite Hs, Es. split; [done|]. split.
      { unfold bodies. simpl. destruct (ReadAll c maxBodySize); [by apply sublist_cons|done]. }
      split; [done|]. apply (Forall_impl _ _ _ Hf). intros d (? & ? & ?). split_and!; try done. by eapply lookup_weaken_None.
    + split; [by etrans|]. exists (d :: ds). simpl. rewrite Hs, Es. split; [done|]. split.
      { unfold bodies. simpl. rewrite Er. by apply sublist_skip. }
      split.
      { apply NoDup_cons. split; [|done]. intros Hin. apply list_elem_of_fmap in Hin as (d' & Ek & Hin).
        rewrite Forall_forall in Hf. apply Hf in Hin as (_ & Hn' & _). rewrite <- Ek, eq_None_not_Some in Hn'. done. }
      constructor.
      * split_and!; [apply Hg..|done|]. destruct Hk as [x Hx]. exists x. by eapply lookup_weaken.
      * apply (Forall_impl _ _ _ Hf). intros d' (? & ? & ?). split_and!; try done. by eapply lookup_weaken_None.
Qed.
End OneRequest.

(** ** The wired handler *)

Section Wired.
Context `{GoStd} `{UrlParser} `{TimeParser} `{SnsCrypto} `{BodyReader}.
Context `{JSON snsMessageFields} `{JSON snsMessage} `{JSON sesNotification}.
Context (http_Get : string -> M Feed HttpResponse).

(** The client touches neither the tables nor the clock it is asked for. *)
Hypothesis http_frame : forall url, preserves (fun w => (w.1, db_tables w.2)) (http_Get url).

(** The two decodings of one message agree on the fields they share. *)
Hypothesis same_fields : forall body (f : snsMessageFields) (m : snsMessage), Unmarshal body = Ok f -> Unmarshal body = Ok m ->
  sf_Type f = sm_Type m /\ sf_MessageId f = sm_MessageID m /\ sf_TopicArn f = sm_TopicArn m /\ sf_Message f = sm_Message m.

Definition mail (w : Feed * CertCache) : Sys := w.1.1.
Definition taken_keys (w : Feed * CertCache) : ReplayTable := db_tables w.1.2.
Definition certs_sound (w : Feed * CertCache) : Prop := cache_ok http_Get w.2.

(** The topics a handler accepts, registered when it is built or later. *)
Definition bound (topics : list string) (h : SESWebhookHandler (Feed * CertCache)) : SESWebhookHandler (Feed * CertCache) :=
  fold_right RegisterSNSBinding h topics.

Definition topics_of (cfg : SNSConfig) (topics : list string) : list string := TrimSpace <$> sc_ExpectedTopicArn cfg :: topics.

Implicit Types (h : SESWebhookHandler (Feed * CertCache)).

Definition same_parts (h h' : SESWebhookHandler (Feed * CertCache)) : Prop :=
  sh_Process h' = sh_Process h /\ sh_verifier h' = sh_verifier h /\ sh_confirmer h' = sh_confirmer h /\
  sh_Translate h' = sh_Translate h /\ sh_replayStore h' = sh_replayStore h /\
  sh_skipSignatureVerification h' = sh_skipSignatureVerification h.

Lemma register_parts topic h : same_parts h (RegisterSNSBinding topic h).
Proof. unfold RegisterSNSBinding. by case_bool_decide. Qed.

Lemma register_topics topic h t : t ∈ sh_registeredTopicArns (RegisterSNSBinding topic h) ->
  t ∈ sh_registeredTopicArns h \/ t = TrimSpace topic.
Proof. unfold RegisterSNSBinding. case_bool_decide; simpl; set_solver. Qed.

Lemma bound_parts topics h : same_parts h (bound topics h).
Proof.
  induction topics as [|t l IH]; [done|]. simpl. destruct (register_parts t (bound l h)) as (? & ? & ? & ? & ? & ?).
  destruct IH as (? & ? & ? & ? & ? & ?). split_and!; etrans; eauto.
Qed.

Lemma bound_topics topics h t : t ∈ sh_registeredTopicArns (bound topics h) ->
  t ∈ sh_registeredTopicArns h \/ t ∈ TrimSpace <$> topics.
Proof.
  induction topics as [|x l IH]; simpl; [by left|]. intros [Hin| -> ]%register_topics; [apply IH in Hin as [?|?]|]; set_solver.
Qed.

Lemma destination_spec topic account h : sh_registeredTopicArns h = ∅ ->
  let h' := WithExpectedSNSDestination topic account h in
  same_parts h h' /\ sh_registeredTopicArns h' ⊆ {[TrimSpace topic]} /\
  (sh_registeredTopicArns h' = ∅ -> sh_expectedTopicArn h' = "").
Proof.
  intros Hn. unfold WithExpectedSNSDestination, RegisterSNSBinding. rewrite TrimSpace_idem.
  case_bool_decide as E; cbn [sh_registeredTopicArns sh_expectedTopicArn]; rewrite Hn; (split; [done|]); (split; [set_solver|]);
    intros He; [done|set_solver].
Qed.

Lemma inbound_built cfg :
  let h := inbound http_Get cfg in let topic := TrimSpace (sc_ExpectedTopicArn cfg) in
  sh_verifier h = Some (SNS_Verify feed_now http_Get) /\
  sh_confirmer h = Some (fun url => up (ConfirmSubscription http_Get url)) /\
  sh_Translate h = (fun body => up (Translate feed_now body)) /\
  sh_replayStore h = Some (fun topic id ts window => up (down (SNSReplayRepo_Claim topic id ts window))) /\
  sh_Process h = (fun event => up (up (Process pg_processor event))) /\
  sh_skipSignatureVerification h = sc_SkipSignatureVerification cfg /\ sh_registeredTopicArns h ⊆ {[topic]} /\
  (sh_registeredTopicArns h = ∅ -> sh_expectedTopicArn h = "").
Proof.
  unfold inbound, buildSESWebhookHandler, NewSESWebhookHandler.
  case_bool_decide; cbn [app fold_left]; [unfold WithSNSReplayStore, WithSkipSignatureVerification; simpl; split_and!; try done; set_solver|].
  set (h0 := WithSNSReplayStore _ _ _).
  destruct (destination_spec (sc_ExpectedTopicArn cfg) (sc_ExpectedAccountID cfg) h0 eq_refl) as ((Hp & Hv & Hc & Ht & Hs & Hk) & Hr & He).
  rewrite Hp, Hv, Hc, Ht, Hs, Hk. split_and!; done.
Qed.

Lemma bound_topic cfg topics t : validateSNSBinding (bound topics (inbound http_Get cfg)) t = Ok tt -> t ∈ topics_of cfg topics.
Proof.
  unfold validateSNSBinding, topics_of. destruct (inbound_built cfg) as (_ & _ & _ & _ & _ & _ & Ht & He).
  case_bool_decide as Eb.
  - destruct topics as [|x l].
    + simpl in *. rewrite He by done. by rewrite bool_decide_eq_true_2.
    + assert (Hnone : sh_registeredTopicArns (inbound http_Get cfg) = ∅ /\ sh_expectedTopicArn (bound (x :: l) (inbound http_Get cfg)) = sh_expectedTopicArn (inbound http_Get cfg)).
      { clear -Eb. induction (x :: l) as [|y k IH]; [done|]. simpl in *. unfold RegisterSNSBinding in *.
        case_bool_decide; [by apply IH|]. simpl in Eb. set_solver. }
      destruct Hnone as [Hn ->]. rewrite He by done. by rewrite bool_decide_eq_true_2.
  - destruct (negb _) eqn:En; [done|]. intros _. apply negb_false_iff, bool_decide_eq_true, bound_topics in En as [Hin|Hin].
    + apply Ht in Hin. set_solver.
    + set_solver.
Qed.

Lemma feed_quiet {A} (m : M Feed A) : preserves (fun w => (w.1, db_tables w.2)) m -> quiet mail taken_keys certs_sound (up m).
Proof.
  intros Hm [w c] Hi. specialize (Hm w). unfold up, certs_sound, mail, taken_keys in *. simpl in *.
  destruct (m w) as [r w']. simpl in *. injection Hm as -> ->. done.
Qed.

Lemma feed_now_frame : preserves (fun w => (w.1, db_tables w.2)) feed_now.
Proof. by intros [s d]. Qed.

Lemma Translate_frame body : preserves (fun w => (w.1, db_tables w.2)) (Translate feed_now body).
Proof.
  pose proof feed_now_frame. unfold Translate, translateNotification, mapSESToProviderEvent. preserves_tac.
Qed.

Lemma wired_parts cfg topics :
  inbound_parts (bound topics (inbound http_Get cfg)) mail taken_keys certs_sound
    (fun e s => (Process pg_processor e s).2) (authentic http_Get).
Proof.
  destruct (bound_parts topics (inbound http_Get cfg)) as (Hp & Hv & Hc & Ht & Hs & _).
  destruct (inbound_built cfg) as (Bv & Bc & Bt & Bs & Bp & _). split.
  - intros verify body. rewrite Hv, Bv. intros [= <-]. split.
    + intros [w c] Hi. pose proof (SNS_Verify_frame feed_now http_Get (fun w => (w.1, db_tables w.2)) body feed_now_frame http_frame (w, c)) as Hf.
      unfold on_world, mail, taken_keys, certs_sound in *. simpl in *.
      destruct (SNS_Verify _ _ body (w, c)) as [r [w' c'] ] eqn:E. apply SNS_Verify_sound in E as [? _]; [|done].
      simpl in *. injection Hf as -> ->. done.
    + intros [w c] Hi E. destruct (SNS_Verify _ _ body (w, c)) as [r [w' c'] ] eqn:Ev. apply SNS_Verify_sound in Ev as [_ Ha]; auto.
  - intros confirm url. rewrite Hc, Bc. intros [= <-]. apply feed_quiet. unfold ConfirmSubscription. preserves_tac.
  - intros body. rewrite Ht, Bt. apply feed_quiet, Translate_frame.
  - intros claim topic id ts window. rewrite Hs, Bs. intros [= <-]. split.
    + intros [ [s d] c] Hi. unfold up, down, mail, taken_keys, certs_sound in *. simpl in *.
      destruct (SNSReplayRepo_Claim topic id ts window d) as [r d'] eqn:E. apply Claim_outcome in E as [Hsub _]. done.
    + intros [ [s d] c]. unfold up, down, taken_keys. simpl.
      destruct (SNSReplayRepo_Claim topic id ts window d) as [r d'] eqn:E. apply Claim_outcome in E as [_ Ha].
      simpl. intros Er. destruct (Ha Er) as (? & ? & _). done.
  - intros event [ [s d] c] Hi. rewrite Hp, Bp. unfold up, mail, taken_keys, certs_sound in *. simpl in *.
    by destruct (Process pg_processor event s).
Qed.

(** The translation of a notification. *)
Lemma Translate_notification body w m w' : Translate feed_now body w = (Ok (inr m), w') -> pm_Kind m = KindNotification ->
  exists msg n e event, Unmarshal body = Ok msg /\ Unmarshal (sm_Message msg) = Ok n /\ ses_event n body = Some e /\
    pm_Event m = Some event /\ (event = e \/ exists now, event = with_event_time now e) /\
    sm_Type msg = "Notification" /\ pm_TopicArn m = sm_TopicArn msg /\ pm_MessageID m = sm_MessageID msg.
Proof.
  unfold Translate. destruct (Unmarshal body) as [msg|e] eqn:Em; [|done].
  destruct (negb _); [done|]. case_bool_decide.
  { case_bool_decide; [done|]. destruct (validateSubscribeURL _); intros [= <- <-]; done. }
  case_bool_decide as Hty; [|by intros [= <- <-] ]. unfold translateNotification.
  destruct (Unmarshal (sm_Message msg)) as [n|e] eqn:En; [|done]. unfold mapSESToProviderEvent.
  destruct (ses_event n body) as [e|] eqn:Ee; [|by intros [= <- <-] ].
  destruct w as [sy d]. case_bool_decide; unfold bind; simpl; intros [= <- <-] _; exists msg, n, e; eexists; simpl; split_and!; eauto.
Qed.

(** What an accepted notification was: the signed fields of a message, and the
    event of the report in them. *)
Definition signed_report (cfg : SNSConfig) (topics : list string) (d : Delivery) : Prop :=
  exists (fields : snsMessageFields) alg cert n e,
    Unmarshal (dv_body d) = Ok fields /\ signature_hash (sf_SignatureVersion fields) = Ok alg /\
    served http_Get (sf_SigningCertURL fields) cert /\ check_signature alg cert fields = Ok tt /\
    sf_Type fields = "Notification" /\ sf_TopicArn fields ∈ topics_of cfg topics /\
    key_of d = (TrimSpace (sf_TopicArn fields), TrimSpace (sf_MessageId fields)) /\
    Unmarshal (sf_Message fields) = Ok n /\ ses_event n (dv_body d) = Some e /\
    (dv_event d = e \/ exists now, dv_event d = with_event_time now e).

Lemma genuine_signed cfg topics d : sc_SkipSignatureVerification cfg = false ->
  genuine (bound topics (inbound http_Get cfg)) (authentic http_Get) d -> signed_report cfg topics d.
Proof.
  intros Hskip (Ha & (w & w' & Et) & Hk & He & _ & Hb).
  destruct (bound_parts topics (inbound http_Get cfg)) as (_ & Hv & _ & Ht & _ & Hs).
  destruct (inbound_built cfg) as (Bv & _ & Bt & _ & _ & Bs & _).
  rewrite Hv, Bv, Hs, Bs, Hskip in Ha. destruct Ha as [?|[?|(fields & alg & cert & Hu & Hh & Hc & Hsig)] ]; [done..|].
  rewrite Ht, Bt in Et. destruct w as [w c]. unfold up in Et.
  destruct (Translate feed_now (dv_body d) w) as [r w1] eqn:E. injection Et as -> <-.
  apply Translate_notification in E as (msg & n & e & event & Hm & Hn & Hse & He' & Hor & Hty & Htop & Hid); [|done].
  rewrite He in He'. injection He' as <-.
  destruct (same_fields _ _ _ Hu Hm) as (E1 & E2 & E3 & E4). apply bound_topic in Hb.
  exists fields, alg, cert, n, e. unfold key_of, replay_key. rewrite E1, E2, E3, E4, <- Htop, <- Hid. split_and!; done.
Qed.

(** C8: over any history of requests to the public endpoint, whoever sends them
    and whatever fails: the mail tables end as if the processor had been run, in
    the order of arrival, on the events of some of the requests - those carrying
    a report of an accepted topic, signed under a certificate that a host of the
    signing service served, whose key was not taken before; no key is used
    twice. *)
Theorem inbound_history cfg environment topics l w :
  isProductionEnvironment environment = true -> validateSNSConfig cfg environment = [] -> certs_sound w ->
  let w' := receive (HandleInbound (bound topics (inbound http_Get cfg))) l w in
  certs_sound w' /\ exists ds : list Delivery,
    mail w' = fold_left (fun s d => (Process pg_processor (dv_event d) s).2) ds (mail w) /\
    sublist (dv_body <$> ds) (bodies l) /\ NoDup (key_of <$> ds) /\
    Forall (fun d => signed_report cfg topics d /\ taken_keys w !! key_of d = None /\ is_Some (taken_keys w' !! key_of d)) ds.
Proof.
  intros Hprod Hcfg Hw w'.
  assert (Hskip : sc_SkipSignatureVerification cfg = false).
  { unfold validateSNSConfig in Hcfg. rewrite Hprod in Hcfg. by destruct (sc_SkipSignatureVerification cfg). }
  destruct (receive_outcome _ mail taken_keys certs_sound _ _ (wired_parts cfg topics) l w Hw) as (Hi & _ & ds & Hm & Hsub & Hd & Hf).
  split; [done|]. exists ds. split_and!; try done.
  apply (Forall_impl _ _ _ Hf). intros d (Hg & Hn & Hk). split_and!; [by apply genuine_signed|done..].
Qed.
End Wired.
