(* ===== verification/InboundRuns.v ===== *)
(** * Runs of the provider's webhook

    One mail that was sent, a signed report of its bounce, and requests to the
    public endpoint: the history theorem at a concrete history, and an event
    that is lost. *)
From stdpp Require Import base gmap strings list fin_maps.
From Stdlib Require Import ZArith NArith Ascii String Lia.
From S2P Require Import Prelude GoMonad Domain Ports Config Http.
From S2P Require Import Suppression EventProcessor Postgres Database Feedback ControlRuns SNS Inbound.

#[local] Instance feed_std : GoStd := ascii_std.
#[local] Instance feed_urls : UrlParser := {| url_Parse := fun s =>
  match strip_prefix "https://" s with
  | Some r => let '(host, path) := match Cut "/" r with Some (h, p) => (h, p) | None => (r, "") end in
              Ok (mkURL "https" host None path "" "")
  | None => Err (EMsg "invalid URL")
  end |}.
#[local] Instance feed_times : TimeParser := {| time_Parse := fun _ s =>
  match Atoi s with Some z => Ok z | None => Err (EMsg "invalid time") end |}.
#[local] Instance feed_crypto : SnsCrypto := {|
  Cert := string; RSAKey := string;
  pem_Decode := fun s => Some s;
  ParseCertificate := fun s => if bool_decide (s = "amazon") then Ok s else Err (EMsg "x509: malformed certificate");
  rsa_PublicKey := fun c => Some c;
  VerifyPKCS1v15 := fun key _ hashed sig => bool_decide (sig = key +:+ hashed);
  hash_Sum := fun _ s => s;
  std_b64_decode := fun s => Ok s;
|}.
#[local] Instance feed_body : BodyReader := {| ReadAll := fun c n => Ok (limited n (cn_RawBody c)) |}.

Definition aws_topic : string := "arn:aws:sns:eu-west-1:123456789012:senda".
Definition cert_url : string := "https://sns.eu-west-1.amazonaws.com/cert.pem".
Definition report_fields (signature : string) : snsMessageFields :=
  mkSnsFields "Notification" "m1" aws_topic "bounce" "90" "" "" "" "2" signature cert_url.
Definition signed_fields : snsMessageFields := report_fields ("amazon" +:+ buildStringToSign (report_fields "")).
Definition forged_fields : snsMessageFields := report_fields "mallory".

(** Two messages: the report, and the same without the signature. *)
Definition decode_body {A} (f : snsMessageFields -> A) (body : string) : Res A :=
  if bool_decide (body = "signed") then Ok (f signed_fields)
  else if bool_decide (body = "forged") then Ok (f forged_fields) else Err (EMsg "unexpected end of JSON input").

#[local] Instance fields_json : JSON snsMessageFields :=
  {| Marshal := fun _ => Err (EMsg "unused"); Unmarshal := decode_body id |}.
#[local] Instance message_json : JSON snsMessage :=
  {| Marshal := fun _ => Err (EMsg "unused");
     Unmarshal := decode_body (fun f => mkSnsMessage (sf_Type f) (sf_MessageId f) (sf_TopicArn f) (sf_Message f) (sf_Timestamp f)
                                          (sf_SignatureVersion f) (sf_Signature f) (sf_SigningCertURL f) (sf_SubscribeURL f)) |}.
#[local] Instance notification_json : JSON sesNotification :=
  {| Marshal := fun _ => Err (EMsg "unused");
     Unmarshal := fun s => if bool_decide (s = "bounce")
       then Ok (mkSesNotification "Bounce" (mkSesMail "ses-1") (Some (mkSesBounce "Permanent" ["user@x.io"] "80")) None None)
       else Err (EMsg "invalid character") |}.

Definition certs_host (url : string) : M Feed HttpResponse :=
  if bool_decide (url = cert_url) then ret (mkHttpResponse 200 (Ok "amazon")) else fail (EMsg "no such host").

Lemma certs_frame url : preserves (fun w : Feed => (w.1, db_tables w.2)) (certs_host url).
Proof. unfold certs_host. case_bool_decide; [apply preserves_ret|apply preserves_fail]. Qed.

Lemma decoded_alike body (f : snsMessageFields) (m : snsMessage) : Unmarshal body = Ok f -> Unmarshal body = Ok m ->
  sf_Type f = sm_Type m /\ sf_MessageId f = sm_MessageID m /\ sf_TopicArn f = sm_TopicArn m /\ sf_Message f = sm_Message m.
Proof.
  unfold Unmarshal, fields_json, message_json, decode_body. repeat case_bool_decide; try discriminate;
    intros [= <-] [= <-]; auto.
Qed.

Definition feed_config : SNSConfig := mkSNSConfig false aws_topic "" (15 * Minute).
Definition sns_post (body : string) : Conn := mkConn "POST" "/api/v1/webhooks/ses/inbound" [] ∅ ∅ body no_values [] [] None true [].
Definition feed_start (faults : list Fault) : Feed * CertCache :=
  ((set_faults (fun _ => faults) (sample_sys (sample_email StatusSent "user@x.io")), mkDB ∅ 100 1 [] []), mkCertCache ∅ 0).
Definition feed_handler : HandlerFunc (Feed * CertCache) := HandleInbound (bound [] (inbound certs_host feed_config)).

(** The report arrives after a forgery and again after itself. *)
Lemma inbound_history_witness :
  let w := feed_start [] in
  let w' := receive (HandleInbound (bound [] (inbound certs_host feed_config))) [sns_post "forged"; sns_post "signed"; sns_post "signed"] w in
  status_of (mail w) !! 42%N = Some StatusSent /\ status_of (mail w') !! 42%N = Some StatusBounced /\
  exists d, mail w' = (Process pg_processor (dv_event d) (mail w)).2 /\ signed_report certs_host feed_config [] d.
Proof.
  intros w w'. assert (E0 : status_of (mail w) !! 42%N = Some StatusSent) by (vm_compute; reflexivity).
  assert (E1 : status_of (mail w') !! 42%N = Some StatusBounced) by (vm_compute; reflexivity).
  split; [exact E0|]. split; [exact E1|].
  destruct (inbound_history certs_host certs_frame decoded_alike feed_config "production" []
              [sns_post "forged"; sns_post "signed"; sns_post "signed"] w) as (_ & ds & Hm & _ & Hd & Hf);
    [vm_compute; reflexivity|vm_compute; reflexivity|apply cache_empty|].
  fold w' in Hm. clearbody w'. destruct ds as [|d [|d' ds] ].
  - exfalso. cbn [fold_left] in Hm. rewrite Hm, E0 in E1. discriminate.
  - exists d. split; [exact Hm|]. apply Forall_inv in Hf. apply Hf.
  - exfalso. assert (Hk : forall x, signed_report certs_host feed_config [] x -> key_of x = (aws_topic, "m1")).
    { intros x (f & _ & _ & _ & _ & Hu & _ & _ & _ & _ & _ & Hk & _). rewrite Hk. unfold Unmarshal, fields_json, decode_body in Hu.
      repeat case_bool_decide; try discriminate; injection Hu as <-; vm_compute; reflexivity. }
    inversion Hf as [|? ? [Hs _] Hf1]. inversion Hf1 as [|? ? [Hs' _] Hf2]. simpl in Hd. apply NoDup_cons in Hd as [Hn _].
    apply Hn. rewrite (Hk d Hs), (Hk d' Hs'). left.
Defined.

(** The processor fails once: the sender is told the report was taken, its
    redelivery is a duplicate, and the bounce is never recorded. *)
Lemma report_lost :
  let first := feed_handler (feed_start [FaultBefore "connection reset"], sns_post "signed") in
  let second := feed_handler (first.2.1, sns_post "signed") in
  rp_Status <$> cn_Replies first.2.2 = [200%Z] /\ rp_Status <$> cn_Replies second.2.2 = [200%Z] /\
  sys_faults (mail second.2.1) = [] /\ status_of (mail second.2.1) !! 42%N = Some StatusSent.
Proof. vm_compute. auto. Qed.

(** A topic provisioned while a handler runs is accepted by that handler only: one
    built again from the same configuration, or in another process, refuses it. *)
Lemma binding_lost :
  let built := inbound certs_host (mkSNSConfig false "" "" Minute) in
  validateSNSBinding (bound [aws_topic] built) aws_topic = Ok tt /\ is_ok (validateSNSBinding built aws_topic) = false.
Proof. vm_compute. auto. Qed.
