(* ===== verification/Access.v ===== *)
(** * Adapter access ([service/adapter_access.go])

    Which adapters and sender identities a workspace may use: the checks made
    before a send, and the management of the grants a system workspace gives to
    the workspaces of its tenant. *)
From stdpp Require Import base gmap strings list sorting.
From Stdlib Require Import ZArith String Lia.
From S2P Require Import Prelude GoMonad Domain Ports.

Record AdapterAccess := mkAdapterAccess {
  acc_Adapter : Adapter;
  acc_Shared : bool;
  acc_Editable : bool;
  acc_OwnerScope : option Workspace;
}.

Record WorkspaceAccessGrant := mkWorkspaceAccessGrant { wag_Workspace : Workspace; wag_Granted : bool }.

(** The operations of the ports the service calls. *)
Record AdapterStore (W : Type) := mkAdapterStore {
  GetAdapterByID : uuid -> M W Adapter;
  ListAdaptersByWorkspace : option uuid -> ListOptions -> M W (PageResult Adapter);
}.
Record AdapterIdentityStore (W : Type) := mkAdapterIdentityStore {
  GetIdentityByID : uuid -> M W AdapterIdentity;
  GetDefaultIdentity : uuid -> M W AdapterIdentity;
  ListIdentitiesByAdapter : uuid -> M W (list AdapterIdentity);
}.
Record AdapterGrantStore (W : Type) := mkAdapterGrantStore {
  ListAdapterWorkspaceGrants : uuid -> M W (list uuid);
  ReplaceAdapterWorkspaceGrants : uuid -> list uuid -> M W unit;
  HasAdapterWorkspaceGrant : uuid -> uuid -> M W bool;
  ListVisibleAdaptersForWorkspace : uuid -> ListOptions -> M W (PageResult Adapter);
}.
Record AdapterIdentityGrantStore (W : Type) := mkAdapterIdentityGrantStore {
  ListIdentityWorkspaceGrants : uuid -> M W (list uuid);
  ReplaceIdentityWorkspaceGrants : uuid -> list uuid -> M W unit;
  HasIdentityWorkspaceGrant : uuid -> uuid -> M W bool;
  ListGrantedIdentitiesForWorkspace : uuid -> uuid -> M W (list AdapterIdentity);
}.
Record TemplateTypeUsageStore (W : Type) := mkTemplateTypeUsageStore {
  ListWorkspacesUsingAdapter : uuid -> list uuid -> M W (list uuid);
  ListWorkspacesUsingSenderIdentity : uuid -> list uuid -> M W (list uuid);
}.
Arguments GetAdapterByID {W}. Arguments ListAdaptersByWorkspace {W}. Arguments GetIdentityByID {W}.
Arguments GetDefaultIdentity {W}. Arguments ListIdentitiesByAdapter {W}.
Arguments ListAdapterWorkspaceGrants {W}. Arguments ReplaceAdapterWorkspaceGrants {W}.
Arguments HasAdapterWorkspaceGrant {W}. Arguments ListVisibleAdaptersForWorkspace {W}.
Arguments ListIdentityWorkspaceGrants {W}. Arguments ReplaceIdentityWorkspaceGrants {W}.
Arguments HasIdentityWorkspaceGrant {W}. Arguments ListGrantedIdentitiesForWorkspace {W}.
Arguments ListWorkspacesUsingAdapter {W}. Arguments ListWorkspacesUsingSenderIdentity {W}.

(** The grant stores are nil when the feature is not wired. *)
Record AdapterAccessService (W : Type) := mkAdapterAccessService {
  aas_adapterStore : AdapterStore W;
  aas_identityStore : AdapterIdentityStore W;
  aas_workspaceStore : WorkspaceStore.t W;
  aas_adapterGrants : option (AdapterGrantStore W);
  aas_identityGrants : option (AdapterIdentityGrantStore W);
  aas_templateTypeUsages : TemplateTypeUsageStore W;
}.
Arguments aas_adapterStore {W}. Arguments aas_identityStore {W}. Arguments aas_workspaceStore {W}.
Arguments aas_adapterGrants {W}. Arguments aas_identityGrants {W}. Arguments aas_templateTypeUsages {W}.

Definition usesIdentityGrants (adapterType : AdapterType) : bool :=
  bool_decide (adapterType = AdapterTypeSES) || bool_decide (adapterType = AdapterTypeSMTP).

Definition workspaceEnvironment (workspace : Workspace) : Environment :=
  if Environment_Valid (ws_Environment workspace) then ws_Environment workspace else EnvironmentProd.

Definition subtractUUIDs (current desired : list uuid) : list uuid :=
  List.filter (fun id => negb (bool_decide (id ∈ desired))) current.

(** Calling a method of a nil interface. *)
Definition nil_dereference : error := EMsg "runtime error: invalid memory address or nil pointer dereference".

Section Service.
Context `{GoStd} {W : Type} (s : AdapterAccessService W).

Definition ListAdaptersForWorkspace (workspace : option Workspace) (opts : ListOptions) : M W (PageResult Adapter) :=
  match workspace with
  | None => ListAdaptersByWorkspace (aas_adapterStore s) None opts
  | Some ws =>
      match aas_adapterGrants s with
      | Some grants =>
          if ws_IsSystem ws then ListAdaptersByWorkspace (aas_adapterStore s) (Some (ws_ID ws)) opts
          else ListVisibleAdaptersForWorkspace grants (ws_ID ws) opts
      | None => ListAdaptersByWorkspace (aas_adapterStore s) (Some (ws_ID ws)) opts
      end
  end.

(** The grant a system-owned adapter needs before a workspace sees it. *)
Definition require_shared (adapter : Adapter) (ws : Workspace) : M W unit :=
  if bool_decide (ad_AdapterType adapter = AdapterTypeGmail) then
    match aas_adapterGrants s with
    | None => fail (ESent ErrAdapterAccessDenied)
    | Some grants =>
        let! granted := HasAdapterWorkspaceGrant grants (ad_ID adapter) (ws_ID ws) in
        if negb granted then fail (ESent ErrAdapterAccessDenied) else ret tt
    end
  else if usesIdentityGrants (ad_AdapterType adapter) then
    match aas_identityGrants s with
    | None => fail (ESent ErrAdapterAccessDenied)
    | Some grants =>
        let! identities := ListGrantedIdentitiesForWorkspace grants (ad_ID adapter) (ws_ID ws) in
        match identities with
        | [] => fail (ESent ErrAdapterAccessDenied)
        | _ => ret tt
        end
    end
  else fail (ESent ErrAdapterAccessDenied).

Definition GetAdapterAccess (workspace : option Workspace) (adapterID : uuid) : M W AdapterAccess :=
  let! adapter := GetAdapterByID (aas_adapterStore s) adapterID in
  match workspace, ad_WorkspaceID adapter with
  | None, None => ret (mkAdapterAccess adapter false true None)
  | None, Some _ => fail (ESent ErrAdapterAccessDenied)
  | Some ws, None => ret (mkAdapterAccess adapter false false None)
  | Some ws, Some ownerID =>
      if bool_decide (ownerID = ws_ID ws) then ret (mkAdapterAccess adapter false true None)
      else
        let! owner := WorkspaceStore.GetByID (aas_workspaceStore s) ownerID in
        if negb (bool_decide (ws_TenantID owner = ws_TenantID ws)) || negb (ws_IsSystem owner)
        then fail (ESent ErrAdapterAccessDenied)
        else require_shared adapter ws ;;; ret (mkAdapterAccess adapter true false (Some owner))
  end.

Definition ListIdentitiesForWorkspace (workspace : option Workspace) (adapterID : uuid)
  : M W (list AdapterIdentity) :=
  match workspace with
  | None => ListIdentitiesByAdapter (aas_identityStore s) adapterID
  | Some ws =>
      if ws_IsSystem ws then ListIdentitiesByAdapter (aas_identityStore s) adapterID
      else
        let! access := GetAdapterAccess (Some ws) adapterID in
        if acc_Editable access || bool_decide (ad_AdapterType (acc_Adapter access) = AdapterTypeGmail)
        then ListIdentitiesByAdapter (aas_identityStore s) adapterID
        else match aas_identityGrants s with
             | Some grants => ListGrantedIdentitiesForWorkspace grants adapterID (ws_ID ws)
             | None => fail nil_dereference
             end
  end.

Definition validateSenderIdentity (adapter : Adapter) (senderIdentityID : option uuid)
    (extra : AdapterIdentity -> M W unit) : M W unit :=
  match senderIdentityID with
  | None => ret tt
  | Some sid =>
      let! identity := GetIdentityByID (aas_identityStore s) sid in
      if negb (bool_decide (id_AdapterID identity = ad_ID adapter)) then fail (ESent ErrSenderIdentityAccessDenied)
      else if negb (bool_decide (id_IdentityType identity = IdentityTypeEmail))
      then fail (ESent ErrSenderIdentityAccessDenied)
      else extra identity
  end.

Definition ValidateTemplateTypeSelection (workspace : option Workspace) (adapterID senderIdentityID : option uuid)
  : M W unit :=
  match adapterID, workspace with
  | Some adapterID, Some ws =>
      if ws_IsSystem ws then ret tt
      else
        let! adapter := GetAdapterByID (aas_adapterStore s) adapterID in
        match ad_WorkspaceID adapter with
        | None => validateSenderIdentity adapter senderIdentityID (fun _ => ret tt)
        | Some ownerID =>
            if bool_decide (ownerID = ws_ID ws)
            then validateSenderIdentity adapter senderIdentityID (fun _ => ret tt)
            else
              let! owner := WorkspaceStore.GetByID (aas_workspaceStore s) ownerID in
              if negb (bool_decide (ws_TenantID owner = ws_TenantID ws)) || negb (ws_IsSystem owner)
              then fail (ESent ErrAdapterAccessDenied)
              else if bool_decide (ad_AdapterType adapter = AdapterTypeGmail) then
                match aas_adapterGrants s with
                | None => fail nil_dereference
                | Some grants =>
                    let! granted := HasAdapterWorkspaceGrant grants (ad_ID adapter) (ws_ID ws) in
                    if negb granted then fail (ESent ErrAdapterAccessDenied)
                    else validateSenderIdentity adapter senderIdentityID (fun _ => ret tt)
                end
              else if usesIdentityGrants (ad_AdapterType adapter) then
                if bool_decide (senderIdentityID = None) then fail (ESent ErrSenderIdentityRequired)
                else validateSenderIdentity adapter senderIdentityID (fun identity =>
                  match aas_identityGrants s with
                  | None => fail nil_dereference
                  | Some grants =>
                      let! granted := HasIdentityWorkspaceGrant grants (id_ID identity) (ws_ID ws) in
                      if negb granted then fail (ESent ErrSenderIdentityAccessDenied) else ret tt
                  end)
              else fail (ESent ErrAdapterAccessDenied)
        end
  | _, _ => ret tt
  end.

(** *** Managing the grants *)

(** The requested workspaces without repetitions, or the first that is not a
    listed workspace of the tenant; [seen] is what was accepted. *)
Fixpoint accept_targets (allowed : list uuid) (seen : list uuid) (requested : list uuid) : Res (list uuid) :=
  match requested with
  | [] => Ok []
  | id :: r =>
      if bool_decide (id ∈ seen) then accept_targets allowed seen r
      else if negb (bool_decide (id ∈ allowed))
      then Err (EWrap "" (ESent ErrValidation) (": invalid workspace target " +:+ uuid_String id))
      else match accept_targets allowed (id :: seen) r with
           | Ok l => Ok (id :: l)
           | Err e => Err e
           end
  end.

Definition non_system (workspaces : list Workspace) : list Workspace :=
  List.filter (fun ws => negb (ws_IsSystem ws)) workspaces.

Definition validWorkspaceTargets (tenantID : uuid) (environment : Environment) (requested : list uuid)
  : M W (list uuid) :=
  match requested with
  | [] => ret []
  | _ =>
      let! page := WorkspaceStore.ListByTenant (aas_workspaceStore s) tenantID environment 1000 "" in
      lift_res (accept_targets (ws_ID <$> non_system page.1) [] requested)
  end.

(** The checks both kinds of grants share: the caller is a system workspace and
    the adapter its own, of a type that is shared this way. *)
Definition shareable_adapter (systemWorkspace : option Workspace) (adapterID : uuid)
    (shared_type : AdapterType -> bool) (forbidden invalid : string) : M W Workspace :=
  match systemWorkspace with
  | Some ws =>
      if negb (ws_IsSystem ws) then fail (EWrap "" (ESent ErrForbidden) forbidden)
      else
        let! adapter := GetAdapterByID (aas_adapterStore s) adapterID in
        if negb (bool_decide (ad_WorkspaceID adapter = Some (ws_ID ws)) && shared_type (ad_AdapterType adapter))
        then fail (EWrap "" (ESent ErrValidation) invalid)
        else ret ws
  | None => fail (EWrap "" (ESent ErrForbidden) forbidden)
  end.

Definition gmail_adapter (systemWorkspace : option Workspace) (adapterID : uuid) : M W Workspace :=
  shareable_adapter systemWorkspace adapterID (fun t => bool_decide (t = AdapterTypeGmail))
    ": adapter grants can only be managed from _system" ": only system-owned gmail adapters can be shared".

Definition identity_adapter (systemWorkspace : option Workspace) (adapterID : uuid) : M W Workspace :=
  shareable_adapter systemWorkspace adapterID usesIdentityGrants
    ": identity grants can only be managed from _system"
    ": only system-owned identity-scoped adapters can share email identities".

Definition shareable_identity (adapterID identityID : uuid) : M W unit :=
  let! identity := GetIdentityByID (aas_identityStore s) identityID in
  if negb (bool_decide (id_AdapterID identity = adapterID)) ||
     negb (bool_decide (id_IdentityType identity = IdentityTypeEmail))
  then fail (EWrap "" (ESent ErrValidation) ": only email identities can be shared") else ret tt.

(** The replacement itself: a workspace that still uses what it would lose
    blocks it. *)
Definition replace_grants (list_current : M W (list uuid)) (in_use : list uuid -> M W (list uuid))
    (replace : list uuid -> M W unit) (validTargets : list uuid) : M W unit :=
  let! current := list_current in
  match subtractUUIDs current validTargets with
  | [] => replace validTargets
  | revoked =>
      let! used := in_use revoked in
      match used with
      | [] => replace validTargets
      | _ => fail (ESent ErrSharedGrantInUse)
      end
  end.

Definition ReplaceAdapterWorkspaceAccess (systemWorkspace : option Workspace) (adapterID : uuid)
    (workspaceIDs : list uuid) : M W unit :=
  let! ws := gmail_adapter systemWorkspace adapterID in
  let! validTargets := validWorkspaceTargets (ws_TenantID ws) (workspaceEnvironment ws) workspaceIDs in
  match aas_adapterGrants s with
  | None => fail nil_dereference
  | Some grants =>
      replace_grants (ListAdapterWorkspaceGrants grants adapterID)
        (ListWorkspacesUsingAdapter (aas_templateTypeUsages s) adapterID)
        (ReplaceAdapterWorkspaceGrants grants adapterID) validTargets
  end.

Definition ReplaceIdentityWorkspaceAccess (systemWorkspace : option Workspace) (adapterID identityID : uuid)
    (workspaceIDs : list uuid) : M W unit :=
  let! ws := identity_adapter systemWorkspace adapterID in
  shareable_identity adapterID identityID ;;;
  let! validTargets := validWorkspaceTargets (ws_TenantID ws) (workspaceEnvironment ws) workspaceIDs in
  match aas_identityGrants s with
  | None => fail nil_dereference
  | Some grants =>
      replace_grants (ListIdentityWorkspaceGrants grants identityID)
        (ListWorkspacesUsingSenderIdentity (aas_templateTypeUsages s) identityID)
        (ReplaceIdentityWorkspaceGrants grants identityID) validTargets
  end.

(** By name, then by code, bytewise. *)
Definition grant_before (a b : WorkspaceAccessGrant) : bool :=
  if bool_decide (ws_Name (wag_Workspace a) = ws_Name (wag_Workspace b))
  then String.leb (ws_Code (wag_Workspace a)) (ws_Code (wag_Workspace b))
  else String.leb (ws_Name (wag_Workspace a)) (ws_Name (wag_Workspace b)).

Definition listWorkspaceAccess (tenantID : uuid) (environment : Environment) (loadGrants : M W (list uuid))
  : M W (list WorkspaceAccessGrant) :=
  let! page := WorkspaceStore.ListByTenant (aas_workspaceStore s) tenantID environment 1000 "" in
  let! grants := loadGrants in
  ret (merge_sort (fun a b => Is_true (grant_before a b))
         ((fun ws => mkWorkspaceAccessGrant ws (bool_decide (ws_ID ws ∈ grants))) <$> non_system page.1)).

Definition ListAdapterWorkspaceAccess (systemWorkspace : option Workspace) (adapterID : uuid)
  : M W (list WorkspaceAccessGrant) :=
  let! ws := gmail_adapter systemWorkspace adapterID in
  listWorkspaceAccess (ws_TenantID ws) (workspaceEnvironment ws)
    match aas_adapterGrants s with
    | Some grants => ListAdapterWorkspaceGrants grants adapterID
    | None => fail nil_dereference
    end.

Definition ListIdentityWorkspaceAccess (systemWorkspace : option Workspace) (adapterID identityID : uuid)
  : M W (list WorkspaceAccessGrant) :=
  let! ws := identity_adapter systemWorkspace adapterID in
  shareable_identity adapterID identityID ;;;
  listWorkspaceAccess (ws_TenantID ws) (workspaceEnvironment ws)
    match aas_identityGrants s with
    | Some grants => ListIdentityWorkspaceGrants grants identityID
    | None => fail nil_dereference
    end.
End Service.

(** * Theorems *)

(** What the stores hold: rows by id, the grants as (adapter or identity,
    workspace) pairs, and which workspaces' template types use an adapter. *)
Record AccessView := mkAccessView {
  av_adapters : gmap uuid Adapter;
  av_identities : gmap uuid AdapterIdentity;
  av_workspaces : gmap uuid Workspace;
  av_adapterGrants : gset (uuid * uuid);
  av_identityGrants : gset (uuid * uuid);
  av_using : gset (uuid * uuid);
}.

Definition with_grants (grants : gset (uuid * uuid)) (v : AccessView) : AccessView :=
  mkAccessView (av_adapters v) (av_identities v) (av_workspaces v) grants (av_identityGrants v) (av_using v).

(** The grants of an adapter replaced by a list of workspaces. *)
Definition regrant (adapterID : uuid) (workspaceIDs : list uuid) (g : gset (uuid * uuid)) : gset (uuid * uuid) :=
  filter (fun p => p.1 <> adapterID) g ∪ list_to_set ((fun w => (adapterID, w)) <$> workspaceIDs).

(** The stores answer from a view of the world, when they answer. *)
Class AccessReads {W} (s : AdapterAccessService W) (v : W -> AccessView) : Prop := {
  read_adapter id w a w' : GetAdapterByID (aas_adapterStore s) id w = (Ok a, w') ->
    av_adapters (v w) !! id = Some a /\ ad_ID a = id /\ v w' = v w;
  read_identity id w i w' : GetIdentityByID (aas_identityStore s) id w = (Ok i, w') ->
    av_identities (v w) !! id = Some i /\ id_ID i = id /\ v w' = v w;
  read_workspace id w ws w' : WorkspaceStore.GetByID (aas_workspaceStore s) id w = (Ok ws, w') ->
    av_workspaces (v w) !! id = Some ws /\ v w' = v w;
  read_adapter_grant g a x w b w' : aas_adapterGrants s = Some g ->
    HasAdapterWorkspaceGrant g a x w = (Ok b, w') -> b = bool_decide ((a, x) ∈ av_adapterGrants (v w)) /\ v w' = v w;
  read_identity_grant g i x w b w' : aas_identityGrants s = Some g ->
    HasIdentityWorkspaceGrant g i x w = (Ok b, w') -> b = bool_decide ((i, x) ∈ av_identityGrants (v w)) /\ v w' = v w;
}.

(** The stores answer every query about what they hold. *)
Class AccessAnswers {W} (s : AdapterAccessService W) (v : W -> AccessView) : Prop := {
  answer_adapter id w a : av_adapters (v w) !! id = Some a -> is_ok (GetAdapterByID (aas_adapterStore s) id w).1 = true;
  answer_identity id w i : av_identities (v w) !! id = Some i -> is_ok (GetIdentityByID (aas_identityStore s) id w).1 = true;
  answer_workspace id w ws : av_workspaces (v w) !! id = Some ws ->
    is_ok (WorkspaceStore.GetByID (aas_workspaceStore s) id w).1 = true;
  answer_adapter_grant a x w : exists g, aas_adapterGrants s = Some g /\ is_ok (HasAdapterWorkspaceGrant g a x w).1 = true;
  answer_identity_grant i x w : exists g, aas_identityGrants s = Some g /\ is_ok (HasIdentityWorkspaceGrant g i x w).1 = true;
}.

(** The identity a template type selects is an email address of the adapter. *)
Definition sender_of (v : AccessView) (adapterID : uuid) (senderIdentityID : option uuid) : Prop :=
  forall i, senderIdentityID = Some i ->
  exists identity, av_identities v !! i = Some identity /\ id_AdapterID identity = adapterID /\
                   id_IdentityType identity = IdentityTypeEmail.

(** The adapters a workspace may send with: the global ones, its own, and those
    a system workspace of its tenant shares with it: a Gmail adapter as a whole,
    an SES or SMTP adapter identity by identity. *)
Definition permitted (v : AccessView) (ws : Workspace) (adapterID : uuid) (senderIdentityID : option uuid) : Prop :=
  exists adapter, av_adapters v !! adapterID = Some adapter /\ sender_of v adapterID senderIdentityID /\
  (ad_WorkspaceID adapter = None \/ ad_WorkspaceID adapter = Some (ws_ID ws) \/
   exists ownerID owner, ad_WorkspaceID adapter = Some ownerID /\ av_workspaces v !! ownerID = Some owner /\
     ws_TenantID owner = ws_TenantID ws /\ ws_IsSystem owner = true /\
     ((ad_AdapterType adapter = AdapterTypeGmail /\ (adapterID, ws_ID ws) ∈ av_adapterGrants v) \/
      (usesIdentityGrants (ad_AdapterType adapter) = true /\
       exists i, senderIdentityID = Some i /\ (i, ws_ID ws) ∈ av_identityGrants v))).

Section Selection.
Context `{GoStd} {W : Type} (s : AdapterAccessService W) (v : W -> AccessView) `{!AccessReads s v}.

Lemma validateSenderIdentity_ok adapter sid extra w w' :
  validateSenderIdentity s adapter sid extra w = (Ok tt, w') ->
  sender_of (v w) (ad_ID adapter) sid /\
  (forall i, sid = Some i -> exists identity w1,
     id_ID identity = i /\ v w1 = v w /\ extra identity w1 = (Ok tt, w')).
Proof.
  unfold validateSenderIdentity, bind. destruct sid as [i|]; [|by split; [intros ?|]].
  destruct (GetIdentityByID _ i w) as [[identity|e] w1] eqn:E; [|done].
  apply read_identity in E as (E & Ei & Ev).
  repeat case_bool_decide; simpl; try done. intros Hx. split.
  - intros j [= <-]. eauto.
  - intros j [= <-]. eauto 10.
Qed.

Lemma ValidateTemplateTypeSelection_permitted ws adapterID sid w w' :
  ws_IsSystem ws = false ->
  ValidateTemplateTypeSelection s (Some ws) (Some adapterID) sid w = (Ok tt, w') ->
  permitted (v w) ws adapterID sid.
Proof.
  intros Hs. unfold ValidateTemplateTypeSelection, bind. rewrite Hs.
  destruct (GetAdapterByID _ adapterID w) as [[adapter|e] w1] eqn:Ea; [|done].
  apply read_adapter in Ea as (Ha & <- & Ev1).
  destruct (ad_WorkspaceID adapter) as [ownerID|] eqn:Ew.
  2: { intros [Hid _]%validateSenderIdentity_ok. rewrite Ev1 in Hid. exists adapter. auto. }
  case_bool_decide as Ho.
  { intros [Hid _]%validateSenderIdentity_ok. rewrite Ev1 in Hid. exists adapter. subst. auto. }
  destruct (WorkspaceStore.GetByID _ ownerID w1) as [[owner|e] w2] eqn:Eo; [|done].
  apply read_workspace in Eo as (Hown & Ev2). rewrite Ev1 in Hown, Ev2.
  destruct (_ || _) eqn:Et; [done|]. bools.
  case_bool_decide as Hg.
  - destruct (aas_adapterGrants s) as [g|] eqn:Eg; [|done].
    destruct (HasAdapterWorkspaceGrant _ _ _ w2) as [[b|e] w3] eqn:Eb; [|done].
    apply (read_adapter_grant _ _ _ _ _ _ Eg) in Eb as (-> & Ev3). rewrite Ev2 in Ev3.
    case_bool_decide as Hin; [|done]. rewrite Ev2 in Hin.
    intros [Hid _]%validateSenderIdentity_ok. rewrite Ev3 in Hid.
    exists adapter. do 2 (split; [done|]). right. right. exists ownerID, owner. auto 10.
  - destruct (usesIdentityGrants _) eqn:Eu; [|done]. case_bool_decide as Hn; [done|].
    intros [Hid Hx]%validateSenderIdentity_ok. rewrite Ev2 in Hid.
    destruct sid as [i|]; [|done]. destruct (Hx i eq_refl) as (identity & w3 & <- & Ev3 & Hrun).
    destruct (aas_identityGrants s) as [g|] eqn:Eg; [|done].
    destruct (HasIdentityWorkspaceGrant _ _ _ w3) as [[b|e] w4] eqn:Eb; [|done].
    apply (read_identity_grant _ _ _ _ _ _ Eg) in Eb as (-> & _). case_bool_decide as Hin; [|done].
    rewrite Ev3, Ev2 in Hin.
    exists adapter. do 2 (split; [done|]). right. right. exists ownerID, owner. eauto 12.
Qed.

Context `{!AccessAnswers s v}.

Lemma validateSenderIdentity_runs adapter sid extra w :
  sender_of (v w) (ad_ID adapter) sid ->
  (forall i identity w1, sid = Some i -> id_ID identity = i -> v w1 = v w -> (extra identity w1).1 = Ok tt) ->
  (validateSenderIdentity s adapter sid extra w).1 = Ok tt.
Proof.
  unfold validateSenderIdentity, bind. intros Hid Hx. destruct sid as [i|]; [|done].
  destruct (Hid i eq_refl) as (identity & Hi & Had & Hty).
  pose proof (answer_identity i w identity Hi) as Hok.
  destruct (GetIdentityByID _ i w) as [[identity'|e] w1] eqn:E; [|done].
  apply read_identity in E as (E & Ei & Ev). simplify_eq.
  rewrite !bool_decide_eq_true_2 by done. simpl. eauto.
Qed.

Lemma permitted_validates ws adapterID sid w :
  permitted (v w) ws adapterID sid ->
  (ValidateTemplateTypeSelection s (Some ws) (Some adapterID) sid w).1 = Ok tt.
Proof.
  intros (adapter & Ha & Hid & Hcase). unfold ValidateTemplateTypeSelection, bind.
  destruct (ws_IsSystem ws); [done|]. pose proof (answer_adapter adapterID w adapter Ha) as Hok.
  destruct (GetAdapterByID _ adapterID w) as [[adapter'|e] w1] eqn:Ea; [|done].
  apply read_adapter in Ea as (Ha' & <- & Ev1). simplify_eq. rewrite <- Ev1 in Hid.
  destruct Hcase as [->|[->|(ownerID & owner & -> & Hown & Ht & Hs & Hg)] ].
  - by apply validateSenderIdentity_runs.
  - rewrite bool_decide_eq_true_2 by done. by apply validateSenderIdentity_runs.
  - case_bool_decide as Ho; [by apply validateSenderIdentity_runs|].
    rewrite <- Ev1 in Hown. pose proof (answer_workspace ownerID w1 owner Hown) as Hok2.
    destruct (WorkspaceStore.GetByID _ ownerID w1) as [[owner'|e] w2] eqn:Eo; [|done].
    apply read_workspace in Eo as (Hown' & Ev2). simplify_eq.
    rewrite bool_decide_eq_true_2, Hs by done. simpl. rewrite <- Ev2 in Hid. rewrite <- Ev1, <- Ev2 in Hg.
    destruct Hg as [(-> & Hin)|(Hu & i & -> & Hin)].
    + rewrite bool_decide_eq_true_2 by done.
      destruct (answer_adapter_grant (ad_ID adapter) (ws_ID ws) w2) as (g & Eg & Hokg). rewrite Eg.
      destruct (HasAdapterWorkspaceGrant _ _ _ w2) as [[b|e] w3] eqn:Eb; [|done].
      apply (read_adapter_grant _ _ _ _ _ _ Eg) in Eb as (-> & Ev3).
      rewrite bool_decide_eq_true_2 by done. simpl. rewrite <- Ev3 in Hid. by apply validateSenderIdentity_runs.
    + rewrite bool_decide_eq_false_2 by (intros Hc; by rewrite Hc in Hu). rewrite Hu.
      rewrite bool_decide_eq_false_2 by done. apply validateSenderIdentity_runs; [done|].
      intros i' identity w3 [= <-] Hi Ev3. destruct (answer_identity_grant i (ws_ID ws) w3) as (g & Eg & Hokg).
      rewrite Eg. subst i. destruct (HasIdentityWorkspaceGrant _ _ _ w3) as [[b|e] w4] eqn:Eb; [|done].
      apply (read_identity_grant _ _ _ _ _ _ Eg) in Eb as (-> & _). rewrite Ev3.
      by rewrite bool_decide_eq_true_2.
Qed.
End Selection.

(** C27: the check made before a send is exact: a workspace passes it only for an
    adapter it may use and, when the stores answer, for every one of them - its
    own, a global one, or one that a system workspace of its own tenant has
    granted to it (an SES or SMTP adapter only with a granted identity), always
    with a sender identity that is an email address of that adapter. *)
Theorem ValidateTemplateTypeSelection_exact `{GoStd} {W} (s : AdapterAccessService W) v `{!AccessReads s v}
    ws adapterID sid w :
  ws_IsSystem ws = false ->
  ((ValidateTemplateTypeSelection s (Some ws) (Some adapterID) sid w).1 = Ok tt -> permitted (v w) ws adapterID sid) /\
  (AccessAnswers s v -> permitted (v w) ws adapterID sid ->
   (ValidateTemplateTypeSelection s (Some ws) (Some adapterID) sid w).1 = Ok tt).
Proof.
  intros Hs. split; [|by intros ?; apply permitted_validates].
  destruct (ValidateTemplateTypeSelection s (Some ws) (Some adapterID) sid w) as [r w'] eqn:E. simpl. intros ->.
  eapply ValidateTemplateTypeSelection_permitted; eauto.
Qed.

Lemma accept_targets_Ok `{GoStd} allowed requested : forall seen l,
  accept_targets allowed seen requested = Ok l ->
  NoDup l /\ (forall x, x ∈ l <-> x ∈ requested /\ x ∉ seen) /\ (forall x, x ∈ l -> x ∈ allowed).
Proof.
  induction requested as [|id r IH]; intros seen l; simpl.
  - intros [= <-]. split; [constructor|]. set_solver.
  - case_bool_decide as Hseen.
    { intros (Hn & Hx & Ha)%IH. split; [done|]. split; [|done]. intros x. rewrite Hx. set_solver. }
    case_bool_decide as Hall; simpl; [|done].
    destruct (accept_targets allowed (id :: seen) r) as [l'|e] eqn:E; [|done]. intros [= <-].
    apply IH in E as (Hn & Hx & Ha). split; [|split].
    + constructor; [|done]. rewrite Hx. set_solver.
    + intros x. rewrite !elem_of_cons, Hx. destruct (decide (x = id)); set_solver.
    + intros x [->|Hl]%elem_of_cons; auto.
Qed.

(** The tables behind the management of an adapter's grants. A replacement is
    one transaction: it happens or not, and its reply may be lost. *)
Class GrantTables {W} (s : AdapterAccessService W) (v : W -> AccessView) (g : AdapterGrantStore W) : Prop := {
  grants_wired : aas_adapterGrants s = Some g;
  frame_adapter id : preserves v (GetAdapterByID (aas_adapterStore s) id);
  frame_tenant t e n c : preserves v (WorkspaceStore.ListByTenant (aas_workspaceStore s) t e n c);
  frame_list a : preserves v (ListAdapterWorkspaceGrants g a);
  frame_usage a l : preserves v (ListWorkspacesUsingAdapter (aas_templateTypeUsages s) a l);
  list_tenant t e n c w page w' :
    WorkspaceStore.ListByTenant (aas_workspaceStore s) t e n c w = (Ok page, w') ->
    forall ws, ws ∈ page.1 -> av_workspaces (v w) !! ws_ID ws = Some ws /\ ws_TenantID ws = t /\ ws_Environment ws = e;
  list_grants a w l w' : ListAdapterWorkspaceGrants g a w = (Ok l, w') ->
    forall x, x ∈ l <-> (a, x) ∈ av_adapterGrants (v w);
  list_usage a l w r w' : ListWorkspacesUsingAdapter (aas_templateTypeUsages s) a l w = (Ok r, w') ->
    forall x, x ∈ r <-> x ∈ l /\ (a, x) ∈ av_using (v w);
  replace_tables a l w r w' : ReplaceAdapterWorkspaceGrants g a l w = (r, w') ->
    (is_ok r = false /\ v w' = v w) \/
    v w' = with_grants (regrant a l (av_adapterGrants (v w))) (v w);
}.
#[export] Hint Resolve frame_adapter frame_tenant frame_list frame_usage : senda.

Section Grants.
Context `{GoStd} {W : Type} (s : AdapterAccessService W) (v : W -> AccessView) (g : AdapterGrantStore W).
Context `{!GrantTables s v g}.

(** What a replacement for [targets] leaves. *)
Definition replaced (adapterID : uuid) (targets : list uuid) (before : AccessView) (r : Res unit)
    (after : AccessView) : Prop :=
  (is_ok r = false /\ after = before) \/
  (after = with_grants (regrant adapterID targets (av_adapterGrants before)) before /\
   forall x, (adapterID, x) ∈ av_adapterGrants before -> (adapterID, x) ∈ av_using before -> x ∈ targets).

Lemma replace_grants_replaced adapterID targets w r w' :
  replace_grants (ListAdapterWorkspaceGrants g adapterID)
    (ListWorkspacesUsingAdapter (aas_templateTypeUsages s) adapterID)
    (ReplaceAdapterWorkspaceGrants g adapterID) targets w = (r, w') ->
  replaced adapterID targets (v w) r (v w').
Proof.
  unfold replace_grants, bind. pose proof (frame_list adapterID w) as F1.
  destruct (ListAdapterWorkspaceGrants g adapterID w) as [[current|e] w1] eqn:E1; simpl in F1;
    [|intros [= <- <-]; by left].
  pose proof (list_grants _ _ _ _ E1) as Hcur.
  assert (Hsub : forall x, x ∈ subtractUUIDs current targets <-> (adapterID, x) ∈ av_adapterGrants (v w) /\ x ∉ targets).
  { intros x. unfold subtractUUIDs. rewrite <- Hcur, list_elem_of_In, filter_In, <- list_elem_of_In.
    by rewrite negb_true_iff, bool_decide_eq_false. }
  assert (Hdo : forall w2, v w2 = v w ->
            (forall x, (adapterID, x) ∈ av_adapterGrants (v w) -> (adapterID, x) ∈ av_using (v w) -> x ∈ targets) ->
            ReplaceAdapterWorkspaceGrants g adapterID targets w2 = (r, w') -> replaced adapterID targets (v w) r (v w')).
  { intros w2 Hv Hkeep [[Hr Hv']|Hv']%replace_tables; [left; split; [done|congruence]|].
    right. rewrite <- Hv. split; [done|]. by rewrite Hv. }
  destruct (subtractUUIDs current targets) as [|x0 l] eqn:Es.
  - apply Hdo; [done|]. intros x Hg _. destruct (decide (x ∈ targets)) as [|Hn]; [done|].
    exfalso. apply (not_elem_of_nil x), Hsub. done.
  - pose proof (frame_usage adapterID (x0 :: l) w1) as F2.
    destruct (ListWorkspacesUsingAdapter _ _ _ w1) as [[used|e] w2] eqn:E2; simpl in F2;
      [|intros [= <- <-]; left; split; [done|congruence] ].
    destruct used as [|u us]; [|intros [= <- <-]; left; split; [done|congruence] ].
    apply Hdo; [congruence|]. intros x Hg Hu. destruct (decide (x ∈ targets)) as [|Hn]; [done|].
    exfalso. apply (not_elem_of_nil x). apply (list_usage _ _ _ _ _ E2). split; [by apply Hsub|by rewrite F1].
Qed.

Lemma gmail_adapter_frame sys adapterID : preserves v (gmail_adapter s sys adapterID).
Proof. unfold gmail_adapter, shareable_adapter. preserves_tac. Qed.

Lemma gmail_adapter_Ok sys adapterID w ws w' :
  gmail_adapter s sys adapterID w = (Ok ws, w') -> sys = Some ws /\ ws_IsSystem ws = true.
Proof.
  unfold gmail_adapter, shareable_adapter, bind. destruct sys as [x|]; [|done].
  destruct (ws_IsSystem x) eqn:Es; simpl; [|done]. repeat case_match; try done. by intros [= -> _].
Qed.

Lemma valid_targets_frame t e l : preserves v (validWorkspaceTargets s t e l).
Proof. unfold validWorkspaceTargets. preserves_tac. Qed.

(** The accepted targets: the requested workspaces, once each, all of them
    ordinary workspaces of the tenant and environment. *)
Definition ordinary_targets (t : uuid) (e : Environment) (requested targets : list uuid) (before : AccessView) : Prop :=
  NoDup targets /\ (forall x, x ∈ targets <-> x ∈ requested) /\
  forall x, x ∈ targets -> exists ws, av_workspaces before !! x = Some ws /\
    ws_TenantID ws = t /\ ws_Environment ws = e /\ ws_IsSystem ws = false.

Lemma valid_targets_Ok t e requested w targets w' :
  validWorkspaceTargets s t e requested w = (Ok targets, w') -> ordinary_targets t e requested targets (v w).
Proof.
  unfold validWorkspaceTargets, bind, lift_res. destruct requested as [|x0 l].
  { intros [= <- _]. split; [constructor|]. split; [done|]. set_solver. }
  destruct (WorkspaceStore.ListByTenant _ _ _ _ _ w) as [[page|err] w1] eqn:E; [|done].
  intros Heq. assert (Hacc : accept_targets (ws_ID <$> non_system page.1) [] (x0 :: l) = Ok targets) by congruence.
  apply accept_targets_Ok in Hacc as (Hn & Hx & Ha). split; [done|]. split; [intros x; rewrite Hx; set_solver|].
  intros x (ws & -> & Hws)%Ha%list_elem_of_fmap. unfold non_system in Hws.
  apply list_elem_of_In, filter_In in Hws as [Hin Hsys]. apply list_elem_of_In in Hin.
  destruct (list_tenant _ _ _ _ _ _ _ E ws Hin) as (Hrow & Ht & He). exists ws. by bools.
Qed.
End Grants.

(** the replacement of an adapter's grants is safe: whatever fails, either
    the tables are as before, or the new grants are exactly the requested
    workspaces - each an ordinary workspace of the system workspace's tenant and
    environment - and no workspace whose template types use the adapter has lost
    it. A reported success means the second. *)
Theorem ReplaceAdapterWorkspaceAccess_safe `{GoStd} {W} (s : AdapterAccessService W) v g `{!GrantTables s v g}
    systemWorkspace adapterID requested w r w' :
  ReplaceAdapterWorkspaceAccess s systemWorkspace adapterID requested w = (r, w') ->
  (is_ok r = false /\ v w' = v w) \/
  exists ws targets, systemWorkspace = Some ws /\ ws_IsSystem ws = true /\
    ordinary_targets (ws_TenantID ws) (workspaceEnvironment ws) requested targets (v w) /\
    v w' = with_grants (regrant adapterID targets (av_adapterGrants (v w))) (v w) /\
    forall x, (adapterID, x) ∈ av_adapterGrants (v w) -> (adapterID, x) ∈ av_using (v w) -> x ∈ targets.
Proof.
  unfold ReplaceAdapterWorkspaceAccess, bind. rewrite (grants_wired (v := v)).
  pose proof (gmail_adapter_frame s v g systemWorkspace adapterID w) as F1.
  destruct (gmail_adapter s systemWorkspace adapterID w) as [[ws|e] w1] eqn:E1; simpl in F1;
    [|intros [= <- <-]; by left].
  apply gmail_adapter_Ok in E1 as [-> Hs].
  pose proof (valid_targets_frame s v g (ws_TenantID ws) (workspaceEnvironment ws) requested w1) as F2.
  destruct (validWorkspaceTargets _ _ _ _ w1) as [[targets|e] w2] eqn:E2; simpl in F2;
    [|intros [= <- <-]; left; split; [done|congruence] ].
  apply (valid_targets_Ok s v g) in E2. rewrite F1 in E2.
  intros [[Hr Hv]|[Hv Hkeep] ]%(replace_grants_replaced s v g); [left; split; [done|congruence]|].
  right. exists ws, targets. rewrite F2, F1 in Hv, Hkeep. auto.
Qed.

(** ** Witnesses *)

(** Stores over lists of rows. *)
Record AccessRows := mkAccessRows {
  ar_adapters : list Adapter;
  ar_identities : list AdapterIdentity;
  ar_workspaces : list Workspace;
  ar_adapterGrants : gset (uuid * uuid);
  ar_identityGrants : gset (uuid * uuid);
  ar_using : gset (uuid * uuid);
}.

Definition keyed {A} (f : A -> uuid) (l : list A) : gmap uuid A := list_to_map ((fun a => (f a, a)) <$> l).

Lemma keyed_lookup {A} (f : A -> uuid) l id a : keyed f l !! id = Some a -> f a = id /\ a ∈ l.
Proof.
  unfold keyed. intros E%elem_of_list_to_map_2. apply list_elem_of_fmap in E as (b & [= -> ->] & Hb). done.
Qed.

Definition rows_view (r : AccessRows) : AccessView :=
  mkAccessView (keyed ad_ID (ar_adapters r)) (keyed id_ID (ar_identities r)) (keyed ws_ID (ar_workspaces r))
    (ar_adapterGrants r) (ar_identityGrants r) (ar_using r).

Definition select_row {A} (o : option A) : Res A :=
  match o with Some a => Ok a | None => Err (EApp 404 "not found") end.

Definition rows_grants : AdapterGrantStore AccessRows := {|
  ListAdapterWorkspaceGrants a r :=
    (Ok (snd <$> List.filter (fun p => bool_decide (p.1 = a)) (elements (ar_adapterGrants r))), r);
  ReplaceAdapterWorkspaceGrants a l r :=
    (Ok tt, mkAccessRows (ar_adapters r) (ar_identities r) (ar_workspaces r)
              (regrant a l (ar_adapterGrants r)) (ar_identityGrants r) (ar_using r));
  HasAdapterWorkspaceGrant a x r := (Ok (bool_decide ((a, x) ∈ ar_adapterGrants r)), r);
  ListVisibleAdaptersForWorkspace _ _ r := (Err (EMsg "not used"), r);
|}.

Definition rows_service : AdapterAccessService AccessRows := {|
  aas_adapterStore := {| GetAdapterByID id r := (select_row (av_adapters (rows_view r) !! id), r);
                         ListAdaptersByWorkspace _ _ r := (Err (EMsg "not used"), r) |};
  aas_identityStore := {| GetIdentityByID id r := (select_row (av_identities (rows_view r) !! id), r);
                          GetDefaultIdentity _ r := (Err (EMsg "not used"), r);
                          ListIdentitiesByAdapter _ r := (Err (EMsg "not used"), r) |};
  aas_workspaceStore := {|
    WorkspaceStore.GetByID id r := (select_row (av_workspaces (rows_view r) !! id), r);
    WorkspaceStore.GetByTenantAndCode _ _ _ r := (Err (EMsg "not used"), r);
    WorkspaceStore.GetSystemWorkspace _ _ r := (Err (EMsg "not used"), r);
    WorkspaceStore.ListByTenant t e _ _ r :=
      (Ok (List.filter (fun ws => bool_decide (ws_TenantID ws = t) && bool_decide (ws_Environment ws = e))
              (map_to_list (av_workspaces (rows_view r))).*2, ""), r) |};
  aas_adapterGrants := Some rows_grants;
  aas_identityGrants := Some {|
    ListIdentityWorkspaceGrants _ r := (Err (EMsg "not used"), r);
    ReplaceIdentityWorkspaceGrants _ _ r := (Err (EMsg "not used"), r);
    HasIdentityWorkspaceGrant i x r := (Ok (bool_decide ((i, x) ∈ ar_identityGrants r)), r);
    ListGrantedIdentitiesForWorkspace _ _ r := (Err (EMsg "not used"), r) |};
  aas_templateTypeUsages := {|
    ListWorkspacesUsingAdapter a l r := (Ok (List.filter (fun x => bool_decide ((a, x) ∈ ar_using r)) l), r);
    ListWorkspacesUsingSenderIdentity _ _ r := (Err (EMsg "not used"), r) |};
|}.

#[local] Instance rows_reads : AccessReads rows_service rows_view.
Proof.
  split; simpl.
  - intros id w a w' [= E <-]. destruct (keyed ad_ID _ !! id) eqn:Ek; simplify_eq/=.
    by apply keyed_lookup in Ek as [? _].
  - intros id w i w' [= E <-]. destruct (keyed id_ID _ !! id) eqn:Ek; simplify_eq/=.
    by apply keyed_lookup in Ek as [? _].
  - intros id w ws w' [= E <-]. by destruct (keyed ws_ID _ !! id) eqn:Ek; simplify_eq/=.
  - by intros g a x w b w' [= <-] [= <- <-].
  - by intros g a x w b w' [= <-] [= <- <-].
Qed.

#[local] Instance rows_answers : AccessAnswers rows_service rows_view.
Proof.
  split; simpl; [intros id w a -> .. | |]; [done..| |]; intros; by eexists.
Qed.

#[local] Instance rows_grant_tables : GrantTables rows_service rows_view rows_grants.
Proof.
  split; simpl; try (by intros).
  - intros t e n c w page w' [= <- <-] ws. simpl. rewrite list_elem_of_In, filter_In, <- list_elem_of_In.
    intros [([i x] & -> & Hin)%list_elem_of_fmap Hp]. apply elem_of_map_to_list in Hin. simpl in *.
    pose proof Hin as [Hk _]%keyed_lookup. bools. by subst.
  - intros a w l w' [= <- <-] x. rewrite list_elem_of_fmap. split.
    + intros ([a' x'] & -> & Hin). apply list_elem_of_In, filter_In in Hin as [Hin Hp].
      apply list_elem_of_In in Hin. rewrite elem_of_elements in Hin. bools. simpl in *. by subst.
    + intros Hin. exists (a, x). split; [done|]. apply list_elem_of_In, filter_In.
      split; [by apply list_elem_of_In, elem_of_elements|by apply bool_decide_eq_true_2].
  - intros a l w r w' [= <- <-] x. rewrite list_elem_of_In, filter_In, <- list_elem_of_In.
    by rewrite bool_decide_eq_true.
  - intros a l w r w' [= <- <-]. by right.
Qed.

Definition sample_adapter_row (id : uuid) (owner : option uuid) (type : AdapterType) : Adapter :=
  {| ad_ID := id; ad_WorkspaceID := owner; ad_Name := "mail"; ad_AdapterType := type; ad_ConfigEncrypted := "";
     ad_IsDefault := false; ad_RateLimitPerSecond := 10; ad_ConfigMeta := ∅; ad_CreatedAt := 0; ad_UpdatedAt := 0;
     ad_DeletedAt := None |}.

Definition sample_workspace_of (id : uuid) (system : bool) : Workspace :=
  {| ws_ID := id; ws_LogicalWorkspaceID := id; ws_TenantID := 3; ws_Code := "crm"; ws_Name := "CRM";
     ws_Environment := EnvironmentProd; ws_IsSystem := system; ws_IsActive := true;
     ws_OpenTrackingEnabled := true; ws_DefaultLocale := None; ws_TestRecipientMode := TestRecipientModeReplace;
     ws_TestRecipientAddresses := []; ws_AllowWorkspaceLocalTemplates := true;
     ws_AllowWorkspaceInheritedTemplateForks := true; ws_AllowWorkspaceLocalInjectors := true;
     ws_WorkspacePoliciesInitialized := true; ws_CreatedAt := 0; ws_UpdatedAt := 0; ws_DeletedAt := None |}.

(** The system workspace 8 shares its Gmail adapter 9 with workspace 7. *)
Definition sample_rows : AccessRows :=
  mkAccessRows [sample_adapter_row 9 (Some 8%N) AdapterTypeGmail] []
    [sample_workspace_of 7 false; sample_workspace_of 8 true] {[(9%N, 7%N)]} ∅ ∅.

Lemma ValidateTemplateTypeSelection_exact_witness :
  let G := ascii_std in
  permitted (rows_view sample_rows) (sample_workspace_of 7 false) 9 None /\
  ~ permitted (rows_view sample_rows) (sample_workspace_of 6 false) 9 None.
Proof.
  intros G. split.
  - apply (ValidateTemplateTypeSelection_exact rows_service rows_view (sample_workspace_of 7 false) 9 None sample_rows);
      reflexivity.
  - intros Hp.
    apply (ValidateTemplateTypeSelection_exact rows_service rows_view (sample_workspace_of 6 false) 9 None sample_rows)
      in Hp; [vm_compute in Hp; discriminate Hp|reflexivity|apply _].
Defined.

(** Once workspace 7 uses the adapter, its grant cannot be revoked. *)
Lemma ReplaceAdapterWorkspaceAccess_safe_witness :
  let G := ascii_std in
  let rows := mkAccessRows (ar_adapters sample_rows) [] (ar_workspaces sample_rows) {[(9%N, 7%N)]} ∅ {[(9%N, 7%N)]} in
  let run := ReplaceAdapterWorkspaceAccess rows_service (Some (sample_workspace_of 8 true)) 9 [] rows in
  run.1 = Err (ESent ErrSharedGrantInUse) /\ rows_view run.2 = rows_view rows.
Proof.
  intros G rows run. split; [vm_compute; reflexivity|].
  destruct (ReplaceAdapterWorkspaceAccess_safe rows_service rows_view rows_grants (Some (sample_workspace_of 8 true)) 9
              [] rows run.1 run.2) as [[_ E]|(ws & targets & _ & _ & (_ & Hx & _) & _ & Hu)].
  - subst run. by destruct (ReplaceAdapterWorkspaceAccess _ _ _ _ _).
  - exact E.
  - exfalso. apply (not_elem_of_nil 7%N), Hx, Hu; cbn [rows_view av_adapterGrants av_using ar_adapterGrants ar_using rows]; by apply elem_of_singleton_2.
Defined.
