(* ===== verification/AdapterConfig.v ===== *)
(** * Configuration of an adapter ([http/handler/adapter.go], [adapter/smtp/adapter.go])

    What a configuration must say for each type of adapter, with the rule that
    credentials leave in clear text only for trusted hosts, the merge of a patch
    and the public fields kept beside the encrypted configuration. *)
From stdpp Require Import base gmap strings list.
From Stdlib Require Import ZArith NArith Ascii String Lia.
From S2P Require Import Prelude GoMonad Domain Ports Token Config Http Webhooks.

(** ** SMTP ([adapter/smtp/adapter.go]) *)

Record SMTPConfig := mkSMTPConfig {
  sm_Host : string;
  sm_Port : Z;
  sm_TLSMode : string;
  sm_AuthMode : string;
  sm_Username : string;
  sm_Password : string;
}.
Record CleartextAuthPolicy := mkCleartextPolicy { AllowInsecureInternalRelay : bool; TrustedHosts : list string }.

(** [net.ParseIP], and [net.ParseCIDR] with [Contains]; addresses as in
    [Webhooks.v]. *)
Class NetIP := { ParseIP : string -> option Z; ParseCIDR : string -> option (Z -> bool) }.

Section SMTP.
Context `{GoStd} `{NetIP}.

(** [strings.Trim(s, "[]")]. *)
Definition TrimBrackets (s : string) : string := trim_right ["["; "]"] (trim_left ["["; "]"] s).
Definition normalizeHost (host : string) : string := ToLower (TrimBrackets (TrimSpace host)).

Definition isLoopbackHost (host : string) : bool :=
  let normalized := normalizeHost host in
  bool_decide (normalized = "localhost")
  || match ParseIP normalized with Some ip => IsLoopback ip | None => false end.

(** One of the trusted hosts: the same name, or a network that has the address. *)
Definition trusts (host : string) (hostIP : option Z) (trusted : string) : bool :=
  let normalizedTrusted := normalizeHost trusted in
  if bool_decide (normalizedTrusted = "") then false
  else if bool_decide (host = normalizedTrusted) then true
  else match hostIP, ParseCIDR normalizedTrusted with
       | Some ip, Some contains => contains ip
       | _, _ => false
       end.
Definition isTrustedCleartextAuthHost (host : string) (trustedHosts : list string) : bool :=
  let normalizedHost := normalizeHost host in
  List.existsb (trusts normalizedHost (ParseIP normalizedHost)) trustedHosts.

Definition validateCleartextAuthHost (host : string) (policy : CleartextAuthPolicy) : Res unit :=
  if isLoopbackHost host then Ok tt
  else if negb (AllowInsecureInternalRelay policy) || negb (isTrustedCleartextAuthHost host (TrustedHosts policy))
  then Err (EMsg "smtp cleartext auth is only allowed for loopback or trusted internal relay hosts")
  else match ParseIP (normalizeHost host) with
       | Some ip => if IsPrivate ip then Ok tt else Err (EMsg "smtp cleartext auth host must be private or loopback")
       | None => Err (EMsg "smtp cleartext auth host must be private or loopback")
       end.

Definition TLSModeNone : string := "none".
Definition known_tls_mode (mode : string) : bool := bool_decide (mode ∈ [TLSModeNone; "starttls"; "implicit_tls"]).

Definition ValidateWithPolicy (c : SMTPConfig) (policy : CleartextAuthPolicy) : Res unit :=
  if bool_decide (TrimSpace (sm_Host c) = "") then Err (EMsg "missing SMTP host")
  else if (sm_Port c <=? 0)%Z || (65535 <? sm_Port c)%Z then Err (EMsg "invalid SMTP port")
  else if bool_decide (sm_TLSMode c = "") then Err (EMsg "missing SMTP tls_mode")
  else if negb (known_tls_mode (sm_TLSMode c)) then Err (EMsg ("invalid SMTP tls_mode " +:+ Quote (sm_TLSMode c)))
  else if negb (bool_decide (sm_AuthMode c ∈ [""; "plain"; "login"]))
  then Err (EMsg ("invalid SMTP auth_mode " +:+ Quote (sm_AuthMode c)))
  else if xorb (bool_decide (sm_Username c = "")) (bool_decide (sm_Password c = ""))
  then Err (EMsg "smtp username and password must be provided together")
  else if negb (bool_decide (sm_Username c = "")) && negb (bool_decide (sm_Password c = ""))
          && bool_decide (sm_TLSMode c = TLSModeNone)
  then validateCleartextAuthHost (sm_Host c) policy
  else Ok tt.

(** The hosts credentials may be sent to in clear text. *)
Definition cleartext_host (policy : CleartextAuthPolicy) (host : string) : Prop :=
  normalizeHost host = "localhost" \/
  exists ip, ParseIP (normalizeHost host) = Some ip /\
    (IsLoopback ip = true \/
     AllowInsecureInternalRelay policy = true /\ IsPrivate ip = true /\ isTrustedCleartextAuthHost host (TrustedHosts policy) = true).

Lemma validateCleartextAuthHost_Ok host policy : validateCleartextAuthHost host policy = Ok tt <-> cleartext_host policy host.
Proof.
  unfold validateCleartextAuthHost, isLoopbackHost, cleartext_host. case_bool_decide as Hl; simpl; [by split; [left|]|].
  destruct (ParseIP (normalizeHost host)) as [ip|]; simpl.
  - destruct (IsLoopback ip) eqn:El; simpl; [split; [|done]; intros _; right; eauto|].
    destruct (AllowInsecureInternalRelay policy), (isTrustedCleartextAuthHost _ _), (IsPrivate ip) eqn:Ep; simpl;
      (split; [try done; intros _; right; exists ip; auto|intros [?|(ip' & [= <-] & [?|(?&?&?)])]; congruence]).
  - destruct (_ || _); (split; [done|]); intros [?|(ip' & ? & _)]; done.
Qed.

(** What a valid configuration with credentials says of its host. *)
Lemma ValidateWithPolicy_cleartext c policy : ValidateWithPolicy c policy = Ok tt ->
  sm_Username c <> "" \/ sm_Password c <> "" -> sm_TLSMode c = TLSModeNone -> cleartext_host policy (sm_Host c).
Proof.
  unfold ValidateWithPolicy. intros Hv Hcred Htls. repeat (case_match; try done).
  - by apply validateCleartextAuthHost_Ok.
  - exfalso. repeat case_bool_decide; simpl in *; naive_solver.
Qed.
End SMTP.

(** ** Configurations as maps ([http/handler/adapter.go]) *)

(** [int(v)] of a [float64], rounded towards zero; out of range as on amd64. *)
Definition float_int (bits : Z) : Z :=
  let e := Z.land (Z.shiftr bits 52) 2047 in
  let f := Z.land bits (2 ^ 52 - 1) in
  let m := if (e =? 0)%Z then f else (f + 2 ^ 52)%Z in
  let v := Z.shiftl m ((if (e =? 0)%Z then 1 else e) - 1075) in
  if (e =? 2047)%Z || (2 ^ 63 <=? v)%Z then (- 2 ^ 63)%Z
  else if Z.testbit bits 63 then (- v)%Z else v.

Section Maps.
Context `{GoStd} `{NetIP} `{JSON (option fields_map)} `{JSON SMTPConfig}.

(** [v, _ := m[key].(string)]. *)
Definition str_at (m : fields_map) (key : string) : string := match m !! key with Some (AStr s) => s | _ => "" end.

Definition required_config (m : fields_map) (key : string) : list FieldError :=
  if bool_decide (str_at m key = "") then [mkFieldError ("config." +:+ key) "is required"] else [].
Definition refused_config (m : fields_map) (key : string) : list FieldError :=
  match m !! key with
  | Some _ => [mkFieldError ("config." +:+ key) "is not allowed for SMTP adapters; create a sender identity instead"]
  | None => []
  end.

Definition validateConfig (policy : CleartextAuthPolicy) (adapterType : AdapterType) (config : string) : list FieldError :=
  match Unmarshal (A:=option fields_map) config with
  | Err _ => [mkFieldError "config" "must be a valid JSON object"]
  | Ok cfgMap =>
      let m := default ∅ cfgMap in
      match adapterType with
      | AdapterTypeSES => required_config m "region"
      | AdapterTypeGmail => required_config m "service_account_json" ++ required_config m "delegate_email"
      | AdapterTypeSMTP =>
          refused_config m "from_email" ++ refused_config m "from_name" ++
          match Unmarshal (A:=SMTPConfig) config with
          | Err _ => [mkFieldError "config" "must be a valid SMTP config object"]
          | Ok cfg => match ValidateWithPolicy cfg policy with
                      | Err e => [mkFieldError "config" (error_string e)]
                      | Ok _ => []
                      end
          end
      | AdapterTypeOther _ => []
      end
  end.

(** A field copied when it is a string that is not empty. *)
Definition public_field (m : fields_map) (key : string) (meta : gmap string string) : gmap string string :=
  if bool_decide (str_at m key = "") then meta else <[key := str_at m key]> meta.

(** A nil map and an empty one are stored alike. *)
Definition extractPublicConfigFields (adapterType : AdapterType) (rawConfig : string) : gmap string string :=
  match Unmarshal (A:=option fields_map) rawConfig with
  | Err _ => ∅
  | Ok cfgMap =>
      let m := default ∅ cfgMap in
      match adapterType with
      | AdapterTypeSES => public_field m "region" ∅
      | AdapterTypeGmail => public_field m "delegate_email" ∅
      | AdapterTypeSMTP =>
          let meta := public_field m "auth_mode" (public_field m "tls_mode" (public_field m "host" ∅)) in
          match m !! "port" with
          | Some (AFloat v) => <["port" := Itoa (float_int v)]> meta
          | Some (AStr v) => if bool_decide (v = "") then meta else <["port" := v]> meta
          | _ => meta
          end
      | AdapterTypeOther _ => ∅
      end
  end.

Definition is_empty_str (v : any) : bool := match v with AStr s => bool_decide (s = "") | _ => false end.
Definition auth_keys : list string := ["username"; "password"; "auth_mode"].
Definition without_auth (m : fields_map) : fields_map := List.fold_left (fun m k => delete k m) auth_keys m.

(** An empty username removes the credentials; an empty string leaves a field as
    it is. The order of the patch does not matter. *)
Definition mergeAdapterConfigPatch (adapterType : AdapterType) (cfgMap patch : fields_map) : fields_map :=
  let clears := bool_decide (adapterType = AdapterTypeSMTP)
                && match patch !! "username" with Some (AStr u) => bool_decide (u = "") | _ => false end in
  let '(cfgMap, patch) := if clears then (without_auth cfgMap, without_auth patch) else (cfgMap, patch) in
  filter (fun kv => is_empty_str kv.2 = false) patch ∪ cfgMap.

Definition isValidAdapterType (t : string) : bool := bool_decide (t ∈ ["ses"; "gmail"; "smtp"]).
Definition to_AdapterType (t : string) : AdapterType :=
  if bool_decide (t = "ses") then AdapterTypeSES
  else if bool_decide (t = "gmail") then AdapterTypeGmail
  else if bool_decide (t = "smtp") then AdapterTypeSMTP else AdapterTypeOther t.
Definition identityScopedAdapter (t : AdapterType) : bool :=
  bool_decide (t = AdapterTypeSES) || bool_decide (t = AdapterTypeSMTP).
End Maps.
