(* ===== verification/AdapterHandlers.v ===== *)
(** * Adapter management ([http/handler/adapter.go], [audit_support.go])

    The handlers of adapters and of the workspaces they are shared with, with the
    requests and responses of [request/adapter.go] and [response/adapter.go] and
    the audit records of a change of grants. *)
From stdpp Require Import base gmap strings list sorting.
From Stdlib Require Import ZArith NArith Ascii String Lia.
From S2P Require Import Prelude GoMonad Domain Ports Token Config Http Suppression Postgres Database Directory.
From S2P Require Import Auth Members Surface Inheritance Hosted Templates TemplateHandlers Fleet Provisioning Resolution Access AdapterConfig.

(** ** Requests ([request/adapter.go]) *)

(** The raw JSON of [config] is empty when it is not given. *)
Record CreateAdapterRequest := mkCreateAdapter {
  car_Name : string;
  car_AdapterType : string;
  car_Config : string;
  car_IsDefault : bool;
  car_RateLimitPerSecond : Z;
}.
Record UpdateAdapterRequest := mkUpdateAdapter {
  uar_Name : option string;
  uar_Config : option string;
  uar_IsDefault : option bool;
  uar_RateLimitPerSecond : option Z;
  uar_ConfigurationSetName : option string;
}.
Record TestAdapterRequest := mkTestAdapter { tar_To : string; tar_Subject : string; tar_Body : string; tar_From : string }.
Record UpdateWorkspaceAccessRequest := mkUpdateAccess { uwa_WorkspaceIDs : list string }.
(** The anonymous request of [ValidateSES]. *)
Record ValidateSESRequest := mkValidateSES {
  vsr_Region : string;
  vsr_AccessKeyID : string;
  vsr_SecretAccessKey : string;
  vsr_EndpointURL : string;
}.

(** ** Responses ([response/adapter.go]) *)

Section Responses.
Context `{GoStd}.

#[local] Instance entry_before_dec : RelDecision key_before.
Proof. intros a b. unfold key_before. apply _. Defined.

(** [omitempty] on a map of strings, whose keys are marshalled in order. *)
Definition string_map (name : string) (m : gmap string string) : list (string * any) :=
  if bool_decide (m = ∅) then [] else field name (AMap (merge_sort key_before ((fun kv => (kv.1, AStr kv.2)) <$> map_to_list m))).

(** [NewAdapterResponse] and [NewAdapterResponseForWorkspace] differ in where the
    adapter comes from and what may be done with it. *)
Definition adapter_response (source_scope source : option string) (editable shared : bool) (a : Adapter) : any :=
  AMap (text "id" (uuid_String (ad_ID a)) ++ optional "workspace_id" (uuid_String <$> ad_WorkspaceID a)
        ++ optional "source_scope" source_scope ++ optional "source_workspace_id" source
        ++ text "name" (ad_Name a) ++ text "adapter_type" (AdapterType_String (ad_AdapterType a))
        ++ flag "is_default" (ad_IsDefault a) ++ flag "is_editable" editable ++ flag "is_shared" shared
        ++ field "rate_limit_per_second" (AInt (ad_RateLimitPerSecond a)) ++ string_map "config_meta" (ad_ConfigMeta a)
        ++ text "created_at" (rfc3339 (ad_CreatedAt a)) ++ text "updated_at" (rfc3339 (ad_UpdatedAt a))).
Definition NewAdapterResponse (a : Adapter) : any := adapter_response None None true false a.
Definition NewAdapterResponseForWorkspace (a : Adapter) (workspace : option Workspace) : any :=
  match workspace with
  | None => NewAdapterResponse a
  | Some ws =>
      let source := uuid_String <$> ad_WorkspaceID a in
      if ws_IsSystem ws then adapter_response (Some "system") source true false a
      else match ad_WorkspaceID a with
           | Some owner => if bool_decide (owner = ws_ID ws) then adapter_response (Some "workspace") source true false a
                           else adapter_response (Some "system") source false true a
           | None => adapter_response None source false false a
           end
  end.
Definition adapter_list (item : Adapter -> any) (page : PageResult Adapter) : any :=
  AMap (field "items" (AList (item <$> pr_Items _ page)) ++ filled "next_cursor" (pr_NextCursor _ page)
        ++ flag "has_more" (pr_HasMore _ page)).
Definition NewAdapterListResponse : PageResult Adapter -> any := adapter_list NewAdapterResponse.

Definition access_item (g : WorkspaceAccessGrant) : any :=
  AMap (text "workspace_id" (uuid_String (ws_ID (wag_Workspace g))) ++ text "code" (ws_Code (wag_Workspace g))
        ++ text "name" (ws_Name (wag_Workspace g)) ++ flag "is_granted" (wag_Granted g)).
Definition NewWorkspaceAccessListResponse (grants : list WorkspaceAccessGrant) : any :=
  AMap (field "items" (AList (access_item <$> grants))).
End Responses.

(** ** Auditing ([audit_support.go]) *)

Section AuditSupport.
Context `{GoStd}.

Definition string_before (a b : string) : Prop := String.leb a b = true.
#[local] Instance string_before_dec : RelDecision string_before.
Proof. intros a b. unfold string_before. apply _. Defined.

Definition grantedWorkspaceIDStrings (grants : list WorkspaceAccessGrant) : list string :=
  merge_sort string_before ((fun g => uuid_String (ws_ID (wag_Workspace g))) <$> List.filter wag_Granted grants).
Definition strings (l : list string) : any := AList (AStr <$> l).
Definition without (l drop : list string) : list string := List.filter (fun id => negb (bool_decide (id ∈ drop))) l.

Definition newWorkspaceAccessAuditChanges (before after : list WorkspaceAccessGrant) : fields_map :=
  let beforeIDs := grantedWorkspaceIDStrings before in
  let afterIDs := grantedWorkspaceIDStrings after in
  {["before_workspace_ids" := strings beforeIDs; "after_workspace_ids" := strings afterIDs;
    "granted_workspace_ids" := strings (without afterIDs beforeIDs);
    "revoked_workspace_ids" := strings (without beforeIDs afterIDs)]}.

Definition newAuditEntry (id : uuid) (entityType : string) (entityID tenantID workspaceID : uuid) (changes metadata : fields_map)
  : AuditLog :=
  mkAuditLog id uuid_Nil "" "update" entityType entityID (Some tenantID) (Some workspaceID) ScopeWorkspace changes metadata time_zero.

Definition with_actor (m : Member) (e : AuditLog) : AuditLog :=
  mkAuditLog (al_ID e) (mem_ID m) (mem_Email m) (al_Action e) (al_EntityType e) (al_EntityID e) (al_TenantID e)
    (al_WorkspaceID e) (al_ScopeType e) (al_Changes e) (al_Metadata e) (al_CreatedAt e).

(** The error of the insert is dropped. *)
Definition appendAuditLog (store : option (AuditLog -> M Flt unit)) (entry : AuditLog) : HandlerFunc Flt :=
  match store with
  | None => ret tt
  | Some append =>
      let! v := values in
      match v_member v with
      | None => ret tt
      | Some m => ignore (up (append (with_actor m entry)))
      end
  end.

(** The entry of a change of grants is numbered before its actor is looked up. *)
Definition audit_grants (store : option (AuditLog -> M Flt unit)) (entityType : string) (entityID : uuid) (ws : Workspace)
    (before after : list WorkspaceAccessGrant) (metadata : fields_map) : HandlerFunc Flt :=
  let! id := up (NewV7 db_runtime) in
  appendAuditLog store
    (newAuditEntry id entityType entityID (ws_TenantID ws) (ws_ID ws) (newWorkspaceAccessAuditChanges before after) metadata).
End AuditSupport.

(** [SetAdapterAccessService] and [SetAuditStore] are called at start-up; the
    other fields are the constructor's. *)
Record AdapterHandler := mkAdapterHandler {
  ah_tsStore : TenantStore.t Flt;
  ah_wsStore : WorkspaceStore.t Flt;
  ah_accessSvc : option (AdapterAccessService Flt);
  ah_auditStore : option (AuditLog -> M Flt unit);
  ah_Encrypt : string -> M Flt string;
  ah_Decrypt : string -> M Flt string;
  ah_senderFactory : Adapter -> string -> M Flt (OutgoingEmail -> M Flt string);
  ah_ListByAdapter : uuid -> M Flt (list AdapterIdentity);
  ah_deprovisioner : option (uuid -> M Flt unit);
  ah_smtpPolicy : CleartextAuthPolicy;
  (** [ses.ValidateCredentials], calls of the SDK *)
  ah_ValidateCredentials : SESConfig -> M Flt any;
}.

Section Handlers.
Context `{GoStd} `{Codec} `{Parsers} `{NetIP} `{JSON (option fields_map)} `{JSON SMTPConfig}.
Context `{Binder CreateAdapterRequest} `{Binder UpdateAdapterRequest} `{Binder TestAdapterRequest}.
Context `{Binder UpdateWorkspaceAccessRequest} `{Binder ValidateSESRequest}.
Context (h : AdapterHandler).
#[local] Abbreviation Handler := (HandlerFunc Flt).
#[local] Abbreviation store_by_workspace := Adapters_ListByWorkspace.

Definition internal_error : Handler := WriteError 500 "INTERNAL_ERROR" "internal server error".
Definition resource_not_found : Handler := WriteError 404 "NOT_FOUND" "resource not found".

Definition on_workspace (k : Workspace -> Handler) : Handler := stored (resolveWorkspace (ah_tsStore h) (ah_wsStore h)) k.
Definition adapter_id (k : uuid -> Handler) : Handler := path_id "id" "invalid adapter ID" k.

Definition sameScope (a b : option uuid) : bool := bool_decide (a = b).

Definition mapAdapterAccessHandlerError (e : error) : Handler :=
  if errors_Is e ErrSharedResourceReadOnly then WriteError 403 "FORBIDDEN" "shared resource is read-only"
  else if errors_Is e ErrSharedGrantInUse then WriteError 409 "CONFLICT" "shared grant is in use"
  else if errors_Is e ErrAdapterAccessDenied then resource_not_found
  else if errors_Is e ErrForbidden then WriteError 403 "FORBIDDEN" (error_string e)
  else mapStoreError e.
Definition accessed {A} (m : M Flt A) (k : A -> Handler) : Handler :=
  try! r := up m in match r with Ok a => k a | Err e => mapAdapterAccessHandlerError e end.

Definition loadAdapter (workspace : option Workspace) (adapterID : uuid) (requireEditable : bool) : M Flt Adapter :=
  let! adapter := AdapterRepo_GetByID adapterID in
  match workspace, ah_accessSvc h with
  | None, _ => if sameScope (ad_WorkspaceID adapter) None then ret adapter else fail (ESent ErrNotFound)
  | Some ws, None => if sameScope (ad_WorkspaceID adapter) (Some (ws_ID ws)) then ret adapter else fail (ESent ErrNotFound)
  | Some ws, Some svc =>
      let! access := GetAdapterAccess svc (Some ws) adapterID in
      if requireEditable && negb (acc_Editable access) then fail (ESent ErrSharedResourceReadOnly)
      else ret (acc_Adapter access)
  end.
Definition loadAccessibleAdapter (workspace : option Workspace) (adapterID : uuid) : M Flt Adapter := loadAdapter workspace adapterID false.
Definition loadEditableAdapter (workspace : option Workspace) (adapterID : uuid) : M Flt Adapter := loadAdapter workspace adapterID true.

(** *** Creation *)

Definition create_errors (req : CreateAdapterRequest) : list FieldError :=
  let errors := required "name" (car_Name req)
    ++ (if negb (isValidAdapterType (car_AdapterType req)) then [mkFieldError "adapter_type" "must be one of: ses, gmail, smtp"] else [])
    ++ required "config" (car_Config req) in
  if bool_decide (errors = []) then validateConfig (ah_smtpPolicy h) (to_AdapterType (car_AdapterType req)) (car_Config req) else errors.

Definition AdapterHandler_create (workspaceID : option uuid) : Handler :=
  bound (fun req : CreateAdapterRequest =>
    let errors := create_errors req in
    if negb (bool_decide (errors = [])) then validation_failed errors
    else
      try! encrypted := up (ah_Encrypt h (car_Config req)) in
      match encrypted with
      | Err _ => internal_error
      | Ok encrypted =>
          let! now := up (Now db_runtime) in
          let! id := up (NewV7 db_runtime) in
          let kind := to_AdapterType (car_AdapterType req) in
          stored (up (AdapterRepo_Create (mkAdapter id workspaceID (car_Name req) kind encrypted (car_IsDefault req)
                        (car_RateLimitPerSecond req) (extractPublicConfigFields kind (car_Config req)) now now None)))
            (fun adapter => JSON_reply 201 (NewAdapterResponse adapter))
      end).
Definition Adapters_Create : Handler := on_workspace (fun ws => AdapterHandler_create (Some (ws_ID ws))).
Definition Adapters_CreateGlobal : Handler := AdapterHandler_create None.

(** *** Reading *)

Definition AdapterHandler_list (workspace : option Workspace) : Handler :=
  let! c := conn in
  let opts := ParseListOptions c in
  stored (up match ah_accessSvc h with
             | Some svc => ListAdaptersForWorkspace svc workspace opts
             | None => store_by_workspace (ws_ID <$> workspace) opts
             end) (fun page =>
    JSON_reply 200 match workspace with
                   | None => NewAdapterListResponse page
                   | Some _ => adapter_list (fun a => NewAdapterResponseForWorkspace a workspace) page
                   end).
Definition Adapters_List : Handler := on_workspace (fun ws => AdapterHandler_list (Some ws)).
Definition Adapters_ListGlobal : Handler := AdapterHandler_list None.

Definition AdapterHandler_get (workspace : option Workspace) : Handler := adapter_id (fun adapterID =>
  stored (up (AdapterRepo_GetByID adapterID)) (fun adapter =>
    match workspace, ah_accessSvc h with
    | None, _ => JSON_reply 200 (NewAdapterResponse adapter)
    | Some ws, Some svc =>
        try! access := up (GetAdapterAccess svc (Some ws) adapterID) in
        match access with
        | Ok access => JSON_reply 200 (NewAdapterResponseForWorkspace (acc_Adapter access) workspace)
        | Err e => if errors_Is e ErrAdapterAccessDenied then resource_not_found else mapStoreError e
        end
    | Some ws, None =>
        if negb (sameScope (ad_WorkspaceID adapter) (Some (ws_ID ws))) then resource_not_found
        else JSON_reply 200 (NewAdapterResponseForWorkspace adapter workspace)
    end)).
Definition Adapters_Get : Handler := on_workspace (fun ws => AdapterHandler_get (Some ws)).
Definition Adapters_GetGlobal : Handler := AdapterHandler_get None.

(** *** Update *)

(** The configuration is replaced when the request has a part of it. *)
Definition decryptConfigMap (adapter : Adapter) : M Flt (option fields_map) :=
  let! decrypted := ah_Decrypt h (ad_ConfigEncrypted adapter) in lift_res (Unmarshal decrypted).

(** Assignments to a map: none, or a panic when the map is nil. *)
Definition assign (adds : bool) (m : option fields_map) (f : fields_map -> fields_map) : Res (option fields_map) :=
  match m with Some m => Ok (Some (f m)) | None => if adds then Err nil_map_write else Ok None end.

Definition patched_config (adapter : Adapter) (req : UpdateAdapterRequest) (cfgMap : option fields_map) : Res (option fields_map) :=
  match match uar_Config req with
        | None => Ok cfgMap
        | Some raw =>
            match Unmarshal (A:=option fields_map) raw with
            | Err e => Err e
            | Ok patch =>
                let patch := default ∅ patch in
                assign (negb (bool_decide (mergeAdapterConfigPatch (ad_AdapterType adapter) ∅ patch = ∅))) cfgMap
                  (fun m => mergeAdapterConfigPatch (ad_AdapterType adapter) m patch)
            end
        end with
  | Err e => Err e
  | Ok cfgMap => match uar_ConfigurationSetName req with
                 | None => Ok cfgMap
                 | Some name => assign true cfgMap <["configuration_set_name" := AStr name]>
                 end
  end.

Definition with_config (encrypted : string) (meta : gmap string string) (a : Adapter) : Adapter :=
  mkAdapter (ad_ID a) (ad_WorkspaceID a) (ad_Name a) (ad_AdapterType a) encrypted (ad_IsDefault a) (ad_RateLimitPerSecond a)
    meta (ad_CreatedAt a) (ad_UpdatedAt a) (ad_DeletedAt a).
Definition with_fields (req : UpdateAdapterRequest) (now : gotime) (a : Adapter) : Adapter :=
  mkAdapter (ad_ID a) (ad_WorkspaceID a) (default (ad_Name a) (uar_Name req)) (ad_AdapterType a) (ad_ConfigEncrypted a)
    (default (ad_IsDefault a) (uar_IsDefault req)) (default (ad_RateLimitPerSecond a) (uar_RateLimitPerSecond req))
    (ad_ConfigMeta a) (ad_CreatedAt a) now (ad_DeletedAt a).

(** The new configuration of an adapter, validated and encrypted. *)
Definition reconfigured (adapter : Adapter) (req : UpdateAdapterRequest) (k : Adapter -> Handler) : Handler :=
  match uar_Config req, uar_ConfigurationSetName req with
  | None, None => k adapter
  | _, _ =>
      try! updated := up (let! cfgMap := decryptConfigMap adapter in
                          let! cfgMap := lift_res (patched_config adapter req cfgMap) in
                          lift_res (Marshal cfgMap)) in
      match updated with
      | Err _ => internal_error
      | Ok updated =>
          let errors := validateConfig (ah_smtpPolicy h) (ad_AdapterType adapter) updated in
          if negb (bool_decide (errors = [])) then validation_failed errors
          else
            try! encrypted := up (ah_Encrypt h updated) in
            match encrypted with
            | Err _ => internal_error
            | Ok encrypted => k (with_config encrypted (extractPublicConfigFields (ad_AdapterType adapter) updated) adapter)
            end
      end
  end.

Definition AdapterHandler_update (workspace : option Workspace) : Handler := adapter_id (fun adapterID =>
  accessed (loadEditableAdapter workspace adapterID) (fun adapter =>
    bound (fun req : UpdateAdapterRequest =>
      if bool_decide (uar_Name req = Some "") then validation_failed [mkFieldError "name" "cannot be empty"]
      else reconfigured adapter req (fun adapter =>
        let! now := up (Now db_runtime) in
        stored (up (AdapterRepo_Update (with_fields req now adapter))) (fun adapter =>
          JSON_reply 200 (NewAdapterResponseForWorkspace adapter workspace)))))).
Definition Adapters_Update : Handler := on_workspace (fun ws => AdapterHandler_update (Some ws)).
Definition Adapters_UpdateGlobal : Handler := AdapterHandler_update None.

(** *** Deletion *)

(** A panic of the deprovisioner is recovered as an error; errors are logged. *)
Definition AdapterHandler_softDelete (workspace : option Workspace) : Handler := adapter_id (fun adapterID =>
  accessed (loadEditableAdapter workspace adapterID) (fun adapter =>
    (match ah_deprovisioner h with
     | Some deprovision => if bool_decide (ad_AdapterType adapter = AdapterTypeSES) then ignore (up (deprovision adapterID)) else ret tt
     | None => ret tt
     end) ;;;
    stored (up (AdapterRepo_SoftDelete adapterID)) (fun _ => NoContent 204))).
Definition Adapters_SoftDelete : Handler := on_workspace (fun ws => AdapterHandler_softDelete (Some ws)).
Definition Adapters_SoftDeleteGlobal : Handler := AdapterHandler_softDelete None.
(** *** Credentials and test sends *)

(** The timeouts of both are left out. *)
Definition Adapters_ValidateSES : Handler :=
  bound (fun req : ValidateSESRequest =>
    if bool_decide (vsr_Region req = "") then WriteError 422 "VALIDATION_ERROR" "region is required"
    else
      try! result := up (ah_ValidateCredentials h (mkSESConfig (vsr_Region req) (vsr_AccessKeyID req) (vsr_SecretAccessKey req)
                                                     (vsr_EndpointURL req) "")) in
      match result with
      | Err e => WriteError 422 "VALIDATION_FAILED" ("credential validation failed: " +:+ error_string e)
      | Ok result => JSON_reply 200 result
      end).

Definition delegate_email (decryptedConfig : string) : option string :=
  match Unmarshal (A:=option fields_map) decryptedConfig with
  | Ok m => Some (str_at (default ∅ m) "delegate_email")
  | Err _ => None
  end.

Definition resolveDefaultFromAddress (workspace : option Workspace) (adapter : Adapter) (decryptedConfig : string)
  : M Flt EmailAddress :=
  let fallback := ResolveFromAddress IdentityRepo_GetDefault adapter (delegate_email decryptedConfig) in
  match workspace, ah_accessSvc h with
  | Some ws, Some svc =>
      if identityScopedAdapter (ad_AdapterType adapter) then
        let! access := GetAdapterAccess svc (Some ws) (ad_ID adapter) in
        if acc_Shared access then
          let! identities := ListIdentitiesForWorkspace svc (Some ws) (ad_ID adapter) in
          ret match List.find (fun i => id_IsDefault i && bool_decide (id_IdentityType i = IdentityTypeEmail)) identities with
              | Some identity => IdentityToEmailAddress identity
              | None => mkEmailAddress "" ""
              end
        else fallback
      else fallback
  | _, _ => fallback
  end.

Definition test_errors (req : TestAdapterRequest) : list FieldError :=
  required "to" (tar_To req) ++ required "subject" (tar_Subject req) ++ required "body" (tar_Body req).

Definition test_email (from : EmailAddress) (req : TestAdapterRequest) : OutgoingEmail :=
  mkOutgoingEmail from (mkEmailAddress "" (tar_To req)) [] [] None (tar_Subject req) (tar_Body req) (tar_Body req) ∅ "".

(** The address a test is sent from: the one asked for, when the workspace may use
    it, or the default. *)
Definition test_from (workspace : option Workspace) (adapterID : uuid) (adapter : Adapter) (decrypted : string)
    (req : TestAdapterRequest) (k : EmailAddress -> Handler) : Handler :=
  if negb (bool_decide (tar_From req = "")) then
    try! identities := up match workspace, ah_accessSvc h with
                          | Some ws, Some svc => ListIdentitiesForWorkspace svc (Some ws) adapterID
                          | _, _ => ah_ListByAdapter h (ad_ID adapter)
                          end in
    match identities with
    | Err _ => internal_error
    | Ok identities =>
        match List.find (fun i => bool_decide (id_Identity i = tar_From req) && bool_decide (id_IdentityType i = IdentityTypeEmail)) identities with
        | None => WriteError 422 "INVALID_FROM" "from address is not an accessible identity for this adapter"
        | Some matched => k (IdentityToEmailAddress matched)
        end
    end
  else accessed (resolveDefaultFromAddress workspace adapter decrypted) k.

Definition AdapterHandler_testSend (workspace : option Workspace) : Handler := adapter_id (fun adapterID =>
  bound (fun req : TestAdapterRequest =>
    let errors := test_errors req in
    if negb (bool_decide (errors = [])) then validation_failed errors
    else accessed (loadAccessibleAdapter workspace adapterID) (fun adapter =>
      try! decrypted := up (ah_Decrypt h (ad_ConfigEncrypted adapter)) in
      match decrypted with
      | Err _ => WriteError 422 "CONFIG_ERROR" "adapter config is corrupted — please update the adapter with valid credentials"
      | Ok decrypted =>
          try! sender := up (ah_senderFactory h adapter decrypted) in
          match sender with
          | Err e => WriteError 422 "ADAPTER_ERROR" ("failed to create sender: " +:+ error_string e)
          | Ok send => test_from workspace adapterID adapter decrypted req (fun from =>
              if bool_decide (addr_Address from = "")
              then WriteError 422 "NO_DEFAULT_IDENTITY" "no default sender identity and no delegate_email in config"
              else
                try! sent := up (send (test_email from req)) in
                match sent with
                | Err e => WriteError 422 "SEND_FAILED" ("test send failed: " +:+ error_string e)
                | Ok providerMsgID =>
                    JSON_reply 200 (AMap [("from", AStr (addr_Address from)); ("provider_message_id", AStr providerMsgID);
                                          ("status", AStr "sent")])
                end)
          end
      end))).
Definition Adapters_TestConnection : Handler := on_workspace (fun ws => AdapterHandler_testSend (Some ws)).
Definition Adapters_TestConnectionGlobal : Handler := AdapterHandler_testSend None.

(** *** Sharing *)

Definition with_service (k : AdapterAccessService Flt -> Handler) : Handler :=
  match ah_accessSvc h with None => resource_not_found | Some svc => k svc end.

(** The identifiers of a request, up to the first that does not parse. *)
Fixpoint parse_ids (raw : list string) : Res (list uuid) :=
  match raw with
  | [] => Ok []
  | r :: raw => match uuid_Parse r with
                | Err e => Err e
                | Ok id => match parse_ids raw with Ok ids => Ok (id :: ids) | Err e => Err e end
                end
  end.
Definition requested_ids (k : list uuid -> Handler) : Handler :=
  bound (fun req : UpdateWorkspaceAccessRequest =>
    match parse_ids (uwa_WorkspaceIDs req) with
    | Err _ => validation_failed [mkFieldError "workspace_ids" "must contain valid UUIDs"]
    | Ok ids => k ids
    end).

Definition Adapters_GetWorkspaceAccess : Handler := on_workspace (fun ws => with_service (fun svc => adapter_id (fun adapterID =>
  accessed (ListAdapterWorkspaceAccess svc (Some ws) adapterID) (fun grants =>
    JSON_reply 200 (NewWorkspaceAccessListResponse grants))))).

Definition Adapters_UpdateWorkspaceAccess : Handler :=
  on_workspace (fun ws => with_service (fun svc => adapter_id (fun adapterID => requested_ids (fun workspaceIDs =>
    accessed (ListAdapterWorkspaceAccess svc (Some ws) adapterID) (fun before =>
    accessed (ReplaceAdapterWorkspaceAccess svc (Some ws) adapterID workspaceIDs) (fun _ =>
    accessed (ListAdapterWorkspaceAccess svc (Some ws) adapterID) (fun grants =>
      (try! adapter := up (AdapterRepo_GetByID adapterID) in
       match adapter with
       | Err _ => ret tt
       | Ok adapter =>
           audit_grants (ah_auditStore h) "adapter" adapterID ws before grants
             {["adapter_name" := AStr (ad_Name adapter); "adapter_type" := AStr (AdapterType_String (ad_AdapterType adapter))]}
       end) ;;;
      JSON_reply 200 (NewWorkspaceAccessListResponse grants)))))))).
End Handlers.
