(* ===== verification/Identities.v ===== *)
(** * Sender identities and the audit log ([service/identity.go],
      [http/handler/identity.go], [audit.go])

    The identities of an adapter: those its provider verifies and those added by
    hand, with the handlers that manage and share them; and the queries of the
    audit log. *)
From stdpp Require Import base gmap strings list.
From Stdlib Require Import ZArith NArith Ascii String Lia.
From S2P Require Import Prelude GoMonad Domain Ports Token Config Http Suppression Postgres Database Directory.
From S2P Require Import Auth Members Surface Inheritance Hosted Templates TemplateHandlers Fleet Provisioning SNS Access AdapterConfig AdapterHandlers.

(** ** The service *)

(** [port.ProviderIdentity]. *)
Record ProviderIdentity := mkProviderIdentity {
  pi_Identity : string;
  pi_IdentityType : string;
  pi_VerificationStatus : string;
  pi_SendingEnabled : bool;
}.

Definition to_IdentityType (t : string) : IdentityType :=
  if bool_decide (t = "email") then IdentityTypeEmail
  else if bool_decide (t = "domain") then IdentityTypeDomain else IdentityTypeOther t.
Definition to_IdentityStatus (s : string) : IdentityStatus :=
  if bool_decide (s = "verified") then IdentityStatusVerified
  else if bool_decide (s = "pending") then IdentityStatusPending
  else if bool_decide (s = "failed") then IdentityStatusFailed else IdentityStatusOther s.
Definition IdentitySource_String (s : IdentitySource) : string :=
  match s with IdentitySourceProvider => "provider" | IdentitySourceManual => "manual" end.

Definition extractDomain (email : string) : string :=
  match SplitN email "@" 2 with [_; d] => d | _ => "" end.

(** The factory gives no provider for the adapters that cannot list identities. *)
Record IdentityService := mkIdentityService {
  ids_Decrypt : string -> M Flt string;
  ids_providerFactory : Adapter -> string -> M Flt (option (M Flt (list ProviderIdentity)));
}.

Section Service.
Context `{GoStd} `{Codec} (collate : string -> string -> bool) (s : IdentityService).

Definition provider_identity (adapterID : uuid) (now : gotime) (id : uuid) (pi : ProviderIdentity) : AdapterIdentity :=
  mkAdapterIdentity id adapterID (pi_Identity pi) (to_IdentityType (pi_IdentityType pi)) (to_IdentityStatus (pi_VerificationStatus pi))
    (pi_SendingEnabled pi) false None IdentitySourceProvider (Some now) 0 time_zero time_zero.

(** Only the domains are kept. *)
Definition is_domain (pi : ProviderIdentity) : bool := bool_decide (pi_IdentityType pi = "domain").
Fixpoint imported (adapterID : uuid) (now : gotime) (l : list ProviderIdentity) : M Flt (list AdapterIdentity) :=
  match l with
  | [] => ret []
  | pi :: r =>
      if is_domain pi then
        let! id := NewV7 db_runtime in
        let! rest := imported adapterID now r in
        ret (provider_identity adapterID now id pi :: rest)
      else imported adapterID now r
  end.

Definition SyncIdentities (adapterID : uuid) : M Flt (list AdapterIdentity) :=
  let! adapter := AdapterRepo_GetByID adapterID in
  let! decrypted := wrap_err (wrapping "decrypt adapter config") (ids_Decrypt s (ad_ConfigEncrypted adapter)) in
  let! provider := wrap_err (wrapping "create identity provider") (ids_providerFactory s adapter decrypted) in
  match provider with
  | None => fail (EMsg ("adapter type " +:+ AdapterType_String (ad_AdapterType adapter) +:+ " does not support identity listing"))
  | Some provider =>
      let! providerIdentities := wrap_err (wrapping "list provider identities") provider in
      let! now := Now db_runtime in
      let! identities := imported adapterID now providerIdentities in
      wrap_err (wrapping "upsert identities") (UpsertBatch adapterID identities) ;;;
      wrap_err (wrapping "delete stale identities")
        (DeleteStale adapterID (pi_Identity <$> List.filter is_domain providerIdentities)) ;;;
      ListByAdapter collate adapterID
  end.

Definition verified_domain (emailDomain : string) (i : AdapterIdentity) : bool :=
  bool_decide (id_IdentityType i = IdentityTypeDomain) && bool_decide (id_Identity i = emailDomain)
  && bool_decide (id_Status i = IdentityStatusVerified).

Definition manual_identity (id adapterID : uuid) (now : gotime) (email : string) (displayName : option string) : AdapterIdentity :=
  mkAdapterIdentity id adapterID email IdentityTypeEmail IdentityStatusVerified true false displayName IdentitySourceManual None 0 now now.

Definition CreateManual (adapterID : uuid) (email : string) (displayName : option string) : M Flt AdapterIdentity :=
  let emailDomain := extractDomain email in
  if bool_decide (emailDomain = "") then fail (EWrap "" (ESent ErrValidation) ": invalid email address")
  else
    let! adapter := AdapterRepo_GetByID adapterID in
    (if bool_decide (ad_AdapterType adapter = AdapterTypeSMTP) then ret tt
     else
       let! existing := ListByAdapter collate adapterID in
       if List.existsb (verified_domain emailDomain) existing then ret tt
       else fail (EWrap "" (ESent ErrIdentityNotInDomain) (": domain " +:+ emailDomain +:+ " is not verified in this adapter"))) ;;;
    let! now := Now db_runtime in
    let! id := NewV7 db_runtime in
    IdentityRepo_Create (manual_identity id adapterID now email displayName).

Definition DeleteIdentity (identityID : uuid) : M Flt unit :=
  let! identity := IdentityRepo_GetByID identityID in
  if negb (bool_decide (id_Source identity = IdentitySourceManual))
  then fail (EWrap "" (ESent ErrValidation) ": can only delete manual identities")
  else IdentityRepo_Delete identityID.
End Service.

(** ** The handlers of identities *)

Record CreateManualIdentityRequest := mkCreateIdentity { cmi_Identity : string; cmi_DisplayName : option string }.

Section IdentityResponses.
Context `{GoStd}.

Definition NewAdapterIdentityResponse (i : AdapterIdentity) : any :=
  AMap (text "id" (uuid_String (id_ID i)) ++ text "adapter_id" (uuid_String (id_AdapterID i)) ++ text "identity" (id_Identity i)
        ++ text "identity_type" (IdentityType_String (id_IdentityType i)) ++ text "status" (IdentityStatus_String (id_Status i))
        ++ flag "sending_enabled" (id_SendingEnabled i) ++ flag "is_default" (id_IsDefault i)
        ++ optional "display_name" (id_DisplayName i) ++ text "source" (IdentitySource_String (id_Source i))
        ++ optional "last_synced_at" (rfc3339 <$> id_LastSyncedAt i)
        ++ field "granted_workspace_count" (AInt (id_GrantedWorkspaceCount i))
        ++ text "created_at" (rfc3339 (id_CreatedAt i)) ++ text "updated_at" (rfc3339 (id_UpdatedAt i))).
Definition NewAdapterIdentityListResponse (l : list AdapterIdentity) : any := AList (NewAdapterIdentityResponse <$> l).
End IdentityResponses.

(** [SetAdapterAccessService] and [SetAuditStore] are called at start-up. *)
Record IdentityHandler := mkIdentityHandler {
  ih_svc : IdentityService;
  ih_tsStore : TenantStore.t Flt;
  ih_wsStore : WorkspaceStore.t Flt;
  ih_accessSvc : option (AdapterAccessService Flt);
  ih_auditStore : option (AuditLog -> M Flt unit);
}.

Section IdentityHandlers.
Context `{GoStd} `{Codec} `{Parsers} `{Binder CreateManualIdentityRequest} `{Binder UpdateWorkspaceAccessRequest}.
Context (collate : string -> string -> bool) (h : IdentityHandler).
#[local] Abbreviation Handler := (HandlerFunc Flt).

Definition mapIdentityError (e : error) : Handler :=
  if errors_Is e ErrIdentityNotFound then WriteError 404 "NOT_FOUND" (error_string e)
  else if errors_Is e ErrIdentityNotInDomain then WriteError 422 "VALIDATION_ERROR" (error_string e)
  else if errors_Is e ErrNoDefaultIdentity then WriteError 404 "NOT_FOUND" (error_string e)
  else if errors_Is e ErrValidation then WriteError 422 "VALIDATION_ERROR" (error_string e)
  else mapStoreError e.
Definition mapIdentityAccessError (e : error) : Handler :=
  if errors_Is e ErrSharedResourceReadOnly then WriteError 403 "FORBIDDEN" "shared resource is read-only"
  else if errors_Is e ErrSharedGrantInUse then WriteError 409 "CONFLICT" "shared grant is in use"
  else if errors_Is e ErrAdapterAccessDenied || errors_Is e ErrSenderIdentityAccessDenied then resource_not_found
  else mapIdentityError e.
Definition answered {A} (on_error : error -> Handler) (m : M Flt A) (k : A -> Handler) : Handler :=
  try! r := up m in match r with Ok a => k a | Err e => on_error e end.

Definition of_workspace (k : Workspace -> Handler) : Handler := stored (resolveWorkspace (ih_tsStore h) (ih_wsStore h)) k.
Definition identity_id (k : uuid -> Handler) : Handler := path_id "identity_id" "invalid identity ID" k.

Definition ensureEditableAdapter (workspace : option Workspace) (adapterID : uuid) : M Flt unit :=
  match workspace, ih_accessSvc h with
  | Some ws, Some svc =>
      let! access := GetAdapterAccess svc (Some ws) adapterID in
      if negb (acc_Editable access) then fail (ESent ErrSharedResourceReadOnly) else ret tt
  | _, _ => ret tt
  end.
Definition editable_adapter (workspace : option Workspace) (k : uuid -> Handler) : Handler := adapter_id (fun adapterID =>
  answered mapIdentityAccessError (ensureEditableAdapter workspace adapterID) (fun _ => k adapterID)).

Definition Identity_list (workspace : option Workspace) : Handler := adapter_id (fun adapterID =>
  answered mapIdentityAccessError
    match workspace, ih_accessSvc h with
    | Some ws, Some svc => ListIdentitiesForWorkspace svc (Some ws) adapterID
    | _, _ => ListByAdapter collate adapterID
    end (fun identities => JSON_reply 200 (NewAdapterIdentityListResponse identities))).

Definition Identity_sync (workspace : option Workspace) : Handler := editable_adapter workspace (fun adapterID =>
  answered mapIdentityError (SyncIdentities collate (ih_svc h) adapterID) (fun identities =>
    JSON_reply 200 (NewAdapterIdentityListResponse identities))).

Definition Identity_create (workspace : option Workspace) : Handler := editable_adapter workspace (fun adapterID =>
  bound (fun req : CreateManualIdentityRequest =>
    if bool_decide (cmi_Identity req = "") then validation_failed [mkFieldError "identity" "is required"]
    else answered mapIdentityError (CreateManual collate adapterID (cmi_Identity req) (cmi_DisplayName req)) (fun identity =>
      JSON_reply 201 (NewAdapterIdentityResponse identity)))).

Definition Identity_delete (workspace : option Workspace) : Handler := editable_adapter workspace (fun adapterID =>
  identity_id (fun identityID =>
    answered mapIdentityError (IdentityRepo_GetByID identityID) (fun identity =>
      if negb (bool_decide (id_AdapterID identity = adapterID)) then resource_not_found
      else answered mapIdentityError (DeleteIdentity identityID) (fun _ => NoContent 204)))).

Definition Identity_setDefault (workspace : option Workspace) : Handler := editable_adapter workspace (fun adapterID =>
  identity_id (fun identityID =>
    answered mapIdentityError (IdentityRepo_SetDefault adapterID identityID) (fun _ => NoContent 204))).

Definition Identities_List : Handler := of_workspace (fun ws => Identity_list (Some ws)).
Definition Identities_ListGlobal : Handler := Identity_list None.
Definition Identities_Sync : Handler := of_workspace (fun ws => Identity_sync (Some ws)).
Definition Identities_SyncGlobal : Handler := Identity_sync None.
Definition Identities_Create : Handler := of_workspace (fun ws => Identity_create (Some ws)).
Definition Identities_CreateGlobal : Handler := Identity_create None.
Definition Identities_Delete : Handler := of_workspace (fun ws => Identity_delete (Some ws)).
Definition Identities_DeleteGlobal : Handler := Identity_delete None.
Definition Identities_SetDefault : Handler := of_workspace (fun ws => Identity_setDefault (Some ws)).
Definition Identities_SetDefaultGlobal : Handler := Identity_setDefault None.

(** The service, the adapter and the identity of a request about sharing. *)
Definition shared_identity (k : Workspace -> AdapterAccessService Flt -> uuid -> uuid -> Handler) : Handler :=
  of_workspace (fun ws =>
    match ih_accessSvc h with
    | None => resource_not_found
    | Some svc => adapter_id (fun adapterID => identity_id (fun identityID => k ws svc adapterID identityID))
    end).

Definition Identities_GetWorkspaceAccess : Handler := shared_identity (fun ws svc adapterID identityID =>
  answered mapIdentityAccessError (ListIdentityWorkspaceAccess svc (Some ws) adapterID identityID) (fun grants =>
    JSON_reply 200 (NewWorkspaceAccessListResponse grants))).

Definition Identities_UpdateWorkspaceAccess : Handler := shared_identity (fun ws svc adapterID identityID =>
  requested_ids (fun workspaceIDs =>
    answered mapIdentityAccessError (ListIdentityWorkspaceAccess svc (Some ws) adapterID identityID) (fun before =>
    answered mapIdentityAccessError (ReplaceIdentityWorkspaceAccess svc (Some ws) adapterID identityID workspaceIDs) (fun _ =>
    answered mapIdentityAccessError (ListIdentityWorkspaceAccess svc (Some ws) adapterID identityID) (fun grants =>
      (try! identity := up (IdentityRepo_GetByID identityID) in
       match identity with
       | Err _ => ret tt
       | Ok identity =>
           audit_grants (ih_auditStore h) "adapter_identity" identityID ws before grants
             {["adapter_id" := AStr (uuid_String adapterID); "identity" := AStr (id_Identity identity);
               "identity_type" := AStr (IdentityType_String (id_IdentityType identity))]}
       end) ;;;
      JSON_reply 200 (NewWorkspaceAccessListResponse grants)))))).
End IdentityHandlers.

(** ** The audit log *)

Section AuditHandler.
Context `{GoStd} `{Codec} `{Parsers} `{TimeParser}.
Context (tsStore : TenantStore.t Flt) (wsStore : WorkspaceStore.t Flt).
#[local] Abbreviation Handler := (HandlerFunc Flt).

(** [omitempty] on a map. *)
Definition filled_map (name : string) (m : fields_map) : list (string * any) :=
  if bool_decide (m = ∅) then [] else raw_map name (Some m).
Definition NewAuditLogResponse (a : AuditLog) : any :=
  AMap (text "id" (uuid_String (al_ID a)) ++ text "actor_id" (uuid_String (al_ActorID a)) ++ text "actor_email" (al_ActorEmail a)
        ++ text "action" (al_Action a) ++ text "entity_type" (al_EntityType a) ++ text "entity_id" (uuid_String (al_EntityID a))
        ++ optional "tenant_id" (uuid_String <$> al_TenantID a) ++ optional "workspace_id" (uuid_String <$> al_WorkspaceID a)
        ++ text "scope_type" (ScopeType_String (al_ScopeType a)) ++ filled_map "changes" (al_Changes a)
        ++ filled_map "metadata" (al_Metadata a) ++ text "created_at" (rfc3339 (al_CreatedAt a))).
Definition NewAuditLogListResponse (page : PageResult AuditLog) : any :=
  AMap (field "items" (AList (NewAuditLogResponse <$> pr_Items _ page)) ++ filled "next_cursor" (pr_NextCursor _ page)
        ++ flag "has_more" (pr_HasMore _ page)).

(** A parameter that does not parse is ignored. *)
Definition query_text (name : string) (c : Conn) : option string :=
  let s := QueryParam name c in if bool_decide (s = "") then None else Some s.
Definition query_value {A} (parse : string -> Res A) (name : string) (c : Conn) : option A :=
  match query_text name c with
  | Some s => match parse s with Ok a => Some a | Err _ => None end
  | None => None
  end.

Definition parseAuditFilter (c : Conn) : AuditFilter :=
  mkAuditFilter None None (query_value uuid_Parse "actor_id" c) (query_text "action" c) (query_text "entity_type" c)
    (query_value (time_Parse RFC3339) "since" c) (query_value (time_Parse RFC3339) "until" c).
Definition of_scope (ws : Workspace) (f : AuditFilter) : AuditFilter :=
  mkAuditFilter (Some (ws_TenantID ws)) (Some (ws_ID ws)) (af_ActorID f) (af_Action f) (af_EntityType f) (af_Since f) (af_Until f).

Definition audit_page (f : AuditFilter) (c : Conn) : Handler :=
  stored (up (Audit_Query f (ParseListOptions c))) (fun page => JSON_reply 200 (NewAuditLogListResponse page)).
Definition Audit_QueryWorkspace : Handler := stored (resolveWorkspace tsStore wsStore) (fun ws =>
  let! c := conn in audit_page (of_scope ws (parseAuditFilter c)) c).
Definition Audit_QueryGlobal : Handler := let! c := conn in audit_page (parseAuditFilter c) c.
End AuditHandler.
