(* ===== verification/Outbox.v ===== *)
(** * The outbox ([service/send_persistence.go], [postgres/email_repo.go], [river/client.go])

    How an accepted recipient becomes a row, an event and a job: the inserts of
    the email repository, in and out of a transaction, and the writer that does
    the three together. Whatever fails, and wherever, the transactional writer
    writes all of them or none. *)
From stdpp Require Import base gmap strings list.
From Stdlib Require Import ZArith String Lia.
From S2P Require Import Prelude GoMonad Domain Ports Suppression Postgres.

(** ** Transactions

    [pgx.Tx] and the operations the writer runs in one; a transaction's state is
    threaded through them. *)
Record SendTx (W : Type) := mkSendTx {
  Tx : Type;
  Begin : M W Tx;
  CreateTx : Tx -> Email -> M W Tx;
  EnqueueSendTx : Tx -> SendJob -> M W Tx;
  AddEventTx : Tx -> EmailEvent -> M W Tx;
  Rollback : Tx -> M W unit;
  Commit : Tx -> M W unit;
}.
Arguments Tx {W}. Arguments Begin {W}. Arguments CreateTx {W}. Arguments EnqueueSendTx {W}.
Arguments AddEventTx {W}. Arguments Rollback {W}. Arguments Commit {W}.

(** ** [SendPersistenceWriter] *)

(** [spw_pool] is [None] when the process has no pool. *)
Record SendPersistenceWriter (W : Type) := mkSendPersistenceWriter {
  spw_rt : Runtime W;
  spw_Create : Email -> M W unit;
  spw_AddEvent : EmailEvent -> M W unit;
  spw_EnqueueSend : SendJob -> M W unit;
  spw_pool : option (SendTx W);
}.
Arguments spw_rt {W}. Arguments spw_Create {W}. Arguments spw_AddEvent {W}. Arguments spw_EnqueueSend {W}.
Arguments spw_pool {W}.

(** [if err := m; err != nil { _ = tx.Rollback(ctx); return fmt.Errorf(msg, err) }]. *)
Definition or_rollback {W A} (p : SendTx W) (tx : Tx p) (msg : string) (m : M W A) : M W A :=
  try! r := m in
  match r with
  | Ok a => ret a
  | Err e => ignore (Rollback p tx) ;;; fail (wrapping msg e)
  end.

Section Writer.
Context {W : Type} (w : SendPersistenceWriter W).

Definition CreateQueued (email : Email) (trackingID : string) (adapterID : uuid) : M W unit :=
  let sendJob := {| sj_EmailID := em_ID email; sj_TrackingID := trackingID; sj_AdapterID := adapterID;
                    sj_Priority := 0 |} in
  let! now := Now (spw_rt w) in
  let! id := NewV7 (spw_rt w) in
  let queuedEvent := {| ev_ID := id; ev_EmailID := em_ID email; ev_EventType := EventTypeQueued;
                        ev_OccurredAt := now; ev_Metadata := ∅; ev_CreatedAt := now |} in
  match spw_pool w with
  | Some p =>
      let! tx := wrap_err (wrapping "begin tx") (Begin p) in
      let! tx := or_rollback p tx "create email" (CreateTx p tx email) in
      let! tx := or_rollback p tx "enqueue send" (EnqueueSendTx p tx sendJob) in
      let! tx := or_rollback p tx "add queued event" (AddEventTx p tx queuedEvent) in
      wrap_err (wrapping "commit tx") (Commit p tx)
  | None =>
      wrap_err (wrapping "create email") (spw_Create w email) ;;;
      ignore (spw_AddEvent w queuedEvent) ;;;
      wrap_err (wrapping "enqueue send") (spw_EnqueueSend w sendJob)
  end.

Definition CreateSuppressed (email : Email) (now : gotime) (reason : string) : M W unit :=
  let! id := NewV7 (spw_rt w) in
  let suppressionEvent := {| ev_ID := id; ev_EmailID := em_ID email; ev_EventType := EventTypeSuppressed;
                             ev_OccurredAt := now; ev_Metadata := {["reason" := AStr reason]};
                             ev_CreatedAt := now |} in
  match spw_pool w with
  | Some p =>
      let! tx := wrap_err (wrapping "begin tx") (Begin p) in
      let! tx := or_rollback p tx "create suppressed email" (CreateTx p tx email) in
      let! tx := or_rollback p tx "add suppression event" (AddEventTx p tx suppressionEvent) in
      wrap_err (wrapping "commit tx") (Commit p tx)
  | None => spw_Create w email ;;; ignore (spw_AddEvent w suppressionEvent)
  end.
End Writer.

(** ** The inserts of the repositories *)

(** What a transaction has written and nobody else sees yet. *)
Inductive Write := WEmail (e : Email) | WPayload (p : EmailPayload) | WEvent (ev : EmailEvent) | WJob (j : SendJob).

Definition set_payloads f s :=
  mkSys (sys_emails s) (f (sys_payloads s)) (sys_events s) (sys_global s) (sys_workspace s) (sys_subs s)
    (sys_webhooks s) (sys_cache s) (sys_clock s) (sys_ids s) (sys_faults s) (sys_log s).

Definition apply_write (s : Sys) (w : Write) : Sys :=
  match w with
  | WEmail e => set_emails <[em_ID e := e]> s
  | WPayload p => set_payloads <[pl_EmailID p := p]> s
  | WEvent ev => set_events (fun l => l ++ [ev]) s
  | WJob j => set_log (fun l => l ++ [AJobSend j]) s
  end.

Section Repo.
Context `{GoStd}.

(** The columns of [emails]: the body and the snapshots are stored in
    [email_payloads]; the database sets both times. *)
Definition email_row (now : gotime) (e : Email) : Email :=
  {| em_ID := em_ID e; em_TrackingID := em_TrackingID e; em_ExternalID := em_ExternalID e;
     em_WorkspaceID := em_WorkspaceID e; em_TenantID := em_TenantID e;
     em_TemplateID := em_TemplateID e; em_TemplateVersionID := em_TemplateVersionID e;
     em_TemplateTypeSlug := em_TemplateTypeSlug e; em_TemplateRef := em_TemplateRef e;
     em_RecipientEmail := em_RecipientEmail e; em_CC := em_CC e; em_BCC := em_BCC e;
     em_FromEmail := em_FromEmail e; em_FromName := em_FromName e; em_ReplyTo := em_ReplyTo e;
     em_SubjectRendered := em_SubjectRendered e; em_Locale := em_Locale e; em_Status := em_Status e;
     em_AdapterID := em_AdapterID e; em_SenderIdentityID := em_SenderIdentityID e;
     em_ProviderMessageID := em_ProviderMessageID e;
     em_VariablesSnapshot := ∅; em_InjectorsSnapshot := ∅;
     em_SourceType := em_SourceType e; em_SourceActorMemberID := em_SourceActorMemberID e;
     em_SourceActorEmail := em_SourceActorEmail e; em_BodyMJML := "";
     em_RetryCount := em_RetryCount e; em_OpenTrackingEnabled := em_OpenTrackingEnabled e;
     em_MaxRetries := em_MaxRetries e; em_NextRetryAt := em_NextRetryAt e;
     em_CreatedAt := now; em_UpdatedAt := now |}.

Definition payload_row (created now : gotime) (e : Email) : EmailPayload :=
  {| pl_EmailID := em_ID e; pl_EmailCreatedAt := created; pl_BodyMJML := em_BodyMJML e;
     pl_VariablesSnapshot := em_VariablesSnapshot e; pl_InjectorsSnapshot := em_InjectorsSnapshot e;
     pl_CreatedAt := now; pl_UpdatedAt := now |}.

Definition duplicate_key : error := EMsg "duplicate key value violates unique constraint".

(** An id that has a row, in the table or in the transaction, is refused. (The
    key of the partitioned table is the id with the creation time; the ids are
    fresh, and a payload's key is the id alone.) *)
Definition id_taken (s : Sys) (tx : list Write) (id : uuid) : bool :=
  bool_decide (is_Some (sys_emails s !! id)) || bool_decide (is_Some (sys_payloads s !! id)) ||
  existsb (fun w => match w with WEmail e => bool_decide (em_ID e = id) | _ => false end) tx.

(** [createPayload] on the pool. *)
Definition createPayload (created : gotime) (e : Email) : M Sys unit :=
  stmt (wrapping "inserting email payload") (fun s =>
    if bool_decide (is_Some (sys_payloads s !! em_ID e))
    then (Err (wrapping "inserting email payload" duplicate_key), s)
    else (Ok tt, set_payloads <[em_ID e := payload_row created (sys_clock s) e]> s)).

Definition Create (e : Email) : M Sys unit :=
  let! created := stmt (wrapping "inserting email") (fun s =>
    if id_taken s [] (em_ID e) then (Err (wrapping "inserting email" duplicate_key), s)
    else (Ok (sys_clock s), set_emails <[em_ID e := email_row (sys_clock s) e]> s)) in
  createPayload created e.

(** The two inserts of [CreateTx]: the row and its payload. *)
Definition EmailRepo_CreateTx (tx : list Write) (e : Email) : M Sys (list Write) :=
  let! row := stmt (wrapping "inserting email (tx)") (fun s =>
    if id_taken s tx (em_ID e) then (Err (wrapping "inserting email (tx)" duplicate_key), s)
    else (Ok (email_row (sys_clock s) e), s)) in
  stmt (wrapping "inserting email payload") (fun s =>
    (Ok (tx ++ [WEmail row; WPayload (payload_row (em_CreatedAt row) (sys_clock s) e)]), s)).

Definition EmailRepo_AddEventTx (tx : list Write) (event : EmailEvent) : M Sys (list Write) :=
  stmt (wrapping "inserting email event (tx)") (fun s =>
    (Ok (tx ++ [WEvent (event_row (sys_clock s) event)]), s)).

Definition Client_EnqueueSendTx (tx : list Write) (job : SendJob) : M Sys (list Write) :=
  let priority := if (sj_Priority job <? 1)%Z then 2%Z else sj_Priority job in
  stmt (wrapping "river: enqueue send tx") (fun s =>
    (Ok (tx ++ [WJob {| sj_EmailID := sj_EmailID job; sj_TrackingID := sj_TrackingID job;
                        sj_AdapterID := sj_AdapterID job; sj_Priority := priority |}]), s)).

(** PostgreSQL's transactions: the writes become visible together, at commit. *)
Definition pg_pool : SendTx Sys := {|
  Tx := list Write;
  Begin := stmt id (fun s => (Ok [], s));
  CreateTx := EmailRepo_CreateTx;
  EnqueueSendTx := Client_EnqueueSendTx;
  AddEventTx := EmailRepo_AddEventTx;
  Rollback _ := stmt id (fun s => (Ok tt, s));
  Commit tx := stmt id (fun s => (Ok tt, foldl apply_write s tx));
|}.

Definition pg_writer (pool : option (SendTx Sys)) : SendPersistenceWriter Sys := {|
  spw_rt := sys_runtime; spw_Create := Create; spw_AddEvent := AddEvent;
  spw_EnqueueSend := EnqueueSend; spw_pool := pool;
|}.
End Repo.

(** * Theorems *)

(** What sending writes. *)
Record Mailbox := mkMailbox {
  mb_emails : gmap uuid Email;
  mb_payloads : gmap uuid EmailPayload;
  mb_events : list EmailEvent;
  mb_log : list Action;
}.

Definition mailbox (s : Sys) : Mailbox := mkMailbox (sys_emails s) (sys_payloads s) (sys_events s) (sys_log s).

(** What sending reads: the suppression rows and the opt-outs. *)
Definition blocklist (s : Sys) := (sys_global s, sys_workspace s, sys_subs s).

Definition job_of (e : Email) : SendJob :=
  {| sj_EmailID := em_ID e; sj_TrackingID := em_TrackingID e; sj_AdapterID := em_AdapterID e; sj_Priority := 2 |}.

(** One recipient posted: the row of a new email with its payload, its first
    event and, when the email is queued, its job, all at once. *)
Inductive post (P : Email -> Prop) (m m' : Mailbox) : Prop :=
| post_intro e now created paid ev jobs :
    P e -> mb_emails m !! em_ID e = None ->
    m' = mkMailbox (<[em_ID e := email_row now e]> (mb_emails m))
                   (<[em_ID e := payload_row created paid e]> (mb_payloads m))
                   (mb_events m ++ [ev]) (mb_log m ++ jobs) ->
    ev_EmailID ev = em_ID e ->
    (em_Status e = StatusQueued /\ ev_EventType ev = EventTypeQueued /\ jobs = [AJobSend (job_of e)] \/
     em_Status e = StatusSuppressed /\ ev_EventType ev = EventTypeSuppressed /\ jobs = []) ->
    post P m m'.

Section Posting.
Context `{GoStd}.

Lemma stmt_Ok {A} wrap (f : Sys -> Res A * Sys) s a s' :
  stmt wrap f s = (Ok a, s') -> exists fs, f (set_faults (fun _ => fs) s) = (Ok a, s').
Proof.
  intros (fs & [E|[(x & [=] & _)|(x & [=] & _)] ])%stmt_cases. by exists fs.
Qed.

(** A statement that only reads, inside a transaction or not. *)
Lemma stmt_reads {A V} (v : Sys -> V) wrap (f : Sys -> Res A * Sys) :
  (forall fs s, v (set_faults (fun _ => fs) s) = v s) -> (forall s, v (f s).2 = v s) ->
  preserves v (stmt wrap f).
Proof. apply stmt_frame. Qed.

Lemma CreateTx_mailbox tx e : preserves mailbox (EmailRepo_CreateTx tx e).
Proof.
  unfold EmailRepo_CreateTx. apply preserves_bind; [|intros row];
    (apply stmt_reads; [done|intros s; repeat case_match; done]).
Qed.
Lemma CreateTx_blocklist tx e : preserves blocklist (EmailRepo_CreateTx tx e).
Proof.
  unfold EmailRepo_CreateTx. apply preserves_bind; [|intros row];
    (apply stmt_reads; [done|intros s; repeat case_match; done]).
Qed.

Lemma CreateTx_Ok e s tx s' :
  EmailRepo_CreateTx [] e s = (Ok tx, s') ->
  sys_emails s !! em_ID e = None /\
  exists now created paid, tx = [WEmail (email_row now e); WPayload (payload_row created paid e)].
Proof.
  unfold EmailRepo_CreateTx, bind. destruct (stmt _ _ s) as [[row|] s1] eqn:E1; [|done].
  apply stmt_Ok in E1 as (fs & E1). destruct (id_taken _ _ _) eqn:Et; [done|]. simplify_eq.
  intros (fs2 & E2)%stmt_Ok. simplify_eq. unfold id_taken in Et. bools. simpl in *.
  split; [|by do 3 eexists].
  destruct (sys_emails s !! em_ID e) eqn:El; [|done]. exfalso. eauto.
Qed.

(** A step of the transaction: it fails and leaves the mailbox, or the
    transaction goes on. *)
Lemma tx_step {B} tx msg (m : M Sys (list Write)) (k : list Write -> M Sys B) s r s' :
  preserves mailbox m ->
  bind (or_rollback pg_pool tx msg m) k s = (r, s') ->
  (is_ok r = false /\ mailbox s' = mailbox s) \/
  exists tx' s1, m s = (Ok tx', s1) /\ mailbox s1 = mailbox s /\ k tx' s1 = (r, s').
Proof.
  intros Hm. specialize (Hm s). unfold bind, or_rollback, try.
  destruct (m s) as [[tx'|e] s1]; simpl in Hm; [intros Hk; right; by exists tx', s1|].
  unfold bind, ignore. intros [= <- <-]. left. split; [done|]. rewrite <- Hm.
  by apply (stmt_reads mailbox id).
Qed.

Lemma EnqueueSendTx_mailbox tx j : preserves mailbox (Client_EnqueueSendTx tx j).
Proof. apply stmt_reads; [done|by intros]. Qed.
Lemma AddEventTx_mailbox tx ev : preserves mailbox (EmailRepo_AddEventTx tx ev).
Proof. apply stmt_reads; [done|by intros]. Qed.
Lemma begin_step {B} (k : list Write -> M Sys B) s r s' :
  bind (wrap_err (wrapping "begin tx") (Begin pg_pool)) k s = (r, s') ->
  (is_ok r = false /\ mailbox s' = mailbox s) \/
  exists s1, mailbox s1 = mailbox s /\ k [] s1 = (r, s').
Proof.
  unfold bind, wrap_err. pose proof (stmt_reads mailbox id (fun s => (Ok [] : Res (list Write), s))) as F.
  change (Begin pg_pool) with (stmt id (fun s : Sys => (Ok [] : Res (list Write), s))).
  specialize (F (fun _ _ => eq_refl) (fun _ => eq_refl) s).
  destruct (stmt _ _ s) as [[tx|e] s1] eqn:E; simpl in F; [|intros [= <- <-]; by left].
  apply stmt_Ok in E as (fs & [= <- _]). eauto.
Qed.

(** The commit, under any fault: the writes of [tx], or nothing and an error. *)
Lemma Commit_mailbox tx s r s' :
  wrap_err (wrapping "commit tx") (Commit pg_pool tx) s = (r, s') ->
  (is_ok r = false /\ mailbox s' = mailbox s) \/ mailbox s' = mailbox (foldl apply_write s tx).
Proof.
  unfold wrap_err. destruct (Commit pg_pool tx s) as [r0 s0] eqn:E. simpl in E.
  assert (Hf : forall fs, mailbox (foldl apply_write (set_faults (fun _ => fs) s) tx) = mailbox (foldl apply_write s tx)).
  { intros fs. enough (Hg : forall s1 s2, mailbox s1 = mailbox s2 ->
      mailbox (foldl apply_write s1 tx) = mailbox (foldl apply_write s2 tx)) by by apply Hg.
    clear. induction tx as [|w tx IH]; intros s1 s2 Hs; simpl; [done|]. apply IH.
    unfold mailbox in *. destruct w; simpl; congruence. }
  apply stmt_cases in E as (fs & [E|[(x & -> & ->)|(x & -> & ->)] ]); simplify_eq; intros [= <- <-].
  - right. apply Hf.
  - by left.
  - right. apply Hf.
Qed.

(** The outcome of a write: nothing and an error, or one post. *)
Definition posts (P : Email -> Prop) (s : Sys) (r : Res unit) (s' : Sys) : Prop :=
  (is_ok r = false /\ mailbox s' = mailbox s) \/ post P (mailbox s) (mailbox s').

Lemma posts_moved P s0 s r s' : mailbox s = mailbox s0 -> posts P s r s' -> posts P s0 r s'.
Proof. unfold posts. by intros ->. Qed.

Lemma CreateQueued_posts (P : Email -> Prop) e s r s' :
  P e -> em_Status e = StatusQueued ->
  CreateQueued (pg_writer (Some pg_pool)) e (em_TrackingID e) (em_AdapterID e) s = (r, s') ->
  posts P s r s'.
Proof.
  intros HP Hs. unfold CreateQueued. cbn [pg_writer spw_pool spw_rt]. unfold bind at 1 2, Now, NewV7, total.
  cbn [sys_runtime rt_Now rt_NewV7]. set (s1 := set_ids _ _). intros Hrun.
  apply (posts_moved P s s1); [done|].
  apply begin_step in Hrun as [?|(s2 & F1 & Hrun)]; [by left|]. apply (posts_moved P s1 s2); [done|].
  apply tx_step in Hrun as [?|(tx & s3 & E2 & F2 & Hrun)]; [by left| |apply CreateTx_mailbox].
  apply CreateTx_Ok in E2 as (Hfresh & now & created & paid & ->).
  apply tx_step in Hrun as [Hx|(tx2 & s4 & E3 & F3 & Hrun)]; [left; by rewrite <- F2| |apply EnqueueSendTx_mailbox].
  apply stmt_Ok in E3 as (fs3 & E3). injection E3 as Etx2 _.
  apply tx_step in Hrun as [Hx|(tx3 & s5 & E4 & F4 & Hrun)]; [left; by rewrite <- F2, <- F3| |apply AddEventTx_mailbox].
  apply stmt_Ok in E4 as (fs4 & E4). injection E4 as Etx3 _.
  apply Commit_mailbox in Hrun as [Hx|Hm]; [left; by rewrite <- F2, <- F3, <- F4|right].
  rewrite <- Etx3, <- Etx2 in Hm. rewrite Hm. clear Hm. rewrite <- F2, <- F3, <- F4 in F1 |- *.
  econstructor; [exact HP| |reflexivity|reflexivity|left; by split_and!].
  unfold mailbox in *. simpl in *. congruence.
Qed.

Lemma CreateSuppressed_posts (P : Email -> Prop) e now reason s r s' :
  P e -> em_Status e = StatusSuppressed ->
  CreateSuppressed (pg_writer (Some pg_pool)) e now reason s = (r, s') ->
  posts P s r s'.
Proof.
  intros HP Hs. unfold CreateSuppressed. cbn [pg_writer spw_pool spw_rt]. unfold bind at 1, NewV7, total.
  cbn [sys_runtime rt_Now rt_NewV7]. set (s1 := set_ids _ _). intros Hrun.
  apply (posts_moved P s s1); [done|].
  apply begin_step in Hrun as [?|(s2 & F1 & Hrun)]; [by left|]. apply (posts_moved P s1 s2); [done|].
  apply tx_step in Hrun as [?|(tx & s3 & E2 & F2 & Hrun)]; [by left| |apply CreateTx_mailbox].
  apply CreateTx_Ok in E2 as (Hfresh & now' & created & paid & ->).
  apply tx_step in Hrun as [Hx|(tx3 & s5 & E4 & F4 & Hrun)]; [left; by rewrite <- F2| |apply AddEventTx_mailbox].
  apply stmt_Ok in E4 as (fs4 & E4). injection E4 as Etx3 _.
  apply Commit_mailbox in Hrun as [Hx|Hm]; [left; by rewrite <- F2, <- F4|right].
  rewrite <- Etx3 in Hm. rewrite Hm. clear Hm. rewrite <- F2, <- F4 in F1 |- *.
  econstructor; [exact HP| |unfold mailbox; cbn; by rewrite app_nil_r|reflexivity|right; by split_and!].
  unfold mailbox in *. simpl in *. congruence.
Qed.
End Posting.
