(* ===== verification/Send.v ===== *)
(** * The send pipeline ([service/send.go], [send_batch.go], [send_context.go], [from_email.go])

    A send request becomes emails and jobs: the reference is resolved in the
    scope of the API key, the template, injectors, adapter and sender address are
    resolved, the recipients go through the test policy and the suppression
    layers, and each is posted through the outbox. *)
From stdpp Require Import base gmap strings list.
From Stdlib Require Import ZArith String Lia.
From S2P Require Import Prelude GoMonad Domain Ports Token Suppression Postgres Resolution Injectors.
From S2P Require Import Render Access Outbox.

Record SendSource := mkSendSource {
  src_Type : EmailSourceType;
  src_ActorMemberID : option uuid;
  src_ActorEmail : option string;
}.

Record SendRequest := mkSendRequest {
  rq_Ref : string;
  rq_To : list string;
  rq_CC : list string;
  rq_BCC : list string;
  rq_Variables : fields_map;
  rq_Injectors : injector_map;
  rq_ExternalID : option string;
  rq_Locale : option string;
  rq_AuthWorkspaceID : uuid;
  rq_Headers : gmap string string;
  rq_Source : SendSource;
}.

Record SendBatchItemRequest := mkSendBatchItemRequest {
  it_To : string;
  it_CC : list string;
  it_BCC : list string;
  it_Variables : fields_map;
  it_Injectors : injector_map;
  it_ExternalID : option string;
  it_Locale : option string;
}.

Record SendBatchRequest := mkSendBatchRequest {
  br_Ref : string;
  br_Items : list SendBatchItemRequest;
  br_AuthWorkspaceID : uuid;
  br_Headers : gmap string string;
  br_Source : SendSource;
}.

Record TrackingEntry := mkTrackingEntry {
  te_To : string;
  te_TrackingID : string;
  te_Status : string;
  te_Error : string;
}.

Record SendResponse := mkSendResponse {
  rs_Status : string;
  rs_TrackingIDs : list TrackingEntry;
  rs_ExternalID : option string;
  rs_TemplateResolved : string;
  rs_TemplateVersion : Z;
}.

Record SendBatchItemResult := mkSendBatchItemResult {
  ir_Index : Z;
  ir_To : string;
  ir_TrackingID : string;
  ir_Status : string;
  ir_ExternalID : option string;
  ir_Error : string;
}.

Record SendBatchResponse := mkSendBatchResponse {
  bs_Status : string;
  bs_TemplateResolved : string;
  bs_Items : list SendBatchItemResult;
  bs_AcceptedCount : Z;
  bs_SuppressedCount : Z;
  bs_FailedCount : Z;
}.

(** The service's collaborators; the resolvers are the methods it calls. *)
Record SendService (W : Type) := mkSendService {
  templateResolver : uuid -> string -> option string -> M W ResolvedTemplate;
  injectorMerger : uuid -> InjectorContext -> M W MergedInjectors;
  adapterResolver : TemplateType -> M W Adapter;
  accessService : option (AdapterAccessService W);
  identityStore : AdapterIdentityStore W;
  writer : SendPersistenceWriter W;
  suppression : suppressionBatchStore W;
  templateTypeSubscriptionStore : option (templateTypeOptOutStore W);
  tenantStore : string -> M W Tenant;
  wsStore : WorkspaceStore.t W;
  rt : Runtime W;
  (** [rand.Read] of 16 bytes; [None] is its error *)
  rand_Read : M W (option string);
}.
Arguments templateResolver {W}. Arguments injectorMerger {W}. Arguments adapterResolver {W}.
Arguments accessService {W}. Arguments identityStore {W}. Arguments writer {W}. Arguments suppression {W}.
Arguments templateTypeSubscriptionStore {W}. Arguments tenantStore {W}. Arguments wsStore {W}. Arguments rt {W}.
Arguments rand_Read {W}.

Definition effectiveSendSource (source : SendSource) : SendSource :=
  match src_Type source with
  | EmailSourceTypeNone =>
      mkSendSource EmailSourceTypeDataPlaneAPIKey (src_ActorMemberID source) (src_ActorEmail source)
  | _ => source
  end.

Definition getLocalizedField (resolved : ResolvedTemplate) (field : string) : string :=
  let version := rt_Version resolved in
  let override := match rt_Locale resolved with
    | None => None
    | Some l => if bool_decide (field = "subject") then loc_Subject l
                else if bool_decide (field = "preview_text") then loc_PreviewText l
                else if bool_decide (field = "from_name") then loc_FromName l else None
    end in
  match override with
  | Some value => value
  | None => if bool_decide (field = "subject") then ver_Subject version
            else if bool_decide (field = "preview_text") then ver_PreviewText version
            else if bool_decide (field = "from_name") then ver_FromName version else ""
  end.

Definition getLocalizedBody (resolved : ResolvedTemplate) : string :=
  match rt_Locale resolved with
  | Some l => default (ver_BodyMJML (rt_Version resolved)) (loc_BodyMJML l)
  | None => ver_BodyMJML (rt_Version resolved)
  end.

(** What the emails of one request share. *)
Record EmailContents := mkEmailContents {
  ec_Ref : string;
  ec_Slug : string;
  ec_ExternalID : option string;
  ec_Locale : option string;
  ec_Variables : fields_map;
  ec_Injectors : injector_map;
  ec_CC : list string;
  ec_BCC : list string;
  ec_FromEmail : string;
  ec_FromName : string;
  ec_Subject : string;
  ec_Body : string;
  ec_Resolved : ResolvedTemplate;
  ec_AdapterID : uuid;
  ec_Source : SendSource;
  ec_Now : gotime;
}.

(** The email of one recipient; its status is set when it is written. *)
Definition recipient_email (tenant : Tenant) (ws : Workspace) (c : EmailContents) (status : EmailStatus)
    (id : uuid) (trackingID address : string) : Email :=
  {| em_ID := id; em_TrackingID := trackingID; em_ExternalID := ec_ExternalID c; em_WorkspaceID := ws_ID ws;
     em_TenantID := ten_ID tenant; em_TemplateID := tpl_ID (rt_Template (ec_Resolved c));
     em_TemplateVersionID := ver_ID (rt_Version (ec_Resolved c)); em_TemplateTypeSlug := ec_Slug c;
     em_TemplateRef := ec_Ref c; em_RecipientEmail := address; em_CC := ec_CC c; em_BCC := ec_BCC c;
     em_FromEmail := ec_FromEmail c; em_FromName := ec_FromName c;
     em_ReplyTo := ver_ReplyTo (rt_Version (ec_Resolved c)); em_SubjectRendered := ec_Subject c;
     em_Locale := ec_Locale c; em_Status := status; em_AdapterID := ec_AdapterID c;
     em_SenderIdentityID := tt_SenderIdentityID (rt_TemplateType (ec_Resolved c));
     em_ProviderMessageID := None; em_VariablesSnapshot := ec_Variables c; em_InjectorsSnapshot := ec_Injectors c;
     em_SourceType := src_Type (ec_Source c); em_SourceActorMemberID := src_ActorMemberID (ec_Source c);
     em_SourceActorEmail := src_ActorEmail (ec_Source c); em_BodyMJML := ec_Body c; em_RetryCount := 0;
     em_OpenTrackingEnabled := ws_OpenTrackingEnabled ws; em_MaxRetries := 3; em_NextRetryAt := None;
     em_CreatedAt := ec_Now c; em_UpdatedAt := ec_Now c |}.

(** [fmt.Errorf("all recipients failed: %w", lastErr)], with [lastErr] possibly nil. *)
Definition all_failed (lastErr : option error) : error :=
  match lastErr with
  | Some e => EWrap "all recipients failed: " e ""
  | None => EMsg "all recipients failed: %!w(<nil>)"
  end.

(** The template cache and the address-keyed statuses of a batch. *)
Abbreviation TemplateCache := (gmap string ResolvedTemplate).
Abbreviation Statuses := (gmap string SuppressionStatus).

Section Service.
Context `{GoStd} {W : Type} (s : SendService W).

Definition generateTrackingID : M W string :=
  let! b := rand_Read s in
  match b with
  | Some b => ret ("trk_" +:+ HexEncode b)
  | None => let! id := NewV7 (rt s) in ret ("trk_" +:+ uuid_String id)
  end.

Definition resolveFromEmail (adapter : Adapter) (senderIdentityID : option uuid) : M W string :=
  match senderIdentityID with
  | Some sid =>
      let! identity := wrap_err (fun e => EWrap ("sender identity " +:+ uuid_String sid +:+ " not found: ") e "")
                         (GetIdentityByID (identityStore s) sid) in
      if negb (bool_decide (id_IdentityType identity = IdentityTypeEmail))
      then fail (EWrap "" (ESent ErrSenderIdentityAccessDenied)
                  (": sender identity " +:+ uuid_String sid +:+ " is not an email"))
      else ret (id_Identity identity)
  | None =>
      let! identity := wrap_err (fun _ => EWrap "" (ESent ErrNoDefaultIdentity)
                                            (": adapter " +:+ uuid_String (ad_ID adapter)))
                         (GetDefaultIdentity (identityStore s) (ad_ID adapter)) in
      if negb (bool_decide (id_IdentityType identity = IdentityTypeEmail))
      then fail (EWrap "" (ESent ErrNoDefaultIdentity)
                  (": adapter " +:+ uuid_String (ad_ID adapter) +:+ " default is a domain, not an email"))
      else ret (id_Identity identity)
  end.

(** The sender address of a template test: without a selected identity, the
    adapter's default, its configured address or nothing. *)
Definition resolveFromEmailForTemplateTest (adapter : Adapter) (cfg_delegate : option string)
    (senderIdentityID : option uuid) : M W string :=
  match senderIdentityID with
  | Some _ => resolveFromEmail adapter senderIdentityID
  | None =>
      let! from := ResolveFromAddress (GetDefaultIdentity (identityStore s)) adapter cfg_delegate in
      if bool_decide (addr_Address from = "")
      then fail (EWrap "" (ESent ErrNoDefaultIdentity) (": no sender identity for adapter " +:+ ad_Name adapter))
      else ret (addr_Address from)
  end.

(** The environment an API key selects. *)
Definition auth_environment (authWorkspaceID : uuid) : M W Environment :=
  if bool_decide (authWorkspaceID = uuid_Nil) then ret EnvironmentProd
  else
    let! authWorkspace := WorkspaceStore.GetByID (wsStore s) authWorkspaceID in
    ret (if Environment_Valid (ws_Environment authWorkspace) then ws_Environment authWorkspace else EnvironmentProd).

(** The tenant and workspace of a reference, in the scope of the API key. *)
Definition resolve_scope (authWorkspaceID : uuid) (ref : TemplateRef) : M W (Tenant * Workspace) :=
  let! tenant := tenantStore s (ref_TenantCode ref) in
  let! environment := auth_environment authWorkspaceID in
  let! ws := WorkspaceStore.GetByTenantAndCode (wsStore s) (ten_ID tenant) (ref_WorkspaceCode ref) environment in
  if negb (bool_decide (authWorkspaceID = uuid_Nil)) && negb (bool_decide (ws_ID ws = authWorkspaceID))
  then fail (ESent ErrWorkspaceScopeMismatch)
  else if ws_IsSystem ws then fail (ESent ErrSystemWorkspaceBlocked)
  else ret (tenant, ws).

(** The adapter of a template type, the access check and the sender address. *)
Definition resolve_sender (ws : Workspace) (resolved : ResolvedTemplate) : M W (Adapter * string) :=
  let ty := rt_TemplateType resolved in
  let! adapter := adapterResolver s ty in
  match accessService s with
  | Some access => ValidateTemplateTypeSelection access (Some ws) (tt_AdapterID ty) (tt_SenderIdentityID ty)
  | None => ret tt
  end ;;;
  let! fromEmail := resolveFromEmail adapter (tt_SenderIdentityID ty) in
  ret (adapter, fromEmail).

Definition resolve_injectors (headers : gmap string string) (ref : string) (variables : fields_map)
    (requestInjectors : injector_map) (tenant : Tenant) (ws : Workspace) (slug : string) : M W MergedInjectors :=
  injectorMerger s (ws_ID ws)
    (SetRequestInjectors requestInjectors
       (NewInjectorContext headers ref variables (ten_ID tenant) (ws_ID ws) (ws_Environment ws) slug)).

(** The rendered subject and sender name. *)
Definition render_fields (resolved : ResolvedTemplate) (injectors : injector_map) (variables : fields_map)
  : M W (string * string) :=
  let! subject := wrap_err (wrapping "render subject")
    (lift_res (Render (getLocalizedField resolved "subject") injectors variables)) in
  let! fromName := wrap_err (wrapping "render from_name")
    (lift_res (Render (getLocalizedField resolved "from_name") injectors variables)) in
  ret (subject, fromName).

(** ** A single send *)

Definition send_locale (ws : Workspace) (locale : option string) : option string :=
  let missing (l : option string) := bool_decide (l = None) || bool_decide (l = Some "") in
  if missing locale && negb (missing (ws_DefaultLocale ws)) then ws_DefaultLocale ws else locale.

(** The running state of the recipient loop. *)
Record SendLoop := mkSendLoop { sl_entries : list TrackingEntry; sl_failCount : Z; sl_lastErr : option error }.

Definition record_failure (st : SendLoop) (address trackingID : string) (e : error) : SendLoop :=
  mkSendLoop (sl_entries st ++ [mkTrackingEntry address trackingID "failed" (error_string e)])
    (sl_failCount st + 1) (Some e).
Definition record_success (st : SendLoop) (address trackingID status : string) : SendLoop :=
  mkSendLoop (sl_entries st ++ [mkTrackingEntry address trackingID status ""]) (sl_failCount st) (sl_lastErr st).

Definition send_recipient (tenant : Tenant) (ws : Workspace) (c : EmailContents) (st : SendLoop)
    (recipient : SuppressionRecipientDecision) : M W SendLoop :=
  let! trackingID := generateTrackingID in
  let! id := NewV7 (rt s) in
  let email status := recipient_email tenant ws c status id trackingID (dec_Address recipient) in
  if dec_Suppressed recipient then
    try! r := CreateSuppressed (writer s) (email StatusSuppressed) (ec_Now c) (dec_Reason recipient) in
    ret match r with
        | Err e => record_failure st (dec_Address recipient) trackingID e
        | Ok _ => record_success st (dec_Address recipient) trackingID "suppressed"
        end
  else
    try! r := CreateQueued (writer s) (email StatusQueued) trackingID (ec_AdapterID c) in
    ret match r with
        | Err e => record_failure st (dec_Address recipient) trackingID e
        | Ok _ => record_success st (dec_Address recipient) trackingID "accepted"
        end.

(** From the decisions on the recipients to the response. *)
Definition send_recipients (tenant : Tenant) (ws : Workspace) (c : EmailContents)
    (effectiveTo : list string) (decisions : list SuppressionRecipientDecision) : M W SendResponse :=
  let! st := for_fold decisions (mkSendLoop [] 0 None) (send_recipient tenant ws c) in
  if bool_decide (sl_failCount st = Z.of_nat (List.length effectiveTo)) then fail (all_failed (sl_lastErr st))
  else ret {| rs_Status := if (0 <? sl_failCount st)%Z then "partial" else "accepted";
              rs_TrackingIDs := sl_entries st; rs_ExternalID := ec_ExternalID c;
              rs_TemplateResolved := ec_Ref c;
              rs_TemplateVersion := ver_VersionNumber (rt_Version (ec_Resolved c)) |}.

(** The contents of a request's emails, before the recipients are known. *)
Definition send_contents (req : SendRequest) (slug : string) (tenant : Tenant) (ws : Workspace) : M W EmailContents :=
  let! resolved := templateResolver s (ws_ID ws) slug (send_locale ws (rq_Locale req)) in
  let! injectors := resolve_injectors (rq_Headers req) (rq_Ref req) (rq_Variables req) (rq_Injectors req)
                      tenant ws slug in
  let! sender := resolve_sender ws resolved in
  let! fields := render_fields resolved injectors (rq_Variables req) in
  let! now := Now (rt s) in
  ret {| ec_Ref := rq_Ref req; ec_Slug := slug; ec_ExternalID := rq_ExternalID req; ec_Locale := rq_Locale req;
         ec_Variables := rq_Variables req; ec_Injectors := injectors; ec_CC := []; ec_BCC := [];
         ec_FromEmail := sender.2; ec_FromName := fields.2; ec_Subject := fields.1;
         ec_Body := getLocalizedBody resolved; ec_Resolved := resolved; ec_AdapterID := ad_ID sender.1;
         ec_Source := effectiveSendSource (rq_Source req); ec_Now := now |}.

Definition with_copies (cc bcc : list string) (c : EmailContents) : EmailContents :=
  {| ec_Ref := ec_Ref c; ec_Slug := ec_Slug c; ec_ExternalID := ec_ExternalID c; ec_Locale := ec_Locale c;
     ec_Variables := ec_Variables c; ec_Injectors := ec_Injectors c; ec_CC := cc; ec_BCC := bcc;
     ec_FromEmail := ec_FromEmail c; ec_FromName := ec_FromName c; ec_Subject := ec_Subject c;
     ec_Body := ec_Body c; ec_Resolved := ec_Resolved c; ec_AdapterID := ec_AdapterID c;
     ec_Source := ec_Source c; ec_Now := ec_Now c |}.

Definition Send (req : SendRequest) : M W SendResponse :=
  let! ref := lift_res (ParseRef (rq_Ref req)) in
  let! scope := resolve_scope (rq_AuthWorkspaceID req) ref in
  let '(tenant, ws) := scope in
  let! c := send_contents req (ref_TemplateType ref) tenant ws in
  let ty := rt_TemplateType (ec_Resolved c) in
  let! effective := lift_res (applyTestRecipientPolicy (Some ws) (Some ty) (rq_To req) (rq_CC req) (rq_BCC req)) in
  let '(effectiveTo, effectiveCC, effectiveBCC) := effective in
  let! decided := EvaluateForType (suppression s) (templateTypeSubscriptionStore s) (ws_ID ws) (tt_ID ty)
                    effectiveTo effectiveCC effectiveBCC in
  send_recipients tenant ws (with_copies (sev_CC decided) (sev_BCC decided) c) effectiveTo (sev_To decided).

(** ** A batch *)

(** [ResolvedSendContext]; its template cache, which the batch fills as it goes,
    is the memory the batch runs over. *)
Record ResolvedSendContext := mkResolvedSendContext {
  sh_Ref : string;
  sh_Tenant : Tenant;
  sh_Workspace : Workspace;
  sh_TemplateType : TemplateType;
  sh_Adapter : Adapter;
  sh_FromEmail : string;
  sh_Headers : gmap string string;
  sh_Source : SendSource;
  sh_workspaceDefaultLocale : option string;
}.

(** [SendPlan] is the item and its index. *)
Record SendPlan := mkSendPlan { pn_Index : Z; pn_Item : SendBatchItemRequest }.

Definition blank (l : option string) : bool :=
  match l with None => true | Some v => bool_decide (TrimSpace v = "") end.

Definition effectiveLocaleKey (locale fallback : option string) : string :=
  if negb (blank locale) then default "" locale
  else if negb (blank fallback) then default "" fallback else "".

Definition resolveStableSendContext (authWorkspaceID : uuid) (ref : TemplateRef)
  : M W (Tenant * Workspace * ResolvedTemplate * Adapter * string) :=
  let! scope := resolve_scope authWorkspaceID ref in
  let '(tenant, ws) := scope in
  let baseLocale := if blank (ws_DefaultLocale ws) then None else ws_DefaultLocale ws in
  let! resolved := templateResolver s (ws_ID ws) (ref_TemplateType ref) baseLocale in
  let! sender := resolve_sender ws resolved in
  ret (tenant, ws, resolved, sender.1, sender.2).

Definition resolveSendBatchContext (req : SendBatchRequest) : M W (ResolvedSendContext * TemplateCache) :=
  let! ref := lift_res (ParseRef (br_Ref req)) in
  let! stable := resolveStableSendContext (br_AuthWorkspaceID req) ref in
  let '(tenant, ws, resolved, adapter, fromEmail) := stable in
  let cache : TemplateCache := {["" := resolved]} in
  let key := effectiveLocaleKey None (ws_DefaultLocale ws) in
  ret ({| sh_Ref := br_Ref req; sh_Tenant := tenant; sh_Workspace := ws; sh_TemplateType := rt_TemplateType resolved;
          sh_Adapter := adapter; sh_FromEmail := fromEmail; sh_Headers := br_Headers req;
          sh_Source := effectiveSendSource (br_Source req); sh_workspaceDefaultLocale := ws_DefaultLocale ws |},
       if bool_decide (key = "") then cache else <[key := resolved]> cache).

(** The statuses of a copy list: suppressed when the evaluation dropped it. *)
Definition copy_status (kept : list string) (statuses : Statuses) (a : string) : Statuses :=
  if bool_decide (a ∈ kept) then
    (if bool_decide (is_Some (statuses !! a)) then statuses else <[a := mkSuppressionStatus false ""]> statuses)
  else <[a := mkSuppressionStatus true "suppressed"]> statuses.

Definition to_status (statuses : Statuses) (d : SuppressionRecipientDecision) : Statuses :=
  <[dec_Address d := mkSuppressionStatus (dec_Suppressed d) (dec_Reason d)]> statuses.

(** The address-keyed statuses of a batch: first every To, then the copies. *)
Definition flatten_statuses (inputs : list SuppressionBatchInput) (results : list SuppressionBatchEvaluation) : Statuses :=
  let statuses := foldl (fun m ev => foldl to_status m (sev_To ev)) ∅ results in
  foldl (fun m p => foldl (copy_status (sev_BCC p.2)) (foldl (copy_status (sev_CC p.2)) m (sin_CC p.1)) (sin_BCC p.1))
        statuses (zip inputs results).

(** The effective addresses of one item. *)
Definition item_input (shared : ResolvedSendContext) (item : SendBatchItemRequest) : Res SuppressionBatchInput :=
  match applyTestRecipientPolicy (Some (sh_Workspace shared)) (Some (sh_TemplateType shared))
          [it_To item] (it_CC item) (it_BCC item) with
  | Ok (effectiveTo, effectiveCC, effectiveBCC) => Ok (mkInput effectiveTo effectiveCC effectiveBCC)
  | Err e => Err e
  end.

Definition primeSendBatchSuppressionStatuses (shared : ResolvedSendContext) (items : list SendBatchItemRequest)
  : M W Statuses :=
  let! inputs := for_fold items [] (fun inputs item =>
                   let! input := lift_res (item_input shared item) in ret (inputs ++ [input])) in
  let! results := EvaluateManyForType (suppression s) (templateTypeSubscriptionStore s)
                    (ws_ID (sh_Workspace shared)) (tt_ID (sh_TemplateType shared)) inputs in
  ret (flatten_statuses inputs results).

(** [statuses[a]]: the zero status when absent. *)
Definition status_at (statuses : Statuses) (a : string) : SuppressionStatus :=
  default (mkSuppressionStatus false "") (statuses !! a).

Definition filterSuppressedWithStatuses (addrs : list string) (statuses : Statuses) : list string :=
  List.filter (fun a => negb (st_Suppressed (status_at statuses a))) addrs.

Definition templateForLocale (shared : ResolvedSendContext) (locale : option string)
  : M (W * TemplateCache) ResolvedTemplate :=
  let key := effectiveLocaleKey locale (sh_workspaceDefaultLocale shared) in
  let! cache := get_state in
  match cache !! key with
  | Some resolved => ret resolved
  | None =>
      let effectiveLocale := if blank locale then sh_workspaceDefaultLocale shared else locale in
      let! resolved := up (templateResolver s (ws_ID (sh_Workspace shared)) (tt_Slug (sh_TemplateType shared))
                             effectiveLocale) in
      set_state <[key := resolved]> ;;;
      ret resolved
  end.

Definition resolveSendPlanTemplate (shared : ResolvedSendContext) (item : SendBatchItemRequest)
  : M (W * TemplateCache) (ResolvedTemplate * injector_map * string * string) :=
  let! resolved := templateForLocale shared (it_Locale item) in
  let! injectors := up (resolve_injectors (sh_Headers shared) (sh_Ref shared) (it_Variables item) (it_Injectors item)
                          (sh_Tenant shared) (sh_Workspace shared) (tt_Slug (sh_TemplateType shared))) in
  let! fields := up (render_fields resolved injectors (it_Variables item)) in
  ret (resolved, injectors, fields.1, fields.2).

(** [sendPlanExecution]: the contents of the item's emails and its recipients. *)
Record sendPlanExecution := mkSendPlanExecution { px_contents : EmailContents; px_effectiveTo : list string }.

Definition prepareSendPlanExecution (shared : ResolvedSendContext) (statuses : Statuses) (item : SendBatchItemRequest)
  : M (W * TemplateCache) sendPlanExecution :=
  let! resolved := resolveSendPlanTemplate shared item in
  let '(resolved, injectors, subject, fromName) := resolved in
  let! effective := lift_res (applyTestRecipientPolicy (Some (sh_Workspace shared)) (Some (rt_TemplateType resolved))
                                [it_To item] (it_CC item) (it_BCC item)) in
  let '(effectiveTo, effectiveCC, effectiveBCC) := effective in
  let! now := up (Now (rt s)) in
  ret {| px_effectiveTo := effectiveTo;
         px_contents :=
           {| ec_Ref := sh_Ref shared; ec_Slug := tt_Slug (sh_TemplateType shared);
              ec_ExternalID := it_ExternalID item; ec_Locale := it_Locale item; ec_Variables := it_Variables item;
              ec_Injectors := injectors;
              ec_CC := filterSuppressedWithStatuses effectiveCC statuses;
              ec_BCC := filterSuppressedWithStatuses effectiveBCC statuses;
              ec_FromEmail := sh_FromEmail shared; ec_FromName := fromName; ec_Subject := subject;
              ec_Body := getLocalizedBody resolved; ec_Resolved := resolved; ec_AdapterID := ad_ID (sh_Adapter shared);
              ec_Source := sh_Source shared; ec_Now := now |} |}.

(** [sendPlanOutcome]: [firstTracking] is set by the first recipient only. *)
Record sendPlanOutcome := mkSendPlanOutcome {
  oc_lastErr : option error;
  oc_failCount : Z;
  oc_firstTracking : option TrackingEntry;
}.

Definition recordSendPlanFirstTracking (entry : TrackingEntry) (outcome : sendPlanOutcome) : sendPlanOutcome :=
  match oc_firstTracking outcome with
  | Some _ => outcome
  | None => mkSendPlanOutcome (oc_lastErr outcome) (oc_failCount outcome) (Some entry)
  end.

Definition recordSendPlanFailure (e : error) (recipient trackingID : string) (outcome : sendPlanOutcome)
  : sendPlanOutcome :=
  recordSendPlanFirstTracking (mkTrackingEntry recipient trackingID "failed" (error_string e))
    (mkSendPlanOutcome (Some e) (oc_failCount outcome + 1) (oc_firstTracking outcome)).

(** [persistSuppressedPlanRecipient] and [persistQueuedPlanRecipient] on the email
    [buildSendPlanEmail] makes. *)
Definition plan_recipient (shared : ResolvedSendContext) (statuses : Statuses) (c : EmailContents)
    (outcome : sendPlanOutcome) (recipient : string) : M W sendPlanOutcome :=
  let! trackingID := generateTrackingID in
  let status := status_at statuses recipient in
  let! id := NewV7 (rt s) in
  let email st := recipient_email (sh_Tenant shared) (sh_Workspace shared) c st id trackingID recipient in
  if st_Suppressed status then
    try! r := CreateSuppressed (writer s) (email StatusSuppressed) (ec_Now c) (st_Reason status) in
    ret match r with
        | Err e => recordSendPlanFailure e recipient trackingID outcome
        | Ok _ => recordSendPlanFirstTracking (mkTrackingEntry recipient trackingID "suppressed" "") outcome
        end
  else
    try! r := CreateQueued (writer s) (email StatusQueued) trackingID (ad_ID (sh_Adapter shared)) in
    ret match r with
        | Err e => recordSendPlanFailure e recipient trackingID outcome
        | Ok _ => recordSendPlanFirstTracking (mkTrackingEntry recipient trackingID "accepted" "") outcome
        end.

Definition processSendPlanRecipients (shared : ResolvedSendContext) (statuses : Statuses) (x : sendPlanExecution)
  : M W sendPlanOutcome :=
  for_fold (px_effectiveTo x) (mkSendPlanOutcome None 0 None) (plan_recipient shared statuses (px_contents x)).

Definition item_result (result : SendBatchItemResult) (status trackingID err : string) : SendBatchItemResult :=
  mkSendBatchItemResult (ir_Index result) (ir_To result) trackingID status (ir_ExternalID result) err.

Definition finalizeSendPlanResult (result : SendBatchItemResult) (effectiveTo : list string)
    (outcome : sendPlanOutcome) : SendBatchItemResult * option error :=
  if bool_decide (oc_failCount outcome = Z.of_nat (List.length effectiveTo))
  then (result, Some (all_failed (oc_lastErr outcome)))
  else
    let tracking := match oc_firstTracking outcome with Some t => te_TrackingID t | None => ir_TrackingID result end in
    if (0 <? oc_failCount outcome)%Z then
      let err := match oc_lastErr outcome with Some e => error_string e | None => ir_Error result end in
      (item_result result "partial" tracking err, None)
    else
      match oc_firstTracking outcome with
      | Some t => (item_result result (te_Status t) tracking (te_Error t), None)
      | None => (item_result result "accepted" tracking (ir_Error result), None)
      end.

Definition executeSendPlan (shared : ResolvedSendContext) (statuses : Statuses) (plan : SendPlan)
  : M (W * TemplateCache) (SendBatchItemResult * option error) :=
  let item := pn_Item plan in
  let result := mkSendBatchItemResult (pn_Index plan) (it_To item) "" "" (it_ExternalID item) "" in
  try! x := prepareSendPlanExecution shared statuses item in
  match x with
  | Err e => ret (result, Some e)
  | Ok x =>
      let! outcome := up (processSendPlanRecipients shared statuses x) in
      ret (finalizeSendPlanResult result (px_effectiveTo x) outcome)
  end.

(** The running response. *)
Record BatchLoop := mkBatchLoop {
  bl_items : list SendBatchItemResult;
  bl_accepted : Z;
  bl_suppressed : Z;
  bl_failed : Z;
  bl_fully : Z;
}.

Definition count_item (st : BatchLoop) (r : SendBatchItemResult * option error) : BatchLoop :=
  let '(result, err) := r in
  match err with
  | Some e =>
      mkBatchLoop (bl_items st ++ [item_result result "failed" (ir_TrackingID result) (error_string e)])
        (bl_accepted st) (bl_suppressed st) (bl_failed st + 1) (bl_fully st + 1)
  | None =>
      let items := bl_items st ++ [result] in
      if bool_decide (ir_Status result = "accepted")
      then mkBatchLoop items (bl_accepted st + 1) (bl_suppressed st) (bl_failed st) (bl_fully st)
      else if bool_decide (ir_Status result = "suppressed")
      then mkBatchLoop items (bl_accepted st) (bl_suppressed st + 1) (bl_failed st) (bl_fully st)
      else if bool_decide (ir_Status result = "failed")
      then mkBatchLoop items (bl_accepted st) (bl_suppressed st) (bl_failed st + 1) (bl_fully st + 1)
      else mkBatchLoop items (bl_accepted st) (bl_suppressed st) (bl_failed st + 1) (bl_fully st)
  end.

Definition batch_response (req : SendBatchRequest) (st : BatchLoop) : SendBatchResponse :=
  {| bs_Status := if bool_decide (bl_fully st = Z.of_nat (List.length (br_Items req))) &&
                     (0 <? Z.of_nat (List.length (br_Items req)))%Z then "failed"
                  else if (0 <? bl_failed st)%Z then "partial" else "accepted";
     bs_TemplateResolved := br_Ref req; bs_Items := bl_items st; bs_AcceptedCount := bl_accepted st;
     bs_SuppressedCount := bl_suppressed st; bs_FailedCount := bl_failed st |}.

Definition send_items (shared : ResolvedSendContext) (statuses : Statuses) (items : list SendBatchItemRequest)
  : M (W * TemplateCache) BatchLoop :=
  for_fold (imap (fun i item => mkSendPlan (Z.of_nat i) item) items) (mkBatchLoop [] 0 0 0 0)
    (fun st plan => let! r := executeSendPlan shared statuses plan in ret (count_item st r)).

Definition SendBatch (req : SendBatchRequest) : M W SendBatchResponse :=
  let! context := resolveSendBatchContext req in
  let! statuses := primeSendBatchSuppressionStatuses context.1 (br_Items req) in
  let! st := with_memory context.2 (send_items context.1 statuses (br_Items req)) in
  ret (batch_response req st).

(** ** Prepared contexts ([SendContextBuilder]) *)

Record PreparedSendContext := mkPreparedSendContext {
  pc_ref : TemplateRef;
  pc_refRaw : string;
  pc_tenant : Tenant;
  pc_workspace : Workspace;
  pc_source : SendSource;
}.

Record PreparedTemplateExecution := mkPreparedTemplateExecution {
  pe_Resolved : ResolvedTemplate;
  pe_Adapter : Adapter;
  pe_FromEmail : string;
}.

Definition Prepare (refRaw : string) (authWorkspaceID : uuid) (source : SendSource) : M W PreparedSendContext :=
  let! ref := lift_res (ParseRef refRaw) in
  let! scope := resolve_scope authWorkspaceID ref in
  ret (mkPreparedSendContext ref refRaw scope.1 scope.2 (effectiveSendSource source)).

Definition localeCacheKey (p : PreparedSendContext) (locale : option string) : string * option string :=
  let effective := if blank locale && negb (blank (ws_DefaultLocale (pc_workspace p)))
                   then ws_DefaultLocale (pc_workspace p) else locale in
  if blank effective then ("__default__", None)
  else let value := TrimSpace (default "" effective) in (value, Some value).

(** The execution cache is the context's memory. *)
Definition ResolveTemplateExecution (p : PreparedSendContext) (locale : option string)
  : M (W * gmap string PreparedTemplateExecution) PreparedTemplateExecution :=
  let '(cacheKey, effectiveLocale) := localeCacheKey p locale in
  let! cache := get_state in
  match cache !! cacheKey with
  | Some execution => ret execution
  | None =>
      let! resolved := up (templateResolver s (ws_ID (pc_workspace p)) (ref_TemplateType (pc_ref p)) effectiveLocale) in
      let! sender := up (resolve_sender (pc_workspace p) resolved) in
      let execution := mkPreparedTemplateExecution resolved sender.1 sender.2 in
      set_state <[cacheKey := execution]> ;;;
      ret execution
  end.
End Service.
