(* ===== verification/SendSafety.v ===== *)
(** * What a send guarantees

    The send pipeline on the PostgreSQL repositories: everything it writes, it
    writes through the outbox, so the theorems follow from one relation, [post],
    by rule induction. *)
From stdpp Require Import base gmap strings list.
From Stdlib Require Import ZArith String Lia.
From S2P Require Import Prelude GoMonad Domain Ports Token Suppression Postgres Resolution Injectors.
From S2P Require Import Render Access Outbox Send.

(** ** Posting *)

(** Run from [w], [m] posts finitely many emails that satisfy [P]. *)
Definition posting {W A} (v : W -> Mailbox) (P : Email -> Prop) (m : M W A) (w : W) : Prop :=
  rtc (post P) (v w) (v (m w).2).

Section Posting.
Context {W : Type} (v : W -> Mailbox) (P : Email -> Prop).

Lemma posting_preserves {A} (m : M W A) w : preserves v m -> posting v P m w.
Proof. intros Hm. unfold posting. by rewrite Hm. Qed.

Lemma posting_bind {A B} (m : M W A) (k : A -> M W B) w :
  posting v P m w -> (forall a w1, m w = (Ok a, w1) -> posting v P (k a) w1) -> posting v P (bind m k) w.
Proof.
  unfold posting, bind. intros Hm Hk. destruct (m w) as [[a|e] w1]; simpl in *; [|done].
  etrans; [exact Hm|by apply Hk].
Qed.

(** A bind whose first half only reads. *)
Lemma posting_after {A B} (m : M W A) (k : A -> M W B) w :
  preserves v m -> (forall a w1, m w = (Ok a, w1) -> posting v P (k a) w1) -> posting v P (bind m k) w.
Proof. intros Hm. apply posting_bind. by apply posting_preserves. Qed.

Lemma posting_try {A B} (m : M W A) (k : Res A -> M W B) w :
  posting v P m w -> (forall r, preserves v (k r)) -> posting v P (try m k) w.
Proof.
  unfold posting, try. intros Hm Hk. destruct (m w) as [r w1]; simpl in *. by rewrite Hk.
Qed.

Lemma posting_for_fold {A S} (l : list A) (st : S) (body : S -> A -> M W S) w :
  (forall st x w, x ∈ l -> posting v P (body st x) w) -> posting v P (for_fold l st body) w.
Proof.
  revert st w. induction l as [|x l IH]; intros st w Hb; simpl; [by apply posting_preserves, preserves_ret|].
  apply posting_bind; [apply Hb; set_solver|]. intros st' w1 _. apply IH. intros. apply Hb. set_solver.
Qed.
End Posting.

Lemma posting_up {W S A} (v : W -> Mailbox) P (m : M W A) (x : W * S) :
  posting v P m x.1 -> posting (on_world v) P (up m) x.
Proof. destruct x as [x st]. unfold posting, on_world, up. simpl. by destruct (m x). Qed.

Lemma post_weaken (P Q : Email -> Prop) m m' : (forall e, P e -> Q e) -> post P m m' -> post Q m m'.
Proof. intros HPQ []. econstructor; eauto. Qed.

(** *** What posting keeps and adds *)

Lemma post_rows P m m' id e :
  rtc (post P) m m' -> mb_emails m !! id = Some e -> mb_emails m' !! id = Some e.
Proof.
  induction 1 as [|m m1 m2 Hp _ IH]; [done|]. intros Hl. apply IH. destruct Hp as [x ? ? ? ? ? _ Hf -> _ _]. simpl.
  rewrite lookup_insert_ne; [done|]. congruence.
Qed.

Lemma post_log P m m' a : rtc (post P) m m' -> a ∈ mb_log m -> a ∈ mb_log m'.
Proof.
  induction 1 as [|m m1 m2 Hp _ IH]; [done|]. intros Hl. apply IH. destruct Hp as [x ? ? ? ? ? _ Hf -> _ _]. simpl.
  set_solver.
Qed.

(** Every new row is one of the posted emails, every new job is the job of a
    queued one. *)
Definition new_rows (P : Email -> Prop) (m m' : Mailbox) : Prop :=
  (forall id e, mb_emails m' !! id = Some e -> mb_emails m !! id = Some e \/
     (mb_emails m !! id = None /\ exists x now, P x /\ e = email_row now x /\ em_ID x = id)) /\
  (forall j, AJobSend j ∈ mb_log m' -> AJobSend j ∈ mb_log m \/
     exists x now, P x /\ mb_emails m' !! em_ID x = Some (email_row now x) /\ em_Status x = StatusQueued /\ j = job_of x).

Lemma posts_new_rows P m m' : rtc (post P) m m' -> new_rows P m m'.
Proof.
  induction 1 as [m|m m1 m2 Hp Hr IH]; [by split; left|].
  destruct IH as [IHr IHl]. pose proof Hp as [x now ? ? ev jobs HP Hf Hm1 _ Hj].
  assert (Hx : mb_emails m2 !! em_ID x = Some (email_row now x)).
  { eapply post_rows; [exact Hr|]. rewrite Hm1. apply lookup_insert_eq. }
  split.
  - intros id e He. apply IHr in He as [He|(Hn & Hx')].
    + rewrite Hm1 in He. simpl in He. apply lookup_insert_Some in He as [[<- <-]|[? He] ]; [right|by left].
      split; [done|]. by exists x, now.
    + right. split; [|done]. rewrite Hm1 in Hn. simpl in Hn. by apply lookup_insert_None in Hn as [? _].
  - intros j He. apply IHl in He as [He|He]; [|by right].
    rewrite Hm1 in He. simpl in He. apply elem_of_app in He as [He|He]; [by left|right].
    destruct Hj as [(Hs & _ & ->)|(_ & _ & ->)]; [|set_solver].
    apply list_elem_of_singleton in He as [= ->]. by exists x, now.
Qed.

(** ** The outbox invariant *)

Definition job_ids (log : list Action) : list uuid :=
  omap (fun a => match a with AJobSend j => Some (sj_EmailID j) | _ => None end) log.

(** Every queued email has its job, every job its email, and no email two. *)
Record outbox (m : Mailbox) : Prop := {
  ob_rows id e : mb_emails m !! id = Some e -> em_ID e = id /\ is_Some (mb_payloads m !! id);
  ob_queued id e : mb_emails m !! id = Some e -> em_Status e = StatusQueued -> AJobSend (job_of e) ∈ mb_log m;
  ob_jobs j : AJobSend j ∈ mb_log m ->
    exists e, mb_emails m !! sj_EmailID j = Some e /\ j = job_of e;
  ob_once : NoDup (job_ids (mb_log m));
}.

Lemma elem_of_job_ids log id : id ∈ job_ids log <-> exists j, AJobSend j ∈ log /\ sj_EmailID j = id.
Proof.
  unfold job_ids. rewrite list_elem_of_omap. split.
  - intros ([] & Hin & [=]). eauto.
  - intros (j & Hin & <-). by exists (AJobSend j).
Qed.

Lemma outbox_post P m m' : outbox m -> post P m m' -> outbox m'.
Proof.
  intros [Hr Hq Hj Ho] [x now created paid ev jobs _ Hf -> _ Hjobs].
  assert (Hold : forall j, AJobSend j ∈ mb_log m -> sj_EmailID j <> em_ID x).
  { intros j (e & He & _)%Hj Heq. congruence. }
  split; simpl.
  - intros id e [[<- <-]|[Hne He] ]%lookup_insert_Some; [by rewrite lookup_insert_eq|].
    rewrite lookup_insert_ne by done. eauto.
  - intros id e [[<- <-]|[Hne He] ]%lookup_insert_Some Hs; [|apply elem_of_app; left; eauto].
    destruct Hjobs as [(_ & _ & ->)|(Hs' & _)]; [|simpl in Hs; congruence].
    apply elem_of_app. right. by apply list_elem_of_singleton.
  - intros j [Hin|Hin]%elem_of_app.
    + destruct (Hj j Hin) as (e & He & Ej). exists e.
      rewrite lookup_insert_ne by (intros Heq; exact (Hold j Hin (eq_sym Heq))). done.
    + destruct Hjobs as [(Hs & _ & ->)|(_ & _ & ->)]; [|set_solver].
      apply list_elem_of_singleton in Hin as [= ->]. simpl.
      eexists. split; [by apply lookup_insert_eq|done].
  - unfold job_ids. rewrite omap_app. destruct Hjobs as [(_ & _ & ->)|(_ & _ & ->)]; simpl;
      [|by rewrite app_nil_r].
    apply NoDup_app. split; [done|]. split; [|apply NoDup_singleton].
    intros id (j & Hin & <-)%elem_of_job_ids Heq%list_elem_of_singleton. by apply (Hold j).
Qed.

Lemma outbox_posts P m m' : outbox m -> rtc (post P) m m' -> outbox m'.
Proof. intros Hm Hr. induction Hr; [done|]. apply IHHr. by eapply outbox_post. Qed.

(** ** The frame of the pipeline *)

(** Resolving and evaluating a send leaves a view of the world alone. *)
Class SendReads {W V} (s : SendService W) (v : W -> V) : Prop := {
  sr_template ws slug loc : preserves v (templateResolver s ws slug loc);
  sr_injectors ws ctx : preserves v (injectorMerger s ws ctx);
  sr_adapter ty : preserves v (adapterResolver s ty);
  sr_access a ws ad sid : accessService s = Some a -> preserves v (ValidateTemplateTypeSelection a ws ad sid);
  sr_identity id : preserves v (GetIdentityByID (identityStore s) id);
  sr_default id : preserves v (GetDefaultIdentity (identityStore s) id);
  sr_check ws l : preserves v (Suppression.CheckBatch (suppression s) ws l);
  sr_optouts t ws ty l : templateTypeSubscriptionStore s = Some t -> preserves v (Suppression.BatchCheckOptOut t ws ty l);
  sr_tenant code : preserves v (tenantStore s code);
  sr_workspace id : preserves v (WorkspaceStore.GetByID (wsStore s) id);
  sr_by_code t code e : preserves v (WorkspaceStore.GetByTenantAndCode (wsStore s) t code e);
  sr_NewV7 : preserves v (NewV7 (rt s));
  sr_Now : preserves v (Now (rt s));
  sr_rand : preserves v (rand_Read s);
}.
#[export] Hint Resolve sr_template sr_injectors sr_adapter sr_access sr_identity sr_default sr_check sr_optouts
  sr_tenant sr_workspace sr_by_code sr_NewV7 sr_Now sr_rand : senda.

Section Frames.
Context `{GoStd} {W V : Type} (s : SendService W) (v : W -> V) `{!SendReads s v}.

Lemma generateTrackingID_frame : preserves v (generateTrackingID s).
Proof. unfold generateTrackingID. preserves_tac. Qed.
Lemma resolve_scope_frame auth ref : preserves v (resolve_scope s auth ref).
Proof. unfold resolve_scope, auth_environment. preserves_tac. Qed.
Lemma resolve_sender_frame ws r : preserves v (resolve_sender s ws r).
Proof. unfold resolve_sender, resolveFromEmail. preserves_tac. Qed.
Lemma resolve_injectors_frame h ref vars req t ws slug : preserves v (resolve_injectors s h ref vars req t ws slug).
Proof. unfold resolve_injectors. preserves_tac. Qed.
Lemma render_fields_frame r inj vars : preserves v (render_fields r inj vars : M W _).
Proof. unfold render_fields. preserves_tac. Qed.
#[local] Hint Resolve generateTrackingID_frame resolve_scope_frame resolve_sender_frame resolve_injectors_frame
  render_fields_frame : senda.

Lemma send_contents_frame req slug t ws : preserves v (send_contents s req slug t ws).
Proof. unfold send_contents. preserves_tac. Qed.
Lemma EvaluateForType_frame ws ty to cc bcc :
  preserves v (EvaluateForType (suppression s) (templateTypeSubscriptionStore s) ws ty to cc bcc).
Proof. unfold EvaluateForType, Evaluate, EvaluateMany. preserves_tac. Qed.
Lemma EvaluateManyForType_frame ws ty inputs :
  preserves v (EvaluateManyForType (suppression s) (templateTypeSubscriptionStore s) ws ty inputs).
Proof. unfold EvaluateManyForType, EvaluateMany. preserves_tac. Qed.
Lemma resolveSendBatchContext_frame req : preserves v (resolveSendBatchContext s req).
Proof. unfold resolveSendBatchContext, resolveStableSendContext. preserves_tac. Qed.
#[local] Hint Resolve EvaluateManyForType_frame : senda.
Lemma prime_frame shared items : preserves v (primeSendBatchSuppressionStatuses s shared items).
Proof. unfold primeSendBatchSuppressionStatuses. preserves_tac. Qed.
Lemma templateForLocale_frame shared loc : preserves (on_world v) (templateForLocale s shared loc).
Proof. unfold templateForLocale. preserves_tac. Qed.
#[local] Hint Resolve templateForLocale_frame : senda.
Lemma resolveSendPlanTemplate_frame shared item : preserves (on_world v) (resolveSendPlanTemplate s shared item).
Proof. unfold resolveSendPlanTemplate. preserves_tac. Qed.
#[local] Hint Resolve resolveSendPlanTemplate_frame : senda.
Lemma prepareSendPlanExecution_frame shared st item : preserves (on_world v) (prepareSendPlanExecution s shared st item).
Proof. unfold prepareSendPlanExecution. preserves_tac. Qed.
End Frames.
#[export] Hint Resolve generateTrackingID_frame resolve_scope_frame resolve_sender_frame resolve_injectors_frame
  render_fields_frame send_contents_frame EvaluateForType_frame EvaluateManyForType_frame
  resolveSendBatchContext_frame prime_frame templateForLocale_frame resolveSendPlanTemplate_frame
  prepareSendPlanExecution_frame : senda.

(** The service as the server wires it: the PostgreSQL outbox and blocklists. *)
Class Wired `{GoStd} (s : SendService Sys) : Prop := {
  wired_writer : writer s = pg_writer (Some pg_pool);
  wired_suppression : suppression s = SuppressionBatchRepo;
  wired_optouts : templateTypeSubscriptionStore s = Some SubscriptionRepo;
  wired_mailbox : SendReads s mailbox;
  wired_blocklist : SendReads s blocklist;
}.
#[export] Existing Instance wired_mailbox.
#[export] Existing Instance wired_blocklist.

(** A write leaves the blocklists alone. *)
Section Blocklist.
Context `{GoStd}.

Lemma stmt_blocklist {A} wrap (f : Sys -> Res A * Sys) :
  (forall s, blocklist (f s).2 = blocklist s) -> preserves blocklist (stmt wrap f).
Proof. by apply stmt_reads. Qed.

Lemma writes_blocklist tx s : blocklist (foldl apply_write s tx) = blocklist s.
Proof. revert s. induction tx as [|[] tx IH]; intros s; simpl; [done|by rewrite IH..]. Qed.

Lemma or_rollback_blocklist tx msg (m : M Sys (list Write)) :
  preserves blocklist m -> preserves blocklist (or_rollback pg_pool tx msg m).
Proof.
  intros Hm. unfold or_rollback. apply preserves_try; [done|]. intros []; [apply preserves_ret|].
  apply preserves_bind; [apply preserves_ignore; by apply stmt_blocklist|intros; apply preserves_fail].
Qed.

Lemma AddEventTx_blocklist tx ev : preserves blocklist (EmailRepo_AddEventTx tx ev).
Proof. by apply stmt_blocklist. Qed.
Lemma EnqueueSendTx_blocklist tx j : preserves blocklist (Client_EnqueueSendTx tx j).
Proof. by apply stmt_blocklist. Qed.
Lemma Begin_blocklist : preserves blocklist (Begin pg_pool).
Proof. by apply stmt_blocklist. Qed.
Lemma Commit_blocklist tx : preserves blocklist (Commit pg_pool tx).
Proof. apply stmt_blocklist. intros s. apply writes_blocklist. Qed.

Lemma CreateQueued_blocklist e t a : preserves blocklist (CreateQueued (pg_writer (Some pg_pool)) e t a).
Proof.
  unfold CreateQueued. cbn [pg_writer spw_pool spw_rt].
  repeat (apply preserves_bind; [|intros ?]); try (intros w; reflexivity).
  - apply preserves_wrap, Begin_blocklist.
  - apply or_rollback_blocklist, CreateTx_blocklist.
  - apply or_rollback_blocklist, EnqueueSendTx_blocklist.
  - apply or_rollback_blocklist, AddEventTx_blocklist.
  - apply preserves_wrap, Commit_blocklist.
Qed.
Lemma CreateSuppressed_blocklist e now reason :
  preserves blocklist (CreateSuppressed (pg_writer (Some pg_pool)) e now reason).
Proof.
  unfold CreateSuppressed. cbn [pg_writer spw_pool spw_rt].
  repeat (apply preserves_bind; [|intros ?]); try (intros w; reflexivity).
  - apply preserves_wrap, Begin_blocklist.
  - apply or_rollback_blocklist, CreateTx_blocklist.
  - apply or_rollback_blocklist, AddEventTx_blocklist.
  - apply preserves_wrap, Commit_blocklist.
Qed.
End Blocklist.

(** ** Who may be mailed *)

Section Sendable.
Context `{GoStd}.

(** No suppression row and no opt-out of the template type. *)
Definition clear (w : Sys) (wsID ttID : uuid) (a : string) : Prop :=
  suppression_reason w wsID (CanonicalRecipientAddress a) = None /\
  opted_out w wsID ttID (CanonicalRecipientAddress a) = false.

(** The suppression tables have no row for the empty address. *)
Definition no_blank_rows (w : Sys) : Prop := forall wsID, suppression_reason w wsID "" = None.

(** What is true of every email the pipeline writes: its workspace is the one
    of the API key, it is queued only for a recipient that is not blocked,
    suppressed only for one that is, and copies nobody who is blocked. *)
Record sendable (types : uuid -> string -> TemplateType) (w : Sys) (auth : uuid) (e : Email) : Prop := {
  sd_scope : auth <> uuid_Nil -> em_WorkspaceID e = auth;
  sd_status : em_Status e = StatusQueued \/ em_Status e = StatusSuppressed;
  sd_to : CanonicalRecipientAddress (em_RecipientEmail e) <> "" ->
    em_Status e = StatusQueued <->
    clear w (em_WorkspaceID e) (tt_ID (types (em_WorkspaceID e) (em_TemplateTypeSlug e))) (em_RecipientEmail e);
  sd_copies a : a ∈ em_CC e ++ em_BCC e -> CanonicalRecipientAddress a <> "" ->
    clear w (em_WorkspaceID e) (tt_ID (types (em_WorkspaceID e) (em_TemplateTypeSlug e))) a;
}.

(** While a send runs, a slug resolves to one template type, in every locale. *)
Class StableTypes (s : SendService Sys) (types : uuid -> string -> TemplateType) : Prop := {
  types_resolved ws slug loc w r w' : templateResolver s ws slug loc w = (Ok r, w') ->
    rt_TemplateType r = types ws slug /\ tt_Slug (types ws slug) = slug;
}.

Lemma blocklist_clear w w' wsID ttID a : blocklist w = blocklist w' -> clear w wsID ttID a <-> clear w' wsID ttID a.
Proof.
  unfold blocklist, clear, suppression_reason, active_global, active_workspace, opted_out. by intros [= -> -> ->].
Qed.

Lemma blocklist_blank w w' : blocklist w = blocklist w' -> no_blank_rows w' -> no_blank_rows w.
Proof.
  unfold blocklist, no_blank_rows, suppression_reason, active_global, active_workspace. by intros [= -> -> _].
Qed.

Lemma blocked_clear w wsID ttID a :
  ~ blocked (suppression_table wsID w) (optout_set wsID ttID w) a <-> clear w wsID ttID a.
Proof.
  unfold blocked, clear. rewrite suppression_table_lookup, optout_set_spec.
  destruct (suppression_reason _ _ _), (opted_out _ _ _ _); naive_solver.
Qed.

Context (s : SendService Sys) `{!Wired s}.

(** *** The recipient loops *)

Lemma send_recipient_posting P tenant ws c st d w :
  (forall id tid, P (recipient_email tenant ws c (if dec_Suppressed d then StatusSuppressed else StatusQueued)
                       id tid (dec_Address d))) ->
  posting mailbox P (send_recipient s tenant ws c st d) w.
Proof.
  intros HP. unfold send_recipient.
  apply posting_after; [apply generateTrackingID_frame, _|]. intros tid w1 _.
  apply posting_after; [apply sr_NewV7|]. intros id w2 _. specialize (HP id tid). rewrite wired_writer.
  destruct (dec_Suppressed d); apply posting_try; try (intros []; apply preserves_ret); unfold posting;
    match goal with |- rtc _ _ (mailbox (?m w2).2) => destruct (m w2) as [r w3] eqn:E end; simpl.
  - apply (CreateSuppressed_posts P) in E as [[_ ->]|E]; [done|by apply rtc_once|done..].
  - apply (CreateQueued_posts P) in E as [[_ ->]|E]; [done|by apply rtc_once|done..].
Qed.

Lemma send_recipients_posting P tenant ws c to ds w :
  (forall d id tid, d ∈ ds -> P (recipient_email tenant ws c
     (if dec_Suppressed d then StatusSuppressed else StatusQueued) id tid (dec_Address d))) ->
  posting mailbox P (send_recipients s tenant ws c to ds) w.
Proof.
  intros HP. unfold send_recipients. apply posting_bind.
  - apply posting_for_fold. intros st d w' Hd. apply send_recipient_posting. eauto.
  - intros st w1 _. apply posting_preserves. preserves_tac.
Qed.

(** The decisions on a send, against the blocklists. *)
Definition decided_ok (w : Sys) (wsID ttID : uuid) (ev : SuppressionBatchEvaluation) : Prop :=
  (forall d, d ∈ sev_To ev -> CanonicalRecipientAddress (dec_Address d) <> "" ->
     dec_Suppressed d = false <-> clear w wsID ttID (dec_Address d)) /\
  (forall a, a ∈ sev_CC ev ++ sev_BCC ev -> CanonicalRecipientAddress a <> "" -> clear w wsID ttID a).

Lemma evaluation_decided w wsID ttID input ev :
  evaluation_ok (suppression_table wsID w) (optout_set wsID ttID w) input ev -> decided_ok w wsID ttID ev.
Proof.
  intros (_ & Hto & Hcopies). split.
  - intros d Hd Hne. rewrite <- blocked_clear, <- (Hto d Hd Hne). by destruct (dec_Suppressed d).
  - intros a Ha Hne. rewrite <- blocked_clear. destruct (Hcopies a Hne) as [Hc Hb].
    apply elem_of_app in Ha as [Ha|Ha]; tauto.
Qed.

Lemma Evaluate_decided w wsID ttID to cc bcc ev w' :
  no_blank_rows w ->
  EvaluateForType (suppression s) (templateTypeSubscriptionStore s) wsID ttID to cc bcc w = (Ok ev, w') ->
  decided_ok w wsID ttID ev.
Proof.
  intros Hb. rewrite wired_suppression, wired_optouts. intros E.
  eapply evaluation_decided, (EvaluateForType_ok _ _ _ _ (suppression_table wsID) (optout_set wsID ttID)); try apply _.
  - by rewrite suppression_table_lookup.
  - exact E.
Qed.

Lemma recipient_sendable types w auth tenant ws c (suppressed : bool) id tid address :
  (auth <> uuid_Nil -> ws_ID ws = auth) ->
  (CanonicalRecipientAddress address <> "" ->
     suppressed = false <-> clear w (ws_ID ws) (tt_ID (types (ws_ID ws) (ec_Slug c))) address) ->
  (forall a, a ∈ ec_CC c ++ ec_BCC c -> CanonicalRecipientAddress a <> "" ->
     clear w (ws_ID ws) (tt_ID (types (ws_ID ws) (ec_Slug c))) a) ->
  sendable types w auth (recipient_email tenant ws c (if suppressed then StatusSuppressed else StatusQueued) id tid address).
Proof.
  intros Hs Ht Hc. split; simpl; [done|destruct suppressed; auto| |done].
  intros Hne. rewrite <- Ht by done. by destruct suppressed.
Qed.

(** *** Resolving *)

Lemma resolve_scope_Ok auth ref w tenant ws w' :
  resolve_scope s auth ref w = (Ok (tenant, ws), w') ->
  (auth <> uuid_Nil -> ws_ID ws = auth) /\ ws_IsSystem ws = false.
Proof.
  unfold resolve_scope. unfold bind. repeat case_match; simplify_eq; try done. intros [= -> -> _].
  split; [|done]. intros Ha. by bools; destruct_or?; bools.
Qed.

Lemma send_contents_Ok types req slug tenant ws w c w' :
  StableTypes s types -> send_contents s req slug tenant ws w = (Ok c, w') ->
  ec_Slug c = slug /\ ec_Ref c = rq_Ref req /\ rt_TemplateType (ec_Resolved c) = types (ws_ID ws) slug.
Proof.
  intros Ht. unfold send_contents. unfold bind at 1.
  destruct (templateResolver s _ _ _ w) as [[resolved|] w1] eqn:E; [|done]. apply types_resolved in E as [E _].
  unfold bind. repeat case_match; simplify_eq; try done. intros [= <- _]. done.
Qed.

Lemma reads_blocklist {A} (m : M Sys A) w r w' : preserves blocklist m -> m w = (r, w') -> blocklist w' = blocklist w.
Proof. intros Hm E. specialize (Hm w). by rewrite E in Hm. Qed.

Lemma Send_posting types req w :
  StableTypes s types -> no_blank_rows w ->
  posting mailbox (sendable types w (rq_AuthWorkspaceID req)) (Send s req) w.
Proof.
  intros Ht Hb. unfold Send.
  apply posting_after; [apply preserves_lift|]. intros ref w1 [= _ <-].
  apply posting_after; [apply resolve_scope_frame, _|]. intros [tenant ws] w2 E2.
  pose proof (reads_blocklist _ _ _ _ (resolve_scope_frame s blocklist _ _) E2) as B2.
  apply resolve_scope_Ok in E2 as [Hscope _].
  apply posting_after; [apply send_contents_frame, _|]. intros c w3 E3.
  pose proof (reads_blocklist _ _ _ _ (send_contents_frame s blocklist _ _ _ _) E3) as B3.
  apply (send_contents_Ok types) in E3 as (Hslug & _ & Hty); [|done].
  apply posting_after; [apply preserves_lift|]. intros [ [to cc] bcc] w4 [= _ <-].
  apply posting_after; [apply EvaluateForType_frame, _|]. intros ev w5 E5.
  rewrite Hty, <- Hslug in E5.
  apply Evaluate_decided in E5 as [Hto Hcopies]; [|eapply blocklist_blank; [|exact Hb]; congruence].
  apply send_recipients_posting. intros d id tid Hd. apply recipient_sendable; [done| |]; simpl.
  - intros Hne. rewrite (Hto d Hd Hne). apply blocklist_clear. congruence.
  - intros a Ha Hne. eapply blocklist_clear; [|by apply Hcopies]. congruence.
Qed.
End Sendable.

(** C2: a send writes nothing it should not, whatever fails and wherever: every
    email row that appears belongs to the workspace of the API key, is queued
    only for a recipient with no suppression row and no opt-out of the template
    type and is suppressed only for one that has some, and copies nobody who is
    blocked; every job that appears is the job of such a queued row. *)
Theorem Send_clear `{GoStd} (s : SendService Sys) `{!Wired s} types `{!StableTypes s types} req w r w' :
  no_blank_rows w ->
  Send s req w = (r, w') ->
  new_rows (sendable types w (rq_AuthWorkspaceID req)) (mailbox w) (mailbox w').
Proof.
  intros Hb E. apply posts_new_rows. pose proof (Send_posting s types req w _ Hb) as Hp.
  unfold posting in Hp. by rewrite E in Hp.
Qed.

(** ** The response *)

(** What an entry of the response promises about the mailbox [m], when the send
    started on [m0]. *)
Definition accounted (m0 m : Mailbox) (t : TrackingEntry) : Prop :=
  te_Status t = "failed" \/
  exists e, mb_emails m0 !! em_ID e = None /\ mb_emails m !! em_ID e = Some e /\ em_TrackingID e = te_TrackingID t /\ em_RecipientEmail e = te_To t /\
    ((te_Status t = "accepted" /\ em_Status e = StatusQueued /\ AJobSend (job_of e) ∈ mb_log m) \/
     (te_Status t = "suppressed" /\ em_Status e = StatusSuppressed)).

Definition failures (entries : list TrackingEntry) : Z :=
  Z.of_nat (List.length (List.filter (fun t => bool_decide (te_Status t = "failed")) entries)).

Lemma failures_snoc entries t :
  failures (entries ++ [t]) = (failures entries + if bool_decide (te_Status t = "failed") then 1 else 0)%Z.
Proof. unfold failures. rewrite List.filter_app, List.length_app. simpl. case_bool_decide; simpl; lia. Qed.

Lemma failures_all entries :
  failures entries <> Z.of_nat (List.length entries) <-> exists t, t ∈ entries /\ te_Status t <> "failed".
Proof.
  unfold failures. induction entries as [|t l IH]; simpl; [set_solver|].
  case_bool_decide as Ht; simpl.
  - rewrite !Nat2Z.inj_succ. split.
    + intros Hn. destruct IH as [IH _]. destruct IH as (t' & Hin & Hne); [lia|]. set_solver.
    + intros (t' & [->|Hin]%elem_of_cons & Hne); [done|]. destruct IH as [_ IH].
      assert (Hl : Z.of_nat (List.length (List.filter (fun t => bool_decide (te_Status t = "failed")) l)) <> Z.of_nat (List.length l)) by (apply IH; eauto). lia.
  - split; [intros _; set_solver|]. intros _. pose proof (List.filter_length_le (fun t => bool_decide (te_Status t = "failed")) l).
    lia.
Qed.

Lemma failures_none entries : failures entries = 0%Z <-> forall t, t ∈ entries -> te_Status t <> "failed".
Proof.
  unfold failures. induction entries as [|t l IH]; simpl; [set_solver|].
  case_bool_decide as Ht; simpl; [split; [lia|set_solver]|]. rewrite IH. set_solver.
Qed.

Section Response.
Context `{GoStd}.

Lemma accounted_posts P m0 m m' t : rtc (post P) m m' -> accounted m0 m t -> accounted m0 m' t.
Proof.
  intros Hr [?|(e & Hn & He & Htid & Hto & Hs)]; [by left|right]. exists e.
  split; [done|]. split; [by eapply post_rows|]. split_and!; [done..|].
  destruct Hs as [(? & ? & Hj)|?]; [left; split_and!; [done..|by eapply post_log]|by right].
Qed.

(** The row of the one email a post wrote. *)
Lemma post_row e m m' :
  post (eq e) m m' ->
  exists row, mb_emails m !! em_ID row = None /\ mb_emails m' !! em_ID row = Some row /\ em_TrackingID row = em_TrackingID e /\
    em_RecipientEmail row = em_RecipientEmail e /\ em_Status row = em_Status e /\
    (em_Status e = StatusQueued -> AJobSend (job_of row) ∈ mb_log m').
Proof.
  intros [x now created paid ev jobs <- Hn -> _ Hj]. exists (email_row now e). simpl.
  split_and!; [exact Hn|by apply lookup_insert_eq|done..|]. intros Hs.
  destruct Hj as [(_ & _ & ->)|(Hs' & _)]; [set_solver|congruence].
Qed.

Context (s : SendService Sys) `{!Wired s}.

(** The rows that are new to a later mailbox are new to the first. *)
Lemma posts_new P m m' i : rtc (post P) m m' -> mb_emails m' !! i = None -> mb_emails m !! i = None.
Proof.
  intros Hr Hn. destruct (mb_emails m !! i) as [e|] eqn:E; [|done]. by rewrite (post_rows _ _ _ _ _ Hr E) in Hn.
Qed.

(** The recipient loop, after the decisions [ds], started on the mailbox [m0]. *)
Context (m0 : Mailbox).
Definition loop_ok (ds : list SuppressionRecipientDecision) (st : SendLoop) (w : Sys) : Prop :=
  rtc (post (fun _ => True)) m0 (mailbox w) /\
  te_To <$> sl_entries st = dec_Address <$> ds /\ Forall (accounted m0 (mailbox w)) (sl_entries st) /\
  sl_failCount st = failures (sl_entries st).

Lemma loop_ok_snoc ds st w w' d t n err :
  loop_ok ds st w -> rtc (post (fun _ => True)) (mailbox w) (mailbox w') ->
  te_To t = dec_Address d -> accounted m0 (mailbox w') t ->
  n = (sl_failCount st + if bool_decide (te_Status t = "failed") then 1 else 0)%Z ->
  loop_ok (ds ++ [d]) (mkSendLoop (sl_entries st ++ [t]) n err) w'.
Proof.
  intros (H0 & Ht & Hf & Hn) Hr Htt Ha ->. split; [by etrans|]. split; simpl; [by rewrite !fmap_app, Ht; simpl; rewrite Htt|].
  split; [|by rewrite failures_snoc, Hn]. apply Forall_app. split; [|by constructor].
  eapply Forall_impl; [exact Hf|]. intros x Hx. by eapply accounted_posts.
Qed.

Lemma send_recipient_loop tenant ws c ds d st w st' w' :
  loop_ok ds st w -> send_recipient s tenant ws c st d w = (Ok st', w') -> loop_ok (ds ++ [d]) st' w'.
Proof.
  intros Hl. unfold send_recipient, bind.
  pose proof (generateTrackingID_frame s mailbox w) as F1.
  destruct (generateTrackingID s w) as [[tid|] w1]; [|done]. simpl in F1.
  pose proof (sr_NewV7 (s := s) (v := mailbox) w1) as F2.
  destruct (NewV7 (rt s) w1) as [[id|] w2]; [|done]. simpl in F2. rewrite wired_writer.
  assert (F : mailbox w2 = mailbox w) by congruence.
  destruct (dec_Suppressed d); unfold try;
    match goal with
    | |- context [CreateSuppressed ?a ?b ?c ?d w2] => destruct (CreateSuppressed a b c d w2) as [r w3] eqn:E
    | |- context [CreateQueued ?a ?b ?c ?d w2] => destruct (CreateQueued a b c d w2) as [r w3] eqn:E
    end; unfold ret.
  - apply (CreateSuppressed_posts (eq (recipient_email tenant ws c StatusSuppressed id tid (dec_Address d)))) in E;
      [|done..]. unfold posts in E. rewrite F in E. destruct E as [[Hr Em]|Hp].
    + destruct r as [|e]; [done|]. intros [= <- <-].
      eapply loop_ok_snoc; [exact Hl|by rewrite Em|done|by left|done].
    + pose proof (rtc_once _ _ (post_weaken _ (fun _ => True) _ _ (fun _ _ => I) Hp)) as Hp'.
      apply post_row in Hp as (row & Hnew & Hrow & Htid & Hto & Hs & _). destruct r as [[]|e]; intros [= <- <-];
        (eapply loop_ok_snoc; [exact Hl|exact Hp'|done| |first [done|rewrite bool_decide_eq_false_2 by done; simpl; lia] ]); [right; exists row; simpl; pose proof (posts_new _ _ _ _ (proj1 Hl) Hnew); auto 10|by left].
  - apply (CreateQueued_posts (eq (recipient_email tenant ws c StatusQueued id tid (dec_Address d)))) in E;
      [|done..]. unfold posts in E. rewrite F in E. destruct E as [[Hr Em]|Hp].
    + destruct r as [|e]; [done|]. intros [= <- <-].
      eapply loop_ok_snoc; [exact Hl|by rewrite Em|done|by left|done].
    + pose proof (rtc_once _ _ (post_weaken _ (fun _ => True) _ _ (fun _ _ => I) Hp)) as Hp'.
      apply post_row in Hp as (row & Hnew & Hrow & Htid & Hto & Hs & Hj). destruct r as [[]|e]; intros [= <- <-];
        (eapply loop_ok_snoc; [exact Hl|exact Hp'|done| |first [done|rewrite bool_decide_eq_false_2 by done; simpl; lia] ]); [right; exists row; simpl; pose proof (posts_new _ _ _ _ (proj1 Hl) Hnew); auto 10|by left].
Qed.

Lemma send_recipients_response tenant ws c to ds w resp w' :
  m0 = mailbox w -> List.length to = List.length ds ->
  send_recipients s tenant ws c to ds w = (Ok resp, w') ->
  te_To <$> rs_TrackingIDs resp = dec_Address <$> ds /\ Forall (accounted m0 (mailbox w')) (rs_TrackingIDs resp) /\
  (exists t, t ∈ rs_TrackingIDs resp /\ te_Status t <> "failed") /\
  rs_Status resp = (if bool_decide (failures (rs_TrackingIDs resp) = 0%Z) then "accepted" else "partial").
Proof.
  intros Hm0 Hlen. unfold send_recipients, bind.
  destruct (for_fold ds _ _ w) as [[st|] w1] eqn:E; [|done].
  pose proof (for_fold_rule loop_ok (fun _ => True) ds (mkSendLoop [] 0 None) (send_recipient s tenant ws c) w) as Hr.
  rewrite E in Hr. destruct Hr as (_ & Hto & Hf & Hn); [unfold loop_ok; rewrite Hm0; by split_and!| |].
  { intros l1 d l2 st0 w0 _ Hl. destruct (send_recipient s tenant ws c st0 d w0) as [[st1|] w2] eqn:Es; [|done].
    by eapply send_recipient_loop. }
  case_bool_decide as Hall; [done|]. unfold ret. intros [= <- <-]. simpl.
  assert (Hl : List.length (sl_entries st) = List.length ds)
    by (apply (f_equal List.length) in Hto; by rewrite !length_fmap in Hto).
  split_and!; [done|done| |].
  - apply failures_all. rewrite Hl, <- Hlen, <- Hn. done.
  - rewrite <- Hn. assert (0 <= sl_failCount st)%Z by (rewrite Hn; unfold failures; lia).
    case_bool_decide; destruct (0 <? sl_failCount st)%Z eqn:Ez; rewrite ?Z.ltb_lt, ?Z.ltb_ge in Ez; lia || done.
Qed.
End Response.

(** The effective recipients of a send, and the copies, as its run from [w]
    computes them: the workspace and the tenant of the reference, the contents
    of the template there, then the workspace's and the type's policy for test
    recipients on the request's addresses. *)
Definition effective_recipients `{GoStd} (s : SendService Sys) (req : SendRequest) (w : Sys) (to cc bcc : list string) : Prop :=
  exists ref tenant ws c w1 w2,
    ParseRef (rq_Ref req) = Ok ref /\
    resolve_scope s (rq_AuthWorkspaceID req) ref w = (Ok (tenant, ws), w1) /\
    send_contents s req (ref_TemplateType ref) tenant ws w1 = (Ok c, w2) /\
    applyTestRecipientPolicy (Some ws) (Some (rt_TemplateType (ec_Resolved c))) (rq_To req) (rq_CC req) (rq_BCC req)
      = Ok (to, cc, bcc).

(** C34: the response of a send is what happened: one entry per effective
    recipient of this run, in order: the request's addresses after the policy
    for test recipients of the workspace and the template type the run resolved;
    an accepted entry has a queued row that this send added, under its tracking
    id and address, and the job of that row, a suppressed one such a suppressed
    row; the status is accepted when no entry failed and partial otherwise, and a
    send whose recipients all failed has no response at all. *)
Theorem Send_response `{GoStd} (s : SendService Sys) `{!Wired s} req w resp w' :
  no_blank_rows w ->
  Send s req w = (Ok resp, w') ->
  (exists cc bcc, effective_recipients s req w (te_To <$> rs_TrackingIDs resp) cc bcc) /\
  Forall (accounted (mailbox w) (mailbox w')) (rs_TrackingIDs resp) /\
  (exists t, t ∈ rs_TrackingIDs resp /\ te_Status t <> "failed") /\
  (rs_Status resp = "accepted" <-> forall t, t ∈ rs_TrackingIDs resp -> te_Status t <> "failed").
Proof.
  intros Hb. unfold Send. unfold bind at 1, lift_res. destruct (ParseRef (rq_Ref req)) as [ref|] eqn:E1; [|done].
  unfold bind at 1. destruct (resolve_scope s _ ref w) as [ [[tenant ws]|] w2] eqn:E2; [|done].
  pose proof (reads_blocklist _ _ _ _ (resolve_scope_frame s blocklist _ _) E2) as B2.
  pose proof (resolve_scope_frame s mailbox (rq_AuthWorkspaceID req) ref w) as M2. rewrite E2 in M2.
  unfold bind at 1. destruct (send_contents s req _ tenant ws w2) as [[c|] w3] eqn:E3; [|done].
  pose proof (reads_blocklist _ _ _ _ (send_contents_frame s blocklist _ _ _ _) E3) as B3.
  pose proof (send_contents_frame s mailbox req (ref_TemplateType ref) tenant ws w2) as M3. rewrite E3 in M3.
  unfold bind at 1. destruct (applyTestRecipientPolicy _ _ _ _ _) as [ [[to cc] bcc]|] eqn:Ep; [|done].
  unfold bind at 1. destruct (EvaluateForType _ _ _ _ _ _ _ w3) as [[ev|] w5] eqn:E5; [|done].
  pose proof (EvaluateForType_frame s mailbox (ws_ID ws) (tt_ID (rt_TemplateType (ec_Resolved c))) to cc bcc w3) as M5.
  rewrite E5 in M5. rewrite wired_suppression, wired_optouts in E5.
  apply (EvaluateForType_ok _ _ _ _ (suppression_table (ws_ID ws))
           (optout_set (ws_ID ws) (tt_ID (rt_TemplateType (ec_Resolved c))))) in E5 as [Hto _];
    [|apply _|apply _|rewrite suppression_table_lookup; eapply blocklist_blank; [|exact Hb]; congruence].
  simpl in Hto, M2, M3, M5. intros E6.
  apply (send_recipients_response s (mailbox w)) in E6 as (Hent & Hf & Hne & Hst); [|congruence|].
  2: { apply (f_equal List.length) in Hto. by rewrite length_fmap in Hto. }
  split_and!; [|done|done|].
  - exists cc, bcc, ref, tenant, ws, c, w2, w3. split_and!; [done..|]. by rewrite Hent, Hto.
  - rewrite <- failures_none, Hst. by case_bool_decide.
Qed.
