(* ===== verification/BatchSafety.v ===== *)
(** * What a batch guarantees

    A batch evaluates all its recipients up front and posts each item through the
    same outbox as a single send; its response counts what happened. *)
From stdpp Require Import base gmap strings list.
From Stdlib Require Import ZArith String Lia.
From S2P Require Import Prelude GoMonad Domain Ports Token Suppression Postgres Resolution Injectors.
From S2P Require Import Render Access Outbox Send SendSafety.

(** ** The statuses of a batch *)

Section Statuses.
Context `{GoStd} (table : gmap string string) (optouts : gset string).

(** Every status recorded for an address is right. *)
Definition right_statuses (m : Statuses) : Prop :=
  forall a st, CanonicalRecipientAddress a <> "" -> m !! a = Some st ->
    st_Suppressed st = true <-> blocked table optouts a.

Lemma right_insert m a st :
  right_statuses m -> (CanonicalRecipientAddress a <> "" -> st_Suppressed st = true <-> blocked table optouts a) ->
  right_statuses (<[a := st]> m).
Proof. intros Hm Ha b st' Hne [[<- <-]|[_ Hl] ]%lookup_insert_Some; eauto. Qed.

Lemma blocked_dec a : blocked table optouts a \/ ~ blocked table optouts a.
Proof. unfold blocked. destruct (decide (is_Some (table !! CanonicalRecipientAddress a) \/
  CanonicalRecipientAddress a ∈ optouts)); auto. Qed.

(** One step of the flattening: it stays right and covers its address. *)
Lemma to_status_step m d :
  right_statuses m ->
  (CanonicalRecipientAddress (dec_Address d) <> "" -> dec_Suppressed d = true <-> blocked table optouts (dec_Address d)) ->
  right_statuses (to_status m d) /\ dom (to_status m d) = {[dec_Address d]} ∪ dom m.
Proof. intros Hm Hd. split; [by apply right_insert|apply dom_insert_L]. Qed.

Lemma copy_status_step kept m a :
  right_statuses m ->
  (CanonicalRecipientAddress a <> "" -> a ∈ kept <-> ~ blocked table optouts a) ->
  right_statuses (copy_status kept m a) /\ dom (copy_status kept m a) = {[a]} ∪ dom m.
Proof.
  intros Hm Hk. unfold copy_status. repeat case_bool_decide.
  - split; [done|]. apply elem_of_dom in H1. set_solver.
  - split; [|apply dom_insert_L]. apply right_insert; [done|]. simpl. naive_solver.
  - split; [|apply dom_insert_L]. apply right_insert; [done|]. simpl. intros Hne.
    split; [|done]. intros _. destruct (blocked_dec a); [done|]. naive_solver.
Qed.

Lemma fold_steps {A} (f : Statuses -> A -> Statuses) (g : A -> string) (l : list A) m :
  right_statuses m ->
  (forall m x, x ∈ l -> right_statuses m -> right_statuses (f m x) /\ dom (f m x) = {[g x]} ∪ dom m) ->
  right_statuses (foldl f m l) /\ dom (foldl f m l) = list_to_set (g <$> l) ∪ dom m.
Proof.
  revert m. induction l as [|x l IH]; intros m Hm Hf; simpl; [split; [done|set_solver]|].
  destruct (Hf m x) as [Hm1 Hd1]; [set_solver|done|].
  destruct (IH (f m x) Hm1) as [Hm2 Hd2]; [intros; apply Hf; [set_solver|done]|].
  split; [done|]. rewrite Hd2, Hd1. set_solver.
Qed.

Lemma flatten_to results inputs m :
  Forall2 (evaluation_ok table optouts) inputs results -> right_statuses m ->
  let m' := foldl (fun m ev => foldl to_status m (sev_To ev)) m results in
  right_statuses m' /\ dom m ⊆ dom m' /\ forall input a, input ∈ inputs -> a ∈ sin_To input -> a ∈ dom m'.
Proof.
  intros Hf. revert m. induction Hf as [|input ev inputs results (Hto & Hd & _) _ IH]; intros m Hm; simpl.
  { split; [done|]. set_solver. }
  destruct (fold_steps to_status dec_Address (sev_To ev) m Hm) as [Hm1 Hd1].
  { intros m0 d Hin Hm0. apply to_status_step; auto. }
  rewrite Hto in Hd1. destruct (IH _ Hm1) as (Hm2 & Hsub & Hin). split; [done|]. split; [set_solver|].
  intros i a [->|Hi]%elem_of_cons Ha; [|eauto]. apply Hsub. rewrite Hd1. set_solver.
Qed.

Lemma flatten_copies results inputs m :
  Forall2 (evaluation_ok table optouts) inputs results -> right_statuses m ->
  let m' := foldl (fun m p => foldl (copy_status (sev_BCC p.2)) (foldl (copy_status (sev_CC p.2)) m (sin_CC p.1))
                                (sin_BCC p.1)) m (zip inputs results) in
  right_statuses m' /\ dom m ⊆ dom m' /\
  forall input a, input ∈ inputs -> a ∈ sin_CC input ++ sin_BCC input -> a ∈ dom m'.
Proof.
  intros Hf. revert m. induction Hf as [|input ev inputs results (_ & _ & Hc) _ IH]; intros m Hm; simpl.
  { split; [done|]. set_solver. }
  destruct (fold_steps (copy_status (sev_CC ev)) id (sin_CC input) m Hm) as [Hm1 Hd1].
  { intros m0 a Hin Hm0. apply copy_status_step; [done|]. intros Hne. destruct (Hc a Hne) as [E _]. tauto. }
  destruct (fold_steps (copy_status (sev_BCC ev)) id (sin_BCC input) _ Hm1) as [Hm2 Hd2].
  { intros m0 a Hin Hm0. apply copy_status_step; [done|]. intros Hne. destruct (Hc a Hne) as [_ E]. tauto. }
  destruct (IH _ Hm2) as (Hm3 & Hsub & Hin). rewrite list_fmap_id in Hd1, Hd2.
  split; [done|]. split; [set_solver|].
  intros i a [->|Hi]%elem_of_cons Ha; [|eauto]. apply Hsub. rewrite Hd2, Hd1. set_solver.
Qed.

(** Every address of the batch has its status, and it is right. *)
Lemma flatten_statuses_right inputs results :
  Forall2 (evaluation_ok table optouts) inputs results ->
  forall input a, input ∈ inputs -> addressed input a -> CanonicalRecipientAddress a <> "" ->
    st_Suppressed (status_at (flatten_statuses inputs results) a) = true <-> blocked table optouts a.
Proof.
  intros Hf input a Hi Ha Hne. unfold flatten_statuses.
  destruct (flatten_to results inputs ∅ Hf) as (Hm1 & _ & Hd1); [by intros ? ? ? Hl|].
  destruct (flatten_copies results inputs _ Hf Hm1) as (Hm2 & Hsub & Hd2). cbv zeta in *.
  match goal with |- context [status_at ?m a] => set (statuses := m) in * end.
  assert (Hin : a ∈ dom statuses).
  { destruct Ha as [Ha|[Ha|Ha] ]; [apply Hsub; eauto|apply (Hd2 input); set_solver..]. }
  apply elem_of_dom in Hin as [st Hst]. unfold status_at. rewrite Hst. simpl. by apply Hm2.
Qed.
End Statuses.

(** ** The items *)

Lemma posting_with_memory {W S A} (v : W -> Mailbox) P (init : S) (m : M (W * S) A) w :
  posting (on_world v) P m (w, init) -> posting v P (with_memory init m) w.
Proof. unfold posting, with_memory, on_world. simpl. by destruct (m (w, init)) as [r [w' st] ]. Qed.

(** The loop rule with an invariant of the memory. *)
Lemma posting_loop {W A S} (v : W -> Mailbox) P (I : W -> Prop) (l : list A) (st : S) (body : S -> A -> M W S) w :
  I w ->
  (forall st x w, x ∈ l -> I w -> posting v P (body st x) w /\ I (body st x w).2) ->
  posting v P (for_fold l st body) w.
Proof.
  revert st w. induction l as [|x l IH]; intros st w Hi Hb; simpl; [by apply posting_preserves, preserves_ret|].
  destruct (Hb st x w) as [Hp Hi']; [set_solver|done|].
  apply posting_bind; [done|]. intros st' w1 E. rewrite E in Hi'. apply IH; [done|].
  intros. apply Hb; [set_solver|done].
Qed.

Lemma preserves_memory_up {W S A} (m : M W A) : preserves (fun x : W * S => x.2) (up m).
Proof. intros [w st]. unfold up. simpl. by destruct (m w). Qed.
#[export] Hint Resolve preserves_memory_up : senda.

Section Items.
Context `{GoStd} (s : SendService Sys) `{!Wired s} types `{!StableTypes s types}.

(** Every cached template has the type of the batch. *)
Definition cache_ok (shared : ResolvedSendContext) (cache : TemplateCache) : Prop :=
  forall key r, cache !! key = Some r -> rt_TemplateType r = sh_TemplateType shared.

(** The type of the batch is the one its slug resolves to. *)
Definition typed (shared : ResolvedSendContext) : Prop :=
  sh_TemplateType shared = types (ws_ID (sh_Workspace shared)) (tt_Slug (sh_TemplateType shared)).

Lemma resolveSendBatchContext_Ok req w shared cache w' :
  resolveSendBatchContext s req w = (Ok (shared, cache), w') ->
  (br_AuthWorkspaceID req <> uuid_Nil -> ws_ID (sh_Workspace shared) = br_AuthWorkspaceID req) /\
  typed shared /\ cache_ok shared cache.
Proof.
  unfold resolveSendBatchContext, resolveStableSendContext. unfold bind at 1, lift_res.
  destruct (ParseRef (br_Ref req)) as [ref|]; [|done]. unfold bind at 1 2.
  destruct (resolve_scope s _ ref w) as [ [ [tenant ws]|] w1] eqn:E1; [|done].
  apply resolve_scope_Ok in E1 as [Hs _]. unfold bind at 1.
  destruct (templateResolver s _ _ _ w1) as [[resolved|] w2] eqn:E2; [|done].
  apply types_resolved in E2 as [Ety Hslug]. unfold bind.
  destruct (resolve_sender s ws resolved w2) as [[sender|] w3]; [|done]. unfold ret. intros [= <- <- _]. simpl.
  split; [done|]. split; [unfold typed; simpl; by rewrite Ety, Hslug|].
  intros key r. case_bool_decide; rewrite ?lookup_insert_Some, ?lookup_singleton_Some; naive_solver.
Qed.

Lemma templateForLocale_ok shared loc x r x' :
  typed shared -> cache_ok shared x.2 -> templateForLocale s shared loc x = (r, x') ->
  cache_ok shared x'.2 /\ forall t, r = Ok t -> rt_TemplateType t = sh_TemplateType shared.
Proof.
  intros Hty Hc. unfold templateForLocale, get_state. unfold bind at 1.
  destruct (x.2 !! _) as [resolved|] eqn:El.
  { intros [= <- <-]. split; [done|]. intros t [= <-]. eauto. }
  destruct x as [w cache]. unfold bind, up. simpl.
  destruct (templateResolver s _ _ _ w) as [[resolved|] w2] eqn:E2; [|by intros [= <- <-] ].
  apply types_resolved in E2 as [Ety _]. unfold set_state. intros [= <- <-]. simpl.
  assert (Ht : rt_TemplateType resolved = sh_TemplateType shared) by by rewrite Ety, <- Hty.
  split; [|by intros t [= <-] ]. intros key t [[_ <-]|[_ Hl] ]%lookup_insert_Some; [done|by eapply Hc].
Qed.

Lemma rest_memory {A} (m : M (Sys * TemplateCache) A) x r x' :
  preserves (fun x => x.2) m -> m x = (r, x') -> x'.2 = x.2.
Proof. intros Hm E. specialize (Hm x). by rewrite E in Hm. Qed.

(** An item's execution: its recipients are the primed ones, its copies the
    primed ones that are not suppressed. *)
Definition prepared (shared : ResolvedSendContext) (statuses : Statuses) (item : SendBatchItemRequest)
    (px : sendPlanExecution) : Prop :=
  exists input, item_input shared item = Ok input /\ px_effectiveTo px = sin_To input /\
    ec_CC (px_contents px) = filterSuppressedWithStatuses (sin_CC input) statuses /\
    ec_BCC (px_contents px) = filterSuppressedWithStatuses (sin_BCC input) statuses /\
    ec_Slug (px_contents px) = tt_Slug (sh_TemplateType shared) /\
    ec_AdapterID (px_contents px) = ad_ID (sh_Adapter shared).

Lemma prepare_ok shared statuses item x r x' :
  typed shared -> cache_ok shared x.2 -> prepareSendPlanExecution s shared statuses item x = (r, x') ->
  cache_ok shared x'.2 /\ forall px, r = Ok px -> prepared shared statuses item px.
Proof.
  intros Hty Hc. unfold prepareSendPlanExecution, resolveSendPlanTemplate. unfold bind at 1 2.
  destruct (templateForLocale s shared _ x) as [t x1] eqn:E1.
  apply templateForLocale_ok in E1 as [Hc1 Ht]; [|done..].
  destruct t as [t|]; [|intros [= <- <-]; by split]. specialize (Ht t eq_refl).
  match goal with |- context [bind ?m ?k x1] => set (inner := bind m k) end.
  assert (Hin : forall y, inner x1 = (Ok y, (inner x1).2) -> y.1.1.1 = t).
  { intros y. subst inner. unfold bind. repeat case_match; try done. unfold ret. intros [= <-]. done. }
  assert (Hmem : preserves (fun x => x.2) inner) by (subst inner; preserves_tac).
  destruct (inner x1) as [ [ [ [ [t' inj] subject] fromName]|e] x2] eqn:E2; simpl in Hin;
    apply (rest_memory inner _ _ _ Hmem) in E2; [|intros [= <- <-]; split; [by rewrite E2|done] ].
  specialize (Hin _ eq_refl). simpl in Hin. subst t'. rewrite Ht.
  unfold bind, lift_res.
  destruct (applyTestRecipientPolicy _ _ _ _ _) as [ [ [to cc] bcc]|e] eqn:Ep;
    [|intros [= <- <-]; split; [by rewrite E2|done] ].
  destruct (up (Now (rt s)) x2) as [[now|] x3] eqn:E3; apply (rest_memory _ _ _ _ (preserves_memory_up _)) in E3;
    unfold ret; intros [= <- <-]; (split; [by rewrite E3, E2|]); [|done].
  intros px [= <-]. exists (mkInput to cc bcc). unfold item_input. by rewrite Ep.
Qed.

Lemma plan_recipient_posting P shared statuses c outcome a w :
  ec_AdapterID c = ad_ID (sh_Adapter shared) ->
  (forall id tid, P (recipient_email (sh_Tenant shared) (sh_Workspace shared) c
     (if st_Suppressed (status_at statuses a) then StatusSuppressed else StatusQueued) id tid a)) ->
  posting mailbox P (plan_recipient s shared statuses c outcome a) w.
Proof.
  intros Had HP. unfold plan_recipient.
  apply posting_after; [apply generateTrackingID_frame, _|]. intros tid w1 _.
  apply posting_after; [apply sr_NewV7|]. intros id w2 _. specialize (HP id tid). rewrite wired_writer, <- Had.
  destruct (st_Suppressed _); apply posting_try; try (intros []; apply preserves_ret); unfold posting;
    match goal with |- rtc _ _ (mailbox (?m w2).2) => destruct (m w2) as [r w3] eqn:E end; simpl.
  - apply (CreateSuppressed_posts P) in E as [[_ ->]|E]; [done|by apply rtc_once|done..].
  - apply (CreateQueued_posts P) in E as [[_ ->]|E]; [done|by apply rtc_once|done..].
Qed.

(** The statuses of a batch are those of the blocklists. *)
Definition primed (w : Sys) (shared : ResolvedSendContext) (statuses : Statuses) (items : list SendBatchItemRequest)
  : Prop :=
  forall item input a, item ∈ items -> item_input shared item = Ok input -> addressed input a ->
    CanonicalRecipientAddress a <> "" ->
    st_Suppressed (status_at statuses a) = false <->
    clear w (ws_ID (sh_Workspace shared)) (tt_ID (sh_TemplateType shared)) a.

Lemma filter_clear w shared statuses items item input a l :
  primed w shared statuses items -> item ∈ items -> item_input shared item = Ok input ->
  (forall a, a ∈ l -> addressed input a) -> a ∈ filterSuppressedWithStatuses l statuses ->
  CanonicalRecipientAddress a <> "" -> clear w (ws_ID (sh_Workspace shared)) (tt_ID (sh_TemplateType shared)) a.
Proof.
  intros Hp Hi Hin Hl Ha Hne. unfold filterSuppressedWithStatuses in Ha.
  apply elem_of_filter_b in Ha as [Ha Hs]. bools. by eapply Hp; eauto.
Qed.

Lemma executeSendPlan_posting w0 auth shared statuses items plan x :
  typed shared -> (auth <> uuid_Nil -> ws_ID (sh_Workspace shared) = auth) ->
  primed w0 shared statuses items -> pn_Item plan ∈ items -> cache_ok shared x.2 ->
  posting (on_world mailbox) (sendable types w0 auth) (executeSendPlan s shared statuses plan) x /\
  cache_ok shared (executeSendPlan s shared statuses plan x).2.2.
Proof.
  intros Hty Hauth Hp Hi Hc. unfold executeSendPlan.
  pose proof (prepareSendPlanExecution_frame s mailbox shared statuses (pn_Item plan) x) as F.
  unfold posting, try.
  destruct (prepareSendPlanExecution s shared statuses (pn_Item plan) x) as [r x1] eqn:E; simpl in F |- *.
  apply prepare_ok in E as [Hc1 Hpx]; [|done..].
  destruct r as [px|e]; simpl; [|by rewrite F]. specialize (Hpx px eq_refl).
  rewrite <- F. destruct Hpx as (input & Hin & Hto & Hcc & Hbcc & Hslug & Had).
  split; [|pose proof (preserves_memory_up (S:=TemplateCache) (processSendPlanRecipients s shared statuses px) x1) as Hm;
           unfold bind; destruct (up _ x1) as [[o|e] x2]; simpl in *; by rewrite Hm].
  apply (posting_bind (on_world mailbox)); [|intros; apply posting_preserves, preserves_ret].
  apply posting_up. unfold processSendPlanRecipients. apply posting_for_fold. intros st a w Ha.
  apply plan_recipient_posting; [done|]. intros id tid.
  rewrite Hto in Ha. unfold typed in Hty. apply recipient_sendable; [done| |]; rewrite Hslug, <- Hty.
  - intros Hne. apply (Hp _ _ _ Hi Hin); [by left|done].
  - rewrite Hcc, Hbcc. intros b [Hb|Hb]%elem_of_app Hne;
      (eapply filter_clear; [exact Hp|exact Hi|exact Hin| |exact Hb|exact Hne]); unfold addressed; auto.
Qed.

Lemma item_inputs_Ok shared items w inputs w' :
  for_fold (W := Sys) items [] (fun inputs item => let! input := lift_res (item_input shared item) in
                                        ret (inputs ++ [input] : list SuppressionBatchInput)) w = (Ok inputs, w') ->
  w' = w /\ Forall2 (fun item input => item_input shared item = Ok input) items inputs.
Proof.
  intros E. pose proof (for_fold_rule (W := Sys)
    (fun l1 inputs w1 => w1 = w /\ Forall2 (fun item input => item_input shared item = Ok input) l1 inputs) (fun _ => True)
    items [] (fun inputs item => let! input := lift_res (item_input shared item) in ret (inputs ++ [input])) w) as Hr.
  rewrite E in Hr. apply Hr; [by split; [|constructor]|].
  intros l1 item l2 st w1 _ [-> Hf]. unfold bind, lift_res. destruct (item_input shared item) eqn:Ei; [|done].
  split; [done|]. apply Forall2_app; [done|by repeat constructor].
Qed.

Lemma prime_ok shared items w statuses w' :
  no_blank_rows w -> primeSendBatchSuppressionStatuses s shared items w = (Ok statuses, w') ->
  primed w shared statuses items.
Proof.
  intros Hb. unfold primeSendBatchSuppressionStatuses. unfold bind at 1.
  destruct (for_fold _ _ _ w) as [[inputs|] w1] eqn:E1; [|done]. apply item_inputs_Ok in E1 as [-> Hf].
  unfold bind. rewrite wired_suppression, wired_optouts.
  destruct (EvaluateManyForType _ _ _ _ inputs w) as [[results|] w2] eqn:E2; [|done]. unfold ret. intros [= <- _].
  apply (EvaluateManyForType_ok _ _ _ _ (suppression_table (ws_ID (sh_Workspace shared)))
          (optout_set (ws_ID (sh_Workspace shared)) (tt_ID (sh_TemplateType shared)))) in E2;
    [|apply _|apply _|by rewrite suppression_table_lookup].
  intros item input a Hi Hin Ha Hne. rewrite <- blocked_clear.
  assert (Hinput : input ∈ inputs).
  { apply list_elem_of_lookup in Hi as [i Hi]. destruct (Forall2_lookup_l _ _ _ _ _ Hf Hi) as (input' & Hl & He).
    rewrite Hin in He. simplify_eq. by eapply list_elem_of_lookup_2. }
  rewrite <- (flatten_statuses_right _ _ _ _ E2 _ _ Hinput Ha Hne). by destruct (st_Suppressed _).
Qed.

Lemma SendBatch_posting req w :
  no_blank_rows w -> posting mailbox (sendable types w (br_AuthWorkspaceID req)) (SendBatch s req) w.
Proof.
  intros Hb. unfold SendBatch.
  apply posting_after; [apply resolveSendBatchContext_frame, _|]. intros [shared cache] w1 E1.
  pose proof (reads_blocklist _ _ _ _ (resolveSendBatchContext_frame s blocklist _) E1) as B1.
  apply resolveSendBatchContext_Ok in E1 as (Hauth & Hty & Hc). simpl.
  apply posting_after; [apply prime_frame, _|]. intros statuses w2 E2.
  apply prime_ok in E2; [|by eapply blocklist_blank].
  apply posting_bind; [|intros; apply posting_preserves, preserves_ret].
  apply posting_with_memory. unfold send_items. apply (posting_loop _ _ (fun x => cache_ok shared x.2)); [done|].
  intros st plan x Hpl Hx.
  assert (Hi : pn_Item plan ∈ br_Items req).
  { apply list_elem_of_lookup in Hpl as [i Hpl]. rewrite list_lookup_imap in Hpl.
    destruct (br_Items req !! i) eqn:El; simplify_eq/=. by eapply list_elem_of_lookup_2. }
  assert (Hp : primed w shared statuses (br_Items req)).
  { intros item input a H1 H2 H3 H4. rewrite (E2 item input a H1 H2 H3 H4). by apply blocklist_clear. }
  destruct (executeSendPlan_posting w (br_AuthWorkspaceID req) shared statuses (br_Items req) plan x) as [P1 P2];
    [done..|].
  split; [apply posting_bind; [done|intros; apply posting_preserves, preserves_ret]|].
  unfold bind. by destruct (executeSendPlan s shared statuses plan x) as [[?|] ?].
Qed.
End Items.

(** C3: a batch is as careful as a single send, although it evaluates all its
    recipients up front and keeps one address-keyed table of statuses: whatever
    fails and wherever, every row that appears belongs to the workspace of the
    API key, is queued only for a recipient that is not blocked, suppressed only
    for one that is, and copies nobody who is blocked; every job that appears is
    the job of such a queued row. *)
Theorem SendBatch_clear `{GoStd} (s : SendService Sys) `{!Wired s} types `{!StableTypes s types} req w r w' :
  no_blank_rows w ->
  SendBatch s req w = (r, w') ->
  new_rows (sendable types w (br_AuthWorkspaceID req)) (mailbox w) (mailbox w').
Proof.
  intros Hb E. apply posts_new_rows. pose proof (SendBatch_posting s types req w Hb) as Hp.
  unfold posting in Hp. by rewrite E in Hp.
Qed.

(** C4: the outbox is atomic: after a send or a batch, whatever statement failed
    or lost its reply, every queued email still has exactly one job for it, with
    its tracking id and its adapter, and its payload; no job is without its
    email. *)
Theorem Send_outbox `{GoStd} (s : SendService Sys) `{!Wired s} types `{!StableTypes s types} req breq w :
  no_blank_rows w -> outbox (mailbox w) ->
  outbox (mailbox (Send s req w).2) /\ outbox (mailbox (SendBatch s breq w).2).
Proof.
  intros Hb Ho. split; (eapply outbox_posts; [exact Ho|]).
  - exact (Send_posting s types req w _ Hb).
  - exact (SendBatch_posting s types breq w Hb).
Qed.

(** ** The response of a batch *)

Section Counts.
Context `{GoStd} {W : Type} (s : SendService W).

Definition count_status (status : string) (items : list SendBatchItemResult) : Z :=
  Z.of_nat (List.length (List.filter (fun r => bool_decide (ir_Status r = status)) items)).

Lemma count_status_snoc status items r :
  count_status status (items ++ [r]) =
  (count_status status items + if bool_decide (ir_Status r = status) then 1 else 0)%Z.
Proof.
  unfold count_status. rewrite List.filter_app, List.length_app. simpl. case_bool_decide; simpl; lia.
Qed.

Lemma counts_disjoint items :
  (count_status "accepted" items + count_status "suppressed" items + count_status "failed" items
   <= Z.of_nat (List.length items))%Z.
Proof.
  unfold count_status. induction items as [|r l IH]; simpl; [lia|].
  repeat case_bool_decide; simpl; try lia; congruence.
Qed.

(** The counters of the loop are those of the results. *)
Record counted (plans : list SendPlan) (st : BatchLoop) : Prop := {
  ct_index : ir_Index <$> bl_items st = pn_Index <$> plans;
  ct_to : ir_To <$> bl_items st = it_To ∘ pn_Item <$> plans;
  ct_external : ir_ExternalID <$> bl_items st = it_ExternalID ∘ pn_Item <$> plans;
  ct_accepted : bl_accepted st = count_status "accepted" (bl_items st);
  ct_suppressed : bl_suppressed st = count_status "suppressed" (bl_items st);
  ct_fully : bl_fully st = count_status "failed" (bl_items st);
  ct_total : (bl_accepted st + bl_suppressed st + bl_failed st = Z.of_nat (List.length (bl_items st)))%Z;
}.

(** The result of an item names the item. *)
Definition names (plan : SendPlan) (r : SendBatchItemResult) : Prop :=
  ir_Index r = pn_Index plan /\ ir_To r = it_To (pn_Item plan) /\ ir_ExternalID r = it_ExternalID (pn_Item plan).

Lemma executeSendPlan_names shared statuses plan x r err x' :
  executeSendPlan s shared statuses plan x = (Ok (r, err), x') -> names plan r.
Proof.
  unfold executeSendPlan, try. destruct (prepareSendPlanExecution _ _ _ _ x) as [[px|e] x1].
  2: { unfold ret. by intros [= <- <- <-]. }
  unfold bind. destruct (up _ x1) as [[o|e] x2]; [|done]. unfold ret, finalizeSendPlanResult.
  repeat case_match; intros [= <- <- _]; done.
Qed.

Lemma count_item_counted plans st plan r err :
  counted plans st -> names plan r -> counted (plans ++ [plan]) (count_item st (r, err)).
Proof.
  intros [Hi Ht He Ha Hs Hf Hn] (Ni & Nt & Ne).
  unfold count_item. destruct err as [e|]; [|repeat case_bool_decide]; simpl;
    (split; simpl; rewrite ?count_status_snoc, ?fmap_app, ?List.length_app; simpl; try (by f_equal; [|congruence]));
    repeat case_bool_decide; simplify_eq/=; try congruence; lia.
Qed.

Lemma send_items_counted shared statuses items x st x' :
  send_items s shared statuses items x = (Ok st, x') ->
  counted (imap (fun i item => mkSendPlan (Z.of_nat i) item) items) st.
Proof.
  intros E. unfold send_items in E.
  pose proof (for_fold_rule (fun plans st (_ : W * TemplateCache) => counted plans st) (fun _ => True)
    (imap (fun i item => mkSendPlan (Z.of_nat i) item) items) (mkBatchLoop [] 0 0 0 0)
    (fun st plan => let! r := executeSendPlan s shared statuses plan in ret (count_item st r)) x) as Hr.
  rewrite E in Hr. apply Hr; [by split|].
  intros l1 plan l2 st0 x0 _ Hc. unfold bind.
  destruct (executeSendPlan s shared statuses plan x0) as [ [[r err]|e] x1] eqn:Ex; [|done].
  apply count_item_counted; [done|]. by eapply executeSendPlan_names.
Qed.
End Counts.

(** the response of a batch accounts for every item: one result per item, in
    order, naming its index, recipient and external id; the three counters are
    the numbers of accepted, suppressed and other results; the batch is failed
    when every one of at least one item failed completely, accepted when every
    item was accepted or suppressed, and partial otherwise. *)
Theorem SendBatch_response `{GoStd} {W} (s : SendService W) req w resp w' :
  SendBatch s req w = (Ok resp, w') ->
  let items := bs_Items resp in
  let n := Z.of_nat (List.length (br_Items req)) in
  ir_Index <$> items = imap (fun i _ => Z.of_nat i) (br_Items req) /\
  ir_To <$> items = it_To <$> br_Items req /\
  ir_ExternalID <$> items = it_ExternalID <$> br_Items req /\
  bs_AcceptedCount resp = count_status "accepted" items /\
  bs_SuppressedCount resp = count_status "suppressed" items /\
  (bs_AcceptedCount resp + bs_SuppressedCount resp + bs_FailedCount resp = n)%Z /\
  (bs_Status resp = "failed" <-> (0 < n)%Z /\ count_status "failed" items = n) /\
  (bs_Status resp = "accepted" <-> bs_FailedCount resp = 0%Z).
Proof.
  unfold SendBatch. unfold bind at 1. destruct (resolveSendBatchContext s req w) as [ [[shared cache]|] w1]; [|done].
  unfold bind at 1. destruct (primeSendBatchSuppressionStatuses _ _ _ w1) as [[statuses|] w2]; [|done].
  unfold bind, with_memory. simpl.
  destruct (send_items s shared statuses (br_Items req) (w2, cache)) as [[st|e] [w3 m] ] eqn:E; [|done].
  unfold ret. intros [= <- _]. apply send_items_counted in E as [Hi Ht He Ha Hs Hf Hn]. simpl.
  assert (Hlen : List.length (bl_items st) = List.length (br_Items req)).
  { apply (f_equal List.length) in Hi. by rewrite !length_fmap, length_imap in Hi. }
  pose proof (counts_disjoint (bl_items st)) as Hd. rewrite Hlen in Hn, Hd. rewrite <- Ha, <- Hs, <- Hf in Hd.
  assert (0 <= bl_fully st)%Z by (rewrite Hf; unfold count_status; lia).
  split_and!; try done.
  - rewrite Hi, fmap_imap. by apply imap_ext.
  - rewrite Ht, fmap_imap. apply list_eq. intros i. rewrite list_lookup_imap, list_lookup_fmap.
    by destruct (br_Items req !! i).
  - rewrite He, fmap_imap. apply list_eq. intros i. rewrite list_lookup_imap, list_lookup_fmap.
    by destruct (br_Items req !! i).
  - rewrite <- Hf. case_bool_decide; simpl; repeat case_match; rewrite ?Z.ltb_lt, ?Z.ltb_ge in *;
      intuition (try discriminate; lia).
  - case_bool_decide; simpl; repeat case_match; rewrite ?Z.ltb_lt, ?Z.ltb_ge in *;
      intuition (try discriminate; lia).
Qed.
