(* ===== verification/MailQueries.v ===== *)
(** * Reading and purging the mail tables ([email_repo.go], [webhook_repo.go])

    The rest of the repositories of emails and webhooks: the event history, the
    queries with their filters and composite cursors, the sending history of an
    address, the purge of a workspace, and the management of endpoints. *)
From stdpp Require Import base gmap strings list sorting.
From Stdlib Require Import ZArith NArith Ascii String Lia.
From S2P Require Import Prelude GoMonad Domain Ports Token.
From S2P Require Import Suppression Postgres Database Unsubscribe Outbox.

(** [port.EmailFilters]; an [EmailStatus] is a string in Go, and a filter may
    hold one that is no status. *)
Record EmailFilters := mkEmailFilters {
  ef_ExternalID : option string;
  ef_Recipient : option string;
  ef_Status : option string;
  ef_TemplateTypeSlug : option string;
  ef_AdapterID : option uuid;
  ef_Since : option gotime;
  ef_Until : option gotime;
}.

Definition no_filters : EmailFilters := mkEmailFilters None None None None None None None.

Section EmailQueries.
Context `{GoStd} `{Codec}.

(** [ORDER BY occurred_at]; PostgreSQL leaves the order of equal times open. *)
Definition earlier (a b : EmailEvent) : Prop := (ev_OccurredAt a <= ev_OccurredAt b)%Z.
#[local] Instance earlier_dec : RelDecision earlier.
Proof. intros a b. unfold earlier. apply _. Defined.

Definition events_of (emailID : uuid) (s : Sys) : list EmailEvent :=
  merge_sort earlier (List.filter (fun ev => bool_decide (ev_EmailID ev = emailID)) (sys_events s)).

Definition GetEvents (emailID : uuid) : M Sys (list EmailEvent) :=
  stmt (wrapping "querying email events") (fun s => (Ok (events_of emailID s), s)).

(** [ORDER BY created_at DESC, id DESC] and the row comparison of the cursor. *)
Definition not_later (a b : Email) : Prop :=
  (em_CreatedAt b < em_CreatedAt a)%Z \/ (em_CreatedAt b = em_CreatedAt a /\ (em_ID b <= em_ID a)%N).
#[local] Instance not_later_dec : RelDecision not_later.
Proof. intros a b. unfold not_later. apply _. Defined.

Definition before_cursor (cursor : gotime * uuid) (e : Email) : bool :=
  (em_CreatedAt e <? cursor.1)%Z || ((em_CreatedAt e =? cursor.1)%Z && (em_ID e <? cursor.2)%N).

Definition at_position (cursor : string) : Res (Email -> bool) :=
  if bool_decide (cursor = "") then Ok (fun _ => true)
  else match DecodeTimeCursor cursor with
       | Err e => Err (EWrap2 "" (ESent ErrInvalidCursor) ": " e "")
       | Ok c => Ok (before_cursor c)
       end.

(** [p] is the [WHERE] clause, or the error with which PostgreSQL refuses one of
    its arguments. *)
Definition queryEmails (cursor : string) (limit : Z) (p : Res (Email -> bool)) : M Sys (list Email * string) :=
  let limit := NormalizeLimit limit in
  let! at_cursor := lift_res (at_position cursor) in
  stmt (wrapping "querying emails") (fun s =>
    match p with
    | Err e => (Err (wrapping "collecting emails" e), s)
    | Ok p =>
        let emails := take (Z.to_nat (limit + 1))
                        (merge_sort not_later (rows (fun e => p e && at_cursor e) (sys_emails s))) in
        (Ok (if (limit <? Z.of_nat (List.length emails))%Z
             then let cut := take (Z.to_nat limit) emails in
                  (cut, match last cut with Some e => EncodeTimeCursor (em_CreatedAt e) (em_ID e) | None => "" end)
             else (emails, "")), s)
    end).

Definition QueryByExternalID (wsID : uuid) (externalID cursor : string) (limit : Z) : M Sys (list Email * string) :=
  queryEmails cursor limit
    (Ok (fun e => bool_decide (em_WorkspaceID e = wsID) && bool_decide (em_ExternalID e = Some externalID))).

Definition QueryByRecipient (wsID : uuid) (email cursor : string) (limit : Z) : M Sys (list Email * string) :=
  queryEmails cursor limit
    (Ok (fun e => bool_decide (em_WorkspaceID e = wsID) && bool_decide (em_RecipientEmail e = email))).

(** A filter that is not set is not part of the statement. *)
Definition optionally {A} (test : A -> bool) (filter : option A) : bool :=
  match filter with Some a => test a | None => true end.

Definition email_matches (wsID : uuid) (f : EmailFilters) (e : Email) : bool :=
  bool_decide (em_WorkspaceID e = wsID)
  && optionally (fun x => bool_decide (em_ExternalID e = Some x)) (ef_ExternalID f)
  && optionally (fun x => bool_decide (em_RecipientEmail e = x)) (ef_Recipient f)
  && optionally (fun x => bool_decide (EmailStatus_String (em_Status e) = x)) (ef_Status f)
  && optionally (fun x => bool_decide (em_TemplateTypeSlug e = x)) (ef_TemplateTypeSlug f)
  && optionally (fun x => bool_decide (em_AdapterID e = x)) (ef_AdapterID f)
  && optionally (fun t => (t <=? em_CreatedAt e)%Z) (ef_Since f)
  && optionally (fun t => (em_CreatedAt e <? t)%Z) (ef_Until f).

(** The labels of the type [email_status]. *)
Definition email_status_labels : list string :=
  EmailStatus_String <$> [StatusQueued; StatusProcessing; StatusSent; StatusDelivered; StatusOpened;
                          StatusBounced; StatusComplained; StatusFailed; StatusSuppressed].

Definition QueryByWorkspace (wsID : uuid) (filters : EmailFilters) (cursor : string) (limit : Z)
  : M Sys (list Email * string) :=
  queryEmails cursor limit
    (if optionally (fun x => bool_decide (x ∈ email_status_labels)) (ef_Status filters) then Ok (email_matches wsID filters)
     else Err (EMsg "invalid input value for enum email_status")).

Definition QueryByExternalIDGlobal (externalID cursor : string) (limit : Z) : M Sys (list Email * string) :=
  queryEmails cursor limit (Ok (fun e => bool_decide (em_ExternalID e = Some externalID))).

(** [GROUP BY template_type_slug]: a row for every slug, with its last email. *)
Definition last_sent (emails : list Email) (slug : string) : option gotime :=
  foldr (fun e best => if bool_decide (em_TemplateTypeSlug e = slug)
                       then Some (match best with Some t => Z.max t (em_CreatedAt e) | None => em_CreatedAt e end)
                       else best) None emails.

Definition more_recent (a b : EmailHistoryType) : Prop := (eh_LastSentAt b <= eh_LastSentAt a)%Z.
#[local] Instance more_recent_dec : RelDecision more_recent.
Proof. intros a b. unfold more_recent. apply _. Defined.

Definition group_by_slug (emails : list Email) : list EmailHistoryType :=
  omap (fun slug => mkEmailHistoryType slug <$> last_sent emails slug) (remove_dups (em_TemplateTypeSlug <$> emails)).

Definition DistinctTemplateTypesForRecipient (workspaceID : uuid) (email : string) (since : gotime)
  : M Sys (list EmailHistoryType) :=
  stmt (wrapping "emails: distinct template types") (fun s =>
    (Ok (merge_sort more_recent (group_by_slug
       (rows (fun e => bool_decide (em_WorkspaceID e = workspaceID) && bool_decide (em_RecipientEmail e = email)
                       && (since <=? em_CreatedAt e)%Z) (sys_emails s)))), s)).

(** ** The purge of a workspace

    Three statements in a transaction: they are applied to the tables at the
    commit, or not at all. *)
Definition email_in (workspaceID : uuid) (s : Sys) (id : uuid) : bool :=
  match sys_emails s !! id with Some e => bool_decide (em_WorkspaceID e = workspaceID) | None => false end.

Definition delete_events (workspaceID : uuid) (s : Sys) : Sys :=
  set_events (List.filter (fun ev => negb (email_in workspaceID s (ev_EmailID ev)))) s.
Definition delete_payloads (workspaceID : uuid) (s : Sys) : Sys :=
  set_payloads (filter (fun kv => email_in workspaceID s kv.1 = false)) s.
Definition delete_emails (workspaceID : uuid) (s : Sys) : Sys :=
  set_emails (filter (fun kv => bool_decide (em_WorkspaceID kv.2 = workspaceID) = false)) s.

(** The state of the transaction is what its statements have done so far; others
    see it at the commit. *)
Definition in_tx_stmt (msg : string) (effect : Sys -> Sys) (tx : Sys -> Sys) : M Sys (Sys -> Sys) :=
  stmt (wrapping msg) (fun s => (Ok (fun s => effect (tx s)), s)).

Definition PurgeWorkspaceRuntime (workspaceID : uuid) : M Sys unit :=
  let! tx := stmt (wrapping "beginning purge workspace runtime tx") (fun s => (Ok (fun s => s), s)) in
  let! tx := in_tx_stmt "deleting workspace email events" (delete_events workspaceID) tx in
  let! tx := in_tx_stmt "deleting workspace email payloads" (delete_payloads workspaceID) tx in
  let! tx := in_tx_stmt "deleting workspace emails" (delete_emails workspaceID) tx in
  stmt (wrapping "committing purge workspace runtime tx") (fun s => (Ok tt, tx s)).
End EmailQueries.

(** ** [WebhookRepo]: the management of endpoints *)

Section Endpoints.
Context `{GoStd} `{Codec}.

(** The counters and the dates are the defaults of the table; the endpoint
    keeps those it was created with and takes the dates of the row. *)
Definition webhook_row (now : gotime) (wh : Webhook) : Webhook :=
  mkWebhook (wh_ID wh) (wh_WorkspaceID wh) (wh_URL wh) (wh_Secret wh) (wh_Events wh) (wh_IsActive wh) 0 None None now now.
Definition with_dates (created updated : gotime) (wh : Webhook) : Webhook :=
  mkWebhook (wh_ID wh) (wh_WorkspaceID wh) (wh_URL wh) (wh_Secret wh) (wh_Events wh) (wh_IsActive wh)
    (wh_ConsecutiveFailures wh) (wh_LastFailureAt wh) (wh_DisabledAt wh) created updated.

Definition WebhookRepo_Create (wh : Webhook) : M Sys Webhook :=
  stmt (wrapping "inserting webhook") (fun s =>
    match sys_webhooks s !! wh_ID wh with
    | Some _ => (Err (wrapping "inserting webhook" duplicate_key), s)
    | None => (Ok (with_dates (sys_clock s) (sys_clock s) wh),
               set_webhooks <[wh_ID wh := webhook_row (sys_clock s) wh]> s)
    end).

Definition updated_webhook (now : gotime) (wh row : Webhook) : Webhook :=
  mkWebhook (wh_ID row) (wh_WorkspaceID row) (wh_URL wh) (wh_Secret wh) (wh_Events wh) (wh_IsActive wh)
    (wh_ConsecutiveFailures wh) (wh_LastFailureAt wh) (wh_DisabledAt wh) (wh_CreatedAt row) now.

Definition WebhookRepo_Update (wh : Webhook) : M Sys Webhook :=
  stmt (wrapping "updating webhook") (fun s =>
    match sys_webhooks s !! wh_ID wh with
    | None => (Err (webhook_missing (wh_ID wh)), s)
    | Some row => (Ok (with_dates (wh_CreatedAt wh) (sys_clock s) wh),
                   set_webhooks <[wh_ID wh := updated_webhook (sys_clock s) wh row]> s)
    end).

Definition WebhookRepo_Delete (id : uuid) : M Sys unit :=
  stmt (wrapping "deleting webhook") (fun s =>
    match sys_webhooks s !! id with
    | None => (Err (webhook_missing id), s)
    | Some _ => (Ok tt, set_webhooks (delete id) s)
    end).

Definition WebhookRepo_ListByWorkspace (workspaceID : uuid) (opts : ListOptions) : M Sys (PageResult Webhook) :=
  match ApplyPagination opts with
  | Err e => fail e
  | Ok (limit, afterID) =>
      stmt (wrapping "listing webhooks") (fun s =>
        let '(items, cursor) := page wh_ID (rows (fun wh => bool_decide (wh_WorkspaceID wh = workspaceID)) (sys_webhooks s))
                                  limit afterID in
        (Ok (mkPageResult _ items cursor (negb (bool_decide (cursor = "")))), s))
  end.
End Endpoints.

(** * Theorems *)

(** ** The pages of a query *)

(** The rows of the table: keyed by their identifiers, of 16 bytes, with times
    the cursors can carry. *)
Definition stamped (e : Email) : Prop := wf_uuid (em_ID e) /\ (- 2 ^ 63 <= em_CreatedAt e < 2 ^ 63)%Z.
Definition mail_ok (s : Sys) : Prop := forall id e, sys_emails s !! id = Some e -> em_ID e = id /\ stamped e.

(** The order of the queries as an order of numbers. *)
Definition email_key (e : Email) : uuid := (Z.to_N (em_CreatedAt e + 2 ^ 63) * 2 ^ 128 + em_ID e)%N.

Lemma key_lt a b : stamped a -> stamped b ->
  (email_key a < email_key b)%N <->
  (em_CreatedAt a < em_CreatedAt b)%Z \/ (em_CreatedAt a = em_CreatedAt b /\ (em_ID a < em_ID b)%N).
Proof. unfold stamped, wf_uuid, email_key. intros [? ?] [? ?]. nia. Qed.

#[local] Instance not_later_transitive : Transitive not_later.
Proof. intros a b c. unfold not_later. lia. Qed.
#[local] Instance not_later_total : Total not_later.
Proof. intros a b. unfold not_later. lia. Qed.

Section Pages.
Context `{GoStd} `{Codec} `{!CodecLaws}.

Lemma time_cursor_nonempty e : stamped e -> EncodeTimeCursor (em_CreatedAt e) (em_ID e) <> "".
Proof. intros _. apply b64_nonempty. done. Qed.

Lemma email_order l : Forall stamped l -> NoDup (email_key <$> l) -> merge_sort not_later l = newest_first email_key l.
Proof.
  intros Hs Hn. rewrite Forall_forall in Hs. apply (StronglySorted_unique_strong not_later).
  - intros a b Ha Hb Hab Hba. rewrite merge_sort_Permutation in Ha. rewrite newest_first_perm in Hb.
    apply (keys_inj email_key l); [done..|]. pose proof (key_lt a b (Hs a Ha) (Hs b Hb)). pose proof (key_lt b a (Hs b Hb) (Hs a Ha)).
    unfold not_later in *. lia.
  - apply StronglySorted_merge_sort; apply _.
  - assert (Hin : forall x, x ∈ newest_first email_key l -> stamped x).
    { intros x Hx. rewrite newest_first_perm in Hx. auto. }
    pose proof (newest_first_sorted email_key l) as Hk. clear -Hin Hk.
    induction Hk as [|x l' _ IH Hx]; constructor; [by apply IH; set_solver|].
    rewrite Forall_forall in *. intros y Hy. specialize (Hx y Hy). unfold newer in Hx.
    pose proof (key_lt x y (Hin x ltac:(set_solver)) (Hin y ltac:(set_solver))). unfold not_later. lia.
  - by rewrite merge_sort_Permutation, newest_first_perm.
Qed.

(** The rows a query has left after an email, or from the start. *)
Definition emails_after (p : Email -> bool) (from : option Email) (s : Sys) : list Email :=
  newest_first email_key (after email_key (email_key <$> from) (rows p (sys_emails s))).

Lemma mail_rows p s : mail_ok s -> Forall stamped (rows p (sys_emails s)) /\ NoDup (email_key <$> rows p (sys_emails s)).
Proof.
  intros Hok. assert (Hs : Forall stamped (rows p (sys_emails s))).
  { apply Forall_forall. intros e [ [id Hid] _]%elem_of_rows. by apply (Hok id). }
  split; [done|]. assert (Hn : NoDup (em_ID <$> rows p (sys_emails s))).
  { apply rows_distinct. intros id e He. by apply Hok. }
  revert Hs Hn. generalize (rows p (sys_emails s)). intros l Hs. induction Hs as [|e l He Hl IH]; [done|].
  simpl. intros [Hi Hn]%NoDup_cons. apply NoDup_cons. split; [|auto].
  intros (e' & E & Hin)%list_elem_of_fmap. apply Hi. rewrite Forall_forall in Hl. specialize (Hl e' Hin).
  assert (em_ID e = em_ID e') as ->; [|by apply list_elem_of_fmap_2].
  unfold stamped, wf_uuid, email_key in *. destruct He, Hl. nia.
Qed.

Lemma rows_cursor p x s : mail_ok s -> stamped x ->
  rows (fun e => p e && before_cursor (em_CreatedAt x, em_ID x) e) (sys_emails s)
  = after email_key (Some (email_key x)) (rows p (sys_emails s)).
Proof.
  intros Hok Hx. unfold rows, after. pose proof (proj1 (mail_rows (fun _ => true) s Hok)) as Hs.
  assert (E : rows (fun _ : Email => true) (sys_emails s) = (map_to_list (sys_emails s)).*2).
  { unfold rows. induction (map_to_list (sys_emails s)).*2 as [|e l IH]; [done|]. simpl. by f_equal. }
  rewrite E in Hs. clear E. induction Hs as [|e l He _ IH]; [done|]. simpl.
  assert (before_cursor (em_CreatedAt x, em_ID x) e = (email_key e <? email_key x)%N) as ->.
  { pose proof (key_lt e x He Hx). unfold before_cursor. simpl.
    apply Bool.eq_iff_eq_true. rewrite orb_true_iff, andb_true_iff, Z.ltb_lt, Z.eqb_eq, !N.ltb_lt. lia. }
  destruct (p e); simpl; [|done]. destruct (_ <? _)%N; [f_equal|]; exact IH.
Qed.

(** One page of a query: all that is left, or some of it and the cursor of the
    last row shown. *)
Lemma query_page p limit from s : sys_faults s = [] -> mail_ok s -> from_option stamped True from ->
  let left := emails_after p from s in
  let cursor := from_option (fun x => EncodeTimeCursor (em_CreatedAt x) (em_ID x)) "" from in
  queryEmails cursor limit (Ok p) s = (Ok (left, ""), s) \/
  exists l1 x l2, left = l1 ++ x :: l2 /\ stamped x /\ emails_after p (Some x) s = l2 /\
    queryEmails cursor limit (Ok p) s = (Ok (l1 ++ [x], EncodeTimeCursor (em_CreatedAt x) (em_ID x)), s).
Proof.
  intros Hf Hok Hfrom left cursor.
  destruct (mail_rows p s Hok) as [Hs Hn].
  assert (Hrows : exists q, queryEmails cursor limit (Ok p) s =
      stmt (wrapping "querying emails") (fun s =>
        let emails := take (Z.to_nat (NormalizeLimit limit + 1)) (merge_sort not_later (rows q (sys_emails s))) in
        (Ok (if (NormalizeLimit limit <? Z.of_nat (List.length emails))%Z
             then let cut := take (Z.to_nat (NormalizeLimit limit)) emails in
                  (cut, match last cut with Some e => EncodeTimeCursor (em_CreatedAt e) (em_ID e) | None => "" end)
             else (emails, "")), s)) s /\
      merge_sort not_later (rows q (sys_emails s)) = left).
  { unfold queryEmails, at_position, cursor, left, emails_after. destruct from as [x|]; simpl in *.
    - rewrite bool_decide_eq_false_2 by by apply time_cursor_nonempty. destruct Hfrom as [Hi Ht].
      rewrite time_cursor_roundtrip by done. exists (fun e => p e && before_cursor (em_CreatedAt x, em_ID x) e). split; [done|].
      rewrite rows_cursor by done. apply email_order.
      + apply Forall_forall. intros e [He _]%list_elem_of_In%filter_In. rewrite Forall_forall in Hs. by apply Hs, list_elem_of_In.
      + by apply filter_distinct.
    - exists (fun e => p e && true). split; [done|]. rewrite email_order.
      + f_equal. unfold rows. induction (map_to_list (sys_emails s)).*2 as [|e l IH]; [done|]. simpl.
        by rewrite andb_true_r, IH.
      + apply mail_rows. done.
      + apply mail_rows. done. }
  destruct Hrows as (q & -> & E). unfold stmt. rewrite Hf. cbv zeta. rewrite E.
  assert (Hpos : (0 < NormalizeLimit limit)%Z) by (unfold NormalizeLimit, defaultLimit, maxLimit; repeat case_match; lia).
  destruct (take_cut left _ Hpos) as [ [-> ->]|(-> & l1 & x & l2 & El & ->)]; [by left|right].
  destruct (after_row email_key (email_key <$> from) _ l1 x l2 Hn El) as [Hx El2].
  exists l1, x, l2. rewrite last_snoc. rewrite Forall_forall in Hs. auto.
Qed.
End Pages.

(** ** The purge *)

Definition mail_tables (s : Sys) := (sys_emails s, sys_payloads s, sys_events s).

Definition purged (workspaceID : uuid) (s : Sys) : Sys :=
  delete_emails workspaceID (delete_payloads workspaceID (delete_events workspaceID s)).

(** All of the workspace's mail goes, or none does. *)
Lemma PurgeWorkspaceRuntime_exact `{GoStd} workspaceID s r s' : PurgeWorkspaceRuntime workspaceID s = (r, s') ->
  (is_ok r = false /\ mail_tables s' = mail_tables s) \/ mail_tables s' = mail_tables (purged workspaceID s).
Proof.
  unfold PurgeWorkspaceRuntime, in_tx_stmt. intros E.
  repeat (unfold bind at 1 in E;
    match type of E with context [stmt ?w ?f ?s0] =>
      let Es := fresh in destruct (stmt w f s0) as [[?|?] ?] eqn:Es;
      apply stmt_cases in Es as (? & [Es|[(? & ? & ?)|(? & ? & ?)] ]); simplify_eq/=;
      try (left; by split) end).
  all: apply stmt_cases in E as (? & [E|[(? & ? & ?)|(? & ? & ?)] ]); simplify_eq/=; try (left; by split); by right.
Qed.

Lemma purged_rows workspaceID s id :
  sys_emails (purged workspaceID s) !! id = match sys_emails s !! id with
    | Some e => if bool_decide (em_WorkspaceID e = workspaceID) then None else Some e | None => None end.
Proof.
  simpl. rewrite map_lookup_filter. destruct (sys_emails s !! id) as [e|]; simpl; [|done].
  unfold guard. case_decide as Hd; simpl in Hd; by case_bool_decide.
Qed.
