(* ===== verification/RuntimeHandlers.v ===== *)
(** * The runtime of a workspace over HTTP ([handler/email.go], [suppression.go], [webhook.go])

    What the members of a workspace see and do with its mail: the emails and
    their events, the suppression list, the webhook endpoints; with their
    responses ([response/email.go], [suppression.go], [webhook.go]). *)
From stdpp Require Import base gmap strings list.
From Stdlib Require Import ZArith NArith Ascii String Lia.
From S2P Require Import Prelude GoMonad Domain Ports Token Config Http Suppression Postgres Database.
From S2P Require Import Auth Members Inheritance TemplateHandlers SNS Webhooks MailQueries.

(** ** Responses *)

Section Responses.
Context `{GoStd}.

(** [omitempty] on a slice and on a map. *)
Definition some_strings (name : string) (l : list string) : list (string * any) :=
  if bool_decide (l = []) then [] else field name (AList (AStr <$> l)).
Definition some_map (name : string) (m : fields_map) : list (string * any) :=
  if bool_decide (m = ∅) then [] else raw_map name (Some m).

Definition EmailSourceType_String (t : EmailSourceType) : string :=
  match t with
  | EmailSourceTypeNone => ""
  | EmailSourceTypeDataPlaneAPIKey => "data_plane_api_key"
  | EmailSourceTypeManagementTemplateBulkUpload => "management_template_bulk_upload"
  end.

Definition email_fields (e : Email) : list (string * any) :=
  text "id" (uuid_String (em_ID e)) ++ text "tracking_id" (em_TrackingID e)
  ++ optional "external_id" (em_ExternalID e) ++ text "workspace_id" (uuid_String (em_WorkspaceID e))
  ++ text "tenant_id" (uuid_String (em_TenantID e)) ++ text "adapter_id" (uuid_String (em_AdapterID e))
  ++ text "template_type_slug" (em_TemplateTypeSlug e) ++ text "template_ref" (em_TemplateRef e)
  ++ text "recipient_email" (em_RecipientEmail e) ++ some_strings "cc" (em_CC e) ++ some_strings "bcc" (em_BCC e)
  ++ text "from_email" (em_FromEmail e) ++ text "from_name" (em_FromName e) ++ optional "reply_to" (em_ReplyTo e)
  ++ text "subject_rendered" (em_SubjectRendered e) ++ optional "locale" (em_Locale e)
  ++ text "status" (EmailStatus_String (em_Status e)) ++ optional "provider_message_id" (em_ProviderMessageID e)
  ++ text "source_type" (EmailSourceType_String (em_SourceType e))
  ++ optional "source_actor_member_id" (uuid_String <$> em_SourceActorMemberID e)
  ++ optional "source_actor_email" (em_SourceActorEmail e)
  ++ field "retry_count" (AInt (em_RetryCount e)) ++ field "max_retries" (AInt (em_MaxRetries e))
  ++ text "created_at" (rfc3339 (em_CreatedAt e)) ++ text "updated_at" (rfc3339 (em_UpdatedAt e)).
Definition NewEmailResponse (e : Email) : any := AMap (email_fields e).

Definition NewEmailListResponse (emails : list Email) (nextCursor : string) : any :=
  AMap (field "items" (AList (NewEmailResponse <$> emails)) ++ filled "next_cursor" nextCursor
        ++ flag "has_more" (negb (bool_decide (nextCursor = "")))).

Definition NewEmailEventResponse (ev : EmailEvent) : any :=
  AMap (text "id" (uuid_String (ev_ID ev)) ++ text "email_id" (uuid_String (ev_EmailID ev))
        ++ text "event_type" (EmailEventType_String (ev_EventType ev))
        ++ text "occurred_at" (rfc3339 (ev_OccurredAt ev)) ++ some_map "metadata" (ev_Metadata ev)
        ++ text "created_at" (rfc3339 (ev_CreatedAt ev))).

Definition NewEmailEventListResponse (events : list EmailEvent) : any := AList (NewEmailEventResponse <$> events).
(** The fields of the embedded response come first. *)
Definition NewEmailDetailResponse (e : Email) (events : list EmailEvent) : any :=
  AMap (email_fields e ++ field "events" (NewEmailEventListResponse events)).

Definition NewSuppressionWorkspaceResponse (s : SuppressionWorkspace) : any :=
  AMap (text "id" (uuid_String (sw_ID s)) ++ text "workspace_id" (uuid_String (sw_WorkspaceID s))
        ++ text "email" (sw_Email s) ++ text "reason" (SuppressionReason_String (sw_Reason s))
        ++ optional "source_email_id" (uuid_String <$> sw_SourceEmailID s) ++ optional "notes" (sw_Notes s)
        ++ text "created_at" (rfc3339 (sw_CreatedAt s))).
Definition SuppressionCheckResponse (email : string) (suppressed : bool) (reason : string) : any :=
  AMap (text "email" email ++ flag "suppressed" suppressed ++ filled "reason" reason).

(** The secret is in the answer to the creation and in no other. *)
Definition NewWebhookCreatedResponse (wh : Webhook) : any :=
  AMap (text "id" (uuid_String (wh_ID wh)) ++ text "url" (wh_URL wh) ++ text "secret" (wh_Secret wh)
        ++ field "events" (AList (AStr <$> wh_Events wh)) ++ flag "is_active" (wh_IsActive wh)
        ++ text "created_at" (rfc3339 (wh_CreatedAt wh))).
Definition NewWebhookResponse (wh : Webhook) : any :=
  AMap (text "id" (uuid_String (wh_ID wh)) ++ text "url" (wh_URL wh)
        ++ field "events" (AList (AStr <$> wh_Events wh)) ++ flag "is_active" (wh_IsActive wh)
        ++ field "consecutive_failures" (AInt (wh_ConsecutiveFailures wh))
        ++ optional "last_failure_at" (rfc3339 <$> wh_LastFailureAt wh)
        ++ optional "disabled_at" (rfc3339 <$> wh_DisabledAt wh)
        ++ text "created_at" (rfc3339 (wh_CreatedAt wh)) ++ text "updated_at" (rfc3339 (wh_UpdatedAt wh))).
Definition NewWebhookListResponse (page : PageResult Webhook) : any :=
  AMap (field "items" (AList (NewWebhookResponse <$> pr_Items _ page)) ++ filled "next_cursor" (pr_NextCursor _ page)
        ++ flag "has_more" (pr_HasMore _ page)).
End Responses.

(** ** Emails *)

Section Queries.
Context `{GoStd} `{Parsers} `{TimeParser}.

(** A parameter that does not parse is no filter. *)
Definition parsed {A} (parse : string -> Res A) (s : string) : option A :=
  if bool_decide (s = "") then None else match parse s with Ok a => Some a | Err _ => None end.

Definition parseEmailFilters (c : Conn) : EmailFilters := {|
  ef_ExternalID := parsed Ok (QueryParam "external_id" c);
  ef_Recipient := parsed Ok (QueryParam "recipient" c);
  ef_Status := parsed Ok (QueryParam "status" c);
  ef_TemplateTypeSlug := parsed Ok (QueryParam "template_type" c);
  ef_AdapterID := parsed uuid_Parse (QueryParam "adapter_id" c);
  ef_Since := parsed (time_Parse RFC3339) (QueryParam "since" c);
  ef_Until := parsed (time_Parse RFC3339) (QueryParam "until" c);
|}.

Definition parseLimit (c : Conn) : Z :=
  let limit := match Atoi (QueryParam "limit" c) with
               | Some parsed => if (0 <? parsed)%Z then parsed else 25%Z
               | None => 25%Z
               end in
  if (100 <? limit)%Z then 100%Z else limit.
End Queries.

(** What the email handlers use of [port.EmailStore]. *)
Record EmailReader (W : Type) := mkEmailReader {
  er_QueryByWorkspace : uuid -> EmailFilters -> string -> Z -> M W (list Email * string);
  er_GetByTrackingID : string -> M W Email;
  er_GetEvents : uuid -> M W (list EmailEvent);
}.
Arguments er_QueryByWorkspace {W}. Arguments er_GetByTrackingID {W}. Arguments er_GetEvents {W}.

Definition not_found_reply `{GoStd} {W} : HandlerFunc W := WriteError 404 "NOT_FOUND" "resource not found".
Definition invalid_body `{GoStd} {W} : HandlerFunc W := WriteError 400 "BAD_REQUEST" "invalid request body".

Section Emails.
Context `{GoStd} `{Parsers} `{TimeParser} {W : Type}.
Context (store : EmailReader W) (tsStore : TenantStore.t W) (wsStore : WorkspaceStore.t W).

(** What the handlers do once the workspace is known. *)
Definition list_emails (wsID : uuid) : HandlerFunc W :=
  let! c := conn in
  stored (up (er_QueryByWorkspace store wsID (parseEmailFilters c) (QueryParam "cursor" c) (parseLimit c)))
    (fun '(emails, nextCursor) => JSON_reply 200 (NewEmailListResponse emails nextCursor)).

Definition show_email (wsID : uuid) (show : Email -> list EmailEvent -> any) : HandlerFunc W :=
  let! c := conn in
  let trackingID := Param "tracking_id" c in
  if bool_decide (trackingID = "") then WriteError 400 "BAD_REQUEST" "tracking_id is required"
  else
    stored (up (er_GetByTrackingID store trackingID)) (fun email =>
      if negb (bool_decide (em_WorkspaceID email = wsID)) then not_found_reply
      else stored (up (er_GetEvents store (em_ID email))) (fun events => JSON_reply 200 (show email events))).

Definition Emails_List : HandlerFunc W :=
  stored (resolveWorkspace tsStore wsStore) (fun ws => list_emails (ws_ID ws)).
Definition Emails_GetByTrackingID : HandlerFunc W :=
  stored (resolveWorkspace tsStore wsStore) (fun ws => show_email (ws_ID ws) NewEmailDetailResponse).
Definition Emails_GetEvents : HandlerFunc W :=
  stored (resolveWorkspace tsStore wsStore) (fun ws => show_email (ws_ID ws) (fun _ => NewEmailEventListResponse)).
End Emails.

(** ** The suppression list *)

Record AddSuppressionRequest := mkAddSuppression {
  as_Email : string;
  as_Reason : string;
  as_Notes : option string;
}.

Record SuppressionHandler (W : Type) := mkSuppressionHandler {
  suh_AddWorkspace : SuppressionWorkspace -> M W unit;
  suh_IsSuppressed : uuid -> string -> M W (bool * string);
  suh_RemoveGlobal : string -> uuid -> string -> M W unit;
  suh_tsStore : TenantStore.t W;
  suh_wsStore : WorkspaceStore.t W;
  suh_rt : Runtime W;
}.
Arguments suh_AddWorkspace {W}. Arguments suh_IsSuppressed {W}. Arguments suh_RemoveGlobal {W}.
Arguments suh_tsStore {W}. Arguments suh_wsStore {W}. Arguments suh_rt {W}.

(** The reasons a request may give; [None] is refused. *)
Definition requested_reason (reason : string) : option SuppressionReason :=
  if bool_decide (reason = "") then Some SuppressionManual
  else List.find (fun r => bool_decide (SuppressionReason_String r = reason))
         [SuppressionManual; SuppressionHardBounce; SuppressionComplaint].

Section Suppressions.
Context `{GoStd} `{Parsers} `{Binder AddSuppressionRequest} {W : Type} (h : SuppressionHandler W).
#[local] Abbreviation on_workspace := (stored (resolveWorkspace (suh_tsStore h) (suh_wsStore h))).

Definition suppression_errors (req : AddSuppressionRequest) : list FieldError :=
  if bool_decide (as_Email req = "") then [mkFieldError "email" "is required"]
  else match ParseAddress (as_Email req) with
       | Err _ => [mkFieldError "email" "must be a valid email address"]
       | Ok _ => []
       end.

Definition Suppressions_Add : HandlerFunc W := on_workspace (fun ws =>
  let! c := conn in
  match Bind c with
  | Err _ => invalid_body
  | Ok req =>
      if negb (bool_decide (suppression_errors req = []))
      then WriteErrorDetails 422 "VALIDATION_ERROR" "validation failed" (suppression_errors req)
      else match requested_reason (as_Reason req) with
           | None => WriteError 400 "BAD_REQUEST" "invalid suppression reason"
           | Some reason =>
               let! id := up (NewV7 (suh_rt h)) in
               let! now := up (Now (suh_rt h)) in
               let entry := {| sw_ID := id; sw_WorkspaceID := ws_ID ws; sw_Email := as_Email req; sw_Reason := reason;
                               sw_SourceEmailID := None; sw_Notes := as_Notes req; sw_CreatedAt := now;
                               sw_RemovedAt := None; sw_RemovedBy := None; sw_RemovalReason := None |} in
               stored (up (suh_AddWorkspace h entry)) (fun _ => JSON_reply 201 (NewSuppressionWorkspaceResponse entry))
           end
  end).

Definition Suppressions_Check : HandlerFunc W := on_workspace (fun ws =>
  let! c := conn in
  let email := Param "email" c in
  if bool_decide (email = "") then WriteError 400 "BAD_REQUEST" "email is required"
  else stored (up (suh_IsSuppressed h (ws_ID ws) email)) (fun '(suppressed, reason) =>
         JSON_reply 200 (SuppressionCheckResponse email suppressed reason))).

Definition is_superadmin (roles : option (list MemberRole)) : bool :=
  existsb (fun r => bool_decide (mr_Role r = RoleSuperadmin)) (default [] roles).

Definition Suppressions_Remove : HandlerFunc W := on_workspace (fun _ =>
  let! c := conn in
  let email := Param "email" c in
  if bool_decide (email = "") then WriteError 400 "BAD_REQUEST" "email is required"
  else match v_member (cn_Values c) with
       | None => Unauthorized "authentication required"
       | Some member =>
           if negb (is_superadmin (v_roles (cn_Values c)))
           then WriteError 403 "FORBIDDEN" "superadmin role required for global suppression removal"
           else
             let reason := QueryParam "reason" c in
             let reason := if bool_decide (reason = "") then "manual removal" else reason in
             stored (up (suh_RemoveGlobal h email (mem_ID member) reason)) (fun _ => NoContent 204)
       end).
End Suppressions.

(** ** Webhook endpoints *)

Record CreateWebhookRequest := mkCreateWebhook { cw_URL : string; cw_Events : list string }.
Record UpdateWebhookRequest := mkUpdateWebhook {
  uw_URL : option string;
  uw_Events : option (list string);
  uw_IsActive : option bool;
}.

Record WebhookHandler (W : Type) := mkWebhookHandler {
  whh_Create : Webhook -> M W Webhook;
  whh_GetByID : uuid -> M W Webhook;
  whh_Update : Webhook -> M W Webhook;
  whh_Delete : uuid -> M W unit;
  whh_ListByWorkspace : uuid -> ListOptions -> M W (PageResult Webhook);
  whh_svc : WebhookService W;
  whh_tsStore : TenantStore.t W;
  whh_wsStore : WorkspaceStore.t W;
  (** [net.LookupHost] with [net.ParseIP], [rand.Read] of 32 bytes *)
  whh_LookupHost : string -> M W (list (option Z));
  whh_rand : M W string;
  whh_rt : Runtime W;
}.
Arguments whh_Create {W}. Arguments whh_GetByID {W}. Arguments whh_Update {W}. Arguments whh_Delete {W}.
Arguments whh_ListByWorkspace {W}. Arguments whh_svc {W}. Arguments whh_tsStore {W}. Arguments whh_wsStore {W}.
Arguments whh_LookupHost {W}. Arguments whh_rand {W}. Arguments whh_rt {W}.

(** [url.URL.Hostname]: without the port, and without the brackets of an IPv6
    address. *)
Definition without_port (host : string) : string :=
  let '(_, r) := span is_digit_ascii (srev host) in
  match r with String c r => if Ascii.eqb c ":" then srev r else host | EmptyString => host end.
Definition HasSuffix (s suffix : string) : bool := HasPrefix (srev s) (srev suffix).
Definition unbracketed (host : string) : string :=
  if HasPrefix host "[" && HasSuffix host "]" then String.substring 1 (String.length host - 2) host else host.
Definition Hostname (u : URL) : string := unbracketed (without_port (url_Host u)).

Section Endpoints.
Context `{GoStd} `{Codec} `{Parsers} `{UrlParser} `{Binder CreateWebhookRequest} `{Binder UpdateWebhookRequest}.
Context `{JSON (gmap string string)} {W : Type} (h : WebhookHandler W).
#[local] Abbreviation on_workspace := (stored (resolveWorkspace (whh_tsStore h) (whh_wsStore h))).

Definition generateWebhookSecret : M W string := let! b := whh_rand h in ret (HexEncode b).

Definition isValidWebhookURL (u : string) : M W bool :=
  match url_Parse u with
  | Err _ => ret false
  | Ok parsed =>
      if negb (bool_decide (url_Scheme parsed = "https")) || bool_decide (url_Host parsed = "") then ret false
      else if bool_decide (Hostname parsed = "") then ret false
      else try! ips := whh_LookupHost h (Hostname parsed) in ret (negb (IsPrivateOrReservedHost ips))
  end.

(** What is wrong with the URL of a request, if anything. *)
Definition url_errors (url empty : string) : M W (list FieldError) :=
  if bool_decide (url = "") then ret [mkFieldError "url" empty]
  else let! ok := isValidWebhookURL url in
       ret (if ok then [] else [mkFieldError "url" "must be a valid HTTPS URL"]).

Definition refused (details : list FieldError) : HandlerFunc W :=
  WriteErrorDetails 422 "VALIDATION_ERROR" "validation failed" details.

Definition Webhooks_Create : HandlerFunc W := on_workspace (fun ws =>
  let! c := conn in
  match Bind c with
  | Err _ => invalid_body
  | Ok req =>
      let! urlErrors := up (url_errors (cw_URL req) "is required") in
      let fieldErrors := urlErrors ++ (if bool_decide (cw_Events req = []) then [mkFieldError "events" "is required"] else []) in
      if negb (bool_decide (fieldErrors = [])) then refused fieldErrors
      else
        try! secret := up generateWebhookSecret in
        match secret with
        | Err _ => WriteError 500 "INTERNAL_ERROR" "internal server error"
        | Ok secret =>
            let! now := up (Now (whh_rt h)) in
            let! id := up (NewV7 (whh_rt h)) in
            let wh := {| wh_ID := id; wh_WorkspaceID := ws_ID ws; wh_URL := cw_URL req; wh_Secret := secret;
                         wh_Events := cw_Events req; wh_IsActive := true; wh_ConsecutiveFailures := 0;
                         wh_LastFailureAt := None; wh_DisabledAt := None; wh_CreatedAt := now; wh_UpdatedAt := now |} in
            stored (up (whh_Create h wh)) (fun wh => JSON_reply 201 (NewWebhookCreatedResponse wh))
        end
  end).

Definition Webhooks_List : HandlerFunc W := on_workspace (fun ws =>
  let! c := conn in
  stored (up (whh_ListByWorkspace h (ws_ID ws) (ParseListOptions c))) (fun page =>
    JSON_reply 200 (NewWebhookListResponse page))).

(** The endpoint of the path, if it is the workspace's. *)
Definition own_webhook (k : Workspace -> uuid -> Webhook -> HandlerFunc W) : HandlerFunc W := on_workspace (fun ws =>
  let! c := conn in
  match uuid_Parse (Param "id" c) with
  | Err _ => WriteError 400 "BAD_REQUEST" "invalid webhook ID"
  | Ok webhookID =>
      stored (up (whh_GetByID h webhookID)) (fun wh =>
        if negb (bool_decide (wh_WorkspaceID wh = ws_ID ws)) then not_found_reply else k ws webhookID wh)
  end).

Definition Webhooks_Get : HandlerFunc W := own_webhook (fun _ _ wh => JSON_reply 200 (NewWebhookResponse wh)).

Definition set_webhook (url : string) (events : list string) (active : bool) (wh : Webhook) : Webhook :=
  mkWebhook (wh_ID wh) (wh_WorkspaceID wh) url (wh_Secret wh) events active
    (wh_ConsecutiveFailures wh) (wh_LastFailureAt wh) (wh_DisabledAt wh) (wh_CreatedAt wh) (wh_UpdatedAt wh).

Definition events_errors (events : option (list string)) : list FieldError :=
  match events with Some [] => [mkFieldError "events" "cannot be empty"] | _ => [] end.

Definition Webhooks_Update : HandlerFunc W := own_webhook (fun _ _ wh =>
  let! c := conn in
  match Bind c with
  | Err _ => invalid_body
  | Ok req =>
      let! urlErrors := match uw_URL req with Some url => up (url_errors url "cannot be empty") | None => ret [] end in
      if negb (bool_decide (urlErrors = [])) then refused urlErrors
      else if negb (bool_decide (events_errors (uw_Events req) = [])) then refused (events_errors (uw_Events req))
      else
        let wh := set_webhook (default (wh_URL wh) (uw_URL req)) (default (wh_Events wh) (uw_Events req))
                    (default (wh_IsActive wh) (uw_IsActive req)) wh in
        let! now := up (Now (whh_rt h)) in
        let wh := with_dates (wh_CreatedAt wh) now wh in
        stored (up (whh_Update h wh)) (fun wh => JSON_reply 200 (NewWebhookResponse wh))
  end).

Definition Webhooks_Delete : HandlerFunc W := own_webhook (fun _ webhookID _ =>
  stored (up (whh_Delete h webhookID)) (fun _ => NoContent 204)).

Definition ping_payload (webhookID : uuid) : gmap string string :=
  {["message" := "webhook test ping"; "webhook_id" := uuid_String webhookID]}.

Definition Webhooks_Test : HandlerFunc W := own_webhook (fun ws webhookID _ =>
  try! r := up (Dispatch (whh_svc h) (ws_ID ws) "webhook.test" (Marshal (ping_payload webhookID))) in
  match r with
  | Err _ => WriteError 500 "INTERNAL_ERROR" "failed to dispatch test event"
  | Ok _ => JSON_reply 200 (AMap (text "status" "dispatched"))
  end).
End Endpoints.
