(* ===== verification/PublicHandlers.v ===== *)
(** * The public endpoints ([handler/tracking.go], [handler/unsubscribe.go], [routes_public.go])

    The open-tracking pixel with its window of duplicates, and the pages and
    buttons behind an unsubscribe link. *)
From stdpp Require Import base gmap strings list sorting.
From Stdlib Require Import ZArith NArith Ascii String Lia.
From S2P Require Import Prelude GoMonad Domain Ports Token Config Http Suppression Postgres EventProcessor.
From S2P Require Import Auth Members Inheritance TemplateHandlers Unsubscribe RuntimeHandlers.

(** ** The pixel *)

(** [tracking.TransparentGIF]. *)
Definition TransparentGIF : string := bytes
  [71; 73; 70; 56; 57; 97; 1; 0; 1; 0; 128; 0; 0; 255; 255; 255; 0; 0; 0; 33; 249; 4; 1; 0; 0; 0; 0; 44;
   0; 0; 0; 0; 1; 0; 1; 0; 0; 2; 2; 76; 1; 0; 59].

#[global] Arguments TransparentGIF : simpl never.

Definition dedupTTL : duration := (30 * Second)%Z.

(** The memory of the handler: the opens of the window, the last sweep, and the
    goroutines in flight ([wg]), each with its tracking identifier. *)
Record RecentOpens := mkRecentOpens {
  ro_recentOpens : gmap string gotime;
  ro_lastEviction : gotime;
  ro_inFlight : list string;
}.
Definition no_opens : RecentOpens := mkRecentOpens ∅ time_zero [].

Definition sweep (now : gotime) (o : RecentOpens) : RecentOpens :=
  if (dedupTTL / 2 <=? now - ro_lastEviction o)%Z
  then mkRecentOpens (filter (fun kv => (now - kv.2 < dedupTTL)%Z) (ro_recentOpens o)) now (ro_inFlight o)
  else o.

Definition isDuplicate (trackingID : string) (now : gotime) (o : RecentOpens) : bool * RecentOpens :=
  let o := sweep now o in
  let seen := match ro_recentOpens o !! trackingID with Some ts => (now - ts <? dedupTTL)%Z | None => false end in
  if seen then (true, o)
  else (false, mkRecentOpens (<[trackingID := now]> (ro_recentOpens o)) (ro_lastEviction o) (ro_inFlight o)).

Record TrackingHandler (W : Type) := mkTrackingHandler {
  th_GetByTrackingID : string -> M W Email;
  th_eventProcessor : EventProcessor W;
  th_rt : Runtime W;
}.
Arguments th_GetByTrackingID {W}. Arguments th_eventProcessor {W}. Arguments th_rt {W}.

Section Tracking.
Context `{GoStd} {W : Type} (h : TrackingHandler W).

Definition returnPixel {W'} : HandlerFunc W' :=
  set_state (set_resp_headers (fun l => l ++ [("Cache-Control", "no-store, no-cache, must-revalidate, max-age=0");
                                              ("Pragma", "no-cache"); ("Expires", "0")])) ;;;
  Blob 200 "image/gif" TransparentGIF.

(** What the goroutine of an open does; its errors are logged. *)
Definition record_open (trackingID : string) : M W unit :=
  try! r := th_GetByTrackingID h trackingID in
  match r with
  | Err _ => ret tt
  | Ok email =>
      let! now := Now (th_rt h) in
      ignore (ProcessDirect (th_eventProcessor h) email
        {| pe_Type := EventOpened; pe_ProviderMessageID := ""; pe_Timestamp := now; pe_RawPayload := "";
           pe_BounceDetail := None; pe_ComplaintDetail := None |})
  end.

Definition start_goroutine (trackingID : string) (o : RecentOpens) : RecentOpens :=
  mkRecentOpens (ro_recentOpens o) (ro_lastEviction o) (ro_inFlight o ++ [trackingID]).

Definition HandleOpen : HandlerFunc (W * RecentOpens) :=
  let! c := conn in
  let trackingID := Param "tracking_id" c in
  if bool_decide (trackingID = "") then Blob 200 "image/gif" TransparentGIF
  else
    let! now := up (up (Now (th_rt h))) in
    let! duplicate := up (down (fun o => let '(d, o') := isDuplicate trackingID now o in (Ok d, o'))) in
    if duplicate then returnPixel
    else up (set_state (start_goroutine trackingID)) ;;; returnPixel.

(** A goroutine in flight runs, whenever it does; [Drain] waits for all. *)
Definition run_goroutine (i : nat) : M (W * RecentOpens) unit :=
  let! o := get_state in
  match ro_inFlight o !! i with
  | None => ret tt
  | Some trackingID =>
      set_state (fun o => mkRecentOpens (ro_recentOpens o) (ro_lastEviction o) (delete i (ro_inFlight o))) ;;;
      up (record_open trackingID)
  end.
End Tracking.

(** ** The unsubscribe pages *)

(** [json.Marshal] of a [time.Time]: RFC 3339 with nanoseconds. *)
Class TimeFormat := { rfc3339nano : gotime -> string }.

Record UpdatePreferencesRequest := mkUpdatePreferences { up_Changes : list PreferenceChange }.

Section UnsubscribeHandler.
Context `{GoStd} `{Codec} `{TimeFormat} `{Binder UpdatePreferencesRequest} {W : Type} (svc : UnsubscribeService W).

(** Only two states are exposed. *)
Definition mapUnsubscribeError (e : error) : HandlerFunc W :=
  if errors_Is e ErrInvalidToken then WriteError 404 "NOT_FOUND" "invalid or expired link"
  else WriteError 500 "INTERNAL_ERROR" "unexpected error".

Definition on_token {A} (op : string -> M W A) (k : A -> HandlerFunc W) : HandlerFunc W :=
  let! c := conn in
  try! r := up (op (Param "token" c)) in
  match r with Ok a => k a | Err e => mapUnsubscribeError e end.

Definition UnsubscribeContextResponse (u : UnsubscribeContext) : any :=
  AMap (text "workspace_name" (uc_WorkspaceName u) ++ text "template_type_slug" (uc_TemplateTypeSlug u)
        ++ text "template_type_name" (uc_TemplateTypeName u) ++ text "email" (uc_Email u)
        ++ flag "opted_out_of_type" (uc_OptedOutOfType u) ++ flag "opted_out_of_all" (uc_OptedOutOfAll u)).

Definition PreferencesEntryResponse (e : PreferencesEntry) : any :=
  AMap (text "template_type_slug" (pf_TemplateTypeSlug e) ++ text "template_type_name" (pf_TemplateTypeName e)
        ++ optional "description" (pf_Description e) ++ flag "subscribed" (pf_Subscribed e)
        ++ text "last_received_at" (rfc3339nano (pf_LastReceivedAt e))).
Definition PreferencesViewResponse (v : PreferencesView) : any :=
  AMap (text "workspace_name" (pv_WorkspaceName v) ++ text "email" (pv_Email v)
        ++ flag "opted_out_of_all" (pv_OptedOutOfAll v) ++ field "entries" (AList (PreferencesEntryResponse <$> pv_Entries v))).

Definition Unsubscribe_GetContext : HandlerFunc W :=
  on_token (GetContext svc) (fun u => JSON_reply 200 (UnsubscribeContextResponse u)).
Definition Unsubscribe_OneClickOptOut : HandlerFunc W := on_token (OneClickOptOut svc) (fun _ => NoContent 200).
Definition Unsubscribe_OptOutAll : HandlerFunc W := on_token (OptOutAll svc) (fun _ => NoContent 200).
Definition Unsubscribe_GetPreferences : HandlerFunc W :=
  on_token (GetPreferences svc) (fun v => JSON_reply 200 (PreferencesViewResponse v)).
Definition Unsubscribe_UpdatePreferences : HandlerFunc W :=
  let! c := conn in
  match Bind c with
  | Err _ => invalid_body
  | Ok req =>
      if bool_decide (up_Changes req = []) then WriteError 400 "BAD_REQUEST" "changes must not be empty"
      else on_token (fun token => UpdatePreferences svc token (up_Changes req)) (fun _ => NoContent 200)
  end.
Definition Unsubscribe_Resubscribe : HandlerFunc W := on_token (Resubscribe svc) (fun _ => NoContent 200).
End UnsubscribeHandler.

(** * Theorems *)

(** ** The window of duplicates

    What the memory promises: an open counts when none of the same email counted
    in the last thirty seconds. The reference keeps every open that counted. *)

Fixpoint last_counted (trackingID : string) (counted : list (string * gotime)) : option gotime :=
  match counted with
  | [] => None
  | (id, ts) :: r => if bool_decide (id = trackingID) then Some ts else last_counted trackingID r
  end.

(** The opens that count, the last first. *)
Fixpoint counted_opens (opens : list (string * gotime)) : list (string * gotime) :=
  match opens with
  | [] => []
  | (id, now) :: r =>
      let before := counted_opens r in
      match last_counted id before with
      | Some ts => if (now - ts <? dedupTTL)%Z then before else (id, now) :: before
      | None => (id, now) :: before
      end
  end.

(** The same opens through the handler's memory, the last first. *)
Fixpoint handled_opens (opens : list (string * gotime)) : list (string * gotime) * RecentOpens :=
  match opens with
  | [] => ([], no_opens)
  | (id, now) :: r =>
      let '(before, o) := handled_opens r in
      let '(duplicate, o) := isDuplicate id now o in
      (if duplicate then before else (id, now) :: before, o)
  end.

(** The times of the requests, the last first, do not go back. *)
Definition clock_ordered (opens : list (string * gotime)) : Prop :=
  Sorted (fun a b => b.2 <= a.2)%Z opens.

(** What the sweeps forget is too old to matter. *)
Definition remembers (now : gotime) (o : RecentOpens) (counted : list (string * gotime)) : Prop :=
  forall id, match ro_recentOpens o !! id with
             | Some ts => last_counted id counted = Some ts
             | None => forall ts, last_counted id counted = Some ts -> (dedupTTL <= now - ts)%Z
             end.

Lemma remembers_later now now' o counted : (now <= now')%Z -> remembers now o counted -> remembers now' o counted.
Proof.
  intros Hn Hr id. specialize (Hr id). destruct (_ !! id); [done|]. intros ts Ht. specialize (Hr ts Ht). lia.
Qed.

Lemma sweep_remembers now o counted : remembers now o counted -> remembers now (sweep now o) counted.
Proof.
  intros Hr. unfold sweep. destruct (_ <=? _)%Z; [|done]. intros id. specialize (Hr id). simpl.
  rewrite map_lookup_filter. destruct (ro_recentOpens o !! id) as [ts|]; simpl; [|done].
  unfold guard. case_decide as Hd; simpl; [done|]. intros ts' Ht. rewrite Hr in Ht. injection Ht as <-. lia.
Qed.

Lemma isDuplicate_exact id now o counted :
  remembers now o counted ->
  let d := match last_counted id counted with Some ts => (now - ts <? dedupTTL)%Z | None => false end in
  let after := if d then counted else (id, now) :: counted in
  (isDuplicate id now o).1 = d /\ remembers now (isDuplicate id now o).2 after.
Proof.
  intros Hr%sweep_remembers d after. subst after d. unfold isDuplicate. set (o' := sweep now o) in *.
  pose proof (Hr id) as Hid. destruct (ro_recentOpens o' !! id) as [ts|] eqn:E.
  - rewrite Hid. destruct (now - ts <? dedupTTL)%Z; simpl; [done|]. split; [done|].
    intros id'. simpl. case_bool_decide as Hd; [subst; by rewrite lookup_insert_eq|].
    rewrite lookup_insert_ne by done. apply Hr.
  - assert ((match last_counted id counted with Some ts => (now - ts <? dedupTTL)%Z | None => false end) = false) as ->.
    { destruct (last_counted id counted) as [ts|]; [|done]. specialize (Hid ts eq_refl). apply Z.ltb_ge. lia. }
    simpl. split; [done|]. intros id'. simpl. case_bool_decide as Hd; [subst; by rewrite lookup_insert_eq|].
    rewrite lookup_insert_ne by done. apply Hr.
Qed.

(** The memory of the handler, with its sweeps, counts exactly the opens that
    the reference counts. *)
Lemma opens_exact opens : clock_ordered opens ->
  (handled_opens opens).1 = counted_opens opens /\
  forall now, from_option (fun o => (o.2 <= now)%Z) True (head opens) ->
    remembers now (handled_opens opens).2 (counted_opens opens).
Proof.
  induction opens as [|[id now] r IH]; intros Hs.
  { split; [done|]. intros now _ id. simpl. by rewrite lookup_empty. }
  apply Sorted_inv in Hs as [Hr Hh]. destruct (IH Hr) as [E Hrem]. simpl.
  destruct (handled_opens r) as [before o]. simpl in E, Hrem. subst before.
  assert (Hnow : remembers now o (counted_opens r)).
  { apply Hrem. destruct r as [|[id' now'] r']; [done|]. by inversion Hh. }
  pose proof (isDuplicate_exact id now o _ Hnow) as [Ed Ha].
  destruct (isDuplicate id now o) as [d o'] eqn:Ei. simpl in *. subst d.
  destruct (last_counted id (counted_opens r)) as [ts|]; [destruct (now - ts <? dedupTTL)%Z|]; simpl;
    (split; [done|]; intros now' Hle; by eapply remembers_later).
Qed.

(** Opens of one email that count are thirty seconds apart. *)
Lemma counted_spaced opens l1 id t2 l2 t1 l3 : clock_ordered opens ->
  counted_opens opens = l1 ++ (id, t2) :: l2 ++ (id, t1) :: l3 -> (dedupTTL <= t2 - t1)%Z.
Proof.
  revert l1 id t2 l2 t1 l3. induction opens as [|[id' now] r IH]; intros l1 id t2 l2 t1 l3 Hs E; [by destruct l1|].
  apply Sorted_inv in Hs as [Hr _]. simpl in E.
  assert (Hlast : forall id l2 t1 l3, exists t, last_counted id (l2 ++ (id, t1) :: l3) = Some t /\
            (t = t1 \/ exists a b, l2 = a ++ (id, t) :: b)).
  { clear. intros id l2 t1 l3. induction l2 as [|[i t] l2 IH]; simpl.
    - rewrite bool_decide_eq_true_2 by done. by exists t1; auto.
    - case_bool_decide as Hi; [subst; exists t; split; [done|right; by exists [], l2]|].
      destruct IH as (t' & -> & [->|(a & b & ->)]); [by exists t1; auto|].
      exists t'. split; [done|right]. by exists ((i, t) :: a), b. }
  destruct (last_counted id' (counted_opens r)) as [ts|] eqn:El; [destruct (Z.ltb_spec (now - ts) dedupTTL)|].
  - by eapply IH.
  - destruct l1 as [|p l1]; [|injection E as _ E; by eapply IH]. injection E as -> -> E.
    rewrite E in El. destruct (Hlast id l2 t1 l3) as (t & Et & Ht). rewrite El in Et. injection Et as <-.
    destruct Ht as [->|(a & b & ->)]; [lia|].
    rewrite <- app_assoc in E. specialize (IH _ _ _ _ _ _ Hr E). unfold dedupTTL, Second in *. lia.
  - destruct l1 as [|p l1]; [|injection E as _ E; by eapply IH]. injection E as -> -> E.
    rewrite E in El. destruct (Hlast id l2 t1 l3) as (t & Et & _). by rewrite El in Et.
Qed.

(** An open that does not count follows one that does. *)
Lemma counted_covers opens id now : clock_ordered opens -> (id, now) ∈ opens ->
  exists ts, (id, ts) ∈ counted_opens opens /\ (0 <= now - ts < dedupTTL)%Z.
Proof.
  induction opens as [|[id' now'] r IH]; intros Hs Hin; [by apply not_elem_of_nil in Hin|].
  assert (Hr : clock_ordered r) by by apply Sorted_inv in Hs as [? _].
  assert (Hcov : forall id ts, last_counted id (counted_opens r) = Some ts -> (id, ts) ∈ counted_opens r).
  { clear. intros id ts. induction (counted_opens r) as [|[i t] l IHl]; simpl; [done|].
    case_bool_decide; [intros [= <-]; subst; left|intros; right; auto]. }
  assert (Hsub : forall l, l ∈ r -> (l.2 <= now')%Z).
  { intros l Hl. apply Sorted_StronglySorted in Hs; [|intros a b c; lia].
    apply StronglySorted_inv in Hs as [_ Hf]. rewrite Forall_forall in Hf. by apply (Hf l). }
  assert (Hc : forall x, x ∈ counted_opens r -> x ∈ r).
  { clear. induction r as [|[i t] r IHr]; simpl; [done|]. intros x Hx.
    assert (x = (i, t) \/ x ∈ counted_opens r) as [->|Hx'].
    { repeat case_match; [by right|by apply elem_of_cons in Hx|by apply elem_of_cons in Hx]. }
    - left.
    - right. auto. }
  simpl. apply elem_of_cons in Hin as [ [= -> ->]|Hin].
  - destruct (last_counted id' (counted_opens r)) as [ts|] eqn:El.
    + apply Hcov in El. pose proof (Hsub _ (Hc _ El)) as Hle. simpl in Hle.
      destruct (Z.ltb_spec (now' - ts) dedupTTL); [exists ts|exists now']; (split; [set_solver|]); unfold dedupTTL, Second in *; lia.
    + exists now'. split; [left|]. unfold dedupTTL, Second. lia.
  - destruct (IH Hr Hin) as (ts & Hts & ?). exists ts. split; [|done].
    repeat case_match; [done|right; done|right; done].
Qed.

Section Visits.
Context `{GoStd} {W : Type} (h : TrackingHandler W).

(** The requests of a history, one after the other: each with its time, the
    last first, and the state they leave. *)
Fixpoint visit (cs : list Conn) (x : W * RecentOpens) : list (string * gotime) * (W * RecentOpens) :=
  match cs with
  | [] => ([], x)
  | c :: r =>
      let '(opens, x) := visit r x in
      ((Param "tracking_id" c, (rt_Now (th_rt h) x.1).1) :: opens, (HandleOpen h (x, c)).2.1)
  end.

Lemma HandleOpen_run c w o : Param "tracking_id" c <> "" ->
  let now := (rt_Now (th_rt h) w).1 in
  let '(duplicate, o') := isDuplicate (Param "tracking_id" c) now o in
  (HandleOpen h ((w, o), c)).2.1 =
    ((rt_Now (th_rt h) w).2, if duplicate then o' else start_goroutine (Param "tracking_id" c) o').
Proof.
  intros Hid now. unfold HandleOpen, bind, conn, get_state, up, down, Now, total. simpl.
  rewrite bool_decide_eq_false_2 by done. subst now.
  destruct (rt_Now (th_rt h) w) as [now w']. simpl. destruct (isDuplicate _ _ o) as [d o']. simpl.
  destruct d; unfold returnPixel, set_state, bind, Blob, write; simpl; reflexivity.
Qed.

(** The goroutines in flight do not matter to the memory. *)
Lemma isDuplicate_flight id now o fl :
  isDuplicate id now (mkRecentOpens (ro_recentOpens o) (ro_lastEviction o) fl)
  = ((isDuplicate id now o).1,
     mkRecentOpens (ro_recentOpens (isDuplicate id now o).2) (ro_lastEviction (isDuplicate id now o).2) fl).
Proof.
  unfold isDuplicate, sweep. simpl. destruct (_ <=? _)%Z; simpl;
    (destruct (_ !! id) as [ts|]; [destruct (_ <? _)%Z|]; reflexivity).
Qed.

Lemma visit_opens cs w : Forall (fun c => Param "tracking_id" c <> "") cs ->
  let '(opens, x) := visit cs (w, no_opens) in
  let '(counted, o) := handled_opens opens in
  x.2 = mkRecentOpens (ro_recentOpens o) (ro_lastEviction o) (rev (fst <$> counted)).
Proof.
  induction 1 as [|c cs Hc _ IH]; [done|]. simpl.
  destruct (visit cs (w, no_opens)) as [opens [w1 o1] ]. simpl in *.
  destruct (handled_opens opens) as [counted o].
  subst o1. set (o1 := mkRecentOpens _ _ _). pose proof (HandleOpen_run c w1 o1 Hc) as Hrun. simpl in Hrun.
  unfold o1 in Hrun at 1. rewrite isDuplicate_flight in Hrun. rewrite Hrun. clear Hrun.
  destruct (isDuplicate (Param "tracking_id" c) _ o) as [d o']. simpl.
  by destruct d.
Qed.
End Visits.

(** C25: the pixel counts an open of an email if, and only if, none counted in the
    thirty seconds before: over any history of requests on a clock that does not
    go back, the goroutines started are exactly those of the reference that
    forgets nothing; opens of one email that count are thirty seconds apart, and
    every request is within thirty seconds of one that counted. *)
Theorem opens_deduplicated `{GoStd} {W} (h : TrackingHandler W) cs w :
  Forall (fun c => Param "tracking_id" c <> "") cs ->
  let '(opens, x) := visit h cs (w, no_opens) in
  clock_ordered opens ->
  ro_inFlight x.2 = rev (fst <$> counted_opens opens) /\
  (forall l1 id t2 l2 t1 l3, counted_opens opens = l1 ++ (id, t2) :: l2 ++ (id, t1) :: l3 -> (dedupTTL <= t2 - t1)%Z) /\
  (forall id now, (id, now) ∈ opens -> exists ts, (id, ts) ∈ counted_opens opens /\ (0 <= now - ts < dedupTTL)%Z).
Proof.
  intros Hc. pose proof (visit_opens h cs w Hc) as Hv. destruct (visit h cs (w, no_opens)) as [opens x].
  intros Ho. destruct (opens_exact opens Ho) as [E _]. destruct (handled_opens opens) as [counted o]. simpl in E. subst counted.
  rewrite Hv. split; [done|]. split; [intros *; by apply counted_spaced|intros *; by apply counted_covers].
Qed.
