(* ===== verification/AdapterRoutes.v ===== *)
(** * Tracking set-up and the adapter routes ([http/handler/adapter_setup.go],
      [http/routes_management.go])

    The handlers of an adapter's tracking resources, the wiring of the stores and
    services of adapters and identities, and their routes. *)
From stdpp Require Import base gmap strings list sorting.
From Stdlib Require Import ZArith NArith Ascii String Lia.
From S2P Require Import Prelude GoMonad Domain Ports Token Config Http Suppression Postgres Database Directory.
From S2P Require Import Auth Members Surface Inheritance Hosted Templates TemplateHandlers Fleet Provisioning SNS Access AdapterConfig.
From S2P Require Import AdapterHandlers Identities PublicHandlers.

(** ** The set-up guide *)

#[local] Instance setup_before_dec : RelDecision key_before.
Proof. intros a b. unfold key_before. apply _. Defined.

(** A [map[string]any], marshalled with its keys in order. *)
Definition map_object (l : list (string * any)) : any := AMap (merge_sort key_before l).

Definition ProvisioningStepStatus_String (s : ProvisioningStepStatus) : string :=
  match s with ProvisionStepPending => "pending" | ProvisionStepCompleted => "completed" | ProvisionStepFailed => "failed" end.

Section Guide.
Context `{GoStd}.

Definition guide_step (n : Z) (title description : string) (rest : list (string * string)) : any :=
  map_object ([("step", AInt n); ("title", AStr title); ("description", AStr description)]
              ++ ((fun kv => (kv.1, AStr kv.2)) <$> rest)).

(** The keys and strings of the CLI's JSON are quoted. *)
Definition event_destination : string :=
  "{" +:+ Quote "Enabled" +:+ ":true," +:+ Quote "MatchingEventTypes" +:+ ":[" +:+ Quote "SEND" +:+ "," +:+ Quote "DELIVERY"
  +:+ "," +:+ Quote "BOUNCE" +:+ "," +:+ Quote "COMPLAINT" +:+ "]," +:+ Quote "SnsDestination" +:+ ":{" +:+ Quote "TopicArn"
  +:+ ":" +:+ Quote "<YOUR_TOPIC_ARN>" +:+ "}}".

Definition guide_steps (adapterID configSetName topicName webhookEndpoint : string) : list any :=
  [guide_step 1 "Create Configuration Set in SES"
     "A Configuration Set tells SES to emit events (delivery, bounce, complaint) for emails sent through it."
     [("aws_cli", "aws sesv2 create-configuration-set --configuration-set-name " +:+ configSetName);
      ("required_permission", "ses:CreateConfigurationSet")];
   guide_step 2 "Create SNS Topic" "An SNS topic acts as the message bus between SES and Senda."
     [("aws_cli", "aws sns create-topic --name " +:+ topicName); ("required_permission", "sns:CreateTopic");
      ("note", "Save the TopicArn from the output — you'll need it in the next steps.")];
   guide_step 3 "Configure Event Destination" "Link the Configuration Set to the SNS Topic so SES publishes events there."
     [("aws_cli", "aws sesv2 create-configuration-set-event-destination --configuration-set-name " +:+ configSetName
                  +:+ " --event-destination-name senda-events --event-destination '" +:+ event_destination +:+ "'");
      ("required_permission", "ses:CreateConfigurationSetEventDestination")];
   guide_step 4 "Subscribe Senda webhook to SNS Topic"
     "Create an HTTPS subscription so SNS forwards events to Senda. Senda auto-confirms the subscription."
     [("aws_cli", "aws sns subscribe --topic-arn <YOUR_TOPIC_ARN> --protocol https --endpoint " +:+ webhookEndpoint);
      ("required_permission", "sns:Subscribe")];
   guide_step 5 "Register Configuration Set in Senda"
     "Update the adapter with the Configuration Set name so Senda includes it when sending emails."
     [("api_call", "PATCH /adapters/" +:+ adapterID +:+ " with body: {" +:+ Quote "configuration_set_name" +:+ ": "
                   +:+ Quote configSetName +:+ "}")]].

Definition statement (sid : string) (actions : list string) : any :=
  map_object [("Sid", AStr sid); ("Effect", AStr "Allow"); ("Action", strings actions); ("Resource", AStr "*")].
Definition iam_policy : any :=
  map_object [("Version", AStr "2012-10-17");
    ("Statement", AList [
       statement "SESSending" ["ses:SendEmail"; "ses:SendRawEmail"; "ses:ListEmailIdentities"; "ses:GetAccount"];
       statement "SESManagement" ["ses:CreateConfigurationSet"; "ses:CreateConfigurationSetEventDestination";
         "ses:DeleteConfigurationSet"; "ses:DeleteConfigurationSetEventDestination"; "ses:ListConfigurationSets"];
       statement "SNSForTracking" ["sns:CreateTopic"; "sns:Subscribe"; "sns:GetSubscriptionAttributes";
         "sns:Unsubscribe"; "sns:DeleteTopic"; "sns:ListTopics"]])].

Definition guide_of (adapter : Adapter) (supported : bool) (rest : list (string * any)) : any :=
  map_object ([("adapter_type", AStr (AdapterType_String (ad_AdapterType adapter)));
               ("adapter_id", AStr (uuid_String (ad_ID adapter))); ("tracking_supported", ABool supported)] ++ rest).

Definition buildSESGuide (webhookURL : string) (adapter : Adapter) : any :=
  let short := shortID (ad_ID adapter) in
  let webhookEndpoint := webhookURL +:+ "/api/v1/webhooks/ses/inbound" in
  guide_of adapter true
    [("webhook_url", AStr webhookEndpoint);
     ("steps", AList (guide_steps (uuid_String (ad_ID adapter)) ("senda-" +:+ short) ("senda-ses-events-" +:+ short) webhookEndpoint));
     ("iam_policy", iam_policy)].
Definition buildGmailGuide (adapter : Adapter) : any :=
  guide_of adapter false
    [("message", AStr ("Gmail API does not support delivery/bounce webhooks. Emails sent via Gmail will show as 'sent' without "
                       +:+ "further status updates. For full tracking (delivery, bounce, complaint, open), use an SES adapter."))].
Definition setup_guide (webhookURL : string) (adapter : Adapter) : any :=
  match ad_AdapterType adapter with
  | AdapterTypeSES => buildSESGuide webhookURL adapter
  | AdapterTypeGmail => buildGmailGuide adapter
  | _ => guide_of adapter false [("message", AStr "This adapter type does not support event tracking.")]
  end.
End Guide.

(** ** The handlers *)

Section Setup.
Context `{GoStd} `{Codec} `{Parsers} `{TimeFormat} `{AwsErrors} `{JSON SESConfig} `{JSON (option fields_map)} {Aws : Type}.
#[local] Abbreviation Handler := (HandlerFunc Flt).

(** The provisioner is nil when no base URL is configured. *)
Record AdapterSetupHandler := mkSetupHandler {
  sh_tsStore : TenantStore.t Flt;
  sh_wsStore : WorkspaceStore.t Flt;
  sh_webhookURL : string;
  sh_provisioner : option (TrackingProvisioner Aws Flt);
  sh_stepStore : option (ProvisioningStepStore Flt);
}.
Context (h : AdapterSetupHandler).

Definition in_workspace (k : option uuid -> Handler) : Handler :=
  stored (resolveWorkspace (sh_tsStore h) (sh_wsStore h)) (fun ws => k (Some (ws_ID ws))).

Definition scoped_adapter (workspaceID : option uuid) (k : uuid -> Adapter -> Handler) : Handler := adapter_id (fun adapterID =>
  stored (up (AdapterRepo_GetByID adapterID)) (fun adapter =>
    if negb (sameScope (ad_WorkspaceID adapter) workspaceID) then resource_not_found else k adapterID adapter)).

Definition setupGuide (workspaceID : option uuid) : Handler :=
  scoped_adapter workspaceID (fun _ adapter => JSON_reply 200 (setup_guide (sh_webhookURL h) adapter)).

Definition step_result (s : ProvisionStep) : any :=
  AMap (text "name" (pv_Name s) ++ text "status" (pv_Status s) ++ filled "detail" (pv_Detail s)
        ++ optional "resource_name" (pv_ResourceName s) ++ optional "resource_arn" (pv_ResourceARN s)).
(** A nil result, and the nil list of a result without steps, are [null]. *)
Definition provision_result (r : option ProvisionResult) : any :=
  match r with
  | None => ANil
  | Some r =>
      AMap (text "configuration_set_name" (pr_ConfigSetName r) ++ text "topic_arn" (pr_TopicARN r)
            ++ text "subscription_arn" (pr_SubscriptionARN r) ++ text "webhook_url" (pr_WebhookURL r)
            ++ field "steps" (match pr_Steps r with [] => ANil | l => AList (step_result <$> l) end))
  end.

Definition autoProvision (workspaceID : option uuid) : Handler :=
  match sh_provisioner h with
  | None => WriteError 501 "NOT_IMPLEMENTED" "auto-provisioning is not available (tracking base URL not configured)"
  | Some provisioner =>
      scoped_adapter workspaceID (fun adapterID _ =>
        let! outcome := up (Provision provisioner adapterID) in
        match outcome with
        | (result, Some e) =>
            if IsAccessDenied e then
              JSON_reply 403 (map_object [("error", AStr "INSUFFICIENT_PERMISSIONS");
                ("message", AStr ("The adapter's AWS credentials lack permissions for auto-provisioning. "
                                  +:+ "Use the setup guide for manual configuration."));
                ("result", provision_result result)])
            else JSON_reply 422 (map_object [("error", AStr "PROVISIONING_FAILED"); ("message", AStr (error_string e));
                                             ("result", provision_result result)])
        | (result, None) => JSON_reply 200 (provision_result result)
        end)
  end.

(** The overall status of the recorded steps. *)
Fixpoint overall_status (acc : string) (l : list AdapterProvisioningStep) : string :=
  match l with
  | [] => acc
  | s :: r => match st_Status s with
              | ProvisionStepFailed => "failed"
              | ProvisionStepPending => overall_status "in_progress" r
              | ProvisionStepCompleted => overall_status acc r
              end
  end.
Definition derived_status (l : list AdapterProvisioningStep) : string :=
  if forallb (fun s => bool_decide (st_Status s = ProvisionStepPending)) l then "not_started" else overall_status "completed" l.

Definition step_response (s : AdapterProvisioningStep) : any :=
  map_object (text "name" (st_StepName s) ++ field "order" (AInt (st_StepOrder s))
    ++ text "status" (ProvisioningStepStatus_String (st_Status s))
    ++ optional "resource_name" (st_ResourceName s) ++ optional "resource_arn" (st_ResourceARN s)
    ++ optional "error_message" (st_ErrorMessage s) ++ optional "started_at" (rfc3339nano <$> st_StartedAt s)
    ++ optional "completed_at" (rfc3339nano <$> st_CompletedAt s)).
Definition status_response (adapterID : uuid) (status : string) (steps : list any) : any :=
  map_object [("adapter_id", AStr (uuid_String adapterID)); ("status", AStr status); ("steps", AList steps)].

Definition provisioningStatus (workspaceID : option uuid) : Handler :=
  scoped_adapter workspaceID (fun adapterID _ =>
    let not_started := JSON_reply 200 (status_response adapterID "not_started" []) in
    match sh_stepStore h with
    | None => not_started
    | Some store =>
        stored (up (ListSteps store adapterID)) (fun steps =>
          match steps with
          | [] => not_started
          | _ => JSON_reply 200 (status_response adapterID (derived_status steps) (step_response <$> steps))
          end)
    end).

Definition Setup_SetupGuide : Handler := in_workspace setupGuide.
Definition Setup_SetupGuideGlobal : Handler := setupGuide None.
Definition Setup_AutoProvision : Handler := in_workspace autoProvision.
Definition Setup_AutoProvisionGlobal : Handler := autoProvision None.
Definition Setup_ProvisioningStatus : Handler := in_workspace provisioningStatus.
Definition Setup_ProvisioningStatusGlobal : Handler := provisioningStatus None.
End Setup.
Arguments AdapterSetupHandler : clear implicits.

(** ** Wiring ([app/bootstrap.go]) and routes *)

Section Routes.
Context `{GoStd} `{Codec} `{Parsers} `{NetIP} `{TimeParser} `{TimeFormat} `{AwsErrors} {Aws : Type}.
Context `{JSON (option fields_map)} `{JSON SMTPConfig} `{JSON SESConfig}.
Context `{Binder CreateAdapterRequest} `{Binder UpdateAdapterRequest} `{Binder TestAdapterRequest}.
Context `{Binder UpdateWorkspaceAccessRequest} `{Binder ValidateSESRequest} `{Binder CreateManualIdentityRequest}.
Context (ilike collate : string -> string -> bool).
#[local] Abbreviation tenants := (HostedTenants (T:=Fleet) ilike).
#[local] Abbreviation workspaces := (HostedWorkspaces (T:=Fleet) ilike).

Definition fleet_access : AdapterAccessService Flt := {|
  aas_adapterStore := {| GetAdapterByID := AdapterRepo_GetByID; ListAdaptersByWorkspace := Adapters_ListByWorkspace |};
  aas_identityStore := {| GetIdentityByID := IdentityRepo_GetByID; GetDefaultIdentity := IdentityRepo_GetDefault;
                          ListIdentitiesByAdapter := ListByAdapter collate |};
  aas_workspaceStore := workspaces;
  aas_adapterGrants := Some {| ListAdapterWorkspaceGrants := GrantRepo_List; ReplaceAdapterWorkspaceGrants := GrantRepo_Replace;
                               HasAdapterWorkspaceGrant := GrantRepo_Has; ListVisibleAdaptersForWorkspace := GrantRepo_ListVisible |};
  aas_identityGrants := Some {| ListIdentityWorkspaceGrants := IdentityGrants_List; ReplaceIdentityWorkspaceGrants := IdentityGrants_Replace;
                                HasIdentityWorkspaceGrant := IdentityGrants_Has;
                                ListGrantedIdentitiesForWorkspace := IdentityGrants_ListGranted collate |};
  aas_templateTypeUsages := {| ListWorkspacesUsingAdapter := Usages_UsingAdapter;
                               ListWorkspacesUsingSenderIdentity := Usages_UsingSender |};
|}.

(** What start-up makes of the configuration: the cipher, the providers' factories
    and the AWS clients. *)
Context (Encrypt Decrypt : string -> M Flt string) (baseURL : string).
Context (senderFactory : Adapter -> string -> M Flt (OutgoingEmail -> M Flt string)).
Context (providerFactory : Adapter -> string -> M Flt (option (M Flt (list ProviderIdentity)))).
Context (LoadDefaultConfig : string -> option (string * string) -> M Flt Aws).
Context (clientFactory : Aws -> string -> SESAPI Flt * SNSAPI Flt) (bindingRegistrar : option (string -> Flt -> Flt)).
Context (smtpPolicy : CleartextAuthPolicy) (ValidateCredentials : SESConfig -> M Flt any).

Definition fleet_provisioner : TrackingProvisioner Aws Flt :=
  mkProvisioner AdapterRepo_GetByID (fun a => AdapterRepo_Update a ;;; ret tt) Encrypt Decrypt baseURL LoadDefaultConfig clientFactory
    (Some ProvisioningStepRepo) bindingRegistrar.
(** The provisioner exists when the tracking base URL is configured. *)
Definition when_tracking : option (TrackingProvisioner Aws Flt) :=
  if bool_decide (baseURL = "") then None else Some fleet_provisioner.

(** An interface that holds a nil provisioner is not nil: its method panics. *)
Definition fleet_deprovision (adapterID : uuid) : M Flt unit :=
  match when_tracking with Some provisioner => Deprovision provisioner adapterID | None => fail nil_dereference end.

Definition fleet_adapters : AdapterHandler :=
  mkAdapterHandler tenants workspaces (Some fleet_access) (Some Audit_Append) Encrypt Decrypt senderFactory
    (ListByAdapter collate) (Some fleet_deprovision) smtpPolicy ValidateCredentials.
Definition fleet_identities : IdentityHandler :=
  mkIdentityHandler (mkIdentityService Decrypt providerFactory) tenants workspaces (Some fleet_access) (Some Audit_Append).
Definition fleet_setup : AdapterSetupHandler Aws :=
  mkSetupHandler tenants workspaces baseURL when_tracking (Some ProvisioningStepRepo).

Definition workspace_adapter_routes (group : string) : list (Route Flt) :=
  let adapters := group +:+ "/adapters" in
  let adapter := adapters +:+ "/:id" in
  let identities := adapter +:+ "/identities" in
  let identity := identities +:+ "/:identity_id" in
  [mkRoute "GET" adapters RoleWorkspaceViewer (Adapters_List fleet_adapters);
   mkRoute "POST" adapters RoleWorkspaceAdmin (Adapters_Create fleet_adapters);
   mkRoute "POST" (adapters +:+ "/validate-ses") RoleWorkspaceAdmin (Adapters_ValidateSES fleet_adapters);
   mkRoute "GET" adapter RoleWorkspaceViewer (Adapters_Get fleet_adapters);
   mkRoute "PUT" adapter RoleWorkspaceAdmin (Adapters_Update fleet_adapters);
   mkRoute "DELETE" adapter RoleWorkspaceAdmin (Adapters_SoftDelete fleet_adapters);
   mkRoute "POST" (adapter +:+ "/test") RoleWorkspaceViewer (Adapters_TestConnection fleet_adapters);
   mkRoute "GET" (adapter +:+ "/workspace-access") RoleWorkspaceAdmin (Adapters_GetWorkspaceAccess fleet_adapters);
   mkRoute "PUT" (adapter +:+ "/workspace-access") RoleWorkspaceAdmin (Adapters_UpdateWorkspaceAccess fleet_adapters);
   mkRoute "GET" (adapter +:+ "/setup-guide") RoleWorkspaceViewer (Setup_SetupGuide fleet_setup);
   mkRoute "POST" (adapter +:+ "/auto-provision-tracking") RoleWorkspaceAdmin (Setup_AutoProvision fleet_setup);
   mkRoute "GET" (adapter +:+ "/provisioning-status") RoleWorkspaceViewer (Setup_ProvisioningStatus fleet_setup);
   mkRoute "GET" identities RoleWorkspaceViewer (Identities_List collate fleet_identities);
   mkRoute "POST" identities RoleWorkspaceAdmin (Identities_Create collate fleet_identities);
   mkRoute "POST" (identities +:+ "/sync") RoleWorkspaceAdmin (Identities_Sync collate fleet_identities);
   mkRoute "DELETE" identity RoleWorkspaceAdmin (Identities_Delete fleet_identities);
   mkRoute "POST" (identity +:+ "/set-default") RoleWorkspaceAdmin (Identities_SetDefault fleet_identities);
   mkRoute "GET" (identity +:+ "/workspace-access") RoleWorkspaceAdmin (Identities_GetWorkspaceAccess fleet_identities);
   mkRoute "PUT" (identity +:+ "/workspace-access") RoleWorkspaceAdmin (Identities_UpdateWorkspaceAccess fleet_identities);
   mkRoute "GET" (group +:+ "/audit-log") RoleWorkspaceViewer (Audit_QueryWorkspace tenants workspaces)].

Definition global_adapter_routes : list (Route Flt) :=
  let adapter := "/global/adapters/:id" in
  let identities := adapter +:+ "/identities" in
  let identity := identities +:+ "/:identity_id" in
  [mkRoute "GET" "/global/adapters" RoleSuperadmin (Adapters_ListGlobal fleet_adapters);
   mkRoute "POST" "/global/adapters" RoleSuperadmin (Adapters_CreateGlobal fleet_adapters);
   mkRoute "GET" adapter RoleSuperadmin (Adapters_GetGlobal fleet_adapters);
   mkRoute "PUT" adapter RoleSuperadmin (Adapters_UpdateGlobal fleet_adapters);
   mkRoute "DELETE" adapter RoleSuperadmin (Adapters_SoftDeleteGlobal fleet_adapters);
   mkRoute "POST" (adapter +:+ "/test") RoleSuperadmin (Adapters_TestConnectionGlobal fleet_adapters);
   mkRoute "GET" (adapter +:+ "/setup-guide") RoleSuperadmin (Setup_SetupGuideGlobal fleet_setup);
   mkRoute "POST" (adapter +:+ "/auto-provision-tracking") RoleSuperadmin (Setup_AutoProvisionGlobal fleet_setup);
   mkRoute "GET" (adapter +:+ "/provisioning-status") RoleSuperadmin (Setup_ProvisioningStatusGlobal fleet_setup);
   mkRoute "GET" identities RoleSuperadmin (Identities_ListGlobal collate fleet_identities);
   mkRoute "POST" identities RoleSuperadmin (Identities_CreateGlobal collate fleet_identities);
   mkRoute "POST" (identities +:+ "/sync") RoleSuperadmin (Identities_SyncGlobal collate fleet_identities);
   mkRoute "DELETE" identity RoleSuperadmin (Identities_DeleteGlobal fleet_identities);
   mkRoute "POST" (identity +:+ "/set-default") RoleSuperadmin (Identities_SetDefaultGlobal fleet_identities);
   mkRoute "GET" "/global/audit-log" RoleSuperadmin Audit_QueryGlobal].

Definition adapter_routes : list (Route Flt) :=
  workspace_adapter_routes "/tenants/:tenant_code/workspaces/:workspace_code"
  ++ workspace_adapter_routes "/environments/:environment/tenants/:tenant_code/workspaces/:workspace_code"
  ++ global_adapter_routes.
End Routes.
