(* ===== verification/AdapterSafety.v ===== *)
(** * What a request to the adapter routes may change

    A request about adapters, sender identities, grants or tracking resources
    changes only what belongs to the adapters of one scope: those of the workspace
    its path names, for a caller with the route's role there, or of one scope of a
    superadmin's choice. *)
From stdpp Require Import base gmap strings list sorting.
From Stdlib Require Import ZArith NArith Ascii String Lia.
From S2P Require Import Prelude GoMonad Domain Ports Token Config Http Suppression Postgres Database Directory.
From S2P Require Import Auth Members Roles Gates Surface Authority Inheritance Hosted Templates Versions TemplateHandlers Fleet Provisioning SNS TenantSafety Tracking Access.
From S2P Require Import Resolution AdapterConfig AdapterHandlers Identities PublicHandlers AdapterRoutes.

(** ** Within a scope *)

(** The rows that satisfy [P] are the same in both tables. *)
Definition stays {A} (P : A -> Prop) (m m' : gmap uuid A) : Prop := forall id a, P a -> m !! id = Some a <-> m' !! id = Some a.

Lemma stays_insert {A} (P : A -> Prop) (m : gmap uuid A) id a : (forall b, m !! id = Some b -> ~ P b) -> ~ P a -> stays P m (<[id := a]> m).
Proof.
  intros Hm Ha j b Hb. destruct (decide (id = j)) as [<-|Hne]; [|by rewrite lookup_insert_ne].
  rewrite lookup_insert_eq. split; [intros E; by destruct (Hm b E)|intros [= <-]; done].
Qed.
Lemma stays_filter {A} (P Q : A -> Prop) `{forall a, Decision (Q a)} (m : gmap uuid A) : (forall a, P a -> Q a) ->
  stays P m (filter (fun kv => Q kv.2) m).
Proof. intros HPQ j b Hb. rewrite map_lookup_filter_Some. simpl. naive_solver. Qed.
Lemma stays_fmap {A} (P : A -> Prop) f (m : gmap uuid A) : (forall a, P a -> f a = a) -> (forall a, P (f a) -> P a) -> stays P m (f <$> m).
Proof.
  intros Hf Hp j b Hb. rewrite lookup_fmap_Some. split.
  - intros E. exists b. by rewrite Hf.
  - intros (a & <- & E). by rewrite Hf in * by auto.
Qed.

(** The adapter is another scope's; the identity is of such an adapter. *)
Definition foreign (scope : option uuid) (t : Fleet) (adapterID : uuid) : Prop :=
  exists a, fl_adapters t !! adapterID = Some a /\ ad_WorkspaceID a <> scope.
Definition foreign_identity (scope : option uuid) (t : Fleet) (identityID : uuid) : Prop :=
  exists i, fl_identities t !! identityID = Some i /\ foreign scope t (id_AdapterID i).

Record within (scope : option uuid) (t t' : Fleet) : Prop := {
  wi_dir : fl_dir t' = fl_dir t;
  wi_adapters : stays (fun a => ad_WorkspaceID a <> scope) (fl_adapters t) (fl_adapters t');
  wi_identities : stays (fun i => foreign scope t (id_AdapterID i)) (fl_identities t) (fl_identities t');
  wi_steps : stays (fun s => foreign scope t (st_AdapterID s)) (fl_steps t) (fl_steps t');
  wi_adapter_grants g : foreign scope t g.1 -> g ∈ fl_adapter_grants t <-> g ∈ fl_adapter_grants t';
  wi_identity_grants g : foreign_identity scope t g.1 -> g ∈ fl_identity_grants t <-> g ∈ fl_identity_grants t';
  (** a type loses its sender with the identity *)
  wi_types id ty : (forall i, tt_SenderIdentityID ty = Some i -> foreign_identity scope t i) ->
    fl_types t !! id = Some ty -> fl_types t' !! id = Some ty;
  wi_type_ids : dom (fl_types t') = dom (fl_types t);
  (** the audit log only grows *)
  wi_audit : exists l, fl_audit t' = l ++ fl_audit t;
}.

Section Preorder.
Context (scope : option uuid).

Lemma within_foreign t t' id : within scope t t' -> foreign scope t id -> foreign scope t' id.
Proof. intros Hw (a & Ha & Hne). exists a. split; [by apply (wi_adapters _ _ _ Hw)|done]. Qed.
Lemma within_foreign_identity t t' id : within scope t t' -> foreign_identity scope t id -> foreign_identity scope t' id.
Proof.
  intros Hw (i & Hi & Hf). exists i. split; [by apply (wi_identities _ _ _ Hw)|by eapply within_foreign].
Qed.
#[local] Hint Resolve within_foreign within_foreign_identity : core.

#[export] Instance within_preorder : PreOrder (within scope).
Proof.
  split; [split; try done; by exists []|]. intros t1 t2 t3 H12 H23. split.
  - by rewrite (wi_dir _ _ _ H23), (wi_dir _ _ _ H12).
  - intros id a Ha. rewrite (wi_adapters _ _ _ H12 id a Ha). by apply (wi_adapters _ _ _ H23).
  - intros id a Ha. rewrite (wi_identities _ _ _ H12 id a Ha). apply (wi_identities _ _ _ H23). eauto.
  - intros id a Ha. rewrite (wi_steps _ _ _ H12 id a Ha). apply (wi_steps _ _ _ H23). eauto.
  - intros g Hg. rewrite (wi_adapter_grants _ _ _ H12 g Hg). apply (wi_adapter_grants _ _ _ H23). eauto.
  - intros g Hg. rewrite (wi_identity_grants _ _ _ H12 g Hg). apply (wi_identity_grants _ _ _ H23). eauto.
  - intros id ty Hty E. apply (wi_types _ _ _ H23); [eauto|]. by apply (wi_types _ _ _ H12).
  - by rewrite (wi_type_ids _ _ _ H23), (wi_type_ids _ _ _ H12).
  - destruct (wi_audit _ _ _ H12) as [l1 E1], (wi_audit _ _ _ H23) as [l2 E2]. exists (l2 ++ l1). by rewrite E2, E1, app_assoc.
Qed.
End Preorder.

(** What a request relies on while it runs: the tables have their primary keys,
    its adapter is the scope's, and so are the identities and steps it names. *)
Record fleet_keys (t : Fleet) : Prop := {
  fk_adapters : Database.keyed ad_ID (fl_adapters t);
  fk_identities : Database.keyed id_ID (fl_identities t);
  fk_steps : Database.keyed st_ID (fl_steps t);
}.
Record standing (scope : option uuid) (adapterID : uuid) (identities steps : list uuid) (t : Fleet) : Prop := {
  sg_keys : fleet_keys t;
  sg_adapter a : fl_adapters t !! adapterID = Some a -> ad_WorkspaceID a = scope;
  sg_identities id i : id ∈ identities -> fl_identities t !! id = Some i -> id_AdapterID i = adapterID;
  sg_steps id s : id ∈ steps -> fl_steps t !! id = Some s -> st_AdapterID s = adapterID;
}.

Definition guarded (scope : option uuid) (G : Fleet -> Prop) (t t' : Fleet) : Prop := G t -> G t' /\ within scope t t'.
#[export] Instance guarded_preorder scope G : PreOrder (guarded scope G).
Proof.
  split; [by intros t|]. intros t1 t2 t3 H12 H23 H1. destruct (H12 H1) as [H2 Hw], (H23 H2) as [H3 Hw']. split; [done|by etrans].
Qed.

(** ** Statements *)

Section Statements.
Context `{GoStd} `{Codec} (scope : option uuid) (adapterID : uuid) (ids sids : list uuid).
#[local] Abbreviation G := (standing scope adapterID ids sids).
#[local] Abbreviation R := (guarded scope G).

(** The adapter of the request is not another scope's. *)
Lemma own_adapter t : G t -> ~ foreign scope t adapterID.
Proof. intros Hg (a & Ha & Hne). by apply Hne, (sg_adapter _ _ _ _ _ Hg). Qed.

Lemma put_adapter a t : (forall b, fl_adapters t !! ad_ID a = Some b -> ad_WorkspaceID b = scope) -> ad_WorkspaceID a = scope ->
  R t (set_adapters <[ad_ID a := a]> t).
Proof.
  intros Hb Ha Hg. destruct Hg as [ [Hk1 Hk2 Hk3] Hga Hgi Hgs]. split.
  - split; simpl; [split; simpl; [by apply keyed_insert|done..]| |done|done].
    intros b [ [_ <-]|[_ E] ]%lookup_insert_Some; [done|by apply Hga].
  - split; simpl; try done; [|by exists []]. apply stays_insert; [|naive_solver]. intros b E Hne. apply Hne, Hb, E.
Qed.

Lemma put_identity i t : (forall j, fl_identities t !! id_ID i = Some j -> id_AdapterID j = adapterID) -> id_AdapterID i = adapterID ->
  R t (set_identities <[id_ID i := i]> t).
Proof.
  intros Hj Hi Hg. pose proof (own_adapter _ Hg) as Hown. destruct Hg as [ [Hk1 Hk2 Hk3] Hga Hgi Hgs]. split.
  - split; simpl; [split; simpl; [done|by apply keyed_insert|done]|done| |done].
    intros id j Hid [ [_ <-]|[_ E] ]%lookup_insert_Some; [done|by eapply Hgi].
  - split; simpl; try done; [|by exists []]. apply stays_insert; [intros j E; by rewrite (Hj j E)|by rewrite Hi].
Qed.

Lemma map_identities f t : (forall i, id_ID (f i) = id_ID i /\ id_AdapterID (f i) = id_AdapterID i) ->
  (forall i, id_AdapterID i <> adapterID -> f i = i) -> R t (set_identities (fmap f) t).
Proof.
  intros Hf Hsame Hg. pose proof (own_adapter _ Hg) as Hown. destruct Hg as [ [Hk1 Hk2 Hk3] Hga Hgi Hgs]. split.
  - split; simpl; [split; simpl; [done| |done]|done| |done].
    + intros id i (j & <- & E)%lookup_fmap_Some. rewrite (proj1 (Hf j)). by apply Hk2.
    + intros id i Hid (j & <- & E)%lookup_fmap_Some. rewrite (proj2 (Hf j)). by eapply Hgi.
  - split; simpl; try done; [|by exists []]. apply stays_fmap; intros i Hi.
    + apply Hsame. intros E. by rewrite E in Hi.
    + by rewrite (proj2 (Hf i)) in Hi.
Qed.

Lemma drop_identities_safe p t : (forall id i, fl_identities t !! id = Some i -> p i = true -> id_AdapterID i = adapterID) ->
  R t (drop_identities p t).
Proof.
  intros Hp Hg. pose proof (own_adapter _ Hg) as Hown. destruct Hg as [ [Hk1 Hk2 Hk3] Hga Hgi Hgs].
  assert (Hgone : forall id, foreign_identity scope t id ->
            match fl_identities t !! id with Some i => p i | None => false end = false).
  { intros id (i & E & Hf). rewrite E. apply not_true_is_false. intros Hpi. by rewrite (Hp _ _ E Hpi) in Hf. }
  split.
  - split; simpl; [split; simpl; [done| |done]|done| |done].
    + eapply keyed_sub; [apply map_filter_subseteq|done].
    + intros id i Hid [E _]%map_lookup_filter_Some. by eapply Hgi.
  - split; simpl; try done.
    + intros id i Hi. rewrite map_lookup_filter_Some. simpl. split; [|by intros [? _] ]. intros E. split; [done|].
      apply not_true_is_false. intros Hpi. by rewrite (Hp _ _ E Hpi) in Hi.
    + intros g Hf. rewrite elem_of_filter. split; [|by intros [_ ?] ]. intros Hin. split; [by apply Hgone|done].
    + intros id ty Hty E. rewrite lookup_fmap, E. simpl. f_equal. destruct ty as [? ? ? ? ? ? sender]; unfold without_sender; simpl in *.
      destruct sender as [i|]; [|done]. rewrite Hgone by (by apply Hty). done.
    + apply dom_fmap_L.
    + by exists [].
Qed.

Lemma put_steps f t : (forall id s, fl_steps t !! id = Some s -> foreign scope t (st_AdapterID s) -> f (fl_steps t) !! id = Some s) ->
  (forall id s, f (fl_steps t) !! id = Some s -> fl_steps t !! id = Some s \/ st_ID s = id /\ st_AdapterID s = adapterID) ->
  R t (set_steps f t).
Proof.
  intros Hkeep Hnew Hg. pose proof (own_adapter _ Hg) as Hown. destruct Hg as [ [Hk1 Hk2 Hk3] Hga Hgi Hgs]. split.
  - split; simpl; [split; simpl; [done|done|]|done|done|].
    + intros id s [E|[? _] ]%Hnew; [by apply Hk3|done].
    + intros id s Hid [E|[_ ?] ]%Hnew; [by eapply Hgs|done].
  - split; simpl; try done; [|by exists []]. intros id s Hs. split; [intros E; by apply Hkeep|].
    intros [E|[_ E] ]%Hnew; [done|by rewrite E in Hs].
Qed.

Lemma put_adapter_grants f t : (forall g, g.1 <> adapterID -> g ∈ fl_adapter_grants t <-> g ∈ f (fl_adapter_grants t)) ->
  R t (set_adapter_grants f t).
Proof.
  intros Hf Hg. pose proof (own_adapter _ Hg) as Hown. split; [by destruct Hg as [ [] ]|].
  split; simpl; try done; [|by exists []]. intros g Hfor. apply Hf. intros E. by rewrite E in Hfor.
Qed.

Lemma put_identity_grants id f t : id ∈ ids -> (forall g, g.1 <> id -> g ∈ fl_identity_grants t <-> g ∈ f (fl_identity_grants t)) ->
  R t (set_identity_grants f t).
Proof.
  intros Hid Hf Hg. pose proof (own_adapter _ Hg) as Hown. split; [by destruct Hg as [ [] ]|].
  split; simpl; try done; [|by exists []]. intros g (i & E & Hfor). apply Hf. intros Eg. rewrite Eg in E.
  by rewrite (sg_identities _ _ _ _ _ Hg _ _ Hid E) in Hfor.
Qed.

Lemma put_audit e t : R t (set_audit (cons e) t).
Proof. intros Hg. split; [by destruct Hg as [ [] ]|]. split; simpl; try done. by exists [e]. Qed.
End Statements.

(** ** The repositories *)

Section Repositories.
Context `{GoStd} `{Codec} (scope : option uuid) (adapterID : uuid) (ids sids : list uuid).
#[local] Abbreviation G := (standing scope adapterID ids sids).
#[local] Abbreviation R := (guarded scope G).
#[local] Abbreviation safe := (relates db_tables R).

(** What every row an operation relies on satisfies, under the guard. *)
Lemma under_guard (t t' : Fleet) : (G t -> R t t') -> R t t'.
Proof. intros Hr Hg. by apply Hr. Qed.

Lemma live_adapter_row id t a : live_adapter id t = Some a -> fl_adapters t !! id = Some a.
Proof. unfold live_adapter. by repeat case_match; intros [= <-]; subst. Qed.

Lemma AdapterRepo_Update_safe a : ad_ID a = adapterID -> safe (AdapterRepo_Update a).
Proof.
  intros Ha. related relates_exec. intros now t. rewrite Ha. destruct (live_adapter _ t) as [r|] eqn:E; [|done]. cbv zeta.
  destruct (violation _); [done|]. simpl. apply live_adapter_row in E. apply under_guard. intros Hg.
  pose proof (fk_adapters _ (sg_keys _ _ _ _ _ Hg) _ _ E) as Hid. simpl in Hid.
  rewrite <- Hid. apply (put_adapter _ _ _ _ (with_adapter now a r)); simpl.
  - intros b Hb. rewrite Hid in Hb. by apply (sg_adapter _ _ _ _ _ Hg).
  - by apply (sg_adapter _ _ _ _ _ Hg).
Qed.

Lemma AdapterRepo_SoftDelete_safe : safe (AdapterRepo_SoftDelete adapterID).
Proof.
  related relates_update. intros now a t E%live_adapter_row. apply under_guard. intros Hg.
  pose proof (fk_adapters _ (sg_keys _ _ _ _ _ Hg) _ _ E) as Hid. rewrite <- Hid.
  apply (put_adapter _ _ _ _ (with_adapter_deleted now a)); simpl.
  - intros b Hb. rewrite Hid in Hb. by apply (sg_adapter _ _ _ _ _ Hg).
  - by apply (sg_adapter _ _ _ _ _ Hg).
Qed.

Lemma new_identity_tests row others t : violation (identity_tests row others t) = None -> others !! id_ID row = None.
Proof.
  intros Hv%violation_None. unfold identity_tests in Hv. rewrite !Forall_cons in Hv. destruct Hv as (_ & _ & Hid & _).
  by apply bool_decide_eq_true in Hid.
Qed.

Lemma IdentityRepo_Create_safe i : id_AdapterID i = adapterID -> safe (IdentityRepo_Create i).
Proof.
  intros Hi. related relates_write. intros now t a t' E. cbv zeta in E. destruct (violation _) as [e|] eqn:Ev; [done|].
  injection E as _ <-. apply new_identity_tests in Ev. apply (put_identity _ _ _ _ (identity_row now (id_LastSyncedAt i) i)); simpl; [|done].
  intros j Hj. simpl in Ev. congruence.
Qed.

Lemma IdentityRepo_Delete_safe id : id ∈ ids -> safe (IdentityRepo_Delete id).
Proof.
  intros Hid. related relates_update. intros now i t E. apply under_guard. intros Hg. apply drop_identities_safe.
  intros j k Hk Hp%bool_decide_eq_true. pose proof (fk_identities _ (sg_keys _ _ _ _ _ Hg) _ _ Hk) as Hj.
  rewrite Hp in Hj. subst j. by apply (sg_identities _ _ _ _ _ Hg _ _ Hid).
Qed.

Lemma unset_default_safe : safe (unset_default adapterID).
Proof.
  related relates_exec. intros now t. simpl. apply map_identities; intros i; [by destruct (_ && _)|].
  intros Hne. by rewrite bool_decide_eq_false_2.
Qed.

Lemma set_default_safe id : safe (set_default adapterID id).
Proof.
  related relates_exec. intros now t. destruct (fl_identities t !! id) as [i|] eqn:E; [|done].
  case_bool_decide as Hi; [|done]. cbv zeta. case_bool_decide; [|done]. simpl. apply under_guard. intros Hg.
  pose proof (fk_identities _ (sg_keys _ _ _ _ _ Hg) _ _ E) as Hid. subst id.
  apply (put_identity _ _ _ _ (with_default_identity now true i)); simpl; [congruence|done].
Qed.

Lemma IdentityRepo_SetDefault_safe id : safe (IdentityRepo_SetDefault adapterID id).
Proof.
  intros s. apply relates_at_transaction; [apply _|]. intros s1 _.
  assert (Hb : safe (unset_default adapterID ;;; set_default adapterID id)).
  { related relates_bind; [apply unset_default_safe|intros []; apply set_default_safe]. }
  apply Hb.
Qed.

Lemma upsert_identity_safe i : safe (upsert_identity adapterID i).
Proof.
  related relates_exec. intros now t. cbv zeta. destruct (rows _ _) as [|old l] eqn:Er.
  - destruct (violation _) as [e|] eqn:Ev; [done|]. apply new_identity_tests in Ev. simpl.
    apply (put_identity _ _ _ _ (synced_row now adapterID i)); simpl; [|done]. intros j Hj. simpl in Ev. congruence.
  - destruct (_ && _); [|done]. simpl. apply under_guard. intros Hg.
    assert (Hin : old ∈ rows (same_identity (synced_row now adapterID i)) (fl_identities t)) by (rewrite Er; left).
    apply elem_of_rows in Hin as [ [k Hk] Hs]. pose proof (fk_identities _ (sg_keys _ _ _ _ _ Hg) _ _ Hk) as Hid. subst k.
    unfold same_identity in Hs. apply andb_true_iff in Hs as [Ha%bool_decide_eq_true _]. simpl in Ha.
    apply (put_identity _ _ _ _ (with_sync now i old)); simpl; [congruence|done].
Qed.

Lemma UpsertBatch_safe l : safe (UpsertBatch adapterID l).
Proof.
  intros s. apply relates_at_transaction; [apply _|]. intros s1 _. related relates_for_each. intros i. apply upsert_identity_safe.
Qed.

Lemma DeleteStale_safe keep : safe (DeleteStale adapterID keep).
Proof.
  related relates_exec. intros now t. simpl. apply drop_identities_safe. intros id i _ Hp.
  apply andb_true_iff in Hp as [ [Hp _]%andb_true_iff _]. by apply bool_decide_eq_true in Hp.
Qed.

Lemma without_grants_other (id : uuid) (g : uuid * uuid) (s : gset (uuid * uuid)) : g.1 <> id -> g ∈ s <-> g ∈ without_grants id s.
Proof. intros Hne. unfold without_grants. rewrite elem_of_filter. naive_solver. Qed.
Lemma with_grant_other (id ws : uuid) (g : uuid * uuid) (s : gset (uuid * uuid)) : g.1 <> id -> g ∈ s <-> g ∈ ({[(id, ws)]} ∪ s : gset (uuid * uuid)).
Proof. intros Hne. rewrite elem_of_union, elem_of_singleton. split; [by right|]. intros [ ->|?]; done. Qed.

Lemma insert_grant_safe what ok ws put get id :
  (forall f t, (forall g, g.1 <> id -> forall s : gset (uuid * uuid), g ∈ s <-> g ∈ f s) -> R t (put f t)) ->
  safe (insert_grant what ok ws put get id).
Proof.
  intros Hput. related relates_exec. intros now t. destruct (violation _); [done|]. simpl. apply Hput.
  intros g Hne s. by apply with_grant_other.
Qed.

Lemma GrantRepo_Replace_safe l : safe (GrantRepo_Replace adapterID l).
Proof.
  related relates_in_tx. related relates_bind.
  - related relates_exec. intros now t. apply put_adapter_grants. intros g Hne. by apply without_grants_other.
  - intros []. related relates_for_each. intros ws. apply insert_grant_safe. intros f t Hf. apply put_adapter_grants. intros g Hne. by apply Hf.
Qed.

Lemma IdentityGrants_Replace_safe id l : id ∈ ids -> safe (IdentityGrants_Replace id l).
Proof.
  intros Hid. related relates_in_tx. related relates_bind.
  - related relates_exec. intros now t. apply (put_identity_grants _ _ _ _ id); [done|]. intros g Hne. by apply without_grants_other.
  - intros []. related relates_for_each. intros ws. apply insert_grant_safe. intros f t Hf. apply (put_identity_grants _ _ _ _ id); [done|].
    intros g Hne. by apply Hf.
Qed.

Lemma Audit_Append_safe e : safe (Audit_Append e).
Proof. related relates_exec. intros now t. destruct (violation _); [done|apply put_audit]. Qed.

(** *** Steps *)

Lemma insert_steps_rows now defs m :
  (forall id s, m !! id = Some s -> insert_steps now adapterID defs m !! id = Some s) /\
  (forall id s, insert_steps now adapterID defs m !! id = Some s -> m !! id = Some s \/ st_ID s = id /\ st_AdapterID s = adapterID).
Proof.
  revert m. induction defs as [|def defs IH]; intros m; simpl; [by auto|].
  case_bool_decide; [|apply IH]. set (id0 := base.fresh (dom m)). set (row := step_row id0 now adapterID def).
  assert (Hf : m !! id0 = None) by (apply not_elem_of_dom, is_fresh). destruct (IH (<[id0 := row]> m)) as [Hk Hn]. split.
  - intros id s E. apply Hk. rewrite lookup_insert_ne; [done|]. intros <-. congruence.
  - intros id s [ [ [<- <-]|[_ E] ]%lookup_insert_Some|?]%Hn; auto.
Qed.

Lemma initStepDefs_safe defs : safe (initStepDefs defs adapterID).
Proof.
  related relates_write. intros now t [] t' E. case_bool_decide; [|done]. injection E as <-.
  destruct (insert_steps_rows now defs (fl_steps t)) as [Hk Hn]. apply put_steps; [|exact Hn]. intros id s E _. by apply Hk.
Qed.

Lemma mark_safe id msg missing (f : gotime -> AdapterProvisioningStep -> AdapterProvisioningStep) :
  (forall now s, st_ID (f now s) = st_ID s /\ st_AdapterID (f now s) = st_AdapterID s) -> id ∈ sids ->
  safe (update_stmt msg missing (fun t => fl_steps t !! id) (fun now s => set_steps <[id := f now s]>)).
Proof.
  intros Hf Hid. related relates_update. intros now s t E. apply under_guard. intros Hg.
  pose proof (fk_steps _ (sg_keys _ _ _ _ _ Hg) _ _ E) as Hs. pose proof (sg_steps _ _ _ _ _ Hg _ _ Hid E) as Ha.
  destruct (Hf now s) as [Hfi Hfa]. pose proof (own_adapter _ _ _ _ _ Hg) as Hown. apply put_steps; intros j s'.
  - intros Ej Hfor. rewrite lookup_insert_ne; [done|]. intros <-. rewrite E in Ej. injection Ej as <-. by rewrite Ha in Hfor.
  - intros [ [<- <-]|[_ ?] ]%lookup_insert_Some; [right|by left]. split; congruence.
Qed.

Lemma ResetFailed_safe : safe (StepRepo_ResetFailed adapterID).
Proof.
  related relates_exec. intros now t. apply under_guard. intros Hg. pose proof (own_adapter _ _ _ _ _ Hg) as Hown.
  apply put_steps; intros j s; rewrite lookup_fmap; destruct (fl_steps t !! j) as [s0|] eqn:E; try done; simpl; unfold reset_failed.
  - intros [= ->] Hfor. rewrite bool_decide_eq_false_2; [done|]. intros Ea. by rewrite Ea in Hfor.
  - case_bool_decide as Ea; simpl; [|by left]. destruct (bool_decide _); [|by left]. intros [= <-]. right. split; [|done].
    by apply (fk_steps _ (sg_keys _ _ _ _ _ Hg) _ _ E).
Qed.

Lemma DeleteByAdapter_safe : safe (StepRepo_DeleteByAdapter adapterID).
Proof.
  related relates_exec. intros now t. apply under_guard. intros Hg. pose proof (own_adapter _ _ _ _ _ Hg) as Hown.
  apply put_steps; intros j s; rewrite map_lookup_filter_Some; simpl; [|by intros [? _]; left].
  intros E Hfor. split; [done|]. intros Ea. by rewrite Ea in Hfor.
Qed.
End Repositories.

(** ** Reading *)

#[local] Hint Resolve hosted_frame query_frame db_now_frame db_id_frame : senda.

Section Reading.
Context `{GoStd} `{Codec} (ilike collate : string -> string -> bool).
#[local] Abbreviation access := (fleet_access ilike collate).

Lemma workspace_read id : preserves db_tables (WorkspaceStore.GetByID (HostedWorkspaces (T:=Fleet) ilike) id).
Proof. apply hosted_frame. apply query_frame. Qed.
Lemma workspaces_read tid env limit cursor :
  preserves db_tables (WorkspaceStore.ListByTenant (HostedWorkspaces (T:=Fleet) ilike) tid env limit cursor).
Proof. apply hosted_frame, ListByTenant_frame. Qed.
#[local] Hint Resolve workspace_read workspaces_read ListByTenant_frame : senda.

Lemma GetAdapterAccess_frame ws id : preserves db_tables (GetAdapterAccess access ws id).
Proof. unfold GetAdapterAccess, require_shared. simpl. preserves_tac. Qed.
Lemma ListIdentities_frame ws id : preserves db_tables (ListIdentitiesForWorkspace access ws id).
Proof. unfold ListIdentitiesForWorkspace. simpl. pose proof GetAdapterAccess_frame. preserves_tac. Qed.
Lemma listWorkspaceAccess_frame tid env m : preserves db_tables m -> preserves db_tables (listWorkspaceAccess access tid env m).
Proof. intros Hm. unfold listWorkspaceAccess. simpl. preserves_tac. Qed.
Lemma shareable_adapter_frame ws id p f i : preserves db_tables (shareable_adapter access ws id p f i).
Proof. unfold shareable_adapter. simpl. preserves_tac. Qed.
Lemma shareable_identity_frame id iid : preserves db_tables (shareable_identity access id iid).
Proof. unfold shareable_identity. simpl. preserves_tac. Qed.
Lemma validWorkspaceTargets_frame tid env l : preserves db_tables (validWorkspaceTargets access tid env l).
Proof. unfold validWorkspaceTargets. destruct l; [apply preserves_ret|]. simpl. preserves_tac. Qed.
#[local] Hint Resolve GetAdapterAccess_frame ListIdentities_frame listWorkspaceAccess_frame shareable_adapter_frame
  shareable_identity_frame validWorkspaceTargets_frame : senda.
Lemma ListAdapterWorkspaceAccess_frame ws id : preserves db_tables (ListAdapterWorkspaceAccess access ws id).
Proof. unfold ListAdapterWorkspaceAccess, gmail_adapter. simpl. preserves_tac. Qed.
Lemma ListIdentityWorkspaceAccess_frame ws id iid : preserves db_tables (ListIdentityWorkspaceAccess access ws id iid).
Proof. unfold ListIdentityWorkspaceAccess, identity_adapter. simpl. preserves_tac. Qed.

Lemma GetByID_row id s a s' : AdapterRepo_GetByID id s = (Ok a, s') -> db_tables s' = db_tables s /\ fl_adapters (db_tables s) !! id = Some a.
Proof.
  unfold AdapterRepo_GetByID. intros [E ->]%query_Ok. split; [done|].
  destruct (live_adapter id _) as [b|] eqn:El; [|done]. injection E as ->. by apply live_adapter_row.
Qed.

(** What a handler that found an adapter of its scope may rely on. *)
Lemma stands scope id a t : fleet_keys t -> fl_adapters t !! id = Some a -> ad_WorkspaceID a = scope -> standing scope id [] [] t.
Proof. intros Hk Ha Hs. split; [done| |set_solver..]. intros b Hb. congruence. Qed.

Lemma access_stands ws id s acc s' : GetAdapterAccess access (Some ws) id s = (Ok acc, s') -> acc_Editable acc = true ->
  fleet_keys (db_tables s) -> standing (Some (ws_ID ws)) id [] [] (db_tables s) /\ ad_ID (acc_Adapter acc) = id.
Proof.
  intros (a & s1 & [E1 Ha]%GetByID_row & E)%bind_Ok Hed Hk. simpl in E.
  destruct (ad_WorkspaceID a) as [owner|] eqn:Ew; [|injection E as <- _; done].
  case_bool_decide as Ho.
  - injection E as <- _. simpl. split; [|by apply (fk_adapters _ Hk)]. subst. by eapply stands.
  - exfalso. apply bind_Ok in E as (o & s2 & _ & E). destruct (_ || _); [done|].
    apply bind_Ok in E as ([] & s3 & _ & E). by injection E as <- _.
Qed.
End Reading.

(** ** The world outside *)

(** What start-up gives the handlers does not touch these tables. *)
Record outside {Aws : Type} (Encrypt Decrypt : string -> M Flt string) (senderFactory : Adapter -> string -> M Flt (OutgoingEmail -> M Flt string))
    (providerFactory : Adapter -> string -> M Flt (option (M Flt (list ProviderIdentity))))
    (LoadDefaultConfig : string -> option (string * string) -> M Flt Aws)
    (clientFactory : Aws -> string -> SESAPI Flt * SNSAPI Flt) (bindingRegistrar : option (string -> Flt -> Flt))
    (ValidateCredentials : SESConfig -> M Flt any) : Prop := {
  os_Encrypt plain : preserves db_tables (Encrypt plain);
  os_Decrypt cipher : preserves db_tables (Decrypt cipher);
  os_sender a c : preserves db_tables (senderFactory a c);
  os_send a c s send s' : senderFactory a c s = (Ok send, s') -> forall m, preserves db_tables (send m);
  os_provider a c : preserves db_tables (providerFactory a c);
  os_list a c s l s' : providerFactory a c s = (Ok (Some l), s') -> preserves db_tables l;
  os_config region keys : preserves db_tables (LoadDefaultConfig region keys);
  os_set aws url n : preserves db_tables (CreateConfigurationSet (clientFactory aws url).1 n);
  os_destination aws url n arn : preserves db_tables (CreateConfigurationSetEventDestination (clientFactory aws url).1 n arn);
  os_no_set aws url n : preserves db_tables (DeleteConfigurationSet (clientFactory aws url).1 n);
  os_no_destination aws url n : preserves db_tables (DeleteConfigurationSetEventDestination (clientFactory aws url).1 n);
  os_topic aws url n : preserves db_tables (CreateTopic (clientFactory aws url).2 n);
  os_subscribe aws url arn e : preserves db_tables (Subscribe (clientFactory aws url).2 arn e);
  os_subscriptions aws url arn : preserves db_tables (ListSubscriptionsByTopic (clientFactory aws url).2 arn);
  os_unsubscribe aws url arn : preserves db_tables (Unsubscribe (clientFactory aws url).2 arn);
  os_no_topic aws url arn : preserves db_tables (DeleteTopic (clientFactory aws url).2 arn);
  os_register f arn s : bindingRegistrar = Some f -> db_tables (f arn s) = db_tables s;
  os_validate cfg : preserves db_tables (ValidateCredentials cfg);
}.

(** ** The provisioner *)

Section Provisioner.
Context `{GoStd} `{Codec} `{AwsErrors} {Aws : Type} `{JSON (option fields_map)} `{JSON SESConfig}.
Context (Encrypt Decrypt : string -> M Flt string) (baseURL : string).
Context (senderFactory : Adapter -> string -> M Flt (OutgoingEmail -> M Flt string)).
Context (providerFactory : Adapter -> string -> M Flt (option (M Flt (list ProviderIdentity)))).
Context (LoadDefaultConfig : string -> option (string * string) -> M Flt Aws).
Context (clientFactory : Aws -> string -> SESAPI Flt * SNSAPI Flt) (bindingRegistrar : option (string -> Flt -> Flt)).
Context (ValidateCredentials : SESConfig -> M Flt any).
Hypothesis frames : outside Encrypt Decrypt senderFactory providerFactory LoadDefaultConfig clientFactory bindingRegistrar ValidateCredentials.
#[local] Abbreviation p := (fleet_provisioner Encrypt Decrypt baseURL LoadDefaultConfig clientFactory bindingRegistrar).
Context (scope : option uuid) (adapterID : uuid).

Lemma clients_frame id : preserves db_tables (loadAdapterClients p id).
Proof.
  destruct frames. unfold loadAdapterClients, LoadAWSConfig. simpl. preserves_tac.
Qed.

Lemma clients_row id s a c s' : loadAdapterClients p id s = (Ok (a, c), s') -> fl_adapters (db_tables s) !! id = Some a /\
  exists aws url, c.1 = (clientFactory aws url).1 /\ c.2 = (clientFactory aws url).2.
Proof.
  intros (b & s1 & [_ Hb]%GetByID_row & E)%bind_Ok. destruct (negb _); [done|].
  apply bind_Ok in E as (d & s2 & _ & (cfg & s3 & _ & (aws & s4 & _ & E)%bind_Ok)%bind_Ok). injection E as <- <- _. eauto.
Qed.

Section Marked.
Context (sids : list uuid) (stepMap : gmap string AdapterProvisioningStep).
Hypothesis known : forall name s, stepMap !! name = Some s -> st_ID s ∈ sids.
#[local] Abbreviation safe := (relates db_tables (guarded scope (standing scope adapterID [] sids))).

Lemma persisted_safe name f : (forall id, id ∈ sids -> safe (f ProvisioningStepRepo id)) -> safe (persisted p stepMap name f).
Proof.
  intros Hf. unfold persisted. simpl. destruct (stepMap !! name) as [ps|] eqn:E; [|related relates_preserves; apply preserves_ret].
  apply relates_ignore. by apply Hf, (known name).
Qed.
Lemma success_safe name rn ra : safe (persistStepSuccess p stepMap name rn ra).
Proof. apply persisted_safe. intros id Hid. simpl. by apply (mark_safe _ _ _ _ id). Qed.
Lemma failure_safe name msg : safe (persistStepFailure p stepMap name msg).
Proof. apply persisted_safe. intros id Hid. simpl. by apply (mark_safe _ _ _ _ id). Qed.

Lemma register_safe arn : safe (registerSNSBinding p arn).
Proof.
  related relates_preserves. intros s. unfold registerSNSBinding. simpl. destruct bindingRegistrar as [f|] eqn:E; [|done].
  case_bool_decide; [done|]. simpl. by apply (os_register _ _ _ _ _ _ _ _ frames).
Qed.

Lemma stage_safe name what report stored seen learn act resource result k : (forall arn, safe (learn arn)) -> safe act ->
  (forall r arn, safe (k r arn)) -> safe (stage p name what report stored seen learn act resource stepMap result k).
Proof.
  intros Hl Ha Hk. unfold stage. destruct (step_done stepMap name) as [ps|].
  - related relates_bind; [apply Hl|]. intros []. apply Hk.
  - related relates_bind; [exact Ha|]. intros [step arn]. cbv zeta. destruct (is_failed step).
    + related relates_bind; [apply failure_safe|]. intros []. related relates_preserves. apply preserves_ret.
    + related relates_bind; [apply Hl|]. intros []. related relates_bind; [apply success_safe|]. intros []. apply Hk.
Qed.

Lemma save_safe adapter set : ad_ID adapter = adapterID -> safe (saveConfigSetName p adapter set).
Proof.
  intros Ha. unfold saveConfigSetName. related relates_try.
  - related relates_preserves. unfold read_config. destruct frames. simpl. preserves_tac.
  - intros [ [m|]|e]; [|by related relates_preserves..]. related relates_try.
    + unfold save_config. destruct frames. simpl.
      repeat (related relates_bind; [solve [related relates_preserves; preserves_tac]|intros ?]).
      related relates_bind; [by apply AdapterRepo_Update_safe|]. intros a'. related relates_preserves. apply preserves_ret.
    + intros r. related relates_preserves. apply preserves_ret.
Qed.

Lemma verify_safe aws url topic sub result : safe (verify_stage p (clientFactory aws url).2 topic sub stepMap result).
Proof.
  unfold verify_stage. destruct (step_done _ _); [related relates_preserves; apply preserves_ret|].
  related relates_bind.
  - related relates_preserves. unfold verifySubscription. destruct frames. preserves_tac.
  - intros step. related relates_bind; [destruct (_ || _); [apply success_safe|apply failure_safe]|]. intros [].
    related relates_preserves. apply preserves_ret.
Qed.

Lemma steps_safe adapter aws url : ad_ID adapter = adapterID ->
  safe (provision_steps p adapter (clientFactory aws url).1 (clientFactory aws url).2 stepMap).
Proof.
  intros Ha. pose proof frames as Hf. destruct Hf. unfold provision_steps. cbv zeta.
  assert (Hu : forall arn, safe (unlearned (W:=Flt) arn)) by (intros; related relates_preserves; apply preserves_ret).
  apply stage_safe; [exact Hu|related relates_preserves; unfold createConfigurationSet; preserves_tac|]. intros r1 _.
  apply stage_safe; [intros; apply register_safe|related relates_preserves; unfold createSNSTopic; preserves_tac|]. intros r2 topic.
  apply stage_safe; [exact Hu|related relates_preserves; unfold createEventDestination; preserves_tac|]. intros r3 _.
  apply stage_safe; [exact Hu|related relates_preserves; unfold subscribeTopic; preserves_tac|]. intros r4 sub.
  apply stage_safe; [exact Hu|by apply save_safe|]. intros r5 _. apply verify_safe.
Qed.

Lemma deprov_loop_safe calls failed : Forall (fun c => preserves db_tables c.2) calls -> safe (deprov_loop p stepMap calls failed).
Proof.
  intros Hc. revert failed. induction Hc as [|[name call] calls Hcall _ IH]; intros failed; simpl.
  - related relates_preserves. apply preserves_ret.
  - related relates_try; [by related relates_preserves|]. intros [[]|e].
    + related relates_bind; [apply success_safe|]. intros []. apply IH.
    + destruct (isNotFound e); related relates_bind; [apply success_safe|intros []; apply IH|apply failure_safe|intros []; apply IH].
Qed.
End Marked.

(** *** A run *)

#[local] Abbreviation safely := (guarded scope (standing scope adapterID [] [])).

Lemma more_sids sids t : standing scope adapterID [] [] t -> (forall id s, id ∈ sids -> fl_steps t !! id = Some s -> st_AdapterID s = adapterID) ->
  standing scope adapterID [] sids t.
Proof. intros [Hk Ha _ _] Hs. split; [done..|set_solver|done]. Qed.
Lemma fewer_sids sids t : standing scope adapterID [] sids t -> standing scope adapterID [] [] t.
Proof. intros [Hk Ha _ _]. split; [done..|set_solver|set_solver]. Qed.

(** The steps that are loaded are the adapter's. *)
Lemma listed_steps s l s' : StepRepo_ListByAdapter adapterID s = (Ok l, s') -> standing scope adapterID [] [] (db_tables s') ->
  standing scope adapterID [] (st_ID <$> l) (db_tables s').
Proof.
  intros [E Et]%query_Ok Hst. apply more_sids; [done|]. intros id r (s0 & -> & Hin)%list_elem_of_fmap Hr.
  injection E as <-. rewrite merge_sort_Permutation in Hin. apply elem_of_rows in Hin as [ [j Hj] Ha].
  rewrite <- Et in Hj. pose proof (fk_steps _ (sg_keys _ _ _ _ _ Hst) _ _ Hj) as Hid. rewrite Hid in Hr.
  rewrite Hj in Hr. injection Hr as <-. by apply bool_decide_eq_true in Ha.
Qed.

Lemma with_sids {A} sids (m : M Flt A) s : standing scope adapterID [] sids (db_tables s) ->
  relates db_tables (guarded scope (standing scope adapterID [] sids)) m -> relates_at db_tables safely m s.
Proof. intros Hs Hm _. destruct (Hm s Hs) as [Hs' Hw]. split; [by eapply fewer_sids|done]. Qed.

Lemma wrapped_Ok {A} f (m : M Flt A) s a s' : wrap_err f m s = (Ok a, s') -> m s = (Ok a, s').
Proof. unfold wrap_err. by destruct (m s) as [ [?|?] ?]; intros [= <- <-]. Qed.

Lemma load_known s sm s' : load_steps p adapterID s = (Ok sm, s') -> standing scope adapterID [] [] (db_tables s') ->
  exists sids, standing scope adapterID [] sids (db_tables s') /\ forall name st, sm !! name = Some st -> st_ID st ∈ sids.
Proof.
  intros ([] & s1 & _ & ([] & s2 & _ & (l & s3 & E%wrapped_Ok & E3)%bind_Ok)%bind_Ok)%bind_Ok Hst. injection E3 as <- <-.
  exists (st_ID <$> l). split; [by eapply listed_steps|]. intros name st [Hin _]%by_step_Some. by apply list_elem_of_fmap_2.
Qed.

Lemma reads_safe {A G} (m : M Flt A) : preserves db_tables m -> relates db_tables (guarded scope G) m.
Proof. intros Hm. by related relates_preserves. Qed.

Lemma load_safe : relates db_tables safely (load_steps p adapterID).
Proof.
  unfold load_steps. simpl. related relates_bind; [apply relates_wrap, initStepDefs_safe|]. intros [].
  related relates_bind; [apply relates_wrap, ResetFailed_safe|]. intros []. apply reads_safe. unfold StepRepo_ListByAdapter. preserves_tac.
Qed.

Lemma Provision_safe : relates db_tables safely (Provision p adapterID).
Proof.
  intros s. related relates_at_try; [apply reads_safe, clients_frame|]. intros r s1 E1 Hst1.
  destruct r as [ [adapter [ses sns] ]|e]; [|by apply reads_safe; [apply preserves_ret|]].
  pose proof (clients_frame adapterID s) as Ef. rewrite E1 in Ef. simpl in Ef.
  apply clients_row in E1 as [Ha (aws & url & Es & En)]. rewrite <- Ef in Ha. apply (fk_adapters _ (sg_keys _ _ _ _ _ Hst1)) in Ha.
  simpl in Es, En. subst ses sns. revert Hst1. change (relates_at db_tables safely
    (try! steps := load_steps p adapterID in match steps with
       | Ok stepMap => provision_steps p adapter (clientFactory aws url).1 (clientFactory aws url).2 stepMap
       | Err e => ret (None, Some e) end) s1).
  related relates_at_try; [apply load_safe|]. intros r s2 E2 Hst2. destruct r as [sm|e]; [|by apply reads_safe; [apply preserves_ret|]].
  destruct (load_known _ _ _ E2 Hst2) as (sids & Hs & Hk). revert Hst2. apply (with_sids sids); [done|]. by apply steps_safe.
Qed.

Lemma deprov_load_safe : relates db_tables safely (load_deprov_steps p adapterID).
Proof.
  unfold load_deprov_steps. simpl. related relates_bind; [apply relates_wrap, initStepDefs_safe|]. intros [].
  apply reads_safe. unfold StepRepo_ListByAdapter. preserves_tac.
Qed.
Lemma deprov_known s l s' : load_deprov_steps p adapterID s = (Ok l, s') -> standing scope adapterID [] [] (db_tables s') ->
  standing scope adapterID [] (st_ID <$> l) (db_tables s') /\ forall name st, by_step l !! name = Some st -> st_ID st ∈ st_ID <$> l.
Proof.
  intros ([] & s1 & _ & E%wrapped_Ok)%bind_Ok Hst. split; [by eapply listed_steps|].
  intros name st [Hin _]%by_step_Some. by apply list_elem_of_fmap_2.
Qed.

Lemma Deprovision_safe : relates db_tables safely (Deprovision p adapterID).
Proof.
  intros s. related relates_at_bind; [apply reads_safe, clients_frame|]. intros [adapter [ses sns] ] s1 E1.
  apply clients_row in E1 as [_ (aws & url & Es & En)]. simpl in Es, En. subst ses sns.
  related relates_at_bind; [apply deprov_load_safe|]. intros l s2 E2 Hst2. destruct (deprov_known _ _ _ E2 Hst2) as [Hs Hk].
  revert Hst2. apply (with_sids (st_ID <$> l)); [done|]. cbv zeta. destruct frames. related relates_bind.
  - apply deprov_loop_safe; [done|]. unfold deprov_calls. repeat constructor; simpl; preserves_tac.
  - intros [e|]; simpl; [apply reads_safe, preserves_fail|apply relates_ignore, DeleteByAdapter_safe].
Qed.
End Provisioner.

(** ** Handlers *)

Section Shapes.
Context `{GoStd} `{Codec} `{Parsers} (R : Fleet -> Fleet -> Prop) `{!PreOrder R}.
#[local] Abbreviation Handler := (HandlerFunc Flt).
#[local] Abbreviation safe := (relates (on_world db_tables) R).
#[local] Abbreviation safe_at := (relates_at (on_world db_tables) R).

Lemma still {A} (h : M (Flt * Conn) A) : preserves (on_world db_tables) h -> safe h.
Proof. intros Hh. by related relates_preserves. Qed.
Lemma still_at {A} (h : M (Flt * Conn) A) x : preserves (on_world db_tables) h -> safe_at h x.
Proof. intros Hh. by apply still. Qed.

Lemma resource_not_found_frame : preserves (on_world db_tables) resource_not_found.
Proof. apply WriteError_frame. Qed.
Lemma access_error_frame e : preserves (on_world db_tables) (mapAdapterAccessHandlerError e).
Proof. unfold mapAdapterAccessHandlerError. repeat destruct (errors_Is e _); try apply WriteError_frame. apply mapStoreError_frame. Qed.
Lemma identity_error_frame e : preserves (on_world db_tables) (mapIdentityError e).
Proof. unfold mapIdentityError. repeat destruct (errors_Is e _); try apply WriteError_frame. apply mapStoreError_frame. Qed.
Lemma identity_access_error_frame e : preserves (on_world db_tables) (mapIdentityAccessError e).
Proof.
  unfold mapIdentityAccessError. repeat destruct (errors_Is e _); simpl; try apply WriteError_frame. apply identity_error_frame.
Qed.

(** A request that was read, for its handler. *)
Lemma bound_at {A} `{Binder A} (k : A -> Handler) x : (forall req, safe_at (k req) x) -> safe_at (bound k) x.
Proof.
  intros Hk. related relates_at_bind; [related relates_preserves; apply conn_frame|]. intros c x' [= <- <-].
  destruct (Bind x.2); [apply Hk|apply still_at, WriteError_frame].
Qed.
Lemma path_id_at name message (k : uuid -> Handler) x : (forall id, safe_at (k id) x) -> safe_at (path_id name message k) x.
Proof.
  intros Hk. related relates_at_bind; [related relates_preserves; apply conn_frame|]. intros c x' [= <- <-].
  destruct (uuid_Parse _); [apply Hk|apply still_at, WriteError_frame].
Qed.

(** An operation that reads, for what follows from tables as they were. *)
Lemma try_read {A} (m : M Flt A) (k : Res A -> Handler) x : preserves db_tables m ->
  (forall r s', m x.1 = (r, s') -> db_tables s' = db_tables x.1 -> safe_at (k r) (s', x.2)) -> safe_at (try! r := up m in k r) x.
Proof.
  intros Hm Hk. related relates_at_try; [related relates_preserves; by apply preserves_up|]. intros r [s' c'] E.
  destruct x as [s c]. unfold up in E. specialize (Hm s). simpl in *. destruct (m s) as [r1 s1]. injection E as -> -> ->. by apply Hk.
Qed.
Lemma answered_at {A} on_error (m : M Flt A) (k : A -> Handler) x : (forall e, preserves (on_world db_tables) (on_error e)) -> preserves db_tables m ->
  (forall a s', m x.1 = (Ok a, s') -> db_tables s' = db_tables x.1 -> safe_at (k a) (s', x.2)) -> safe_at (answered on_error m k) x.
Proof. intros He Hm Hk. apply try_read; [done|]. intros [a|e] s' E Es; [by apply Hk|apply still_at, He]. Qed.
Lemma stored_at {A} (m : M Flt A) (k : A -> Handler) x : preserves db_tables m ->
  (forall a s', m x.1 = (Ok a, s') -> db_tables s' = db_tables x.1 -> safe_at (k a) (s', x.2)) -> safe_at (stored (up m) k) x.
Proof. intros Hm Hk. apply try_read; [done|]. intros [a|e] s' E Es; [by apply Hk|apply still_at, mapStoreError_frame]. Qed.

(** The same for every state, with a write. *)
Lemma adapter_bound_safe {A} `{Binder A} (k : A -> Handler) : (forall req, safe (k req)) -> safe (bound k).
Proof. intros Hk x. apply bound_at. intros req. apply Hk. Qed.
Lemma adapter_path_id_safe name message (k : uuid -> Handler) : (forall id, safe (k id)) -> safe (path_id name message k).
Proof. intros Hk x. apply path_id_at. intros id. apply Hk. Qed.
Lemma answered_safe {A} on_error (m : M Flt A) (k : A -> Handler) : (forall e, preserves (on_world db_tables) (on_error e)) ->
  relates db_tables R m -> (forall a, safe (k a)) -> safe (answered on_error m k).
Proof. intros He Hm Hk. related relates_try; [by apply relates_up|]. intros [a|e]; [apply Hk|apply still, He]. Qed.
Lemma stored_safe {A} (m : M Flt A) (k : A -> Handler) : relates db_tables R m -> (forall a, safe (k a)) -> safe (stored (up m) k).
Proof. intros Hm Hk. related relates_stored; [by apply relates_up|done]. Qed.
End Shapes.

#[export] Hint Resolve resource_not_found_frame access_error_frame identity_error_frame identity_access_error_frame : senda.

(** A handler whose adapter stands from here on. *)
Lemma enter scope adapterID ids (h : HandlerFunc Flt) x : standing scope adapterID ids [] (db_tables x.1) ->
  relates (on_world db_tables) (guarded scope (standing scope adapterID ids [])) h ->
  relates_at (on_world db_tables) (guarded scope fleet_keys) h x.
Proof. intros Hs Hh _. destruct (Hh x Hs) as [Hs' Hw]. split; [apply Hs'|done]. Qed.

(** The keys may be assumed of the state a handler starts from. *)
Lemma keys_at scope (h : HandlerFunc Flt) x :
  (fleet_keys (db_tables x.1) -> relates_at (on_world db_tables) (guarded scope fleet_keys) h x) ->
  relates_at (on_world db_tables) (guarded scope fleet_keys) h x.
Proof. intros Hh Hk. by apply Hh. Qed.

Lemma more_ids scope adapterID id i t : standing scope adapterID [] [] t -> fl_identities t !! id = Some i -> id_AdapterID i = adapterID ->
  standing scope adapterID [id] [] t.
Proof. intros [Hk Ha _ _] Hi Hid. split; [done..| |set_solver]. intros j k ->%list_elem_of_singleton Hj. congruence. Qed.

Lemma AdapterRepo_Create_safe `{GoStd} scope a : ad_WorkspaceID a = scope ->
  relates db_tables (guarded scope fleet_keys) (AdapterRepo_Create a).
Proof.
  intros Ha. related relates_write. intros now t r t' E. cbv zeta in E. destruct (violation _) as [e|] eqn:Ev; [done|].
  injection E as _ <-. apply violation_None in Ev. rewrite !Forall_cons in Ev. destruct Ev as (_ & Hid%bool_decide_eq_true & _).
  simpl in Hid. intros Hk. destruct (put_adapter scope (ad_ID a) [] [] (adapter_row now a) t) as [Hs Hw]; simpl; [congruence|done| |].
  - split; [done|congruence|set_solver..].
  - split; [apply Hs|exact Hw].
Qed.

(** The tables have an owner for whatever adapter a request names. *)
Lemma some_scope adapterID t : fleet_keys t -> exists scope, standing scope adapterID [] [] t.
Proof.
  intros Hk. destruct (fl_adapters t !! adapterID) as [a|] eqn:E.
  - exists (ad_WorkspaceID a). split; [done|congruence|set_solver..].
  - exists None. split; [done|congruence|set_solver..].
Qed.

Section Handlers.
Context `{GoStd} `{Codec} `{Parsers} `{NetIP} `{TimeParser} `{TimeFormat} `{AwsErrors} {Aws : Type}.
Context `{JSON (option fields_map)} `{JSON SMTPConfig} `{JSON SESConfig}.
Context `{Binder CreateAdapterRequest} `{Binder UpdateAdapterRequest} `{Binder TestAdapterRequest}.
Context `{Binder UpdateWorkspaceAccessRequest} `{Binder ValidateSESRequest} `{Binder CreateManualIdentityRequest}.
Context (ilike collate : string -> string -> bool).
Context (Encrypt Decrypt : string -> M Flt string) (baseURL : string).
Context (senderFactory : Adapter -> string -> M Flt (OutgoingEmail -> M Flt string)).
Context (providerFactory : Adapter -> string -> M Flt (option (M Flt (list ProviderIdentity)))).
Context (LoadDefaultConfig : string -> option (string * string) -> M Flt Aws).
Context (clientFactory : Aws -> string -> SESAPI Flt * SNSAPI Flt) (bindingRegistrar : option (string -> Flt -> Flt)).
Context (smtpPolicy : CleartextAuthPolicy) (ValidateCredentials : SESConfig -> M Flt any).
Hypothesis frames : outside Encrypt Decrypt senderFactory providerFactory LoadDefaultConfig clientFactory bindingRegistrar ValidateCredentials.

#[local] Abbreviation access := (fleet_access ilike collate).
#[local] Abbreviation ah := (fleet_adapters ilike collate Encrypt Decrypt baseURL senderFactory LoadDefaultConfig clientFactory
  bindingRegistrar smtpPolicy ValidateCredentials).
#[local] Abbreviation ih := (fleet_identities ilike collate Decrypt providerFactory).
#[local] Abbreviation sh := (fleet_setup ilike Encrypt Decrypt baseURL LoadDefaultConfig clientFactory bindingRegistrar).
#[local] Abbreviation scope_of := (fmap (M:=option) ws_ID).
#[local] Hint Resolve WriteError_frame WriteErrorDetails_frame write_frame mapStoreError_frame GetAdapterAccess_frame ListIdentities_frame
  ListAdapterWorkspaceAccess_frame ListIdentityWorkspaceAccess_frame shareable_adapter_frame shareable_identity_frame
  validWorkspaceTargets_frame hosted_frame : senda.

Section Scope.
Context (workspace : option Workspace).
#[local] Abbreviation scope := (scope_of workspace).
#[local] Abbreviation Safe := (relates_at (on_world db_tables) (guarded scope fleet_keys)).

Lemma load_frame id e : preserves db_tables (loadAdapter ah workspace id e).
Proof. unfold loadAdapter, AdapterRepo_GetByID. simpl. destruct workspace; preserves_tac. Qed.
#[local] Hint Resolve load_frame : senda.

Lemma editable_stands id a s s' : loadEditableAdapter ah workspace id s = (Ok a, s') -> fleet_keys (db_tables s) ->
  standing scope id [] [] (db_tables s) /\ ad_ID a = id.
Proof.
  intros (a0 & s1 & [E1 Ha]%GetByID_row & E)%bind_Ok Hk. simpl in E. destruct workspace as [ws|]; simpl.
  - apply bind_Ok in E as (acc & s2 & E2 & E). simpl in E. destruct (acc_Editable acc) eqn:Ee; simpl in E; [|done].
    injection E as <- _. rewrite <- E1 in *. by apply (access_stands ilike collate ws id s1 acc s2).
  - unfold sameScope in E. case_bool_decide as Hs; [|done]. injection E as <- _. split; [by eapply stands|by apply (fk_adapters _ Hk)].
Qed.

Lemma create_safe x : Safe (AdapterHandler_create ah scope) x.
Proof.
  apply bound_at; [apply _|]. intros req. cbv zeta. destruct (negb _); [apply still_at; [apply _|apply WriteErrorDetails_frame]|].
  apply try_read; [apply _|apply frames|]. intros [enc|e] s1 _ _; [|apply still_at; [apply _|apply WriteError_frame]].
  related relates_at_bind; [apply still_at; [apply _|apply preserves_up, db_now_frame]|]. intros now x2 _.
  related relates_at_bind; [apply still_at; [apply _|apply preserves_up, db_id_frame]|]. intros id x3 _. cbv zeta.
  apply stored_safe; [apply _|by apply AdapterRepo_Create_safe|]. intros a. apply still; [apply _|apply write_frame].
Qed.

(** The new configuration changes neither the identifier nor the tables. *)
Lemma reconfigured_safe G adapter req k :
  (forall b, ad_ID b = ad_ID adapter -> relates (on_world db_tables) (guarded scope G) (k b)) ->
  relates (on_world db_tables) (guarded scope G) (reconfigured ah adapter req k).
Proof.
  intros Hk.
  assert (Hre : forall m : option fields_map -> Res (option fields_map), relates (on_world db_tables) (guarded scope G)
    (try! updated := up (let! cfgMap := decryptConfigMap ah adapter in let! cfgMap := lift_res (m cfgMap) in lift_res (Marshal cfgMap)) in
     match updated with
     | Err _ => internal_error
     | Ok updated =>
         let errors := validateConfig (ah_smtpPolicy ah) (ad_AdapterType adapter) updated in
         if negb (bool_decide (errors = [])) then validation_failed errors
         else try! encrypted := up (ah_Encrypt ah updated) in
              match encrypted with
              | Err _ => internal_error
              | Ok encrypted => k (with_config encrypted (extractPublicConfigFields (ad_AdapterType adapter) updated) adapter)
              end
     end)).
  { intros m. related relates_try; [apply still; [apply _|]; apply preserves_up; unfold decryptConfigMap; destruct frames; simpl; preserves_tac|].
    intros [updated|e]; [|apply still; [apply _|apply WriteError_frame]]. cbv zeta.
    destruct (negb _); [apply still; [apply _|apply WriteErrorDetails_frame]|].
    related relates_try; [apply still; [apply _|]; apply preserves_up, frames|].
    intros [encrypted|e]; [by apply Hk|apply still; [apply _|apply WriteError_frame]]. }
  unfold reconfigured. destruct (uar_Config req) as [raw|] eqn:Er, (uar_ConfigurationSetName req) as [name|] eqn:En; try apply Hre. by apply Hk.
Qed.

Lemma update_safe x : Safe (AdapterHandler_update ah workspace) x.
Proof.
  apply path_id_at; [apply _|]. intros id. apply keys_at. intros Hk.
  apply (answered_at _ mapAdapterAccessHandlerError); [apply access_error_frame|apply load_frame|].
  intros a s1 E Es. apply editable_stands in E as [Hst Hid]; [|done]. eapply enter; [simpl; rewrite Es; exact Hst|].
  apply adapter_bound_safe; [apply _|]. intros req. case_bool_decide; [apply still; [apply _|apply WriteErrorDetails_frame]|].
  apply reconfigured_safe. intros b Hb.
  related relates_bind; [apply still; [apply _|apply preserves_up, db_now_frame]|]. intros now.
  apply stored_safe; [apply _|apply AdapterRepo_Update_safe; simpl; congruence|]. intros c. apply still; [apply _|apply write_frame].
Qed.

Lemma softDelete_safe x : Safe (AdapterHandler_softDelete ah workspace) x.
Proof.
  apply path_id_at; [apply _|]. intros id. apply keys_at. intros Hk.
  apply (answered_at _ mapAdapterAccessHandlerError); [apply access_error_frame|apply load_frame|].
  intros a s1 E Es. apply editable_stands in E as [Hst Hid]; [|done]. eapply enter; [simpl; rewrite Es; exact Hst|].
  related relates_bind.
  - simpl. case_bool_decide; [|apply still; [apply _|apply preserves_ret]]. apply relates_ignore, relates_up. unfold fleet_deprovision.
    destruct (when_tracking _ _ _ _ _ _) as [q|] eqn:Eq; [|apply reads_safe, preserves_fail].
    unfold when_tracking in Eq. case_bool_decide; [done|]. injection Eq as <-. by eapply Deprovision_safe.
  - intros []. apply stored_safe; [apply _|apply AdapterRepo_SoftDelete_safe|]. intros []. apply still; [apply _|apply write_frame].
Qed.

(** A reply that reads nothing more. *)
Lemma reply_at {A} (h : M (Flt * Conn) A) x : preserves (on_world db_tables) h -> Safe h x.
Proof. by apply still_at; apply _. Qed.

Lemma default_from_frame adapter dec : preserves db_tables (resolveDefaultFromAddress ah workspace adapter dec).
Proof.
  assert (Hr : preserves db_tables (ResolveFromAddress IdentityRepo_GetDefault adapter (delegate_email dec))).
  { unfold ResolveFromAddress, IdentityRepo_GetDefault. preserves_tac. }
  unfold resolveDefaultFromAddress. cbv zeta. change (ah_accessSvc ah) with (Some access). destruct workspace as [ws|]; [|exact Hr].
  destruct (identityScopedAdapter _); [|exact Hr]. apply preserves_bind; [apply GetAdapterAccess_frame|]. intros acc.
  destruct (acc_Shared acc); [|exact Hr]. apply preserves_bind; [apply ListIdentities_frame|]. intros l. apply preserves_ret.
Qed.

Lemma test_from_at id adapter dec req k x : (forall from x', Safe (k from) x') -> Safe (test_from ah workspace id adapter dec req k) x.
Proof.
  intros Hk. unfold test_from. destruct (negb _).
  - apply try_read; [apply _| |].
    + change (ah_accessSvc ah) with (Some access). destruct workspace; [apply ListIdentities_frame|apply query_frame].
    + intros [l|e] s1 _ _; [|apply reply_at, WriteError_frame]. destruct (List.find _ l); [apply Hk|apply reply_at, WriteError_frame].
  - apply (answered_at _ mapAdapterAccessHandlerError); [apply access_error_frame|apply default_from_frame|]. intros from s1 _ _. apply Hk.
Qed.

Lemma testSend_safe x : Safe (AdapterHandler_testSend ah workspace) x.
Proof.
  apply path_id_at; [apply _|]. intros id. apply bound_at; [apply _|]. intros req. cbv zeta.
  destruct (negb _); [apply reply_at, WriteErrorDetails_frame|].
  apply (answered_at _ mapAdapterAccessHandlerError); [apply access_error_frame|apply load_frame|]. intros a s1 _ _.
  apply try_read; [apply _|apply frames|]. intros [dec|e] s2 _ _; [|apply reply_at, WriteError_frame].
  apply try_read; [apply _|apply frames|]. intros [send|e] s3 Es _; [|apply reply_at, WriteError_frame].
  apply test_from_at. intros from x'. case_bool_decide; [apply reply_at, WriteError_frame|].
  apply try_read; [apply _|eapply (os_send _ _ _ _ _ _ _ _ frames); exact Es|].
  intros [msg|e] s4 _ _; apply reply_at; [apply write_frame|apply WriteError_frame].
Qed.

Lemma list_frame : preserves (on_world db_tables) (AdapterHandler_list ah workspace).
Proof.
  apply preserves_bind; [apply conn_frame|]. intros c. cbv zeta. apply stored_frame; [apply preserves_up|intros page; apply write_frame].
  unfold ListAdaptersForWorkspace. simpl. destruct workspace as [ws|]; [|apply adapters_frame].
  destruct (ws_IsSystem ws); [apply adapters_frame|]. unfold GrantRepo_ListVisible.
  destruct (ApplyPagination _) as [ [? ?]|e]; [apply query_frame|apply preserves_fail].
Qed.

Lemma get_frame : preserves (on_world db_tables) (AdapterHandler_get ah workspace).
Proof.
  apply preserves_bind; [apply conn_frame|]. intros c. destruct (uuid_Parse _) as [id|e]; [|apply WriteError_frame].
  apply stored_frame; [apply preserves_up, query_frame|]. intros a. change (ah_accessSvc ah) with (Some access). destruct workspace as [ws|]; [|apply write_frame].
  apply preserves_try; [apply preserves_up, GetAdapterAccess_frame|]. intros [acc|e]; [apply write_frame|].
  destruct (errors_Is e _); [apply WriteError_frame|apply mapStoreError_frame].
Qed.

Lemma ValidateSES_frame : preserves (on_world db_tables) (Adapters_ValidateSES ah).
Proof.
  apply preserves_bind; [apply conn_frame|]. intros c. destruct (Bind c) as [req|e]; [|apply WriteError_frame].
  case_bool_decide; [apply WriteError_frame|]. apply preserves_try; [apply preserves_up, frames|].
  intros [r|e]; [apply write_frame|apply WriteError_frame].
Qed.
End Scope.

(** *** Identities, whatever the scope of their adapter *)

Section Identities.
Context (aim : option uuid) (id : uuid) (ids : list uuid).
#[local] Abbreviation G := (guarded aim (standing aim id ids [])).
#[local] Abbreviation safe := (relates (on_world db_tables) G).

Lemma imported_frame now l : preserves db_tables (imported id now l).
Proof.
  induction l as [|pi l IH]; simpl; [apply preserves_ret|]. destruct (is_domain pi); [|exact IH].
  apply preserves_bind; [apply db_id_frame|]. intros i. apply preserves_bind; [exact IH|]. intros r. apply preserves_ret.
Qed.

Lemma imports_safe got : relates db_tables G
  (let! now := Now db_runtime in
   let! identities := imported id now got in
   wrap_err (wrapping "upsert identities") (UpsertBatch id identities) ;;;
   wrap_err (wrapping "delete stale identities") (DeleteStale id (pi_Identity <$> List.filter is_domain got)) ;;;
   ListByAdapter collate id).
Proof.
  related relates_bind; [apply reads_safe, db_now_frame|]. intros now. related relates_bind; [apply reads_safe, imported_frame|]. intros l'.
  related relates_bind; [apply relates_wrap, UpsertBatch_safe|]. intros []. related relates_bind; [apply relates_wrap, DeleteStale_safe|].
  intros []. apply reads_safe, query_frame.
Qed.

Lemma Sync_safe : relates db_tables G (SyncIdentities collate (ih_svc ih) id).
Proof.
  unfold SyncIdentities. related relates_bind; [apply reads_safe, query_frame|]. intros a.
  related relates_bind; [apply relates_wrap, reads_safe, frames|]. intros dec s.
  related relates_at_bind; [apply relates_wrap, reads_safe, frames|]. intros provider s1 E%wrapped_Ok.
  destruct provider as [l|]; [|by apply reads_safe, preserves_fail].
  related relates_at_bind; [apply relates_wrap, reads_safe; by eapply (os_list _ _ _ _ _ _ _ _ frames)|]. intros got s2 _. apply imports_safe.
Qed.

Lemma CreateManual_safe email name : relates db_tables G (CreateManual collate id email name).
Proof.
  unfold CreateManual. cbv zeta. case_bool_decide; [apply reads_safe, preserves_fail|].
  related relates_bind; [apply reads_safe, query_frame|]. intros a.
  related relates_bind; [apply reads_safe; case_bool_decide; [apply preserves_ret|apply preserves_bind; [apply query_frame|preserves_tac] ]|].
  intros []. related relates_bind; [apply reads_safe, db_now_frame|]. intros now. related relates_bind; [apply reads_safe, db_id_frame|].
  intros iid. by apply IdentityRepo_Create_safe.
Qed.

Lemma sync_body : safe (answered mapIdentityError (SyncIdentities collate (ih_svc ih) id) (fun l => JSON_reply 200 (NewAdapterIdentityListResponse l))).
Proof. apply answered_safe; [apply _|apply identity_error_frame|apply Sync_safe|]. intros l. apply still; [apply _|apply write_frame]. Qed.

Lemma create_body : safe (bound (fun req : CreateManualIdentityRequest =>
    if bool_decide (cmi_Identity req = "") then validation_failed [mkFieldError "identity" "is required"]
    else answered mapIdentityError (CreateManual collate id (cmi_Identity req) (cmi_DisplayName req)) (fun identity =>
      JSON_reply 201 (NewAdapterIdentityResponse identity)))).
Proof.
  apply adapter_bound_safe; [apply _|]. intros req. case_bool_decide; [apply still; [apply _|apply WriteErrorDetails_frame]|].
  apply answered_safe; [apply _|apply identity_error_frame|apply CreateManual_safe|]. intros i. apply still; [apply _|apply write_frame].
Qed.

Lemma default_body : safe (identity_id (fun identityID =>
    answered mapIdentityError (IdentityRepo_SetDefault id identityID) (fun _ => NoContent 204))).
Proof.
  apply adapter_path_id_safe; [apply _|]. intros iid. apply answered_safe; [apply _|apply identity_error_frame|apply IdentityRepo_SetDefault_safe|].
  intros []. apply still; [apply _|apply write_frame].
Qed.

Lemma DeleteIdentity_safe iid : iid ∈ ids -> relates db_tables G (DeleteIdentity iid).
Proof.
  intros Hin. unfold DeleteIdentity. related relates_bind; [apply reads_safe, query_frame|]. intros i.
  destruct (negb _); [apply reads_safe, preserves_fail|by apply IdentityRepo_Delete_safe].
Qed.

(** *** Sharing *)

Lemma replace_safe list_current in_use replace targets : preserves db_tables list_current -> (forall l, preserves db_tables (in_use l)) ->
  (forall l, relates db_tables G (replace l)) -> relates db_tables G (replace_grants list_current in_use replace targets).
Proof.
  intros Hl Hu Hr. unfold replace_grants. related relates_bind; [by apply reads_safe|]. intros current.
  destruct (subtractUUIDs _ _); [apply Hr|]. related relates_bind; [by apply reads_safe|]. intros used.
  destruct used; [apply Hr|apply reads_safe, preserves_fail].
Qed.

Lemma usages_frame p iid l : preserves db_tables (match l with [] => ret [] | _ => query (wrapping p) (fun t => Ok (workspaces_using iid l t)) end).
Proof. destruct l; [apply preserves_ret|apply query_frame]. Qed.

Lemma ReplaceAdapter_safe ws l : relates db_tables G (ReplaceAdapterWorkspaceAccess access ws id l).
Proof.
  unfold ReplaceAdapterWorkspaceAccess. related relates_bind; [apply reads_safe, shareable_adapter_frame|]. intros w.
  related relates_bind; [apply reads_safe, validWorkspaceTargets_frame|]. intros targets.
  apply replace_safe; [apply query_frame|apply usages_frame|apply GrantRepo_Replace_safe].
Qed.

Lemma ReplaceIdentity_safe ws iid l : iid ∈ ids -> relates db_tables G (ReplaceIdentityWorkspaceAccess access ws id iid l).
Proof.
  intros Hin. unfold ReplaceIdentityWorkspaceAccess. related relates_bind; [apply reads_safe, shareable_adapter_frame|]. intros w.
  related relates_bind; [apply reads_safe, shareable_identity_frame|]. intros [].
  related relates_bind; [apply reads_safe, validWorkspaceTargets_frame|]. intros targets.
  apply replace_safe; [apply query_frame|apply usages_frame|]. intros l'. by apply IdentityGrants_Replace_safe.
Qed.

Lemma audit_safe ty entity ws before after meta : safe (audit_grants (Some Audit_Append) ty entity ws before after meta).
Proof.
  unfold audit_grants. related relates_bind; [apply still; [apply _|apply preserves_up, db_id_frame]|]. intros aid.
  unfold appendAuditLog. related relates_bind; [apply still; [apply _|apply values_frame]|]. intros v.
  destruct (v_member v) as [m|]; [|apply still; [apply _|apply preserves_ret]]. apply relates_ignore, relates_up, Audit_Append_safe.
Qed.
End Identities.

(** *** In a workspace *)

Section InWorkspace.
Context (ws : Workspace).
#[local] Abbreviation Safe := (relates_at (on_world db_tables) (guarded (Some (ws_ID ws)) fleet_keys)).

Lemma shareable_stands id p f i s w s' : shareable_adapter access (Some ws) id p f i s = (Ok w, s') -> fleet_keys (db_tables s) ->
  db_tables s' = db_tables s /\ standing (Some (ws_ID ws)) id [] [] (db_tables s).
Proof.
  intros E Hk. unfold shareable_adapter in E. destruct (ws_IsSystem ws); simpl in E; [|done].
  apply bind_Ok in E as (a & s1 & [E1 Ha]%GetByID_row & E). case_bool_decide as Ho; simpl in E; [|done].
  destruct (p _); [|done]. injection E as _ <-. split; [done|by eapply stands].
Qed.

Lemma listed_adapter id s l s' : ListAdapterWorkspaceAccess access (Some ws) id s = (Ok l, s') -> fleet_keys (db_tables s) ->
  standing (Some (ws_ID ws)) id [] [] (db_tables s).
Proof. intros (w & s1 & E & _)%bind_Ok Hk. by eapply shareable_stands. Qed.

Lemma listed_identity id iid s l s' : ListIdentityWorkspaceAccess access (Some ws) id iid s = (Ok l, s') -> fleet_keys (db_tables s) ->
  standing (Some (ws_ID ws)) id [iid] [] (db_tables s).
Proof.
  intros (w & s1 & E & ([] & s2 & E2 & _)%bind_Ok)%bind_Ok Hk. apply shareable_stands in E as [Es Hst]; [|done].
  apply bind_Ok in E2 as (i & s3 & E3 & E2). apply query_Ok in E3 as [E3 _]. rewrite Es in E3.
  destruct (fl_identities (db_tables s) !! iid) as [j|] eqn:Ej; [|done]. injection E3 as ->.
  case_bool_decide as Hid; simpl in E2; [|done]. by eapply more_ids.
Qed.

Lemma requested_ids_at k x : (forall l, Safe (k l) x) -> Safe (requested_ids k) x.
Proof. intros Hk. apply bound_at; [apply _|]. intros req. destruct (parse_ids _); [apply Hk|apply still_at; [apply _|apply WriteErrorDetails_frame]]. Qed.

Lemma UpdateAdapterAccess_safe x : Safe (with_service ah (fun svc => adapter_id (fun adapterID => requested_ids (fun workspaceIDs =>
    accessed (ListAdapterWorkspaceAccess svc (Some ws) adapterID) (fun before =>
    accessed (ReplaceAdapterWorkspaceAccess svc (Some ws) adapterID workspaceIDs) (fun _ =>
    accessed (ListAdapterWorkspaceAccess svc (Some ws) adapterID) (fun grants =>
      (try! adapter := up (AdapterRepo_GetByID adapterID) in
       match adapter with
       | Err _ => ret tt
       | Ok adapter =>
           audit_grants (ah_auditStore ah) "adapter" adapterID ws before grants
             {["adapter_name" := AStr (ad_Name adapter); "adapter_type" := AStr (AdapterType_String (ad_AdapterType adapter))]}
       end) ;;;
      JSON_reply 200 (NewWorkspaceAccessListResponse grants)))))))) x.
Proof.
  apply path_id_at; [apply _|]. intros id. apply requested_ids_at. intros l. apply keys_at. intros Hk.
  apply (answered_at _ mapAdapterAccessHandlerError); [apply access_error_frame|apply ListAdapterWorkspaceAccess_frame|].
  intros before s1 E Es. apply listed_adapter in E; [|done]. eapply enter; [simpl; rewrite Es; exact E|].
  apply (answered_safe _ mapAdapterAccessHandlerError); [apply access_error_frame|apply ReplaceAdapter_safe|]. intros [].
  apply (answered_safe _ mapAdapterAccessHandlerError); [apply access_error_frame|apply reads_safe, ListAdapterWorkspaceAccess_frame|]. intros grants.
  related relates_bind; [|intros []; apply still; [apply _|apply write_frame] ].
  related relates_try; [apply still; [apply _|apply preserves_up, query_frame]|].
  intros [a|e]; [apply audit_safe|apply still; [apply _|apply preserves_ret] ].
Qed.

Lemma UpdateIdentityAccess_safe x : Safe
  (adapter_id (fun adapterID => identity_id (fun identityID => requested_ids (fun workspaceIDs =>
    answered mapIdentityAccessError (ListIdentityWorkspaceAccess access (Some ws) adapterID identityID) (fun before =>
    answered mapIdentityAccessError (ReplaceIdentityWorkspaceAccess access (Some ws) adapterID identityID workspaceIDs) (fun _ =>
    answered mapIdentityAccessError (ListIdentityWorkspaceAccess access (Some ws) adapterID identityID) (fun grants =>
      (try! identity := up (IdentityRepo_GetByID identityID) in
       match identity with
       | Err _ => ret tt
       | Ok identity =>
           audit_grants (ih_auditStore ih) "adapter_identity" identityID ws before grants
             {["adapter_id" := AStr (uuid_String adapterID); "identity" := AStr (id_Identity identity);
               "identity_type" := AStr (IdentityType_String (id_IdentityType identity))]}
       end) ;;;
      JSON_reply 200 (NewWorkspaceAccessListResponse grants)))))))) x.
Proof.
  apply path_id_at; [apply _|]. intros id. apply path_id_at; [apply _|]. intros iid. apply requested_ids_at. intros l.
  apply keys_at. intros Hk. apply answered_at; [apply _|apply identity_access_error_frame|apply ListIdentityWorkspaceAccess_frame|].
  intros before s1 E Es. apply listed_identity in E; [|done]. eapply enter; [simpl; rewrite Es; exact E|].
  apply answered_safe; [apply _|apply identity_access_error_frame|apply ReplaceIdentity_safe; by left|]. intros [].
  apply answered_safe; [apply _|apply identity_access_error_frame|apply reads_safe, ListIdentityWorkspaceAccess_frame|]. intros grants.
  related relates_bind; [|intros []; apply still; [apply _|apply write_frame] ].
  related relates_try; [apply still; [apply _|apply preserves_up, query_frame]|].
  intros [a|e]; [apply audit_safe|apply still; [apply _|apply preserves_ret] ].
Qed.
End InWorkspace.

(** *** Tracking *)

Lemma scoped_adapter_at scope (k : uuid -> Adapter -> HandlerFunc Flt) x :
  (forall id a s', db_tables s' = db_tables x.1 -> standing scope id [] [] (db_tables s') ->
     relates_at (on_world db_tables) (guarded scope fleet_keys) (k id a) (s', x.2)) ->
  relates_at (on_world db_tables) (guarded scope fleet_keys) (scoped_adapter scope k) x.
Proof.
  intros Hk. apply path_id_at; [apply _|]. intros id. apply keys_at. intros Hkeys. apply stored_at; [apply _|apply query_frame|].
  intros a s1 [_ Ha]%GetByID_row Es. unfold sameScope. case_bool_decide as Hs; simpl; [|apply still_at; [apply _|apply WriteError_frame] ].
  apply Hk; [done|]. rewrite Es. by eapply stands.
Qed.

Lemma autoProvision_safe scope x : relates_at (on_world db_tables) (guarded scope fleet_keys) (autoProvision sh scope) x.
Proof.
  unfold autoProvision, fleet_setup. simpl. destruct (when_tracking _ _ _ _ _ _) as [q|] eqn:Eq; [|apply still_at; [apply _|apply WriteError_frame] ].
  unfold when_tracking in Eq. case_bool_decide; [done|]. injection Eq as <-. apply scoped_adapter_at. intros id a s1 Es Hst.
  eapply enter; [exact Hst|]. related relates_bind; [apply relates_up; by eapply Provision_safe|].
  intros [r [e|] ]; [destruct (IsAccessDenied e)|]; (apply still; [apply _|apply write_frame]).
Qed.

Lemma setupGuide_safe scope x : relates_at (on_world db_tables) (guarded scope fleet_keys) (setupGuide sh scope) x.
Proof. apply scoped_adapter_at. intros. apply still_at; [apply _|apply write_frame]. Qed.

Lemma provisioningStatus_safe scope x : relates_at (on_world db_tables) (guarded scope fleet_keys) (provisioningStatus sh scope) x.
Proof.
  apply scoped_adapter_at. intros id a s1 _ _. simpl. apply still_at; [apply _|]. apply stored_frame; [apply preserves_up, query_frame|].
  intros [|st l]; apply write_frame.
Qed.

(** *** Every route *)

Lemma editable_at workspace (k : uuid -> HandlerFunc Flt) x : fleet_keys (db_tables x.1) ->
  (forall aim id s', db_tables s' = db_tables x.1 -> standing aim id [] [] (db_tables s') ->
     relates_at (on_world db_tables) (guarded aim fleet_keys) (k id) (s', x.2)) ->
  exists aim, (forall ws, workspace = Some ws -> aim = Some (ws_ID ws)) /\
    relates_at (on_world db_tables) (guarded aim fleet_keys) (editable_adapter ih workspace k) x.
Proof.
  intros Hk Hat. destruct workspace as [ws|].
  - exists (Some (ws_ID ws)). split; [by intros ? [= ->]|]. apply path_id_at; [apply _|]. intros id.
    apply answered_at; [apply _|apply identity_access_error_frame|unfold ensureEditableAdapter; simpl; preserves_tac|].
    intros [] s1 E Es. apply bind_Ok in E as (acc & s2 & E2 & E). destruct (acc_Editable acc) eqn:Ee; simpl in E; [|done].
    apply Hat; [done|]. rewrite Es. by apply (access_stands ilike collate ws id x.1 acc s2).
  - destruct (uuid_Parse (Param "id" x.2)) as [id|e] eqn:Ep.
    + destruct (some_scope id _ Hk) as [aim Hst]. exists aim. split; [done|]. destruct x as [s c]. simpl in *.
      assert (Hs : editable_adapter ih None k (s, c) = k id (s, c)).
      { unfold editable_adapter, adapter_id, path_id, bind, conn, get_state. simpl. by rewrite Ep. }
      unfold relates_at. rewrite Hs. by apply Hat.
    + exists None. split; [done|]. destruct x as [s c]. simpl in *.
      assert (Hs : editable_adapter ih None k (s, c) = WriteError 400 "BAD_REQUEST" "invalid adapter ID" (s, c)).
      { unfold editable_adapter, adapter_id, path_id, bind, conn, get_state. simpl. by rewrite Ep. }
      unfold relates_at. rewrite Hs. apply (still_at (guarded None fleet_keys)). apply WriteError_frame.
Qed.

Lemma Identity_delete_at workspace x : fleet_keys (db_tables x.1) -> exists aim, (forall ws, workspace = Some ws -> aim = Some (ws_ID ws)) /\
  relates_at (on_world db_tables) (guarded aim fleet_keys) (Identity_delete ih workspace) x.
Proof.
  intros Hk. apply editable_at; [done|]. intros aim id s1 Es Hst. apply path_id_at; [apply _|]. intros iid.
  apply answered_at; [apply _|apply identity_error_frame|apply query_frame|]. intros i s2 [E Et]%query_Ok _. simpl in E, Et.
  destruct (fl_identities (db_tables s1) !! iid) as [j|] eqn:Ej; [|done]. injection E as ->.
  case_bool_decide as Hid; simpl; [|apply still_at; [apply _|apply WriteError_frame] ].
  eapply (enter aim id [iid]); [simpl; rewrite Et; by eapply more_ids|].
  apply answered_safe; [apply _|apply identity_error_frame|apply DeleteIdentity_safe; by left|]. intros []. apply still; [apply _|apply write_frame].
Qed.

Lemma Identity_writes_at workspace x h : fleet_keys (db_tables x.1) ->
  h ∈ [Identity_sync collate ih workspace; Identity_create collate ih workspace; Identity_delete ih workspace; Identity_setDefault ih workspace] ->
  exists aim, (forall ws, workspace = Some ws -> aim = Some (ws_ID ws)) /\ relates_at (on_world db_tables) (guarded aim fleet_keys) h x.
Proof.
  intros Hk. rewrite !elem_of_cons, elem_of_nil. intros [->|[->|[->|[->|[] ] ] ] ].
  - apply editable_at; [done|]. intros aim id s1 Es Hst. eapply enter; [exact Hst|apply sync_body].
  - apply editable_at; [done|]. intros aim id s1 Es Hst. eapply enter; [exact Hst|apply create_body].
  - by apply Identity_delete_at.
  - apply editable_at; [done|]. intros aim id s1 Es Hst. eapply enter; [exact Hst|apply default_body].
Qed.

Lemma Identity_list_frame workspace : preserves (on_world db_tables) (Identity_list collate ih workspace).
Proof.
  apply preserves_bind; [apply conn_frame|]. intros c. destruct (uuid_Parse _) as [id|e]; [|apply WriteError_frame].
  apply preserves_try; [|intros [l|e]; [apply write_frame|apply identity_access_error_frame] ].
  apply preserves_up. change (ih_accessSvc ih) with (Some access). destruct workspace; [apply ListIdentities_frame|apply query_frame].
Qed.

Lemma audit_frame f c : preserves (on_world db_tables) (audit_page f c).
Proof.
  apply stored_frame; [apply preserves_up|intros page; apply write_frame]. unfold Audit_Query. cbv zeta.
  apply preserves_bind; [apply preserves_lift|]. intros cursor. apply query_frame.
Qed.

#[local] Abbreviation in_workspace := (workspace_effect (fun ws => guarded (Some (ws_ID ws)) fleet_keys)).

Lemma in_workspace_at (k : Workspace -> HandlerFunc Flt) :
  (forall ws x, relates_at (on_world db_tables) (guarded (Some (ws_ID ws)) fleet_keys) (k ws) x) ->
  in_workspace (stored (resolveWorkspace (HostedTenants ilike) (HostedWorkspaces ilike)) k).
Proof. intros Hk. by apply resolved_effect. Qed.
Lemma in_workspace_read (k : Workspace -> HandlerFunc Flt) : (forall ws, preserves (on_world db_tables) (k ws)) ->
  in_workspace (stored (resolveWorkspace (HostedTenants ilike) (HostedWorkspaces ilike)) k).
Proof. intros Hk. apply in_workspace_at. intros ws x. by apply still_at; [apply _|]. Qed.
Lemma in_workspace_write (k : option Workspace -> HandlerFunc Flt) : (forall workspace x, fleet_keys (db_tables x.1) ->
    exists aim, (forall ws, workspace = Some ws -> aim = Some (ws_ID ws)) /\ relates_at (on_world db_tables) (guarded aim fleet_keys) (k workspace) x) ->
  in_workspace (stored (resolveWorkspace (HostedTenants ilike) (HostedWorkspaces ilike)) (fun ws => k (Some ws))).
Proof.
  intros Hk. apply in_workspace_at. intros ws x. apply keys_at. intros Hkeys. destruct (Hk (Some ws) x Hkeys) as (aim & Ha & Hr).
  by rewrite (Ha ws eq_refl) in Hr.
Qed.

#[local] Abbreviation ws_routes := (workspace_adapter_routes ilike collate Encrypt Decrypt baseURL senderFactory providerFactory
  LoadDefaultConfig clientFactory bindingRegistrar smtpPolicy ValidateCredentials).
#[local] Abbreviation global_routes := (global_adapter_routes ilike collate Encrypt Decrypt baseURL senderFactory providerFactory
  LoadDefaultConfig clientFactory bindingRegistrar smtpPolicy ValidateCredentials).
#[local] Hint Extern 1 (_ ∈ _ :: _) => rewrite !elem_of_cons; tauto : senda.

Lemma workspace_adapter_effects group : Forall (fun r => in_workspace (route_Handler r)) (ws_routes group).
Proof.
  unfold workspace_adapter_routes. cbv zeta. rewrite !Forall_cons. cbn [route_Handler]. split_and!; [..|constructor].
  - apply in_workspace_read. intros ws. apply list_frame.
  - apply in_workspace_at. intros ws x. apply (create_safe (Some ws)).
  - intros s c _. left. exact (ValidateSES_frame (s, c)).
  - apply in_workspace_read. intros ws. apply get_frame.
  - apply in_workspace_at. intros ws x. apply (update_safe (Some ws)).
  - apply in_workspace_at. intros ws x. apply (softDelete_safe (Some ws)).
  - apply in_workspace_at. intros ws x. apply (testSend_safe (Some ws)).
  - apply in_workspace_read. intros ws. apply preserves_bind; [apply conn_frame|]. intros c.
    destruct (uuid_Parse _) as [id|e]; [|apply WriteError_frame].
    apply preserves_try; [apply preserves_up, ListAdapterWorkspaceAccess_frame|]. intros [l|e]; [apply write_frame|apply access_error_frame].
  - apply in_workspace_at. intros ws x. apply UpdateAdapterAccess_safe.
  - apply in_workspace_at. intros ws x. apply (setupGuide_safe (Some (ws_ID ws))).
  - apply in_workspace_at. intros ws x. apply (autoProvision_safe (Some (ws_ID ws))).
  - apply in_workspace_at. intros ws x. apply (provisioningStatus_safe (Some (ws_ID ws))).
  - apply in_workspace_read. intros ws. apply Identity_list_frame.
  - apply (in_workspace_write (Identity_create collate ih)). intros w x Hk. apply Identity_writes_at; [done|]. auto with senda.
  - apply (in_workspace_write (Identity_sync collate ih)). intros w x Hk. apply Identity_writes_at; [done|]. auto with senda.
  - apply (in_workspace_write (Identity_delete ih)). intros w x Hk. apply Identity_writes_at; [done|]. auto with senda.
  - apply (in_workspace_write (Identity_setDefault ih)). intros w x Hk. apply Identity_writes_at; [done|]. auto with senda.
  - apply in_workspace_read. intros ws. apply preserves_bind; [apply conn_frame|]. intros c.
    destruct (uuid_Parse _) as [id|e]; [|apply WriteError_frame]. apply preserves_bind; [apply conn_frame|]. intros c'.
    destruct (uuid_Parse _) as [iid|e]; [|apply WriteError_frame].
    apply preserves_try; [apply preserves_up, ListIdentityWorkspaceAccess_frame|]. intros [l|e]; [apply write_frame|apply identity_access_error_frame].
  - apply in_workspace_at. intros ws x. apply UpdateIdentityAccess_safe.
  - apply in_workspace_read. intros ws. apply preserves_bind; [apply conn_frame|]. intros c. apply audit_frame.
Qed.

(** The global routes of identities take the adapter of any scope. *)
Definition any_scope (route : Route Flt) : bool := String.prefix "/global/adapters/:id/identities" (route_Path route).

Lemma global_adapter_effects : Forall (fun r => route_Min r = RoleSuperadmin /\
    forall x, fleet_keys (db_tables x.1) -> exists aim, (any_scope r = false -> aim = None) /\
      relates_at (on_world db_tables) (guarded aim fleet_keys) (route_Handler r) x) global_routes.
Proof.
  assert (Hnone : forall (h : HandlerFunc Flt) b, (forall x, relates_at (on_world db_tables) (guarded None fleet_keys) h x) ->
    forall x, fleet_keys (db_tables x.1) -> exists aim, (b = false -> aim = None) /\
      relates_at (on_world db_tables) (guarded aim fleet_keys) h x) by (intros; by exists None).
  assert (Hread : forall (h : HandlerFunc Flt) b, preserves (on_world db_tables) h ->
    forall x, fleet_keys (db_tables x.1) -> exists aim, (b = false -> aim = None) /\
      relates_at (on_world db_tables) (guarded aim fleet_keys) h x) by (intros h b Hf; apply Hnone; intros; by apply still_at; [apply _|]).
  assert (Hwrite : forall h, h ∈ [Identity_sync collate ih None; Identity_create collate ih None; Identity_delete ih None; Identity_setDefault ih None] ->
    forall x, fleet_keys (db_tables x.1) -> exists aim, (true = false -> aim = None) /\
      relates_at (on_world db_tables) (guarded aim fleet_keys) h x).
  { intros h Hin x Hk. destruct (Identity_writes_at None x h Hk Hin) as (aim & _ & Hr). by exists aim. }
  unfold global_adapter_routes. cbv zeta. rewrite !Forall_cons. split_and!; cbn [route_Handler route_Min]; try done.
  - apply Hread, list_frame.
  - apply Hnone. intros x. apply (create_safe None).
  - apply Hread, get_frame.
  - apply Hnone. intros x. apply (update_safe None).
  - apply Hnone. intros x. apply (softDelete_safe None).
  - apply Hnone. intros x. apply (testSend_safe None).
  - apply Hnone. intros x. apply setupGuide_safe.
  - apply Hnone. intros x. apply autoProvision_safe.
  - apply Hnone. intros x. apply provisioningStatus_safe.
  - apply Hread, Identity_list_frame.
  - apply Hwrite. auto with senda.
  - apply Hwrite. auto with senda.
  - apply Hwrite. auto with senda.
  - apply Hwrite. auto with senda.
  - apply Hread. apply preserves_bind; [apply conn_frame|]. intros c. apply audit_frame.
Qed.

(** ** Requests *)

Context `{Sha256} (oidcVerifier : string -> M Flt OIDCClaims) (apiKeyPepper : string).
Hypothesis verifier_frame : forall token, preserves db_tables (oidcVerifier token).

(** C15: whatever an adapter, identity or audit route is asked, and whatever the
    provider answers, the tables keep their keys and either nothing changed, or
    the caller has at least the route's role over the workspace the path names and
    only that workspace's own adapters changed, with their identities, grants and
    provisioning steps, or the caller is a superadmin and only the adapters of one
    scope did, the global one unless the route is one of identities. Types only
    lose a deleted sender and the audit log only grows. *)
Theorem adapter_changes_confined route s c r x' :
  fleet_keys (db_tables s) ->
  (forall id a, tb_roles (fl_dir (db_tables s)) !! id = Some a -> role_scope_check a = true) ->
  cn_Values c = no_values ->
  route ∈ adapter_routes ilike collate Encrypt Decrypt baseURL senderFactory providerFactory LoadDefaultConfig clientFactory
            bindingRegistrar smtpPolicy ValidateCredentials ->
  handle_hosted ilike oidcVerifier apiKeyPepper route (s, c) = (r, x') ->
  let t := db_tables s in let t' := db_tables x'.1 in
  fleet_keys t' /\
  (t' = t \/
   (exists ws, named c (fl_dir t) ws /\ entitled oidcVerifier (route_Min route) c (fl_dir t) ws /\ within (Some (ws_ID ws)) t t') \/
   (superadmin oidcVerifier c (fl_dir t) /\ exists scope, (any_scope route = false -> scope = None) /\ within scope t t')).
Proof.
  intros Hok Hroles Hv Hin E. cbv zeta. unfold adapter_routes in Hin. rewrite !elem_of_app in Hin.
  assert (Hws : in_workspace (route_Handler route) \/ route ∈ global_routes).
  { pose proof workspace_adapter_effects as Hws. setoid_rewrite Forall_forall in Hws.
    destruct Hin as [Hin|[Hin|Hin] ]; [left; by eapply Hws..|by right]. }
  destruct Hws as [Hh|Hg].
  - apply (workspace_route ilike oidcVerifier apiKeyPepper verifier_frame _ _ _ _ _ _ Hv Hh) in E as [->|(ws & Hn & He & HR)]; [by auto|].
    destruct (HR Hok) as [? ?]. split; [done|]. right. left. by exists ws.
  - pose proof global_adapter_effects as Hge. rewrite Forall_forall in Hge. destruct (Hge _ Hg) as [Hmin Hsafe].
    pose proof (superadmin_route ilike oidcVerifier apiKeyPepper verifier_frame route s c r x' Hv Hmin) as Hsr.
    destruct (Hsr Hroles E) as [->|(Ha & s1 & c1 & Es & _ & ->)]; [by auto|].
    destruct (Hsafe (s1, c1)) as (aim & Haim & Hr); [simpl; by rewrite Es|]. unfold relates_at, on_world, guarded in Hr. simpl in Hr.
    rewrite Es in Hr. destruct (Hr Hok) as [? ?]. split; [done|]. right. right. split; [done|]. by exists aim.
Qed.
End Handlers.
