(* ===== verification/AdapterRuns.v ===== *)
(** * Runs of the adapter routes

    Adapters of two tenants at concrete requests: a grant given from the system
    workspace, and what the handlers let through. *)
From stdpp Require Import base gmap strings list sorting.
From Stdlib Require Import ZArith NArith Ascii String Lia.
From S2P Require Import Prelude GoMonad Domain Ports Token Config Http Suppression Postgres Database Directory.
From S2P Require Import Auth Members Roles Gates Surface Authority ControlRuns Inheritance Hosted Templates Versions TemplateRuns.
From S2P Require Import Fleet TemplateHandlers FleetRuns Provisioning SNS Access AdapterConfig AdapterHandlers Identities PublicHandlers.
From S2P Require Import AdapterRoutes AdapterSafety.

#[local] Instance ad_std : GoStd := ascii_std.
#[local] Instance ad_codec : Codec := sample_codec.
#[local] Instance ad_sha : Sha256 := {| sha256 := fun m => "s" +:+ m |}.
#[local] Instance ad_parsers : Parsers := {|
  uuid_Parse := fun s => match Atoi s with Some n => Ok (Z.to_N n) | None => Err (EMsg "invalid UUID") end;
  ParseAddress := fun s => Ok s;
|}.
#[local] Instance ad_times : TimeParser := {| time_Parse := fun _ _ => Ok 0%Z |}.
#[local] Instance ad_format : TimeFormat := {| rfc3339nano := fun _ => "1970-01-01T00:00:00Z" |}.
#[local] Instance ad_aws : AwsErrors := {| ErrorCode := fun _ => None |}.
#[local] Instance ad_ip : NetIP := {| ParseIP := fun _ => None; ParseCIDR := fun _ => None |}.
#[local] Instance ad_object : JSON (option fields_map) := {| Marshal := fun _ => Ok ""; Unmarshal := fun _ => Ok (Some ∅) |}.
#[local] Instance ad_ses : JSON SESConfig := {| Marshal := fun _ => Ok ""; Unmarshal := fun _ => Ok (mkSESConfig "us" "" "" "" "") |}.
#[local] Instance ad_smtp : JSON SMTPConfig := {| Marshal := fun _ => Ok ""; Unmarshal := fun _ => Err (EMsg "not SMTP") |}.
#[local] Instance ad_bind_create : Binder CreateAdapterRequest := {| Bind := fun c => Ok (mkCreateAdapter (cn_RawBody c) "ses" "{}" false 1) |}.
#[local] Instance ad_bind_update : Binder UpdateAdapterRequest := {| Bind := fun c => Ok (mkUpdateAdapter (Some (cn_RawBody c)) None None None None) |}.
#[local] Instance ad_bind_test : Binder TestAdapterRequest := {| Bind := fun c => Ok (mkTestAdapter "to@x.io" "s" "b" (cn_RawBody c)) |}.
#[local] Instance ad_bind_access : Binder UpdateWorkspaceAccessRequest := {| Bind := fun c => Ok (mkUpdateAccess [cn_RawBody c]) |}.
#[local] Instance ad_bind_ses : Binder ValidateSESRequest := {| Bind := fun _ => Ok (mkValidateSES "us" "" "" "") |}.
#[local] Instance ad_bind_identity : Binder CreateManualIdentityRequest := {| Bind := fun c => Ok (mkCreateIdentity (cn_RawBody c) None) |}.

(** ** A fleet of two tenants *)

(** Workspace 9 belongs to another tenant. *)
Definition elsewhere : Workspace := {|
  ws_ID := 9; ws_LogicalWorkspaceID := 9; ws_TenantID := 2; ws_Code := "store"; ws_Name := "Store";
  ws_Environment := EnvironmentProd; ws_IsSystem := false; ws_IsActive := true; ws_OpenTrackingEnabled := false;
  ws_DefaultLocale := None; ws_TestRecipientMode := TestRecipientModeReplace; ws_TestRecipientAddresses := [];
  ws_AllowWorkspaceLocalTemplates := true; ws_AllowWorkspaceInheritedTemplateForks := true;
  ws_AllowWorkspaceLocalInjectors := true; ws_WorkspacePoliciesInitialized := true;
  ws_CreatedAt := 0; ws_UpdatedAt := 0; ws_DeletedAt := None |}.
Definition gmail : Adapter := mkAdapter 63 (Some 6%N) "Team mail" AdapterTypeGmail "" true 10 ∅ 0 0 None.
Definition their_identity : AdapterIdentity :=
  mkAdapterIdentity 71 62 "ceo@store.io" IdentityTypeEmail IdentityStatusVerified true true None IdentitySourceManual None 0 0 0.
Definition two_tenants : Fleet :=
  mkFleet (set_workspaces (<[9%N := elsewhere]>) (fl_dir FleetRuns.guarded))
    {[60%N := ses_or_smtp 60 5 AdapterTypeSMTP; 62%N := ses_or_smtp 62 9 AdapterTypeSES; 63%N := gmail]}
    {[71%N := their_identity]} ∅ ∅ ∅ [] ∅.

Lemma two_tenants_keys : fleet_keys two_tenants.
Proof.
  split; [| |by intros id s].
  - unfold Database.keyed. apply (every_row (fun id a => ad_ID a = id) (H := fun id a => N.eq_dec _ _)). vm_compute. reflexivity.
  - unfold Database.keyed. apply (every_row (fun id i => id_ID i = id) (H := fun id i => N.eq_dec _ _)). vm_compute. reflexivity.
Qed.

(** ** What start-up provides *)

Definition plain (s : string) : M Flt string := ret s.
Definition no_sender (_ : Adapter) (_ : string) : M Flt (OutgoingEmail -> M Flt string) := fail (EMsg "no sender").
Definition no_provider (_ : Adapter) (_ : string) : M Flt (option (M Flt (list ProviderIdentity))) := ret None.
Definition no_config (_ : string) (_ : option (string * string)) : M Flt unit := ret tt.
Definition silent_ses : SESAPI Flt := {|
  CreateConfigurationSet := fun _ => ret tt; CreateConfigurationSetEventDestination := fun _ _ => ret tt;
  DeleteConfigurationSet := fun _ => ret tt; DeleteConfigurationSetEventDestination := fun _ => ret tt |}.
Definition silent_sns : SNSAPI Flt := {|
  CreateTopic := fun n => ret n; Subscribe := fun a _ => ret a; ListSubscriptionsByTopic := fun _ => ret [];
  Unsubscribe := fun _ => ret tt; DeleteTopic := fun _ => ret tt |}.
Definition silent (_ : unit) (_ : string) : SESAPI Flt * SNSAPI Flt := (silent_ses, silent_sns).
Definition no_check (_ : SESConfig) : M Flt any := ret ANil.
Definition no_policy : CleartextAuthPolicy := mkCleartextPolicy false [].

Lemma silent_outside : outside plain plain no_sender no_provider no_config silent None no_check.
Proof. split; try done; intros; try by intros ?. Qed.

Definition anything (_ _ : string) : bool := true.
Definition shares : IdentityHandler := fleet_identities anything anything plain no_provider.
Definition sends : AdapterHandler := AdapterRoutes.fleet_adapters anything anything plain plain "https://track.io" no_sender no_config silent None no_policy no_check.
Definition grant_route : Route Flt :=
  mkRoute "PUT" "/tenants/:tenant_code/workspaces/:workspace_code/adapters/:id/workspace-access" RoleWorkspaceAdmin
    (Adapters_UpdateWorkspaceAccess sends).
Definition adapter_request (meth workspace id body : string) : Conn :=
  request meth [("tenant_code", "acme"); ("workspace_code", workspace); ("id", id)] "jwt" body.

(** The admin of the tenant shares the system workspace's adapter with the shop;
    for the shop's own request the adapter is not there to be shared. *)
Lemma adapter_changes_confined_witness :
  let ask c := handle_hosted anything fleet_idp "pepper" grant_route (fleet_db two_tenants, c) in
  let run := ask (adapter_request "PUT" "_system" "63" "5") in
  let refused := ask (adapter_request "PUT" "shop" "63" "5") in
  fl_adapter_grants (db_tables run.2.1) = {[(63%N, 5%N)]} /\
  al_Action <$> fl_audit (db_tables run.2.1) = ["update"] /\ status_of refused.2.2 = [403%Z] /\
  exists ws, named (adapter_request "PUT" "_system" "63" "5") (fl_dir two_tenants) ws /\ ws_ID ws = 6%N /\
    within (Some (ws_ID ws)) two_tenants (db_tables run.2.1).
Proof.
  intros ask run refused.
  assert (Hg : fl_adapter_grants (db_tables run.2.1) = {[(63%N, 5%N)]}) by (vm_compute; reflexivity).
  assert (Ha : al_Action <$> fl_audit (db_tables run.2.1) = ["update"]) by (vm_compute; reflexivity).
  split; [exact Hg|]. split; [exact Ha|]. split; [vm_compute; reflexivity|].
  pose proof (adapter_changes_confined anything anything plain plain "https://track.io" no_sender no_provider no_config silent None no_policy
    no_check silent_outside fleet_idp "pepper" fleet_idp_frame grant_route (fleet_db two_tenants) (adapter_request "PUT" "_system" "63" "5")
    run.1 run.2 two_tenants_keys) as Hall.
  assert (Hroles : forall id a, tb_roles (fl_dir two_tenants) !! id = Some a -> role_scope_check a = true).
  { apply (every_row (fun _ a => role_scope_check a = true) (H := fun _ a => bool_eq_dec _ _)). vm_compute. reflexivity. }
  specialize (Hall Hroles eq_refl).
  assert (Hin : grant_route ∈ adapter_routes anything anything plain plain "https://track.io" no_sender no_provider no_config silent None
            no_policy no_check) by (apply (list_elem_of_lookup_2 _ 8); reflexivity).
  specialize (Hall Hin). specialize (Hall (surjective_pairing run)). clearbody run. destruct Hall as [_ [E|[(ws & Hn & _ & Hw)|(Hs & _)] ] ].
  - exfalso. change (db_tables run.2.1 = two_tenants) in E. rewrite E in Ha. discriminate.
  - exists ws. split; [exact Hn|]. split; [|exact Hw].
    assert (Hsys : named (adapter_request "PUT" "_system" "63" "5") (fl_dir two_tenants) system).
    { exists acme. split; vm_compute; reflexivity. }
    by rewrite (named_same _ _ _ _ Hn Hsys).
  - exfalso. destruct Hs as (m & a & _ & (id & Hid)%roles_of_row & Hrole & _).
    assert (Hno : forall id a, tb_roles (fl_dir two_tenants) !! id = Some a -> mr_Role a = RoleTenantAdmin).
    { apply (every_row (fun _ a => mr_Role a = RoleTenantAdmin) (H := fun _ a => decide (_ = _))). vm_compute. reflexivity. }
    rewrite (Hno _ _ Hid) in Hrole. discriminate.
Defined.

(** ** What the handlers let through *)

(** The system workspace of a tenant is shown the sender identities of another
    tenant's adapter. *)
Lemma foreign_identities_listed :
  let run := Identities_List anything shares (fleet_db two_tenants, adapter_request "GET" "_system" "62" "") in
  status_of run.2.2 = [200%Z] /\ ws_TenantID elsewhere <> ws_TenantID system /\
  (ListIdentitiesForWorkspace (fleet_access anything anything) (Some system) 62 (fleet_db two_tenants)).1 = Ok [their_identity].
Proof. vm_compute. split_and!; done. Qed.

(** The global route deletes an identity of a workspace's adapter. *)
Lemma global_identity_of_workspace :
  let run := Identities_DeleteGlobal shares (fleet_db two_tenants,
    request "DELETE" [("id", "62"); ("identity_id", "71")] "jwt" "") in
  status_of run.2.2 = [204%Z] /\ fl_identities (db_tables run.2.1) !! 71%N = None.
Proof. vm_compute. split_and!; done. Qed.

(** Without a base URL the deprovisioner is not nil: it panics. *)
Lemma nil_provisioner_called :
  fleet_deprovision plain plain "" no_config silent None 62 (fleet_db two_tenants) = (Err nil_dereference, fleet_db two_tenants).
Proof. reflexivity. Qed.
