(* ===== verification/DataPlane.v ===== *)
(** * The data plane ([handler/send.go], [handler/data_plane_email.go], [routes_dataplane.go])

    What the holder of an API key does: sending, one message or a batch, and
    reading the emails of its workspace, as JSON or as a CSV stream; with
    [request/send.go] and [response/send.go]. *)
From stdpp Require Import base gmap strings list.
From Stdlib Require Import ZArith NArith Ascii String Lia.
From S2P Require Import Prelude GoMonad Domain Ports Token Config Http Suppression Postgres Database Directory.
From S2P Require Import Auth Members Inheritance TemplateHandlers SNS Send MailQueries RuntimeHandlers.

Module request.
Record SendEmailRequest := mkSendEmail {
  Ref : string;
  To : list string;
  CC : list string;
  BCC : list string;
  Variables : fields_map;
  Injectors : injector_map;
  ExternalID : option string;
  Locale : option string;
}.
Record SendBatchRequest := mkSendBatch { batch_Ref : string; batch_Items : list SendBatchItemRequest }.
End request.

(** ** Responses *)

Section Responses.
Context `{GoStd}.

Definition TrackingEntryResponse (e : TrackingEntry) : any :=
  AMap (text "to" (te_To e) ++ text "tracking_id" (te_TrackingID e) ++ text "status" (te_Status e)
        ++ filled "error" (te_Error e)).
Definition NewSendEmailResponse (r : SendResponse) : any :=
  AMap (text "status" (rs_Status r) ++ field "tracking_ids" (AList (TrackingEntryResponse <$> rs_TrackingIDs r))
        ++ optional "external_id" (rs_ExternalID r) ++ text "template_resolved" (rs_TemplateResolved r)
        ++ field "template_version" (AInt (rs_TemplateVersion r))).

Definition SendBatchItemResponse (i : SendBatchItemResult) : any :=
  AMap (field "index" (AInt (ir_Index i)) ++ text "to" (ir_To i) ++ filled "tracking_id" (ir_TrackingID i)
        ++ text "status" (ir_Status i) ++ optional "external_id" (ir_ExternalID i) ++ filled "error" (ir_Error i)).
Definition NewSendBatchResponse (r : SendBatchResponse) : any :=
  AMap (text "status" (bs_Status r) ++ text "template_resolved" (bs_TemplateResolved r)
        ++ field "items" (AList (SendBatchItemResponse <$> bs_Items r))
        ++ field "accepted_count" (AInt (bs_AcceptedCount r)) ++ field "suppressed_count" (AInt (bs_SuppressedCount r))
        ++ field "failed_count" (AInt (bs_FailedCount r))).
End Responses.

(** ** Sending *)

Record SendHandler (W : Type) := mkSendHandler {
  sdh_Send : SendRequest -> M W SendResponse;
  sdh_SendBatch : SendBatchRequest -> M W SendBatchResponse;
  sdh_batchMaxItems : Z;
}.
Arguments sdh_Send {W}. Arguments sdh_SendBatch {W}. Arguments sdh_batchMaxItems {W}.

Section Sending.
Context `{GoStd} `{Binder request.SendEmailRequest} `{Binder request.SendBatchRequest} {W : Type} (h : SendHandler W).

Definition mapSendError (e : error) : HandlerFunc W :=
  if errors_Is e ErrInvalidRef then WriteError 400 "BAD_REQUEST" "invalid template reference"
  else if errors_Is e ErrNotFound || errors_Is e ErrTemplateTypeNotFound || errors_Is e ErrTemplateNotFound
  then WriteError 404 "NOT_FOUND" "resource not found"
  else if errors_Is e ErrNoAdapterConfigured
  then WriteError 422 "NO_ADAPTER" "no adapter configured for this template type"
  else if errors_Is e ErrNoDefaultIdentity
  then WriteError 422 "NO_DEFAULT_IDENTITY" "no default sender identity configured for this adapter"
  else if errors_Is e ErrWorkspaceScopeMismatch
  then WriteError 403 "FORBIDDEN" "API key scope does not match template workspace"
  else if errors_Is e ErrSystemWorkspaceBlocked
  then WriteError 422 "SYSTEM_WORKSPACE_BLOCKED" "system workspace cannot send emails"
  else if errors_Is e ErrTestRecipientPolicyUnconfigured
  then WriteError 422 "TEST_RECIPIENT_POLICY_UNCONFIGURED" "test environment recipient policy is unconfigured"
  else if errors_Is e ErrDomainNotVerified then WriteError 422 "DOMAIN_NOT_VERIFIED" "from domain is not verified"
  else if errors_Is e ErrSuppressed then WriteError 422 "SUPPRESSED" "recipient is suppressed"
  else if errors_Is e ErrTemplateDisabled then WriteError 409 "TEMPLATE_DISABLED" "template is disabled"
  else if errors_Is e ErrNoPublishedVersion then WriteError 422 "NO_PUBLISHED_VERSION" "no published version for this template"
  else if errors_Is e ErrRateLimited then WriteError 429 "RATE_LIMITED" "rate limit exceeded"
  else WriteError 500 "INTERNAL_ERROR" "internal server error".

(** The workspace of the key, if the request carries one. *)
Definition key_workspace (c : Conn) : option uuid :=
  match v_workspace_id (cn_Values c) with
  | Some id => if bool_decide (id = uuid_Nil) then None else Some id
  | None => None
  end.
Definition no_workspace : HandlerFunc W := WriteError 401 "UNAUTHORIZED" "workspace context required (API key auth)".

(** The first value of each header, for the code injectors. *)
Definition first_headers (c : Conn) : gmap string string := omap head (cn_Headers c).

Definition data_plane_source : SendSource := mkSendSource EmailSourceTypeDataPlaneAPIKey None None.

Definition send_errors (req : request.SendEmailRequest) : list FieldError :=
  (if bool_decide (request.Ref req = "") then [mkFieldError "ref" "is required"] else [])
  ++ (if bool_decide (request.To req = []) then [mkFieldError "to" "is required"] else [])
  ++ (if (50 <? List.length (request.To req))%nat then [mkFieldError "to" "must contain at most 50 recipients"] else []).

(** The request of the service. *)
Definition send_request (wsID : uuid) (c : Conn) (req : request.SendEmailRequest) : SendRequest :=
  {| rq_Ref := request.Ref req; rq_To := request.To req; rq_CC := request.CC req; rq_BCC := request.BCC req;
     rq_Variables := request.Variables req; rq_Injectors := request.Injectors req;
     rq_ExternalID := request.ExternalID req; rq_Locale := request.Locale req; rq_AuthWorkspaceID := wsID;
     rq_Headers := first_headers c; rq_Source := data_plane_source |}.

Definition Handler_Send : HandlerFunc W :=
  let! c := conn in
  match key_workspace c with
  | None => no_workspace
  | Some wsID =>
      match Bind c with
      | Err _ => invalid_body
      | Ok req =>
          if negb (bool_decide (send_errors req = [])) then refused (send_errors req)
          else
            try! resp := up (sdh_Send h (send_request wsID c req)) in
            match resp with
            | Err e => mapSendError e
            | Ok resp => JSON_reply 202 (NewSendEmailResponse resp)
            end
      end
  end.

Definition effectiveBatchMaxItems : Z :=
  if (0 <? sdh_batchMaxItems h)%Z then sdh_batchMaxItems h else 100%Z.

Definition batch_errors (req : request.SendBatchRequest) : list FieldError :=
  let items := request.batch_Items req in
  (if bool_decide (request.batch_Ref req = "") then [mkFieldError "ref" "is required"] else [])
  ++ (if bool_decide (items = []) then [mkFieldError "items" "must contain at least 1 item"] else [])
  ++ (if (effectiveBatchMaxItems <? Z.of_nat (List.length items))%Z
      then [mkFieldError "items" ("must contain at most " +:+ Itoa effectiveBatchMaxItems +:+ " items")] else [])
  ++ List.concat (imap (fun i item => if bool_decide (it_To item = "")
                                     then [mkFieldError ("items[" +:+ Itoa (Z.of_nat i) +:+ "].to") "is required"]
                                     else []) items).

Definition batch_request (wsID : uuid) (c : Conn) (req : request.SendBatchRequest) : SendBatchRequest :=
  {| br_Ref := request.batch_Ref req; br_Items := request.batch_Items req; br_AuthWorkspaceID := wsID;
     br_Headers := first_headers c; br_Source := data_plane_source |}.

Definition Handler_SendBatch : HandlerFunc W :=
  let! c := conn in
  match key_workspace c with
  | None => no_workspace
  | Some wsID =>
      match Bind c with
      | Err _ => invalid_body
      | Ok req =>
          if negb (bool_decide (batch_errors req = [])) then refused (batch_errors req)
          else
            try! resp := up (sdh_SendBatch h (batch_request wsID c req)) in
            match resp with
            | Err e => mapSendError e
            | Ok resp => JSON_reply 202 (NewSendBatchResponse resp)
            end
      end
  end.
End Sending.

(** ** CSV ([encoding/csv]) *)

(** [Writer.fieldNeedsQuotes] with the default comma. *)
Definition csv_special (c : ascii) : bool := bool_decide (nat_of_ascii c ∈ [10; 13; 34; 44]).
Definition fieldNeedsQuotes (field : string) : bool :=
  if bool_decide (field = "") then false
  else if bool_decide (field = "\.") then true
  else if negb (sall (fun c => negb (csv_special c)) field) then true
  else match strip_any space_encodings field with Some _ => true | None => false end.

Fixpoint double_quotes (s : string) : string :=
  match s with
  | EmptyString => EmptyString
  | String c r => if (nat_of_ascii c =? 34)%nat then String c (String c (double_quotes r)) else String c (double_quotes r)
  end.

Definition csv_field (field : string) : string :=
  if fieldNeedsQuotes field then dquote +:+ double_quotes field +:+ dquote else field.
(** [Writer.Write]: the fields between commas, and a line feed. *)
Definition csv_record (record : list string) : string := Join (csv_field <$> record) "," +:+ bytes [10].
Definition csv_records (records : list (list string)) : string := foldr (fun r s => csv_record r +:+ s) "" records.

(** ** Reading the emails of the workspace *)

Section Emails.
Context `{GoStd} `{Parsers} `{TimeParser} {W : Type} (store : EmailReader W).

(** The error it returns is that of writing the refusal, which is none: the
    handlers go on without a workspace. *)
Definition workspaceIDFromContext : M (W * Conn) uuid :=
  let! c := conn in
  match key_workspace c with
  | Some id => ret id
  | None => no_workspace ;;; ret uuid_Nil
  end.

Definition DataPlane_List : HandlerFunc W := let! wsID := workspaceIDFromContext in list_emails store wsID.
Definition DataPlane_GetByTrackingID : HandlerFunc W :=
  let! wsID := workspaceIDFromContext in show_email store wsID NewEmailDetailResponse.
Definition DataPlane_GetEvents : HandlerFunc W :=
  let! wsID := workspaceIDFromContext in show_email store wsID (fun _ => NewEmailEventListResponse).

Definition export_header : list string :=
  ["tracking_id"; "external_id"; "recipient_email"; "status"; "template_ref"; "from_email"; "subject_rendered";
   "created_at"; "reply_to"].
Definition export_record (e : Email) : list string :=
  [em_TrackingID e; default "" (em_ExternalID e); em_RecipientEmail e; EmailStatus_String (em_Status e);
   em_TemplateRef e; em_FromEmail e; em_SubjectRendered e; rfc3339 (em_CreatedAt e); default "" (em_ReplyTo e)].

(** The loop of the goroutine that writes into the pipe: what came through it,
    and the error that closed it. The header waits for the first flush. *)
Fixpoint export_pages (fuel : nat) (wsID : uuid) (filters : EmailFilters) (limit : Z) (cursor buffered : string)
  : M W (string * option error) :=
  match fuel with
  | O => ret ("", Some (EMsg "out of fuel"))
  | S fuel =>
      try! page := er_QueryByWorkspace store wsID filters cursor limit in
      match page with
      | Err e => ret ("", Some e)
      | Ok (emails, nextCursor) =>
          let flushed := buffered +:+ csv_records (export_record <$> emails) in
          if bool_decide (nextCursor = "") then ret (flushed, None)
          else let! rest := export_pages fuel wsID filters limit nextCursor "" in
               ret (flushed +:+ rest.1, rest.2)
      end
  end.

(** [c.Stream] copies the pipe into the response and returns its error. *)
Definition DataPlane_Export (fuel : nat) : HandlerFunc W :=
  let! wsID := workspaceIDFromContext in
  let! c := conn in
  let limit := parseLimit c in
  let limit := if (limit <? 1)%Z then 100%Z else limit in
  set_state (set_resp_headers (fun l => l ++
    [("Content-Type", "text/csv; charset=utf-8");
     ("Content-Disposition", "attachment; filename=" +:+ dquote +:+ "emails_export.csv" +:+ dquote)])) ;;;
  let! out := up (export_pages fuel wsID (parseEmailFilters c) limit (QueryParam "cursor" c) (csv_record export_header)) in
  Blob 200 "text/csv; charset=utf-8" out.1 ;;;
  match out.2 with Some e => fail e | None => ret tt end.
End Emails.

(** ** The routes

    One world for both databases' tables: the mail's and the directory's. *)
Definition Plane : Type := Sys * Dir.

Section Stores.
Context `{GoStd} `{Codec} (ilike : string -> string -> bool).

Definition PlaneTenants : TenantStore.t Plane := {|
  TenantStore.Create := fun t => down (TenantRepo_Create t);
  TenantStore.GetByID := fun id => down (TenantRepo_GetByID id);
  TenantStore.GetByCode := fun code => down (TenantRepo_GetByCode code);
  TenantStore.List := fun opts => down (TenantRepo_List ilike opts);
  TenantStore.Update := fun t => down (TenantRepo_Update t);
  TenantStore.SoftDelete := fun id => down (TenantRepo_SoftDelete id);
|}.

Definition PlaneWorkspaces : WorkspaceStore.t Plane := {|
  WorkspaceStore.GetByID := fun id => down (WorkspaceRepo_GetByID id);
  WorkspaceStore.GetByTenantAndCode := fun tid code env => down (GetByTenantAndCode tid code env);
  WorkspaceStore.GetSystemWorkspace := fun tid env => down (GetSystemWorkspace tid env);
  WorkspaceStore.ListByTenant := fun tid env limit cursor =>
    down (ListByTenant ilike tid env (mkListOptions cursor limit ""));
|}.

Definition PlaneMembers : MemberStore.t Plane := {|
  MemberStore.Create := fun m => down (MemberRepo_Create m);
  MemberStore.GetByEmail := fun e => down (GetByEmail e);
  MemberStore.GetByOIDCIdentity := fun i s => down (GetByOIDCIdentity i s);
  MemberStore.GetByID := fun id => down (MemberRepo_GetByID id);
  MemberStore.ListAll := fun o => down (ListAll o);
  MemberStore.ListInScope := fun st id o => down (ListInScope st id o);
  MemberStore.AddRole := fun r => down (AddRole r);
  MemberStore.ReplaceRoleInScope := fun r => down (ReplaceRoleInScope r);
  MemberStore.RemoveRole := fun id => down (RemoveRole id);
  MemberStore.RevokeAccessInScope := fun m st id => down (RevokeAccessInScope m st id);
  MemberStore.GetRoles := fun id => down (GetRoles id);
  MemberStore.GetRolesInScope := fun m st id => down (GetRolesInScope m st id);
  MemberStore.GetRolesByMembers := fun ids => down (GetRolesByMembers ids);
|}.

Definition PlaneKeys : APIKeyStore.t Plane := {|
  APIKeyStore.Create := fun k => down (APIKeyRepo_Create k);
  APIKeyStore.GetByID := fun id => down (APIKeyRepo_GetByID id);
  APIKeyStore.GetByHash := fun h => down (GetByHash h);
  APIKeyStore.Revoke := fun id => down (APIKeyRepo_Revoke id);
  APIKeyStore.TouchLastUsed := fun id => down (TouchLastUsed id);
  APIKeyStore.ListByWorkspace := fun ws o => down (APIKeyRepo_ListByWorkspace ws o);
|}.

Definition PlaneEmails : EmailReader Plane := {|
  er_QueryByWorkspace := fun ws f cursor limit => up (QueryByWorkspace ws f cursor limit);
  er_GetByTrackingID := fun tid => up (GetByTrackingID tid);
  er_GetEvents := fun id => up (GetEvents id);
|}.
End Stores.

Section Routes.
Context `{GoStd} `{Codec} `{Sha256} `{Parsers} `{TimeParser} `{Binder request.SendEmailRequest} `{Binder request.SendBatchRequest}.
Context (ilike : string -> string -> bool) (oidcVerifier : string -> M Plane OIDCClaims) (apiKeyPepper : string).
Context (service : SendService Sys) (batchMaxItems : Z) (fuel : nat).

Definition sendHandler : SendHandler Plane :=
  mkSendHandler _ (fun req => up (Send service req)) (fun req => up (SendBatch service req)) batchMaxItems.

Definition data_plane_routes : list (string * string * HandlerFunc Plane) :=
  [("POST", "/send", Handler_Send sendHandler);
   ("POST", "/send/batch", Handler_SendBatch sendHandler);
   ("GET", "/emails", DataPlane_List PlaneEmails);
   ("GET", "/emails/export", DataPlane_Export PlaneEmails fuel);
   ("GET", "/emails/:tracking_id", DataPlane_GetByTrackingID PlaneEmails);
   ("GET", "/emails/:tracking_id/events", DataPlane_GetEvents PlaneEmails)].

(** The middleware of a data-plane route. *)
Definition data_plane (h : HandlerFunc Plane) : HandlerFunc Plane :=
  serve (RequestID (up (NewV7 sys_runtime))
    (Scope (Auth PlaneKeys PlaneMembers oidcVerifier apiKeyPepper h))).
End Routes.
