(* ===== verification/DataPlaneSafety.v ===== *)
(** * What an API key can do and see

    Through the middleware, a request to the data plane writes rows only in the
    workspace of a live key whose token it carries, and is shown the emails of
    that workspace only; the export is all of them. *)
From stdpp Require Import base gmap strings list sorting.
From Stdlib Require Import ZArith NArith Ascii String Lia.
From S2P Require Import Prelude GoMonad Domain Ports Token Config Http Suppression Postgres Database Directory.
From S2P Require Import Auth Members Roles Gates Inheritance TemplateHandlers SNS Outbox Send SendSafety BatchSafety.
From S2P Require Import Unsubscribe MailQueries RuntimeHandlers DataPlane.

(** The part of the world the theorem speaks of. *)
Definition plane_view (w : Plane) := ((mailbox w.1, blocklist w.1), db_tables w.2).
Abbreviation PlaneView := (Mailbox * (gmap string SuppressionGlobal * gmap (uuid * string) SuppressionWorkspace
  * gmap (uuid * uuid * string) TemplateTypeSubscription) * Tables)%type.

#[export] Instance plane_directory `{GoStd} `{Codec} ilike {A} (f : Sys -> A) :
  DirectoryView (fun w : Plane => (f w.1, db_tables w.2)) snd (PlaneTenants ilike) (PlaneWorkspaces ilike) PlaneKeys PlaneMembers.
Proof.
  destruct (directory_repos ilike) as [Ht Hw Hk Hi He Hr].
  split; intros; [exact (answers_down f _ _ (Ht _))|exact (answers_down f _ _ (Hw _ _ _))|exact (answers_down f _ _ (Hk _))
    |exact (answers_down f _ _ (Hi _ _))|exact (answers_down f _ _ (He _))|exact (answers_down f _ _ (Hr _))].
Qed.

(** ** What the queries return *)

Section Reads.
Context `{GoStd} `{Codec}.

Lemma query_rows p cursor limit s l next s' :
  queryEmails cursor limit (Ok p) s = (Ok (l, next), s') -> Forall (fun e => (exists id, sys_emails s !! id = Some e) /\ p e = true) l.
Proof.
  unfold queryEmails, bind, lift_res. destruct (at_position cursor) as [at_cursor|e]; [|done].
  intros (fs & E)%stmt_Ok. apply Forall_forall. intros e He.
  assert (Hin : e ∈ merge_sort not_later (rows (fun e => p e && at_cursor e) (sys_emails s))).
  { injection E as E _. case_match; simplify_eq; [apply subseteq_take in He|]; by apply subseteq_take in He. }
  rewrite merge_sort_Permutation in Hin. apply elem_of_rows in Hin as [Hrow Hp]. by apply andb_true_iff in Hp as [? _].
Qed.

Lemma QueryByWorkspace_rows ws f cursor limit s l next s' :
  QueryByWorkspace ws f cursor limit s = (Ok (l, next), s') ->
  Forall (fun e => (exists id, sys_emails s !! id = Some e) /\ email_matches ws f e = true) l.
Proof.
  unfold QueryByWorkspace. destruct (optionally _ _); [apply query_rows|].
  unfold queryEmails, bind, lift_res. destruct (at_position cursor); [|done]. by intros (fs & E)%stmt_Ok.
Qed.

Lemma GetByTrackingID_row tid s e s' :
  GetByTrackingID tid s = (Ok e, s') -> (exists id, sys_emails s !! id = Some e) /\ em_TrackingID e = tid.
Proof.
  intros (fs & E)%stmt_Ok. unfold select_email in E. simpl in E.
  destruct (List.filter _ _) as [|[id row] l] eqn:Ef; [done|]. injection E as -> _.
  assert (Hin : In (id, e) (List.filter (fun kv => bool_decide (em_TrackingID kv.2 = tid)) (map_to_list (sys_emails s))))
    by (rewrite Ef; by left).
  apply filter_In in Hin as [Hin Ht]. apply list_elem_of_In, elem_of_map_to_list in Hin. split; [by exists id|by bools].
Qed.

Lemma QueryByWorkspace_frame {V} (v : Sys -> V) ws f cursor limit :
  (forall fs s, v (set_faults (fun _ => fs) s) = v s) -> preserves v (QueryByWorkspace ws f cursor limit).
Proof.
  intros Hv. unfold QueryByWorkspace, queryEmails. apply preserves_bind; [preserves_tac|]. intros at_cursor.
  apply stmt_frame; [done|]. intros s. by case_match.
Qed.

Lemma GetEvents_all id s l s' : GetEvents id s = (Ok l, s') -> l = events_of id s.
Proof. intros (fs & E)%stmt_Ok. by injection E as <- _. Qed.
End Reads.

(** ** What is shown *)

Section Shown.
Context `{GoStd} `{Codec} `{Parsers} `{TimeParser} `{Binder request.SendEmailRequest} `{Binder request.SendBatchRequest}.
Context (service : SendService Sys) (w0 : Sys) (c0 : Conn) (wsID : uuid).

(** A row of the table at the start of the request, in the workspace. *)
Definition row_of (e : Email) : Prop := (exists id, sys_emails w0 !! id = Some e) /\ em_WorkspaceID e = wsID.
(** The rows the request's filters select, and the one it names. *)
Definition selected (e : Email) : Prop := row_of e /\ email_matches wsID (parseEmailFilters c0) e = true.
Definition named (e : Email) : Prop := row_of e /\ em_TrackingID e = Param "tracking_id" c0.

(** The mail and the blocklists are those of the start of the request. *)
Definition as_before (w : Sys) : Prop := mailbox w = mailbox w0 /\ blocklist w = blocklist w0.
(** What identification leaves of the request. *)
Definition same_request (c : Conn) : Prop := cn_Params c = cn_Params c0 /\ cn_Query c = cn_Query c0.

Inductive about : Body -> Prop :=
| about_error code msg details id : about (BodyError code msg details id)
| about_send c body w resp w' : same_request c -> Bind c = Ok body -> as_before w ->
    Send service (send_request wsID c body) w = (Ok resp, w') -> about (BodyJSON (NewSendEmailResponse resp))
| about_batch c body w resp w' : same_request c -> Bind c = Ok body -> as_before w ->
    SendBatch service (batch_request wsID c body) w = (Ok resp, w') -> about (BodyJSON (NewSendBatchResponse resp))
| about_list emails cursor : Forall selected emails -> about (BodyJSON (NewEmailListResponse emails cursor))
| about_email e : named e -> about (BodyJSON (NewEmailDetailResponse e (events_of (em_ID e) w0)))
| about_events e : named e -> about (BodyJSON (NewEmailEventListResponse (events_of (em_ID e) w0)))
| about_export header emails : header ∈ [""; csv_record export_header] -> Forall selected emails ->
    about (BodyBlob "text/csv; charset=utf-8" (header +:+ csv_records (export_record <$> emails))).
End Shown.

(** ** The handlers *)

Section Handlers.
Context `{GoStd} `{Codec} `{Parsers} `{TimeParser} `{Binder request.SendEmailRequest} `{Binder request.SendBatchRequest}.
Context (service : SendService Sys) (batchMaxItems : Z) (fuel : nat) `{!Wired service}.
Context (types : uuid -> string -> TemplateType) `{!StableTypes service types}.

(** What a request may do to the tables: post emails of the workspace that the
    blocklists [w] allow. *)
Definition posts_for (w : Sys) (wsID : uuid) (a b : PlaneView) : Prop :=
  (wsID = uuid_Nil -> a.1.1 = b.1.1) /\ rtc (post (sendable types w wsID)) a.1.1 b.1.1 /\ a.2 = b.2.

#[export] Instance posts_for_preorder w wsID : PreOrder (posts_for w wsID).
Proof.
  split; [by split|]. intros a b c (Ha & ? & ?) (Hb & ? & ?). split_and!; [intros; by rewrite Ha, Hb|by etrans|congruence].
Qed.

Context (w0 : Sys) (c0 : Conn) (wsID : uuid).
Hypothesis no_blank : no_blank_rows w0.

#[local] Abbreviation Serves := (serves plane_view (posts_for w0 wsID) (about service w0 c0 wsID)).

Lemma sendable_blocklist w e : blocklist w = blocklist w0 -> sendable types w wsID e -> sendable types w0 wsID e.
Proof. intros E [A B C D]. split; [done..| |]; intros; rewrite <- (blocklist_clear w w0) by done; auto. Qed.

Lemma serves_mail_read {A} (m : M Sys A) (x : Plane * Conn) :
  preserves (fun s => (mailbox s, blocklist s)) m -> Serves (up (up m)) x.
Proof.
  intros Hm. apply serves_read; [apply _|]. intros [s d]. specialize (Hm s). unfold up, plane_view. simpl in *.
  destruct (m s) as [r s']. simpl in *. congruence.
Qed.

(** A request whose workspace is [wsID], in a world whose mail is that of the start. *)
Definition ready (x : Plane * Conn) : Prop := as_before w0 x.1.1 /\ same_request c0 x.2.
(** A request that reaches a handler: its workspace is [wsID], if it has one. *)
Definition reaches (x : Plane * Conn) : Prop :=
  ready x /\ key_workspace x.2 = (if bool_decide (wsID = uuid_Nil) then None else Some wsID).

Lemma before_emails w : as_before w0 w -> sys_emails w = sys_emails w0.
Proof. intros [Hm _]. exact (f_equal mb_emails Hm). Qed.
Lemma before_events w id : as_before w0 w -> events_of id w = events_of id w0.
Proof. intros [Hm _]. unfold events_of. by rewrite (f_equal mb_events Hm : sys_events w = sys_events w0). Qed.
Lemma same_filters c : same_request c0 c -> parseEmailFilters c = parseEmailFilters c0.
Proof. intros [_ Hq]. unfold parseEmailFilters, QueryParam. by rewrite Hq. Qed.
Lemma same_param name c : same_request c0 c -> Param name c = Param name c0.
Proof. intros [Hp _]. unfold Param. by rewrite Hp. Qed.

Lemma queried w c cursor limit l next w' :
  as_before w0 w -> same_request c0 c ->
  QueryByWorkspace wsID (parseEmailFilters c) cursor limit w = (Ok (l, next), w') -> Forall (selected w0 c0 wsID) l.
Proof.
  intros Hw Hc E%QueryByWorkspace_rows. rewrite same_filters, before_emails in E by done.
  eapply Forall_impl; [exact E|]. intros e [Hrow Hm]. split; [|done]. split; [done|]. unfold email_matches in Hm. by bools.
Qed.

Lemma list_serves x : ready x -> Serves (list_emails PlaneEmails wsID) x.
Proof.
  intros [Hw Hc]. unfold list_emails. apply serves_bind; [apply _|apply serves_conn, _|]. intros c x1 [= <- <-].
  apply serves_stored; [apply _|intros; constructor|apply serves_mail_read; by apply QueryByWorkspace_frame|].
  intros [emails next] x2 E. apply serves_write; [apply _|]. constructor.
  destruct x as [ [s d] c']. unfold up in E. simpl in E.
  destruct (QueryByWorkspace _ _ _ _ s) as [r s'] eqn:Eq. injection E as -> _. by eapply queried.
Qed.

Lemma show_serves show x :
  ready x -> (forall e, named w0 c0 wsID e -> about service w0 c0 wsID (BodyJSON (show e (events_of (em_ID e) w0)))) ->
  Serves (show_email PlaneEmails wsID show) x.
Proof.
  intros [Hw Hc] Hs. unfold show_email. apply serves_bind; [apply _|apply serves_conn, _|]. intros c x1 [= <- <-].
  case_bool_decide; [apply serves_error; [apply _|constructor]|].
  apply serves_stored; [apply _|intros; constructor| |].
  { apply serves_mail_read. apply stmt_frame; [done|]. intros s. done. }
  intros email x2 E2. case_bool_decide as Hws; simpl; [|apply serves_error; [apply _|constructor] ].
  destruct x as [ [s d] c]. unfold up in E2. simpl in *.
  destruct (GetByTrackingID (Param "tracking_id" c) s) as [r s'] eqn:Eg.
  assert (Hm : (mailbox s', blocklist s') = (mailbox s, blocklist s)).
  { assert (Hp : preserves (fun s => (mailbox s, blocklist s)) (GetByTrackingID (Param "tracking_id" c))) by by apply stmt_frame.
    specialize (Hp s). by rewrite Eg in Hp. }
  injection E2 as -> <-. apply GetByTrackingID_row in Eg as [Hrow Ht].
  rewrite before_emails in Hrow by done. rewrite same_param in Ht by done.
  apply serves_stored; [apply _|intros; constructor|apply serves_mail_read; by apply stmt_frame|].
  intros events x3 E. apply serves_write; [apply _|]. unfold up in E. simpl in E.
  destruct (GetEvents (em_ID email) s') as [r s3] eqn:Eq. injection E as -> _. apply GetEvents_all in Eq as ->.
  rewrite before_events; [by apply Hs|]. destruct Hw. split; congruence.
Qed.

(** The export: nothing, or the header and emails of the workspace. *)
Lemma export_rows n c limit cursor buffered (w : Plane) r w' :
  as_before w0 w.1 -> same_request c0 c ->
  export_pages PlaneEmails n wsID (parseEmailFilters c) limit cursor buffered w = (r, w') ->
  (mailbox w'.1, blocklist w'.1) = (mailbox w.1, blocklist w.1) /\ w'.2 = w.2 /\
  exists out, r = Ok out /\ exists header emails, header ∈ [""; buffered] /\
    Forall (selected w0 c0 wsID) emails /\ out.1 = header +:+ csv_records (export_record <$> emails).
Proof.
  intros Hw Hc. revert cursor buffered w r w' Hw. induction n as [|n IH]; intros cursor buffered [s d] r w' Hw; simpl.
  { intros [= <- <-]. split_and!; [done..|]. eexists. split; [done|]. exists "", []. split_and!; [left|constructor|done]. }
  unfold try, up. destruct (QueryByWorkspace wsID _ cursor limit s) as [q s1] eqn:Eq.
  pose proof (QueryByWorkspace_frame (fun s => (mailbox s, blocklist s)) wsID (parseEmailFilters c) cursor limit ltac:(done) s) as Hf.
  rewrite Eq in Hf. simpl in Hf.
  destruct q as [ [emails next]|e].
  2: { intros [= <- <-]. split_and!; [done..|]. eexists. split; [done|]. exists "", []. split_and!; [left|constructor|done]. }
  apply queried in Eq; [|done..]. case_bool_decide.
  { intros [= <- <-]. split_and!; [done..|]. eexists. split; [done|]. exists buffered, emails. split_and!; [set_solver|done..]. }
  unfold bind. destruct (export_pages _ n _ _ _ _ _ _) as [q w2] eqn:Er.
  apply IH in Er as (Hm & Hd & out & -> & header & more & Hh & Hmore & Eo); [|destruct Hw; split; simpl in *; congruence].
  intros [= <- <-].
  simpl in *. split_and!; [congruence|done|]. eexists. split; [done|]. exists buffered, (emails ++ more). simpl.
  split_and!; [set_solver|by apply Forall_app|].
  assert (header = "") as -> by (repeat (apply elem_of_cons in Hh as [->|Hh]; [done|]); set_solver).
  rewrite Eo. simpl. rewrite fmap_app. unfold csv_records. rewrite foldr_app, app_assoc_s. f_equal.
  generalize (foldr (fun r s => csv_record r +:+ s) "" (export_record <$> more)). intros rest.
  induction (export_record <$> emails) as [|x l IHl]; simpl; [done|]. by rewrite <- IHl, app_assoc_s.
Qed.

Lemma send_posts {A} (m : M Sys A) s (d : Dir) c :
  wsID <> uuid_Nil -> blocklist s = blocklist w0 -> (no_blank_rows s -> posting mailbox (sendable types s wsID) m s) ->
  Serves (up (up m)) ((s, d), c).
Proof.
  intros Hn Hb Hp. apply serves_up. unfold up, plane_view. simpl. destruct (m s) as [r s'] eqn:E. simpl.
  specialize (Hp (blocklist_blank _ _ Hb no_blank)). unfold posting in Hp. rewrite E in Hp. simpl in Hp.
  split_and!; simpl; [done| |done]. induction Hp as [|a b c' Hab _ IH]; [done|]. eapply rtc_l; [|exact IH].
  eapply post_weaken; [|exact Hab]. intros e. by apply sendable_blocklist.
Qed.

Lemma send_error_serves e x : Serves (mapSendError e) x.
Proof. unfold mapSendError. repeat case_match; apply serves_error; first [apply _|constructor]. Qed.

Lemma Send_serves x : reaches x -> Serves (Handler_Send (sendHandler service batchMaxItems)) x.
Proof.
  destruct x as [ [s d] c]. intros [ [Hw Hc] Hk]. simpl in *. unfold Handler_Send.
  apply serves_bind; [apply _|apply serves_conn, _|]. intros c1 x1 [= <- <-]. rewrite Hk.
  case_bool_decide; [apply serves_error; [apply _|constructor]|].
  destruct (Bind c) as [req|e] eqn:Ebind; [|apply serves_error; [apply _|constructor] ].
  destruct (negb _); [apply serves_error; [apply _|constructor]|].
  apply serves_try; [apply _|apply send_posts; [done|apply Hw|intros; by apply (Send_posting service types (send_request wsID c req))]|].
  intros [resp|e] x1 E; [|apply send_error_serves]. apply serves_write; [apply _|].
  unfold up in E. simpl in E. destruct (Send service _ s) as [r s'] eqn:Es. injection E as -> _.
  by eapply about_send.
Qed.

Lemma SendBatch_serves x : reaches x -> Serves (Handler_SendBatch (sendHandler service batchMaxItems)) x.
Proof.
  destruct x as [ [s d] c]. intros [ [Hw Hc] Hk]. simpl in *. unfold Handler_SendBatch.
  apply serves_bind; [apply _|apply serves_conn, _|]. intros c1 x1 [= <- <-]. rewrite Hk.
  case_bool_decide; [apply serves_error; [apply _|constructor]|].
  destruct (Bind c) as [req|e] eqn:Ebind; [|apply serves_error; [apply _|constructor] ].
  destruct (negb _); [apply serves_error; [apply _|constructor]|].
  apply serves_try; [apply _|apply send_posts; [done|apply Hw|intros; by apply (SendBatch_posting service types (batch_request wsID c req))]|].
  intros [resp|e] x1 E; [|apply send_error_serves]. apply serves_write; [apply _|].
  unfold up in E. simpl in E. destruct (SendBatch service _ s) as [r s'] eqn:Es. injection E as -> _.
  by eapply about_batch.
Qed.

(** The reading handlers: the workspace they go on with is [wsID]. *)
Lemma reading_serves (k : uuid -> HandlerFunc Plane) x :
  reaches x -> (forall x', ready x' -> Serves (k wsID) x') ->
  Serves (let! id := workspaceIDFromContext in k id) x.
Proof.
  destruct x as [ [s d] c]. intros [Hr Hk] Hs. simpl in *. unfold workspaceIDFromContext.
  apply serves_bind; [apply _| |].
  - apply serves_bind; [apply _|apply serves_conn, _|]. intros c1 x1 [= <- <-]. rewrite Hk.
    case_bool_decide; [|apply serves_ret, _].
    apply serves_bind; [apply _|apply serves_error; [apply _|constructor]|intros; apply serves_ret, _].
  - intros id x'. unfold bind at 1, conn, get_state. simpl. rewrite Hk. case_bool_decide as Hn.
    + unfold bind. destruct (no_workspace _) as [r x1] eqn:E. injection E as <- <-. simpl.
      destruct (cn_Broken c); [done|]. intros [= <- <-]. rewrite <- Hn. by apply Hs.
    + intros [= <- <-]. by apply Hs.
Qed.

Lemma Export_serves x : reaches x -> Serves (DataPlane_Export PlaneEmails fuel) x.
Proof.
  intros Hr. apply reading_serves; [done|]. intros x1 Hx1.
  apply serves_bind; [apply _|apply serves_conn, _|]. intros c x2 [= <- <-].
  apply serves_bind; [apply _|apply serves_headers, _|]. intros [] x3 E3. destruct x1 as [w1 c1]. injection E3 as <-.
  destruct Hx1 as [Hw Hc]. simpl in Hw, Hc.
  match goal with |- context [export_pages ?st ?n ?ws ?f ?l ?cur ?b] => set (limit := l) in *; set (m := export_pages st n ws f limit cur b) end.
  destruct (m w1) as [r w'] eqn:Ee.
  pose proof (export_rows _ _ _ _ _ _ _ _ Hw Hc Ee) as (E1 & E2 & out & -> & header & emails & Hh & Hf & Eo).
  apply serves_bind; [apply _| |].
  { apply serves_up. cbn [fst]. rewrite Ee. cbn [snd]. unfold plane_view. by rewrite E1, E2. }
  intros out' x4 E. unfold up in E. rewrite Ee in E. injection E as <- <-. rewrite Eo.
  apply serves_bind; [apply _|apply serves_write; [apply _|by apply about_export]|]. intros [] x5 _.
  destruct out.2; [apply serves_fail, _|apply serves_ret, _].
Qed.

Lemma routes_serve : Forall (fun route => forall x, reaches x -> Serves route.2 x) (data_plane_routes service batchMaxItems fuel).
Proof.
  unfold data_plane_routes.
  repeat (apply Forall_cons; split); [..|apply Forall_nil; done]; simpl; intros x Hx.
  - by apply Send_serves.
  - by apply SendBatch_serves.
  - apply reading_serves; [done|]. apply list_serves.
  - by apply Export_serves.
  - apply reading_serves; [done|]. intros; apply show_serves; [done|]. apply about_email.
  - apply reading_serves; [done|]. intros; apply show_serves; [done|]. apply about_events.
Qed.
End Handlers.

(** What the middleware lets through, for the workspace of the request's key or
    for none. *)
Section Whole.
Context `{GoStd} `{Codec} `{Sha256} `{Parsers} `{TimeParser} `{Binder request.SendEmailRequest} `{Binder request.SendBatchRequest}.
Context (ilike : string -> string -> bool) (verifier : string -> M Plane OIDCClaims) (pepper : string).
Context (service : SendService Sys) (batchMaxItems : Z) (fuel : nat) `{!Wired service}.
Context (types : uuid -> string -> TemplateType) `{!StableTypes service types}.
Hypothesis verifier_frame : forall token, preserves plane_view (verifier token).

Definition of_key (c : Conn) (t : Tables) (wsID : uuid) : Prop :=
  wsID = uuid_Nil \/ exists k, holds_key pepper c t k /\ key_WorkspaceID k = wsID.

Lemma authed_reaches (w w1 : Plane) c c1 :
  plane_view w1 = plane_view w -> authed verifier pepper c (db_tables w.2) c1 ->
  exists wsID, of_key c (db_tables w.2) wsID /\ reaches w.1 c wsID (w1, c1) /\ cn_Replies c1 = cn_Replies c.
Proof.
  intros Ew [((Hpa & Hqu & Hr) & _ & k & Hk & Ev)|(((Hpa & Hqu & Hr & Ev) & _) & _)].
  all: assert (Eb : ready w.1 c (w1, c1)) by (unfold plane_view in Ew; by repeat split; simpl; congruence).
  - exists (key_WorkspaceID k). split; [right; by exists k|]. split; [|done]. split; [done|].
    unfold key_workspace. simpl. by rewrite Ev.
  - exists uuid_Nil. split; [by left|]. split; [|done]. split; [done|]. unfold key_workspace. simpl. by rewrite Ev.
Qed.

Lemma data_plane_serves route (w : Plane) c :
  no_blank_rows w.1 -> cn_Values c = no_values -> route ∈ data_plane_routes service batchMaxItems fuel ->
  exists wsID, of_key c (db_tables w.2) wsID /\
    serves plane_view (posts_for types w.1 wsID) (about service w.1 c wsID) (data_plane verifier pepper route.2) (w, c).
Proof.
  intros Hb Hv Hin. unfold data_plane.
  assert (Hid : preserves plane_view (up (S:=Dir) (NewV7 sys_runtime))).
  { by intros [s d]. }
  pose proof (data_plane_gate (view := plane_directory ilike (fun s => (mailbox s, blocklist s))) plane_view (@snd _ Tables)
    (PlaneTenants ilike) (PlaneWorkspaces ilike) PlaneKeys PlaneMembers verifier pepper verifier_frame _ c Hid route.2 w c) as Hg.
  set (h := RequestID _ _) in *. destruct (h (w, c)) as [r x'] eqn:E.
  assert (exists wsID, of_key c (db_tables w.2) wsID /\
    serves plane_view (posts_for types w.1 wsID) (about service w.1 c wsID) h (w, c)) as (wsID & Hk & Hs).
  2: { exists wsID. split; [done|]. apply serves_serve; [apply _|intros; constructor|done]. }
  unfold serves, relates_at. rewrite E.
  destruct (Hg r x' (conj eq_refl Hv) E) as [ [Eu (l & El & Hl)]|(w1 & c1 & Ew & Ha & En)].
  - exists uuid_Nil. split; [by left|]. unfold serving, seen. simpl. rewrite Eu. split; [by split|].
    exists l. split; [done|]. eapply Forall_impl; [exact Hl|]. intros rp. unfold is_error.
    destruct (rp_Body rp); try done. intros _. constructor.
  - destruct (authed_reaches w w1 c c1 Ew Ha) as (wsID & Hk & Hr & Ec). exists wsID. split; [done|].
    pose proof (routes_serve service batchMaxItems fuel types w.1 c wsID Hb) as Hall.
    rewrite Forall_forall in Hall. specialize (Hall _ Hin _ Hr).
    replace (seen plane_view (w, c)) with (seen plane_view (w1, c1)) by (unfold seen; simpl; congruence).
    change (serving (posts_for types w.1 wsID) (about service w.1 c wsID)
      (seen plane_view (w1, c1)) (seen plane_view (route.2 (w1, c1)).2)) in Hall.
    by replace (route.2 (w1, c1)) with (r, x') in Hall.
Qed.
End Whole.

(** C17: whatever fails, a request to any data-plane route - through request
    identification, scope and authentication - changes the tables only by
    posting emails of one workspace that its blocklists allow, and is answered
    only errors, the response of a send it asks for in that workspace, and mail
    of that workspace as the tables held it: listed and exported emails are rows
    of the workspace that match the request's filters, a shown email is the row
    of the workspace with the tracking id of the path, and shown events are all
    the events of such a row. The workspace is that of a live key whose token the
    request carries; a member's token, or no valid one, sends nothing and can
    be shown rows of the nil workspace only, which no email has. *)
Theorem data_plane_confined `{GoStd} `{Codec} `{Sha256} `{Parsers} `{TimeParser} `{Binder request.SendEmailRequest}
    `{Binder request.SendBatchRequest} (ilike : string -> string -> bool) (verifier : string -> M Plane OIDCClaims) pepper
    service batchMaxItems fuel types route w c :
  Wired service -> StableTypes service types -> (forall token, preserves plane_view (verifier token)) ->
  no_blank_rows w.1 -> cn_Values c = no_values -> cn_Replies c = [] ->
  route ∈ data_plane_routes service batchMaxItems fuel ->
  let x' := (data_plane verifier pepper route.2 (w, c)).2 in
  exists wsID, (wsID = uuid_Nil \/ exists k, holds_key pepper c (db_tables w.2) k /\ key_WorkspaceID k = wsID) /\
    rtc (post (sendable types w.1 wsID)) (mailbox w.1) (mailbox x'.1.1) /\
    (wsID = uuid_Nil -> mailbox x'.1.1 = mailbox w.1) /\ db_tables x'.1.2 = db_tables w.2 /\
    Forall (fun rp => about service w.1 c wsID (rp_Body rp)) (cn_Replies x'.2).
Proof.
  intros Hw Ht Hv Hb Hval Hrep Hin x'.
  destruct (data_plane_serves ilike verifier pepper service batchMaxItems fuel types Hv route w c Hb Hval Hin)
    as (wsID & Hk & (Hnil & Hpost & Eu) & l & El & Hl).
  unfold seen in *. simpl in *. rewrite Hrep in El. simpl in El. subst x' l.
  exists wsID. split_and!; [done|done|by intros ->; symmetry; apply Hnil|by symmetry|done].
Qed.
