(* ===== verification/EmailExport.v ===== *)
(** * The export of a workspace's emails

    The CSV the data plane streams - pages of a query, through a pipe - is every
    matching email of the workspace, newest first, and a reader of CSV gets
    back the fields the writer was given. *)
From stdpp Require Import base gmap strings list sorting.
From Stdlib Require Import ZArith NArith Ascii String Lia.
From S2P Require Import Prelude GoMonad Domain Ports Token Config Http Suppression Postgres Database Directory.
From S2P Require Import Auth Members SNS MailQueries RuntimeHandlers DataPlane.

(** ** A reader of CSV (RFC 4180, lines ended by a line feed) *)

Inductive CSVMode := FieldStart | Plain | Quoted | QuoteInQuoted.

Definition is_quote (c : ascii) : bool := (nat_of_ascii c =? 34)%nat.
Definition is_comma (c : ascii) : bool := Ascii.eqb c ",".
Definition is_newline (c : ascii) : bool := (nat_of_ascii c =? 10)%nat.

(** The records of the text, if it is well formed: [field] and [record] are what
    was read of the current field and record. *)
Fixpoint csv_read (m : CSVMode) (field : string) (record : list string) (s : string) : option (list (list string)) :=
  match s with
  | EmptyString => match m, record with FieldStart, [] => Some [] | _, _ => None end
  | String c s =>
      let ends := if is_comma c then csv_read FieldStart "" (record ++ [field]) s
                  else if is_newline c then cons (record ++ [field]) <$> csv_read FieldStart "" [] s
                  else None in
      match m with
      | FieldStart => if is_quote c then csv_read Quoted "" record s
                      else if csv_special c then ends else csv_read Plain (field +:+ String c "") record s
      | Plain => if csv_special c then ends else csv_read Plain (field +:+ String c "") record s
      | Quoted => if is_quote c then csv_read QuoteInQuoted field record s
                  else csv_read Quoted (field +:+ String c "") record s
      | QuoteInQuoted => if is_quote c then csv_read Quoted (field +:+ String c "") record s else ends
      end
  end.
Definition csv_parse (s : string) : option (list (list string)) := csv_read FieldStart "" [] s.

Section RoundTrip.
Lemma read_quoted f r s t : csv_read Quoted f r (double_quotes s +:+ dquote +:+ t) = csv_read QuoteInQuoted (f +:+ s) r t.
Proof.
  revert f. induction s as [|c s IH]; intros f.
  { change (dquote +:+ t) with (String (ascii_of_nat 34) t). simpl. by rewrite app_nil_r_s. }
  assert (E : double_quotes (String c s) = if is_quote c then String c (String c (double_quotes s)) else String c (double_quotes s)) by done.
  rewrite E. destruct (is_quote c) eqn:Ec; cbn [csv_read append]; rewrite Ec; rewrite IH; by rewrite app_assoc_s.
Qed.

Lemma read_plain f r s t : sall (fun c => negb (csv_special c)) s = true ->
  csv_read Plain f r (s +:+ t) = csv_read Plain (f +:+ s) r t.
Proof.
  revert f. induction s as [|c s IH]; intros f; simpl; [by rewrite app_nil_r_s|].
  intros [Hc Hs]%andb_true_iff. apply negb_true_iff in Hc. rewrite Hc, IH by done. f_equal. by rewrite app_assoc_s.
Qed.

(** A field, and the comma or line feed after it. *)
Lemma read_field r s c t : is_comma c || is_newline c = true ->
  csv_read FieldStart "" r (csv_field s +:+ String c t)
  = if is_comma c then csv_read FieldStart "" (r ++ [s]) t else cons (r ++ [s]) <$> csv_read FieldStart "" [] t.
Proof.
  intros Hc. assert (Hsp : csv_special c = true /\ is_quote c = false).
  { unfold csv_special, is_quote, is_comma, is_newline in *. apply orb_true_iff in Hc as [Hc|Hc].
    - apply Ascii.eqb_eq in Hc as ->. by split.
    - apply Nat.eqb_eq in Hc as ->. by split. }
  destruct Hsp as [Hsp Hq]. unfold csv_field. destruct (fieldNeedsQuotes s) eqn:En.
  - rewrite !app_assoc_s. change (dquote +:+ ?x) with (String (ascii_of_nat 34) x). cbn [csv_read].
    change (is_quote (ascii_of_nat 34)) with true. cbv iota. rewrite read_quoted. simpl. rewrite Hq.
    destruct (is_comma c); [done|]. simpl in Hc. by rewrite Hc.
  - assert (Hs : sall (fun c => negb (csv_special c)) s = true).
    { unfold fieldNeedsQuotes in En. destruct (bool_decide (s = "")) eqn:Es; [by apply bool_decide_eq_true in Es as ->|].
      destruct (bool_decide (s = "\.")); [done|]. by destruct (sall _ s). }
    destruct s as [|a s].
    + simpl. rewrite Hq, Hsp. destruct (is_comma c); [done|]. simpl in Hc. by rewrite Hc.
    + simpl in Hs. apply andb_true_iff in Hs as [Ha Hs]. apply negb_true_iff in Ha. simpl.
      assert (is_quote a = false) as ->.
      { unfold csv_special, is_quote in *. apply bool_decide_eq_false in Ha. apply Nat.eqb_neq. set_solver. }
      rewrite Ha, read_plain by done. simpl. rewrite Hsp. destruct (is_comma c); [done|]. simpl in Hc. by rewrite Hc.
Qed.

Lemma read_record r record t : record <> [] ->
  csv_read FieldStart "" r (csv_record record +:+ t) = cons (r ++ record) <$> csv_parse t.
Proof.
  intros Hn. revert r. induction record as [|s record IH]; intros r; [done|].
  destruct record as [|s' record].
  - assert (E : csv_record [s] +:+ t = csv_field s +:+ String (ascii_of_nat 10) t).
    { change (csv_record [s]) with (csv_field s +:+ String (ascii_of_nat 10) ""). by rewrite app_assoc_s. }
    by rewrite E, read_field.
  - assert (E : csv_record (s :: s' :: record) +:+ t = csv_field s +:+ String "," (csv_record (s' :: record) +:+ t)).
    { unfold csv_record. simpl. by rewrite !app_assoc_s. }
    rewrite E, read_field by done. simpl. rewrite IH by done. by rewrite <- app_assoc.
Qed.

(** What the writer wrote is read back. *)
Lemma csv_roundtrip records : Forall (fun r => r <> []) records -> csv_parse (csv_records records) = Some records.
Proof.
  induction 1 as [|r records Hr _ IH]; [done|]. unfold csv_parse in *. simpl. rewrite read_record by done.
  unfold csv_parse. by rewrite IH.
Qed.
End RoundTrip.

(** ** All of the workspace's emails *)

Section Pages.
Context `{GoStd} `{Codec} `{!CodecLaws} `{Parsers} `{TimeParser}.

Lemma csv_records_app l k : csv_records (l ++ k) = csv_records l +:+ csv_records k.
Proof. unfold csv_records. induction l as [|r l IH]; [done|]. simpl. by rewrite IH, app_assoc_s. Qed.

(** From any row on, the pages are what is left of the query. *)
Lemma export_rest (filters : EmailFilters) wsID limit s (d : Dir) :
  sys_faults s = [] -> mail_ok s -> optionally (fun x => bool_decide (x ∈ email_status_labels)) (ef_Status filters) = true ->
  forall fuel from buffered, from_option stamped True from ->
  let left := emails_after (email_matches wsID filters) from s in
  (List.length left < fuel)%nat ->
  export_pages PlaneEmails fuel wsID filters limit
    (from_option (fun x => EncodeTimeCursor (em_CreatedAt x) (em_ID x)) "" from) buffered (s, d)
  = (Ok (buffered +:+ csv_records (export_record <$> left), None), (s, d)).
Proof.
  intros Hf Hok Hst. induction fuel as [|fuel IH]; intros from buffered Hfrom left Hlen; [lia|].
  simpl. unfold try, up, QueryByWorkspace. rewrite Hst.
  destruct (query_page (email_matches wsID filters) limit from s Hf Hok Hfrom) as [->|(l1 & x & l2 & El & Hx & Ex & ->)].
  - by rewrite bool_decide_eq_true_2.
  - rewrite bool_decide_eq_false_2 by by apply time_cursor_nonempty.
    unfold bind. fold left in El. specialize (IH (Some x) "" Hx). simpl in IH.
    fold (emails_after (email_matches wsID filters) (Some x) s) in IH. rewrite Ex in IH.
    rewrite IH by (rewrite El, length_app in Hlen; simpl in Hlen; lia).
    unfold ret. simpl. rewrite El.
    replace (l1 ++ x :: l2) with ((l1 ++ [x]) ++ l2) by by rewrite <- app_assoc.
    by rewrite (fmap_app _ (l1 ++ [x])), csv_records_app, app_assoc_s.
Qed.

(** C24: an export whose queries all succeed streams one well-formed CSV text,
    from which a reader gets the header and, field by field whatever they hold,
    every email of the workspace that the filters match, once, newest first; it
    asks for one page more than there are emails at most. *)
Theorem Export_complete fuel wsID s d c :
  sys_faults s = [] -> mail_ok s -> key_workspace c = Some wsID -> cn_Broken c = None -> QueryParam "cursor" c = "" ->
  optionally (fun x => bool_decide (x ∈ email_status_labels)) (ef_Status (parseEmailFilters c)) = true ->
  let emails := emails_after (email_matches wsID (parseEmailFilters c)) None s in
  (List.length emails < fuel)%nat ->
  exists text c',
    DataPlane_Export PlaneEmails fuel ((s, d), c) = (Ok tt, ((s, d), c')) /\
    cn_Replies c' = cn_Replies c ++ [mkReply 200 (BodyBlob "text/csv; charset=utf-8" text)] /\
    csv_parse text = Some (export_header :: (export_record <$> emails)).
Proof.
  intros Hf Hok Hk Hb Hc Hst emails Hlen.
  unfold DataPlane_Export, workspaceIDFromContext, bind, conn, get_state. simpl. rewrite Hk. unfold ret. simpl.
  rewrite Hc. set (limit := if (_ <? 1)%Z then _ else _).
  pose proof (export_rest (parseEmailFilters c) wsID limit s d Hf Hok Hst fuel None (csv_record export_header) I Hlen) as E.
  simpl in E. rewrite E. eexists _, _. simpl. rewrite Hb. split; [done|]. split; [done|].
  change (csv_record export_header +:+ ?t) with (csv_record export_header +:+ t).
  assert (Hr : csv_parse (csv_records (export_header :: (export_record <$> emails))) = Some (export_header :: (export_record <$> emails))).
  { apply csv_roundtrip. constructor; [done|]. apply Forall_fmap, Forall_forall. done. }
  exact Hr.
Qed.
End Pages.
