(* ===== verification/SendRuns.v ===== *)
(** * Sends on the database

    The send service wired to the resolvers, the cache and the PostgreSQL
    repositories, and concrete runs of the theorems about it. *)
From stdpp Require Import base gmap strings list.
From Stdlib Require Import ZArith String Lia.
From S2P Require Import Prelude GoMonad Domain Ports Token Suppression Postgres Cache Resolution Injectors.
From S2P Require Import Render Access Outbox Send SendSafety BatchSafety.

(** Values that are never cached. *)
#[local] Instance no_chain_json : JSON ResolutionChain := {|
  Marshal := fun _ => Err (EMsg "json: unsupported value");
  Unmarshal := fun _ => Err (EMsg "unexpected end of JSON input") |}.
#[local] Instance no_template_json : JSON ResolvedTemplate := {|
  Marshal := fun _ => Err (EMsg "json: unsupported value");
  Unmarshal := fun _ => Err (EMsg "unexpected end of JSON input") |}.
#[local] Instance no_adapter_json : JSON Adapter := {|
  Marshal := fun _ => Err (EMsg "json: unsupported value");
  Unmarshal := fun _ => Err (EMsg "unexpected end of JSON input") |}.
#[local] Instance no_fields_json : JSON fields_map := {|
  Marshal := fun _ => Err (EMsg "json: unsupported value");
  Unmarshal := fun _ => Err (EMsg "unexpected end of JSON input") |}.

Section Wiring.
Context `{GoStd}.

Definition send_type : TemplateType :=
  {| tt_ID := 20; tt_WorkspaceID := Some 8%N; tt_Slug := "welcome"; tt_Name := "Welcome"; tt_Description := None;
     tt_AdapterID := Some 9%N; tt_SenderIdentityID := None; tt_VariableSchema := None; tt_TestRecipientMode := None;
     tt_TestRecipientAddresses := []; tt_OwnerScope := ""; tt_InheritedFromSystem := false; tt_IsBulk := false;
     tt_CreatedAt := 0; tt_UpdatedAt := 0; tt_DeletedAt := None |}.

Definition send_tpl_store : TemplateStore.t Sys := {|
  TemplateStore.GetTypeBySlug slug _ :=
    if bool_decide (slug = "welcome") then ret send_type else fail (ESent ErrNotFound);
  TemplateStore.ResolveTemplate _ _ := ret sample_template;
  TemplateStore.GetPublishedVersion _ := ret sample_version;
  TemplateStore.GetLocale _ l :=
    if bool_decide (l = "es") then ret sample_localization else fail (ESent ErrNotFound);
|}.

Definition send_identity : AdapterIdentity :=
  {| id_ID := 60; id_AdapterID := 9; id_Identity := "no-reply@acme.io"; id_IdentityType := IdentityTypeEmail;
     id_Status := IdentityStatusVerified; id_SendingEnabled := true; id_IsDefault := true;
     id_DisplayName := None; id_Source := IdentitySourceProvider; id_LastSyncedAt := None;
     id_GrantedWorkspaceCount := 0; id_CreatedAt := 0; id_UpdatedAt := 0 |}.

Definition send_merger : InjectorMerger Sys := {|
  im_store := {| ListDefinitionsInChain := fun _ => ret []; GetAllFieldsByDefinitions := fun _ => ret ∅;
                 GetAllValuesByDefinitions := fun _ _ => ret ∅ |};
  im_chain := ChainResolver_Resolve PGCache sample_ws_store;
  im_cache := Some PGCache;
  im_codeInjectors := [];
  im_codeInitFunc := None;
  im_order := elements;
  im_rt := sys_runtime;
|}.

(** [ResolveWithContext]; the walk over the code injectors is never cut short
    (see [code_injectors_run]). *)
Definition resolve_injectors_of (m : InjectorMerger Sys) (ws : uuid) (ctx : InjectorContext) : M Sys MergedInjectors :=
  let! r := ResolveWithContext (fun _ => None) m ws ctx in
  match r with Some (values, _) => ret values | None => fail (EMsg "unreachable") end.

Definition pg_send : SendService Sys := {|
  templateResolver := TemplateResolver_Resolve PGCache sample_ws_store send_tpl_store;
  injectorMerger := resolve_injectors_of send_merger;
  adapterResolver := ResolveForTemplateType PGCache (fun id => ret (sample_adapter_row id (Some 7%N) AdapterTypeSES));
  accessService := None;
  identityStore := {| GetIdentityByID _ := ret send_identity; GetDefaultIdentity _ := ret send_identity;
                      ListIdentitiesByAdapter _ := ret [send_identity] |};
  writer := pg_writer (Some pg_pool);
  suppression := SuppressionBatchRepo;
  templateTypeSubscriptionStore := Some SubscriptionRepo;
  tenantStore code := ret {| ten_ID := 3; ten_Code := code; ten_Name := "Acme"; ten_IsActive := true;
                             ten_CreatedAt := 0; ten_UpdatedAt := 0; ten_DeletedAt := None |};
  wsStore := sample_ws_store;
  rt := sys_runtime;
  rand_Read := ret None;
|}.

(** A view that the cache, the clock, the ids and the faults do not touch. *)
Class Aside {V} (v : Sys -> V) : Prop := {
  aside_cache f s : v (set_cache f s) = v s;
  aside_clock f s : v (set_clock f s) = v s;
  aside_ids f s : v (set_ids f s) = v s;
  aside_faults f s : v (set_faults f s) = v s;
}.

#[export] Instance mailbox_aside : Aside mailbox.
Proof. by split. Qed.
#[export] Instance blocklist_aside : Aside blocklist.
Proof. by split. Qed.

Section Aside.
Context {V} (v : Sys -> V) `{!Aside v}.

Lemma aside_stmt {A} wrap (f : Sys -> Res A * Sys) :
  (forall s, v (f s).2 = v s) -> preserves v (stmt wrap f).
Proof. apply stmt_frame. intros fs s. apply aside_faults. Qed.

Lemma cache_get_aside key : preserves v (cache_Get PGCache key).
Proof. by apply aside_stmt. Qed.
Lemma cache_set_aside key value ttl : preserves v (cache_Set PGCache key value ttl).
Proof. apply aside_stmt. intros s. apply aside_cache. Qed.
#[local] Hint Resolve cache_get_aside cache_set_aside : senda.

Lemma read_through_aside {A} `{JSON A} key ttl (load : M Sys A) :
  preserves v load -> preserves v (read_through PGCache key ttl load).
Proof. intros Hl. unfold read_through, cache_read, cache_write. preserves_tac. Qed.

Lemma chain_aside ws : preserves v (ChainResolver_Resolve PGCache sample_ws_store ws).
Proof.
  unfold ChainResolver_Resolve. apply read_through_aside. unfold load_chain.
  preserves_tac; simpl; try (by intros w); by destruct (bool_decide _).
Qed.
#[local] Hint Resolve chain_aside : senda.

#[export] Instance pg_send_reads : SendReads pg_send v.
Proof.
  split; simpl; try (intros; by intros w).
  - intros ws slug loc. unfold TemplateResolver_Resolve. apply read_through_aside.
    unfold load_template, load_template_from, resolve_locale. preserves_tac; simpl;
      repeat (case_bool_decide || case_match); preserves_tac.
  - intros ws ctx. unfold resolve_injectors_of, ResolveWithContext, resolve_with, resolveDB, resolveDBForScopes,
      run_init, resolveCodeInjectors. preserves_tac; simpl in *; try done; preserves_tac.
    all: try (by intros w).
  - intros ty. unfold ResolveForTemplateType, cache_read, cache_write. preserves_tac.
  - intros ws l. unfold CheckBatch, GetSuppressionStatuses. preserves_tac. by apply aside_stmt.
  - intros t ws ty l [= <-]. simpl. unfold BatchCheckOptOut. destruct l; [apply preserves_ret|]. by apply aside_stmt.
  - intros id. case_bool_decide; by intros w.
  - intros w. apply aside_ids.
  - intros w. apply aside_clock.
Qed.
End Aside.

#[export] Instance pg_send_wired : Wired pg_send.
Proof. by split; try apply _. Qed.

(** Nothing is cached, so a resolution is a load. *)
Lemma uncached {A} `{J : JSON A} key ttl (load : M Sys A) w a w' :
  (forall d e, Unmarshal (JSON := J) d <> Ok e) ->
  read_through PGCache key ttl load w = (Ok a, w') -> exists w1 w2, load w1 = (Ok a, w2).
Proof.
  intros Hn. unfold read_through, bind. destruct (cache_read _ key w) as [[[hit|]|e] w1] eqn:E; try done.
  - exfalso. revert E. unfold cache_read, try. destruct (cache_Get _ key w) as [[d|] w2]; [|done].
    destruct (Unmarshal d) eqn:Eu; [|done]. by apply Hn in Eu.
  - destruct (load w1) as [[a'|] w2] eqn:El; [|done]. destruct (cache_write _ _ _ _ w2) as [[|] ?]; [|done].
    intros [= <- _]. eauto.
Qed.

#[export] Instance pg_send_types : StableTypes pg_send (fun _ _ => send_type).
Proof.
  split. intros ws slug loc w r w'. simpl. unfold TemplateResolver_Resolve.
  intros (w1 & w2 & E)%uncached; [|done]. revert E. unfold load_template, load_template_from, bind.
  destruct (ChainResolver_Resolve _ _ ws w1) as [[chain|] w3]; [|done]. unfold wrap_err. simpl.
  case_bool_decide as Hs; [|done]. simpl. destruct (resolve_locale _ _ _ _) as [[l|] w4]; [|done].
  unfold ret. by intros [= <- _].
Qed.
End Wiring.

(** ** Runs *)

(** Workspace 7 has a complaint from a@x.io. *)
Definition blocked_sys : Sys :=
  set_workspace <[(7%N, "a@x.io") := sample_workspace_row SuppressionComplaint]> empty_sys.

Definition sample_request (to cc : list string) : SendRequest :=
  {| rq_Ref := "acme:crm:welcome"; rq_To := to; rq_CC := cc; rq_BCC := []; rq_Variables := ∅; rq_Injectors := ∅;
     rq_ExternalID := None; rq_Locale := None; rq_AuthWorkspaceID := 7; rq_Headers := ∅;
     rq_Source := mkSendSource EmailSourceTypeNone None None |}.

Definition sample_item (to : string) : SendBatchItemRequest :=
  {| it_To := to; it_CC := ["A@x.io"; "c@x.io"]; it_BCC := []; it_Variables := ∅; it_Injectors := ∅;
     it_ExternalID := None; it_Locale := Some "es" |}.

Definition sample_batch : SendBatchRequest :=
  {| br_Ref := "acme:crm:welcome"; br_Items := [sample_item "a@x.io"; sample_item "b@x.io"];
     br_AuthWorkspaceID := 7; br_Headers := ∅; br_Source := mkSendSource EmailSourceTypeNone None None |}.

Lemma blocked_sys_blank : no_blank_rows blocked_sys.
Proof.
  intros wsID. unfold suppression_reason, active_global, active_workspace, blocked_sys. simpl.
  rewrite lookup_empty, lookup_insert_ne by congruence. by rewrite lookup_empty.
Qed.

Definition first_request : SendRequest := sample_request ["A@x.io"; "b@x.io"] ["a@x.io"; "c@x.io"].

(** The recipients, copies and statuses of the rows. *)
Definition posted_rows (s : Sys) : list (string * list string * EmailStatus) :=
  (fun e => (em_RecipientEmail e, em_CC e, em_Status e)) <$> (map_to_list (sys_emails s)).*2.

Lemma Send_clear_witness :
  let G := ascii_std in
  let run := Send pg_send first_request blocked_sys in
  posted_rows run.2 = [("A@x.io", ["c@x.io"], StatusSuppressed); ("b@x.io", ["c@x.io"], StatusQueued)] /\
  new_rows (sendable (fun _ _ => send_type) blocked_sys 7) (mailbox blocked_sys) (mailbox run.2).
Proof.
  intros G run. split; [vm_compute; reflexivity|].
  pose proof (Send_clear pg_send (fun _ _ => send_type) first_request blocked_sys) as Ht.
  subst run. destruct (Send pg_send first_request blocked_sys) as [r w'].
  exact (Ht r w' blocked_sys_blank eq_refl).
Defined.

Lemma Send_response_witness :
  let G := ascii_std in
  let run := Send pg_send first_request blocked_sys in
  match run.1 with
  | Ok resp => rs_Status resp = "accepted" /\ (te_Status <$> rs_TrackingIDs resp) = ["suppressed"; "accepted"] /\
               (exists cc bcc, effective_recipients pg_send first_request blocked_sys (te_To <$> rs_TrackingIDs resp) cc bcc) /\
               Forall (accounted (mailbox blocked_sys) (mailbox run.2)) (rs_TrackingIDs resp)
  | Err _ => False
  end.
Proof.
  intros G run.
  assert (Hc : match run.1 with
    | Ok resp => rs_Status resp = "accepted" /\ (te_Status <$> rs_TrackingIDs resp) = ["suppressed"; "accepted"]
    | Err _ => False end) by (vm_compute; split; reflexivity).
  pose proof (Send_response pg_send first_request blocked_sys) as Ht.
  subst run. destruct (Send pg_send first_request blocked_sys) as [ [resp|e] w']; [|exact Hc].
  destruct Hc as [Hs Hl]. split; [exact Hs|]. split; [exact Hl|].
  specialize (Ht resp w' blocked_sys_blank eq_refl). destruct Ht as (Heff & Hacc & _). split; [exact Heff|exact Hacc].
Defined.

Lemma SendBatch_clear_witness :
  let G := ascii_std in
  let run := SendBatch pg_send sample_batch blocked_sys in
  posted_rows run.2 = [("a@x.io", ["c@x.io"], StatusSuppressed); ("b@x.io", ["c@x.io"], StatusQueued)] /\
  new_rows (sendable (fun _ _ => send_type) blocked_sys 7) (mailbox blocked_sys) (mailbox run.2).
Proof.
  intros G run. split; [vm_compute; reflexivity|].
  pose proof (SendBatch_clear pg_send (fun _ _ => send_type) sample_batch blocked_sys) as Ht.
  subst run. destruct (SendBatch pg_send sample_batch blocked_sys) as [r w'].
  exact (Ht r w' blocked_sys_blank eq_refl).
Defined.

Lemma SendBatch_response_witness :
  let G := ascii_std in
  match (SendBatch pg_send sample_batch blocked_sys).1 with
  | Ok resp => bs_Status resp = "accepted" /\ (bs_AcceptedCount resp + bs_SuppressedCount resp + bs_FailedCount resp = 2)%Z
  | Err _ => False
  end.
Proof.
  intros G. pose proof (SendBatch_response pg_send sample_batch blocked_sys) as Ht.
  assert (Hc : match (SendBatch pg_send sample_batch blocked_sys).1 with
    | Ok resp => bs_Status resp = "accepted" | Err _ => False end) by (vm_compute; reflexivity).
  destruct (SendBatch pg_send sample_batch blocked_sys) as [ [resp|e] w']; [|exact Hc].
  destruct (Ht resp w' eq_refl) as (_ & _ & _ & _ & _ & Hn & _). split; [exact Hc|exact Hn].
Defined.

(** A commit whose reply is lost: the recipient is reported as failed, its row
    and its job are there together. *)
Lemma Send_outbox_witness :
  let G := ascii_std in
  let s := set_faults (fun _ => repeat FaultNone 11 ++ [FaultAfter "connection reset"]) blocked_sys in
  let run := Send pg_send (sample_request ["b@x.io"] []) s in
  is_ok run.1 = false /\ List.length (posted_rows run.2) = 1%nat /\ List.length (sys_log run.2) = 1%nat /\
  outbox (mailbox run.2) /\ outbox (mailbox (SendBatch pg_send sample_batch s).2).
Proof.
  intros G s run. do 3 (split; [vm_compute; reflexivity|]). subst run.
  apply (Send_outbox pg_send (fun _ _ => send_type) (sample_request ["b@x.io"] []) sample_batch s).
  - exact blocked_sys_blank.
  - split; [by intros ? ?| by intros ? ? ? | by intros j Hj%not_elem_of_nil |constructor].
Defined.
