(* ===== verification/PlaneRuns.v ===== *)
(** * Runs of the data plane and of the pixel

    Workspace 7 with a key and a member of its tenant: a send, a listing and an
    export with the key, what a member's token gets, and opens of one email. *)
From stdpp Require Import base gmap strings list sorting.
From Stdlib Require Import ZArith NArith Ascii String Lia.
From S2P Require Import Prelude GoMonad Domain Ports Token Config Http Suppression EventProcessor Postgres Database Directory.
From S2P Require Import Auth Members Roles Gates Inheritance TemplateHandlers SNS Resolution Injectors Render Feedback Access Outbox Send SendSafety BatchSafety.
From S2P Require Import MailQueries RuntimeHandlers PublicHandlers DataPlane DataPlaneSafety EmailExport ControlRuns SendRuns.

#[local] Existing Instance run_std.
#[local] Existing Instance run_codec.
#[local] Existing Instance run_sha.
#[local] Existing Instance run_parsers.
#[local] Instance run_times : TimeParser := {| time_Parse := fun _ s => match Atoi s with Some n => Ok n | None => Err (EMsg "time") end |}.
(** A message to the address the body holds. *)
#[local] Instance run_bind_send : Binder request.SendEmailRequest := {|
  Bind := fun c => Ok (request.mkSendEmail "acme:crm:welcome" [cn_RawBody c] [] [] ∅ ∅ None None) |}.
#[local] Instance run_bind_batch : Binder request.SendBatchRequest := {|
  Bind := fun c => Ok (request.mkSendBatch "acme:crm:welcome" [sample_item (cn_RawBody c)]) |}.

Definition plane_key : APIKey := mkAPIKey 50 7 "ci" (HashKeyHMAC run_token "pepper") "senda_test" (suffix 8 run_token) 2 None None 101.
Definition plane_db : Dir := mkDB {|
  tb_tenants := tb_tenants small_tables; tb_workspaces := ∅; tb_signing := ∅; tb_members := tb_members small_tables;
  tb_roles := tb_roles small_tables; tb_keys := {[50%N := plane_key]} |} 100 50 [] [].
Definition plane_world : Plane := (blocked_sys, plane_db).
Definition plane_idp (token : string) : M Plane OIDCClaims := down (idp token).

Lemma plane_idp_frame token : preserves plane_view (plane_idp token).
Proof. intros [s d]. unfold plane_idp, idp, down. by case_bool_decide. Qed.

Definition plane_send : HandlerFunc Plane := data_plane plane_idp "pepper" (Handler_Send (sendHandler pg_send 100)).

(** ** A request with the key, and one with a member's token *)

Lemma plane_send_listed : ("POST", "/send", Handler_Send (sendHandler pg_send 100)) ∈ data_plane_routes pg_send 100 1.
Proof. left. Qed.

Lemma data_plane_confined_witness :
  let x' := (plane_send (plane_world, request "POST" [] run_token "b@x.io")).2 in
  posted_rows x'.1.1 = [("b@x.io", [], StatusQueued)] /\
  exists wsID, (wsID = uuid_Nil \/ exists k, holds_key "pepper" (request "POST" [] run_token "b@x.io") (db_tables plane_world.2) k
                                          /\ key_WorkspaceID k = wsID) /\
    rtc (post (sendable (fun _ _ => send_type) plane_world.1 wsID)) (mailbox plane_world.1) (mailbox x'.1.1) /\
    Forall (fun rp => about pg_send plane_world.1 (request "POST" [] run_token "b@x.io") wsID (rp_Body rp)) (cn_Replies x'.2).
Proof.
  intros x'. split; [vm_compute; reflexivity|].
  destruct (data_plane_confined (fun _ _ => true) plane_idp "pepper" pg_send 100 1 (fun _ _ => send_type)
              ("POST", "/send", Handler_Send (sendHandler pg_send 100)) plane_world (request "POST" [] run_token "b@x.io")
              pg_send_wired pg_send_types plane_idp_frame blocked_sys_blank eq_refl eq_refl plane_send_listed)
    as (wsID & Hk & Hp & _ & _ & Ha).
  exists wsID. split; [exact Hk|]. split; [exact Hp|exact Ha].
Defined.

(** A member's token is refused and answered all the same: the refusal does not
    end the request. *)
Lemma member_listing_answered_twice :
  rp_Status <$> cn_Replies (data_plane plane_idp "pepper" (DataPlane_List PlaneEmails) (plane_world, request "GET" [] "jwt" "")).2.2
  = [401%Z; 200%Z].
Proof. vm_compute. reflexivity. Qed.

(** ** The export *)

(** An email sent at time [id]. *)
Definition exported (id ws : uuid) (subject : string) : Email :=
  mkEmail id ("trk_" +:+ Itoa (Z.of_N id)) None ws 3 11 12 "welcome" "acme:main:welcome" "user@x.io" [] []
    "no-reply@acme.io" "Acme" None subject None StatusSent 9 None None ∅ ∅ EmailSourceTypeDataPlaneAPIKey None None ""
    0 true 5 None (Z.of_N id) 0.

(** Subjects that need quotes, and an email of another workspace. *)
Definition awkward : string := "Hi, " +:+ dquote +:+ "you" +:+ dquote +:+ bytes [13; 10] +:+ "bye".
Definition export_sys : Sys :=
  set_emails (fun _ => {[41%N := exported 41 7 awkward; 42%N := exported 42 8 "secret"; 43%N := exported 43 7 "last"]}) empty_sys.
Definition export_conn : Conn :=
  set_values (fun v => mkValues "" "apikey" None None (Some 7%N) None "" "" None None None None false "" ∅)
    (mkConn "GET" "" [] ∅ {["limit" := ["1"]]} "" no_values [] [] None true []).

Lemma export_mail_ok : mail_ok export_sys.
Proof.
  intros id e. unfold export_sys. simpl. rewrite !lookup_insert_Some, lookup_singleton_Some.
  intros [ [<- <-]|[_ [ [<- <-]|[_ [<- <-] ] ] ] ]; by split_and!.
Qed.

Lemma Export_complete_witness :
  exists text c', DataPlane_Export PlaneEmails 3 ((export_sys, plane_db), export_conn) = (Ok tt, ((export_sys, plane_db), c')) /\
    csv_parse text = Some [export_header; export_record (exported 43 7 "last"); export_record (exported 41 7 awkward)] /\
    cn_Replies c' = [mkReply 200 (BodyBlob "text/csv; charset=utf-8" text)].
Proof.
  pose proof (Export_complete (H1 := sample_codec_laws) 3 7 export_sys plane_db export_conn eq_refl export_mail_ok) as Ht.
  assert (E : emails_after (email_matches 7 (parseEmailFilters export_conn)) None export_sys
              = [exported 43 7 "last"; exported 41 7 awkward]) by (vm_compute; reflexivity).
  rewrite E in Ht. destruct Ht as (text & c' & Hrun & Hr & Hp); [vm_compute; reflexivity..|simpl; lia|].
  exists text, c'. split; [exact Hrun|]. split; [exact Hp|exact Hr].
Defined.

(** ** Opens *)

(** Twenty seconds pass between readings of the clock. *)
Definition slow_clock : Runtime Sys := {|
  rt_NewV7 := rt_NewV7 sys_runtime;
  rt_Now := fun s => (sys_clock s, set_clock (fun t => (t + 20 * Second)%Z) s);
|}.
Definition pixel : TrackingHandler Sys := mkTrackingHandler _ GetByTrackingID pg_processor slow_clock.
Definition open_request : Conn := mkConn "GET" "" [("tracking_id", "trk_1")] ∅ ∅ "" no_values [] [] None true [].

Lemma opens_deduplicated_witness :
  let run := visit pixel [open_request; open_request; open_request] (empty_sys, no_opens) in
  ro_inFlight run.2.2 = ["trk_1"; "trk_1"] /\
  counted_opens run.1 = [("trk_1", 40000001000%Z); ("trk_1", 1000%Z)] /\ (dedupTTL <= 40000001000 - 1000)%Z.
Proof.
  intros run.
  assert (E : run.1 = [("trk_1", 40000001000%Z); ("trk_1", 20000001000%Z); ("trk_1", 1000%Z)]) by (vm_compute; reflexivity).
  assert (Hc : counted_opens run.1 = [("trk_1", 40000001000%Z); ("trk_1", 1000%Z)]) by (vm_compute; reflexivity).
  pose proof (opens_deduplicated pixel [open_request; open_request; open_request] empty_sys) as Ht.
  fold run in Ht. clearbody run. destruct run as [opens x]. simpl in E, Hc. subst opens.
  destruct Ht as (Hf & Hsp & _).
  - repeat constructor; discriminate.
  - repeat constructor; simpl; lia.
  - split; [simpl; by rewrite Hf, Hc|]. split; [exact Hc|]. by apply (Hsp [] "trk_1" 40000001000%Z [] 1000%Z []).
Defined.
