(* ===== verification/Platform.v ===== *)
(** * The platform as a whole

    The operations that touch emails - sends, batches, the worker, provider
    events and the tracking pixel - in any order over one database, refining an
    abstract life cycle of emails. *)
From stdpp Require Import base gmap strings list.
From Stdlib Require Import ZArith String Lia.
From S2P Require Import Prelude GoMonad Domain Ports Token Suppression EventProcessor Postgres Feedback.
From S2P Require Import SendWorker WorkerRuns Outbox Send SendSafety BatchSafety SendRuns.

(** ** The specification *)

(** An email is created queued or suppressed, under an id that is new, and then
    only moves along its life. *)
Inductive lifecycle (t t' : gmap uuid EmailStatus) : Prop :=
| lc_create id status :
    t !! id = None -> status = StatusQueued \/ status = StatusSuppressed ->
    t' = <[id := status]> t -> lifecycle t t'
| lc_move : table_step life t t' -> lifecycle t t'.

(** What the abstract machine says of one email. *)
Lemma lifecycle_email t t' id st :
  rtc lifecycle t t' -> t !! id = Some st -> exists st', t' !! id = Some st' /\ rtc life st st'.
Proof.
  intros Hr. revert st. induction Hr as [t|t t1 t2 Hs _ IH]; intros st Hl; [by exists st|].
  destruct Hs as [id' status Hn _ ->|[id' x y Hx He ->] ].
  - apply IH. rewrite lookup_insert_ne; [done|congruence].
  - destruct (decide (id' = id)) as [->|Hne]; [|apply IH; by rewrite lookup_insert_ne].
    simplify_eq. destruct (IH y) as (st' & Hl' & Hr'); [by rewrite lookup_insert_eq|].
    exists st'. split; [done|]. by eapply rtc_l.
Qed.

Lemma lifecycle_new t t' id st' :
  rtc lifecycle t t' -> t !! id = None -> t' !! id = Some st' ->
  exists st, (st = StatusQueued \/ st = StatusSuppressed) /\ rtc life st st'.
Proof.
  intros Hr. induction Hr as [t|t t1 t2 Hs Hr IH]; intros Hn Hl; [congruence|].
  destruct Hs as [id' status Hn' Hst ->|[id' x y Hx He ->] ].
  - destruct (decide (id' = id)) as [->|Hne]; [|apply IH; [by rewrite lookup_insert_ne|done] ].
    destruct (lifecycle_email _ _ id status Hr) as (st2 & Hl2 & Hr2); [by rewrite lookup_insert_eq|].
    simplify_eq. eauto.
  - apply IH; [|done]. rewrite lookup_insert_ne; [done|congruence].
Qed.

(** ** The machine *)

Section Platform.
Context `{GoStd} `{Codec} {S : Type}.
Context (service : SendService Sys) (worker : SendWorker Sys S) (processor : EventProcessor Sys).

(** One operation, with any input, at any point of any fault schedule. *)
Inductive platform_step (x : Sys * WorkerState S) : Sys * WorkerState S -> Prop :=
| step_send req : platform_step x ((Send service req x.1).2, x.2)
| step_batch req : platform_step x ((SendBatch service req x.1).2, x.2)
| step_work job attempt maxAttempts : platform_step x (Work worker job attempt maxAttempts x).2
| step_event event : platform_step x ((Process processor event x.1).2, x.2)
| step_open email event : platform_step x ((ProcessDirect processor email event x.1).2, x.2).

Lemma lifecycle_moves t t' : rtc (table_step life) t t' -> rtc lifecycle t t'.
Proof. apply rtc_subrel. intros a b. apply lc_move. Qed.

Lemma lifecycle_posts P s s' : rtc (post P) (mailbox s) (mailbox s') -> rtc lifecycle (status_of s) (status_of s').
Proof.
  change (status_of s) with (em_Status <$> mb_emails (mailbox s)).
  change (status_of s') with (em_Status <$> mb_emails (mailbox s')).
  generalize (mailbox s) (mailbox s'). induction 1 as [|m m1 m2 Hp _ IH]; [done|].
  eapply rtc_l; [|exact IH]. destruct Hp as [e ? ? ? ? ? _ Hf -> _ Hj]. simpl. rewrite fmap_insert.
  eapply lc_create; [by rewrite lookup_fmap, Hf| |done]. simpl. tauto.
Qed.

(** Posting, for any emails: what a send and a batch write goes through the
    outbox even when nothing is known of the templates. *)
Context `{!Wired service}.

Lemma Send_posts req w : posting mailbox (fun _ => True) (Send service req) w.
Proof.
  unfold Send. apply posting_after; [apply preserves_lift|]. intros ref w1 _.
  apply posting_after; [apply resolve_scope_frame, _|]. intros [tenant ws] w2 _.
  apply posting_after; [apply send_contents_frame, _|]. intros c w3 _.
  apply posting_after; [apply preserves_lift|]. intros [ [to cc] bcc] w4 _.
  apply posting_after; [apply EvaluateForType_frame, _|]. intros ev w5 _.
  by apply send_recipients_posting.
Qed.

Lemma prepare_adapter shared statuses item x px x' :
  prepareSendPlanExecution service shared statuses item x = (Ok px, x') ->
  ec_AdapterID (px_contents px) = ad_ID (sh_Adapter shared).
Proof.
  unfold prepareSendPlanExecution. unfold bind. repeat case_match; simplify_eq; try done.
  unfold ret. by intros [= <- _].
Qed.

Lemma SendBatch_posts req w : posting mailbox (fun _ => True) (SendBatch service req) w.
Proof.
  unfold SendBatch. apply posting_after; [apply resolveSendBatchContext_frame, _|]. intros [shared cache] w1 _.
  apply posting_after; [apply prime_frame, _|]. intros statuses w2 _.
  apply posting_bind; [|intros; apply posting_preserves, preserves_ret].
  apply posting_with_memory, posting_for_fold. intros st plan x _.
  apply posting_bind; [|intros; apply posting_preserves, preserves_ret].
  unfold executeSendPlan, posting, try.
  pose proof (prepareSendPlanExecution_frame service mailbox shared statuses (pn_Item plan) x) as F.
  destruct (prepareSendPlanExecution _ _ _ _ x) as [[px|e] x1] eqn:E; simpl in F |- *; [|by rewrite F].
  apply prepare_adapter in E. rewrite <- F.
  apply (posting_bind (on_world mailbox)); [|intros; apply posting_preserves, preserves_ret].
  apply posting_up, posting_for_fold. intros o a w' _. by apply plan_recipient_posting.
Qed.

Context `{!EmailStoreLaws (wk_emailStore worker) status_of} `{!WorkerFrame worker status_of}.
Context `{!EmailStoreLaws (ep_emails processor) status_of} `{!SuppressionStoreFrame (ep_suppression processor) status_of}.
Context `{!RuntimeFrame (ep_rt processor) status_of}.
Context (Hprovider : forall s msg, preserves status_of (snd_Send (wk_methods worker) s msg)).
Context (Hdispatch : forall D, ep_webhookService processor = Some D -> forall ws t x, preserves status_of (D ws t x)).

Lemma platform_step_lifecycle x x' :
  platform_step x x' -> rtc lifecycle (status_of x.1) (status_of x'.1).
Proof.
  intros [req|req|job a ma|event|email event]; simpl.
  - apply (lifecycle_posts (fun _ => True)), Send_posts.
  - apply (lifecycle_posts (fun _ => True)), SendBatch_posts.
  - apply lifecycle_moves. by apply (Work_moves worker status_of job a ma).
  - apply lifecycle_moves.
    pose proof (Process_moves processor status_of event ltac:(done) ltac:(done) ltac:(done) Hdispatch x.1) as Hm.
    eapply rtc_subrel; [|exact Hm]. intros t t' [k a b Ha He ->]. econstructor; [done| |done]. by apply life_event.
  - apply lifecycle_moves. by apply (ProcessDirect_moves processor status_of email event).
Qed.

Lemma platform_lifecycle x x' :
  rtc platform_step x x' -> rtc lifecycle (status_of x.1) (status_of x'.1).
Proof. induction 1 as [|x y z Hs _ IH]; [done|]. etrans; [by apply platform_step_lifecycle|exact IH]. Qed.
End Platform.

(** C1: the platform refines the life cycle of its emails: whatever sends,
    batches, worker runs, provider events and pixel hits are run, in whatever
    order and with whatever failures, the status table makes only steps of the
    abstract machine. So no email is ever lost, its status only moves along its
    life, and every email started queued or suppressed. *)
Theorem platform_refines_lifecycle `{GoStd} `{Codec} {S} (service : SendService Sys) (worker : SendWorker Sys S)
    (processor : EventProcessor Sys) x x' :
  Wired service ->
  EmailStoreLaws (wk_emailStore worker) status_of -> WorkerFrame worker status_of ->
  EmailStoreLaws (ep_emails processor) status_of -> SuppressionStoreFrame (ep_suppression processor) status_of ->
  RuntimeFrame (ep_rt processor) status_of ->
  (forall s msg, preserves status_of (snd_Send (wk_methods worker) s msg)) ->
  (forall D, ep_webhookService processor = Some D -> forall ws t y, preserves status_of (D ws t y)) ->
  rtc (platform_step service worker processor) x x' ->
  rtc lifecycle (status_of x.1) (status_of x'.1) /\
  (forall id st, status_of x.1 !! id = Some st -> exists st', status_of x'.1 !! id = Some st' /\ rtc life st st') /\
  (forall id st', status_of x.1 !! id = None -> status_of x'.1 !! id = Some st' ->
     exists st, (st = StatusQueued \/ st = StatusSuppressed) /\ rtc life st st').
Proof.
  intros ? ? ? ? ? ? Hp Hd Hr. assert (Hl : rtc lifecycle (status_of x.1) (status_of x'.1)).
  { by apply (platform_lifecycle service worker processor). }
  split; [exact Hl|]. split; intros; [by eapply lifecycle_email|by eapply lifecycle_new].
Qed.

(** ** A run: a send, the worker on its job, the provider's delivery event *)

Definition posted_job : SendJobArgs :=
  {| ja_EmailID := 2; ja_TrackingID := "trk_o1"; ja_AdapterID := 9; ja_Priority := 2 |}.

Definition pipeline `{GoStd} `{Codec} {S} (service : SendService Sys) (worker : SendWorker Sys S)
    (processor : EventProcessor Sys) req job event (x : Sys * WorkerState S) : Sys * WorkerState S :=
  let x1 := ((Send service req x.1).2, x.2) in
  let x2 := (Work worker job 1 5 x1).2 in
  ((Process processor event x2.1).2, x2.2).

Lemma pipeline_steps `{GoStd} `{Codec} {S} service (worker : SendWorker Sys S) processor req job event x :
  rtc (platform_step service worker processor) x (pipeline service worker processor req job event x).
Proof.
  eapply rtc_l; [apply step_send|]. eapply rtc_l; [apply step_work|]. apply rtc_once, step_event.
Qed.

Definition after_delivery `{GoStd} `{Codec} : Sys * WorkerState unit :=
  pipeline pg_send pg_worker pg_processor (sample_request ["b@x.io"] []) posted_job
    (sample_event EventDelivered "") (empty_sys, idle).

Lemma after_delivery_reached `{GoStd} `{Codec} :
  rtc (platform_step pg_send pg_worker pg_processor) (empty_sys, idle) after_delivery.
Proof. exact (pipeline_steps pg_send pg_worker pg_processor _ _ _ _). Qed.

Lemma pg_worker_status `{GoStd} `{Codec} : WorkerFrame pg_worker status_of.
Proof. apply pg_worker_frame; [apply _|intros ws a; repo_frame]. Qed.

Lemma platform_refines_lifecycle_witness :
  let G := ascii_std in let C := sample_codec in
  status_of (@after_delivery G C).1 !! 2%N = Some StatusDelivered /\
  exists st, (st = StatusQueued \/ st = StatusSuppressed) /\ rtc life st StatusDelivered.
Proof.
  intros G C. pose proof (after_delivery_reached (H := G)) as Hs.
  assert (Hd : status_of (@after_delivery G C).1 !! 2%N = Some StatusDelivered) by (vm_compute; reflexivity).
  split; [exact Hd|]. revert Hs Hd. generalize (@after_delivery G C). intros x' Hs Hd.
  apply platform_refines_lifecycle in Hs as (_ & _ & Hnew); try apply _; [|apply pg_worker_status|by intros [] msg|discriminate].
  exact (Hnew 2%N StatusDelivered eq_refl Hd).
Defined.
